(* ===== verification/_CoqProject ===== *)
-Q . S2P
Prelude.v
KList.v
KListFacts.v
Bitmap.v
Vaddr.v
Palloc.v
Pagedir.v
PagedirFacts.v
PagedirProps.v
AddressSpaces.v
AddressProps.v
Paging.v
Malloc.v
MallocFacts.v
Threads.v
Synch.v
SynchFacts.v
SynchInv.v
KString.v
KStdlib.v
Hash.v
Arith64.v
FixedPoint.v
Random.v
Intq.v
Serial.v
Stdio.v
Endian.v
Block.v
Fs.v
InodeFacts.v
DirFacts.v
FsFacts.v
FsExamples.v
Ustar.v
Rtc.v
Vga.v
Tokenizer.v
MmAlloc.v
WorkQueue.v
Words.v
Process.v
LoadFacts.v
Sbrk.v
LoadProps.v
Executables.v
ExecProps.v
ExecExamples.v
MrLib.v
MrApps.v
Worker.v
MrFacts.v
WorkerFacts.v
Coordinator.v
CoordinatorFacts.v
CoordinatorProps.v
Cluster.v
MapReduce.v
