(* ===== verification/Prelude.v ===== *)
(** * Verification of the CS 162 operating-system repository

    The repository holds the Pintos teaching kernel (src/Homework/proj-pregame/src, with a second
    copy for the memory homework in src/Homework/hw-memory/pintos) and several stand-alone course
    programs.  This development models the kernel's core, from its data structures up to its file
    system and user processes, the MapReduce cluster of src/Homework/hw-map-reduce, and the heap and
    allocator of the memory homework.

    ** How C is modelled

    A C routine becomes a function into [outcome] (this file): it returns, fails an [ASSERT] or
    calls [PANIC], has undefined behaviour, or (for a loop without a structural bound) runs out of
    fuel.  So a theorem that a routine equals [Ret _] says that no assertion fails, that no access
    is out of bounds and that its loops stop.  Routines that change a large state use the state
    monad [ST] over [outcome], with the notations [let!] and [assert!].  Machine integers are [Z]
    with the wrap-around or the undefined overflow written out; memory is a finite map of bytes or
    a list; objects that C shares by pointer live in a heap indexed by their address.

    ** Parts, files and sources (paths below src/Homework/proj-pregame/src)

    - Kernel data structures.  [KList], [KListFacts]: lib/kernel/list.c on a heap of cells,
      refined to sequences.  [Bitmap]: lib/kernel/bitmap.c, 32-bit elements refined to arrays of
      bits.  [Hash]: lib/kernel/hash.c with its callbacks, refined to a finite map.
    - Memory.  [Vaddr]: threads/vaddr.h and pte.h.  [Palloc]: threads/palloc.c, two pools over
      [Bitmap].  [Malloc], [MallocFacts]: threads/malloc.c, written against the class
      [page_allocator] that Palloc implements.
    - Address spaces.  [Pagedir], [PagedirFacts], [PagedirProps]: userprog/pagedir.c over the bytes of
      Palloc's memory, with the CPU's page-directory register and TLB.  [AddressSpaces], [AddressProps]:
      creating and destroying directories, and all address spaces together under any sequence of
      kernel and CPU steps.  [Paging]: paging_init of threads/init.c.
    - Processes.  [Process]: userprog/process.c, exception.c, syscall.c and the stack switch of tss.c,
      over the page directories and the file system.  [LoadFacts], [LoadProps], [Executables],
      [ExecProps]: loading ELF segments page by page, whole executables, and the life of a process;
      [ExecExamples]: a small executable on a small machine.
    - The heap of a process (src/Homework/hw-memory).  [Sbrk]: the sbrk system call of
      pintos/src/userprog/syscall.c over Pagedir.  [MmAlloc]: mm_alloc/mm_alloc.c on the bytes sbrk gives,
      with the struct layout of that 32-bit machine (on a 64-bit host the metadata take 24 bytes).
    - Threads.  [Threads]: threads/thread.c and the interrupt state of threads/interrupt.c.
      [Synch], [SynchFacts], [SynchInv]: threads/synch.c executed by preemptible threads, as a
      step relation: a thread has a stack of frames, a step runs one frame of the current thread
      or a timer interrupt, and the invariant is proved by induction on the steps.
    - Libraries.  [KString]: lib/string.c.  [KStdlib]: lib/stdlib.c and ctype.h.  [Arith64]:
      lib/arithmetic.c.  [FixedPoint]: threads/fixed-point.h.  [Random]: lib/random.c.  [Stdio]:
      lib/stdio.c.  [Ustar]: lib/ustar.c.
    - Devices.  [Intq], [Serial]: devices/intq.c, input.c, serial.c, kbd.c.  [Vga]: devices/vga.c,
      refined to a sheet of paper.  [Rtc]: devices/rtc.c against the calendar.
    - Storage.  [Endian]: fields of on-disk structures.  [Block]: devices/block.c and partition.c
      over a chain of drivers; it gives the class [block_device].  [Fs]: filesys/inode.c, file.c,
      free-map.c, directory.c and filesys.c over any [block_device]; [InodeFacts], [DirFacts] and
      [FsFacts] hold the theorems, [FsExamples] a small formatted disk.
    - The shell's tokenizer (src/Homework/hw-shell).  [Tokenizer]: tokenizer.c on the C library's heap.
    - The HTTP server's work queue (src/Homework/hw-http).  [WorkQueue]: wq.c with the list macros of
      utlist.h, its calls interleaved as a step relation.
    - The word counter (src/Homework/hw-intro/words).  [Words]: word_count.c and main.c.
    - MapReduce (src/Homework/hw-map-reduce).  [MrLib], [MrFacts]: lib/lib.c and codec/codec.c.
      [MrApps]: the applications of app/.  [Worker], [WorkerFacts]: worker/task_handler.c.
      [Coordinator], [CoordinatorFacts], [CoordinatorProps]: coordinator/coordinator.c, with the
      four remote procedures as requests and the states they reach.  [Cluster]: the loop of
      worker/worker.c against the coordinator.  [MapReduce]: a job through the whole cluster.

    Definitions keep the names of the C functions; a loop of a function is a [Fixpoint] named
    after it ([_loop]), a C struct a [Record] with the same fields.

    ** What the theorems show

    - Refinement: list, bitmap, hash table, block device and text display against sequences, arrays of
      bits, finite maps, arrays of sectors and paper.
    - Allocators: first fit, distinct live blocks, blocks untouched by the release of others, and
      exact accounting of pages and sectors, for the page allocator, [malloc] and [free] (which gives back
      the pages of an arena exactly when its last block is freed), and the free map;
      first fit with splitting and coalescing for the user-level allocator, with the states in which
      its [mm_free] goes wrong.
    - Address spaces: mapping and destroying a directory do what they say and touch nothing else; no
      frame is shared between processes and the TLB agrees with the tables whatever happens in any
      order; [sbrk] keeps exactly the heap's pages mapped.
    - Processes: [load] puts every segment where its header says or fails with a well-formed address
      space; creating, loading and exiting leaves the page allocator as it was; system calls and
      faults end the right process, or the kernel where they do.
    - Concurrency: the scheduler invariant, mutual exclusion of locks and the exclusion of
      readers-writers locks in every reachable state of the preemptible kernel; the queue between
      interrupt handlers and threads is first-in first-out; in the HTTP server's work queue every
      connection is returned once, in order, and no wake-up is lost.
    - Libraries: heap sort and merge sort give sorted permutations, division and formatting agree
      with their mathematical definitions, [snprintf] and [atoi] are inverse, the tokenizer
      returns the tokens of its string, an archive header parses back, the shell's words survive
      quoting and the shell's heap does not leak; the word counter counts occurrences, and is undefined
      exactly when a word does not fit its buffer.
    - Storage: what is written is read back and nothing else changes, an inode removed while open
      keeps its sectors until the last close, directories find the names they hold, the partition
      scan lists the partitions (and never returns on a cyclic chain of extended partitions).
    - MapReduce: while memory lasts every sequence of well-formed requests is served safely, the schedule equals a
      reference schedule, reduce tasks wait for the map tasks, one worker completes a job, and the
      output files of a word-count job hold the number of occurrences of each word.

    ** Bounds and fuel

    Loops bounded by a counter of the code recurse on that bound.  A loop that follows pointers or
    scans to a sentinel takes fuel; each theorem about it states how much is enough (for [strlen],
    one more than the length of the string; for a list, one more than its number of elements) or
    quantifies over all larger amounts.  Loading takes [load_fuel], [sbrk] [range_fuel] and the
    user-level allocator [heap_fuel], one or two more than the pages or blocks there can be, and the
    clock any positive amount while its registers are stable; all are proved enough.  The partition
    scan is proved to return for no amount on a cyclic chain.

    ** Parameters of the model

    What the sources do not define is an argument: the block drivers below the device layer, [calloc]
    of the work queue and the outcome of [malloc] in the user programs, the
    hash and comparison callbacks, the time and the outcome of host allocation in the MapReduce
    programs, and [qsort], whose documented behaviour is the class [qsort_laws] with insertion sort
    as an instance.

    ** Not modelled

    Assembly (loader.S, start.S, switch.S, intr-stubs.S) and the rest of start-up in init.c; the
    descriptor tables (gdt.c, tss.c but for the stack switch) and drivers whose behaviour is that of the
    hardware (ide.c, pit.c, timer.c, speaker.c, shutdown.c); console.c, debug.c, fsutil.c and the user
    library, which only wrap modelled functions or traps; tests, examples and utilities; the second
    copy of the kernel under hw-memory but for sbrk; the other homework programs (hw-list, hw-intro
    but for the word counter, hw-http but for its work queue, the shell but for its tokenizer,
    lab-rpc, the Rust ones), which are glue over POSIX, sockets or vendored libraries.  The reasons
    are with the components of the manifest.  Outside the
    models of modelled parts: masking interrupts in the display driver, two threads that run MapReduce
    tasks at the same time, and failing remote calls.

    ** This file

    The outcome monad in which every fallible C routine is written, machine-width integers, array
    access with C's bounds discipline, little-endian byte encoding, counted loops, and the lemmas
    and tactics about them. *)
From stdpp Require Export base numbers list list_numbers gmap strings sorting.
From Stdlib Require Export ZArith Lia ZifyBool.

#[global] Open Scope Z_scope.
#[global] Generalizable All Variables.

(** * Outcomes

    [Ret a]: the routine returned [a].  [Panic]: an [ASSERT] failed or [PANIC] was called.
    [UB]: the C code has undefined behaviour (an access outside an array, a null or dangling
    dereference).  [NoFuel]: the fuel given to a loop ran out; termination theorems show that
    it does not. *)
Inductive outcome (A : Type) : Type :=
  | Ret (a : A)
  | Panic
  | UB
  | NoFuel.
Arguments Ret {A} a.
Arguments Panic {A}.
Arguments UB {A}.
Arguments NoFuel {A}.

Definition obind {A B} (m : outcome A) (f : A -> outcome B) : outcome B :=
  match m with
  | Ret a => f a
  | Panic => Panic
  | UB => UB
  | NoFuel => NoFuel
  end.

#[global] Instance outcome_eq_dec {A} `{EqDecision A} : EqDecision (outcome A).
Proof. solve_decision. Defined.

Declare Scope kern_scope.
Delimit Scope kern_scope with kern.
#[global] Open Scope kern_scope.

Notation "'let?' x ':=' m 'in' k" := (obind m (fun x => k))
  (at level 10, x pattern, m at level 200, k at level 200,
   format "'[v' 'let?'  x  ':='  m  'in' '/' k ']'") : kern_scope.
Notation "'assert?' b 'in' k" := (if (b : bool) then k else Panic)
  (at level 10, b at level 200, k at level 200,
   format "'[v' 'assert?'  b  'in' '/' k ']'") : kern_scope.

(** A null or dangling pointer dereference is undefined behaviour. *)
Definition deref {A} (o : option A) : outcome A :=
  match o with Some a => Ret a | None => UB end.

Lemma obind_Ret {A B} (m : outcome A) (f : A -> outcome B) (b : B) :
  obind m f = Ret b <-> exists a, m = Ret a /\ f a = Ret b.
Proof.
  split.
  - destruct m; simpl; try discriminate. eauto.
  - intros (a & -> & ?). assumption.
Qed.

Lemma obind_assoc {A B C} (m : outcome A) (f : A -> outcome B) (g : B -> outcome C) :
  obind (obind m f) g = obind m (fun a => obind (f a) g).
Proof. destruct m; reflexivity. Qed.

Lemma deref_Ret {A} (o : option A) (a : A) : deref o = Ret a <-> o = Some a.
Proof. destruct o; simpl; split; congruence. Qed.

Lemma assert_Ret {A} (b : bool) (m : outcome A) (a : A) :
  (assert? b in m) = Ret a <-> b = true /\ m = Ret a.
Proof. destruct b; split; intros H; try tauto; try discriminate; destruct H; congruence. Qed.

(** Decomposes hypotheses of the form [m = Ret v] through binds and assertions. *)
Ltac inv_ret1 :=
  match goal with
  | H : Ret _ = Ret _ |- _ => injection H as H; try subst
  | H : Panic = Ret _ |- _ => discriminate H
  | H : UB = Ret _ |- _ => discriminate H
  | H : NoFuel = Ret _ |- _ => discriminate H
  | H : obind _ _ = Ret _ |- _ =>
      apply obind_Ret in H; destruct H as (? & ? & H)
  | H : (if _ then _ else Panic) = Ret _ |- _ =>
      apply assert_Ret in H; destruct H as [? H]
  | H : deref _ = Ret _ |- _ => apply deref_Ret in H
  | H : (_, _) = (_, _) |- _ => injection H as ?; subst
  | x : (_ * _)%type |- _ => destruct x
  end.
Ltac inv_ret := repeat (inv_ret1; simpl in * ).

(** ** State passing with errors *)

Definition ST (S A : Type) : Type := S -> outcome (A * S).
Definition ret {S A} (a : A) : ST S A := fun s => Ret (a, s).
Definition bind {S A B} (m : ST S A) (f : A -> ST S B) : ST S B := fun s => let? (a, s) := m s in f a s.
Definition lift {S A} (o : outcome A) : ST S A := fun s => let? a := o in Ret (a, s).
Definition panic {S A} : ST S A := fun _ => Panic.
Definition gets {S A} (f : S -> A) : ST S A := fun s => Ret (f s, s).
Definition modify {S} (f : S -> S) : ST S unit := fun s => Ret (tt, f s).
Notation "'let!' x ':=' m 'in' k" := (bind m (fun x => k))
  (at level 10, x pattern, m at level 200, k at level 200,
   format "'[v' 'let!'  x  ':='  m  'in' '/' k ']'") : kern_scope.
Notation "'assert!' b 'in' k" := (if (b : bool) then k else panic)
  (at level 10, b at level 200, k at level 200,
   format "'[v' 'assert!'  b  'in' '/' k ']'") : kern_scope.

Lemma bind_lift_Ret {S A B} (a : A) (f : A -> ST S B) s : bind (lift (Ret a)) f s = f a s.
Proof. reflexivity. Qed.
Lemma bind_Ret {S A B} (m : ST S A) (f : A -> ST S B) a s s' : m s = Ret (a, s') -> bind m f s = f a s'.
Proof. intros H. unfold bind. by rewrite H. Qed.
Lemma bind_gets {S A B} (g : S -> A) (f : A -> ST S B) s : bind (gets g) f s = f (g s) s.
Proof. done. Qed.
Lemma bind_modify {S B} (g : S -> S) (f : unit -> ST S B) s : bind (modify g) f s = f tt (g s).
Proof. done. Qed.
Lemma bind_ret {S A B} (a : A) (f : A -> ST S B) s : bind (ret a) f s = f a s.
Proof. done. Qed.

(** * Machine integers *)

Definition u8 (z : Z) : Z := z mod 2 ^ 8.
Definition u16 (z : Z) : Z := z mod 2 ^ 16.
Definition u32 (z : Z) : Z := z mod 2 ^ 32.
Definition u64 (z : Z) : Z := z mod 2 ^ 64.
(** Conversion of a 32-bit (64-bit) pattern to the signed type, two's complement. *)
Definition s32 (z : Z) : Z := (z + 2 ^ 31) mod 2 ^ 32 - 2 ^ 31.
Definition s64 (z : Z) : Z := (z + 2 ^ 63) mod 2 ^ 64 - 2 ^ 63.

Definition UINT_MAX : Z := 2 ^ 32 - 1.
Definition INT_MAX : Z := 2 ^ 31 - 1.
Definition INT_MIN : Z := - 2 ^ 31.

Abbreviation in_u32 z := (0 <= z < 4294967296) (only parsing).
Abbreviation in_s32 z := (-2147483648 <= z < 2147483648) (only parsing).

Lemma u32_range z : in_u32 (u32 z).
Proof. unfold u32. change 4294967296 with (2 ^ 32). apply Z.mod_pos_bound. lia. Qed.
Lemma u32_small z : in_u32 z -> u32 z = z.
Proof. intros. unfold u32. apply Z.mod_small. lia. Qed.
Lemma u8_range z : 0 <= u8 z < 256.
Proof. unfold u8. change 256 with (2 ^ 8). apply Z.mod_pos_bound. lia. Qed.
Lemma u8_small z : 0 <= z < 256 -> u8 z = z.
Proof. intros. unfold u8. apply Z.mod_small. lia. Qed.
Lemma u64_range z : 0 <= u64 z < 2 ^ 64.
Proof. unfold u64. apply Z.mod_pos_bound. lia. Qed.
Lemma u64_small z : 0 <= z < 2 ^ 64 -> u64 z = z.
Proof. intros. unfold u64. apply Z.mod_small. lia. Qed.
Lemma s32_range z : in_s32 (s32 z).
Proof.
  unfold s32. pose proof (Z.mod_pos_bound (z + 2 ^ 31) (2 ^ 32)). lia.
Qed.
Lemma s32_small z : in_s32 z -> s32 z = z.
Proof. intros. unfold s32. rewrite Z.mod_small; lia. Qed.
Lemma s64_small z : - 2 ^ 63 <= z < 2 ^ 63 -> s64 z = z.
Proof. intros. unfold s64. rewrite Z.mod_small; lia. Qed.

Create HintDb width.
#[export] Hint Resolve u32_range u8_range u64_range s32_range : width.

(** * Arrays

    A C array is a list; an index is an integer.  Reading or writing outside it is
    undefined behaviour. *)

Definition aget {A} (l : list A) (i : Z) : option A :=
  if 0 <=? i then l !! Z.to_nat i else None.

Definition aset {A} (l : list A) (i : Z) (x : A) : outcome (list A) :=
  if (0 <=? i) && (i <? Z.of_nat (length l)) then Ret (<[Z.to_nat i := x]> l) else UB.

Definition aread {A} (l : list A) (i : Z) : outcome A := deref (aget l i).

Lemma aget_Some {A} (l : list A) i x :
  aget l i = Some x -> 0 <= i < Z.of_nat (length l).
Proof.
  unfold aget. destruct (0 <=? i) eqn:E; [|discriminate].
  intros H. apply lookup_lt_Some in H. lia.
Qed.

Lemma aget_is_Some {A} (l : list A) i :
  0 <= i < Z.of_nat (length l) -> exists x, aget l i = Some x.
Proof.
  intros H. unfold aget. replace (0 <=? i) with true by lia.
  destruct (lookup_lt_is_Some_2 l (Z.to_nat i)) as [x Hx]; [lia|eauto].
Qed.

Lemma aset_Ret {A} (l l' : list A) i x :
  aset l i x = Ret l' <-> 0 <= i < Z.of_nat (length l) /\ l' = <[Z.to_nat i := x]> l.
Proof.
  unfold aset. destruct ((0 <=? i) && (i <? Z.of_nat (length l))) eqn:E.
  - split; [intros [= <-]; split; [lia|done] | intros [_ ->]; done].
  - split; [discriminate | intros [? _]; lia].
Qed.

Lemma aget_insert_eq {A} (l : list A) i x :
  0 <= i < Z.of_nat (length l) -> aget (<[Z.to_nat i := x]> l) i = Some x.
Proof.
  intros. unfold aget. replace (0 <=? i) with true by lia.
  apply list_lookup_insert_eq. lia.
Qed.

Lemma aget_insert_ne {A} (l : list A) i j x :
  0 <= i -> i <> j -> aget (<[Z.to_nat i := x]> l) j = aget l j.
Proof.
  intros. unfold aget. destruct (0 <=? j) eqn:E; [|done].
  apply list_lookup_insert_ne. lia.
Qed.

(** Proves a decidable closed proposition by evaluating its decision procedure. *)
Ltac by_compute := refine (bool_decide_unpack _ _); vm_compute; exact I.

(** Filtering by a predicate that holds everywhere changes nothing. *)
Lemma list_filter_all {A} (P : A -> Prop) `{!forall x, Decision (P x)} (l : list A) :
  (forall x, x ∈ l -> P x) -> filter P l = l.
Proof.
  induction l as [|x l IH]; [done|]. intros Hall. rewrite filter_cons_True.
  - f_equal. apply IH. intros y Hy. apply Hall. by right.
  - apply Hall. by left.
Qed.

Lemma list_filter_none {A} (P : A -> Prop) `{!forall x, Decision (P x)} (l : list A) :
  (forall x, x ∈ l -> ~ P x) -> filter P l = [].
Proof.
  induction l as [|x l IH]; [done|]. intros Hall. rewrite filter_cons_False.
  - apply IH. intros y Hy. apply Hall. by right.
  - apply Hall. by left.
Qed.

(** The bytes of a string literal. *)
Definition chars (str : string) : list Z :=
  map (fun c => Z.of_nat (Ascii.nat_of_ascii c)) (String.list_ascii_of_string str).
