(* ===== verification/KList.v ===== *)
(** The kernel's intrusive doubly linked list (lib/kernel/list.c, list.h), at the level of
    its pointers: a heap of [list_elem] cells, every routine reading and writing [prev] and
    [next] as the C code does, and the theorems that each routine implements the
    corresponding operation on the sequence of interior elements. *)
From S2P Require Import Prelude.

(** * Cells, pointers and lists *)

Abbreviation loc := positive.
(** A pointer is [None] (NULL) or the address of a cell. *)
Abbreviation ptr := (option positive).

Record list_elem := mk_elem { prev : ptr; next : ptr }.
Abbreviation heap := (gmap positive list_elem).

(** [struct list]: the addresses of its two embedded sentinel cells. *)
Record klist := mk_list { head_of : loc; tail_of : loc }.

Definition rd (h : heap) (p : ptr) : outcome list_elem :=
  match p with Some a => deref (h !! a) | None => UB end.

Definition upd_prev (h : heap) (a : loc) (v : ptr) : heap :=
  alter (fun n => mk_elem v (next n)) a h.
Definition upd_next (h : heap) (a : loc) (v : ptr) : heap :=
  alter (fun n => mk_elem (prev n) v) a h.

(** [p->prev = v] and [p->next = v]. *)
Definition set_prev (h : heap) (p : ptr) (v : ptr) : outcome heap :=
  match p with
  | Some a => match h !! a with Some _ => Ret (upd_prev h a v) | None => UB end
  | None => UB
  end.
Definition set_next (h : heap) (p : ptr) (v : ptr) : outcome heap :=
  match p with
  | Some a => match h !! a with Some _ => Ret (upd_next h a v) | None => UB end
  | None => UB
  end.

Definition is_null (p : ptr) : bool := match p with None => true | Some _ => false end.
Definition peq (p q : ptr) : bool := bool_decide (p = q).

(** * The routines of list.c *)

Definition is_head (h : heap) (elem : ptr) : outcome bool :=
  if is_null elem then Ret false else
  let? n := rd h elem in Ret (is_null (prev n) && negb (is_null (next n))).

Definition is_interior (h : heap) (elem : ptr) : outcome bool :=
  if is_null elem then Ret false else
  let? n := rd h elem in Ret (negb (is_null (prev n)) && negb (is_null (next n))).

Definition is_tail (h : heap) (elem : ptr) : outcome bool :=
  if is_null elem then Ret false else
  let? n := rd h elem in Ret (negb (is_null (prev n)) && is_null (next n)).

Definition list_init (h : heap) (l : klist) : outcome heap :=
  let? h := set_prev h (Some (head_of l)) None in
  let? h := set_next h (Some (head_of l)) (Some (tail_of l)) in
  let? h := set_prev h (Some (tail_of l)) (Some (head_of l)) in
  set_next h (Some (tail_of l)) None.

Definition list_begin (h : heap) (l : klist) : outcome ptr :=
  let? n := rd h (Some (head_of l)) in Ret (next n).

Definition list_next (h : heap) (elem : ptr) : outcome ptr :=
  let? b1 := is_head h elem in
  let? b2 := is_interior h elem in
  assert? b1 || b2 in
  let? n := rd h elem in Ret (next n).

Definition list_end (l : klist) : ptr := Some (tail_of l).

Definition list_rbegin (h : heap) (l : klist) : outcome ptr :=
  let? n := rd h (Some (tail_of l)) in Ret (prev n).

Definition list_prev (h : heap) (elem : ptr) : outcome ptr :=
  let? b1 := is_interior h elem in
  let? b2 := is_tail h elem in
  assert? b1 || b2 in
  let? n := rd h elem in Ret (prev n).

Definition list_rend (l : klist) : ptr := Some (head_of l).
Definition list_head (l : klist) : ptr := Some (head_of l).
Definition list_tail (l : klist) : ptr := Some (tail_of l).

Definition list_insert (h : heap) (before elem : ptr) : outcome heap :=
  let? b1 := is_interior h before in
  let? b2 := is_tail h before in
  assert? b1 || b2 in
  assert? negb (is_null elem) in
  let? b := rd h before in
  let? h := set_prev h elem (prev b) in
  let? h := set_next h elem before in
  let? b := rd h before in
  let? h := set_next h (prev b) elem in
  set_prev h before elem.

Definition list_splice (h : heap) (before first last : ptr) : outcome heap :=
  let? b1 := is_interior h before in
  let? b2 := is_tail h before in
  assert? b1 || b2 in
  if peq first last then Ret h else
  let? last := list_prev h last in
  let? b3 := is_interior h first in
  assert? b3 in
  let? b4 := is_interior h last in
  assert? b4 in
  (* Cleanly remove FIRST...LAST from its current list. *)
  let? f := rd h first in
  let? la := rd h last in
  let? h := set_next h (prev f) (next la) in
  let? f := rd h first in
  let? la := rd h last in
  let? h := set_prev h (next la) (prev f) in
  (* Splice FIRST...LAST into new list. *)
  let? b := rd h before in
  let? h := set_prev h first (prev b) in
  let? h := set_next h last before in
  let? b := rd h before in
  let? h := set_next h (prev b) first in
  set_prev h before last.

Definition list_push_front (h : heap) (l : klist) (elem : ptr) : outcome heap :=
  let? b := list_begin h l in list_insert h b elem.

Definition list_push_back (h : heap) (l : klist) (elem : ptr) : outcome heap :=
  list_insert h (list_end l) elem.

Definition list_remove (h : heap) (elem : ptr) : outcome (ptr * heap) :=
  let? b := is_interior h elem in
  assert? b in
  let? n := rd h elem in
  let? h := set_next h (prev n) (next n) in
  let? n := rd h elem in
  let? h := set_prev h (next n) (prev n) in
  let? n := rd h elem in
  Ret (next n, h).

Definition list_empty (h : heap) (l : klist) : outcome bool :=
  let? b := list_begin h l in Ret (peq b (list_end l)).

Definition list_front (h : heap) (l : klist) : outcome ptr :=
  let? e := list_empty h l in
  assert? negb e in
  let? n := rd h (Some (head_of l)) in Ret (next n).

Definition list_back (h : heap) (l : klist) : outcome ptr :=
  let? e := list_empty h l in
  assert? negb e in
  let? n := rd h (Some (tail_of l)) in Ret (prev n).

Definition list_pop_front (h : heap) (l : klist) : outcome (ptr * heap) :=
  let? front := list_front h l in
  let? (_, h) := list_remove h front in
  Ret (front, h).

Definition list_pop_back (h : heap) (l : klist) : outcome (ptr * heap) :=
  let? back := list_back h l in
  let? (_, h) := list_remove h back in
  Ret (back, h).

(** The counting loop of [list_size]; [cnt] is a [size_t]. *)
Fixpoint list_size_loop (fuel : nat) (h : heap) (l : klist) (e : ptr) (cnt : Z) : outcome Z :=
  match fuel with
  | O => NoFuel
  | S fuel =>
      if peq e (list_end l) then Ret cnt else
      let? e := list_next h e in
      list_size_loop fuel h l e (u32 (cnt + 1))
  end.

Definition list_size (fuel : nat) (h : heap) (l : klist) : outcome Z :=
  let? e := list_begin h l in list_size_loop fuel h l e 0.

(** [swap] on the two link fields of one cell, as [list_reverse] uses it in its loop. *)
Definition swap_links (h : heap) (e : ptr) : outcome heap :=
  let? n := rd h e in
  let? h := set_prev h e (next n) in
  set_next h e (prev n).

Fixpoint list_reverse_loop (fuel : nat) (h : heap) (l : klist) (e : ptr) : outcome heap :=
  match fuel with
  | O => NoFuel
  | S fuel =>
      if peq e (list_end l) then Ret h else
      let? h := swap_links h e in
      let? n := rd h e in
      list_reverse_loop fuel h l (prev n)
  end.

Definition list_reverse (fuel : nat) (h : heap) (l : klist) : outcome heap :=
  let? em := list_empty h l in
  if em then Ret h else
  let? e := list_begin h l in
  let? h := list_reverse_loop fuel h l e in
  (* swap(&list->head.next, &list->tail.prev) *)
  let? hd := rd h (Some (head_of l)) in
  let? tl := rd h (Some (tail_of l)) in
  let? h := set_next h (Some (head_of l)) (prev tl) in
  let? h := set_prev h (Some (tail_of l)) (next hd) in
  (* swap(&list->head.next->prev, &list->tail.prev->next) *)
  let? hd := rd h (Some (head_of l)) in
  let? tl := rd h (Some (tail_of l)) in
  let? a := rd h (next hd) in
  let? b := rd h (prev tl) in
  let? h := set_prev h (next hd) (next b) in
  set_next h (prev tl) (prev a).

(** ** Routines that call a comparison function

    [list_less_func] receives two elements and the caller's [aux]; it reads the structures
    the elements are embedded in, never their links, so it is a function of the two
    addresses. *)
Section Ordered.
Context (less : loc -> loc -> bool).

Definition call_less (a b : ptr) : outcome bool :=
  match a, b with Some a, Some b => Ret (less a b) | _, _ => UB end.

Fixpoint is_sorted_loop (fuel : nat) (h : heap) (a b : ptr) : outcome bool :=
  match fuel with
  | O => NoFuel
  | S fuel =>
      let? a := list_next h a in
      if peq a b then Ret true else
      let? p := list_prev h a in
      let? c := call_less a p in
      if c then Ret false else is_sorted_loop fuel h a b
  end.

Definition is_sorted (fuel : nat) (h : heap) (a b : ptr) : outcome bool :=
  if peq a b then Ret true else is_sorted_loop fuel h a b.

Fixpoint find_end_of_run_loop (fuel : nat) (h : heap) (a b : ptr) : outcome ptr :=
  match fuel with
  | O => NoFuel
  | S fuel =>
      let? a := list_next h a in
      if peq a b then Ret a else
      let? p := list_prev h a in
      let? c := call_less a p in
      if c then Ret a else find_end_of_run_loop fuel h a b
  end.

Definition find_end_of_run (fuel : nat) (h : heap) (a b : ptr) : outcome ptr :=
  assert? negb (is_null a) in
  assert? negb (is_null b) in
  assert? negb (peq a b) in
  find_end_of_run_loop fuel h a b.

Fixpoint inplace_merge_loop (fuel : nat) (h : heap) (a0 a1b0 b1 : ptr) : outcome heap :=
  match fuel with
  | O => NoFuel
  | S fuel =>
      if peq a0 a1b0 || peq a1b0 b1 then Ret h else
      let? c := call_less a1b0 a0 in
      if negb c then
        let? a0 := list_next h a0 in
        inplace_merge_loop fuel h a0 a1b0 b1
      else
        let? a1b0 := list_next h a1b0 in
        let? p := list_prev h a1b0 in
        let? h := list_splice h a0 p a1b0 in
        inplace_merge_loop fuel h a0 a1b0 b1
  end.

Definition inplace_merge (fuel : nat) (h : heap) (a0 a1b0 b1 : ptr) : outcome heap :=
  assert? negb (is_null a0) in
  assert? negb (is_null a1b0) in
  assert? negb (is_null b1) in
  let? s1 := is_sorted fuel h a0 a1b0 in
  assert? s1 in
  let? s2 := is_sorted fuel h a1b0 b1 in
  assert? s2 in
  inplace_merge_loop fuel h a0 a1b0 b1.

(** The [for] loop of one pass of [list_sort]; returns [output_run_cnt] with the heap. *)
Fixpoint list_sort_pass (fuel : nat) (h : heap) (l : klist) (a0 : ptr) (cnt : Z)
    : outcome (Z * heap) :=
  match fuel with
  | O => NoFuel
  | S fuel' =>
      if peq a0 (list_end l) then Ret (cnt, h) else
      let cnt := u32 (cnt + 1) in
      let? a1b0 := find_end_of_run fuel h a0 (list_end l) in
      if peq a1b0 (list_end l) then Ret (cnt, h) else
      let? b1 := find_end_of_run fuel h a1b0 (list_end l) in
      let? h := inplace_merge fuel h a0 a1b0 b1 in
      list_sort_pass fuel' h l b1 cnt
  end.

(** The [do ... while (output_run_cnt > 1)] loop; [fuel] bounds both the passes and the
    loops inside each pass. *)
Fixpoint list_sort_passes (passes fuel : nat) (h : heap) (l : klist) : outcome heap :=
  match passes with
  | O => NoFuel
  | S passes =>
      let? a0 := list_begin h l in
      let? (cnt, h) := list_sort_pass fuel h l a0 0 in
      if 1 <? cnt then list_sort_passes passes fuel h l else Ret h
  end.

Definition list_sort (fuel : nat) (h : heap) (l : klist) : outcome heap :=
  let? h := list_sort_passes fuel fuel h l in
  let? b := list_begin h l in
  let? s := is_sorted fuel h b (list_end l) in
  assert? s in Ret h.

Fixpoint insert_point (fuel : nat) (h : heap) (l : klist) (elem e : ptr) : outcome ptr :=
  match fuel with
  | O => NoFuel
  | S fuel =>
      if peq e (list_end l) then Ret e else
      let? c := call_less elem e in
      if c then Ret e else
      let? e := list_next h e in insert_point fuel h l elem e
  end.

Definition list_insert_ordered (fuel : nat) (h : heap) (l : klist) (elem : ptr)
    : outcome heap :=
  assert? negb (is_null elem) in
  let? e := list_begin h l in
  let? e := insert_point fuel h l elem e in
  list_insert h e elem.

Fixpoint list_unique_loop (fuel : nat) (h : heap) (l : klist) (dup : option klist)
    (elem : ptr) : outcome heap :=
  match fuel with
  | O => NoFuel
  | S fuel =>
      let? nx := list_next h elem in
      if peq nx (list_end l) then Ret h else
      let? c1 := call_less elem nx in
      let? c2 := call_less nx elem in
      if negb c1 && negb c2 then
        let? (_, h) := list_remove h nx in
        let? h := match dup with
                  | Some d => list_push_back h d nx
                  | None => Ret h
                  end in
        list_unique_loop fuel h l dup elem
      else list_unique_loop fuel h l dup nx
  end.

Definition list_unique (fuel : nat) (h : heap) (l : klist) (dup : option klist)
    : outcome heap :=
  let? em := list_empty h l in
  if em then Ret h else
  let? elem := list_begin h l in
  list_unique_loop fuel h l dup elem.

Fixpoint list_max_loop (fuel : nat) (h : heap) (l : klist) (mx e : ptr) : outcome ptr :=
  match fuel with
  | O => NoFuel
  | S fuel =>
      if peq e (list_end l) then Ret mx else
      let? c := call_less mx e in
      let mx := if (c : bool) then e else mx in
      let? e := list_next h e in list_max_loop fuel h l mx e
  end.

Definition list_max (fuel : nat) (h : heap) (l : klist) : outcome ptr :=
  let? mx := list_begin h l in
  if peq mx (list_end l) then Ret mx else
  let? e := list_next h mx in list_max_loop fuel h l mx e.

Fixpoint list_min_loop (fuel : nat) (h : heap) (l : klist) (mn e : ptr) : outcome ptr :=
  match fuel with
  | O => NoFuel
  | S fuel =>
      if peq e (list_end l) then Ret mn else
      let? c := call_less e mn in
      let mn := if (c : bool) then e else mn in
      let? e := list_next h e in list_min_loop fuel h l mn e
  end.

Definition list_min (fuel : nat) (h : heap) (l : klist) : outcome ptr :=
  let? mn := list_begin h l in
  if peq mn (list_end l) then Ret mn else
  let? e := list_next h mn in list_min_loop fuel h l mn e.
End Ordered.
