(* ===== verification/KListFacts.v ===== *)
(** Theory of the kernel list: the representation predicate [is_list] that ties a heap to
    the sequence of interior elements, the effect of every routine of [KList] on that
    sequence, and the correctness of the natural merge sort. *)
From S2P Require Import Prelude KList.
From Stdlib Require Import Sorted.

(** * Representation *)

Definition next_of (h : heap) (a : loc) : option ptr := next <$> h !! a.
Definition prev_of (h : heap) (a : loc) : option ptr := prev <$> h !! a.

(** [a] is immediately followed by [b]. *)
Definition links (h : heap) (a b : loc) : Prop :=
  next_of h a = Some (Some b) /\ prev_of h b = Some (Some a).

Fixpoint linked (h : heap) (L : list loc) : Prop :=
  match L with
  | a :: ((b :: _) as t) => links h a b /\ linked h t
  | _ => True
  end.

(** The cells of a list, sentinels included. *)
Definition cells (l : klist) (xs : list loc) : list loc :=
  head_of l :: xs ++ [tail_of l].

Record is_list (h : heap) (l : klist) (xs : list loc) : Prop := {
  il_nodup : NoDup (cells l xs);
  il_head : prev_of h (head_of l) = Some None;
  il_tail : next_of h (tail_of l) = Some None;
  il_linked : linked h (cells l xs)
}.

(** The cell where [ys] starts, when [ys] is a suffix of the elements. *)
Definition at_ (l : klist) (ys : list loc) : loc := List.hd (tail_of l) ys.

Lemma peq_true (p q : ptr) : peq p q = true <-> p = q.
Proof. unfold peq. rewrite bool_decide_eq_true. done. Qed.
Lemma peq_false (p q : ptr) : p <> q -> peq p q = false.
Proof. intros. unfold peq. by apply bool_decide_eq_false. Qed.
Lemma peq_refl (p : ptr) : peq p p = true.
Proof. by apply peq_true. Qed.

(** ** Splitting and framing linked segments *)

Definition joined (h : heap) (L1 L2 : list loc) : Prop :=
  forall a b, last L1 = Some a -> head L2 = Some b -> links h a b.

Lemma linked_cons h a L : linked h (a :: L) <-> joined h [a] L /\ linked h L.
Proof.
  destruct L as [|b L]; simpl; unfold joined; simpl.
  - split; [|tauto]. intros _. split; [congruence|done].
  - split.
    + intros [H1 H2]. split; [|done]. by intros ? ? [= <-] [= <-].
    + intros [H1 H2]. split; [by apply H1|done].
Qed.

Lemma linked_app h L1 L2 :
  linked h (L1 ++ L2) <-> linked h L1 /\ linked h L2 /\ joined h L1 L2.
Proof.
  induction L1 as [|a L1 IH]; simpl app.
  - unfold joined. simpl. split; [|tauto]. intros. split_and!; try done.
  - rewrite !linked_cons, IH. destruct L1 as [|b L1].
    + simpl. unfold joined. simpl. naive_solver.
    + unfold joined. simpl. naive_solver.
Qed.

Lemma links_nil_l h L : joined h [] L.
Proof. intros a b; simpl. discriminate. Qed.

Lemma linked_frame h h' L :
  (forall x, x ∈ L -> last L <> Some x -> next_of h' x = next_of h x) ->
  (forall x, x ∈ L -> head L <> Some x -> prev_of h' x = prev_of h x) ->
  NoDup L -> linked h L -> linked h' L.
Proof.
  induction L as [|a [|b L] IH]; intros Hn Hp Hd Hl; simpl; try done.
  destruct Hl as [[Hl1 Hl2] Hl3].
  apply NoDup_cons in Hd as [Hd1 Hd2].
  assert (last (b :: L) <> Some a) as Hlast.
  { intros E. apply last_Some_elem_of in E. set_solver. }
  split; [split|].
  - rewrite Hn; [done | set_solver |]. simpl in *. done.
  - rewrite Hp; [done | set_solver |]. simpl. intros [= ->]. set_solver.
  - apply IH; try done.
    + intros x Hx Hne. apply Hn; [set_solver|]. done.
    + intros x Hx Hne. apply Hp; [set_solver|]. simpl. intros [= ->]. set_solver.
Qed.

(** ** Reading and writing one field *)

Lemma set_next_Ret h a v :
  is_Some (h !! a) -> set_next h (Some a) v = Ret (upd_next h a v).
Proof. intros [n Hn]. simpl. by rewrite Hn. Qed.
Lemma set_prev_Ret h a v :
  is_Some (h !! a) -> set_prev h (Some a) v = Ret (upd_prev h a v).
Proof. intros [n Hn]. simpl. by rewrite Hn. Qed.

Lemma next_of_upd_next h a v x :
  next_of (upd_next h a v) x =
    if decide (a = x) then (fun _ => v) <$> h !! a else next_of h x.
Proof.
  unfold next_of, upd_next. rewrite lookup_alter. destruct (decide (a = x)) as [->|]; [|done].
  by destruct (h !! x).
Qed.
Lemma prev_of_upd_next h a v x : prev_of (upd_next h a v) x = prev_of h x.
Proof.
  unfold prev_of, upd_next. rewrite lookup_alter. destruct (decide (a = x)) as [->|]; [|done].
  by destruct (h !! x).
Qed.
Lemma prev_of_upd_prev h a v x :
  prev_of (upd_prev h a v) x =
    if decide (a = x) then (fun _ => v) <$> h !! a else prev_of h x.
Proof.
  unfold prev_of, upd_prev. rewrite lookup_alter. destruct (decide (a = x)) as [->|]; [|done].
  by destruct (h !! x).
Qed.
Lemma next_of_upd_prev h a v x : next_of (upd_prev h a v) x = next_of h x.
Proof.
  unfold next_of, upd_prev. rewrite lookup_alter. destruct (decide (a = x)) as [->|]; [|done].
  by destruct (h !! x).
Qed.
Lemma upd_next_is_Some h a v x : is_Some (upd_next h a v !! x) <-> is_Some (h !! x).
Proof.
  unfold upd_next. rewrite lookup_alter. destruct (decide (a = x)) as [->|]; [|done].
  destruct (h !! x); simpl; split; intros []; eauto; discriminate.
Qed.
Lemma upd_prev_is_Some h a v x : is_Some (upd_prev h a v !! x) <-> is_Some (h !! x).
Proof.
  unfold upd_prev. rewrite lookup_alter. destruct (decide (a = x)) as [->|]; [|done].
  destruct (h !! x); simpl; split; intros []; eauto; discriminate.
Qed.
Lemma upd_next_ne h a v x : a <> x -> upd_next h a v !! x = h !! x.
Proof. intros. by apply lookup_alter_ne. Qed.
Lemma upd_prev_ne h a v x : a <> x -> upd_prev h a v !! x = h !! x.
Proof. intros. by apply lookup_alter_ne. Qed.

Lemma rd_Ret h a p n :
  prev_of h a = Some p -> next_of h a = Some n -> rd h (Some a) = Ret (mk_elem p n).
Proof.
  unfold prev_of, next_of. simpl. destruct (h !! a) as [[pp nn]|]; simpl; congruence.
Qed.
Lemma rd_prev h a p : prev_of h a = Some p -> exists n, rd h (Some a) = Ret (mk_elem p n).
Proof. unfold prev_of. simpl. destruct (h !! a) as [[pp nn]|]; simpl; [|done]. intros [= ->]. eauto. Qed.
Lemma rd_next h a n : next_of h a = Some n -> exists p, rd h (Some a) = Ret (mk_elem p n).
Proof. unfold next_of. simpl. destruct (h !! a) as [[pp nn]|]; simpl; [|done]. intros [= ->]. eauto. Qed.
Lemma next_of_is_Some h a v : next_of h a = Some v -> is_Some (h !! a).
Proof. unfold next_of. destruct (h !! a); simpl; [eauto|discriminate]. Qed.
Lemma prev_of_is_Some h a v : prev_of h a = Some v -> is_Some (h !! a).
Proof. unfold prev_of. destruct (h !! a); simpl; [eauto|discriminate]. Qed.
Lemma is_Some_next_of h a : is_Some (h !! a) -> exists v, next_of h a = Some v.
Proof. unfold next_of. intros [n ->]. simpl. eauto. Qed.
Lemma is_Some_prev_of h a : is_Some (h !! a) -> exists v, prev_of h a = Some v.
Proof. unfold prev_of. intros [n ->]. simpl. eauto. Qed.

Create HintDb klist.
#[export] Hint Resolve next_of_is_Some prev_of_is_Some : klist.
#[export] Hint Resolve <- upd_next_is_Some : klist.
#[export] Hint Resolve <- upd_prev_is_Some : klist.

Lemma next_of_upd_next_eq h a v :
  is_Some (h !! a) -> next_of (upd_next h a v) a = Some v.
Proof. intros [n Hn]. by rewrite next_of_upd_next, decide_True, Hn. Qed.
Lemma next_of_upd_next_ne h a v x : a <> x -> next_of (upd_next h a v) x = next_of h x.
Proof. intros. by rewrite next_of_upd_next, decide_False. Qed.
Lemma prev_of_upd_prev_eq h a v :
  is_Some (h !! a) -> prev_of (upd_prev h a v) a = Some v.
Proof. intros [n Hn]. by rewrite prev_of_upd_prev, decide_True, Hn. Qed.
Lemma prev_of_upd_prev_ne h a v x : a <> x -> prev_of (upd_prev h a v) x = prev_of h x.
Proof. intros. by rewrite prev_of_upd_prev, decide_False. Qed.

(** Computes [next_of]/[prev_of] through a chain of field updates. *)
Ltac links_simpl :=
  repeat first
    [ rewrite prev_of_upd_next | rewrite next_of_upd_prev
    | rewrite next_of_upd_next_ne by congruence
    | rewrite prev_of_upd_prev_ne by congruence
    | rewrite next_of_upd_next_eq by (rewrite ?upd_next_is_Some, ?upd_prev_is_Some;
                                      eauto with klist)
    | rewrite prev_of_upd_prev_eq by (rewrite ?upd_next_is_Some, ?upd_prev_is_Some;
                                      eauto with klist) ].

(** Executes one [rd], [set_next] or [set_prev] of a routine. *)
Ltac rd_step :=
  match goal with
  | |- context [rd ?h (Some ?a)] =>
      erewrite (rd_Ret h a) by (links_simpl; eauto); cbn [obind prev next]
  end.
(** The same when only one field of the cell read is known. *)
Ltac rd_prev_step :=
  match goal with
  | |- context [rd ?h (Some ?a)] =>
      edestruct (rd_prev h a) as [? ->]; [links_simpl; eauto | cbn [obind prev next]]
  end.
Ltac rd_next_step :=
  match goal with
  | |- context [rd ?h (Some ?a)] =>
      edestruct (rd_next h a) as [? ->]; [links_simpl; eauto | cbn [obind prev next]]
  end.
Ltac wr_step :=
  match goal with
  | |- context [set_next ?h (Some ?a) ?v] =>
      rewrite (set_next_Ret h a v)
        by (rewrite ?upd_next_is_Some, ?upd_prev_is_Some; eauto with klist); cbn [obind]
  | |- context [set_prev ?h (Some ?a) ?v] =>
      rewrite (set_prev_Ret h a v)
        by (rewrite ?upd_next_is_Some, ?upd_prev_is_Some; eauto with klist); cbn [obind]
  end.

Lemma last_default_cons {A} (x : A) l d : List.last (x :: l) d = List.last l x.
Proof.
  revert x d. induction l as [|y l IH]; intros x d; [done|].
  change (List.last (x :: y :: l) d) with (List.last (y :: l) d).
  rewrite IH. symmetry. apply IH.
Qed.

(** * Positions in a list *)

Section Positions.
Context (h : heap) (l : klist).

Lemma cells_app xs ys :
  cells l (xs ++ ys) = (head_of l :: xs) ++ (ys ++ [tail_of l]).
Proof. unfold cells. simpl. by rewrite <- app_assoc. Qed.

Lemma head_suffix ys : head (ys ++ [tail_of l]) = Some (at_ l ys).
Proof. by destruct ys. Qed.

Definition before_ (xs : list loc) : loc := List.last xs (head_of l).

Lemma last_prefix xs : last (head_of l :: xs) = Some (before_ xs).
Proof.
  unfold before_. generalize (head_of l). induction xs as [|x xs IH]; intros a; [done|].
  change (last (a :: x :: xs)) with (last (x :: xs)).
  by rewrite IH, last_default_cons.
Qed.

Lemma before_snoc xs x : before_ (xs ++ [x]) = x.
Proof. apply List.last_last. Qed.

(** Every position splits the cells into a prefix and a suffix that are linked. *)
Lemma is_list_split xs ys :
  is_list h l (xs ++ ys) ->
  NoDup ((head_of l :: xs) ++ (ys ++ [tail_of l])) /\
  linked h (head_of l :: xs) /\ linked h (ys ++ [tail_of l]) /\
  links h (before_ xs) (at_ l ys).
Proof.
  intros [Hd _ _ Hl]. rewrite cells_app in Hd, Hl.
  apply linked_app in Hl as (H1 & H2 & H3).
  split_and!; try done. apply H3; [apply last_prefix | apply head_suffix].
Qed.

Lemma is_list_intro xs ys :
  NoDup ((head_of l :: xs) ++ (ys ++ [tail_of l])) ->
  prev_of h (head_of l) = Some None -> next_of h (tail_of l) = Some None ->
  linked h (head_of l :: xs) -> linked h (ys ++ [tail_of l]) ->
  links h (before_ xs) (at_ l ys) ->
  is_list h l (xs ++ ys).
Proof.
  intros Hd Hh Ht H1 H2 H3.
  split; try done; rewrite cells_app; [done|].
  apply linked_app. split_and!; try done.
  intros a b Ha Hb. rewrite last_prefix in Ha. rewrite head_suffix in Hb. congruence.
Qed.

Lemma before_elem xs : before_ xs ∈ head_of l :: xs.
Proof. apply last_Some_elem_of, last_prefix. Qed.
Lemma at_elem ys : at_ l ys ∈ ys ++ [tail_of l].
Proof. destruct ys; simpl; set_solver. Qed.

Context (xs ys : list loc) (IL : is_list h l (xs ++ ys)).

Lemma pos_links : links h (before_ xs) (at_ l ys).
Proof. by apply is_list_split in IL as (_ & _ & _ & ?). Qed.

(** The successor field of the last element of [ys], or of the tail, is known too. *)
Lemma at_next : exists v, next_of h (at_ l ys) = Some v /\
  (v = None <-> ys = []) /\ (forall y ys', ys = y :: ys' -> v = Some (at_ l ys')).
Proof.
  destruct ys as [|y ys'].
  - exists None. split_and!; try done. apply IL.
  - exists (Some (at_ l ys')). split_and!; [|done|by intros ? ? [= <- <-]].
    assert (is_list h l ((xs ++ [y]) ++ ys')) as IL' by (by rewrite <- app_assoc).
    apply is_list_split in IL' as (_ & _ & _ & [Hl _]).
    by rewrite before_snoc in Hl.
Qed.

Lemma before_prev : exists v, prev_of h (before_ xs) = Some v /\
  (v = None <-> xs = []) /\ (forall x xs', xs = xs' ++ [x] -> v = Some (before_ xs')).
Proof.
  destruct xs as [|x xs' _] using rev_ind.
  - exists None. split_and!; try done; [apply IL|]. intros ? []; discriminate.
  - exists (Some (before_ xs')). rewrite before_snoc. split_and!.
    + rewrite <- app_assoc in IL. simpl in IL.
      apply is_list_split in IL as (_ & _ & _ & [_ Hl]). done.
    + split; [done|]. by destruct xs'.
    + intros x0 xs0 E. by apply app_inj_tail in E as [-> ->].
Qed.

Lemma rd_at : exists v, rd h (Some (at_ l ys)) = Ret (mk_elem (Some (before_ xs)) v) /\
  (v = None <-> ys = []) /\ (forall y ys', ys = y :: ys' -> v = Some (at_ l ys')).
Proof.
  destruct at_next as (v & Hv & H1 & H2). exists v. split; [|done].
  apply rd_Ret; [|done]. apply pos_links.
Qed.

Lemma rd_before : exists v, rd h (Some (before_ xs)) = Ret (mk_elem v (Some (at_ l ys))) /\
  (v = None <-> xs = []).
Proof.
  destruct before_prev as (v & Hv & H1 & _). exists v. split; [|done].
  apply rd_Ret; [done|]. apply pos_links.
Qed.

(** A suffix position is an interior element or the tail, as the assertions demand. *)
Lemma at_checks : exists b1 b2,
  is_interior h (Some (at_ l ys)) = Ret b1 /\ is_tail h (Some (at_ l ys)) = Ret b2 /\
  b1 || b2 = true /\ (b1 = true <-> ys <> []).
Proof.
  destruct rd_at as (v & Hr & Hv & _). unfold is_interior, is_tail. simpl is_null.
  rewrite Hr. simpl. do 2 eexists. split_and!; [done..| |].
  - by destruct v.
  - destruct v; simpl; naive_solver.
Qed.

Lemma list_next_before : list_next h (Some (before_ xs)) = Ret (Some (at_ l ys)).
Proof.
  destruct rd_before as (v & Hr & Hv). unfold list_next, is_head, is_interior. simpl is_null.
  rewrite Hr. simpl. by destruct v.
Qed.

Lemma list_prev_at : list_prev h (Some (at_ l ys)) = Ret (Some (before_ xs)).
Proof.
  destruct rd_at as (v & Hr & Hv & _). unfold list_prev, is_tail, is_interior. simpl is_null.
  rewrite Hr. simpl. by destruct v.
Qed.
End Positions.

(** * Effect of the basic operations *)

(** [h'] differs from [h] only at the addresses of [F]. *)
Definition framed (h h' : heap) (F : list loc) : Prop :=
  forall x, x ∉ F -> h' !! x = h !! x.

Lemma framed_next h h' F x : framed h h' F -> x ∉ F -> next_of h' x = next_of h x.
Proof. unfold next_of. intros H Hx. by rewrite H. Qed.
Lemma framed_prev h h' F x : framed h h' F -> x ∉ F -> prev_of h' x = prev_of h x.
Proof. unfold prev_of. intros H Hx. by rewrite H. Qed.
Lemma framed_trans h1 h2 h3 F : framed h1 h2 F -> framed h2 h3 F -> framed h1 h3 F.
Proof. intros H1 H2 x Hx. by rewrite H2, H1. Qed.
Lemma framed_weaken h h' F F' :
  framed h h' F -> (forall x, x ∈ F -> x ∈ F') -> framed h h' F'.
Proof. intros H Hs x Hx. apply H. naive_solver. Qed.

(** A list none of whose cells is touched is still the same list. *)
Lemma is_list_framed h h' l xs F :
  is_list h l xs -> framed h h' F -> (forall x, x ∈ cells l xs -> x ∉ F) -> is_list h' l xs.
Proof.
  intros [Hd Hh Ht Hl] HF Hsep.
  assert (head_of l ∉ F /\ tail_of l ∉ F) as [? ?].
  { split; apply Hsep; unfold cells; set_solver. }
  split; [done| | |].
  - by rewrite (framed_prev h h' F).
  - by rewrite (framed_next h h' F).
  - eapply linked_frame; [| |done|exact Hl]; intros x Hx _;
      [eapply framed_next | eapply framed_prev]; eauto.
Qed.

(** Discharges the side conditions of a frame: the address at hand is distinct from every
    updated address because the cells are pairwise distinct. *)
Ltac nodup_facts :=
  repeat match goal with
  | H : NoDup (_ :: _) |- _ => apply NoDup_cons in H as [? H]
  | H : NoDup (_ ++ _) |- _ => apply NoDup_app in H as (? & ? & H)
  end.

Lemma last_ne_elem {A} (L : list A) a x : NoDup (L ++ [a]) -> x ∈ L -> x <> a.
Proof. intros Hd Hx ->. apply NoDup_app in Hd as (_ & Hd & _). set_solver. Qed.

Lemma sep_ne {A} (L1 L2 : list A) a b :
  (forall x, x ∈ L1 -> x ∉ L2) -> a ∈ L1 -> b ∈ L2 -> a <> b.
Proof. intros Hs Ha Hb ->. by apply (Hs b). Qed.
Lemma sep_ne' {A} (L1 L2 : list A) a b :
  (forall x, x ∈ L1 -> x ∉ L2) -> a ∈ L2 -> b ∈ L1 -> a <> b.
Proof. intros Hs Ha Hb ->. by apply (Hs b). Qed.

(** Membership in concrete concatenations. *)
Ltac in_list :=
  first [ assumption
        | apply list_elem_of_here
        | apply elem_of_app; left; in_list
        | apply elem_of_app; right; in_list
        | apply list_elem_of_further; in_list
        | progress cbn [app]; in_list ].
Ltac ne_list :=
  match goal with
  | Hs : (forall x, x ∈ ?A -> x ∉ ?B) |- ?a <> ?b =>
      solve [ apply (sep_ne A B a b Hs); in_list | apply (sep_ne' A B a b Hs); in_list ]
  end.

Section Effects.
Context (h : heap) (l : klist).

Lemma list_insert_spec xs ys e :
  is_list h l (xs ++ ys) -> is_Some (h !! e) -> e ∉ cells l (xs ++ ys) ->
  exists h', list_insert h (Some (at_ l ys)) (Some e) = Ret h' /\
    is_list h' l (xs ++ e :: ys) /\ framed h h' (e :: cells l (xs ++ ys)).
Proof.
  intros IL He Hne.
  pose proof (at_checks h l xs ys IL) as (b1 & b2 & Hb1 & Hb2 & Hb & _).
  pose proof (rd_at h l xs ys IL) as (v & Hr & _ & _).
  pose proof (is_list_split h l xs ys IL) as (Hd & Hl1 & Hl2 & [Hn Hp]).
  pose proof (before_elem l xs) as Hbe. pose proof (at_elem l ys) as Hae.
  rewrite cells_app in Hne.
  set (p := before_ l xs) in *. set (a := at_ l ys) in *.
  assert (p <> a /\ p <> e /\ a <> e) as (Hpa & Hpe & Hae').
  { apply NoDup_app in Hd as (_ & Hd & _). split_and!; [|set_solver..].
    intros ->. by apply (Hd a). }
  set (h' := upd_prev (upd_next (upd_next (upd_prev h e (Some p)) e (Some a)) p (Some e))
                      a (Some e)).
  exists h'. split_and!.
  - unfold list_insert. rewrite Hb1, Hb2. cbn [obind is_null negb]. rewrite Hb, Hr.
    cbn [obind prev]. wr_step. wr_step.
    destruct (at_next h l xs ys IL) as (w & Hw & _). fold a in Hw.
    rd_step. wr_step. wr_step. done.
  - assert (forall x, x <> p -> x <> e -> next_of h' x = next_of h x) as Fn.
    { intros. unfold h'. by links_simpl. }
    assert (forall x, x <> a -> x <> e -> prev_of h' x = prev_of h x) as Fp.
    { intros. unfold h'. by links_simpl. }
    destruct (proj1 (NoDup_app _ _) Hd) as (Hd1 & Hsep & Hd2).
    apply (is_list_intro h' l xs (e :: ys)).
    + apply NoDup_app. split_and!; [done|set_solver|]. constructor; [set_solver|done].
    + rewrite Fp; [apply IL|set_solver..].
    + rewrite Fn; [apply IL|set_solver..].
    + eapply linked_frame; [| |exact Hd1|exact Hl1]; intros x Hx Hx'.
      * apply Fn; [|set_solver]. intros ->. by rewrite last_prefix in Hx'.
      * apply Fp; set_solver.
    + simpl app. apply linked_cons. split.
      * intros ? ? [= <-]. rewrite head_suffix. intros [= <-]. fold a.
        split; unfold h'; by links_simpl.
      * eapply linked_frame; [| |exact Hd2|exact Hl2]; intros x Hx Hx'.
        -- apply Fn; set_solver.
        -- apply Fp; [|set_solver]. intros ->. by rewrite head_suffix in Hx'.
    + fold p. simpl. split; unfold h'; by links_simpl.
  - intros x Hx. rewrite cells_app in Hx. unfold h'.
    rewrite upd_prev_ne, upd_next_ne, upd_next_ne, upd_prev_ne by set_solver. done.
Qed.

Lemma list_remove_spec xs y ys :
  is_list h l (xs ++ y :: ys) ->
  exists h', list_remove h (Some y) = Ret (Some (at_ l ys), h') /\
    is_list h' l (xs ++ ys) /\ framed h h' [before_ l xs; at_ l ys] /\
    (forall x, is_Some (h !! x) -> is_Some (h' !! x)).
Proof.
  intros IL.
  assert (is_list h l ((xs ++ [y]) ++ ys)) as IL' by (by rewrite <- app_assoc).
  pose proof (is_list_split h l _ _ IL) as (Hd & Hl1 & Hl2 & [Hn Hp]).
  pose proof (is_list_split h l _ _ IL') as (_ & _ & Hl3 & [Hn' Hp']).
  rewrite before_snoc in Hn', Hp'. simpl (at_ l (y :: ys)) in Hn, Hp.
  pose proof (before_elem l xs) as Hbe. pose proof (at_elem l ys) as Hae.
  set (p := before_ l xs) in *. set (a := at_ l ys) in *.
  destruct (proj1 (NoDup_app _ _) Hd) as (Hd1 & Hsep & Hd2).
  simpl in Hd2. apply NoDup_cons in Hd2 as [Hya Hd2].
  assert (p <> a /\ p <> y /\ a <> y) as (Hpa & Hpy & Hay).
  { clear -Hbe Hae Hsep Hya. split_and!; [|set_solver..]. intros ->. apply (Hsep a); set_solver. }
  set (h' := upd_prev (upd_next h p (Some a)) a (Some p)).
  exists h'. split_and!.
  - unfold list_remove, is_interior. cbn [is_null].
    rd_step. simpl is_null. cbn [negb andb]. wr_step. rd_step. wr_step.
    rd_step. done.
  - assert (forall x, x <> p -> next_of h' x = next_of h x) as Fn.
    { intros. unfold h'. by links_simpl. }
    assert (forall x, x <> a -> prev_of h' x = prev_of h x) as Fp.
    { intros. unfold h'. by links_simpl. }
    apply is_list_intro.
    + apply NoDup_app. split_and!; [done|clear -Hsep; set_solver|done].
    + rewrite Fp; [apply IL|ne_list].
    + rewrite Fn; [apply IL|ne_list].
    + eapply linked_frame; [| |exact Hd1|exact Hl1]; intros x Hx Hx'.
      * apply Fn. intros ->. by rewrite last_prefix in Hx'.
      * apply Fp. ne_list.
    + eapply linked_frame; [| |exact Hd2|exact Hl3]; intros x Hx Hx'.
      * apply Fn. ne_list.
      * apply Fp. intros ->. by rewrite head_suffix in Hx'.
    + fold p a. split; unfold h'; by links_simpl.
  - intros x Hx. unfold h'. rewrite upd_prev_ne, upd_next_ne by (clear -Hx; set_solver). done.
  - intros x Hx. unfold h'. by rewrite upd_prev_is_Some, upd_next_is_Some.
Qed.

(** Moving a block [S] that lies to the right of the non-empty block [D] just before it:
    the use [inplace_merge] makes of [list_splice]. *)
Lemma list_splice_spec C d0 D s0 S Y :
  is_list h l (C ++ (d0 :: D) ++ (s0 :: S) ++ Y) ->
  exists h', list_splice h (Some d0) (Some s0) (Some (at_ l Y)) = Ret h' /\
    is_list h' l (C ++ (s0 :: S) ++ (d0 :: D) ++ Y) /\
    (forall x, is_Some (h !! x) -> is_Some (h' !! x)) /\
    framed h h' (cells l (C ++ (d0 :: D) ++ (s0 :: S) ++ Y)).
Proof.
  intros IL.
  assert (is_list h l ((C ++ d0 :: D) ++ (s0 :: S) ++ Y)) as IL2 by (by rewrite <- app_assoc).
  assert (is_list h l ((C ++ (d0 :: D) ++ s0 :: S) ++ Y)) as IL3
    by (by rewrite <- !app_assoc).
  pose proof (is_list_split h l _ _ IL) as (Hd & HlC & HlT & [Hn1 Hp1]).
  pose proof (is_list_split h l _ _ IL2) as (_ & _ & _ & [Hn2 Hp2]).
  pose proof (is_list_split h l _ _ IL3) as (_ & _ & HlY & [Hn3 Hp3]).
  rewrite <- !app_assoc in HlT, Hd.
  apply linked_app in HlT as (HlD & HlT & _). apply linked_app in HlT as (HlS & _ & _).
  destruct (at_checks h l C _ IL) as (b1 & b2 & Hb1 & Hb2 & Hb & _).
  pose proof (list_prev_at h l _ _ IL3) as Hprev.
  destruct (at_next h l _ _ IL2) as (ns & Hns & _ & Hns'). specialize (Hns' _ _ eq_refl).
  destruct (before_prev h l _ _ IL3) as (ps & Hps & Hps' & _).
  pose proof (before_elem l C) as HuC. pose proof (last_prefix l C) as HuL.
  pose proof (at_elem l Y) as HyY. pose proof (head_suffix l Y) as HyH.
  assert (last (d0 :: D) = Some (before_ l (C ++ d0 :: D))) as HxL.
  { rewrite <- (last_prefix l), app_comm_cons, last_app. destruct (last (d0 :: D)) eqn:E; [done|].
    by apply last_None in E. }
  assert (last (s0 :: S) = Some (before_ l (C ++ (d0 :: D) ++ s0 :: S))) as HsL.
  { rewrite <- (last_prefix l), app_comm_cons, !last_app.
    destruct (last (s0 :: S)) eqn:E; [done|]. by apply last_None in E. }
  set (x := before_ l (C ++ d0 :: D)) in *.
  set (sl := before_ l (C ++ (d0 :: D) ++ s0 :: S)) in *.
  set (u := before_ l C) in *. set (y := at_ l Y) in *.
  cbn [at_ List.hd app] in Hn1, Hp1, Hn2, Hp2, Hb1, Hb2, Hns.
  assert (x ∈ d0 :: D) as HxD by (by apply last_Some_elem_of).
  assert (sl ∈ s0 :: S) as HsS by (by apply last_Some_elem_of).
  pose proof (Permutation_app_head (head_of l :: C)
                (Permutation_app_swap_app (s0 :: S) (d0 :: D) (Y ++ [tail_of l]))) as Hd'.
  destruct (proj1 (NoDup_app _ _) Hd) as (HdC & HsepC & HdT).
  destruct (proj1 (NoDup_app _ _) HdT) as (HdD & HsepD & HdT2).
  destruct (proj1 (NoDup_app _ _) HdT2) as (HdS & HsepS & HdY).
  assert (u <> x /\ u <> sl /\ x <> sl /\ y <> s0 /\ y <> d0 /\ s0 <> d0) as Hne.
  { split_and!; ne_list. }
  destruct Hne as (N1 & N2 & N3 & N4 & N5 & N6).
  set (h' := upd_prev (upd_next (upd_next (upd_prev (upd_prev (upd_next h x (Some y)) y
               (Some x)) s0 (Some u)) sl (Some d0)) u (Some s0)) d0 (Some sl)).
  exists h'. split_and!.
  - unfold list_splice. rewrite Hb1, Hb2. cbn [obind]. rewrite Hb.
    rewrite peq_false by congruence. rewrite Hprev. cbn [obind].
    unfold is_interior. cbn [is_null]. rd_step. rewrite Hns'. cbn [is_null negb andb].
    rd_step. destruct ps; [|exfalso; naive_solver (destruct C; done)]. cbn [is_null negb andb].
    wr_step. rd_prev_step. rd_next_step. wr_step.
    rd_prev_step. wr_step. wr_step. rd_prev_step. wr_step. wr_step. done.
  - assert (forall z, z <> x -> z <> sl -> z <> u -> next_of h' z = next_of h z) as Fn.
    { intros. unfold h'. by links_simpl. }
    assert (forall z, z <> y -> z <> s0 -> z <> d0 -> prev_of h' z = prev_of h z) as Fp.
    { intros. unfold h'. by links_simpl. }
    assert (links h' u s0 /\ links h' sl d0 /\ links h' x y) as (K1 & K2 & K3).
    { split_and!; (split; [unfold h'; by links_simpl|]).
      all: unfold h'; by links_simpl. }
    assert (before_ l (C ++ (s0 :: S) ++ d0 :: D) = x) as Ex.
    { pose proof (last_prefix l (C ++ (s0 :: S) ++ d0 :: D)) as E.
      rewrite app_comm_cons, !last_app, HxL in E. congruence. }
    assert (C ++ (s0 :: S) ++ (d0 :: D) ++ Y = (C ++ (s0 :: S) ++ d0 :: D) ++ Y) as E
      by (by rewrite <- !app_assoc).
    rewrite E. apply is_list_intro.
    + rewrite <- Hd' in Hd. rewrite (app_comm_cons C), <- !app_assoc. exact Hd.
    + rewrite Fp; [apply IL|ne_list..].
    + rewrite Fn; [apply IL|ne_list..].
    + rewrite app_comm_cons. apply linked_app. split_and!; [| apply linked_app; split_and!|].
      * eapply linked_frame; [| |exact HdC|exact HlC]; intros z Hz Hz'.
        -- apply Fn; [ne_list..|]. intros ->. done.
        -- apply Fp; ne_list.
      * eapply linked_frame; [| |exact HdS|exact HlS]; intros z Hz Hz'.
        -- apply Fn; [ne_list| |ne_list]. intros ->. done.
        -- apply Fp; [ne_list| |ne_list]. intros ->. done.
      * eapply linked_frame; [| |exact HdD|exact HlD]; intros z Hz Hz'.
        -- apply Fn; [|ne_list..]. intros ->. done.
        -- apply Fp; [ne_list..|]. intros ->. done.
      * intros ? ? Hsl [= <-]. rewrite HsL in Hsl. by injection Hsl as <-.
      * intros ? ? Hu [= <-]. rewrite HuL in Hu. by injection Hu as <-.
    + eapply linked_frame; [| |exact HdY|exact HlY]; intros z Hz Hz'.
      * apply Fn; ne_list.
      * apply Fp; [|ne_list..]. intros ->. by rewrite head_suffix in Hz'.
    + rewrite Ex. done.
  - intros z Hz. unfold h'.
    by rewrite !upd_prev_is_Some, !upd_next_is_Some, !upd_prev_is_Some, upd_next_is_Some.
  - intros z Hz. rewrite cells_app, <- !app_assoc in Hz. unfold h'.
    rewrite upd_prev_ne, upd_next_ne, upd_next_ne, upd_prev_ne, upd_prev_ne, upd_next_ne
      by (intros <-; apply Hz; in_list). done.
Qed.
End Effects.

(** * Sorting *)

Section SortSpec.
Context (less : loc -> loc -> bool).

(** "In nondecreasing order": no element is less than its predecessor. *)
Definition nondec (a b : loc) : Prop := less b a = false.

(** The run that starts at [x], without [x], and what follows it. *)
Fixpoint run_tail (x : loc) (ys : list loc) : list loc * list loc :=
  match ys with
  | [] => ([], [])
  | y :: ys' => if less y x then ([], ys)
                else let '(r, rest) := run_tail y ys' in (y :: r, rest)
  end.

Fixpoint merge (xs : list loc) : list loc -> list loc :=
  match xs with
  | [] => fun ys => ys
  | a :: xs' => fix go ys :=
      match ys with
      | [] => a :: xs'
      | b :: ys' => if less b a then b :: go ys' else a :: merge xs' ys
      end
  end.

(** One more than the number of descents. *)
Fixpoint descents (x : loc) (ys : list loc) : nat :=
  match ys with
  | [] => 0
  | y :: ys' => (if less y x then 1 else 0) + descents y ys'
  end.
Definition nruns (xs : list loc) : nat :=
  match xs with [] => 0 | x :: ys => S (descents x ys) end.

Lemma run_tail_app x ys r rest : run_tail x ys = (r, rest) -> ys = r ++ rest.
Proof.
  revert x r rest. induction ys as [|y ys IH]; intros x r rest; simpl.
  - by intros [= <- <-].
  - destruct (less y x); [by intros [= <- <-]|].
    destruct (run_tail y ys) as [r' rest'] eqn:E. intros [= <- <-]. simpl. f_equal. eauto.
Qed.

Lemma run_tail_sorted x ys r rest : run_tail x ys = (r, rest) -> Sorted nondec (x :: r).
Proof.
  revert x r rest. induction ys as [|y ys IH]; intros x r rest; simpl.
  - intros [= <- <-]. by repeat constructor.
  - destruct (less y x) eqn:Ey; [intros [= <- <-]; by repeat constructor|].
    destruct (run_tail y ys) as [r' rest'] eqn:E. intros [= <- <-].
    constructor; [eauto|]. by constructor.
Qed.

Lemma run_tail_nruns x ys r rest :
  run_tail x ys = (r, rest) -> nruns (x :: ys) = S (nruns rest).
Proof.
  revert x r rest. induction ys as [|y ys IH]; intros x r rest; simpl.
  - by intros [= <- <-].
  - destruct (less y x) eqn:Ey; [by intros [= <- <-]|].
    destruct (run_tail y ys) as [r' rest'] eqn:E. intros [= <- <-].
    rewrite <- (IH _ _ _ E). simpl. lia.
Qed.

Lemma nruns_app xs ys : (nruns (xs ++ ys) <= nruns xs + nruns ys)%nat.
Proof.
  destruct xs as [|x xs]; [simpl; lia|]. revert x.
  induction xs as [|x' xs IH]; intros x; simpl.
  - destruct ys as [|y ys]; simpl; [lia|]. destruct (less y x); lia.
  - specialize (IH x'). simpl in IH. lia.
Qed.

Lemma sorted_nruns xs : Sorted nondec xs -> (nruns xs <= 1)%nat.
Proof.
  destruct xs as [|x xs]; [simpl; lia|]. revert x. induction xs as [|y xs IH]; intros x Hs.
  - simpl. lia.
  - apply Sorted_inv in Hs as [Hs Hh]. apply HdRel_inv in Hh. specialize (IH _ Hs).
    simpl in *. unfold nondec in Hh. rewrite Hh. lia.
Qed.

Lemma nruns_sorted xs : (nruns xs <= 1)%nat -> Sorted nondec xs.
Proof.
  destruct xs as [|x xs]; [done|]. revert x. induction xs as [|y xs IH]; intros x Hs.
  - by repeat constructor.
  - simpl in *. unfold nondec. destruct (less y x) eqn:E; [lia|].
    constructor; [apply IH; lia|]. by constructor.
Qed.

Lemma merge_perm xs ys : merge xs ys ≡ₚ xs ++ ys.
Proof.
  revert ys. induction xs as [|a xs IH]; intros ys; [done|].
  induction ys as [|b ys IHy]; simpl; [by rewrite app_nil_r|].
  destruct (less b a).
  - rewrite <- Permutation_middle, <- Permutation_swap. constructor. apply IHy.
  - constructor. apply IH.
Qed.

Context (less_asym : forall a b, less a b = true -> less b a = false).

Lemma merge_HdRel x xs ys :
  HdRel nondec x xs -> HdRel nondec x ys -> HdRel nondec x (merge xs ys).
Proof.
  destruct xs as [|a xs]; [done|]. intros H1 H2.
  destruct ys as [|b ys]; [done|]. simpl.
  apply HdRel_inv in H1, H2. destruct (less b a); by constructor.
Qed.

Lemma merge_sorted xs ys :
  Sorted nondec xs -> Sorted nondec ys -> Sorted nondec (merge xs ys).
Proof.
  revert ys. induction xs as [|a xs IH]; intros ys Hx Hy; [done|].
  induction ys as [|b ys IHy]; [done|].
  apply Sorted_inv in Hy as [Hy Hyh].
  simpl. destruct (less b a) eqn:E.
  - constructor; [by apply IHy|].
    apply (merge_HdRel b (a :: xs)); [|done]. constructor. by apply less_asym.
  - apply Sorted_inv in Hx as [Hx Hxh].
    constructor; [apply IH; [done|by constructor]|].
    apply merge_HdRel; [done|]. by constructor.
Qed.

(** ** The pointer routines compute these functions *)

Section OnHeap.
Context (l : klist).

Lemma at_ne h C y A Q : is_list h l (C ++ y :: A ++ Q) -> y <> at_ l Q.
Proof.
  intros IL. assert (is_list h l ((C ++ [y] ++ A) ++ Q)) as IL'
    by (by rewrite <- !app_assoc).
  apply is_list_split in IL' as (Hd & _). apply NoDup_app in Hd as (_ & Hd & _).
  pose proof (at_elem l Q). intros ->. eapply Hd; [|eassumption].
  apply list_elem_of_further, elem_of_app. right. apply list_elem_of_here.
Qed.

Lemma next_elem h C y Q :
  is_list h l (C ++ y :: Q) -> list_next h (Some y) = Ret (Some (at_ l Q)).
Proof.
  intros IL. assert (is_list h l ((C ++ [y]) ++ Q)) as IL' by (by rewrite <- app_assoc).
  apply list_next_before in IL'. by rewrite before_snoc in IL'.
Qed.

Lemma prev_elem h C y Q :
  is_list h l (C ++ y :: Q) -> list_prev h (Some (at_ l Q)) = Ret (Some y).
Proof.
  intros IL. assert (is_list h l ((C ++ [y]) ++ Q)) as IL' by (by rewrite <- app_assoc).
  apply list_prev_at in IL'. by rewrite before_snoc in IL'.
Qed.

Lemma is_sorted_loop_spec fuel h C a A Q :
  is_list h l (C ++ a :: A ++ Q) -> (length A < fuel)%nat ->
  is_sorted_loop less fuel h (Some a) (Some (at_ l Q)) =
    Ret (bool_decide (descents a A = 0%nat)).
Proof.
  revert C a A. induction fuel as [|fuel IH]; intros C a A IL Hf; [lia|].
  simpl. rewrite (next_elem h C a _ IL). cbn [obind].
  destruct A as [|b A]; simpl app in *.
  - by rewrite peq_refl.
  - assert (is_list h l ((C ++ [a]) ++ b :: A ++ Q)) as IL' by (by rewrite <- app_assoc).
    pose proof (prev_elem h C a _ IL) as Hp. cbn [at_ List.hd] in *.
    rewrite peq_false by (intros [= E]; by apply (at_ne h (C ++ [a]) b A Q)).
    rewrite Hp. cbn [obind call_less].
    simpl. destruct (less b a); [done|].
    apply (IH (C ++ [a])); [done|]. simpl in Hf. lia.
Qed.

Lemma is_sorted_spec fuel h C A Q :
  is_list h l (C ++ A ++ Q) -> (length A < fuel)%nat -> Sorted nondec A ->
  is_sorted less fuel h (Some (at_ l (A ++ Q))) (Some (at_ l Q)) = Ret true.
Proof.
  intros IL Hf Hs. unfold is_sorted. destruct A as [|a A]; [by rewrite peq_refl|].
  destruct (peq _ _); [done|]. cbn [app at_ List.hd].
  rewrite (is_sorted_loop_spec fuel h C a A Q); [|done|simpl in Hf; lia].
  rewrite bool_decide_true; [done|]. apply sorted_nruns in Hs. simpl in Hs. lia.
Qed.

Lemma find_end_of_run_spec fuel h C a A r rest :
  is_list h l (C ++ a :: A) -> (length A < fuel)%nat -> run_tail a A = (r, rest) ->
  find_end_of_run less fuel h (Some a) (list_end l) = Ret (Some (at_ l rest)).
Proof.
  intros IL Hf Hr. unfold find_end_of_run. cbn [is_null negb list_end].
  rewrite peq_false.
  2:{ intros [= E]. apply (at_ne h C a A []); [by rewrite app_nil_r|done]. }
  cbn [negb]. revert C a A r rest IL Hf Hr.
  induction fuel as [|fuel IH]; intros C a A r rest IL Hf Hr; [lia|].
  simpl. rewrite (next_elem h C a _ IL). cbn [obind].
  destruct A as [|b A]; simpl app in *; simpl in Hr.
  - injection Hr as <- <-. by rewrite peq_refl.
  - assert (is_list h l ((C ++ [a]) ++ b :: A)) as IL' by (by rewrite <- app_assoc).
    pose proof (prev_elem h C a _ IL) as Hp. cbn [at_ List.hd] in *.
    rewrite peq_false.
    2:{ intros [= E]. apply (at_ne h (C ++ [a]) b A []); [by rewrite app_nil_r|done]. }
    rewrite Hp. cbn [obind call_less]. destruct (less b a).
    + by injection Hr as <- <-.
    + destruct (run_tail b A) as [r' rest'] eqn:E. injection Hr as <- <-.
      eapply (IH (C ++ [a])); [done| |done]. simpl in Hf. lia.
Qed.

(** What every routine that rearranges the list preserves. *)
Definition rearranged (h h' : heap) (xs : list loc) : Prop :=
  (forall x, is_Some (h !! x) -> is_Some (h' !! x)) /\ framed h h' (cells l xs).

Lemma rearranged_trans h1 h2 h3 xs ys :
  xs ≡ₚ ys -> rearranged h1 h2 xs -> rearranged h2 h3 ys -> rearranged h1 h3 xs.
Proof.
  intros P [D1 F1] [D2 F2]. split; [auto|]. eapply framed_trans; [done|].
  eapply framed_weaken; [done|]. intros x. unfold cells. by rewrite P.
Qed.

Lemma inplace_merge_loop_spec fuel h C A B Q :
  is_list h l (C ++ A ++ B ++ Q) -> (length A + length B < fuel)%nat ->
  exists h', inplace_merge_loop less fuel h (Some (at_ l (A ++ B ++ Q)))
               (Some (at_ l (B ++ Q))) (Some (at_ l Q)) = Ret h' /\
    is_list h' l (C ++ merge A B ++ Q) /\ rearranged h h' (C ++ A ++ B ++ Q).
Proof.
  revert h C A B. induction fuel as [|fuel IH]; intros h C A B IL Hf; [lia|].
  cbn [inplace_merge_loop]. destruct A as [|a A].
  { cbn [app]. rewrite peq_refl. exists h. split_and!; [done..|]. by split. }
  destruct B as [|b B].
  { cbn [app]. rewrite (peq_refl (Some (at_ l Q))), orb_true_r. exists h.
    split_and!; [done|done|]. by split. }
  assert (is_list h l ((C ++ a :: A) ++ b :: B ++ Q)) as IL2 by (by rewrite <- app_assoc).
  rewrite (peq_false (Some (at_ l ((a :: A) ++ _)))), (peq_false (Some (at_ l ((b :: B) ++ Q)))).
  2:{ intros [= E]. by apply (at_ne h (C ++ a :: A) b B Q). }
  2:{ intros [= E]. by apply (at_ne h C a A ((b :: B) ++ Q)). }
  cbn [orb app at_ List.hd call_less obind]. simpl merge. destruct (less b a) eqn:E; cbn [negb].
  - rewrite (next_elem h (C ++ a :: A) b _ IL2). cbn [obind].
    rewrite (prev_elem h (C ++ a :: A) b _ IL2). cbn [obind].
    destruct (list_splice_spec h l C a A b [] (B ++ Q) IL) as (h1 & -> & IL1 & D1 & F1).
    cbn [obind].
    assert (is_list h1 l ((C ++ [b]) ++ (a :: A) ++ B ++ Q)) as IL1'
      by (by rewrite <- app_assoc).
    destruct (IH h1 (C ++ [b]) (a :: A) B IL1') as (h2 & E2 & IL3 & R2);
      [simpl in Hf |- *; lia|].
    exists h2. split_and!; [exact E2| |].
    + by rewrite <- app_assoc in IL3.
    + eapply rearranged_trans; [|split; [exact D1|exact F1]|exact R2].
      rewrite <- app_assoc. apply Permutation_app_head.
      symmetry. apply (Permutation_middle (a :: A)).
  - rewrite (next_elem h C a _ IL). cbn [obind].
    assert (is_list h l ((C ++ [a]) ++ A ++ (b :: B) ++ Q)) as IL1 by (by rewrite <- app_assoc).
    destruct (IH h (C ++ [a]) A (b :: B) IL1) as (h2 & E2 & IL3 & R2);
      [simpl in Hf |- *; lia|].
    exists h2. split_and!; [exact E2| |].
    + by rewrite <- app_assoc in IL3.
    + by rewrite <- app_assoc in R2.
Qed.

Lemma inplace_merge_spec fuel h C A B Q :
  is_list h l (C ++ A ++ B ++ Q) -> (length A + length B < fuel)%nat ->
  Sorted nondec A -> Sorted nondec B ->
  exists h', inplace_merge less fuel h (Some (at_ l (A ++ B ++ Q)))
               (Some (at_ l (B ++ Q))) (Some (at_ l Q)) = Ret h' /\
    is_list h' l (C ++ merge A B ++ Q) /\ rearranged h h' (C ++ A ++ B ++ Q).
Proof.
  intros IL Hf HA HB. unfold inplace_merge. cbn [is_null negb].
  rewrite (is_sorted_spec fuel h C A (B ++ Q)); [|done|lia|done]. cbn [obind].
  rewrite (is_sorted_spec fuel h (C ++ A) B Q); [|by rewrite <- app_assoc|lia|done].
  cbn [obind]. by apply inplace_merge_loop_spec.
Qed.

(** One pass of [list_sort] merges the runs two by two.  It returns the number of runs it
    produced, and the new list has no more runs than that. *)
Lemma list_sort_pass_spec fuel h C xs cnt :
  is_list h l (C ++ xs) -> (length xs < fuel)%nat ->
  0 <= cnt -> cnt + Z.of_nat (length xs) < 2 ^ 32 ->
  exists k ys h', list_sort_pass less fuel h l (Some (at_ l xs)) cnt = Ret (cnt + Z.of_nat k, h') /\
    is_list h' l (C ++ ys) /\ rearranged h h' (C ++ xs) /\ ys ≡ₚ xs /\
    (nruns ys <= k)%nat /\ (2 * k <= nruns xs + 1)%nat /\ (k = 0%nat -> xs = []).
Proof.
  revert h C xs cnt. induction fuel as [|fuel IH]; intros h C xs cnt IL Hf Hc0 Hc; [lia|].
  cbn [list_sort_pass]. destruct xs as [|x xs].
  { cbn [at_ List.hd list_end]. rewrite peq_refl. exists 0%nat, [], h. rewrite Z.add_0_r.
    split_and!; [done|done| |done|simpl; lia|simpl; lia|done]. by split. }
  rewrite peq_false.
  2:{ intros [= E]. apply (at_ne h C x xs []); [by rewrite app_nil_r|done]. }
  rewrite u32_small by (simpl in Hc; lia).
  destruct (run_tail x xs) as [r rest] eqn:Er.
  pose proof (run_tail_app _ _ _ _ Er) as Exs. pose proof (run_tail_nruns _ _ _ _ Er) as Nr.
  pose proof (run_tail_sorted _ _ _ _ Er) as Sr.
  cbn [at_ List.hd].
  rewrite (find_end_of_run_spec (S fuel) h C x xs r rest); [|done|simpl in Hf; lia|done].
  cbn [obind]. destruct rest as [|y rest].
  { cbn [at_ List.hd list_end]. rewrite peq_refl. exists 1%nat, (x :: xs), h.
    split_and!; [done|done| |done|rewrite Nr; simpl; lia|rewrite Nr; simpl; lia|done].
    by split. }
  subst xs.
  assert (is_list h l ((C ++ x :: r) ++ y :: rest)) as IL1 by (by rewrite <- app_assoc).
  rewrite peq_false.
  2:{ intros [= E]. apply (at_ne h (C ++ x :: r) y rest []); [by rewrite app_nil_r|done]. }
  destruct (run_tail y rest) as [r2 rest2] eqn:Er2.
  pose proof (run_tail_app _ _ _ _ Er2) as Exs2.
  pose proof (run_tail_nruns _ _ _ _ Er2) as Nr2.
  pose proof (run_tail_sorted _ _ _ _ Er2) as Sr2.
  cbn [at_ List.hd].
  rewrite (find_end_of_run_spec (S fuel) h (C ++ x :: r) y rest r2 rest2);
    [|done|simpl in Hf; rewrite length_app in Hf; simpl in Hf; lia|done].
  cbn [obind]. subst rest.
  simpl in Hf, Hc. rewrite !length_app in Hf, Hc. simpl in Hf, Hc.
  rewrite length_app in Hf, Hc.
  destruct (inplace_merge_spec (S fuel) h C (x :: r) (y :: r2) rest2)
    as (h1 & E1 & IL2 & R1); [done|simpl; lia|done|done|].
  cbn [app at_ List.hd] in E1. unfold list_end. rewrite E1. cbn [obind].
  rewrite app_assoc in IL2.
  destruct (IH h1 _ rest2 (cnt + 1) IL2) as (k & zs & h2 & E2 & IL3 & R2 & P2 & N1 & N2 & K0);
    [lia|lia|lia|].
  exists (S k), (merge (x :: r) (y :: r2) ++ zs), h2.
  split_and!.
  - unfold list_end in E2. rewrite E2. do 2 f_equal. lia.
  - by rewrite app_assoc.
  - eapply rearranged_trans; [|exact R1|exact R2].
    rewrite <- app_assoc. apply Permutation_app_head. rewrite merge_perm.
    by rewrite <- app_assoc.
  - rewrite merge_perm, P2, <- app_assoc. done.
  - pose proof (nruns_app (merge (x :: r) (y :: r2)) zs).
    pose proof (sorted_nruns _ (merge_sorted _ _ Sr Sr2)). lia.
  - rewrite Nr, Nr2. lia.
  - done.
Qed.

Lemma list_sort_passes_spec passes fuel h xs :
  is_list h l xs -> (length xs < fuel)%nat -> (nruns xs < passes)%nat ->
  Z.of_nat (length xs) < 2 ^ 32 ->
  exists ys h', list_sort_passes less passes fuel h l = Ret h' /\
    is_list h' l ys /\ ys ≡ₚ xs /\ Sorted nondec ys /\ rearranged h h' xs.
Proof.
  revert h xs. induction passes as [|passes IH]; intros h xs IL Hf Hp Hb; [lia|].
  cbn [list_sort_passes]. pose proof (rd_before h l [] xs IL) as (v & Hr & _).
  unfold list_begin. cbn [before_ List.last] in Hr. rewrite Hr. cbn [obind next].
  destruct (list_sort_pass_spec fuel h [] xs 0) as (k & ys & h1 & -> & IL1 & R1 & P1 & N1 & N2 & _);
    [done|done|lia|lia|].
  cbn [obind]. destruct (1 <? 0 + Z.of_nat k) eqn:E.
  - destruct (IH h1 ys) as (zs & h2 & E2 & IL2 & P2 & S2 & R2).
    + done.
    + by rewrite P1.
    + lia.
    + by rewrite P1.
    + exists zs, h2. split_and!; [done|done| |done|].
      * by rewrite P2.
      * eapply rearranged_trans; [|exact R1|exact R2]. by rewrite P1.
  - exists ys, h1. split_and!; try done. apply nruns_sorted. lia.
Qed.

Lemma nruns_le_length xs : (nruns xs <= length xs)%nat.
Proof.
  destruct xs as [|x xs]; [done|]. simpl. revert x.
  induction xs as [|y xs IH]; intros x; simpl; [lia|].
  specialize (IH y). destruct (less y x); lia.
Qed.
End OnHeap.
End SortSpec.

(** * Reversal *)

(** The links of the cells of [xs] are those of [h0] exchanged, everything else is equal. *)
Definition flipped (h0 h : heap) (xs : list loc) : Prop :=
  (forall x, x ∈ xs -> next_of h x = prev_of h0 x /\ prev_of h x = next_of h0 x) /\
  framed h0 h xs /\ (forall x, is_Some (h0 !! x) <-> is_Some (h !! x)).

Lemma swap_links_spec h x :
  is_Some (h !! x) -> exists h', swap_links h (Some x) = Ret h' /\ flipped h h' [x].
Proof.
  intros Hx. destruct (is_Some_next_of h x Hx) as [n Hn].
  destruct (is_Some_prev_of h x Hx) as [p Hp].
  exists (upd_next (upd_prev h x n) x p). split.
  - unfold swap_links. rd_step. wr_step. wr_step. done.
  - split_and!.
    + intros z ->%list_elem_of_singleton. rewrite Hn, Hp. split; by links_simpl.
    + intros z Hz. rewrite upd_next_ne, upd_prev_ne by (intros ->; apply Hz; in_list). done.
    + intros z. by rewrite upd_next_is_Some, upd_prev_is_Some.
Qed.

Lemma flipped_snoc h0 h h' xs x :
  x ∉ xs -> flipped h0 h xs -> flipped h h' [x] -> flipped h0 h' (xs ++ [x]).
Proof.
  intros Hx (F1 & G1 & D1) (F2 & G2 & D2). split_and!.
  - intros z [Hz| ->%list_elem_of_singleton]%elem_of_app.
    + assert (z ∉ [x]) as Hzx by (intros ->%list_elem_of_singleton; done).
      rewrite (framed_next h h' [x]), (framed_prev h h' [x]) by done. by apply F1.
    + destruct (F2 x) as [-> ->]; [in_list|].
      by rewrite (framed_next h0 h xs), (framed_prev h0 h xs).
  - intros z Hz. rewrite elem_of_app in Hz. rewrite G2, G1; tauto.
  - intros z. by rewrite D1, D2.
Qed.

Lemma linked_flipped h0 h xs ys :
  flipped h0 h ys -> (forall x, x ∈ xs -> x ∈ ys) -> linked h0 xs -> linked h (reverse xs).
Proof.
  intros (F & _). induction xs as [|a xs IH]; intros Hs Hl; [done|].
  rewrite reverse_cons. apply linked_cons in Hl as [Hj Hl]. apply linked_app. split_and!.
  - apply IH; [|done]. intros. apply Hs. by apply list_elem_of_further.
  - done.
  - intros b c Hb [= <-].
    destruct xs as [|b' xs]; [done|].
    assert (b' = b) as ->.
    { rewrite last_reverse in Hb. by injection Hb. }
    destruct (Hj a b eq_refl eq_refl) as [H1 H2].
    split; [destruct (F b) as [-> _]|destruct (F a) as [_ ->]]; try done; apply Hs; in_list.
Qed.

Section Reverse.
Context (l : klist).

Lemma list_reverse_loop_spec fuel h0 h C xs :
  is_list h0 l (C ++ xs) -> flipped h0 h C -> (length xs < fuel)%nat ->
  exists h', list_reverse_loop fuel h l (Some (at_ l xs)) = Ret h' /\ flipped h0 h' (C ++ xs).
Proof.
  revert h C xs. induction fuel as [|fuel IH]; intros h C xs IL HF Hf; [lia|].
  cbn [list_reverse_loop]. destruct xs as [|x xs].
  { cbn [at_ List.hd list_end]. rewrite peq_refl, app_nil_r. eauto. }
  pose proof (is_list_split h0 l _ _ IL) as (Hd & _).
  rewrite peq_false.
  2:{ intros [= E]. apply (at_ne l h0 C x xs []); [by rewrite app_nil_r|done]. }
  destruct (at_next h0 l _ _ IL) as (v & Hv & _ & Hv'). specialize (Hv' _ _ eq_refl). subst v.
  cbn [at_ List.hd] in Hv |- *.
  destruct (swap_links_spec h x) as (h1 & -> & HF1).
  { destruct HF as (_ & _ & D). apply D. eauto with klist. }
  cbn [obind].
  assert (x ∉ C) as HxC.
  { apply NoDup_app in Hd as (_ & Hd & _). intros Hx. apply (Hd x); in_list. }
  pose proof (flipped_snoc _ _ _ _ _ HxC HF HF1) as HF2.
  destruct (proj1 HF2 x) as [_ E]; [in_list|]. rewrite Hv in E.
  rd_prev_step.
  destruct (IH h1 (C ++ [x]) xs) as (h' & E' & HF'); [by rewrite <- app_assoc|done| |].
  { simpl in Hf. lia. }
  exists h'. rewrite <- app_assoc in HF'. done.
Qed.

Lemma list_begin_spec h xs : is_list h l xs -> list_begin h l = Ret (Some (at_ l xs)).
Proof.
  intros IL. destruct (rd_before h l [] xs IL) as (v & Hr & _).
  unfold list_begin. cbn [before_ List.last] in Hr. by rewrite Hr.
Qed.

Lemma list_empty_spec h xs :
  is_list h l xs -> list_empty h l = Ret (match xs with [] => true | _ => false end).
Proof.
  intros IL. unfold list_empty. rewrite (list_begin_spec h xs IL). cbn [obind list_end].
  destruct xs as [|x xs]; [by rewrite peq_refl|].
  rewrite peq_false; [done|]. intros [= E].
  apply (at_ne l h [] x xs []); [by rewrite app_nil_r|done].
Qed.

(** The four writes after the loop complete the reversed list. *)
Lemma reversed_is_list h h1 h2 xs :
  let a1 := at_ l xs in let b1 := before_ l xs in
  is_list h l xs -> last xs = Some b1 -> head xs = Some a1 ->
  flipped h h1 xs ->
  (forall x, x <> head_of l -> x <> a1 -> next_of h2 x = next_of h1 x) ->
  (forall x, x <> tail_of l -> x <> b1 -> prev_of h2 x = prev_of h1 x) ->
  next_of h2 (head_of l) = Some (Some b1) -> prev_of h2 b1 = Some (Some (head_of l)) ->
  next_of h2 a1 = Some (Some (tail_of l)) -> prev_of h2 (tail_of l) = Some (Some a1) ->
  is_list h2 l (reverse xs).
Proof.
  intros a1 b1 IL Hb Ha HF Fn Fp K1 K2 K3 K4.
  pose proof (last_Some_elem_of _ _ Hb) as Hb1. pose proof (head_Some_elem_of _ _ Ha) as Ha1.
  pose proof (is_list_split h l [] xs IL) as (Hd & _ & Hl & _).
  apply linked_app in Hl as (Hl & _ & _).
  pose proof (linked_flipped h h1 xs xs HF (fun _ H => H) Hl) as Hr.
  destruct HF as (_ & G & _).
  assert (NoDup (head_of l :: reverse xs ++ [tail_of l])) as Hd'.
  { by rewrite reverse_Permutation. }
  apply NoDup_cons in Hd as [Hh Hd]. apply NoDup_app in Hd as (Hdx & Ht & _).
  assert (head_of l ∉ xs /\ head_of l <> tail_of l) as [HhX Hht].
  { split; intros E; apply Hh; cbn [app]; [in_list|rewrite E; in_list]. }
  assert (tail_of l ∉ xs) as HtX by (intros E; apply (Ht _ E); in_list).
  assert (head (reverse xs) = Some b1 /\ last (reverse xs) = Some a1) as [Hr1 Hr2].
  { by rewrite head_reverse, last_reverse. }
  split.
  - done.
  - rewrite Fp; [|done|intros E; apply HhX; rewrite E; exact Hb1].
    rewrite (framed_prev h h1 xs) by done. apply IL.
  - rewrite Fn; [|by intros E; apply Hht|intros E; apply HtX; rewrite E; exact Ha1].
    rewrite (framed_next h h1 xs) by done. apply IL.
  - unfold cells. apply linked_cons. split; [|apply linked_app; split_and!; [|done|]].
    + intros ? ? [= <-] Hx. rewrite head_app, Hr1 in Hx. injection Hx as <-. by split.
    + eapply linked_frame; [| | |exact Hr].
      * intros x Hx Hx'. rewrite elem_of_reverse in Hx. apply Fn; [intros E; apply HhX; rewrite <- E; exact Hx|].
        intros ->. by rewrite Hr2 in Hx'.
      * intros x Hx Hx'. rewrite elem_of_reverse in Hx. apply Fp; [intros E; apply HtX; rewrite <- E; exact Hx|].
        intros ->. by rewrite Hr1 in Hx'.
      * by rewrite reverse_Permutation.
    + intros ? ? Hx [= <-]. rewrite Hr2 in Hx. injection Hx as <-. by split.
Qed.

Lemma list_reverse_spec fuel h xs :
  is_list h l xs -> (length xs < fuel)%nat ->
  exists h', list_reverse fuel h l = Ret h' /\ is_list h' l (reverse xs) /\
    framed h h' (cells l xs).
Proof.
  intros IL Hf. unfold list_reverse. rewrite (list_empty_spec h xs IL). cbn [obind].
  destruct xs as [|x0 xs0] eqn:Exs; [exists h; split_and!; [done|done|by intros ?]|].
  rewrite <- Exs in *. assert (xs <> []) as Hne by (by subst). clear Exs x0 xs0.
  rewrite (list_begin_spec h xs IL). cbn [obind].
  destruct (list_reverse_loop_spec fuel h h [] xs) as (h1 & -> & HF); [done| |lia|].
  { split_and!; [by intros x ?%not_elem_of_nil|by intros ?|done]. }
  cbn [obind app] in *. pose proof HF as (F & G & D).
  pose proof (is_list_split h l [] xs IL) as (Hd & _ & Hl & [Hn1 Hp1]).
  assert (is_list h l (xs ++ [])) as IL' by (by rewrite app_nil_r).
  pose proof (is_list_split h l xs [] IL') as (_ & _ & _ & [Hn2 Hp2]).
  cbn [before_ List.last at_ List.hd] in Hn1, Hp1, Hn2, Hp2.
  assert (last xs = Some (before_ l xs) /\ head xs = Some (at_ l xs)) as [HbL HaH].
  { pose proof (last_prefix l xs) as E. destruct xs as [|x xs]; [done|]. by split. }
  set (a1 := at_ l xs) in *. set (b1 := before_ l xs) in *.
  pose proof (last_Some_elem_of _ _ HbL) as Hb1. pose proof (head_Some_elem_of _ _ HaH) as Ha1.
  apply linked_app in Hl as (Hl & _ & _).
  cbn [app] in Hd. apply NoDup_cons in Hd as [Hh Hd]. apply NoDup_app in Hd as (Hd & Ht & _).
  assert (head_of l ∉ xs /\ head_of l <> tail_of l) as [HhX Hht].
  { split; intros E; apply Hh; [in_list|rewrite E; in_list]. }
  assert (tail_of l ∉ xs) as HtX by (intros E; apply (Ht _ E); in_list).
  assert (a1 <> head_of l /\ a1 <> tail_of l /\ b1 <> head_of l /\ b1 <> tail_of l)
    as (N1 & N2 & N3 & N4) by (split_and!; intros E; [apply HhX|apply HtX|apply HhX|apply HtX]; rewrite <- E; done).
  destruct (F a1 Ha1) as [Fa1 _]. rewrite Hp1 in Fa1.
  destruct (F b1 Hb1) as [_ Fb1]. rewrite Hn2 in Fb1.
  rewrite <- (framed_next h h1 xs) in Hn1 by done.
  rewrite <- (framed_prev h h1 xs) in Hp2 by done.
  exists (upd_next (upd_prev (upd_prev (upd_next h1 (head_of l) (Some b1)) (tail_of l)
            (Some a1)) b1 (Some (head_of l))) a1 (Some (tail_of l))).
  set (h2 := upd_next _ _ _).
  assert (D' : forall x v, next_of h x = Some v -> is_Some (h1 !! x)).
  { intros x v Hx. apply D. eauto with klist. }
  assert (E1 : is_Some (h1 !! head_of l)) by eauto with klist.
  assert (E2 : is_Some (h1 !! tail_of l)) by eauto with klist.
  assert (E3 : is_Some (h1 !! a1)) by eauto with klist.
  assert (E4 : is_Some (h1 !! b1)) by eauto with klist.
  split_and!.
  - rd_next_step. rd_prev_step. wr_step. wr_step.
    rd_next_step. rd_prev_step. rd_prev_step. rd_next_step. wr_step. wr_step. done.
  - apply (reversed_is_list h h1 h2 xs); try done; fold a1 b1; intros; unfold h2;
      by links_simpl.
  - intros x Hx. unfold cells in Hx. rewrite elem_of_cons, elem_of_app in Hx.
    unfold h2. rewrite upd_next_ne, upd_prev_ne, upd_prev_ne, upd_next_ne.
    { apply G. tauto. }
    all: intros E; apply Hx; rewrite <- E; first [by left | right; left; assumption | right; right; in_list].
Qed.

End Reverse.

(** * Ordered insertion *)

Section InsertOrdered.
Context (less : loc -> loc -> bool) (l : klist).

Lemma insert_point_spec fuel h C xs e :
  is_list h l (C ++ xs) -> (length xs < fuel)%nat ->
  exists A B, xs = A ++ B /\
    insert_point less fuel h l (Some e) (Some (at_ l xs)) = Ret (Some (at_ l B)) /\
    Forall (fun a => less e a = false) A /\
    match B with [] => True | b :: _ => less e b = true end.
Proof.
  revert C xs. induction fuel as [|fuel IH]; intros C xs IL Hf; [lia|].
  cbn [insert_point]. destruct xs as [|x xs].
  { exists [], []. cbn [at_ List.hd list_end]. rewrite peq_refl. repeat split. constructor. }
  rewrite peq_false.
  2:{ intros [= E]. apply (at_ne l h C x xs []); [by rewrite app_nil_r|done]. }
  cbn [at_ List.hd call_less obind]. destruct (less e x) eqn:E.
  { exists [], (x :: xs). by repeat split. }
  rewrite (next_elem l h C x _ IL). cbn [obind].
  destruct (IH (C ++ [x]) xs) as (A & B & -> & E2 & F & G); [by rewrite <- app_assoc| |].
  { simpl in Hf. lia. }
  exists (x :: A), B. split_and!; [done|done|by constructor|done].
Qed.

Lemma sorted_insert A e B :
  (forall a b, less a b = true -> less b a = false) ->
  Sorted (nondec less) (A ++ B) -> Forall (fun a => less e a = false) A ->
  match B with [] => True | b :: _ => less e b = true end ->
  Sorted (nondec less) (A ++ e :: B).
Proof.
  intros Has. induction A as [|a A IH]; simpl; intros HS HA HB.
  - constructor; [done|]. destruct B; constructor. by apply Has.
  - apply Sorted_inv in HS as [HS Hh]. apply Forall_cons in HA as [Ha HA].
    constructor; [by apply IH|]. destruct A; simpl in *; [by constructor|].
    apply HdRel_inv in Hh. by constructor.
Qed.
End InsertOrdered.

(** * The contract of the list library *)

(** C9.  [list_sort] terminates without a failing assertion on every well-formed list, and
    leaves a well-formed list holding the same elements in nondecreasing order; no cell
    outside the list is touched.  [less] only has to be asymmetric. *)
Theorem list_sort_correct (less : loc -> loc -> bool) (l : klist) (fuel : nat) (h : heap)
    (xs : list loc)
    (Hless : forall a b, less a b = true -> less b a = false)
    (Hlist : is_list h l xs) (Hfuel : (length xs < fuel)%nat)
    (Hsize : Z.of_nat (length xs) < 2 ^ 32) :
  exists ys h', list_sort less fuel h l = Ret h' /\ is_list h' l ys /\ ys ≡ₚ xs /\
    Sorted (nondec less) ys /\ framed h h' (cells l xs).
Proof.
  pose proof (nruns_le_length less xs).
  destruct (list_sort_passes_spec less Hless l fuel fuel h xs)
    as (ys & h' & E & IL & P & S & [_ F]); [done|done|lia|done|].
  exists ys, h'. split_and!; try done. unfold list_sort. rewrite E. cbn [obind].
  rewrite (list_begin_spec l h' ys IL). cbn [obind].
  pose proof (is_sorted_spec less l fuel h' [] ys []) as Hs. rewrite app_nil_r in Hs.
  cbn [app at_ List.hd] in Hs. unfold list_end. rewrite Hs; [done|done|by rewrite P|done].
Qed.

(**  The list behaves as a double-ended queue: pushing at either end extends the
    sequence there, popping either end of a non-empty list returns and removes that end
    element, and removing any element drops exactly it. *)
Theorem list_deque_ops (h : heap) (l : klist) (xs : list loc) (e : loc)
    (Hlist : is_list h l xs) (He : is_Some (h !! e)) (Hnew : e ∉ cells l xs) :
  (exists h', list_push_front h l (Some e) = Ret h' /\ is_list h' l (e :: xs)) /\
  (exists h', list_push_back h l (Some e) = Ret h' /\ is_list h' l (xs ++ [e])) /\
  (forall x xs', xs = x :: xs' ->
     exists h', list_pop_front h l = Ret (Some x, h') /\ is_list h' l xs') /\
  (forall x xs', xs = xs' ++ [x] ->
     exists h', list_pop_back h l = Ret (Some x, h') /\ is_list h' l xs') /\
  (forall x A B, xs = A ++ x :: B ->
     exists h', list_remove h (Some x) = Ret (Some (at_ l B), h') /\ is_list h' l (A ++ B)) /\
  (xs = [] -> list_pop_front h l = Panic /\ list_pop_back h l = Panic).
Proof.
  pose proof (list_begin_spec l h xs Hlist) as Eb. pose proof (list_empty_spec l h xs Hlist) as Ee.
  split_and!.
  - unfold list_push_front. rewrite Eb. cbn [obind].
    destruct (list_insert_spec h l [] xs e) as (h' & E & IL & _); [done..|]. eauto.
  - unfold list_push_back, list_end.
    destruct (list_insert_spec h l xs [] e) as (h' & E & IL & _); rewrite ?app_nil_r in *; eauto.
  - intros x xs' ->. unfold list_pop_front, list_front. rewrite Ee. cbn [obind negb].
    unfold list_begin in Eb. rewrite Eb. cbn [obind at_ List.hd].
    destruct (list_remove_spec h l [] x xs' Hlist) as (h' & -> & IL & _). cbn [obind]. eauto.
  - intros x xs' ->. unfold list_pop_back, list_back. rewrite Ee.
    rewrite <- (app_nil_r (xs' ++ [x])) in Hlist.
    destruct (rd_at h l (xs' ++ [x]) [] Hlist) as (v & Hr & _).
    rewrite before_snoc in Hr. cbn [at_ List.hd] in Hr.
    assert (match xs' ++ [x] with [] => true | _ => false end = false) as -> by (by destruct xs').
    cbn [obind negb]. rewrite Hr. cbn [obind prev]. rewrite <- app_assoc in Hlist.
    destruct (list_remove_spec h l xs' x [] Hlist) as (h' & -> & IL & _).
    rewrite app_nil_r in IL. cbn [obind]. eauto.
  - intros x A B ->. destruct (list_remove_spec h l A x B Hlist) as (h' & -> & IL & _). eauto.
  - intros ->. unfold list_pop_front, list_pop_back, list_front, list_back. rewrite Ee. done.
Qed.

(**  [list_insert_ordered] puts the new element into a sorted list so that it stays
    sorted, after every element it is not less than. *)
Theorem list_insert_ordered_correct (less : loc -> loc -> bool) (l : klist) (fuel : nat)
    (h : heap) (xs : list loc) (e : loc)
    (Hless : forall a b, less a b = true -> less b a = false)
    (Hlist : is_list h l xs) (Hsorted : Sorted (nondec less) xs)
    (He : is_Some (h !! e)) (Hnew : e ∉ cells l xs) (Hfuel : (length xs < fuel)%nat) :
  exists A B h', xs = A ++ B /\ list_insert_ordered less fuel h l (Some e) = Ret h' /\
    is_list h' l (A ++ e :: B) /\ Sorted (nondec less) (A ++ e :: B) /\
    Forall (fun a => less e a = false) A.
Proof.
  destruct (insert_point_spec less l fuel h [] xs e Hlist Hfuel) as (A & B & -> & E & F & G).
  destruct (list_insert_spec h l A B e Hlist He Hnew) as (h' & Ei & IL & _).
  exists A, B, h'. split_and!; [done| |done|by apply sorted_insert|done].
  unfold list_insert_ordered. cbn [is_null negb].
  rewrite (list_begin_spec l h _ Hlist). cbn [obind]. rewrite E. done.
Qed.

(**  [list_reverse] reverses the sequence, in place. *)
Theorem list_reverse_correct (l : klist) (fuel : nat) (h : heap) (xs : list loc)
    (Hlist : is_list h l xs) (Hfuel : (length xs < fuel)%nat) :
  exists h', list_reverse fuel h l = Ret h' /\ is_list h' l (reverse xs) /\
    framed h h' (cells l xs).
Proof. by apply list_reverse_spec. Qed.

(** ** Witnesses: a list with sentinels at 1 and 2 and elements at 3, 4, 5, built by the
    library itself; cell 6 is free. *)
Definition ex_cells : heap :=
  list_to_map ((fun a => (a, mk_elem None None)) <$> [1; 2; 3; 4; 5; 6]%positive).
Definition ex_list : klist := mk_list 1%positive 2%positive.
Definition ex_heap : heap :=
  match (let? h := list_init ex_cells ex_list in
         let? h := list_push_back h ex_list (Some 4%positive) in
         let? h := list_push_back h ex_list (Some 3%positive) in
         list_push_back h ex_list (Some 5%positive)) with
  | Ret h => h
  | _ => ∅
  end.
Definition ex_less (a b : loc) : bool := (a <? b)%positive.

Lemma ex_is_list : is_list ex_heap ex_list [4; 3; 5]%positive.
Proof.
  split.
  - by_compute.
  - vm_compute. reflexivity.
  - vm_compute. reflexivity.
  - repeat split; vm_compute; reflexivity.
Qed.
Lemma ex_less_asym a b : ex_less a b = true -> ex_less b a = false.
Proof. unfold ex_less. rewrite Pos.ltb_lt, Pos.ltb_ge. lia. Qed.

Lemma list_sort_correct_witness :
  exists ys h', list_sort ex_less 10 ex_heap ex_list = Ret h' /\ is_list h' ex_list ys /\
    ys ≡ₚ [4; 3; 5]%positive /\ Sorted (nondec ex_less) ys /\
    framed ex_heap h' (cells ex_list [4; 3; 5]%positive).
Proof.
  apply (list_sort_correct ex_less ex_list 10 ex_heap [4; 3; 5]%positive);
    [exact ex_less_asym | exact ex_is_list | simpl; lia | simpl; lia].
Defined.

Lemma list_deque_ops_witness :
  exists h', list_push_back ex_heap ex_list (Some 6%positive) = Ret h' /\
    is_list h' ex_list [4; 3; 5; 6]%positive.
Proof.
  apply (list_deque_ops ex_heap ex_list [4; 3; 5]%positive 6%positive).
  - exact ex_is_list.
  - vm_compute. eauto.
  - by_compute.
Defined.

Lemma list_insert_ordered_correct_witness :
  exists A B h', [] = A ++ B /\
    list_insert_ordered ex_less 10
      (match list_init ex_cells ex_list with Ret h => h | _ => ∅ end) ex_list
      (Some 6%positive) = Ret h' /\
    is_list h' ex_list (A ++ 6%positive :: B) /\
    Sorted (nondec ex_less) (A ++ 6%positive :: B) /\
    Forall (fun a => ex_less 6%positive a = false) A.
Proof.
  apply (list_insert_ordered_correct ex_less ex_list 10 _ [] 6%positive).
  - exact ex_less_asym.
  - split.
    + by_compute.
    + vm_compute. reflexivity.
    + vm_compute. reflexivity.
    + repeat split; vm_compute; reflexivity.
  - constructor.
  - vm_compute. eauto.
  - by_compute.
  - simpl. lia.
Defined.

Lemma list_reverse_correct_witness :
  exists h', list_reverse 10 ex_heap ex_list = Ret h' /\
    is_list h' ex_list (reverse [4; 3; 5]%positive) /\
    framed ex_heap h' (cells ex_list [4; 3; 5]%positive).
Proof. apply list_reverse_correct; [exact ex_is_list | simpl; lia]. Defined.
