(* ===== verification/Bitmap.v ===== *)
(** Bitmaps (lib/kernel/bitmap.c): arrays of 32-bit elements that simulate arrays of bits,
    with the single-bit, range, counting and scanning operations.  The theorems relate the
    element-level code to the abstract array of bits [bget]; the page allocator and the
    file system's free map are clients. *)
From S2P Require Import Prelude.

(** * Definitions *)

(** [elem_type] is [unsigned long], 32 bits on the i386. *)
Definition ELEM_BITS : Z := 32.
Definition BITMAP_ERROR : Z := UINT_MAX.

Record bitmap := mk_bitmap { bit_cnt : Z; bits : list Z }.

Definition elem_idx (bit_idx : Z) : Z := bit_idx / ELEM_BITS.
Definition bit_mask (bit_idx : Z) : Z := u32 (Z.shiftl 1 (bit_idx mod ELEM_BITS)).
(** [DIV_ROUND_UP], in [size_t] arithmetic. *)
Definition DIV_ROUND_UP (x step : Z) : Z := u32 (x + step - 1) / step.
Definition elem_cnt (bit_cnt : Z) : Z := DIV_ROUND_UP bit_cnt ELEM_BITS.
Definition byte_cnt (bit_cnt : Z) : Z := u32 (4 * elem_cnt bit_cnt).
Definition last_mask (b : bitmap) : Z :=
  let last_bits := bit_cnt b mod ELEM_BITS in
  if last_bits =? 0 then UINT_MAX else u32 (Z.shiftl 1 last_bits) - 1.

Definition bitmap_size (b : bitmap) : Z := bit_cnt b.

Definition bitmap_mark (b : bitmap) (bit_idx : Z) : outcome bitmap :=
  let idx := elem_idx bit_idx in
  let mask := bit_mask bit_idx in
  let? w := aread (bits b) idx in
  let? bs := aset (bits b) idx (Z.lor w mask) in
  Ret (mk_bitmap (bit_cnt b) bs).

Definition bitmap_reset (b : bitmap) (bit_idx : Z) : outcome bitmap :=
  let idx := elem_idx bit_idx in
  let mask := bit_mask bit_idx in
  let? w := aread (bits b) idx in
  let? bs := aset (bits b) idx (Z.land w (u32 (Z.lnot mask))) in
  Ret (mk_bitmap (bit_cnt b) bs).

Definition bitmap_flip (b : bitmap) (bit_idx : Z) : outcome bitmap :=
  let idx := elem_idx bit_idx in
  let mask := bit_mask bit_idx in
  let? w := aread (bits b) idx in
  let? bs := aset (bits b) idx (Z.lxor w mask) in
  Ret (mk_bitmap (bit_cnt b) bs).

Definition bitmap_set (b : bitmap) (idx : Z) (value : bool) : outcome bitmap :=
  assert? (idx <? bit_cnt b) in
  if value then bitmap_mark b idx else bitmap_reset b idx.

Definition bitmap_test (b : bitmap) (idx : Z) : outcome bool :=
  assert? (idx <? bit_cnt b) in
  let? w := aread (bits b) (elem_idx idx) in
  Ret (negb (Z.land w (bit_mask idx) =? 0)).

(** The loops [for (i = 0; i < cnt; i++)]: [n] is [cnt - i]. *)
Fixpoint set_multiple_loop (n : nat) (b : bitmap) (start i : Z) (value : bool)
    : outcome bitmap :=
  match n with
  | O => Ret b
  | S n => let? b := bitmap_set b (u32 (start + i)) value in
           set_multiple_loop n b start (i + 1) value
  end.

Definition bitmap_set_multiple (b : bitmap) (start cnt : Z) (value : bool) : outcome bitmap :=
  assert? (start <=? bit_cnt b) in
  assert? (u32 (start + cnt) <=? bit_cnt b) in
  set_multiple_loop (Z.to_nat cnt) b start 0 value.

Definition bitmap_set_all (b : bitmap) (value : bool) : outcome bitmap :=
  bitmap_set_multiple b 0 (bitmap_size b) value.

(** The element array returned by the allocator holds arbitrary words; [None] is a null
    pointer.  [malloc (0)] returns null, which [bitmap_create] accepts for an empty map. *)
Definition bitmap_create (malloc_struct : bool) (malloc_bits : option (list Z)) (cnt : Z)
    : outcome (option bitmap) :=
  if malloc_struct then
    if (match malloc_bits with Some _ => true | None => false end) || (cnt =? 0) then
      let? b := bitmap_set_all (mk_bitmap cnt (default [] malloc_bits)) false in
      Ret (Some b)
    else Ret None
  else Ret None.

(** [sizeof (struct bitmap)] is 8 on the i386. *)
Definition bitmap_buf_size (cnt : Z) : Z := u32 (8 + byte_cnt cnt).

(** [words] is the storage that follows the structure in the block. *)
Definition bitmap_create_in_buf (cnt : Z) (words : list Z) (block_size : Z)
    : outcome bitmap :=
  assert? (bitmap_buf_size cnt <=? block_size) in
  bitmap_set_all (mk_bitmap cnt words) false.

Fixpoint count_loop (n : nat) (b : bitmap) (start i : Z) (value : bool) (value_cnt : Z)
    : outcome Z :=
  match n with
  | O => Ret value_cnt
  | S n => let? t := bitmap_test b (u32 (start + i)) in
           count_loop n b start (i + 1) value
             (if Bool.eqb t value then u32 (value_cnt + 1) else value_cnt)
  end.

Definition bitmap_count (b : bitmap) (start cnt : Z) (value : bool) : outcome Z :=
  assert? (start <=? bit_cnt b) in
  assert? (u32 (start + cnt) <=? bit_cnt b) in
  count_loop (Z.to_nat cnt) b start 0 value 0.

Fixpoint contains_loop (n : nat) (b : bitmap) (start i : Z) (value : bool) : outcome bool :=
  match n with
  | O => Ret false
  | S n => let? t := bitmap_test b (u32 (start + i)) in
           if Bool.eqb t value then Ret true else contains_loop n b start (i + 1) value
  end.

Definition bitmap_contains (b : bitmap) (start cnt : Z) (value : bool) : outcome bool :=
  assert? (start <=? bit_cnt b) in
  assert? (u32 (start + cnt) <=? bit_cnt b) in
  contains_loop (Z.to_nat cnt) b start 0 value.

Definition bitmap_any (b : bitmap) (start cnt : Z) : outcome bool :=
  bitmap_contains b start cnt true.
Definition bitmap_none (b : bitmap) (start cnt : Z) : outcome bool :=
  let? r := bitmap_contains b start cnt true in Ret (negb r).
Definition bitmap_all (b : bitmap) (start cnt : Z) : outcome bool :=
  let? r := bitmap_contains b start cnt false in Ret (negb r).

(** [for (i = start; i <= last; i++)]. *)
Fixpoint scan_loop (fuel : nat) (b : bitmap) (i last cnt : Z) (value : bool) : outcome Z :=
  match fuel with
  | O => NoFuel
  | S fuel =>
      if i <=? last then
        let? c := bitmap_contains b i cnt (negb value) in
        if negb c then Ret i else scan_loop fuel b (u32 (i + 1)) last cnt value
      else Ret BITMAP_ERROR
  end.

Definition bitmap_scan (b : bitmap) (start cnt : Z) (value : bool) : outcome Z :=
  assert? (start <=? bit_cnt b) in
  if cnt <=? bit_cnt b then
    let last := bit_cnt b - cnt in
    scan_loop (Z.to_nat (bit_cnt b) + 2) b start last cnt value
  else Ret BITMAP_ERROR.

Definition bitmap_scan_and_flip (b : bitmap) (start cnt : Z) (value : bool)
    : outcome (Z * bitmap) :=
  let? idx := bitmap_scan b start cnt value in
  if idx =? BITMAP_ERROR then Ret (idx, b)
  else let? b := bitmap_set_multiple b idx cnt (negb value) in Ret (idx, b).

(** * The abstract array of bits *)

Definition bget (b : bitmap) (i : Z) : bool :=
  Z.testbit (bits b !!! Z.to_nat (i / 32)) (i mod 32).

(** Sizes whose element count does not wrap around. *)
Record bm_wf (b : bitmap) : Prop := {
  bm_cnt : 0 <= bit_cnt b <= 2 ^ 32 - 32;
  bm_len : Z.of_nat (length (bits b)) = (bit_cnt b + 31) / 32;
  bm_words : Forall (fun w => in_u32 w) (bits b)
}.

(** Bits [start ... start + cnt - 1] all have value [v]. *)
Definition all_bits (b : bitmap) (v : bool) (start cnt : Z) : Prop :=
  forall j, start <= j < start + cnt -> bget b j = v.

(** Membership of an index in a range. *)
Definition in_range (j start cnt : Z) : bool := (start <=? j) && (j <? start + cnt).

Lemma word_in_u32_testbit w :
  0 <= w -> (forall k, 32 <= k -> Z.testbit w k = false) -> in_u32 w.
Proof.
  intros Hw Hk. split; [done|]. change 4294967296 with (2 ^ 32).
  destruct (decide (w = 0)) as [->|]; [lia|].
  apply Z.log2_lt_pow2; [lia|]. destruct (Z_lt_dec (Z.log2 w) 32); [done|].
  exfalso. pose proof (Z.bit_log2 w ltac:(lia)) as H. rewrite Hk in H by lia. discriminate.
Qed.

Lemma u32_testbit_high w k : in_u32 w -> 32 <= k -> Z.testbit w k = false.
Proof.
  intros Hw Hk. destruct (decide (w = 0)) as [->|]; [apply Z.bits_0|].
  apply Z.bits_above_log2; [lia|]. assert (Z.log2 w < 32); [|lia].
  apply Z.log2_lt_pow2; lia.
Qed.

Lemma bit_mask_testbit i k : 0 <= k < 32 -> Z.testbit (bit_mask i) k = (k =? i mod 32).
Proof.
  intros Hk. unfold bit_mask, u32. rewrite Z.mod_pow2_bits_low by lia.
  rewrite Z.shiftl_spec by lia. unfold ELEM_BITS.
  pose proof (Z.mod_pos_bound i 32 ltac:(lia)).
  destruct (k =? i mod 32) eqn:E.
  - replace (k - i mod 32) with 0 by lia. done.
  - destruct (Z_lt_dec k (i mod 32)).
    + apply Z.testbit_neg_r. lia.
    + apply (Z.bits_above_log2 1 (k - i mod 32)); simpl; lia.
Qed.

Section Bits.
Context (b : bitmap) (WF : bm_wf b).

Lemma bm_index i : 0 <= i < bit_cnt b -> 0 <= i / 32 < Z.of_nat (length (bits b)).
Proof.
  intros Hi. destruct WF as [Hc Hl _]. rewrite Hl. split; [apply Z.div_pos; lia|].
  apply Z.div_lt_upper_bound; [lia|].
  pose proof (Z.mul_succ_div_gt (bit_cnt b + 31) 32). lia.
Qed.

Lemma bm_read i : 0 <= i < bit_cnt b ->
  aread (bits b) (elem_idx i) = Ret (bits b !!! Z.to_nat (i / 32)) /\
  in_u32 (bits b !!! Z.to_nat (i / 32)).
Proof.
  intros Hi. pose proof (bm_index i Hi) as Hb.
  destruct (aget_is_Some (bits b) (i / 32)) as [x Hx]; [done|].
  unfold aread, elem_idx, ELEM_BITS. rewrite Hx. simpl.
  unfold aget in Hx. rewrite (proj2 (Z.leb_le 0 (i / 32))) in Hx by lia.
  rewrite (list_lookup_total_correct _ _ _ Hx). split; [done|].
  destruct WF as [_ _ Hw]. exact (Forall_lookup_1 _ _ _ _ Hw Hx).
Qed.

(** Replacing one element changes exactly the bits of that element. *)
Lemma bm_update i w :
  0 <= i < bit_cnt b -> in_u32 w ->
  let b' := mk_bitmap (bit_cnt b) (<[Z.to_nat (i / 32) := w]> (bits b)) in
  bm_wf b' /\
  forall j, 0 <= j < bit_cnt b ->
    bget b' j = if j / 32 =? i / 32 then Z.testbit w (j mod 32) else bget b j.
Proof.
  intros Hi Hw b'. pose proof (bm_index i Hi). destruct WF as [Hc Hl HF]. split.
  - split; simpl; [done| |].
    + by rewrite length_insert.
    + by apply Forall_insert.
  - intros j Hj. unfold bget, b'. simpl. destruct (j / 32 =? i / 32) eqn:E.
    + apply Z.eqb_eq in E. rewrite E. rewrite list_lookup_total_insert_eq by lia. done.
    + apply Z.eqb_neq in E. pose proof (Z.div_pos j 32).
      rewrite list_lookup_total_insert_ne by lia. done.
Qed.

Lemma div_mod_same i j : j / 32 = i / 32 -> j mod 32 = i mod 32 -> j = i.
Proof. intros. pose proof (Z.div_mod i 32). pose proof (Z.div_mod j 32). lia. Qed.

(** One element operation that computes bit [i mod 32] as [v] and keeps the others. *)
Lemma bm_word_op i v w' :
  0 <= i < bit_cnt b -> in_u32 w' ->
  (forall k, 0 <= k < 32 -> Z.testbit w' k =
     if k =? i mod 32 then v else Z.testbit (bits b !!! Z.to_nat (i / 32)) k) ->
  exists b', (let? bs := aset (bits b) (elem_idx i) w' in Ret (mk_bitmap (bit_cnt b) bs)) = Ret b' /\
    bm_wf b' /\ bit_cnt b' = bit_cnt b /\
    forall j, 0 <= j < bit_cnt b -> bget b' j = if j =? i then v else bget b j.
Proof.
  intros Hi Hw' Hk. pose proof (bm_index i Hi) as Hb.
  pose proof (bm_update i w' Hi Hw') as [WF' Hg].
  eexists. split_and!.
  - unfold aset, elem_idx, ELEM_BITS.
    replace ((0 <=? i / 32) && (i / 32 <? Z.of_nat (length (bits b)))) with true by lia.
    reflexivity.
  - exact WF'.
  - done.
  - intros j Hj. rewrite Hg by done. pose proof (Z.mod_pos_bound j 32 ltac:(lia)).
    destruct (j / 32 =? i / 32) eqn:E.
    + rewrite Hk by lia. apply Z.eqb_eq in E.
      destruct (j mod 32 =? i mod 32) eqn:E2.
      * apply Z.eqb_eq in E2. rewrite (div_mod_same i j E E2). by rewrite Z.eqb_refl.
      * assert (j =? i = false) as ->. { apply Z.eqb_neq. intros ->. lia. }
        unfold bget. by rewrite E.
    + assert (j =? i = false) as ->. { apply Z.eqb_neq. intros ->. lia. } done.
Qed.

Lemma bitmap_mark_spec i : 0 <= i < bit_cnt b ->
  exists b', bitmap_mark b i = Ret b' /\ bm_wf b' /\ bit_cnt b' = bit_cnt b /\
    forall j, 0 <= j < bit_cnt b -> bget b' j = if j =? i then true else bget b j.
Proof.
  intros Hi. destruct (bm_read i Hi) as [E Hw]. unfold bitmap_mark. rewrite E. cbn [obind].
  pose proof (u32_range (Z.shiftl 1 (i mod ELEM_BITS))) as Hm. fold (bit_mask i) in Hm.
  apply bm_word_op; [done| |].
  - apply word_in_u32_testbit; [apply Z.lor_nonneg; lia|].
    intros k Hk. rewrite Z.lor_spec, !u32_testbit_high by (done || lia). done.
  - intros k Hk. rewrite Z.lor_spec, bit_mask_testbit by done.
    destruct (k =? i mod 32); [apply orb_true_r|apply orb_false_r].
Qed.

Lemma bitmap_reset_spec i : 0 <= i < bit_cnt b ->
  exists b', bitmap_reset b i = Ret b' /\ bm_wf b' /\ bit_cnt b' = bit_cnt b /\
    forall j, 0 <= j < bit_cnt b -> bget b' j = if j =? i then false else bget b j.
Proof.
  intros Hi. destruct (bm_read i Hi) as [E Hw]. unfold bitmap_reset. rewrite E. cbn [obind].
  apply bm_word_op; [done| |].
  - apply word_in_u32_testbit; [apply Z.land_nonneg; lia|].
    intros k Hk. rewrite Z.land_spec, (u32_testbit_high _ k Hw Hk). done.
  - intros k Hk. rewrite Z.land_spec. unfold u32. rewrite Z.mod_pow2_bits_low by lia.
    rewrite Z.lnot_spec by lia. fold (u32 (Z.shiftl 1 (i mod ELEM_BITS))).
    rewrite bit_mask_testbit by done.
    destruct (k =? i mod 32); [apply andb_false_r|apply andb_true_r].
Qed.

Lemma bitmap_flip_spec i : 0 <= i < bit_cnt b ->
  exists b', bitmap_flip b i = Ret b' /\ bm_wf b' /\ bit_cnt b' = bit_cnt b /\
    forall j, 0 <= j < bit_cnt b -> bget b' j = if j =? i then negb (bget b i) else bget b j.
Proof.
  intros Hi. destruct (bm_read i Hi) as [E Hw]. unfold bitmap_flip. rewrite E. cbn [obind].
  pose proof (u32_range (Z.shiftl 1 (i mod ELEM_BITS))) as Hm. fold (bit_mask i) in Hm.
  apply bm_word_op; [done| |].
  - apply word_in_u32_testbit; [apply Z.lxor_nonneg; lia|].
    intros k Hk. rewrite Z.lxor_spec, !u32_testbit_high by (done || lia). done.
  - intros k Hk. rewrite Z.lxor_spec, bit_mask_testbit by done. unfold bget.
    destruct (k =? i mod 32) eqn:E2; [apply Z.eqb_eq in E2; subst k; apply xorb_true_r|apply xorb_false_r].
Qed.

Lemma bitmap_set_spec i v : 0 <= i < bit_cnt b ->
  exists b', bitmap_set b i v = Ret b' /\ bm_wf b' /\ bit_cnt b' = bit_cnt b /\
    forall j, 0 <= j < bit_cnt b -> bget b' j = if j =? i then v else bget b j.
Proof.
  intros Hi. unfold bitmap_set. rewrite (proj2 (Z.ltb_lt _ _)) by lia.
  destruct v; [by apply bitmap_mark_spec|by apply bitmap_reset_spec].
Qed.

Lemma bitmap_test_spec i : 0 <= i < bit_cnt b -> bitmap_test b i = Ret (bget b i).
Proof.
  intros Hi. destruct (bm_read i Hi) as [E Hw]. unfold bitmap_test. rewrite E. cbn [obind].
  rewrite (proj2 (Z.ltb_lt _ _)) by lia. f_equal. unfold bget.
  set (w := bits b !!! _) in *. pose proof (Z.mod_pos_bound i 32 ltac:(lia)).
  destruct (Z.testbit w (i mod 32)) eqn:T.
  - apply negb_true_iff, Z.eqb_neq. intros H0.
    assert (Z.testbit (Z.land w (bit_mask i)) (i mod 32) = false) by (rewrite H0; apply Z.bits_0).
    rewrite Z.land_spec, bit_mask_testbit, T, Z.eqb_refl in H1 by lia. discriminate.
  - apply negb_false_iff, Z.eqb_eq. apply Z.bits_inj'. intros k Hk. rewrite Z.bits_0, Z.land_spec.
    destruct (Z_lt_dec k 32).
    + rewrite bit_mask_testbit by lia. destruct (k =? i mod 32) eqn:E2; [|apply andb_false_r].
      apply Z.eqb_eq in E2. subst k. by rewrite T.
    + rewrite u32_testbit_high by (done || lia). done.
Qed.
End Bits.

(** * Ranges *)

Lemma set_multiple_loop_spec n b start i v :
  bm_wf b -> 0 <= start -> 0 <= i -> start + i + Z.of_nat n <= bit_cnt b ->
  exists b', set_multiple_loop n b start i v = Ret b' /\ bm_wf b' /\
    bit_cnt b' = bit_cnt b /\
    forall j, 0 <= j < bit_cnt b ->
      bget b' j = if in_range j (start + i) (Z.of_nat n) then v else bget b j.
Proof.
  revert b i. induction n as [|n IH]; intros b i WF Hs Hi Hb.
  - exists b. split_and!; [done|done|done|]. intros j Hj. unfold in_range.
    change (Z.of_nat 0) with 0.
    replace ((start + i <=? j) && (j <? start + i + 0)) with false by lia. done.
  - cbn [set_multiple_loop]. pose proof (bm_cnt b WF).
    rewrite u32_small by lia.
    destruct (bitmap_set_spec b WF (start + i) v) as (b1 & -> & WF1 & C1 & G1); [lia|].
    cbn [obind]. destruct (IH b1 (i + 1)) as (b2 & -> & WF2 & C2 & G2); [done|lia|lia|lia|].
    exists b2. split_and!; [done|done|lia|]. intros j Hj. rewrite G2, G1 by lia.
    unfold in_range.
    destruct (j =? start + i) eqn:E;
      destruct ((start + (i + 1) <=? j) && (j <? start + (i + 1) + Z.of_nat n)) eqn:E2;
      destruct ((start + i <=? j) && (j <? start + i + Z.of_nat (S n))) eqn:E3;
      done || lia.
Qed.

Lemma bitmap_set_multiple_spec b start cnt v :
  bm_wf b -> 0 <= start -> 0 <= cnt -> start + cnt <= bit_cnt b ->
  exists b', bitmap_set_multiple b start cnt v = Ret b' /\ bm_wf b' /\
    bit_cnt b' = bit_cnt b /\
    forall j, 0 <= j < bit_cnt b ->
      bget b' j = if in_range j start cnt then v else bget b j.
Proof.
  intros WF Hs Hc Hb. pose proof (bm_cnt b WF). unfold bitmap_set_multiple.
  rewrite u32_small by lia. rewrite !(proj2 (Z.leb_le _ _)) by lia.
  destruct (set_multiple_loop_spec (Z.to_nat cnt) b start 0 v) as (b' & E & W & C & G);
    [done|lia|lia|lia|].
  exists b'. split_and!; [done..|]. intros j Hj. rewrite G by done.
  rewrite Z2Nat.id, Z.add_0_r by lia. done.
Qed.

Lemma contains_loop_spec n b start i v :
  bm_wf b -> 0 <= start -> 0 <= i -> start + i + Z.of_nat n <= bit_cnt b ->
  exists r, contains_loop n b start i v = Ret r /\
    (r = true <-> exists j, start + i <= j < start + i + Z.of_nat n /\ bget b j = v).
Proof.
  intros WF Hs. revert i. induction n as [|n IH]; intros i Hi Hb.
  - exists false. split; [done|]. split; [done|]. intros (j & Hj & _). lia.
  - cbn [contains_loop]. pose proof (bm_cnt b WF). rewrite u32_small by lia.
    rewrite bitmap_test_spec by (done || lia). cbn [obind].
    destruct (Bool.eqb (bget b (start + i)) v) eqn:E.
    + exists true. split; [done|]. split; [intros _|done]. exists (start + i).
      split; [lia|]. by apply eqb_prop.
    + destruct (IH (i + 1)) as (r & -> & Hr); [lia|lia|]. exists r. split; [done|].
      rewrite Hr. split; intros (j & Hj & Hv).
      * exists j. split; [lia|done].
      * exists j. split; [|done]. destruct (decide (j = start + i)) as [->|]; [|lia].
        rewrite Hv, eqb_reflx in E. done.
Qed.

Lemma bitmap_contains_spec b start cnt v :
  bm_wf b -> 0 <= start -> 0 <= cnt -> start + cnt <= bit_cnt b ->
  exists r, bitmap_contains b start cnt v = Ret r /\
    (r = true <-> exists j, start <= j < start + cnt /\ bget b j = v).
Proof.
  intros WF Hs Hc Hb. pose proof (bm_cnt b WF). unfold bitmap_contains.
  rewrite u32_small by lia. rewrite !(proj2 (Z.leb_le _ _)) by lia.
  destruct (contains_loop_spec (Z.to_nat cnt) b start 0 v) as (r & E & Hr); [done|lia..|].
  exists r. split; [done|]. rewrite Hr, Z2Nat.id, Z.add_0_r by lia. done.
Qed.

Lemma bitmap_contains_neg b start cnt v :
  bm_wf b -> 0 <= start -> 0 <= cnt -> start + cnt <= bit_cnt b ->
  exists r, bitmap_contains b start cnt (negb v) = Ret r /\
    (r = false <-> all_bits b v start cnt).
Proof.
  intros WF Hs Hc Hb.
  destruct (bitmap_contains_spec b start cnt (negb v)) as (r & E & Hr); [done..|].
  exists r. split; [done|]. unfold all_bits. destruct r; split; try done.
  - intros H. destruct (proj1 Hr eq_refl) as (j & Hj & Hv). rewrite H in Hv by done.
    by destruct v.
  - intros _ j Hj. destruct (Bool.eqb (bget b j) v) eqn:E2; [by apply eqb_prop|].
    exfalso. apply eqb_false_iff in E2. assert (false = true); [|done].
    apply Hr. exists j. split; [done|]. destruct (bget b j), v; done.
Qed.

Lemma bitmap_all_spec b start cnt :
  bm_wf b -> 0 <= start -> 0 <= cnt -> start + cnt <= bit_cnt b ->
  exists r, bitmap_all b start cnt = Ret r /\ (r = true <-> all_bits b true start cnt).
Proof.
  intros WF Hs Hc Hb. destruct (bitmap_contains_neg b start cnt true) as (r & E & Hr); [done..|].
  unfold bitmap_all. cbn [negb] in E. rewrite E. cbn [obind]. exists (negb r).
  split; [done|]. rewrite <- Hr. destruct r; naive_solver.
Qed.

(** The first fit: the least start of a group of [cnt] bits equal to [v]. *)
Definition first_fit (b : bitmap) (v : bool) (start cnt i : Z) : Prop :=
  start <= i /\ i + cnt <= bit_cnt b /\ all_bits b v i cnt /\
  forall k, start <= k < i -> ~ all_bits b v k cnt.
Definition no_fit (b : bitmap) (v : bool) (start cnt : Z) : Prop :=
  forall k, start <= k -> k + cnt <= bit_cnt b -> ~ all_bits b v k cnt.

Lemma scan_loop_spec fuel b start i cnt v :
  bm_wf b -> 0 <= start <= i -> 0 <= cnt <= bit_cnt b -> i <= bit_cnt b + 1 ->
  (forall k, start <= k < i -> ~ all_bits b v k cnt) ->
  (Z.to_nat (bit_cnt b + 1 - i) < fuel)%nat ->
  exists r, scan_loop fuel b i (bit_cnt b - cnt) cnt v = Ret r /\
    ((r < BITMAP_ERROR /\ first_fit b v start cnt r) \/
     (r = BITMAP_ERROR /\ no_fit b v start cnt)).
Proof.
  intros WF. pose proof (bm_cnt b WF) as HC. revert i.
  induction fuel as [|fuel IH]; intros i Hi Hc Hi2 Hno Hf; [lia|].
  cbn [scan_loop]. destruct (i <=? bit_cnt b - cnt) eqn:E.
  - destruct (bitmap_contains_neg b i cnt v) as (r & -> & Hr); [done|lia..|].
    cbn [obind]. destruct r; cbn [negb].
    + rewrite u32_small by lia. apply IH; [lia|lia|lia| |lia].
      intros k Hk. destruct (decide (k = i)) as [->|]; [|apply Hno; lia].
      intros Ha. by apply Hr in Ha.
    + exists i. split; [done|]. left. unfold BITMAP_ERROR, UINT_MAX. split; [lia|].
      split_and!; [lia|lia|by apply Hr|done].
  - exists BITMAP_ERROR. split; [done|]. right. split; [done|]. intros k Hk Hk2.
    apply Hno. lia.
Qed.

Lemma bitmap_scan_spec b start cnt v :
  bm_wf b -> 0 <= start <= bit_cnt b -> 0 <= cnt ->
  exists r, bitmap_scan b start cnt v = Ret r /\
    ((r < BITMAP_ERROR /\ first_fit b v start cnt r) \/
     (r = BITMAP_ERROR /\ no_fit b v start cnt)).
Proof.
  intros WF Hs Hc. pose proof (bm_cnt b WF). unfold bitmap_scan.
  rewrite (proj2 (Z.leb_le _ _)) by lia. destruct (cnt <=? bit_cnt b) eqn:E.
  - apply scan_loop_spec; [done|lia|lia|lia| |lia]. intros k Hk. lia.
  - exists BITMAP_ERROR. split; [done|]. right. split; [done|]. intros k Hk Hk2. lia.
Qed.

Lemma bitmap_scan_and_flip_spec b start cnt v :
  bm_wf b -> 0 <= start <= bit_cnt b -> 0 <= cnt ->
  (exists i b', bitmap_scan_and_flip b start cnt v = Ret (i, b') /\ i < BITMAP_ERROR /\
     first_fit b v start cnt i /\ bm_wf b' /\ bit_cnt b' = bit_cnt b /\
     forall j, 0 <= j < bit_cnt b ->
       bget b' j = if in_range j i cnt then negb v else bget b j) \/
  (bitmap_scan_and_flip b start cnt v = Ret (BITMAP_ERROR, b) /\ no_fit b v start cnt).
Proof.
  intros WF Hs Hc. destruct (bitmap_scan_spec b start cnt v WF Hs Hc) as (r & E & [[Hr F]|[-> F]]);
    unfold bitmap_scan_and_flip; rewrite E; cbn [obind].
  - left. rewrite (proj2 (Z.eqb_neq _ _)) by lia. destruct F as (F1 & F2 & F3 & F4).
    destruct (bitmap_set_multiple_spec b r cnt (negb v)) as (b' & -> & W & C & G); [done|lia..|].
    cbn [obind]. exists r, b'. split_and!; try done; lia.
  - right. by rewrite Z.eqb_refl.
Qed.

(** A bitmap that [bitmap_set_all] has initialised. *)
Lemma bitmap_set_all_spec b v :
  bm_wf b -> exists b', bitmap_set_all b v = Ret b' /\ bm_wf b' /\ bit_cnt b' = bit_cnt b /\
    forall j, 0 <= j < bit_cnt b -> bget b' j = v.
Proof.
  intros WF. pose proof (bm_cnt b WF).
  destruct (bitmap_set_multiple_spec b 0 (bit_cnt b) v) as (b' & E & W & C & G); [done|lia..|].
  exists b'. split_and!; try done. intros j Hj. rewrite G by done.
  unfold in_range. by replace ((0 <=? j) && (j <? 0 + bit_cnt b)) with true by lia.
Qed.

Lemma count_loop_spec n b start i v c :
  bm_wf b -> 0 <= start -> 0 <= i -> start + i + Z.of_nat n <= bit_cnt b ->
  0 <= c <= i ->
  count_loop n b start i v c =
    Ret (c + Z.of_nat (length (filter (fun j => bget b j = v)
                                      (seqZ (start + i) (Z.of_nat n))))).
Proof.
  intros WF Hs. revert i c. induction n as [|n IH]; intros i c Hi Hb Hc.
  - simpl. f_equal. lia.
  - cbn [count_loop]. pose proof (bm_cnt b WF). rewrite u32_small by lia.
    rewrite bitmap_test_spec by (done || lia). cbn [obind].
    rewrite seqZ_cons by lia. rewrite filter_cons.
    replace (Z.pred (Z.of_nat (S n))) with (Z.of_nat n) by lia.
    replace (Z.succ (start + i)) with (start + (i + 1)) by lia.
    destruct (Bool.eqb (bget b (start + i)) v) eqn:E.
    + rewrite decide_True by (by apply eqb_prop). rewrite u32_small by lia.
      rewrite IH by lia. f_equal. cbn [length]. lia.
    + rewrite decide_False by (by apply eqb_false_iff). rewrite IH by lia. done.
Qed.

(** * Properties *)

(** C34.  [bitmap_scan_and_flip] is first fit: either it returns the least index at or after
    [start] of a group of [cnt] bits equal to [value], having flipped exactly that group, or
    there is no such group and it returns [BITMAP_ERROR] with the map unchanged. *)
Theorem bitmap_scan_and_flip_first_fit (b : bitmap) (start cnt : Z) (value : bool)
    (Hwf : bm_wf b) (Hstart : 0 <= start <= bit_cnt b) (Hcnt : 0 <= cnt) :
  (exists i b', bitmap_scan_and_flip b start cnt value = Ret (i, b') /\ i < BITMAP_ERROR /\
     first_fit b value start cnt i /\ bm_wf b' /\ bit_cnt b' = bit_cnt b /\
     forall j, 0 <= j < bit_cnt b ->
       bget b' j = if in_range j i cnt then negb value else bget b j) \/
  (bitmap_scan_and_flip b start cnt value = Ret (BITMAP_ERROR, b) /\
   no_fit b value start cnt).
Proof. by apply bitmap_scan_and_flip_spec. Qed.

(**  The single-bit and range operations on 32-bit elements implement an array of bits:
    test reads a bit, set/mark/reset/flip change exactly one, set_multiple exactly a range,
    count counts, and every out-of-range request fails its assertion. *)
Theorem bitmap_refines_bit_array (b : bitmap) (i start cnt : Z) (v : bool)
    (Hwf : bm_wf b) (Hi : 0 <= i < bit_cnt b) (Hr : 0 <= start /\ 0 <= cnt /\ start + cnt <= bit_cnt b) :
  bitmap_test b i = Ret (bget b i) /\
  (exists b', bitmap_set b i v = Ret b' /\ bm_wf b' /\
     forall j, 0 <= j < bit_cnt b -> bget b' j = if j =? i then v else bget b j) /\
  (exists b', bitmap_flip b i = Ret b' /\ bm_wf b' /\
     forall j, 0 <= j < bit_cnt b -> bget b' j = if j =? i then negb (bget b i) else bget b j) /\
  (exists b', bitmap_set_multiple b start cnt v = Ret b' /\ bm_wf b' /\
     forall j, 0 <= j < bit_cnt b ->
       bget b' j = if in_range j start cnt then v else bget b j) /\
  bitmap_count b start cnt v =
    Ret (Z.of_nat (length (filter (fun j => bget b j = v) (seqZ start cnt)))) /\
  (forall k, bit_cnt b <= k -> bitmap_test b k = Panic /\ bitmap_set b k v = Panic).
Proof.
  destruct Hr as (H1 & H2 & H3). split_and!.
  - by apply bitmap_test_spec.
  - destruct (bitmap_set_spec b Hwf i v Hi) as (b' & ? & ? & _ & ?). eauto.
  - destruct (bitmap_flip_spec b Hwf i Hi) as (b' & ? & ? & _ & ?). eauto.
  - destruct (bitmap_set_multiple_spec b start cnt v) as (b' & ? & ? & _ & ?); eauto.
  - pose proof (bm_cnt b Hwf). unfold bitmap_count. rewrite u32_small by lia.
    rewrite !(proj2 (Z.leb_le _ _)) by lia. rewrite count_loop_spec by (done || lia).
    by rewrite Z2Nat.id, Z.add_0_r, Z.add_0_l by lia.
  - intros k Hk. unfold bitmap_test, bitmap_set. by rewrite (proj2 (Z.ltb_ge _ _)).
Qed.

(**  A request for zero bits is granted at [start], whatever it is. *)
Theorem bitmap_scan_and_flip_zero (b : bitmap) (start : Z) (value : bool)
    (Hwf : bm_wf b) (Hstart : 0 <= start <= bit_cnt b) :
  exists b', bitmap_scan_and_flip b start 0 value = Ret (start, b') /\
    forall j, 0 <= j < bit_cnt b -> bget b' j = bget b j.
Proof.
  destruct (bitmap_scan_and_flip_spec b start 0 value Hwf Hstart)
    as [(i & b' & E & _ & F & _ & _ & G)|[_ N]]; [done| |].
  - exists b'. destruct F as (F1 & _ & _ & F4). assert (i = start) as ->.
    { destruct (Z_lt_dec start i); [|lia]. exfalso. apply (F4 start); [lia|].
      intros j Hj. lia. }
    split; [done|]. intros j Hj. rewrite G by done. unfold in_range.
    by replace ((start <=? j) && (j <? start + 0)) with false by lia.
  - exfalso. apply (N start); [lia|lia|]. intros j Hj. lia.
Qed.

(** ** Witnesses: a 40-bit map over two elements. *)
Definition ex_bitmap : bitmap := mk_bitmap 40 [0x80000007; 0x3].

Lemma ex_bitmap_wf : bm_wf ex_bitmap.
Proof.
  split; [simpl; lia|reflexivity|]. repeat (constructor; [lia|]). constructor.
Qed.

Lemma bitmap_scan_and_flip_first_fit_witness :
  (exists i b', bitmap_scan_and_flip ex_bitmap 0 4 false = Ret (i, b') /\ i < BITMAP_ERROR /\
     first_fit ex_bitmap false 0 4 i /\ bm_wf b' /\ bit_cnt b' = bit_cnt ex_bitmap /\
     forall j, 0 <= j < bit_cnt ex_bitmap ->
       bget b' j = if in_range j i 4 then negb false else bget ex_bitmap j) \/
  (bitmap_scan_and_flip ex_bitmap 0 4 false = Ret (BITMAP_ERROR, ex_bitmap) /\
   no_fit ex_bitmap false 0 4).
Proof.
  apply (bitmap_scan_and_flip_first_fit ex_bitmap 0 4 false);
    [exact ex_bitmap_wf | simpl; lia | lia].
Defined.

Lemma bitmap_refines_bit_array_witness : bitmap_test ex_bitmap 33 = Ret true.
Proof.
  apply (bitmap_refines_bit_array ex_bitmap 33 0 4 true);
    [exact ex_bitmap_wf | simpl; lia | simpl; lia].
Defined.

Lemma bitmap_scan_and_flip_zero_witness :
  exists b', bitmap_scan_and_flip ex_bitmap 7 0 false = Ret (7, b') /\
    forall j, 0 <= j < bit_cnt ex_bitmap -> bget b' j = bget ex_bitmap j.
Proof.
  apply (bitmap_scan_and_flip_zero ex_bitmap 7 false); [exact ex_bitmap_wf | simpl; lia].
Defined.
