(* ===== verification/Vaddr.v ===== *)
(** Virtual addresses and x86 page-table entries (threads/vaddr.h, threads/pte.h): page
    numbers and offsets, the 1:1 kernel mapping, and the bit layout of PDEs and PTEs.
    An address is an integer in [0, 2^32). *)
From S2P Require Import Prelude.

(** * Definitions *)

Definition BITMASK (shift cnt : Z) : Z := Z.shiftl (Z.shiftl 1 cnt - 1) shift.
Definition PGBITS : Z := 12.
Definition PGSIZE : Z := Z.shiftl 1 PGBITS.
Definition PGMASK : Z := BITMASK 0 PGBITS.

Definition pg_ofs (va : Z) : Z := Z.land va PGMASK.
Definition pg_no (va : Z) : Z := Z.shiftr va PGBITS.
Definition pg_round_up (va : Z) : Z := Z.land (u32 (va + PGSIZE - 1)) (u32 (Z.lnot PGMASK)).
Definition pg_round_down (va : Z) : Z := Z.land va (u32 (Z.lnot PGMASK)).

Definition PHYS_BASE : Z := 0xc0000000.
Definition is_user_vaddr (vaddr : Z) : bool := vaddr <? PHYS_BASE.
Definition is_kernel_vaddr (vaddr : Z) : bool := PHYS_BASE <=? vaddr.
Definition ptov (paddr : Z) : outcome Z :=
  assert? (paddr <? PHYS_BASE) in Ret (u32 (paddr + PHYS_BASE)).
Definition vtop (vaddr : Z) : outcome Z :=
  assert? is_kernel_vaddr vaddr in Ret (vaddr - PHYS_BASE).

Definition PTSHIFT : Z := PGBITS.
Definition PTBITS : Z := 10.
Definition PTMASK : Z := BITMASK PTSHIFT PTBITS.
Definition PDSHIFT : Z := PTSHIFT + PTBITS.
Definition pt_no (va : Z) : Z := Z.shiftr (Z.land va PTMASK) PTSHIFT.
Definition pd_no (va : Z) : Z := Z.shiftr va PDSHIFT.

Definition PTE_FLAGS : Z := 0x00000fff.
Definition PTE_ADDR : Z := 0xfffff000.
Definition PTE_P : Z := 0x1.
Definition PTE_W : Z := 0x2.
Definition PTE_U : Z := 0x4.
Definition PTE_A : Z := 0x20.
Definition PTE_D : Z := 0x40.

Definition pde_create (pt : Z) : outcome Z :=
  assert? (pg_ofs pt =? 0) in
  let? p := vtop pt in Ret (Z.lor (Z.lor (Z.lor p PTE_U) PTE_P) PTE_W).
Definition pde_get_pt (pde : Z) : outcome Z :=
  assert? negb (Z.land pde PTE_P =? 0) in ptov (Z.land pde PTE_ADDR).
Definition pte_create_kernel (page : Z) (writable : bool) : outcome Z :=
  assert? (pg_ofs page =? 0) in
  let? p := vtop page in
  Ret (Z.lor (Z.lor p PTE_P) (if writable then PTE_W else 0)).
Definition pte_create_user (page : Z) (writable : bool) : outcome Z :=
  let? e := pte_create_kernel page writable in Ret (Z.lor e PTE_U).
Definition pte_get_page (pte : Z) : outcome Z := ptov (Z.land pte PTE_ADDR).

(** * Arithmetic of the masks *)

Lemma PGSIZE_val : PGSIZE = 4096.
Proof. reflexivity. Qed.

Lemma pg_ofs_mod va : pg_ofs va = va mod 4096.
Proof. unfold pg_ofs. change PGMASK with (Z.ones 12). by rewrite Z.land_ones. Qed.

Lemma pg_no_div va : pg_no va = va / 4096.
Proof. unfold pg_no, PGBITS. rewrite Z.shiftr_div_pow2 by lia. done. Qed.

Lemma land_high_mask x : in_u32 x -> Z.land x 0xfffff000 = 4096 * (x / 4096).
Proof.
  intros Hx. assert (Z.land x 0xfffff000 = Z.ldiff x (Z.ones 12)) as ->.
  { apply Z.bits_inj'. intros k Hk. rewrite Z.land_spec, Z.ldiff_spec.
    change 0xfffff000 with (Z.shiftl (Z.ones 20) 12).
    rewrite Z.shiftl_spec by done.
    destruct (Z_lt_dec k 12).
    - rewrite (Z.ones_spec_low 12) by lia. rewrite (Z.testbit_neg_r _ (k - 12)) by lia. done.
    - rewrite (Z.ones_spec_high 12) by lia.
      destruct (Z_lt_dec k 32).
      + by rewrite (Z.ones_spec_low 20) by lia.
      + rewrite (Z.ones_spec_high 20) by lia.
        assert (Z.testbit x k = false) as ->; [|done].
        destruct (decide (x = 0)) as [->|]; [apply Z.bits_0|].
        apply Z.bits_above_log2; [lia|]. assert (Z.log2 x < 32); [|lia].
        apply Z.log2_lt_pow2; lia. }
  rewrite Z.ldiff_ones_r, Z.shiftl_mul_pow2, Z.shiftr_div_pow2 by lia.
  change (2 ^ 12) with 4096. lia.
Qed.

Lemma pg_round_down_div va : in_u32 va -> pg_round_down va = 4096 * (va / 4096).
Proof. intros. unfold pg_round_down. change (u32 (Z.lnot PGMASK)) with 0xfffff000.
  by apply land_high_mask. Qed.

Lemma pg_round_up_div va :
  0 <= va -> va + 4095 < 2 ^ 32 -> pg_round_up va = 4096 * ((va + 4095) / 4096).
Proof.
  intros. unfold pg_round_up. change (u32 (Z.lnot PGMASK)) with 0xfffff000.
  rewrite PGSIZE_val, u32_small by lia. rewrite land_high_mask by lia.
  by replace (va + 4096 - 1) with (va + 4095) by lia.
Qed.

Lemma pd_no_div va : pd_no va = va / 2 ^ 22.
Proof. unfold pd_no. by rewrite Z.shiftr_div_pow2. Qed.

Lemma pt_no_div va : pt_no va = (va / 4096) mod 1024.
Proof.
  unfold pt_no. change PTMASK with (Z.shiftl (Z.ones 10) 12). change PTSHIFT with 12.
  rewrite Z.shiftr_land, Z.shiftr_shiftl_l, Z.sub_diag, Z.shiftl_0_r by lia.
  rewrite Z.land_ones, Z.shiftr_div_pow2 by lia. done.
Qed.

(** A page-aligned physical address combined with flag bits splits again. *)
Lemma entry_addr p f :
  0 <= p < 2 ^ 32 -> p mod 4096 = 0 -> 0 <= f < 4096 -> Z.land (Z.lor p f) PTE_ADDR = p.
Proof.
  intros Hp Ha Hf.
  assert (in_u32 (Z.lor p f)) as Hr.
  { split; [apply Z.lor_nonneg; lia|]. destruct (decide (Z.lor p f = 0)) as [->|]; [lia|].
    change 4294967296 with (2 ^ 32). apply Z.log2_lt_pow2.
    - assert (0 <= Z.lor p f) by (apply Z.lor_nonneg; lia). lia.
    - rewrite Z.log2_lor by lia. apply Z.max_lub_lt.
      + destruct (decide (p = 0)) as [->|]; [simpl; lia|]. apply Z.log2_lt_pow2; lia.
      + destruct (decide (f = 0)) as [->|]; [simpl; lia|]. apply Z.log2_lt_pow2; lia. }
  unfold PTE_ADDR. rewrite land_high_mask by done.
  change 4096 with (2 ^ 12) at 1 2. rewrite <- Z.shiftr_div_pow2, Z.shiftr_lor by lia.
  rewrite (Z.shiftr_div_pow2 f) by lia. rewrite Z.div_small, Z.lor_0_r by lia.
  rewrite Z.shiftr_div_pow2 by lia. change (2 ^ 12) with 4096.
  pose proof (Z.div_mod p 4096). lia.
Qed.

Lemma lor_small a b n : 0 <= n -> 0 <= a < 2 ^ n -> 0 <= b < 2 ^ n -> 0 <= Z.lor a b < 2 ^ n.
Proof.
  intros Hn Ha Hb. split; [apply Z.lor_nonneg; lia|].
  destruct (decide (Z.lor a b = 0)) as [->|]; [lia|].
  assert (0 <= Z.lor a b) by (apply Z.lor_nonneg; lia).
  apply Z.log2_lt_pow2; [lia|]. rewrite Z.log2_lor by lia. apply Z.max_lub_lt.
  - destruct (decide (a = 0)) as [->|]; [|apply Z.log2_lt_pow2; lia].
    destruct (decide (b = 0)) as [->|]; [done|].
    simpl. destruct (decide (n = 0)) as [->|]; lia.
  - destruct (decide (b = 0)) as [->|]; [|apply Z.log2_lt_pow2; lia].
    simpl. destruct (decide (n = 0)) as [->|]; [|lia]. exfalso. rewrite Z.lor_0_r in *. lia.
Qed.

(** A page the kernel can map: aligned and inside the 1:1 mapping. *)
Definition kernel_page (page : Z) : Prop :=
  PHYS_BASE <= page < 2 ^ 32 /\ page mod 4096 = 0.

Lemma pte_roundtrip page w : kernel_page page ->
  exists e, pte_create_user page w = Ret e /\ pte_get_page e = Ret page /\
    Z.testbit e 0 = true /\ Z.testbit e 1 = w /\ Z.testbit e 2 = true /\
    Z.testbit e 5 = false /\ Z.testbit e 6 = false /\ 0 <= e < 2 ^ 32.
Proof.
  intros [Hr Ha]. unfold PHYS_BASE in *.
  unfold pte_create_user, pte_create_kernel, vtop, is_kernel_vaddr, PHYS_BASE.
  rewrite pg_ofs_mod, Ha. cbn [Z.eqb]. rewrite (proj2 (Z.leb_le _ _)) by lia. cbn [obind].
  set (p := page - 0xc0000000).
  assert (0 <= p < 2 ^ 30 /\ p mod 4096 = 0) as [Hp Hpa].
  { split; [lia|]. unfold p. rewrite Zminus_mod, Ha. done. }
  set (f := Z.lor (Z.lor PTE_P (if w then PTE_W else 0)) PTE_U).
  assert (Z.lor (Z.lor (Z.lor p PTE_P) (if w then PTE_W else 0)) PTE_U = Z.lor p f) as ->.
  { unfold f. by rewrite <- !Z.lor_assoc. }
  assert (Hf : 0 <= f < 4096) by (unfold f; destruct w; vm_compute; intuition discriminate).
  assert (forall k, 0 <= k < 12 -> Z.testbit p k = false) as Hlow.
  { intros k Hk. pose proof (Z.div_mod p 4096 ltac:(lia)) as E. rewrite Hpa, Z.add_0_r in E.
    rewrite E, Z.mul_comm. change 4096 with (2 ^ 12) at 2.
    apply Z.mul_pow2_bits_low. lia. }
  assert (0 <= Z.lor p f < 2 ^ 32) as Hb by (apply lor_small; lia).
  eexists. split; [reflexivity|]. split_and!; try lia.
  - unfold pte_get_page. rewrite entry_addr by lia. unfold ptov, PHYS_BASE.
    rewrite (proj2 (Z.ltb_lt _ _)) by lia. f_equal. rewrite u32_small by lia. lia.
  - rewrite Z.lor_spec, Hlow by lia. by destruct w.
  - rewrite Z.lor_spec, Hlow by lia. by destruct w.
  - rewrite Z.lor_spec, Hlow by lia. by destruct w.
  - rewrite Z.lor_spec, Hlow by lia. by destruct w.
  - rewrite Z.lor_spec, Hlow by lia. by destruct w.
Qed.

(** Addresses in the page at [upage]. *)
Lemma aligned_offset upage o : upage mod 4096 = 0 -> 0 <= o < 4096 ->
  (upage + o) / 4096 = upage / 4096 /\ (upage + o) mod 4096 = o.
Proof.
  intros Ha Ho. pose proof (Z.div_mod upage 4096 ltac:(lia)) as E.
  rewrite Ha, Z.add_0_r in E. clear Ha. generalize dependent (upage / 4096). intros k ->.
  rewrite (Z.mul_comm 4096 k) in *. rewrite Z.div_add_l, (Z.add_comm (k * 4096) o), Z.mod_add by lia.
  rewrite Z.div_small, Z.mod_small by done. split; lia.
Qed.

Lemma aligned_below upage o b : upage mod 4096 = 0 -> b mod 4096 = 0 -> upage < b ->
  0 <= o < 4096 -> upage + o < b.
Proof. intros Ha Hb H Ho. Z.to_euclidean_division_equations. lia. Qed.

Lemma page_offset upage o : 0 <= upage -> upage mod 4096 = 0 -> is_user_vaddr upage = true ->
  0 <= o < 4096 -> 0 <= upage + o /\ is_user_vaddr (upage + o) = true /\
  pg_no (upage + o) = pg_no upage /\ pg_ofs (upage + o) = o.
Proof.
  intros H1 Ha H2 Ho. destruct (aligned_offset upage o Ha Ho) as [Ed Em].
  rewrite !pg_no_div, pg_ofs_mod. split; [lia|]. split; [|done].
  apply Z.ltb_lt, aligned_below; try done. by apply Z.ltb_lt.
Qed.

(** * Properties *)

(**  A virtual address is determined by its page-directory index, page-table index and
    page offset, which are in range; rounding down and up give the enclosing page bounds. *)
Theorem vaddr_decomposition (va : Z) (Hva : in_u32 va) :
  va = pd_no va * 2 ^ 22 + pt_no va * 2 ^ 12 + pg_ofs va /\
  0 <= pd_no va < 1024 /\ 0 <= pt_no va < 1024 /\ 0 <= pg_ofs va < 4096 /\
  pg_round_down va = va - pg_ofs va /\ pg_ofs (pg_round_down va) = 0 /\
  (va + 4095 < 2 ^ 32 ->
     va <= pg_round_up va < va + 4096 /\ pg_ofs (pg_round_up va) = 0).
Proof.
  rewrite pd_no_div, pt_no_div, pg_ofs_mod, pg_round_down_div by done.
  pose proof (Z.div_mod va 4096 ltac:(lia)).
  pose proof (Z.div_mod (va / 4096) 1024 ltac:(lia)).
  pose proof (Z.mod_pos_bound va 4096 ltac:(lia)).
  pose proof (Z.mod_pos_bound (va / 4096) 1024 ltac:(lia)).
  assert (va / 2 ^ 22 = va / 4096 / 1024) as E by (by rewrite Z.div_div by lia).
  assert (0 <= va / 4096 / 1024 < 1024).
  { split; [apply Z.div_pos; [apply Z.div_pos|]; lia|].
    rewrite Z.div_div by lia. apply Z.div_lt_upper_bound; lia. }
  rewrite E. split_and!; try lia.
  - rewrite pg_ofs_mod, Z.mul_comm. apply Z.mod_mul. lia.
  - intros Hb. rewrite pg_round_up_div by lia.
    pose proof (Z.div_mod (va + 4095) 4096 ltac:(lia)).
    pose proof (Z.mod_pos_bound (va + 4095) 4096 ltac:(lia)). split; [lia|].
    rewrite pg_ofs_mod, Z.mul_comm. apply Z.mod_mul. lia.
Qed.

Lemma vaddr_decomposition_witness : pg_round_down 0xbfffe123 = 0xbfffe000.
Proof.
  assert (H : in_u32 0xbfffe123) by lia.
  destruct (vaddr_decomposition 0xbfffe123 H) as (_ & _ & _ & _ & E & _). exact E.
Defined.
