(* ===== verification/Palloc.v ===== *)
(** The page allocator (threads/palloc.c): the kernel and user pools, each a bitmap of used
    pages and a base address, with allocation of contiguous pages and their release.  The
    theorems are discharged to clients through the class [page_allocator] at the end. *)
From S2P Require Import Prelude Bitmap Vaddr.

(** * Definitions *)

(** Memory maps addresses to byte values.  The storage of the pools' bitmaps is kept in the
    [bitmap] records, not in [mem]. *)
Definition memory : Type := Z -> Z.

Definition memset (mem : memory) (dst value size : Z) : memory :=
  fun a => if (dst <=? a) && (a <? dst + size) then u8 value else mem a.

Definition memcpy_block (mem : memory) (dst src size : Z) : memory :=
  fun a => if (dst <=? a) && (a <? dst + size) then mem (src + (a - dst)) else mem a.

Definition NULL : Z := 0.

(** The pool's lock makes the bitmap update one atomic step and is not represented. *)
Record pool := mk_pool { used_map : bitmap; base : Z }.

Record palloc_state := mk_palloc {
  kernel_pool : pool;
  user_pool : pool;
  mem : memory
}.

Definition PAL_ASSERT : Z := 1.
Definition PAL_ZERO : Z := 2.
Definition PAL_USER : Z := 4.
Definition has_flag (flags f : Z) : bool := negb (Z.land flags f =? 0).

Definition page_from_pool (p : pool) (page : Z) : bool :=
  let page_no := pg_no page in
  let start_page := pg_no (base p) in
  let end_page := start_page + bitmap_size (used_map p) in
  (start_page <=? page_no) && (page_no <? end_page).

(** The 32-bit words stored from address [a] on. *)
Definition mem_word (m : memory) (a : Z) : Z :=
  u32 (m a + 256 * m (a + 1) + 65536 * m (a + 2) + 16777216 * m (a + 3)).
Definition mem_words (m : memory) (a : Z) (n : nat) : list Z :=
  map (fun i => mem_word m (a + 4 * Z.of_nat i)) (seq 0 n).

Definition init_pool (m : memory) (base : Z) (page_cnt : Z) : outcome pool :=
  let bm_pages := DIV_ROUND_UP (bitmap_buf_size page_cnt) PGSIZE in
  if page_cnt <? bm_pages then Panic
  else
    let page_cnt := page_cnt - bm_pages in
    let? map := bitmap_create_in_buf page_cnt
                  (mem_words m (base + 8) (Z.to_nat (elem_cnt page_cnt)))
                  (u32 (bm_pages * PGSIZE)) in
    Ret (mk_pool map (u32 (base + bm_pages * PGSIZE))).

Definition palloc_init (m : memory) (init_ram_pages user_page_limit : Z)
    : outcome palloc_state :=
  let? free_start := ptov (1024 * 1024) in
  let? free_end := ptov (u32 (init_ram_pages * PGSIZE)) in
  let free_pages := (free_end - free_start) / PGSIZE in
  let user_pages := free_pages / 2 in
  let user_pages := if user_page_limit <? user_pages then user_page_limit else user_pages in
  let kernel_pages := free_pages - user_pages in
  let? k := init_pool m free_start kernel_pages in
  let? u := init_pool m (u32 (free_start + kernel_pages * PGSIZE)) user_pages in
  Ret (mk_palloc k u m).

Definition select_pool (st : palloc_state) (flags : Z) : pool :=
  if has_flag flags PAL_USER then user_pool st else kernel_pool st.
Definition update_pool (st : palloc_state) (user : bool) (p : pool) : palloc_state :=
  if user then mk_palloc (kernel_pool st) p (mem st) else mk_palloc p (user_pool st) (mem st).
Definition update_mem (st : palloc_state) (m : memory) : palloc_state :=
  mk_palloc (kernel_pool st) (user_pool st) m.

Definition palloc_get_multiple (st : palloc_state) (flags page_cnt : Z)
    : outcome (palloc_state * Z) :=
  let pool := select_pool st flags in
  if page_cnt =? 0 then Ret (st, NULL)
  else
    let? (page_idx, map) := bitmap_scan_and_flip (used_map pool) 0 page_cnt false in
    let st := update_pool st (has_flag flags PAL_USER) (mk_pool map (base pool)) in
    let pages := if page_idx =? BITMAP_ERROR then NULL
                 else u32 (base pool + PGSIZE * page_idx) in
    if negb (pages =? NULL) then
      Ret (if has_flag flags PAL_ZERO
           then update_mem st (memset (mem st) pages 0 (u32 (PGSIZE * page_cnt)))
           else st, pages)
    else if has_flag flags PAL_ASSERT then Panic
    else Ret (st, pages).

Definition palloc_get_page (st : palloc_state) (flags : Z) : outcome (palloc_state * Z) :=
  palloc_get_multiple st flags 1.

Definition palloc_free_multiple (st : palloc_state) (pages page_cnt : Z)
    : outcome palloc_state :=
  assert? (pg_ofs pages =? 0) in
  if (pages =? NULL) || (page_cnt =? 0) then Ret st
  else
    let? user := (if page_from_pool (kernel_pool st) pages then Ret false
                  else if page_from_pool (user_pool st) pages then Ret true
                  else Panic) in
    let pool := if user then user_pool st else kernel_pool st in
    let page_idx := u32 (pg_no pages - pg_no (base pool)) in
    let st := update_mem st (memset (mem st) pages 0xcc (u32 (PGSIZE * page_cnt))) in
    let? all := bitmap_all (used_map pool) page_idx page_cnt in
    assert? all in
    let? map := bitmap_set_multiple (used_map pool) page_idx page_cnt false in
    Ret (update_pool st user (mk_pool map (base pool))).

Definition palloc_free_page (st : palloc_state) (page : Z) : outcome palloc_state :=
  palloc_free_multiple st page 1.

(** * Specification

    [page_used st q]: the page at the aligned address [q] belongs to a pool and is marked. *)

Definition pool_used (p : pool) (q : Z) : bool :=
  page_from_pool p q && bget (used_map p) (pg_no q - pg_no (base p)).
Definition page_used (st : palloc_state) (q : Z) : bool :=
  pool_used (kernel_pool st) q || pool_used (user_pool st) q.

Definition page_cnt (p : pool) : Z := bit_cnt (used_map p).
Definition pool_end (p : pool) : Z := base p + 4096 * page_cnt p.

Record pool_ok (p : pool) : Prop := {
  po_map : bm_wf (used_map p);
  po_aligned : base p mod 4096 = 0;
  po_low : PHYS_BASE < base p;
  po_high : pool_end p <= 2 ^ 32
}.

Record palloc_ok (st : palloc_state) : Prop := {
  pa_kernel : pool_ok (kernel_pool st);
  pa_user : pool_ok (user_pool st);
  pa_disjoint : pool_end (kernel_pool st) <= base (user_pool st)
}.

(** * Lemmas *)

Section Pool.
Context (p : pool) (OK : pool_ok p).

Lemma pool_base_val : base p = 4096 * (base p / 4096).
Proof. pose proof (Z.div_mod (base p) 4096 ltac:(lia)). pose proof (po_aligned p OK). lia. Qed.

Lemma page_from_pool_iff q : q mod 4096 = 0 ->
  page_from_pool p q = true <-> base p <= q < pool_end p.
Proof.
  intros Hq. unfold page_from_pool, pool_end, page_cnt, bitmap_size. rewrite !pg_no_div.
  pose proof pool_base_val. pose proof (Z.div_mod q 4096 ltac:(lia)). lia.
Qed.

(** The page with index [i]. *)
Lemma page_index i : 0 <= i < page_cnt p ->
  let q := base p + 4096 * i in
  q mod 4096 = 0 /\ page_from_pool p q = true /\ pg_no q - pg_no (base p) = i /\ in_u32 q.
Proof.
  intros Hi q. pose proof (po_high p OK). pose proof (po_low p OK).
  unfold pool_end, PHYS_BASE in *.
  assert (q mod 4096 = 0) as Hq.
  { unfold q. rewrite Z.mul_comm, Z.mod_add by lia. apply po_aligned, OK. }
  split_and!; [done| | |unfold q; lia|unfold q; lia].
  - apply page_from_pool_iff; [done|]. unfold q, pool_end. lia.
  - rewrite !pg_no_div. unfold q. rewrite Z.mul_comm, Z.div_add by lia. lia.
Qed.

Lemma pool_used_index i : 0 <= i < page_cnt p ->
  pool_used p (base p + 4096 * i) = bget (used_map p) i.
Proof.
  intros Hi. destruct (page_index i Hi) as (_ & F & N & _).
  unfold pool_used. by rewrite F, N.
Qed.

(** An aligned page of the pool has an index. *)
Lemma page_has_index q : q mod 4096 = 0 -> page_from_pool p q = true ->
  exists i, 0 <= i < page_cnt p /\ q = base p + 4096 * i.
Proof.
  intros Hq F. apply page_from_pool_iff in F; [|done]. exists ((q - base p) / 4096).
  pose proof pool_base_val. pose proof (Z.div_mod q 4096 ltac:(lia)).
  unfold pool_end in F.
  assert ((q - base p) / 4096 = q / 4096 - base p / 4096) as ->.
  { replace (q - base p) with (q - (base p / 4096) * 4096) by lia.
    replace (q - base p / 4096 * 4096) with (q + (- (base p / 4096)) * 4096) by lia.
    rewrite Z.div_add by lia. lia. }
  lia.
Qed.

(** Changing the map's bits [i ... i + cnt - 1] to [v] changes those pages. *)
Lemma pool_used_update b' i cnt v q :
  bit_cnt b' = page_cnt p -> 0 <= i -> i + cnt <= page_cnt p ->
  (forall j, 0 <= j < page_cnt p ->
     bget b' j = if in_range j i cnt then v else bget (used_map p) j) ->
  q mod 4096 = 0 ->
  pool_used (mk_pool b' (base p)) q =
    if in_range q (base p + 4096 * i) (4096 * cnt) then v else pool_used p q.
Proof.
  intros HC Hi Hr HG Hq. unfold pool_used.
  assert (page_from_pool (mk_pool b' (base p)) q = page_from_pool p q) as ->.
  { unfold page_from_pool, bitmap_size. simpl. unfold page_cnt in HC. by rewrite HC. }
  destruct (page_from_pool p q) eqn:F; cbn [andb].
  - destruct (page_has_index q Hq F) as (k & Hk & ->).
    destruct (page_index k Hk) as (_ & _ & N & _). cbn [used_map base]. rewrite N, HG by done.
    unfold in_range.
    destruct ((i <=? k) && (k <? i + cnt)) eqn:E1;
    destruct ((base p + 4096 * i <=? base p + 4096 * k) &&
      (base p + 4096 * k <? base p + 4096 * i + 4096 * cnt)) eqn:E2; done || lia.
  - destruct (in_range q (base p + 4096 * i) (4096 * cnt)) eqn:E; [|done].
    exfalso. unfold in_range in E.
    assert (page_from_pool p q = true); [|congruence].
    apply page_from_pool_iff; [done|]. unfold pool_end. lia.
Qed.

Lemma pool_ok_update b' : bm_wf b' -> bit_cnt b' = page_cnt p -> pool_ok (mk_pool b' (base p)).
Proof.
  intros W C. destruct OK as [? ? ? H]. split; simpl; try done.
  unfold pool_end, page_cnt in *. simpl. unfold page_cnt in C. by rewrite C.
Qed.
End Pool.

Lemma has_flag_bit flags k : 0 <= k -> has_flag flags (2 ^ k) = Z.testbit flags k.
Proof.
  intros Hk. unfold has_flag. destruct (Z.testbit flags k) eqn:E.
  - apply negb_true_iff, Z.eqb_neq. intros H.
    assert (Z.testbit (Z.land flags (2 ^ k)) k = false) as H2 by (rewrite H; apply Z.bits_0).
    rewrite Z.land_spec, Z.pow2_bits_true, E in H2 by done. done.
  - apply negb_false_iff, Z.eqb_eq, Z.bits_inj'. intros j Hj.
    rewrite Z.bits_0, Z.land_spec. destruct (decide (j = k)) as [->|]; [by rewrite E|].
    rewrite Z.pow2_bits_false by done. apply andb_false_r.
Qed.

Section State.
Context (st : palloc_state) (OK : palloc_ok st).

Lemma pool_used_outside p q : pool_ok p -> q mod 4096 = 0 ->
  ~ (base p <= q < pool_end p) -> pool_used p q = false.
Proof.
  intros Hp Hq Hn. unfold pool_used. destruct (page_from_pool p q) eqn:F; [|done].
  apply page_from_pool_iff in F; [|done..]. lia.
Qed.

Lemma select_pool_ok flags : pool_ok (select_pool st flags).
Proof. unfold select_pool. destruct OK. by destruct (has_flag flags PAL_USER). Qed.

Definition chosen (user : bool) : pool := if user then user_pool st else kernel_pool st.

Lemma chosen_ok user : pool_ok (chosen user).
Proof. destruct OK, user; done. Qed.

(** Setting a range of one pool's map to [v]. *)
Lemma palloc_update user b' i cnt v :
  bm_wf b' -> bit_cnt b' = page_cnt (chosen user) -> 0 <= i -> 0 <= cnt ->
  i + cnt <= page_cnt (chosen user) ->
  (forall j, 0 <= j < page_cnt (chosen user) ->
     bget b' j = if in_range j i cnt then v else bget (used_map (chosen user)) j) ->
  let st' := update_pool st user (mk_pool b' (base (chosen user))) in
  palloc_ok st' /\
  forall q, q mod 4096 = 0 ->
    page_used st' q =
      if in_range q (base (chosen user) + 4096 * i) (4096 * cnt) then v else page_used st q.
Proof.
  intros W C Hi Hc Hr G st'.
  pose proof (chosen_ok user) as P. pose proof (pool_ok_update _ P b' W C) as P'.
  split.
  - unfold st', update_pool. destruct OK as [K U D]. unfold chosen in *.
    destruct user; split; simpl; try done.
    unfold pool_end, page_cnt in *. simpl. rewrite C. exact D.
  - intros q Hq. pose proof (pool_used_update _ P b' i cnt v q C Hi Hr G Hq) as E.
    unfold page_used, st', update_pool. destruct OK as [K U D].
    assert (in_range q (base (chosen user) + 4096 * i) (4096 * cnt) = true ->
            base (chosen user) <= q < pool_end (chosen user)) as Hin.
    { unfold in_range, pool_end. lia. }
    unfold chosen in *. destruct user; cbn [kernel_pool user_pool]; rewrite E.
    + destruct (in_range _ _ _) eqn:R; [|done]. specialize (Hin eq_refl).
      rewrite (pool_used_outside (kernel_pool st)) by (done || lia). done.
    + destruct (in_range _ _ _) eqn:R; [|done]. specialize (Hin eq_refl).
      rewrite (pool_used_outside (user_pool st)) by (done || lia). apply orb_false_r.
Qed.

(** What a successful allocation of [cnt] pages at [a] does. *)
Record allocated (st' : palloc_state) (a cnt : Z) : Prop := {
  al_ok : palloc_ok st';
  al_addr : PHYS_BASE < a /\ a + 4096 * cnt <= 2 ^ 32 /\ a mod 4096 = 0;
  al_free : forall q, q mod 4096 = 0 -> a <= q < a + 4096 * cnt -> page_used st q = false;
  al_used : forall q, q mod 4096 = 0 ->
    page_used st' q = if in_range q a (4096 * cnt) then true else page_used st q
}.

Lemma page_used_chosen user q : page_from_pool (chosen user) q = true -> q mod 4096 = 0 ->
  page_used st q = pool_used (chosen user) q.
Proof.
  intros F Hq. pose proof F as F2. apply page_from_pool_iff in F; [|by apply chosen_ok|done].
  unfold page_used. destruct OK as [K U D]. unfold chosen in *. destruct user.
  - rewrite (pool_used_outside (kernel_pool st)) by (done || lia). done.
  - rewrite (pool_used_outside (user_pool st)) by (done || lia). apply orb_false_r.
Qed.

(** No free run of [cnt] pages is left in the pool. *)
Definition pool_exhausted (p : pool) (cnt : Z) : Prop := no_fit (used_map p) false 0 cnt.

Lemma palloc_get_multiple_spec flags cnt : 0 < cnt < 2 ^ 20 ->
  let user := has_flag flags PAL_USER in
  (exists st' a, palloc_get_multiple st flags cnt = Ret (st', a) /\ allocated st' a cnt /\
     base (chosen user) <= a /\ a + 4096 * cnt <= pool_end (chosen user) /\
     mem st' = if has_flag flags PAL_ZERO then memset (mem st) a 0 (4096 * cnt) else mem st) \/
  (pool_exhausted (chosen user) cnt /\
   palloc_get_multiple st flags cnt =
     if has_flag flags PAL_ASSERT then Panic else Ret (st, NULL)).
Proof.
  intros Hc user. pose proof (chosen_ok user) as P.
  pose proof (po_map _ P) as W. pose proof (bm_cnt _ W) as B.
  assert (select_pool st flags = chosen user) as S.
  { unfold select_pool, chosen, user. done. }
  unfold palloc_get_multiple. rewrite S. fold user.
  rewrite (proj2 (Z.eqb_neq _ _)) by lia.
  destruct (bitmap_scan_and_flip_spec (used_map (chosen user)) 0 cnt false W)
    as [(i & b' & E & Hi & (F1 & F2 & F3 & F4) & W' & C & G)|[E N]]; [lia|lia| |].
  - left. rewrite E. cbn [obind]. rewrite (proj2 (Z.eqb_neq i BITMAP_ERROR)) by lia.
    pose proof (po_high _ P) as HH. pose proof (po_low _ P) as HL.
    unfold pool_end, page_cnt, PHYS_BASE in HH, HL.
    rewrite PGSIZE_val. rewrite (u32_small (base _ + _)) by lia.
    rewrite (u32_small (4096 * cnt)) by lia.
    rewrite (proj2 (Z.eqb_neq _ NULL)) by (unfold NULL; lia). cbn [negb].
    set (st1 := update_pool st user (mk_pool b' (base (chosen user)))).
    assert (mem st1 = mem st) as HM by (unfold st1, update_pool; by destruct user).
    destruct (palloc_update user b' i cnt true W' C ltac:(lia) ltac:(lia) F2 G) as [OK1 G1].
    fold st1 in OK1, G1.
    set (a := base (chosen user) + 4096 * i) in *.
    assert (Hmod : a mod 4096 = 0).
    { unfold a. rewrite Z.mul_comm, Z.mod_add by lia. apply (po_aligned _ P). }
    eexists _, a. split; [reflexivity|]. split_and!.
    + split.
      * destruct (has_flag flags PAL_ZERO); [|done].
        destruct OK1 as [? ? ?]. by split.
      * unfold PHYS_BASE. split_and!; [lia|lia|done].
      * intros q Hq Hr.
        assert (page_from_pool (chosen user) q = true) as F.
        { apply page_from_pool_iff; [done..|]. unfold pool_end, page_cnt. lia. }
        rewrite (page_used_chosen user) by done.
        destruct (page_has_index _ P q Hq F) as (k & Hk & ->).
        rewrite pool_used_index by done. apply F3. unfold page_cnt in Hk. lia.
      * intros q Hq. rewrite <- (G1 q Hq). by destruct (has_flag flags PAL_ZERO).
    + lia.
    + unfold pool_end, page_cnt. lia.
    + destruct (has_flag flags PAL_ZERO); simpl; by rewrite HM.
  - right. split; [done|]. rewrite E. cbn [obind]. rewrite Z.eqb_refl. cbn [negb].
    destruct (has_flag flags PAL_ASSERT); [done|].
    do 2 f_equal. unfold update_pool, chosen. destruct user; simpl; by destruct st as [[] [] ?].
Qed.

(** Releasing [cnt] pages starting at index [i] of a pool. *)
Lemma palloc_free_multiple_spec a cnt : 0 < cnt -> a mod 4096 = 0 ->
  (forall q, q mod 4096 = 0 -> a <= q < a + 4096 * cnt -> page_used st q = true) ->
  (forall user, page_from_pool (chosen user) a = true ->
     a + 4096 * cnt <= pool_end (chosen user)) ->
  exists st', palloc_free_multiple st a cnt = Ret st' /\ palloc_ok st' /\
    mem st' = memset (mem st) a 0xcc (4096 * cnt) /\
    forall q, q mod 4096 = 0 ->
      page_used st' q = if in_range q a (4096 * cnt) then false else page_used st q.
Proof.
  intros Hc Ha Hall Hend.
  assert (page_used st a = true) as Hu by (apply Hall; lia).
  assert (exists user, (if page_from_pool (kernel_pool st) a then Ret false
     else if page_from_pool (user_pool st) a then Ret true else Panic) = Ret user /\
     page_from_pool (chosen user) a = true) as (user & Es & F).
  { unfold page_used, pool_used in Hu. unfold chosen.
    destruct (page_from_pool (kernel_pool st) a) eqn:F1; [by exists false|].
    destruct (page_from_pool (user_pool st) a) eqn:F2; [by exists true|]. done. }
  specialize (Hend user F). pose proof (chosen_ok user) as P.
  pose proof (po_map _ P) as W. pose proof (bm_cnt _ W) as B.
  pose proof (po_high _ P) as HH. pose proof (po_low _ P) as HL. unfold PHYS_BASE in HL.
  destruct (page_has_index _ P a Ha F) as (i & Hi & Ea).
  destruct (page_index _ P i Hi) as (_ & _ & Hno & _). rewrite <- Ea in Hno.
  unfold palloc_free_multiple. rewrite pg_ofs_mod, Ha. cbn [Z.eqb].
  rewrite (proj2 (Z.eqb_neq a NULL)) by (unfold NULL; lia).
  rewrite (proj2 (Z.eqb_neq cnt 0)) by lia. cbn [orb]. rewrite Es. cbn [obind].
  assert ((if user then user_pool st else kernel_pool st) = chosen user) as -> by done.
  unfold page_cnt in Hi. rewrite Hno, PGSIZE_val, (u32_small i) by lia.
  unfold pool_end, page_cnt in Hend, HH. rewrite (u32_small (4096 * cnt)) by lia.
  destruct (bitmap_all_spec (used_map (chosen user)) i cnt) as (r & -> & Hr);
    [done|lia|lia|lia|]. cbn [obind].
  assert (r = true) as ->.
  { apply Hr. intros j Hj. rewrite <- pool_used_index by (done || (unfold page_cnt; lia)).
    assert (page_from_pool (chosen user) (base (chosen user) + 4096 * j) = true) as Fj.
    { apply page_index; [done|]. unfold page_cnt. lia. }
    destruct (page_index _ P j) as (Hm & _); [unfold page_cnt; lia|].
    rewrite <- (page_used_chosen user) by done. apply Hall; [done|lia]. }
  destruct (bitmap_set_multiple_spec (used_map (chosen user)) i cnt false)
    as (b' & -> & W' & C & G); [done|lia..|]. cbn [obind].
  destruct (palloc_update user b' i cnt false W' C) as [OK1 G1];
    [lia|lia|unfold page_cnt; lia|exact G|].
  eexists. split; [reflexivity|]. split_and!.
  - destruct OK1 as [K U D]. unfold update_pool in *. destruct user; by split.
  - unfold update_pool. destruct user; done.
  - intros q Hq. rewrite Ea, <- (G1 q Hq). unfold update_pool. by destruct user.
Qed.

(** A page whose bit is clear, or that belongs to no pool, cannot be freed. *)
Lemma palloc_free_unused a : in_u32 a -> a mod 4096 = 0 -> a <> NULL ->
  page_used st a = false -> palloc_free_page st a = Panic.
Proof.
  intros Hr Ha Hn Hu. unfold palloc_free_page, palloc_free_multiple.
  rewrite pg_ofs_mod, Ha. cbn [Z.eqb]. rewrite (proj2 (Z.eqb_neq a NULL)) by done.
  change (1 =? 0) with false. cbn [orb].
  assert (forall user, page_from_pool (chosen user) a = true ->
    bitmap_all (used_map (chosen user)) (u32 (pg_no a - pg_no (base (chosen user)))) 1
      = Ret false) as Hall.
  { intros user F. pose proof (chosen_ok user) as P.
    destruct (page_has_index _ P a Ha F) as (i & Hi & Ea).
    destruct (page_index _ P i Hi) as (_ & _ & Hno & _). rewrite <- Ea in Hno.
    pose proof (bm_cnt _ (po_map _ P)). unfold page_cnt in Hi.
    rewrite Hno, u32_small by lia.
    destruct (bitmap_all_spec (used_map (chosen user)) i 1) as (r & -> & Hr2);
      [apply P|lia..|]. f_equal. destruct r; [|done]. exfalso.
    rewrite (page_used_chosen user), Ea, pool_used_index in Hu by done.
    rewrite (proj1 Hr2 eq_refl i) in Hu by lia. done. }
  destruct (page_from_pool (kernel_pool st) a) eqn:F1.
  - cbn [obind]. specialize (Hall false F1). unfold chosen in Hall. rewrite Hall. done.
  - destruct (page_from_pool (user_pool st) a) eqn:F2; [|done].
    cbn [obind]. specialize (Hall true F2). unfold chosen in Hall. rewrite Hall. done.
Qed.
End State.

(** ** The pools' geometry never changes *)

Definition geometry (st : palloc_state) : Z * Z * Z * Z :=
  (base (kernel_pool st), page_cnt (kernel_pool st),
   base (user_pool st), page_cnt (user_pool st)).

(** The pages [a ... a + 4096 n - 1] do not run past the end of the pool of [a]. *)
Definition within_pool (st : palloc_state) (a n : Z) : Prop :=
  forall user, page_from_pool (chosen st user) a = true ->
    a + 4096 * n <= pool_end (chosen st user).

Lemma within_pool_geometry st st' a n :
  geometry st' = geometry st -> within_pool st a n -> within_pool st' a n.
Proof.
  unfold geometry. intros [= E1 E2 E3 E4] H user F.
  specialize (H user). unfold chosen, page_from_pool, pool_end, bitmap_size, page_cnt in *.
  destruct user.
  - rewrite E3, E4 in *. auto.
  - rewrite E1, E2 in *. auto.
Qed.

Lemma foreign_geometry st st' a : geometry st' = geometry st ->
  page_from_pool (kernel_pool st) a = false -> page_from_pool (kernel_pool st') a = false.
Proof.
  unfold geometry, page_from_pool, bitmap_size, page_cnt. intros [= E1 E2 _ _]. by rewrite E1, E2.
Qed.

Lemma bitmap_set_bit_cnt b i v b' : bitmap_set b i v = Ret b' -> bit_cnt b' = bit_cnt b.
Proof.
  unfold bitmap_set, bitmap_mark, bitmap_reset. intros H. apply assert_Ret in H as [_ H].
  destruct v; inv_ret; done.
Qed.

Lemma set_multiple_loop_bit_cnt n b start i v b' :
  set_multiple_loop n b start i v = Ret b' -> bit_cnt b' = bit_cnt b.
Proof.
  revert b i. induction n as [|n IH]; intros b i H; simpl in H; [by injection H as ->|].
  apply obind_Ret in H as (b1 & H1 & H). apply bitmap_set_bit_cnt in H1. rewrite <- H1.
  by eapply IH.
Qed.

Lemma palloc_get_geometry st flags cnt st' a :
  palloc_get_multiple st flags cnt = Ret (st', a) -> geometry st' = geometry st.
Proof.
  unfold palloc_get_multiple, bitmap_scan_and_flip, bitmap_set_multiple. intros H.
  destruct (cnt =? 0); [by injection H as <- <-|].
  apply obind_Ret in H as ([idx b'] & E & H).
  assert (bit_cnt b' = bit_cnt (used_map (select_pool st flags))) as C.
  { apply obind_Ret in E as (r & _ & E). destruct (r =? BITMAP_ERROR); [by inv_ret|].
    inv_ret. by eapply set_multiple_loop_bit_cnt. }
  assert (geometry (update_pool st (has_flag flags PAL_USER)
    (mk_pool b' (base (select_pool st flags)))) = geometry st) as G.
  { unfold update_pool, select_pool, geometry, page_cnt in *.
    destruct (has_flag flags PAL_USER); simpl; by rewrite C. }
  cbv beta iota zeta in H.
  destruct (negb (_ =? NULL)).
  - injection H as <- <-. by destruct (has_flag flags PAL_ZERO).
  - destruct (has_flag flags PAL_ASSERT); [done|]. by injection H as <- <-.
Qed.

Lemma palloc_free_geometry st a cnt st' :
  palloc_free_multiple st a cnt = Ret st' -> geometry st' = geometry st.
Proof.
  unfold palloc_free_multiple, bitmap_set_multiple. intros H. apply assert_Ret in H as [_ H].
  destruct ((a =? NULL) || (cnt =? 0)); [by injection H as <-|].
  apply obind_Ret in H as (user & _ & H). apply obind_Ret in H as (r & _ & H).
  apply assert_Ret in H as [_ H]. apply obind_Ret in H as (b' & E & H).
  apply assert_Ret in E as [_ E]. apply assert_Ret in E as [_ E].
  apply set_multiple_loop_bit_cnt in E. injection H as <-.
  unfold geometry, page_cnt, update_pool. destruct user; simpl; by rewrite E.
Qed.

(** * The interface to clients

    What [malloc] and the other clients rely on: a run of pages they get was free, lies in the
    kernel's address range and stays theirs until they free it. *)
Class page_allocator (S : Type) := {
  pa_get : S -> Z -> outcome (S * Z);
  pa_free : S -> Z -> Z -> outcome S;
  pa_mem : S -> memory;
  pa_set_mem : S -> memory -> S;
  pa_inv : S -> Prop;
  pa_used : S -> Z -> bool;
  pa_run : S -> Z -> Z -> Prop;
  (** An address that is not a page the allocator manages. *)
  pa_foreign : S -> Z -> Prop;

  pa_set_mem_inv s m : pa_inv s -> pa_inv (pa_set_mem s m);
  pa_set_mem_used s m q : pa_used (pa_set_mem s m) q = pa_used s q;
  pa_set_mem_run s m a n : pa_run s a n -> pa_run (pa_set_mem s m) a n;
  pa_mem_set_mem s m : pa_mem (pa_set_mem s m) = m;

  pa_get_zero s : pa_get s 0 = Ret (s, NULL);
  pa_get_law s n : pa_inv s -> 0 < n < 2 ^ 20 ->
    pa_get s n = Ret (s, NULL) \/
    exists s' a, pa_get s n = Ret (s', a) /\ pa_inv s' /\ pa_mem s' = pa_mem s /\
      (PHYS_BASE < a /\ a + 4096 * n <= 2 ^ 32 /\ a mod 4096 = 0) /\
      (forall q, q mod 4096 = 0 -> a <= q < a + 4096 * n -> pa_used s q = false) /\
      (forall q, q mod 4096 = 0 ->
         pa_used s' q = if in_range q a (4096 * n) then true else pa_used s q) /\
      pa_run s' a n /\ (forall b k, pa_run s b k -> pa_run s' b k) /\
      ~ pa_foreign s a /\ (forall b, pa_foreign s b -> pa_foreign s' b);

  pa_free_law s a n : pa_inv s -> 0 < n -> a mod 4096 = 0 -> pa_run s a n ->
    (forall q, q mod 4096 = 0 -> a <= q < a + 4096 * n -> pa_used s q = true) ->
    exists s', pa_free s a n = Ret s' /\ pa_inv s' /\
      pa_mem s' = memset (pa_mem s) a 0xcc (4096 * n) /\
      (forall q, q mod 4096 = 0 ->
         pa_used s' q = if in_range q a (4096 * n) then false else pa_used s q) /\
      (forall b k, pa_run s b k -> pa_run s' b k) /\
      (forall b, pa_foreign s b -> pa_foreign s' b)
}.

(** Kernel pages, as [malloc] asks for them (flags 0). *)
#[export] Program Instance palloc_page_allocator : page_allocator palloc_state := {|
  pa_get st n := palloc_get_multiple st 0 n;
  pa_free := palloc_free_multiple;
  pa_mem := mem;
  pa_set_mem := update_mem;
  pa_inv := palloc_ok;
  pa_used := page_used;
  pa_run := within_pool;
  pa_foreign st a := page_from_pool (kernel_pool st) a = false
|}.
Next Obligation. intros s m [? ? ?]. by split. Qed.
Next Obligation. done. Qed.
Next Obligation. intros s m a n H. by apply (within_pool_geometry s). Qed.
Next Obligation. done. Qed.
Next Obligation. done. Qed.
Next Obligation.
  intros s n OK Hn.
  destruct (palloc_get_multiple_spec s OK 0 n Hn)
    as [(s' & a & E & [K Ad F U] & H1 & H2 & M)|[_ E]].
  - right. destruct Ad as (A1 & A2 & A3). exists s', a. pose proof (palloc_get_geometry _ _ _ _ _ E) as G.
    split_and!; try done.
    + apply (within_pool_geometry s); [done|]. intros user Fu.
      change (has_flag 0 PAL_USER) with false in *. destruct user; [|done].
      apply page_from_pool_iff in Fu; [|by apply chosen_ok|done].
      pose proof (pa_disjoint s OK). unfold chosen in *. lia.
    + intros b k. by apply within_pool_geometry.
    + change (has_flag 0 PAL_USER) with false in *. unfold chosen in *.
      rewrite (proj2 (page_from_pool_iff (kernel_pool s) (pa_kernel s OK) a A3)) by lia. done.
    + intros b. by apply foreign_geometry.
  - left. exact E.
Qed.
Next Obligation.
  intros s a n OK Hn Ha Hr Hu.
  destruct (palloc_free_multiple_spec s OK a n Hn Ha Hu Hr) as (s' & E & K & M & U).
  exists s'. pose proof (palloc_free_geometry _ _ _ _ E) as Gm. split_and!; try done.
  - intros b k. by apply within_pool_geometry.
  - intros b. by apply foreign_geometry.
Qed.

(** ** Initialisation *)

Lemma byte_cnt_words n : 0 <= n <= 2 ^ 20 -> elem_cnt n = (n + 31) / 32 /\
  bitmap_buf_size n = 8 + 4 * ((n + 31) / 32) /\ 0 <= (n + 31) / 32 <= 2 ^ 15.
Proof.
  intros Hn. assert (0 <= (n + 31) / 32 <= 2 ^ 15) as Hd.
  { split; [apply Z.div_pos; lia|].
    apply (Z.le_trans _ ((2 ^ 20 + 31) / 32)); [apply Z.div_le_mono; lia|].
    vm_compute. discriminate. }
  assert (elem_cnt n = (n + 31) / 32) as E.
  { unfold elem_cnt, DIV_ROUND_UP, ELEM_BITS. rewrite u32_small by lia.
    f_equal. lia. }
  unfold bitmap_buf_size, byte_cnt. rewrite E, (u32_small (4 * _)), u32_small by lia. done.
Qed.

Lemma mem_words_u32 m a n : Forall (fun w => in_u32 w) (mem_words m a n).
Proof.
  unfold mem_words. apply Forall_fmap, Forall_true. intros i. apply u32_range.
Qed.

(** The pages the pool's own bitmap occupies. *)
Definition bm_pages (n : Z) : Z := (8 + 4 * ((n + 31) / 32) + 4095) / 4096.

Lemma bm_pages_bound n : 1 <= n -> 1 <= bm_pages n <= n.
Proof.
  intros Hn. unfold bm_pages. pose proof (Z.div_mod (n + 31) 32 ltac:(lia)).
  pose proof (Z.mod_pos_bound (n + 31) 32 ltac:(lia)).
  set (w := (n + 31) / 32) in *.
  pose proof (Z.div_mod (8 + 4 * w + 4095) 4096 ltac:(lia)).
  pose proof (Z.mod_pos_bound (8 + 4 * w + 4095) 4096 ltac:(lia)). lia.
Qed.

Lemma init_pool_spec m b n : 1 <= n <= 2 ^ 18 -> PHYS_BASE <= b -> b mod 4096 = 0 ->
  b + 4096 * n < 2 ^ 32 ->
  exists p, init_pool m b n = Ret p /\ pool_ok p /\ page_cnt p = n - bm_pages n /\
    base p = b + 4096 * bm_pages n /\ forall j, 0 <= j < page_cnt p -> bget (used_map p) j = false.
Proof.
  intros Hn Hb Ha He. destruct (byte_cnt_words n) as (E1 & E2 & E3); [lia|].
  pose proof (bm_pages_bound n ltac:(lia)) as B. unfold PHYS_BASE in Hb.
  assert (DIV_ROUND_UP (bitmap_buf_size n) PGSIZE = bm_pages n) as Ed.
  { unfold DIV_ROUND_UP. rewrite E2, PGSIZE_val, u32_small by lia. unfold bm_pages.
    f_equal. lia. }
  unfold init_pool. rewrite Ed, (proj2 (Z.ltb_ge _ _)) by lia.
  set (c := n - bm_pages n) in *. destruct (byte_cnt_words c) as (F1 & F2 & F3); [lia|].
  rewrite PGSIZE_val, (u32_small (_ * 4096)), (u32_small (b + _)) by lia.
  unfold bitmap_create_in_buf. rewrite F2.
  assert ((c + 31) / 32 <= (n + 31) / 32) by (apply Z.div_le_mono; lia).
  assert (8 + 4 * ((c + 31) / 32) <= bm_pages n * 4096).
  { unfold bm_pages. pose proof (Z.div_mod (8 + 4 * ((n + 31) / 32) + 4095) 4096 ltac:(lia)).
    pose proof (Z.mod_pos_bound (8 + 4 * ((n + 31) / 32) + 4095) 4096 ltac:(lia)). lia. }
  rewrite (proj2 (Z.leb_le _ _)) by lia. rewrite F1.
  destruct (bitmap_set_all_spec
    (mk_bitmap c (mem_words m (b + 8) (Z.to_nat ((c + 31) / 32)))) false)
    as (b' & -> & W & C & G).
  { split; cbn [bit_cnt bits]; [lia| |apply mem_words_u32].
    unfold mem_words. rewrite length_map, length_seq. lia. }
  cbn [obind]. cbn [bit_cnt] in C, G. eexists. split; [reflexivity|].
  unfold page_cnt, pool_end. cbn [used_map base]. split_and!; [|done|lia|].
  - split; unfold pool_end, page_cnt, PHYS_BASE; cbn [used_map base];
      [done| |lia|lia].
    rewrite Z.mod_add by lia. done.
  - rewrite C. exact G.
Qed.

(** * Properties *)

(** C17.  [palloc_get_multiple] on a well-formed state: it hands out a run of pages that were
    all free, lies inside the chosen pool and becomes used, nothing else changing; or the pool
    has no such run and it returns null, or panics when [PAL_ASSERT] is set. *)
Theorem palloc_get_multiple_correct (st : palloc_state) (flags cnt : Z)
    (OK : palloc_ok st) (Hcnt : 0 < cnt < 2 ^ 20) :
  (exists st' a, palloc_get_multiple st flags cnt = Ret (st', a) /\ palloc_ok st' /\
     a mod 4096 = 0 /\ base (select_pool st flags) <= a /\
     a + 4096 * cnt <= pool_end (select_pool st flags) /\
     (forall q, q mod 4096 = 0 -> a <= q < a + 4096 * cnt -> page_used st q = false) /\
     (forall q, q mod 4096 = 0 -> page_used st' q =
        if in_range q a (4096 * cnt) then true else page_used st q) /\
     mem st' = if has_flag flags PAL_ZERO then memset (mem st) a 0 (4096 * cnt) else mem st) \/
  (no_fit (used_map (select_pool st flags)) false 0 cnt /\
   palloc_get_multiple st flags cnt =
     if has_flag flags PAL_ASSERT then Panic else Ret (st, NULL)).
Proof.
  destruct (palloc_get_multiple_spec st OK flags cnt Hcnt)
    as [(s' & a & E & [K (A1 & A2 & A3) F U] & H1 & H2 & M)|[N E]].
  - left. exists s', a. split_and!; done.
  - right. split; done.
Qed.

(**  Freeing an allocated run inside one pool releases exactly its pages and overwrites
    them with 0xcc; freeing a page that is not allocated, a second free in particular, fails
    an assertion. *)
Theorem palloc_free_correct (st : palloc_state) (a cnt : Z) (OK : palloc_ok st)
    (Hcnt : 0 < cnt) (Ha : a mod 4096 = 0) (Hrun : within_pool st a cnt)
    (Hused : forall q, q mod 4096 = 0 -> a <= q < a + 4096 * cnt -> page_used st q = true) :
  exists st', palloc_free_multiple st a cnt = Ret st' /\ palloc_ok st' /\
    mem st' = memset (mem st) a 0xcc (4096 * cnt) /\
    (forall q, q mod 4096 = 0 -> page_used st' q =
       if in_range q a (4096 * cnt) then false else page_used st q) /\
    (forall q, in_u32 q -> q mod 4096 = 0 -> a <= q < a + 4096 * cnt -> q <> NULL ->
       palloc_free_page st' q = Panic).
Proof.
  destruct (palloc_free_multiple_spec st OK a cnt Hcnt Ha Hused Hrun) as (s' & E & K & M & U).
  exists s'. split_and!; try done. intros q Hq Hm Hr Hn.
  apply palloc_free_unused; try done. rewrite U by done. unfold in_range.
  by replace ((a <=? q) && (q <? a + 4096 * cnt)) with true by lia.
Qed.

(**  [palloc_init] splits the RAM above 1 MB into two disjoint pools with every page
    free, each short of the pages its own bitmap occupies. *)
Theorem palloc_init_correct (m : memory) (ram limit : Z)
    (Hram : 258 <= ram < 2 ^ 18) (Hlimit : 1 <= limit) :
  let free := ram - 256 in
  let user := Z.min limit (free / 2) in
  exists st, palloc_init m ram limit = Ret st /\ palloc_ok st /\ mem st = m /\
    page_cnt (kernel_pool st) = free - user - bm_pages (free - user) /\
    page_cnt (user_pool st) = user - bm_pages user /\
    forall q, q mod 4096 = 0 -> page_used st q = false.
Proof.
  intros free user. unfold palloc_init, ptov, PHYS_BASE.
  rewrite PGSIZE_val, (u32_small (ram * 4096)) by lia.
  change (1024 * 1024 <? 0xc0000000) with true. cbn [obind].
  rewrite (proj2 (Z.ltb_lt _ _)) by lia. cbn [obind].
  change (u32 (1024 * 1024 + 0xc0000000)) with 0xc0100000.
  rewrite (u32_small (ram * 4096 + _)) by lia.
  replace ((ram * 4096 + 0xc0000000 - 0xc0100000) / 4096) with free.
  2:{ unfold free. replace (ram * 4096 + 0xc0000000 - 0xc0100000) with ((ram - 256) * 4096) by lia.
      by rewrite Z.div_mul. }
  assert (1 <= free / 2 /\ 2 * (free / 2) <= free) as [Hf1 Hf2].
  { pose proof (Z.div_mod free 2 ltac:(lia)). pose proof (Z.mod_pos_bound free 2 ltac:(lia)).
    unfold free in *. lia. }
  assert ((if limit <? free / 2 then limit else free / 2) = user) as ->.
  { unfold user. destruct (limit <? free / 2) eqn:E; lia. }
  assert (1 <= user <= free / 2) as Hu by (unfold user; lia).
  destruct (init_pool_spec m 0xc0100000 (free - user)) as (k & -> & K & KC & KB & KF);
    [unfold free in *; lia|done|done|unfold free in *; lia|].
  cbn [obind]. rewrite u32_small by (unfold free in *; lia).
  destruct (init_pool_spec m (0xc0100000 + (free - user) * 4096) user)
    as (u & -> & U & UC & UB & UF);
    [unfold free in *; lia|unfold PHYS_BASE; lia|rewrite Z.mod_add by lia; done|unfold free in *; lia|].
  cbn [obind]. eexists. split; [reflexivity|]. cbn [kernel_pool user_pool mem].
  pose proof (bm_pages_bound user ltac:(lia)).
  split_and!; try done.
  - split; simpl; try done. unfold pool_end. lia.
  - assert (forall p, pool_ok p -> (forall j, 0 <= j < page_cnt p -> bget (used_map p) j = false) ->
      forall q, q mod 4096 = 0 -> pool_used p q = false) as Hz.
    { intros p P F q Hq. unfold pool_used. destruct (page_from_pool p q) eqn:G; [|done].
      destruct (page_has_index p P q Hq G) as (i & Hi & ->).
      destruct (page_index p P i Hi) as (_ & _ & -> & _). by rewrite F. }
    intros q Hq. unfold page_used. cbn [kernel_pool user_pool]. by rewrite !Hz.
Qed.

(** ** Witnesses: two pools of eight pages. *)

Definition ex_pool (b w : Z) : pool := mk_pool (mk_bitmap 8 [w]) b.
Definition ex_palloc : palloc_state :=
  mk_palloc (ex_pool 0xc0101000 0x13) (ex_pool 0xc0201000 0x1) (fun _ => 0).

Lemma ex_pool_ok b w : in_u32 w -> b mod 4096 = 0 -> PHYS_BASE < b -> b + 32768 <= 2 ^ 32 ->
  pool_ok (ex_pool b w).
Proof.
  intros Hw Hm Hl Hh. split; unfold pool_end, page_cnt; simpl; try done.
  split; simpl; [lia|done|]. constructor; [done|constructor].
Qed.

Lemma ex_palloc_ok : palloc_ok ex_palloc.
Proof. split; [apply ex_pool_ok; (done || lia)..|done]. Qed.

Lemma palloc_get_multiple_correct_witness :
  exists st' a, palloc_get_multiple ex_palloc 0 2 = Ret (st', a) /\ page_used st' a = true.
Proof.
  destruct (palloc_get_multiple_correct ex_palloc 0 2 ex_palloc_ok ltac:(lia))
    as [(s' & a & E & _ & Hm & _ & _ & _ & U & _)|[_ E]].
  - exists s', a. split; [exact E|]. rewrite U by exact Hm. unfold in_range.
    replace ((a <=? a) && (a <? a + 4096 * 2)) with true by lia. reflexivity.
  - vm_compute in E. discriminate E.
Defined.

Lemma palloc_free_correct_witness :
  exists st', palloc_free_multiple ex_palloc 0xc0101000 2 = Ret st' /\
    palloc_free_page st' 0xc0102000 = Panic.
Proof.
  destruct (palloc_free_correct ex_palloc 0xc0101000 2 ex_palloc_ok ltac:(lia) eq_refl)
    as (s' & E & _ & _ & _ & D).
  - intros [|] F; vm_compute in F |- *; discriminate.
  - intros q Hq Hr. assert (q = 0xc0101000 \/ q = 0xc0102000) as [-> | ->]; [|reflexivity..].
    pose proof (Z.div_mod q 4096 ltac:(lia)). lia.
  - exists s'. split; [exact E|]. apply D; (lia || reflexivity || discriminate).
Defined.

Lemma palloc_init_correct_witness :
  exists st, palloc_init (fun _ => 0xab) 1024 100000 = Ret st /\
    page_cnt (kernel_pool st) = 383 /\ page_cnt (user_pool st) = 383.
Proof.
  destruct (palloc_init_correct (fun _ => 0xab) 1024 100000 ltac:(lia) ltac:(lia))
    as (s & E & _ & _ & K & U & _).
  exists s. split; [exact E|]. split; [rewrite K|rewrite U]; vm_compute; reflexivity.
Defined.
