(* ===== verification/Pagedir.v ===== *)
(** Page directories (userprog/pagedir.c) and the kernel's own page tables (paging_init of
    threads/init.c): the two-level tables the CPU walks, kept in pages of the page allocator, and the
    cached translations that a reload of CR3 discards. *)
From S2P Require Import Prelude Bitmap Vaddr Palloc.

(** * Definitions *)

(** Memory and the CPU's paging registers.  [tlb] maps a virtual page number to the page-table
    entry the CPU has cached for it.  The kernel reaches physical memory through the 1:1 mapping of
    [init_ram_pages] pages at [PHYS_BASE]. *)
Record vm := mk_vm {
  pages : palloc_state;
  cr3 : Z;
  tlb : gmap Z Z;
  init_page_dir : Z;
  init_ram_pages : Z
}.
Abbreviation VM := (ST vm).

Definition set_pages (s : vm) (p : palloc_state) : vm :=
  mk_vm p (cr3 s) (tlb s) (init_page_dir s) (init_ram_pages s).

(** Stores a 32-bit word at address [a], low byte first. *)
Definition set_word (m : memory) (a w : Z) : memory :=
  fun b => if (a <=? b) && (b <? a + 4) then u8 (Z.shiftr w (8 * (b - a))) else m b.

(** Dereferencing an address outside the kernel's mapping, a null pointer in particular, faults. *)
Definition in_ram (s : vm) (a : Z) : bool :=
  (PHYS_BASE <=? a) && (a + 4 <=? PHYS_BASE + PGSIZE * init_ram_pages s).
Definition load_word (a : Z) : VM Z :=
  fun s => if in_ram s a then Ret (mem_word (mem (pages s)) a, s) else UB.
Definition store_word (a w : Z) : VM unit :=
  fun s => if in_ram s a
           then Ret (tt, set_pages s (update_mem (pages s) (set_word (mem (pages s)) a w)))
           else UB.

Definition get_page (flags : Z) : VM Z :=
  fun s => let? (p, page) := palloc_get_page (pages s) flags in Ret (page, set_pages s p).
Definition free_page (page : Z) : VM unit :=
  fun s => let? p := palloc_free_page (pages s) page in Ret (tt, set_pages s p).

(** [MOV] to CR3 also empties the TLB. *)
Definition movl_cr3 (paddr : Z) : VM unit :=
  modify (fun s => mk_vm (pages s) paddr ∅ (init_page_dir s) (init_ram_pages s)).

Definition active_pd : VM Z :=
  let! pd := gets cr3 in lift (ptov pd).

Definition pagedir_activate (pd : Z) : VM unit :=
  let! ipd := gets init_page_dir in
  let pd := if pd =? NULL then ipd else pd in
  let! p := lift (vtop pd) in movl_cr3 p.

Definition invalidate_pagedir (pd : Z) : VM unit :=
  let! active := active_pd in
  if active =? pd then pagedir_activate pd else ret tt.

Definition pagedir_create : VM Z :=
  let! pd := get_page 0 in
  if negb (pd =? NULL) then
    let! _ := modify (fun s => set_pages s (update_mem (pages s)
                (memcpy_block (mem (pages s)) pd (init_page_dir s) PGSIZE))) in
    ret pd
  else ret pd.

(** The inner and outer loops of [pagedir_destroy], over [n] entries from address [pte] ([pde]) on. *)
Fixpoint destroy_ptes (n : nat) (pte : Z) : VM unit :=
  match n with
  | O => ret tt
  | S n =>
      let! e := load_word pte in
      let! _ := (if negb (Z.land e PTE_P =? 0) then
                   let! page := lift (pte_get_page e) in free_page page
                 else ret tt) in
      destroy_ptes n (pte + 4)
  end.

Fixpoint destroy_pdes (n : nat) (pde : Z) : VM unit :=
  match n with
  | O => ret tt
  | S n =>
      let! e := load_word pde in
      let! _ := (if negb (Z.land e PTE_P =? 0) then
                   let! pt := lift (pde_get_pt e) in
                   let! _ := destroy_ptes (Z.to_nat (PGSIZE / 4)) pt in
                   free_page pt
                 else ret tt) in
      destroy_pdes n (pde + 4)
  end.

Definition pagedir_destroy (pd : Z) : VM unit :=
  if pd =? NULL then ret tt
  else
    let! ipd := gets init_page_dir in
    assert! negb (pd =? ipd) in
    let! _ := destroy_pdes (Z.to_nat (pd_no PHYS_BASE)) pd in
    free_page pd.

(** Returns the address of the page-table entry, or a null pointer. *)
Definition lookup_page (pd vaddr : Z) (create : bool) : VM Z :=
  assert! negb (pd =? NULL) in
  assert! negb create || is_user_vaddr vaddr in
  let pde := pd + 4 * pd_no vaddr in
  let! e := load_word pde in
  let! found := (if e =? 0 then
                   if create then
                     let! pt := get_page PAL_ZERO in
                     if pt =? NULL then ret false
                     else
                       let! w := lift (pde_create pt) in
                       let! _ := store_word pde w in ret true
                   else ret false
                 else ret true) in
  if found then
    let! e := load_word pde in
    let! pt := lift (pde_get_pt e) in
    ret (pt + 4 * pt_no vaddr)
  else ret NULL.

Definition pagedir_set_page (pd upage kpage : Z) (writable : bool) : VM bool :=
  assert! pg_ofs upage =? 0 in
  assert! pg_ofs kpage =? 0 in
  assert! is_user_vaddr upage in
  let! p := lift (vtop kpage) in
  let! ram := gets init_ram_pages in
  assert! Z.shiftr p PTSHIFT <? ram in
  let! ipd := gets init_page_dir in
  assert! negb (pd =? ipd) in
  let! pte := lookup_page pd upage true in
  if negb (pte =? NULL) then
    let! e := load_word pte in
    assert! Z.land e PTE_P =? 0 in
    let! w := lift (pte_create_user kpage writable) in
    let! _ := store_word pte w in
    ret true
  else ret false.

Definition pagedir_get_page (pd uaddr : Z) : VM Z :=
  assert! is_user_vaddr uaddr in
  let! pte := lookup_page pd uaddr false in
  if negb (pte =? NULL) then
    let! e := load_word pte in
    if negb (Z.land e PTE_P =? 0) then
      let! page := lift (pte_get_page e) in ret (page + pg_ofs uaddr)
    else ret NULL
  else ret NULL.

Definition pagedir_clear_page (pd upage : Z) : VM unit :=
  assert! pg_ofs upage =? 0 in
  assert! is_user_vaddr upage in
  let! pte := lookup_page pd upage false in
  if negb (pte =? NULL) then
    let! e := load_word pte in
    if negb (Z.land e PTE_P =? 0) then
      let! _ := store_word pte (Z.land e (u32 (Z.lnot PTE_P))) in
      invalidate_pagedir pd
    else ret tt
  else ret tt.

(** [pagedir_is_dirty] and [pagedir_is_accessed], and [pagedir_set_dirty] and
    [pagedir_set_accessed], are the same code for two different bits. *)
Definition test_bit (bit pd vpage : Z) : VM bool :=
  let! pte := lookup_page pd vpage false in
  if negb (pte =? NULL) then
    let! e := load_word pte in ret (negb (Z.land e bit =? 0))
  else ret false.
Definition set_bit (bit pd vpage : Z) (b : bool) : VM unit :=
  let! pte := lookup_page pd vpage false in
  if negb (pte =? NULL) then
    let! e := load_word pte in
    if b then store_word pte (Z.lor e bit)
    else
      let! _ := store_word pte (Z.land e (u32 (Z.lnot bit))) in
      invalidate_pagedir pd
  else ret tt.
Definition pagedir_is_dirty : Z -> Z -> VM bool := test_bit PTE_D.
Definition pagedir_set_dirty : Z -> Z -> bool -> VM unit := set_bit PTE_D.
Definition pagedir_is_accessed : Z -> Z -> VM bool := test_bit PTE_A.
Definition pagedir_set_accessed : Z -> Z -> bool -> VM unit := set_bit PTE_A.

(** [paging_init]: [_start] and [_end_kernel_text] are addresses the linker provides. *)
Section PagingInit.
Context (_start _end_kernel_text : Z).

(** The loop, with [n] pages left from [page] on. *)
Fixpoint paging_loop (n : nat) (page pd pt : Z) : VM unit :=
  match n with
  | O => ret tt
  | S n =>
      let! vaddr := lift (ptov (u32 (page * PGSIZE))) in
      let pde_idx := pd_no vaddr in
      let pte_idx := pt_no vaddr in
      let in_kernel_text := (_start <=? vaddr) && (vaddr <? _end_kernel_text) in
      let! e := load_word (pd + 4 * pde_idx) in
      let! pt := (if e =? 0 then
                    let! pt := get_page (Z.lor PAL_ASSERT PAL_ZERO) in
                    let! w := lift (pde_create pt) in
                    let! _ := store_word (pd + 4 * pde_idx) w in
                    ret pt
                  else ret pt) in
      let! w := lift (pte_create_kernel vaddr (negb in_kernel_text)) in
      let! _ := store_word (pt + 4 * pte_idx) w in
      paging_loop n (page + 1) pd pt
  end.

Definition paging_init : VM unit :=
  let! pd := get_page (Z.lor PAL_ASSERT PAL_ZERO) in
  let! _ := modify (fun s => mk_vm (pages s) (cr3 s) (tlb s) pd (init_ram_pages s)) in
  let! ram := gets init_ram_pages in
  let! _ := paging_loop (Z.to_nat ram) 0 pd NULL in
  let! ipd := gets init_page_dir in
  let! p := lift (vtop ipd) in
  movl_cr3 p.
End PagingInit.
