(* ===== verification/PagedirFacts.v ===== *)
(** Page directories as partial maps from user pages to frames: the pages a directory owns, the
    effect of every routine of Pagedir on its mappings, and the isolation of address spaces. *)
From S2P Require Import Prelude Bitmap Vaddr Palloc Pagedir.

(** * Words in memory *)

Lemma mem_word_ext (m m' : memory) a :
  (forall i, 0 <= i < 4 -> m' (a + i) = m (a + i)) -> mem_word m' a = mem_word m a.
Proof.
  intros H. unfold mem_word. rewrite <- (Z.add_0_r a) at 1 5. by rewrite !H by lia.
Qed.

Lemma mem_word_range m a : in_u32 (mem_word m a).
Proof. apply u32_range. Qed.

Lemma mem_word_set_same m a w : mem_word (set_word m a w) a = u32 w.
Proof.
  unfold mem_word, set_word. rewrite !(proj2 (Z.leb_le a _)) by lia.
  rewrite !(proj2 (Z.ltb_lt _ (a + 4))) by lia. cbn [andb].
  replace (a - a) with 0 by lia. replace (a + 1 - a) with 1 by lia.
  replace (a + 2 - a) with 2 by lia. replace (a + 3 - a) with 3 by lia.
  rewrite !Z.shiftr_div_pow2 by lia. unfold u8, u32.
  change (8 * 0) with 0. change (8 * 1) with 8. change (8 * 2) with 16. change (8 * 3) with 24.
  Z.to_euclidean_division_equations. lia.
Qed.

Lemma mem_word_set_other m a b w : b + 4 <= a \/ a + 4 <= b ->
  mem_word (set_word m a w) b = mem_word m b.
Proof.
  intros H. apply mem_word_ext. intros i Hi. unfold set_word.
  by replace ((a <=? b + i) && (b + i <? a + 4)) with false by lia.
Qed.

Lemma mem_word_memset_zero m d n a : d <= a -> a + 4 <= d + n ->
  mem_word (memset m d 0 n) a = 0.
Proof.
  intros H1 H2. unfold mem_word, memset. change (u8 0) with 0.
  replace ((d <=? a) && (a <? d + n)) with true by lia.
  replace ((d <=? a + 1) && (a + 1 <? d + n)) with true by lia.
  replace ((d <=? a + 2) && (a + 2 <? d + n)) with true by lia.
  by replace ((d <=? a + 3) && (a + 3 <? d + n)) with true by lia.
Qed.

(** The page at [q] has the same contents in both memories. *)
Definition same_page (m m' : memory) (q : Z) : Prop := forall a, q <= a < q + 4096 -> m' a = m a.

Lemma same_page_word m m' q i : same_page m m' q -> 0 <= i < 1024 ->
  mem_word m' (q + 4 * i) = mem_word m (q + 4 * i).
Proof. intros H Hi. apply mem_word_ext. intros j Hj. apply H. lia. Qed.

Lemma same_page_refl m q : same_page m m q.
Proof. done. Qed.

Lemma same_page_trans m1 m2 m3 q : same_page m1 m2 q -> same_page m2 m3 q -> same_page m1 m3 q.
Proof. intros H1 H2 a Ha. by rewrite H2, H1. Qed.

Lemma page_disjoint p q : p mod 4096 = 0 -> q mod 4096 = 0 -> p <> q ->
  p + 4096 <= q \/ q + 4096 <= p.
Proof. intros. Z.to_euclidean_division_equations. lia. Qed.

Lemma same_page_set_word m p i w q : p mod 4096 = 0 -> q mod 4096 = 0 -> p <> q ->
  0 <= i < 1024 -> same_page m (set_word m (p + 4 * i) w) q.
Proof.
  intros Hp Hq N Hi a Ha. unfold set_word. destruct (page_disjoint p q Hp Hq N);
  by replace ((p + 4 * i <=? a) && (a <? p + 4 * i + 4)) with false by lia.
Qed.

Lemma same_page_memset m p v q : p mod 4096 = 0 -> q mod 4096 = 0 -> p <> q ->
  same_page m (memset m p v 4096) q.
Proof.
  intros Hp Hq N a Ha. unfold memset. destruct (page_disjoint p q Hp Hq N);
  by replace ((p <=? a) && (a <? p + 4096)) with false by lia.
Qed.

Lemma same_page_memcpy m p src q : p mod 4096 = 0 -> q mod 4096 = 0 -> p <> q ->
  same_page m (memcpy_block m p src 4096) q.
Proof.
  intros Hp Hq N a Ha. unfold memcpy_block. destruct (page_disjoint p q Hp Hq N);
  by replace ((p <=? a) && (a <? p + 4096)) with false by lia.
Qed.

(** * Directories as maps *)

(** The page an entry refers to, by its kernel address. *)
Definition entry_page (e : Z) : Z := PHYS_BASE + Z.land e PTE_ADDR.

Definition pde (s : vm) (pd k : Z) : Z := mem_word (mem (pages s)) (pd + 4 * k).
Definition table (s : vm) (pd k : Z) : option Z :=
  if pde s pd k =? 0 then None else Some (entry_page (pde s pd k)).
Definition pte_at (s : vm) (pt i : Z) : Z := mem_word (mem (pages s)) (pt + 4 * i).
Definition pte (s : vm) (pd va : Z) : option Z :=
  pt ← table s pd (pd_no va); Some (pte_at s pt (pt_no va)).
(** The frame and the writability of the page that holds [va]. *)
Definition mapping (s : vm) (pd va : Z) : option (Z * bool) :=
  e ← pte s pd va;
  if Z.land e PTE_P =? 0 then None else Some (entry_page e, Z.testbit e 1).

(** The pages a directory owns, in the order in which [pagedir_destroy] visits them: for each table
    of its user half the mapped frames and then the table, and the directory itself last. *)
Definition frame_at (s : vm) (pt i : Z) : list Z :=
  let e := pte_at s pt i in if Z.land e PTE_P =? 0 then [] else [entry_page e].
Definition table_pages (s : vm) (pt : Z) : list Z := flat_map (frame_at s pt) (seqZ 0 1024) ++ [pt].
Definition entry_pages (s : vm) (pd k : Z) : list Z :=
  match table s pd k with None => [] | Some pt => table_pages s pt end.
Definition pd_pages (s : vm) (pd : Z) : list Z := flat_map (entry_pages s pd) (seqZ 0 768) ++ [pd].

Definition live_page (s : vm) (q : Z) : Prop := q mod 4096 = 0 /\ page_used (pages s) q = true.

Record vm_ok (s : vm) : Prop := {
  vm_palloc : palloc_ok (pages s);
  vm_ram : pool_end (user_pool (pages s)) <= PHYS_BASE + 4096 * init_ram_pages s <= 2 ^ 32
}.

Record pd_ok (s : vm) (pd : Z) : Prop := {
  pd_entries : forall k pt, 0 <= k < 768 -> table s pd k = Some pt ->
    pde_create pt = Ret (pde s pd k);
  pd_nodup : NoDup (pd_pages s pd);
  pd_live : Forall (live_page s) (pd_pages s pd)
}.

(** ** Indices of user addresses *)

Lemma user_pd_no va : 0 <= va -> is_user_vaddr va = true -> 0 <= pd_no va < 768.
Proof.
  unfold is_user_vaddr, PHYS_BASE. intros H1 H2. rewrite pd_no_div. change (2 ^ 22) with 4194304.
  Z.to_euclidean_division_equations. lia.
Qed.

Lemma pt_no_bound va : 0 <= pt_no va < 1024.
Proof. rewrite pt_no_div. apply Z.mod_pos_bound. lia. Qed.

Lemma same_vpage u v : (pd_no u = pd_no v /\ pt_no u = pt_no v) <-> pg_no u = pg_no v.
Proof.
  rewrite !pd_no_div, !pt_no_div, !pg_no_div. change (2 ^ 22) with (4096 * 1024).
  rewrite <- !Z.div_div by lia. generalize (u / 4096) (v / 4096). intros a b. split.
  - intros [H1 H2]. rewrite (Z.div_mod a 1024), (Z.div_mod b 1024) by lia. congruence.
  - by intros ->.
Qed.

(** ** Entries *)

Lemma entry_bits p f : 0 <= p < 2 ^ 30 -> p mod 4096 = 0 -> 0 <= f < 4096 ->
  Z.land (Z.lor p f) PTE_ADDR = p /\ 0 <= Z.lor p f < 2 ^ 32 /\
  forall i, 0 <= i < 12 -> Z.testbit (Z.lor p f) i = Z.testbit f i.
Proof.
  intros Hp Ha Hf. split; [apply entry_addr; lia|]. split; [apply lor_small; lia|].
  - intros i Hi. rewrite Z.lor_spec. assert (Z.testbit p i = false) as ->; [|done].
    rewrite (Z.div_mod p 4096), Ha, Z.add_0_r, Z.mul_comm by lia.
    change 4096 with (2 ^ 12) at 2. apply Z.mul_pow2_bits_low. lia.
Qed.

Lemma land_bit_zero e i : 0 <= i -> (Z.land e (2 ^ i) =? 0) = negb (Z.testbit e i).
Proof.
  intros Hi. pose proof (has_flag_bit e i Hi) as H. unfold has_flag in H.
  destruct (Z.land e (2 ^ i) =? 0), (Z.testbit e i); done.
Qed.

Lemma present_bit e : (Z.land e PTE_P =? 0) = negb (Z.testbit e 0).
Proof. apply (land_bit_zero e 0). lia. Qed.

Lemma pde_create_spec pt : kernel_page pt -> exists e, pde_create pt = Ret e /\
  entry_page e = pt /\ in_u32 e /\ e <> 0 /\ pde_get_pt e = Ret pt /\ (Z.land e PTE_P =? 0) = false.
Proof.
  intros [Hr Ha]. unfold PHYS_BASE in *.
  unfold pde_create, vtop, is_kernel_vaddr, PHYS_BASE. rewrite pg_ofs_mod, Ha. cbn [Z.eqb].
  rewrite (proj2 (Z.leb_le _ _)) by lia. cbn [obind].
  set (p := pt - 0xc0000000).
  assert (p mod 4096 = 0) as Hp by (unfold p; rewrite Zminus_mod, Ha; done).
  rewrite <- !Z.lor_assoc. set (f := Z.lor PTE_U (Z.lor PTE_P PTE_W)).
  assert (0 <= f < 4096) as Hf by (vm_compute; intuition discriminate).
  destruct (entry_bits p f) as (A & B & T); [lia|done|done|].
  assert (Z.testbit (Z.lor p f) 0 = true) as T0 by (rewrite T by lia; reflexivity).
  assert ((Z.land (Z.lor p f) PTE_P =? 0) = false) as P by (by rewrite present_bit, T0).
  eexists. split; [reflexivity|]. split_and!; try lia.
  - unfold entry_page, PHYS_BASE. rewrite A. unfold p. lia.
  - intros E. rewrite E in T0. discriminate T0.
  - unfold pde_get_pt. rewrite P. cbn [negb]. unfold ptov, PHYS_BASE. rewrite A.
    rewrite (proj2 (Z.ltb_lt _ _)) by lia. rewrite u32_small by lia. f_equal. lia.
Qed.

Lemma pte_create_kernel_spec page w : kernel_page page -> exists e,
  pte_create_kernel page w = Ret e /\ pte_create_user page w = Ret (Z.lor e PTE_U) /\
  forall u : bool, let e := Z.lor e (if u then PTE_U else 0) in
    in_u32 e /\ entry_page e = page /\ Z.testbit e 0 = true /\ Z.testbit e 1 = w.
Proof.
  intros [Hr Ha]. unfold PHYS_BASE in *.
  unfold pte_create_user, pte_create_kernel, vtop, is_kernel_vaddr, PHYS_BASE.
  rewrite pg_ofs_mod, Ha. cbn [Z.eqb]. rewrite (proj2 (Z.leb_le _ _)) by lia. cbn [obind].
  set (p := page - 0xc0000000).
  assert (p mod 4096 = 0) as Hp by (unfold p; rewrite Zminus_mod, Ha; done).
  eexists. split; [reflexivity|]. split; [reflexivity|]. intros u. cbv zeta.
  set (f := Z.lor (Z.lor PTE_P (if w then PTE_W else 0)) (if u then PTE_U else 0)).
  assert (Z.lor (Z.lor (Z.lor p PTE_P) (if w then PTE_W else 0)) (if u then PTE_U else 0)
    = Z.lor p f) as -> by (unfold f; by rewrite <- !Z.lor_assoc).
  assert (0 <= f < 4096) as Hf by (unfold f; destruct w, u; vm_compute; intuition discriminate).
  destruct (entry_bits p f) as (A & B & T); [lia|done|done|].
  split; [lia|]. split; [unfold entry_page, PHYS_BASE; rewrite A; unfold p; lia|].
  rewrite !T by lia. unfold f. by destruct w, u.
Qed.

Lemma pte_create_spec page w : kernel_page page -> exists e, pte_create_user page w = Ret e /\
  in_u32 e /\ entry_page e = page /\ Z.testbit e 0 = true /\ Z.testbit e 1 = w.
Proof.
  intros K. destruct (pte_create_kernel_spec page w K) as (e & _ & E & H).
  eexists. split; [exact E|]. exact (H true).
Qed.

Lemma entry_page_aligned e : in_u32 e -> entry_page e mod 4096 = 0.
Proof.
  intros He. unfold entry_page, PTE_ADDR, PHYS_BASE. rewrite land_high_mask by lia.
  rewrite Z.mul_comm, Z.mod_add by lia. done.
Qed.

Lemma pte_get_page_spec e : in_u32 e -> entry_page e < 2 ^ 32 -> pte_get_page e = Ret (entry_page e).
Proof.
  intros He Hr. unfold pte_get_page, ptov, entry_page, PHYS_BASE in *.
  assert (0 <= Z.land e PTE_ADDR) by (apply Z.land_nonneg; lia).
  rewrite (proj2 (Z.ltb_lt _ _)) by lia. rewrite u32_small by lia. f_equal. lia.
Qed.

(** * Pages in use *)

Lemma live_bounds s q : vm_ok s -> live_page s q ->
  PHYS_BASE < q /\ q + 4096 <= PHYS_BASE + 4096 * init_ram_pages s.
Proof.
  intros [[K U D] R] [Hm Hu]. unfold page_used in Hu.
  assert (0 <= page_cnt (user_pool (pages s))) as Hc
    by (pose proof (bm_cnt _ (po_map _ U)); unfold page_cnt; lia).
  apply orb_true_iff in Hu. unfold pool_used in Hu.
  assert (exists p, pool_ok p /\ page_from_pool p q = true /\
    pool_end p <= PHYS_BASE + 4096 * init_ram_pages s) as (p & P & F & E).
  { destruct Hu as [Hu|Hu]; apply andb_true_iff in Hu as [F _].
    - exists (kernel_pool (pages s)). split_and!; [done..|]. unfold pool_end in *. lia.
    - exists (user_pool (pages s)). split_and!; [done..|]. lia. }
  destruct (page_has_index p P q Hm F) as (i & Hi & ->). pose proof (po_low p P).
  unfold pool_end in E. lia.
Qed.

Lemma live_kernel_page s q : vm_ok s -> live_page s q -> kernel_page q.
Proof.
  intros V L. pose proof (live_bounds s q V L). pose proof (vm_ram s V). destruct L as [Hm _].
  split; [lia|done].
Qed.

Lemma live_in_ram s q i : vm_ok s -> live_page s q -> 0 <= i < 1024 -> in_ram s (q + 4 * i) = true.
Proof.
  intros V L Hi. pose proof (live_bounds s q V L). unfold in_ram. rewrite PGSIZE_val. lia.
Qed.

Lemma load_live s q i : vm_ok s -> live_page s q -> 0 <= i < 1024 ->
  load_word (q + 4 * i) s = Ret (mem_word (mem (pages s)) (q + 4 * i), s).
Proof. intros. unfold load_word. by rewrite live_in_ram. Qed.

Definition write_word (s : vm) (a w : Z) : vm :=
  set_pages s (update_mem (pages s) (set_word (mem (pages s)) a w)).

Lemma store_live s q i w : vm_ok s -> live_page s q -> 0 <= i < 1024 ->
  store_word (q + 4 * i) w s = Ret (tt, write_word s (q + 4 * i) w).
Proof. intros. unfold store_word. by rewrite live_in_ram. Qed.

(** ** Changes of memory that leave the allocator's bookkeeping alone *)

Definition change_mem (s : vm) (m : memory) : vm := set_pages s (update_mem (pages s) m).

Lemma vm_ok_change_mem s m : vm_ok s -> vm_ok (change_mem s m).
Proof. intros [[K U D] R]. split; [by split|exact R]. Qed.

(** The fields of [vm] other than memory and the page pools. *)
Definition same_cpu (s s' : vm) : Prop :=
  cr3 s' = cr3 s /\ tlb s' = tlb s /\ init_page_dir s' = init_page_dir s /\
  init_ram_pages s' = init_ram_pages s.

Lemma same_cpu_refl s : same_cpu s s.
Proof. done. Qed.
Lemma same_cpu_trans s1 s2 s3 : same_cpu s1 s2 -> same_cpu s2 s3 -> same_cpu s1 s3.
Proof. unfold same_cpu. intuition congruence. Qed.

(** ** Allocation and release of single pages *)

(** [s'] is [s] with one more page [q], whose old contents may have changed. *)
Record got_page (s s' : vm) (q : Z) : Prop := {
  gp_ok : vm_ok s';
  gp_live : live_page s' q;
  gp_new : page_used (pages s) q = false;
  gp_used : forall r, r mod 4096 = 0 ->
    page_used (pages s') r = if decide (r = q) then true else page_used (pages s) r;
  gp_cpu : same_cpu s s'
}.

Lemma in_range_page q r : q mod 4096 = 0 -> r mod 4096 = 0 ->
  in_range r q 4096 = bool_decide (r = q).
Proof.
  intros Hq Hr. unfold in_range. case_bool_decide as E; [subst; lia|].
  destruct (page_disjoint q r Hq Hr); [congruence| |]; lia.
Qed.

Lemma vm_ok_geometry s p : vm_ok s -> palloc_ok p -> geometry p = geometry (pages s) ->
  vm_ok (set_pages s p).
Proof.
  intros [_ R] P G. split; [exact P|]. unfold geometry in G. injection G as _ _ G1 G2.
  cbn [pages set_pages init_ram_pages]. unfold pool_end in *. by rewrite G1, G2.
Qed.

Lemma get_page_spec s flags : vm_ok s ->
  (exists s' q, get_page flags s = Ret (q, s') /\ q <> NULL /\ got_page s s' q /\
     mem (pages s') = if has_flag flags PAL_ZERO then memset (mem (pages s)) q 0 4096
                      else mem (pages s)) \/
  (pool_exhausted (chosen (pages s) (has_flag flags PAL_USER)) 1 /\
   get_page flags s = if has_flag flags PAL_ASSERT then Panic else Ret (NULL, s)).
Proof.
  intros V. unfold get_page, palloc_get_page.
  destruct (palloc_get_multiple_spec (pages s) (vm_palloc s V) flags 1 ltac:(lia))
    as [(p & a & E & [K (A1 & A2 & A3) F U] & _ & _ & M)|[N E]].
  - left. pose proof (palloc_get_geometry _ _ _ _ _ E) as G. rewrite E. cbn [obind].
    exists (set_pages s p), a. split; [done|]. unfold PHYS_BASE in A1.
    split; [unfold NULL; lia|]. change (4096 * 1) with 4096 in *. split; [|exact M].
    assert (forall r, r mod 4096 = 0 -> page_used p r =
      if decide (r = a) then true else page_used (pages s) r) as HU.
    { intros r Hr. rewrite U, in_range_page by done. by case_bool_decide; case_decide. }
    split; try done.
    + by apply vm_ok_geometry.
    + split; [done|]. cbn [pages set_pages]. rewrite HU by done. by rewrite decide_True.
    + apply F; [done|lia].
  - right. split; [exact N|]. rewrite E. destruct (has_flag flags PAL_ASSERT); [done|].
    cbn [obind]. by destruct s.
Qed.

Lemma free_page_spec s q : vm_ok s -> live_page s q -> exists s',
  free_page q s = Ret (tt, s') /\ vm_ok s' /\ same_cpu s s' /\
  mem (pages s') = memset (mem (pages s)) q 0xcc 4096 /\
  forall r, r mod 4096 = 0 ->
    page_used (pages s') r = if decide (r = q) then false else page_used (pages s) r.
Proof.
  intros V [Hm Hu]. pose proof (vm_palloc s V) as P.
  unfold free_page, palloc_free_page.
  destruct (palloc_free_multiple_spec (pages s) P q 1 ltac:(lia) Hm) as (p & E & K & M & U).
  - intros r Hr Hi. assert (r = q) as ->; [|done].
    destruct (decide (r = q)); [done|]. destruct (page_disjoint q r Hm Hr); [congruence| |]; lia.
  - intros user F. destruct (page_has_index _ (chosen_ok _ P user) q Hm F) as (i & Hi & ->).
    unfold pool_end. lia.
  - rewrite E. cbn [obind]. exists (set_pages s p). split; [done|].
    split; [by apply vm_ok_geometry; [| |apply (palloc_free_geometry _ _ _ _ E)]|].
    split; [done|]. split; [exact M|]. intros r Hr. cbn [pages set_pages].
    change (4096 * 1) with 4096 in U. rewrite U, in_range_page by done.
    by case_bool_decide; case_decide.
Qed.

(** * Pages a directory owns *)

Lemma flat_map_ext_in {A B} (f g : A -> list B) l :
  (forall x, x ∈ l -> g x = f x) -> flat_map g l = flat_map f l.
Proof.
  induction l as [|x l IH]; [done|]. intros H. simpl. rewrite H by (by left).
  f_equal. apply IH. intros y Hy. apply H. by right.
Qed.

(** Changing the list at one index. *)
Lemma flat_map_update {A B} (f g : A -> list B) l k extra : NoDup l -> k ∈ l ->
  (forall x, x ∈ l -> x <> k -> g x = f x) -> g k ≡ₚ extra ++ f k ->
  flat_map g l ≡ₚ extra ++ flat_map f l.
Proof.
  intros ND Hk HO HK. apply list_elem_of_split in Hk as (l1 & l2 & ->).
  apply NoDup_app in ND as (_ & D & ND). apply NoDup_cons in ND as [Hn _].
  rewrite !flat_map_app. simpl.
  rewrite (flat_map_ext_in f g l1), (flat_map_ext_in f g l2), HK.
  - solve_Permutation.
  - intros x Hx. apply HO; [set_solver|]. intros ->. done.
  - intros x Hx. apply HO; [set_solver|]. intros ->. apply (D k); set_solver.
Qed.

Lemma elem_of_seqZ' m n k : k ∈ seqZ m n <-> m <= k < m + n.
Proof. apply elem_of_seqZ. Qed.

(** The directory itself and its tables: the pages whose contents define the mapping. *)
Definition node (s : vm) (pd q : Z) : Prop :=
  q = pd \/ exists k, 0 <= k < 768 /\ table s pd k = Some q.

Lemma table_pages_self s pt : pt ∈ table_pages s pt.
Proof. unfold table_pages. apply elem_of_app. right. apply list_elem_of_singleton. reflexivity. Qed.

Lemma node_in_pages s pd q : node s pd q -> q ∈ pd_pages s pd.
Proof.
  intros [-> | (k & Hk & E)]; apply elem_of_app; [right; by left|left].
  apply list_elem_of_In, in_flat_map. exists k.
  split; [apply list_elem_of_In, elem_of_seqZ; lia|]. apply list_elem_of_In.
  unfold entry_pages. rewrite E. apply table_pages_self.
Qed.

Lemma table_frame s s' pd k : same_page (mem (pages s)) (mem (pages s')) pd -> 0 <= k < 1024 ->
  table s' pd k = table s pd k.
Proof. intros H Hk. unfold table, pde. by rewrite !(same_page_word _ _ _ _ H Hk). Qed.

Lemma pte_at_frame s s' pt i : same_page (mem (pages s)) (mem (pages s')) pt -> 0 <= i < 1024 ->
  pte_at s' pt i = pte_at s pt i.
Proof. intros H Hi. unfold pte_at. by rewrite (same_page_word _ _ _ _ H Hi). Qed.

Lemma table_pages_frame s s' pt : same_page (mem (pages s)) (mem (pages s')) pt ->
  table_pages s' pt = table_pages s pt.
Proof.
  intros H. unfold table_pages. f_equal. apply flat_map_ext_in. intros i Hi%elem_of_seqZ.
  unfold frame_at. by rewrite (pte_at_frame s s') by (done || lia).
Qed.

(** If the nodes of a directory are unchanged, so are its mappings and the pages it owns. *)
Lemma pd_frame s s' pd :
  (forall q, node s pd q -> same_page (mem (pages s)) (mem (pages s')) q) ->
  pd_pages s' pd = pd_pages s pd /\
  (forall k, 0 <= k < 1024 -> pde s' pd k = pde s pd k) /\
  (forall va, 0 <= va -> is_user_vaddr va = true -> pte s' pd va = pte s pd va).
Proof.
  intros H. assert (same_page (mem (pages s)) (mem (pages s')) pd) as H0 by (apply H; by left).
  split_and!.
  - unfold pd_pages. f_equal. apply flat_map_ext_in. intros k Hk%elem_of_seqZ.
    unfold entry_pages. rewrite (table_frame s s') by (done || lia).
    destruct (table s pd k) as [pt|] eqn:E; [|done]. apply table_pages_frame, H. right. eauto with lia.
  - intros k Hk. unfold pde. by rewrite (same_page_word _ _ _ _ H0 Hk).
  - intros va H1 H2. pose proof (user_pd_no va H1 H2). unfold pte.
    rewrite (table_frame s s') by (done || lia).
    destruct (table s pd (pd_no va)) as [pt|] eqn:E; [|done]. cbn [mbind option_bind].
    rewrite (pte_at_frame s s'); [done| |apply pt_no_bound]. apply H. right. eauto with lia.
Qed.

Lemma pd_ok_frame s s' pd : pd_ok s pd ->
  (forall q, node s pd q -> same_page (mem (pages s)) (mem (pages s')) q) ->
  (forall q, q ∈ pd_pages s pd -> live_page s' q) -> pd_ok s' pd.
Proof.
  intros [E N L] H HL. destruct (pd_frame s s' pd H) as (P & D & _). split.
  - intros k pt Hk T. rewrite D by lia. apply E; [done|]. rewrite <- T. unfold table.
    by rewrite D by lia.
  - by rewrite P.
  - rewrite P. by apply Forall_forall.
Qed.

Lemma flat_map_disjoint {A B} (f : A -> list B) l x y b : NoDup (flat_map f l) ->
  x ∈ l -> y ∈ l -> b ∈ f x -> b ∈ f y -> x = y.
Proof.
  induction l as [|z l IH]; simpl; [set_solver|]. intros (N1 & D & N2)%NoDup_app Hx Hy Bx By.
  assert (forall w, w ∈ l -> b ∈ f w -> b ∈ flat_map f l) as HI.
  { intros w Hw Hb. apply list_elem_of_In, in_flat_map. exists w. by split; apply list_elem_of_In. }
  apply elem_of_cons in Hx as [-> | Hx]; apply elem_of_cons in Hy as [-> | Hy].
  - done.
  - destruct (D b Bx). eauto.
  - destruct (D b By). eauto.
  - by apply IH.
Qed.

Section Directory.
Context (s : vm) (pd : Z) (V : vm_ok s) (OK : pd_ok s pd).

Lemma node_live q : node s pd q -> live_page s q.
Proof.
  intros H%node_in_pages. pose proof (pd_live s pd OK) as L. rewrite Forall_forall in L. auto.
Qed.

Lemma pd_is_live : live_page s pd.
Proof. apply node_live. by left. Qed.

Lemma pd_not_null : pd <> NULL.
Proof. pose proof (live_bounds s pd V pd_is_live). unfold PHYS_BASE, NULL in *. lia. Qed.

Lemma table_live k pt : 0 <= k < 768 -> table s pd k = Some pt -> live_page s pt.
Proof. intros. apply node_live. right. eauto. Qed.

Lemma table_not_pd k pt : 0 <= k < 768 -> table s pd k = Some pt -> pt <> pd.
Proof.
  intros Hk E ->. pose proof (pd_nodup s pd OK) as N. unfold pd_pages in N.
  apply NoDup_app in N as (_ & D & _). apply (D pd); [|by left].
  apply list_elem_of_In, in_flat_map. exists k.
  split; apply list_elem_of_In; [apply elem_of_seqZ; lia|]. unfold entry_pages. rewrite E.
  apply table_pages_self.
Qed.

Lemma table_inj k k' pt : 0 <= k < 768 -> 0 <= k' < 768 ->
  table s pd k = Some pt -> table s pd k' = Some pt -> k = k'.
Proof.
  intros Hk Hk' E E'. pose proof (pd_nodup s pd OK) as N. unfold pd_pages in N.
  apply NoDup_app in N as (N & _ & _).
  apply (flat_map_disjoint _ _ _ _ pt N); try (apply elem_of_seqZ; lia);
    unfold entry_pages; rewrite ?E, ?E'; apply table_pages_self.
Qed.

Lemma table_entry k pt : 0 <= k < 768 -> table s pd k = Some pt ->
  pde s pd k <> 0 /\ pde_get_pt (pde s pd k) = Ret pt /\ (Z.land (pde s pd k) PTE_P =? 0) = false.
Proof.
  intros Hk E. pose proof (pd_entries s pd OK k pt Hk E) as C.
  destruct (pde_create_spec pt) as (e & C' & _ & _ & N & G & P).
  { eapply live_kernel_page; [done|by eapply table_live]. }
  rewrite C in C'. by injection C' as ->.
Qed.

(** ** [lookup_page] *)

Lemma lookup_page_found va create pt : 0 <= va -> is_user_vaddr va = true ->
  table s pd (pd_no va) = Some pt -> lookup_page pd va create s = Ret (pt + 4 * pt_no va, s).
Proof.
  intros H1 H2 E. pose proof (user_pd_no va H1 H2) as Hk. unfold lookup_page.
  rewrite (proj2 (Z.eqb_neq pd NULL) pd_not_null), H2, orb_true_r. cbn [negb].
  unfold bind. rewrite !load_live by (apply pd_is_live || lia || done). cbn [obind].
  destruct (table_entry _ _ Hk E) as (N & G & _). unfold pde in *.
  rewrite (proj2 (Z.eqb_neq _ 0) N). cbn [ret obind].
  rewrite !load_live by (apply pd_is_live || lia || done). cbn [obind].
  rewrite G. done.
Qed.

Lemma lookup_page_absent va : 0 <= va -> is_user_vaddr va = true ->
  table s pd (pd_no va) = None -> lookup_page pd va false s = Ret (NULL, s).
Proof.
  intros H1 H2 E. pose proof (user_pd_no va H1 H2) as Hk. unfold lookup_page.
  rewrite (proj2 (Z.eqb_neq pd NULL) pd_not_null). cbn [negb orb].
  unfold bind. rewrite load_live by (apply pd_is_live || lia || done). cbn [obind].
  unfold table, pde in E. by destruct (_ =? 0).
Qed.
End Directory.

(** ** New tables and changed entries *)

(** Every page in use other than those in [own] keeps its contents and stays in use. *)
Definition keeps (s s' : vm) (own : Z -> Prop) : Prop :=
  forall q, live_page s q -> ~ own q ->
    live_page s' q /\ same_page (mem (pages s)) (mem (pages s')) q.

Lemma keeps_trans s1 s2 s3 own own' : keeps s1 s2 own -> keeps s2 s3 own' ->
  (forall q, live_page s1 q -> own' q -> own q) -> keeps s1 s3 own.
Proof.
  intros H1 H2 HO q Hq Hn. destruct (H1 q Hq Hn) as [L1 P1].
  destruct (H2 q L1) as [L2 P2]; [auto|]. split; [done|]. by eapply same_page_trans.
Qed.

(** The kernel half of the directory is shared by all address spaces. *)
Definition same_kernel_half (s s' : vm) (pd : Z) : Prop :=
  forall k, 768 <= k < 1024 -> pde s' pd k = pde s pd k.

Section Update.
Context (s : vm) (pd : Z) (V : vm_ok s) (OK : pd_ok s pd).

(** Writing entry [i] of the table [pt] that entry [k] refers to. *)
Lemma write_entry_spec k pt i e' : 0 <= k < 768 -> table s pd k = Some pt -> 0 <= i < 1024 ->
  in_u32 e' -> let s' := write_word s (pt + 4 * i) e' in
  vm_ok s' /\ same_cpu s s' /\ keeps s s' (eq pt) /\
  (forall j, 0 <= j < 1024 -> pde s' pd j = pde s pd j) /\
  (forall k' pt' i', 0 <= k' < 768 -> table s pd k' = Some pt' -> 0 <= i' < 1024 ->
     pte_at s' pt' i' = if decide (k' = k /\ i' = i) then e' else pte_at s pt' i').
Proof.
  intros Hk T Hi He s'.
  pose proof (table_live s pd OK _ _ Hk T) as [Hpm Hpu].
  pose proof (pd_is_live s pd OK) as [Hdm Hdu].
  assert (forall q, q mod 4096 = 0 -> q <> pt ->
    same_page (mem (pages s)) (mem (pages s')) q) as SP.
  { intros q Hq N. cbn. by apply same_page_set_word. }
  pose proof (table_not_pd s pd OK _ _ Hk T) as Hne.
  split_and!.
  - by apply vm_ok_change_mem.
  - done.
  - intros q [Lm Lu] N. split; [by split|]. apply SP; [done|]. congruence.
  - intros j Hj. unfold pde. by rewrite (same_page_word _ _ _ j (SP pd Hdm (not_eq_sym Hne)) Hj).
  - intros k' pt' i' Hk' T' Hi'. pose proof (table_live s pd OK _ _ Hk' T') as [Hpm' _].
    destruct (decide (pt' = pt)) as [->|N].
    + assert (k' = k) as -> by (eapply (table_inj s pd OK); eassumption).
      unfold pte_at. cbn. destruct (decide (i' = i)) as [->|Ni].
      * rewrite decide_True by done. rewrite mem_word_set_same, u32_small by lia. done.
      * rewrite decide_False by tauto. by rewrite mem_word_set_other by lia.
    + rewrite (pte_at_frame s s') by (done || (apply SP; done)).
      rewrite decide_False; [done|]. intros [-> _]. congruence.
Qed.
End Update.

(** The entries of the user half of [pd] are those of [s], but for entry [i] of table [k]. *)
Definition one_entry (s s' : vm) (pd k i e' : Z) : Prop :=
  (forall k', 0 <= k' < 768 -> table s' pd k' = table s pd k') /\
  (forall k' pt' i', 0 <= k' < 768 -> table s pd k' = Some pt' -> 0 <= i' < 1024 ->
     pte_at s' pt' i' = if decide (k' = k /\ i' = i) then e' else pte_at s pt' i').

Lemma one_entry_pte s s' pd va e e' u :
  one_entry s s' pd (pd_no va) (pt_no va) e' -> pte s pd va = Some e ->
  0 <= u -> is_user_vaddr u = true ->
  pte s' pd u = if decide (pg_no u = pg_no va) then Some e' else pte s pd u.
Proof.
  intros [HT HE] E H1 H2. pose proof (user_pd_no u H1 H2) as Hk. pose proof (pt_no_bound u) as Hi.
  unfold pte in *. rewrite HT by done. destruct (table s pd (pd_no u)) as [pt|] eqn:T; cbn.
  - rewrite (HE _ _ _ Hk T Hi). destruct (decide (pg_no u = pg_no va)) as [Ep|Np].
    + by rewrite decide_True by (by apply same_vpage).
    + rewrite decide_False; [done|]. by rewrite same_vpage.
  - rewrite decide_False; [done|]. rewrite <- same_vpage. intros [Ed _].
    rewrite Ed in T. by rewrite T in E.
Qed.

(** How the pages a directory owns change when one entry does. *)
Lemma one_entry_pages s s' pd k pt i extra : 0 <= k < 768 -> 0 <= i < 1024 ->
  (forall k', 0 <= k' < 768 -> table s' pd k' = table s pd k') -> table s pd k = Some pt ->
  (forall k' pt' i', 0 <= k' < 768 -> table s pd k' = Some pt' -> 0 <= i' < 1024 ->
     ~ (k' = k /\ i' = i) -> pte_at s' pt' i' = pte_at s pt' i') ->
  frame_at s' pt i ≡ₚ extra ++ frame_at s pt i ->
  pd_pages s' pd ≡ₚ extra ++ pd_pages s pd.
Proof.
  intros Hk Hi HT T HE HF. unfold pd_pages. rewrite app_assoc. f_equiv.
  apply flat_map_update with k; [apply NoDup_seqZ|apply elem_of_seqZ; lia| |].
  - intros k' Hk'%elem_of_seqZ N. unfold entry_pages. rewrite HT by lia.
    destruct (table s pd k') as [pt'|] eqn:T'; [|done]. unfold table_pages. f_equal.
    apply flat_map_ext_in. intros i' Hi'%elem_of_seqZ. unfold frame_at.
    rewrite (HE k' pt' i') by (done || lia || tauto). done.
  - unfold entry_pages. rewrite HT, T by done. unfold table_pages. rewrite app_assoc. f_equiv.
    apply flat_map_update with i; [apply NoDup_seqZ|apply elem_of_seqZ; lia| |done].
    intros i' Hi'%elem_of_seqZ N. unfold frame_at. rewrite (HE k pt i') by (done || lia || tauto). done.
Qed.

(** ** Creating a table *)

(** [s'] is [s] after the pages [new] were allocated; only pages in [own] and [new] have changed. *)
Record grown (s s' : vm) (own : Z -> Prop) (new : list Z) : Prop := {
  gr_ok : vm_ok s';
  gr_cpu : same_cpu s s';
  gr_keeps : keeps s s' own;
  gr_new : Forall (fun q => page_used (pages s) q = false) new;
  gr_used : forall q, q mod 4096 = 0 ->
    page_used (pages s') q = bool_decide (q ∈ new) || page_used (pages s) q
}.

Lemma grown_live s s' own new q : grown s s' own new -> live_page s q -> live_page s' q.
Proof. intros G [Hm Hu]. split; [done|]. rewrite (gr_used _ _ _ _ G), Hu by done. apply orb_true_r. Qed.

Lemma write_word_mem s a w : mem (pages (write_word s a w)) = set_word (mem (pages s)) a w.
Proof. reflexivity. Qed.
Lemma write_word_used s a w q : page_used (pages (write_word s a w)) q = page_used (pages s) q.
Proof. reflexivity. Qed.

Section Create.
Context (s : vm) (pd : Z) (V : vm_ok s) (OK : pd_ok s pd).

Lemma new_table_spec k pt s1 e : 0 <= k < 768 -> table s pd k = None ->
  got_page s s1 pt -> mem (pages s1) = memset (mem (pages s)) pt 0 4096 ->
  pde_create pt = Ret e ->
  let s' := write_word s1 (pd + 4 * k) e in
  grown s s' (eq pd) [pt] /\ pd_ok s' pd /\ same_kernel_half s s' pd /\
  (forall k', 0 <= k' < 768 ->
     table s' pd k' = if decide (k' = k) then Some pt else table s pd k') /\
  (forall k' pt' i, 0 <= k' < 768 -> table s pd k' = Some pt' -> 0 <= i < 1024 ->
     pte_at s' pt' i = pte_at s pt' i) /\
  (forall i, 0 <= i < 1024 -> pte_at s' pt i = 0) /\
  pd_pages s' pd ≡ₚ pt :: pd_pages s pd.
Proof.
  intros Hk T [V1 L1 N1 U1 C1] M1 E s'.
  pose proof (pd_is_live s pd OK) as [Hdm Hdu]. destruct L1 as [Hpm Hpu].
  destruct (pde_create_spec pt (live_kernel_page s1 pt V1 (conj Hpm Hpu)))
    as (e0 & E0 & EP & ER & EN & _). rewrite E in E0. injection E0 as <-.
  assert (forall q, live_page s q -> q <> pt) as Hnp by (intros q [_ Hq] ->; congruence).
  assert (forall q, live_page s q -> q <> pd -> same_page (mem (pages s)) (mem (pages s')) q) as SP.
  { intros q Lq N. pose proof Lq as [Hq _]. unfold s'. rewrite write_word_mem, M1.
    apply same_page_trans with (memset (mem (pages s)) pt 0 4096).
    - apply same_page_memset; try done. apply not_eq_sym, Hnp, Lq.
    - apply same_page_set_word; (done || lia || congruence). }
  assert (forall k', 0 <= k' < 1024 -> pde s' pd k' = if decide (k' = k) then e else pde s pd k') as HD.
  { intros k' Hk'. unfold pde, s'. rewrite write_word_mem. destruct (decide (k' = k)) as [->|N].
    - by rewrite mem_word_set_same, u32_small by lia.
    - rewrite mem_word_set_other by lia. rewrite M1. apply same_page_word; [|done].
      apply same_page_memset; try done. apply not_eq_sym, Hnp. by split. }
  assert (forall k', 0 <= k' < 768 ->
    table s' pd k' = if decide (k' = k) then Some pt else table s pd k') as HT.
  { intros k' Hk'. unfold table. rewrite HD by lia. destruct (decide (k' = k)); [|done].
    rewrite (proj2 (Z.eqb_neq _ 0) EN). by rewrite EP. }
  assert (forall k' pt' i, 0 <= k' < 768 -> table s pd k' = Some pt' -> 0 <= i < 1024 ->
     pte_at s' pt' i = pte_at s pt' i) as HE.
  { intros k' pt' i Hk' T' Hi. apply pte_at_frame; [|done]. apply SP.
    - by eapply table_live. - by eapply table_not_pd. }
  assert (forall i, 0 <= i < 1024 -> pte_at s' pt i = 0) as HZ.
  { intros i Hi. unfold pte_at, s'. rewrite write_word_mem, mem_word_set_other, M1.
    - apply mem_word_memset_zero; lia.
    - destruct (page_disjoint pd pt Hdm Hpm); [apply Hnp; by split|right; lia|left; lia]. }
  assert (grown s s' (eq pd) [pt]) as G.
  { split.
    - by apply vm_ok_change_mem.
    - exact C1.
    - intros q Lq N. split; [|apply SP; congruence]. destruct Lq as [Hq Hu]. split; [done|].
      unfold s'. rewrite write_word_used, U1, Hu by done. by case_decide.
    - by constructor.
    - intros q Hq. unfold s'. rewrite write_word_used, U1 by done. case_decide; case_bool_decide; set_solver. }
  assert (pd_pages s' pd ≡ₚ pt :: pd_pages s pd) as HP.
  { unfold pd_pages. change (pt :: ?l) with ([pt] ++ l). rewrite app_assoc. f_equiv.
    apply flat_map_update with k; [apply NoDup_seqZ|apply elem_of_seqZ; lia| |].
    - intros k' Hk'%elem_of_seqZ N. unfold entry_pages. rewrite HT, decide_False by (done || lia).
      destruct (table s pd k') as [pt'|] eqn:T'; [|done]. apply table_pages_frame, SP.
      + eapply table_live; [done| |done]. lia.
      + eapply table_not_pd; [done..| |done]. lia.
    - unfold entry_pages. rewrite HT, decide_True, T by done. unfold table_pages.
      rewrite (flat_map_ext_in (fun _ => [])).
      + clear. induction (seqZ 0 1024); done.
      + intros i Hi%elem_of_seqZ. unfold frame_at. rewrite HZ by lia. done. }
  split_and!; try done.
  - split.
    + intros k' pt' Hk'. rewrite HT, HD by lia. case_decide as D; [by intros [= <-]|].
      by apply (pd_entries s pd OK).
    + rewrite HP. apply NoDup_cons. split; [|apply OK]. intros Hin.
      pose proof (pd_live s pd OK) as L. rewrite Forall_forall in L. by apply (Hnp pt (L pt Hin)).
    + rewrite HP. constructor.
      * split; [done|]. unfold s'. rewrite write_word_used, U1 by done. by rewrite decide_True.
      * eapply Forall_impl; [apply OK|]. intros q. apply (grown_live _ _ _ _ _ G).
  - intros k' Hk'. rewrite HD, decide_False by lia. done.
Qed.

(** [lookup_page] with [create]: the entry's address, or a null pointer when no page is left for a
    missing table. *)
Lemma lookup_page_create va : 0 <= va -> is_user_vaddr va = true ->
  (exists s' pt new, lookup_page pd va true s = Ret (pt + 4 * pt_no va, s') /\
     grown s s' (eq pd) new /\ pd_ok s' pd /\ same_kernel_half s s' pd /\
     table s' pd (pd_no va) = Some pt /\ pd_pages s' pd ≡ₚ new ++ pd_pages s pd /\
     (forall q, node s' pd q -> node s pd q \/ q ∈ new) /\
     (forall u e, 0 <= u -> is_user_vaddr u = true -> pte s pd u = Some e -> pte s' pd u = Some e) /\
     (forall u, 0 <= u -> is_user_vaddr u = true -> mapping s' pd u = mapping s pd u)) \/
  (table s pd (pd_no va) = None /\ pool_exhausted (kernel_pool (pages s)) 1 /\
   lookup_page pd va true s = Ret (NULL, s)).
Proof.
  intros H1 H2. pose proof (user_pd_no va H1 H2) as Hk.
  destruct (table s pd (pd_no va)) as [pt|] eqn:T.
  - left. exists s, pt, []. split; [by apply lookup_page_found|]. split_and!; try done.
    intros q N. by left.
  - assert ((mem_word (mem (pages s)) (pd + 4 * pd_no va) =? 0) = true) as Z0.
    { unfold table, pde in T. by destruct (mem_word _ _ =? 0). }
    assert (lookup_page pd va true s =
      let? (pt, s1) := get_page PAL_ZERO s in
      if pt =? NULL then Ret (NULL, s1)
      else
        let? w := pde_create pt in
        let? (_, s2) := store_word (pd + 4 * pd_no va) w s1 in
        let? (e, s3) := load_word (pd + 4 * pd_no va) s2 in
        let? pt := pde_get_pt e in Ret (pt + 4 * pt_no va, s3)) as ->.
    { unfold lookup_page. rewrite (proj2 (Z.eqb_neq pd NULL) (pd_not_null s pd V OK)), H2.
      cbn [negb orb]. unfold bind, lift, ret.
      rewrite load_live by (done || lia || exact (pd_is_live s pd OK)). cbn [obind]. rewrite Z0.
      destruct (get_page PAL_ZERO s) as [[pt s1]| | |]; [|done..]. cbn [obind].
      destruct (pt =? NULL); [done|]. destruct (pde_create pt) as [w| | |]; [|done..]. cbn [obind].
      destruct (store_word _ w s1) as [[? s2]| | |]; [|done..]. cbn [obind].
      destruct (load_word _ s2) as [[e s3]| | |]; [|done..]. cbn [obind].
      by destruct (pde_get_pt e). }
    destruct (get_page_spec s PAL_ZERO V) as [(s1 & pt & E & Nn & G & M)|[X E]]; rewrite E.
    2:{ right. split; [done|]. split; [exact X|reflexivity]. }
    left. cbn [obind]. rewrite (proj2 (Z.eqb_neq pt NULL) Nn).
    destruct (pde_create_spec pt (live_kernel_page s1 pt (gp_ok _ _ _ G) (gp_live _ _ _ G)))
      as (e & Ee & Ep & Er & En & Eg & Epr).
    rewrite Ee. cbn [obind].
    change (has_flag PAL_ZERO PAL_ZERO) with true in M.
    destruct (new_table_spec _ pt s1 e Hk T G M Ee) as (G' & O' & K' & HT & HE & HZ & HP).
    set (s' := write_word s1 (pd + 4 * pd_no va) e) in *.
    pose proof (gr_ok _ _ _ _ G') as V'.
    assert (live_page s1 pd) as L1.
    { pose proof (pd_is_live s pd OK) as [Hm Hu]. split; [done|].
      rewrite (gp_used _ _ _ G), Hu by done. by case_decide. }
    rewrite store_live by (apply G || lia || done). cbn [obind].
    fold s'. rewrite load_live by (done || lia || exact (pd_is_live s' pd O')). cbn [obind].
    assert (mem_word (mem (pages s')) (pd + 4 * pd_no va) = e) as ->.
    { unfold s'. rewrite write_word_mem, mem_word_set_same, u32_small by lia. done. }
    rewrite Eg. cbn [obind]. exists s', pt, [pt]. split_and!; try done.
    + by rewrite HT, decide_True.
    + intros q [-> | (k & Hk2 & T2)]; [left; by left|]. rewrite HT in T2 by done. case_decide as D.
      * injection T2 as <-. right. by left.
      * left. right. eauto.
    + intros u e0 U1 U2. unfold pte. pose proof (user_pd_no u U1 U2) as Hku.
      rewrite HT by done. destruct (decide (pd_no u = pd_no va)) as [->|N]; [by rewrite T|].
      destruct (table s pd (pd_no u)) as [pt'|] eqn:T'; [|done]. cbn.
      by rewrite (HE _ _ _ Hku T') by apply pt_no_bound.
    + intros u U1 U2. unfold mapping, pte. pose proof (user_pd_no u U1 U2) as Hku.
      rewrite HT by done. destruct (decide (pd_no u = pd_no va)) as [->|N].
      * rewrite T. cbn. rewrite HZ by apply pt_no_bound. done.
      * destruct (table s pd (pd_no u)) as [pt'|] eqn:T'; [|done]. cbn.
        by rewrite (HE _ _ _ Hku T') by apply pt_no_bound.
Qed.
End Create.
