(* ===== verification/PagedirProps.v ===== *)
(** What the operations on page directories guarantee: mappings are added and removed one page at a
    time, destruction gives back exactly the owned pages, cached translations stay coherent, and
    address spaces stay isolated. *)
From S2P Require Import Prelude Bitmap Vaddr Palloc Pagedir PagedirFacts.

(** * Changing one entry *)

(** The frames an entry refers to: at most one. *)
Definition frames_of (e : Z) : list Z := if Z.land e PTE_P =? 0 then [] else [entry_page e].
Definition mapping_of (e : Z) : option (Z * bool) :=
  if Z.land e PTE_P =? 0 then None else Some (entry_page e, Z.testbit e 1).

Lemma mapping_pte s pd va : mapping s pd va = pte s pd va ≫= mapping_of.
Proof. reflexivity. Qed.

Lemma pte_table s pd va e : pte s pd va = Some e ->
  exists pt, table s pd (pd_no va) = Some pt /\ e = pte_at s pt (pt_no va).
Proof. unfold pte. destruct (table s pd (pd_no va)); cbn; [|done]. intros [= <-]. eauto. Qed.

Lemma pte_range s pd va e : pte s pd va = Some e -> in_u32 e.
Proof. intros (pt & _ & ->)%pte_table. apply mem_word_range. Qed.

(** [pd_ok] follows from its parts for the pages of another state. *)
Lemma pd_ok_intro s s' pd : pd_ok s pd ->
  (forall k, 0 <= k < 1024 -> pde s' pd k = pde s pd k) ->
  NoDup (pd_pages s' pd) -> Forall (live_page s') (pd_pages s' pd) -> pd_ok s' pd.
Proof.
  intros OK HD N L. split; [|done..]. intros k pt Hk T. rewrite HD by lia.
  apply (pd_entries s pd OK); [done|]. rewrite <- T. unfold table. by rewrite HD by lia.
Qed.

Section Entry.
Context (s : vm) (pd : Z) (V : vm_ok s) (OK : pd_ok s pd).
Context (va : Z) (Hva : 0 <= va) (Hu : is_user_vaddr va = true).
Context (pt e : Z) (T : table s pd (pd_no va) = Some pt) (E : pte s pd va = Some e).
Context (e' : Z) (He : in_u32 e').
Let s' := write_word s (pt + 4 * pt_no va) e'.

Record entry_set : Prop := {
  es_store : store_word (pt + 4 * pt_no va) e' s = Ret (tt, s');
  es_ok : vm_ok s';
  es_cpu : same_cpu s s';
  es_keeps : keeps s s' (node s pd);
  es_pde : forall k, 0 <= k < 1024 -> pde s' pd k = pde s pd k;
  es_pte : forall u, 0 <= u -> is_user_vaddr u = true ->
    pte s' pd u = if decide (pg_no u = pg_no va) then Some e' else pte s pd u;
  es_add : forall extra, frames_of e' ≡ₚ extra ++ frames_of e ->
    pd_pages s' pd ≡ₚ extra ++ pd_pages s pd;
  es_remove : forall extra, frames_of e ≡ₚ extra ++ frames_of e' ->
    pd_pages s pd ≡ₚ extra ++ pd_pages s' pd;
  es_used : forall q, page_used (pages s') q = page_used (pages s) q
}.

Lemma entry_set_spec : entry_set.
Proof.
  pose proof (user_pd_no va Hva Hu) as Hk. pose proof (pt_no_bound va) as Hi.
  destruct (write_entry_spec s pd V OK _ pt _ e' Hk T Hi He) as (V' & C & K & HD & HE).
  fold s' in V', C, K, HD, HE.
  assert (forall k, 0 <= k < 768 -> table s' pd k = table s pd k) as HT.
  { intros k Hk'. unfold table. by rewrite HD by lia. }
  assert (forall k' pt' i', 0 <= k' < 768 -> table s pd k' = Some pt' -> 0 <= i' < 1024 ->
    ~ (k' = pd_no va /\ i' = pt_no va) -> pte_at s' pt' i' = pte_at s pt' i') as HO.
  { intros k' pt' i' Hk' T' Hi' N. rewrite (HE k') by done. by rewrite decide_False. }
  assert (pte_at s' pt (pt_no va) = e') as Ee.
  { rewrite (HE (pd_no va)) by done. by rewrite decide_True. }
  assert (e = pte_at s pt (pt_no va)) as Eo.
  { apply pte_table in E as (pt2 & T2 & ->). rewrite T in T2. by injection T2 as <-. }
  split; try done.
  - apply store_live; [done| |done]. by eapply table_live.
  - intros q Lq N. apply (K q Lq). intros ->. apply N. right. eauto.
  - intros u U1 U2. by apply (one_entry_pte s s' pd va e).
  - intros extra P. apply (one_entry_pages s s' pd (pd_no va) pt (pt_no va)); try done.
    unfold frame_at. rewrite Ee, <- Eo. exact P.
  - intros extra P. apply (one_entry_pages s' s pd (pd_no va) pt (pt_no va)); try done.
    + intros k' Hk'. symmetry. by apply HT.
    + by rewrite HT.
    + intros k' pt' i' Hk' T' Hi' N. symmetry. apply (HO k'); try done. by rewrite <- HT.
    + unfold frame_at. rewrite Ee, <- Eo. exact P.
Qed.
End Entry.

Lemma keeps_live s s' own q : keeps s s' own -> live_page s q -> ~ own q -> live_page s' q.
Proof. intros K L N. by destruct (K q L N). Qed.

(** * Reading a mapping *)

Section Read.
Context (s : vm) (pd : Z) (V : vm_ok s) (OK : pd_ok s pd).

Lemma table_at_live va pt : 0 <= va -> is_user_vaddr va = true ->
  table s pd (pd_no va) = Some pt -> live_page s pt /\ pt + 4 * pt_no va <> NULL.
Proof.
  intros H1 H2 T. pose proof (table_live s pd OK _ _ (user_pd_no va H1 H2) T) as L.
  pose proof (live_bounds s pt V L). pose proof (pt_no_bound va). split; [done|].
  unfold PHYS_BASE, NULL in *. lia.
Qed.

(** What follows [lookup_page] without [create]. *)
Lemma lookup_then {B} va (f : Z -> VM B) (r : outcome (B * vm)) (n : VM B) :
  0 <= va -> is_user_vaddr va = true ->
  (match pte s pd va with
   | Some e => exists pt, table s pd (pd_no va) = Some pt /\ e = pte_at s pt (pt_no va) /\
       f (pt + 4 * pt_no va) s = r
   | None => n s = r
   end) ->
  (let! pte := lookup_page pd va false in if negb (pte =? NULL) then f pte else n) s = r.
Proof.
  intros H1 H2 H. destruct (pte s pd va) as [e|] eqn:E.
  - destruct H as (pt & T & _ & <-). unfold bind. rewrite (lookup_page_found s pd V OK va false pt) by done.
    cbn [obind]. destruct (table_at_live va pt H1 H2 T) as [_ N]. by rewrite (proj2 (Z.eqb_neq _ _) N).
  - subst r. unfold bind. rewrite (lookup_page_absent s pd V OK va); try done.
    unfold pte in E. by destruct (table s pd (pd_no va)).
Qed.

Lemma load_pte va pt : 0 <= va -> is_user_vaddr va = true -> table s pd (pd_no va) = Some pt ->
  load_word (pt + 4 * pt_no va) s = Ret (pte_at s pt (pt_no va), s).
Proof.
  intros H1 H2 T. apply load_live; [done|by eapply table_at_live|apply pt_no_bound].
Qed.

(** A mapped frame is a live page. *)
Lemma frame_live va e : 0 <= va -> is_user_vaddr va = true -> pte s pd va = Some e ->
  (Z.land e PTE_P =? 0) = false -> entry_page e ∈ pd_pages s pd /\ live_page s (entry_page e).
Proof.
  intros H1 H2 (pt & T & ->)%pte_table P. pose proof (user_pd_no va H1 H2) as Hk.
  pose proof (pt_no_bound va) as Hi.
  assert (entry_page (pte_at s pt (pt_no va)) ∈ pd_pages s pd) as Hin.
  { apply elem_of_app. left. apply list_elem_of_In, in_flat_map. exists (pd_no va).
    split; [apply list_elem_of_In, elem_of_seqZ; lia|]. unfold entry_pages. rewrite T.
    apply in_or_app. left. apply in_flat_map. exists (pt_no va).
    split; [apply list_elem_of_In, elem_of_seqZ; lia|]. unfold frame_at. rewrite P. by left. }
  split; [done|]. pose proof (pd_live s pd OK) as L. rewrite Forall_forall in L. auto.
Qed.

Lemma pagedir_get_page_spec va : 0 <= va -> is_user_vaddr va = true ->
  pagedir_get_page pd va s =
    Ret (match mapping s pd va with Some (page, _) => page + pg_ofs va | None => NULL end, s).
Proof.
  intros H1 H2. unfold pagedir_get_page. rewrite H2. apply lookup_then; [done..|].
  rewrite mapping_pte. destruct (pte s pd va) as [e|] eqn:E; [|done].
  destruct (pte_table _ _ _ _ E) as (pt & T & Ee). exists pt. split_and!; try done.
  unfold bind. rewrite load_pte by done. cbn [obind]. rewrite <- Ee. cbn [mbind option_bind].
  unfold mapping_of. destruct (Z.land e PTE_P =? 0) eqn:P; [done|]. cbn [negb].
  destruct (frame_live va e H1 H2 E P) as [_ L].
  pose proof (live_kernel_page s _ V L) as [[_ R] _].
  unfold lift. rewrite pte_get_page_spec; [done| |done]. by eapply pte_range.
Qed.
End Read.

(** * Adding a mapping *)

Lemma grown_trans_write s s1 s2 own new own2 : grown s s1 own new -> vm_ok s2 -> same_cpu s1 s2 ->
  keeps s1 s2 own2 -> (forall q, page_used (pages s2) q = page_used (pages s1) q) ->
  (forall q, own q -> own2 q) -> grown s s2 (fun q => own2 q /\ live_page s q) new.
Proof.
  intros [G1 G2 G3 G4 G5] V2 C2 K2 U2 HO. split; try done.
  - by eapply same_cpu_trans.
  - intros q Lq N. destruct (G3 q Lq) as [L1 P1]; [intros H; apply N; auto|].
    destruct (K2 q L1) as [L2 P2]; [intros H; apply N; auto|]. split; [done|].
    by eapply same_page_trans.
  - intros q Hq. by rewrite U2, G5.
Qed.

Lemma grown_weaken s s' (own own' : Z -> Prop) new : grown s s' own new ->
  (forall q, own q -> live_page s q -> own' q) -> grown s s' own' new.
Proof. intros [G1 G2 G3 G4 G5] H. split; try done. intros q Lq N. apply G3; auto. Qed.

Definition maps_page (s s' : vm) (pd upage : Z) (m : option (Z * bool)) : Prop :=
  forall u, 0 <= u -> is_user_vaddr u = true ->
    mapping s' pd u = if decide (pg_no u = pg_no upage) then m else mapping s pd u.

Lemma set_page_asserts s kpage : vm_ok s -> live_page s kpage ->
  pg_ofs kpage = 0 /\ exists p, vtop kpage = Ret p /\ (Z.shiftr p PTSHIFT <? init_ram_pages s) = true.
Proof.
  intros V L. pose proof (live_bounds s kpage V L) as B. destruct L as [Hm _].
  split; [by rewrite pg_ofs_mod|]. exists (kpage - PHYS_BASE). unfold vtop, is_kernel_vaddr.
  rewrite (proj2 (Z.leb_le _ _)) by lia. split; [done|].
  change PTSHIFT with 12. rewrite Z.shiftr_div_pow2 by lia. change (2 ^ 12) with 4096.
  apply Z.ltb_lt, Z.div_lt_upper_bound; lia.
Qed.

Lemma mapping_None s pd va e : pte s pd va = Some e -> mapping s pd va = None ->
  (Z.land e PTE_P =? 0) = true.
Proof. rewrite mapping_pte. intros ->. cbn. unfold mapping_of. by destruct (_ =? 0). Qed.

Section SetPage.
Context (s : vm) (pd : Z) (V : vm_ok s) (OK : pd_ok s pd) (Hpd : pd <> init_page_dir s).
Context (upage kpage : Z) (writable : bool).
Context (Hu0 : 0 <= upage) (Hua : upage mod 4096 = 0) (Huu : is_user_vaddr upage = true).
Context (Hk : live_page s kpage).

(** [pagedir_set_page] up to and including its call of [lookup_page]. *)
Lemma set_page_enter : pagedir_set_page pd upage kpage writable s =
  (let! pte := lookup_page pd upage true in
   if negb (pte =? NULL) then
     let! e := load_word pte in
     assert! Z.land e PTE_P =? 0 in
     let! w := lift (pte_create_user kpage writable) in
     let! _ := store_word pte w in
     ret true
   else ret false) s.
Proof.
  destruct (set_page_asserts s kpage V Hk) as (A & p & B & C).
  unfold pagedir_set_page. rewrite pg_ofs_mod, Hua, A, Huu. cbn [Z.eqb]. rewrite B, bind_lift_Ret.
  unfold bind at 1, gets. cbn [obind]. rewrite C. unfold bind at 1. cbn [obind].
  by rewrite (proj2 (Z.eqb_neq _ _) Hpd).
Qed.

Lemma set_page_spec : kpage ∉ pd_pages s pd -> mapping s pd upage = None ->
  (exists s' new, pagedir_set_page pd upage kpage writable s = Ret (true, s') /\
     grown s s' (node s pd) new /\ pd_ok s' pd /\ same_kernel_half s s' pd /\
     pd_pages s' pd ≡ₚ kpage :: new ++ pd_pages s pd /\
     maps_page s s' pd upage (Some (kpage, writable)) /\
     (forall q, node s' pd q -> node s pd q \/ q ∈ new) /\ same_page (mem (pages s)) (mem (pages s')) kpage /\
     (forall u e, 0 <= u -> is_user_vaddr u = true -> pg_no u <> pg_no upage ->
        pte s pd u = Some e -> pte s' pd u = Some e)) \/
  (table s pd (pd_no upage) = None /\ pool_exhausted (kernel_pool (pages s)) 1 /\
   pagedir_set_page pd upage kpage writable s = Ret (false, s)).
Proof.
  intros Hown Hm.
  destruct (lookup_page_create s pd V OK upage Hu0 Huu)
    as [(s1 & pt & new & EL & G & O1 & K1 & T1 & P1 & N1 & Q1 & M1)|(T & X & EL)].
  2:{ right. rewrite set_page_enter. unfold bind at 1. by rewrite EL. }
  left. rewrite set_page_enter. unfold bind at 1. rewrite EL. cbn [obind]. pose proof (gr_ok _ _ _ _ G) as V1.
  destruct (table_at_live s1 pd V1 O1 upage pt Hu0 Huu T1) as [Lpt NN].
  rewrite (proj2 (Z.eqb_neq _ _) NN). cbn [negb]. unfold bind at 1.
  rewrite (load_pte s1 pd V1 O1 upage pt Hu0 Huu T1). cbn [obind].
  set (e := pte_at s1 pt (pt_no upage)).
  assert (pte s1 pd upage = Some e) as E1 by (unfold pte; by rewrite T1).
  pose proof (grown_live _ _ _ _ _ G Hk) as Lk.
  pose proof (mapping_None s1 pd upage e E1 ltac:(by rewrite M1)) as PE. rewrite PE.
  destruct (pte_create_spec kpage writable (live_kernel_page s1 kpage V1 Lk))
    as (w & -> & Rw & Ew & W0 & W1).
  rewrite bind_lift_Ret.
  destruct (entry_set_spec s1 pd V1 O1 upage Hu0 Huu pt e T1 E1 w Rw)
    as [ST V2 C2 K2 HD HP HA HR HU].
  unfold bind at 1. rewrite ST. cbn [obind ret]. set (s2 := write_word _ _ _) in *.
  assert (frames_of w = [kpage]) as Fw.
  { unfold frames_of. by rewrite present_bit, W0, Ew. }
  assert (frames_of e = []) as Fe by (unfold frames_of; by rewrite PE).
  assert (pd_pages s2 pd ≡ₚ kpage :: pd_pages s1 pd) as P2.
  { apply (HA [kpage]). by rewrite Fw, Fe. }
  exists s2, new. split; [done|].
  assert (grown s s2 (node s pd) new) as G2.
  { eapply grown_weaken; [eapply (grown_trans_write s s1 s2 _ _ (node s1 pd)); try done|].
    - intros q <-. by left.
    - intros q [Nq _] [Hq Uq]. destruct (N1 q Nq) as [|Hin]; [done|]. exfalso.
      pose proof (gr_new _ _ _ _ G) as F. rewrite Forall_forall in F. rewrite (F q Hin) in Uq. done. }
  split_and!; try done.
  - apply (pd_ok_intro s1); try done.
    + rewrite P2, P1. rewrite <- P1. apply NoDup_cons. split; [|apply O1]. rewrite P1.
      intros [Hn|Hp]%elem_of_app; [|done]. destruct Hk as [_ Hk2].
      pose proof (gr_new _ _ _ _ G) as F. rewrite Forall_forall in F. rewrite (F _ Hn) in Hk2. done.
    + rewrite P2. constructor; [by destruct Lk; split; [|rewrite HU]|].
      eapply Forall_impl; [apply O1|]. intros q [Lm Lu]. split; [done|]. by rewrite HU.
  - intros k Hk'. rewrite HD by lia. by apply K1.
  - by rewrite P2, P1.
  - intros u U1 U2. rewrite mapping_pte, HP by done. destruct (decide (pg_no u = pg_no upage)).
    + cbn. unfold mapping_of. by rewrite present_bit, W0, Ew, W1.
    + by rewrite <- mapping_pte, M1.
  - intros q Nq. apply N1. destruct Nq as [-> |(k & Hk2 & Tk)]; [by left|right]. exists k.
    split; [done|]. rewrite <- Tk. unfold table. by rewrite HD by lia.
  - apply (gr_keeps _ _ _ _ G2); [done|]. intros Nk. apply Hown. by apply node_in_pages.
  - intros u ue U1 U2 N H. rewrite HP, decide_False by done. by apply Q1.
Qed.

(** Mapping a page twice fails an assertion. *)
Lemma set_page_mapped : mapping s pd upage <> None ->
  pagedir_set_page pd upage kpage writable s = Panic.
Proof.
  intros Hm. rewrite set_page_enter. unfold bind at 1. rewrite mapping_pte in Hm.
  destruct (pte s pd upage) as [e|] eqn:E; [|done]. destruct (pte_table _ _ _ _ E) as (pt & T & Ee).
  rewrite (lookup_page_found s pd V OK upage true pt) by done. cbn [obind].
  destruct (table_at_live s pd V OK upage pt Hu0 Huu T) as [Lpt NN].
  rewrite (proj2 (Z.eqb_neq _ _) NN). cbn [negb]. unfold bind at 1.
  rewrite (load_pte s pd V OK upage pt Hu0 Huu T). cbn [obind]. rewrite <- Ee.
  cbn in Hm. unfold mapping_of in Hm. by destruct (Z.land e PTE_P =? 0).
Qed.
End SetPage.

(** * Changing bits of an entry *)

Lemma testbit_u32 x j : 0 <= j -> Z.testbit (u32 x) j = (j <? 32) && Z.testbit x j.
Proof.
  intros Hj. unfold u32. destruct (j <? 32) eqn:E.
  - by rewrite Z.mod_pow2_bits_low by lia.
  - by rewrite Z.mod_pow2_bits_high by lia.
Qed.

Lemma u32_bit_high e j : in_u32 e -> 32 <= j -> Z.testbit e j = false.
Proof. intros He Hj. rewrite <- (u32_small e He). rewrite testbit_u32 by lia. lia. Qed.

(** The word with bit [i] set or cleared, as the C code computes it. *)
Definition put_bit (e i : Z) (b : bool) : Z :=
  if b then Z.lor e (2 ^ i) else Z.land e (u32 (Z.lnot (2 ^ i))).

Lemma put_bit_spec e i b : in_u32 e -> 0 <= i < 12 ->
  in_u32 (put_bit e i b) /\ Z.testbit (put_bit e i b) i = b /\
  (forall j, 0 <= j -> j <> i -> Z.testbit (put_bit e i b) j = Z.testbit e j) /\
  entry_page (put_bit e i b) = entry_page e.
Proof.
  intros He Hi.
  assert (forall j, 0 <= j -> Z.testbit (put_bit e i b) j = if decide (j = i) then b else Z.testbit e j)
    as T.
  { intros j Hj. unfold put_bit. destruct b.
    - rewrite Z.lor_spec, Z.pow2_bits_eqb by lia. case_decide; [subst; lia|].
      by rewrite (proj2 (Z.eqb_neq i j)), orb_false_r by lia.
    - rewrite Z.land_spec, testbit_u32 by lia. destruct (j <? 32) eqn:E.
      + rewrite Z.lnot_spec, Z.pow2_bits_eqb by lia. case_decide; [subst; lia|].
        by rewrite (proj2 (Z.eqb_neq i j)), andb_true_r by lia.
      + rewrite u32_bit_high by lia. by case_decide. }
  split; [|split; [|split]].
  - unfold put_bit. assert (0 < 2 ^ i < 2 ^ 32) by (split; [lia|apply Z.pow_lt_mono_r; lia]).
    destruct b; [apply (lor_small _ _ 32); lia|]. set (x := Z.land _ _).
    enough (u32 x = x) as <- by apply u32_range.
    apply Z.bits_inj'. intros j Hj. rewrite testbit_u32 by done. destruct (j <? 32) eqn:E; [done|].
    unfold x. by rewrite Z.land_spec, u32_bit_high by lia.
  - rewrite T by lia. by rewrite decide_True.
  - intros j Hj N. rewrite T by lia. by rewrite decide_False.
  - unfold entry_page. f_equal. apply Z.bits_inj'. intros j Hj. rewrite !Z.land_spec, T by lia.
    case_decide as D; [|done]. subst j. change PTE_ADDR with (Z.shiftl (Z.ones 20) 12).
    rewrite Z.shiftl_spec, Z.testbit_neg_r by lia. by rewrite !andb_false_r.
Qed.

(** * The TLB *)

(** The directory at [a] is the one CR3 refers to. *)
Definition active (s : vm) (a : Z) : Prop := kernel_page a /\ cr3 s = a - PHYS_BASE.

Definition flush (s : vm) : vm :=
  mk_vm (pages s) (cr3 s) ∅ (init_page_dir s) (init_ram_pages s).

Lemma vtop_kernel a : kernel_page a -> vtop a = Ret (a - PHYS_BASE).
Proof. intros [H _]. unfold vtop, is_kernel_vaddr. by rewrite (proj2 (Z.leb_le _ _)) by lia. Qed.

Lemma active_pd_spec s a : active s a -> active_pd s = Ret (a, s).
Proof.
  intros [[H _] E]. unfold active_pd, bind, gets, lift, ptov, PHYS_BASE in *. cbn [obind].
  rewrite E, (proj2 (Z.ltb_lt _ _)), u32_small by lia. cbn [obind]. do 2 f_equal. lia.
Qed.

Lemma pagedir_activate_spec s pd : pd <> NULL -> kernel_page pd ->
  pagedir_activate pd s =
    Ret (tt, mk_vm (pages s) (pd - PHYS_BASE) ∅ (init_page_dir s) (init_ram_pages s)).
Proof.
  intros N K. unfold pagedir_activate, bind, gets. cbn [obind]. rewrite (proj2 (Z.eqb_neq _ _) N).
  unfold lift. by rewrite vtop_kernel.
Qed.

Lemma pagedir_activate_null s : kernel_page (init_page_dir s) ->
  pagedir_activate NULL s = Ret (tt, mk_vm (pages s) (init_page_dir s - PHYS_BASE) ∅
                                       (init_page_dir s) (init_ram_pages s)).
Proof. intros K. unfold pagedir_activate, bind, gets. cbn. by rewrite vtop_kernel. Qed.

Lemma kernel_page_not_null a : kernel_page a -> a <> NULL.
Proof. intros [H _]. unfold PHYS_BASE, NULL in *. lia. Qed.

Lemma invalidate_pagedir_spec s a pd : active s a ->
  invalidate_pagedir pd s = Ret (tt, if decide (a = pd) then flush s else s).
Proof.
  intros A. unfold invalidate_pagedir, bind. rewrite (active_pd_spec s a A). cbn [obind].
  destruct (decide (a = pd)) as [->|N].
  - rewrite Z.eqb_refl. destruct A as [K E].
    rewrite pagedir_activate_spec by (done || by apply kernel_page_not_null). by rewrite <- E.
  - by rewrite (proj2 (Z.eqb_neq _ _) N).
Qed.

(** What the CPU has cached for user pages agrees with the tables of the active directory: same
    frame, and no flag that the table does not have.  A flag set in the table but not in the cache
    only makes the CPU walk the tables again. *)
Definition cache_agrees (e e' : Z) : Prop :=
  entry_page e = entry_page e' /\
  forall i, i ∈ [0; 1; 2; 5; 6] -> Z.testbit e i = true -> Z.testbit e' i = true.
Definition tlb_coherent (s : vm) (a : Z) : Prop :=
  forall v e, tlb s !! v = Some e -> 0 <= v < 786432 ->
    Z.testbit e 0 = true /\ exists e', pte s a (4096 * v) = Some e' /\ cache_agrees e e'.

(** What is in the tables depends on memory alone. *)
Lemma same_pages_view s s' pd : pages s' = pages s ->
  pd_pages s' pd = pd_pages s pd /\ (forall k, pde s' pd k = pde s pd k) /\
  (forall va, pte s' pd va = pte s pd va).
Proof.
  intros E. split; [|split].
  - apply pd_frame. intros q _ x _. by rewrite E.
  - intros k. unfold pde. by rewrite E.
  - intros va. unfold pte, table, pde, pte_at. by rewrite E.
Qed.

Lemma flush_coherent s a : tlb_coherent (flush s) a.
Proof. intros v e H. change (tlb (flush s)) with (∅ : gmap Z Z) in H. by rewrite lookup_empty in H. Qed.

(** * Clearing mappings and flags *)

(** [s'] is [s] with the entry of [va] replaced by [e'], and the TLB emptied if [clears] and the
    directory is active. *)
Record entry_changed (s s' : vm) (pd va e e' : Z) (clears : bool) (a : Z) : Prop := {
  ec_ok : vm_ok s';
  ec_pde : forall k, 0 <= k < 1024 -> pde s' pd k = pde s pd k;
  ec_keeps : keeps s s' (node s pd);
  ec_pte : forall u, 0 <= u -> is_user_vaddr u = true ->
    pte s' pd u = if decide (pg_no u = pg_no va) then Some e' else pte s pd u;
  ec_used : forall q, page_used (pages s') q = page_used (pages s) q;
  ec_cpu : same_cpu (if clears && bool_decide (a = pd) then flush s else s) s'
}.

Section Change.
Context (s : vm) (pd a : Z) (V : vm_ok s) (OK : pd_ok s pd) (A : active s a).
Context (va : Z) (H1 : 0 <= va) (H2 : is_user_vaddr va = true).

Lemma change_entry pt e e' (clears : bool) : table s pd (pd_no va) = Some pt -> pte s pd va = Some e ->
  in_u32 e' -> exists s',
  (let! _ := store_word (pt + 4 * pt_no va) e' in
   if clears then invalidate_pagedir pd else ret tt) s = Ret (tt, s') /\
  entry_changed s s' pd va e e' clears a /\
  (forall extra, frames_of e ≡ₚ extra ++ frames_of e' -> pd_pages s pd ≡ₚ extra ++ pd_pages s' pd).
Proof.
  intros T E R. destruct (entry_set_spec s pd V OK va H1 H2 pt e T E e' R)
    as [ST V2 C2 K2 HD HP HA HR HU]. set (s1 := write_word _ _ _) in *.
  unfold bind. rewrite ST. cbn [obind]. destruct clears.
  - assert (active s1 a) as A1 by exact A. rewrite (invalidate_pagedir_spec s1 a pd A1).
    eexists. split; [reflexivity|]. destruct (decide (a = pd)) as [Ea|N].
    + destruct (same_pages_view s1 (flush s1) pd eq_refl) as (PP & PD & PT).
      split; [|by rewrite PP]. split; [| |exact K2| |exact HU|].
      * destruct V2 as [V2a V2b]. split; [exact V2a|exact V2b].
      * intros k Hk. rewrite PD. by apply HD.
      * intros u U1 U2. rewrite PT. by apply HP.
      * rewrite bool_decide_true by exact Ea. repeat split.
    + split; [|exact HR]. split; [exact V2|exact HD|exact K2|exact HP|exact HU|].
      rewrite bool_decide_false by exact N. exact C2.
  - exists s1. split; [reflexivity|]. split; [|exact HR].
    split; [exact V2|exact HD|exact K2|exact HP|exact HU|exact C2].
Qed.

Lemma mapping_Some e page w : pte s pd va = Some e -> mapping s pd va = Some (page, w) ->
  (Z.land e PTE_P =? 0) = false /\ entry_page e = page /\ Z.testbit e 1 = w.
Proof. rewrite mapping_pte. intros ->. cbn. unfold mapping_of. by destruct (_ =? 0); intros [= <- <-]. Qed.

Lemma pagedir_clear_page_spec : va mod 4096 = 0 ->
  match mapping s pd va with
  | None => pagedir_clear_page pd va s = Ret (tt, s)
  | Some (page, _) => exists s' e e', pagedir_clear_page pd va s = Ret (tt, s') /\
      pte s pd va = Some e /\ Z.testbit e' 0 = false /\
      entry_changed s s' pd va e e' true a /\ pd_pages s pd ≡ₚ page :: pd_pages s' pd
  end.
Proof.
  intros Ha. unfold pagedir_clear_page. rewrite pg_ofs_mod, Ha, H2. cbn [Z.eqb].
  destruct (mapping s pd va) as [[page w]|] eqn:M.
  - rewrite mapping_pte in M. destruct (pte s pd va) as [e|] eqn:E; [|done].
    destruct (pte_table _ _ _ _ E) as (pt & T & Ee).
    destruct (mapping_Some e page w E) as (P & EP & W); [by rewrite mapping_pte, E|].
    pose proof (pte_range _ _ _ _ E) as R.
    destruct (put_bit_spec e 0 false R) as (R' & T0 & TO & EP'); [lia|].
    destruct (change_entry pt e (put_bit e 0 false) true T E R') as (s' & ES & EC & HR).
    exists s', e, (put_bit e 0 false). split_and!; try done.
    + apply (lookup_then s pd V OK); [done..|]. rewrite E. exists pt. split_and!; try done.
      unfold bind at 1. rewrite (load_pte s pd V OK va pt H1 H2 T). cbn [obind].
      rewrite <- Ee, P. exact ES.
    + apply (HR [page]). unfold frames_of. rewrite P, present_bit, T0. by rewrite EP.
  - apply (lookup_then s pd V OK); [done..|].
    destruct (pte s pd va) as [e|] eqn:E; [|done]. destruct (pte_table _ _ _ _ E) as (pt & T & Ee).
    exists pt. split_and!; try done. unfold bind at 1.
    rewrite (load_pte s pd V OK va pt H1 H2 T). cbn [obind]. rewrite <- Ee.
    by rewrite (mapping_None s pd va e E M).
Qed.

Lemma set_bit_spec i b : 0 <= i < 12 -> i <> 0 ->
  match pte s pd va with
  | None => set_bit (2 ^ i) pd va b s = Ret (tt, s)
  | Some e => exists s', set_bit (2 ^ i) pd va b s = Ret (tt, s') /\
      entry_changed s s' pd va e (put_bit e i b) (negb b) a /\ pd_pages s' pd ≡ₚ pd_pages s pd
  end.
Proof.
  intros Hi N. unfold set_bit. destruct (pte s pd va) as [e|] eqn:E.
  - destruct (pte_table _ _ _ _ E) as (pt & T & Ee). pose proof (pte_range _ _ _ _ E) as R.
    destruct (put_bit_spec e i b R Hi) as (R' & T0 & TO & EP').
    destruct (change_entry pt e (put_bit e i b) (negb b) T E R') as (s' & ES & EC & HR).
    exists s'. split_and!; try done.
    + apply (lookup_then s pd V OK); [done..|]. rewrite E. exists pt. split_and!; try done.
      unfold bind at 1. rewrite (load_pte s pd V OK va pt H1 H2 T). cbn [obind]. rewrite <- Ee.
      rewrite <- ES. destruct b; [|done]. unfold put_bit. cbn [negb].
      unfold bind at 1. by destruct (store_word _ _ s) as [[[] ?]| | |].
    + symmetry. apply (HR []). unfold frames_of.
      rewrite !present_bit, TO, EP' by lia. done.
  - apply (lookup_then s pd V OK); [done..|]. by rewrite E.
Qed.

Lemma test_bit_spec bit : test_bit bit pd va s =
  Ret (match pte s pd va with Some e => negb (Z.land e bit =? 0) | None => false end, s).
Proof.
  unfold test_bit. apply (lookup_then s pd V OK); [done..|].
  destruct (pte s pd va) as [e|] eqn:E; [|done]. destruct (pte_table _ _ _ _ E) as (pt & T & Ee).
  exists pt. split_and!; try done. unfold bind. rewrite (load_pte s pd V OK va pt H1 H2 T).
  cbn [obind]. by rewrite <- Ee.
Qed.
End Change.
