(* ===== verification/AddressSpaces.v ===== *)
(** The address spaces of all processes together: creation and destruction of page directories, the
    steps by which the kernel and the CPU change memory, and the invariant they keep. *)
From S2P Require Import Prelude Bitmap Vaddr Palloc Pagedir PagedirFacts PagedirProps.

(** * Destruction *)

(** [s'] is [s] with the pages [l] given back. *)
Record freed (s s' : vm) (l : list Z) : Prop := {
  fr_ok : vm_ok s';
  fr_cpu : same_cpu s s';
  fr_used : forall q, q mod 4096 = 0 ->
    page_used (pages s') q = page_used (pages s) q && negb (bool_decide (q ∈ l));
  fr_same : forall q, live_page s q -> q ∉ l -> same_page (mem (pages s)) (mem (pages s')) q
}.

Lemma freed_nil s : vm_ok s -> freed s s [].
Proof.
  intros V. split; try done. intros q Hq. rewrite bool_decide_false by set_solver.
  by rewrite andb_true_r.
Qed.

Lemma freed_live s s' l q : freed s s' l -> live_page s q -> q ∉ l -> live_page s' q.
Proof.
  intros F [Hm Hu] N. split; [done|]. rewrite (fr_used _ _ _ F) by done.
  by rewrite Hu, bool_decide_false.
Qed.

Lemma freed_trans s1 s2 s3 l1 l2 : freed s1 s2 l1 -> freed s2 s3 l2 -> freed s1 s3 (l1 ++ l2).
Proof.
  intros F1 F2. split.
  - apply F2.
  - eapply same_cpu_trans; [apply F1|apply F2].
  - intros q Hq. rewrite (fr_used _ _ _ F2), (fr_used _ _ _ F1) by done.
    destruct (decide (q ∈ l1)), (decide (q ∈ l2));
      rewrite ?(bool_decide_true (q ∈ l1)), ?(bool_decide_false (q ∈ l1)),
        ?(bool_decide_true (q ∈ l2)), ?(bool_decide_false (q ∈ l2)) by done;
      (rewrite bool_decide_true by (apply elem_of_app; tauto)) ||
      (rewrite bool_decide_false by (rewrite elem_of_app; tauto));
      by destruct (page_used (pages s1) q).
  - intros q L N. rewrite elem_of_app in N. eapply same_page_trans.
    + apply (fr_same _ _ _ F1); tauto.
    + apply (fr_same _ _ _ F2); [|tauto]. apply (freed_live _ _ _ _ F1); tauto.
Qed.

Lemma free_page_freed s q : vm_ok s -> live_page s q ->
  exists s', free_page q s = Ret (tt, s') /\ freed s s' [q].
Proof.
  intros V L. destruct (free_page_spec s q V L) as (s' & E & V' & C & M & U). exists s'.
  split; [done|]. split; try done.
  - intros r Hr. rewrite U by done. case_decide; case_bool_decide as D;
      rewrite list_elem_of_singleton in D; try done; by destruct (page_used _ r).
  - intros r [Lm Lu] N. rewrite M. apply same_page_memset; [apply L|done|]. set_solver.
Qed.

(** The tables met later are not among the pages freed earlier. *)
Lemma frame_at_freed s s' l pt i : freed s s' l -> live_page s pt -> pt ∉ l -> 0 <= i < 1024 ->
  pte_at s' pt i = pte_at s pt i.
Proof. intros F L N Hi. apply pte_at_frame; [|done]. by apply (fr_same _ _ _ F). Qed.

Lemma destroy_ptes_spec n : forall s pt i, vm_ok s -> live_page s pt -> 0 <= i ->
  i + Z.of_nat n = 1024 -> let l := flat_map (frame_at s pt) (seqZ i (Z.of_nat n)) in
  NoDup l -> Forall (live_page s) l -> pt ∉ l ->
  exists s', destroy_ptes n (pt + 4 * i) s = Ret (tt, s') /\ freed s s' l.
Proof.
  induction n as [|n IH]; intros s pt i V L Hi Hn l ND LV N.
  { exists s. split; [done|]. by apply freed_nil. }
  assert (l = frame_at s pt i ++ flat_map (frame_at s pt) (seqZ (i + 1) (Z.of_nat n))) as El.
  { unfold l. rewrite seqZ_cons by lia. simpl. do 3 f_equal; lia. }
  rewrite El in ND, LV, N. rewrite El. clear l El.
  set (rest := flat_map _ _) in *. apply NoDup_app in ND as (_ & D & ND).
  apply Forall_app in LV as [LV1 LV2]. rewrite elem_of_app in N.
  assert (exists s1, (let! e := load_word (pt + 4 * i) in
     if negb (Z.land e PTE_P =? 0) then let! page := lift (pte_get_page e) in free_page page
     else ret tt) s = Ret (tt, s1) /\ freed s s1 (frame_at s pt i)) as (s1 & E1 & F1).
  { unfold bind at 1. rewrite load_live by (done || lia). cbn [obind].
    unfold frame_at in *. fold (pte_at s pt i). destruct (Z.land (pte_at s pt i) PTE_P =? 0).
    - exists s. split; [done|]. by apply freed_nil.
    - cbn [negb]. inv LV1. pose proof (live_kernel_page s _ V H1) as [[_ R] _].
      rewrite pte_get_page_spec by (done || apply mem_word_range). rewrite bind_lift_Ret.
      by apply free_page_freed. }
  assert (pt ∉ frame_at s pt i) as N1 by tauto.
  assert (rest = flat_map (frame_at s1 pt) (seqZ (i + 1) (Z.of_nat n))) as Er.
  { unfold rest. symmetry. apply flat_map_ext_in. intros j Hj%elem_of_seqZ. unfold frame_at.
    by rewrite (frame_at_freed s s1 _ pt j F1 L N1) by lia. }
  destruct (IH s1 pt (i + 1)) as (s2 & E2 & F2); try lia.
  - apply F1.
  - by apply (freed_live s s1 _ _ F1).
  - by rewrite <- Er.
  - rewrite <- Er. apply Forall_forall. intros q Hq. rewrite Forall_forall in LV2.
    apply (freed_live s s1 _ _ F1); [auto|]. intros Hq'. by apply (D q).
  - rewrite <- Er. tauto.
  - exists s2. rewrite <- Er in F2. split; [|by eapply freed_trans].
    unfold bind in E1 |- *. cbn [destroy_ptes]. unfold bind.
    rewrite load_live in E1 |- * by (done || lia). cbn [obind] in E1 |- *. rewrite E1. cbn [obind].
    rewrite <- E2. f_equal. lia.
Qed.

Lemma destroy_pdes_spec n : forall s pd k, vm_ok s -> live_page s pd -> 0 <= k ->
  k + Z.of_nat n = 768 -> let l := flat_map (entry_pages s pd) (seqZ k (Z.of_nat n)) in
  (forall j pt, k <= j < 768 -> table s pd j = Some pt -> pde_create pt = Ret (pde s pd j)) ->
  NoDup l -> Forall (live_page s) l -> pd ∉ l ->
  exists s', destroy_pdes n (pd + 4 * k) s = Ret (tt, s') /\ freed s s' l.
Proof.
  induction n as [|n IH]; intros s pd k V L Hk Hn l PE ND LV N.
  { exists s. split; [done|]. by apply freed_nil. }
  assert (l = entry_pages s pd k ++ flat_map (entry_pages s pd) (seqZ (k + 1) (Z.of_nat n))) as El.
  { unfold l. rewrite seqZ_cons by lia. simpl. do 3 f_equal; lia. }
  rewrite El in ND, LV, N. rewrite El. clear l El.
  set (rest := flat_map _ (seqZ (k + 1) _)) in *. apply NoDup_app in ND as (ND1 & D & ND).
  apply Forall_app in LV as [LV1 LV2]. rewrite elem_of_app in N.
  assert (exists s1, (let! e := load_word (pd + 4 * k) in
     if negb (Z.land e PTE_P =? 0) then
       let! pt := lift (pde_get_pt e) in
       let! _ := destroy_ptes (Z.to_nat (PGSIZE / 4)) pt in free_page pt
     else ret tt) s = Ret (tt, s1) /\ freed s s1 (entry_pages s pd k)) as (s1 & E1 & F1).
  { unfold bind at 1. rewrite load_live by (done || lia). cbn [obind].
    fold (pde s pd k). unfold entry_pages in *. destruct (table s pd k) as [pt|] eqn:T.
    - unfold table_pages in *. apply NoDup_app in ND1 as (ND1 & D1 & _).
      apply Forall_app in LV1 as [LV1 Lpt]. inv Lpt. rename H1 into Lpt.
      destruct (pde_create_spec pt (live_kernel_page s pt V Lpt)) as (e & Ee & _ & _ & _ & G & P).
      rewrite (PE k pt) in Ee by (done || lia). injection Ee as <-.
      assert (pt ∉ flat_map (frame_at s pt) (seqZ 0 1024)) as Npt.
      { intros H. apply (D1 pt); [done|]. apply list_elem_of_singleton. reflexivity. }
      rewrite P, G. cbn [negb]. rewrite bind_lift_Ret.
      destruct (destroy_ptes_spec (Z.to_nat (PGSIZE / 4)) s pt 0) as (s1 & E1 & F1); try done.
      rewrite Z.mul_0_r, Z.add_0_r in E1. unfold bind. rewrite E1. cbn [obind].
      destruct (free_page_freed s1 pt (fr_ok _ _ _ F1)) as (s2 & E2 & F2).
      { by apply (freed_live s s1 _ _ F1). }
      exists s2. split; [done|]. by apply (freed_trans s s1 s2).
    - unfold table in T. destruct (pde s pd k =? 0) eqn:Z0; [|done].
      apply Z.eqb_eq in Z0. rewrite Z0. exists s. split; [done|]. by apply freed_nil. }
  assert (pd ∉ entry_pages s pd k) as N1 by tauto.
  assert (same_page (mem (pages s)) (mem (pages s1)) pd) as SP by (by apply (fr_same _ _ _ F1)).
  assert (forall j, 0 <= j < 1024 -> pde s1 pd j = pde s pd j) as HD.
  { intros j Hj. unfold pde. by rewrite (same_page_word _ _ _ _ SP Hj). }
  assert (forall j pt, k + 1 <= j < 768 -> table s pd j = Some pt -> pt ∈ rest) as TR.
  { intros j pt Hj T. apply list_elem_of_In, in_flat_map. exists j.
    split; apply list_elem_of_In; [apply elem_of_seqZ; lia|]. unfold entry_pages. rewrite T.
    apply table_pages_self. }
  assert (rest = flat_map (entry_pages s1 pd) (seqZ (k + 1) (Z.of_nat n))) as Er.
  { unfold rest. symmetry. apply flat_map_ext_in. intros j Hj%elem_of_seqZ. unfold entry_pages.
    rewrite (table_frame s s1) by (done || lia). destruct (table s pd j) as [pt|] eqn:T; [|done].
    assert (pt ∈ rest) as Hr by (apply (TR j); [lia|done]).
    apply table_pages_frame, (fr_same _ _ _ F1).
    - rewrite Forall_forall in LV2. auto.
    - intros H. by apply (D pt). }
  destruct (IH s1 pd (k + 1)) as (s2 & E2 & F2); try lia.
  - apply F1.
  - by apply (freed_live s s1 _ _ F1).
  - intros j pt Hj T. rewrite HD by lia. apply PE; [lia|]. rewrite <- T. unfold table. by rewrite HD by lia.
  - by rewrite <- Er.
  - rewrite <- Er. apply Forall_forall. intros q Hq. rewrite Forall_forall in LV2.
    apply (freed_live s s1 _ _ F1); [auto|]. intros Hq'. by apply (D q).
  - rewrite <- Er. tauto.
  - exists s2. rewrite <- Er in F2. split; [|by eapply freed_trans].
    cbn [destroy_pdes]. unfold bind at 1 in E1. unfold bind at 1 2.
    rewrite load_live in E1 |- * by (done || lia). cbn [obind] in E1 |- *.
    rewrite E1. cbn [obind]. rewrite <- E2. f_equal. lia.
Qed.

Lemma pagedir_destroy_spec s pd : vm_ok s -> pd_ok s pd -> pd <> init_page_dir s ->
  exists s', pagedir_destroy pd s = Ret (tt, s') /\ freed s s' (pd_pages s pd).
Proof.
  intros V OK N. unfold pagedir_destroy. pose proof (pd_is_live s pd OK) as L.
  rewrite (proj2 (Z.eqb_neq pd NULL) (pd_not_null s pd V OK)). unfold bind at 1, gets. cbn [obind].
  rewrite (proj2 (Z.eqb_neq _ _) N). cbn [negb].
  pose proof (pd_nodup s pd OK) as ND. pose proof (pd_live s pd OK) as LV. unfold pd_pages in *.
  apply NoDup_app in ND as (ND & D & _). apply Forall_app in LV as [LV _].
  assert (pd ∉ flat_map (entry_pages s pd) (seqZ 0 768)) as Npd.
  { intros H. apply (D pd); [done|]. apply list_elem_of_singleton. reflexivity. }
  destruct (destroy_pdes_spec (Z.to_nat (pd_no PHYS_BASE)) s pd 0) as (s1 & E1 & F1); try done.
  { intros j pt Hj. by apply (pd_entries s pd OK). }
  rewrite Z.mul_0_r, Z.add_0_r in E1. unfold bind. rewrite E1. cbn [obind].
  destruct (free_page_freed s1 pd (fr_ok _ _ _ F1)) as (s2 & E2 & F2).
  { by apply (freed_live s s1 _ _ F1). }
  exists s2. split; [done|]. by apply (freed_trans s s1 s2).
Qed.

(** * All address spaces *)

(** The kernel's own directory and its tables, which all directories share. *)
Definition kernel_nodes (s : vm) : list Z :=
  init_page_dir s :: omap (table s (init_page_dir s)) (seqZ 768 256).

(** [pds] are the directories of the processes. *)
Record spaces_ok (s : vm) (pds : list Z) : Prop := {
  so_vm : vm_ok s;
  so_pds : forall pd, pd ∈ pds -> pd_ok s pd;
  so_nodup : NoDup (flat_map (pd_pages s) pds ++ kernel_nodes s);
  so_klive : Forall (live_page s) (kernel_nodes s);
  so_kuser : forall k, 0 <= k < 768 -> pde s (init_page_dir s) k = 0;
  so_khalf : forall pd k, pd ∈ pds -> 768 <= k < 1024 -> pde s pd k = pde s (init_page_dir s) k
}.

Definition owned (s : vm) (pds : list Z) : list Z := flat_map (pd_pages s) pds ++ kernel_nodes s.

Lemma elem_of_flat_map {A B} (f : A -> list B) l b : b ∈ flat_map f l <-> exists a, a ∈ l /\ b ∈ f a.
Proof. rewrite list_elem_of_In, in_flat_map. setoid_rewrite list_elem_of_In. done. Qed.

Lemma owned_pd s pds pd q : pd ∈ pds -> q ∈ pd_pages s pd -> q ∈ owned s pds.
Proof. intros H1 H2. apply elem_of_app. left. apply elem_of_flat_map. eauto. Qed.

Lemma owned_kernel s pds q : q ∈ kernel_nodes s -> q ∈ owned s pds.
Proof. intros H. apply elem_of_app. by right. Qed.

Lemma owned_live s pds q : spaces_ok s pds -> q ∈ owned s pds -> live_page s q.
Proof.
  intros SO [(pd & H1 & H2)%elem_of_flat_map|H]%elem_of_app.
  - pose proof (pd_live s pd (so_pds _ _ SO pd H1)) as L. rewrite Forall_forall in L. auto.
  - pose proof (so_klive _ _ SO) as L. rewrite Forall_forall in L. auto.
Qed.

Lemma kernel_nodes_frame s s' : init_page_dir s' = init_page_dir s ->
  same_page (mem (pages s)) (mem (pages s')) (init_page_dir s) ->
  kernel_nodes s' = kernel_nodes s /\
  forall k, 0 <= k < 1024 -> pde s' (init_page_dir s') k = pde s (init_page_dir s) k.
Proof.
  intros E SP. unfold kernel_nodes. rewrite E. split.
  - f_equal. apply list_omap_ext. apply Forall_Forall2_diag, Forall_forall.
    intros k Hk%elem_of_seqZ. by apply table_frame; [|lia].
  - intros k Hk. unfold pde. by rewrite (same_page_word _ _ _ _ SP Hk).
Qed.

(** The order of the directories does not matter. *)
Lemma spaces_perm s pds pds' : pds ≡ₚ pds' -> spaces_ok s pds -> spaces_ok s pds'.
Proof.
  intros P [H1 H2 H3 H4 H5 H6]. split; try done.
  - intros pd Hpd. apply H2. by rewrite P.
  - assert (flat_map (pd_pages s) pds ≡ₚ flat_map (pd_pages s) pds') as P'.
    { clear -P. induction P; simpl.
      - done.
      - by f_equiv.
      - rewrite !app_assoc. f_equiv. apply Permutation_app_comm.
      - by etrans. }
    by rewrite <- P'.
  - intros pd k Hpd. apply H6. by rewrite P.
Qed.

Lemma spaces_cons s pd pds : spaces_ok s (pd :: pds) <->
  spaces_ok s pds /\ pd_ok s pd /\ (forall q, q ∈ pd_pages s pd -> q ∉ owned s pds) /\
  (forall k, 768 <= k < 1024 -> pde s pd k = pde s (init_page_dir s) k).
Proof.
  split.
  - intros [H1 H2 H3 H4 H5 H6]. simpl in H3. rewrite <- app_assoc in H3.
    apply NoDup_app in H3 as (_ & D & ND). split_and!.
    + split; try done; intros; [apply H2|apply H6]; try done; by right.
    + apply H2. by left.
    + done.
    + intros k. apply H6. by left.
  - intros ([H1 H2 H3 H4 H5 H6] & OK & D & K). split; try done.
    + intros p [-> |Hp]%elem_of_cons; auto.
    + simpl. rewrite <- app_assoc. apply NoDup_app. split_and!; [apply OK|done|done].
    + intros p k [-> |Hp]%elem_of_cons; auto.
Qed.

(** A step that changes no node and frees no owned page. *)
Lemma spaces_frame s s' pds : spaces_ok s pds -> vm_ok s' -> init_page_dir s' = init_page_dir s ->
  (forall q, q ∈ owned s pds -> live_page s' q) ->
  (forall q, q ∈ kernel_nodes s \/ (exists pd, pd ∈ pds /\ node s pd q) ->
     same_page (mem (pages s)) (mem (pages s')) q) ->
  spaces_ok s' pds /\ owned s' pds = owned s pds /\
  (forall pd va, pd ∈ pds -> 0 <= va -> is_user_vaddr va = true -> pte s' pd va = pte s pd va).
Proof.
  intros SO V' E L SP.
  assert (forall pd, pd ∈ pds -> forall q, node s pd q ->
    same_page (mem (pages s)) (mem (pages s')) q) as SN by eauto.
  assert (forall pd, pd ∈ pds -> pd_pages s' pd = pd_pages s pd) as PP.
  { intros pd Hpd. apply (pd_frame s s' pd (SN pd Hpd)). }
  destruct (kernel_nodes_frame s s' E) as [KN KP]; [apply SP; left; by left|].
  assert (flat_map (pd_pages s') pds = flat_map (pd_pages s) pds) as FM by (by apply flat_map_ext_in).
  split_and!.
  - split; try done.
    + intros pd Hpd. apply (pd_ok_frame s); [by apply SO|by apply SN|]. intros q Hq.
      apply L. by eapply owned_pd.
    + rewrite FM, KN. apply SO.
    + rewrite KN. apply Forall_forall. intros q Hq. apply L. by apply owned_kernel.
    + intros k Hk. rewrite KP by lia. by apply (so_kuser _ _ SO).
    + intros pd k Hpd Hk. rewrite KP by lia.
      rewrite (proj1 (proj2 (pd_frame s s' pd (SN pd Hpd)))) by lia. by apply (so_khalf _ _ SO).
  - unfold owned. by rewrite FM, KN.
  - intros pd va Hpd. apply (pd_frame s s' pd (SN pd Hpd)).
Qed.

(** ** Creation *)

Lemma mem_word_memcpy m d src i : 0 <= i < 1024 ->
  mem_word (memcpy_block m d src 4096) (d + 4 * i) = mem_word m (src + 4 * i).
Proof.
  intros Hi. unfold mem_word, memcpy_block.
  replace ((d <=? d + 4 * i) && (d + 4 * i <? d + 4096)) with true by lia.
  replace ((d <=? d + 4 * i + 1) && (d + 4 * i + 1 <? d + 4096)) with true by lia.
  replace ((d <=? d + 4 * i + 2) && (d + 4 * i + 2 <? d + 4096)) with true by lia.
  replace ((d <=? d + 4 * i + 3) && (d + 4 * i + 3 <? d + 4096)) with true by lia.
  replace (src + (d + 4 * i - d)) with (src + 4 * i) by lia.
  replace (src + (d + 4 * i + 1 - d)) with (src + 4 * i + 1) by lia.
  replace (src + (d + 4 * i + 2 - d)) with (src + 4 * i + 2) by lia.
  by replace (src + (d + 4 * i + 3 - d)) with (src + 4 * i + 3) by lia.
Qed.

Lemma pagedir_create_spec s pds : spaces_ok s pds ->
  (exists s' pd, pagedir_create s = Ret (pd, s') /\ pd <> NULL /\ pd ∉ pds /\ pd <> init_page_dir s /\
     grown s s' (fun _ => False) [pd] /\ spaces_ok s' (pd :: pds) /\ pd_pages s' pd = [pd] /\
     (forall p va, p ∈ pds -> 0 <= va -> is_user_vaddr va = true -> pte s' p va = pte s p va)) \/
  (pool_exhausted (kernel_pool (pages s)) 1 /\ pagedir_create s = Ret (NULL, s)).
Proof.
  intros SO. pose proof (so_vm _ _ SO) as V.
  destruct (get_page_spec s 0 V) as [(s1 & pd & E & N & [V1 L1 U1 US1 C1] & M)|[X E]].
  2:{ right. split; [exact X|]. unfold pagedir_create, bind. rewrite E. done. }
  left. set (s' := change_mem s1 (memcpy_block (mem (pages s1)) pd (init_page_dir s1) PGSIZE)).
  exists s', pd. change (has_flag 0 PAL_ZERO) with false in M.
  assert (init_page_dir s1 = init_page_dir s) as EI by apply C1.
  assert (vm_ok s') as V' by (by apply vm_ok_change_mem).
  assert (forall q, live_page s q -> q <> pd) as NP by (intros q [_ Hq] ->; congruence).
  assert (forall q, live_page s q -> live_page s' q /\ same_page (mem (pages s)) (mem (pages s')) q) as K.
  { intros q Lq. split.
    - destruct Lq as [Lm Lu]. split; [done|]. change (page_used (pages s1) q = true).
      rewrite US1, Lu by done. by case_decide.
    - change (mem (pages s')) with (memcpy_block (mem (pages s1)) pd (init_page_dir s1) 4096).
      rewrite M. apply same_page_memcpy; [apply L1|apply Lq|]. apply not_eq_sym. by apply NP. }
  assert (grown s s' (fun _ => False) [pd]) as G.
  { split; try done.
    - intros q Lq _. auto.
    - by constructor.
    - intros q Hq. change (page_used (pages s1) q = bool_decide (q ∈ [pd]) || page_used (pages s) q).
      rewrite US1 by done. case_decide; case_bool_decide as D; rewrite list_elem_of_singleton in D; done. }
  destruct (spaces_frame s s' pds SO V' EI) as (SO' & OW & PT).
  { intros q Hq. by apply K, (owned_live s pds). }
  { intros q [Hq|(p & Hp & Hq%node_in_pages)]; apply K, (owned_live s pds); try done.
    - by apply owned_kernel.
    - by eapply owned_pd. }
  assert (forall k, 0 <= k < 1024 -> pde s' pd k = pde s' (init_page_dir s') k) as HD.
  { intros k Hk. destruct (kernel_nodes_frame s s' EI) as [_ KP].
    { apply K, (owned_live s pds); [done|]. apply owned_kernel. by left. }
    rewrite KP by done. unfold pde.
    change (mem (pages s')) with (memcpy_block (mem (pages s1)) pd (init_page_dir s1) 4096).
    by rewrite mem_word_memcpy, M, EI by done. }
  assert (forall k, 0 <= k < 768 -> table s' pd k = None) as HT.
  { intros k Hk. unfold table. rewrite HD by lia. by rewrite (so_kuser _ _ SO') by lia. }
  assert (pd_pages s' pd = [pd]) as PP.
  { unfold pd_pages. rewrite (flat_map_ext_in (fun _ => [])).
    - clear. by induction (seqZ 0 768).
    - intros k Hk%elem_of_seqZ. unfold entry_pages. by rewrite HT by lia. }
  assert (pd ∉ owned s pds) as NO.
  { intros H. apply (NP pd); [|done]. by apply (owned_live s pds). }
  split_and!; try done.
  - unfold pagedir_create, bind. rewrite E. cbn [obind]. by rewrite (proj2 (Z.eqb_neq _ _) N).
  - intros H. apply NO. eapply owned_pd; [done|]. apply node_in_pages. by left.
  - intros ->. apply NO. apply owned_kernel. by left.
  - apply spaces_cons. split_and!; [done| | |].
    + split.
      * intros k pt Hk T. by rewrite HT in T.
      * rewrite PP. apply NoDup_singleton.
      * rewrite PP. constructor; [exact L1|done].
    + rewrite PP, OW. intros q ->%list_elem_of_singleton. done.
    + intros k Hk. apply HD. lia.
Qed.

(** ** Changes to one directory *)

Lemma node_owned s pds pd q : pd ∈ pds -> node s pd q -> q ∈ owned s pds.
Proof. intros H N. eapply owned_pd; [done|]. by apply node_in_pages. Qed.

Lemma split_pds s pds pd : spaces_ok s pds -> pd ∈ pds -> exists rest, pds ≡ₚ pd :: rest /\
  spaces_ok s rest /\ pd_ok s pd /\ (forall q, q ∈ pd_pages s pd -> q ∉ owned s rest) /\
  (forall q, q ∈ owned s rest -> q ∈ owned s pds) /\
  (forall k, 768 <= k < 1024 -> pde s pd k = pde s (init_page_dir s) k).
Proof.
  intros SO H. destruct (proj1 (elem_of_Permutation _ _) H) as (rest & P). exists rest.
  split; [done|]. pose proof (spaces_perm _ _ _ P SO) as SO'.
  apply spaces_cons in SO' as (SO' & OK & D & K). split_and!; try done.
  intros q [(p & H1 & H2)%elem_of_flat_map|Hq]%elem_of_app; [|by apply owned_kernel].
  apply owned_pd with p; [|done]. rewrite P. by right.
Qed.

Lemma spaces_update s s' pds pd : spaces_ok s pds -> pd ∈ pds -> vm_ok s' ->
  init_page_dir s' = init_page_dir s -> keeps s s' (node s pd) -> pd_ok s' pd ->
  (forall k, 768 <= k < 1024 -> pde s' pd k = pde s pd k) ->
  (forall q, q ∈ pd_pages s' pd -> q ∈ pd_pages s pd \/ q ∉ owned s pds) ->
  spaces_ok s' pds /\
  (forall p va, p ∈ pds -> p <> pd -> 0 <= va -> is_user_vaddr va = true -> pte s' p va = pte s p va).
Proof.
  intros SO Hpd V' E K OK' HK HN.
  destruct (split_pds s pds pd SO Hpd) as (rest & P & SR & OK & D & OI & KH).
  assert (forall q, q ∈ owned s rest -> live_page s' q /\ same_page (mem (pages s)) (mem (pages s')) q)
    as KR.
  { intros q Hq. apply K; [by apply (owned_live s rest)|]. intros N. apply (D q); [|done].
    by apply node_in_pages. }
  destruct (spaces_frame s s' rest SR V' E) as (SR' & OW & PT).
  { intros q Hq. by apply KR. }
  { intros q [Hq|(p & Hp & Hq)]; apply KR; [by apply owned_kernel|by eapply node_owned]. }
  split.
  - apply (spaces_perm s' (pd :: rest)); [done|]. apply spaces_cons. split_and!; try done.
    + intros q Hq. rewrite OW. destruct (HN q Hq) as [Hq'|Hn]; [by apply D|]. intros H. apply Hn. auto.
    + intros k Hk. rewrite HK, KH by done. symmetry. apply kernel_nodes_frame; [done| |lia].
      apply KR, owned_kernel. by left.
  - intros p va Hp N. rewrite P in Hp. apply elem_of_cons in Hp as [|Hp]; [done|]. by apply PT.
Qed.

(** * The invariant and the steps *)

(** [a] is the active directory. *)
Record kernel_ok (s : vm) (pds : list Z) (a : Z) : Prop := {
  ko_spaces : spaces_ok s pds;
  ko_active : active s a;
  ko_in : a = init_page_dir s \/ a ∈ pds;
  ko_tlb : tlb_coherent s a
}.

(** A memory access of the CPU in user mode to page [v]: it walks the tables of the active
    directory, sets the accessed and, for a write, the dirty flag, and caches the entry. *)
Definition cpu_flags (e : Z) (write : bool) : Z :=
  let e := put_bit e 5 true in if write then put_bit e 6 true else e.
Definition cpu_access (s : vm) (a v : Z) (write : bool) : option vm :=
  pt ← table s a (pd_no (4096 * v));
  let e := pte_at s pt (pt_no (4096 * v)) in
  if negb (Z.land e PTE_P =? 0) && (negb write || Z.testbit e 1) then
    let e' := cpu_flags e write in
    let s := write_word s (pt + 4 * pt_no (4096 * v)) e' in
    Some (mk_vm (pages s) (cr3 s) (<[v := e']> (tlb s)) (init_page_dir s) (init_ram_pages s))
  else None.

(** What the kernel and the CPU do.  The side conditions are what the callers of the routines see
    to: an active directory is not destroyed, a page is mapped only while no directory owns it, and
    memory is written and freed only outside directories and tables. *)
Inductive vm_step : vm * list Z * Z -> vm * list Z * Z -> Prop :=
  | step_create s pds a s' pd : pagedir_create s = Ret (pd, s') -> pd <> NULL ->
      vm_step (s, pds, a) (s', pd :: pds, a)
  | step_create_fail s pds a s' : pagedir_create s = Ret (NULL, s') ->
      vm_step (s, pds, a) (s', pds, a)
  | step_destroy s pds a s' pd rest : pds ≡ₚ pd :: rest -> a <> pd ->
      pagedir_destroy pd s = Ret (tt, s') -> vm_step (s, pds, a) (s', rest, a)
  | step_set s pds a s' pd upage kpage w r : pd ∈ pds -> 0 <= upage -> upage mod 4096 = 0 ->
      is_user_vaddr upage = true -> live_page s kpage -> kpage ∉ owned s pds ->
      pagedir_set_page pd upage kpage w s = Ret (r, s') -> vm_step (s, pds, a) (s', pds, a)
  | step_clear s pds a s' pd upage : pd ∈ pds -> 0 <= upage -> upage mod 4096 = 0 ->
      is_user_vaddr upage = true -> pagedir_clear_page pd upage s = Ret (tt, s') ->
      vm_step (s, pds, a) (s', pds, a)
  | step_dirty s pds a s' pd va b : pd ∈ pds -> 0 <= va -> is_user_vaddr va = true ->
      pagedir_set_dirty pd va b s = Ret (tt, s') -> vm_step (s, pds, a) (s', pds, a)
  | step_accessed s pds a s' pd va b : pd ∈ pds -> 0 <= va -> is_user_vaddr va = true ->
      pagedir_set_accessed pd va b s = Ret (tt, s') -> vm_step (s, pds, a) (s', pds, a)
  | step_activate s pds a s' pd : pd ∈ pds -> pagedir_activate pd s = Ret (tt, s') ->
      vm_step (s, pds, a) (s', pds, pd)
  | step_activate_kernel s pds a s' : pagedir_activate NULL s = Ret (tt, s') ->
      vm_step (s, pds, a) (s', pds, init_page_dir s)
  | step_alloc s pds a s' flags q : get_page flags s = Ret (q, s') -> vm_step (s, pds, a) (s', pds, a)
  | step_free s pds a s' q : live_page s q -> q ∉ owned s pds -> free_page q s = Ret (tt, s') ->
      vm_step (s, pds, a) (s', pds, a)
  | step_write s pds a q m : live_page s q -> q ∉ kernel_nodes s ->
      (forall pd, pd ∈ pds -> ~ node s pd q) ->
      (forall x, ~ (q <= x < q + 4096) -> m x = mem (pages s) x) ->
      vm_step (s, pds, a) (change_mem s m, pds, a)
  | step_access s pds a s' v write : 0 <= v < 786432 -> cpu_access s a v write = Some s' ->
      vm_step (s, pds, a) (s', pds, a).

(** ** Coherence of the TLB *)

Lemma cache_agrees_refl e : cache_agrees e e.
Proof. by split. Qed.
Lemma cache_agrees_trans e1 e2 e3 : cache_agrees e1 e2 -> cache_agrees e2 e3 -> cache_agrees e1 e3.
Proof. intros [E1 H1] [E2 H2]. split; [congruence|]. eauto. Qed.

Lemma tlb_empty_coherent s a : tlb s = ∅ -> tlb_coherent s a.
Proof. intros E v e L. by rewrite E, lookup_empty in L. Qed.

Lemma tlb_transfer s s' a : tlb_coherent s a -> tlb s' = tlb s ->
  (forall va e, 0 <= va -> is_user_vaddr va = true -> pte s a va = Some e ->
     Z.testbit e 0 = true -> exists e', pte s' a va = Some e' /\ cache_agrees e e') ->
  tlb_coherent s' a.
Proof.
  intros TC E H v e L Hv. rewrite E in L.
  destruct (TC v e L Hv) as (T0 & e1 & P1 & C1). split; [done|].
  destruct (H (4096 * v) e1) as (e2 & P2 & C2); [lia| |done| |].
  - unfold is_user_vaddr, PHYS_BASE. lia.
  - destruct C1 as [_ C1]. by apply (C1 0); [set_solver|].
  - exists e2. split; [done|]. by eapply cache_agrees_trans.
Qed.

Lemma kernel_pte_none s pds va : spaces_ok s pds -> 0 <= va -> is_user_vaddr va = true ->
  pte s (init_page_dir s) va = None.
Proof.
  intros SO H1 H2. unfold pte, table. by rewrite (so_kuser _ _ SO) by (by apply user_pd_no).
Qed.

Lemma active_same_cpu s s' a : same_cpu s s' -> active s a -> active s' a.
Proof. intros (E & _) [K A]. split; [done|]. by rewrite E. Qed.

(** A step that leaves the CPU alone and every mapping as it was. *)
Lemma kernel_ok_quiet s s' pds pds' a : kernel_ok s pds a -> spaces_ok s' pds' -> same_cpu s s' ->
  (a = init_page_dir s \/ a ∈ pds') ->
  (forall pd va, pd ∈ pds -> pd ∈ pds' -> 0 <= va -> is_user_vaddr va = true ->
     pte s' pd va = pte s pd va) -> kernel_ok s' pds' a.
Proof.
  intros [SO A I T] SO' C I' PT. pose proof C as (C1 & C2 & C3 & C4). split; try done.
  - by eapply active_same_cpu.
  - by rewrite C3.
  - apply (tlb_transfer s); [done|done|]. intros va e H1 H2 Ha T0.
    exists e. split; [|apply cache_agrees_refl].
    destruct I as [-> | I]; [by rewrite (kernel_pte_none s pds) in Ha|].
    destruct I' as [-> | I']; [by rewrite (kernel_pte_none s pds) in Ha|].
    by rewrite PT.
Qed.

Lemma user_vpage v : 0 <= v < 786432 -> 0 <= 4096 * v /\ is_user_vaddr (4096 * v) = true /\
  pg_no (4096 * v) = v.
Proof.
  intros H. unfold is_user_vaddr, PHYS_BASE. rewrite pg_no_div, Z.mul_comm, Z.div_mul by done. lia.
Qed.

(** ** Each step keeps the invariant *)

Lemma change_step s s' pds a pd va e e' clears extra : kernel_ok s pds a -> pd ∈ pds ->
  pte s pd va = Some e -> entry_changed s s' pd va e e' clears a ->
  pd_pages s pd ≡ₚ extra ++ pd_pages s' pd -> (clears = false -> cache_agrees e e') ->
  kernel_ok s' pds a.
Proof.
  intros [SO A I T] Hpd Pe [V' HD K HP HU C] PP CA.
  assert (cr3 s' = cr3 s /\ init_page_dir s' = init_page_dir s /\
    tlb s' = if clears && bool_decide (a = pd) then ∅ else tlb s) as (C1 & C3 & C2).
  { destruct C as (C1 & C2 & C3 & _). rewrite C1, C2, C3. by destruct (clears && _). }
  assert (pd_ok s pd) as OK by (by apply SO).
  assert (pd_ok s' pd) as OK'.
  { apply (pd_ok_intro s); [done..| |].
    - pose proof (pd_nodup s pd OK) as N. rewrite PP in N. by apply NoDup_app in N as (_ & _ & N).
    - pose proof (pd_live s pd OK) as L. rewrite PP in L. apply Forall_app in L as [_ L].
      eapply Forall_impl; [exact L|]. intros q [Lm Lu]. split; [done|]. by rewrite HU. }
  destruct (spaces_update s s' pds pd SO Hpd V' C3 K OK') as [SO' PT].
  { intros k Hk. apply HD. lia. }
  { intros q Hq. left. rewrite PP. apply elem_of_app. by right. }
  split; [done| |by rewrite C3|].
  { destruct A as [A1 A2]. split; [done|]. by rewrite C1. }
  destruct (clears && bool_decide (a = pd)) eqn:F; [by apply tlb_empty_coherent|].
  apply (tlb_transfer s); [done..|]. intros u ue U1 U2 Hu T0.
  destruct I as [-> | I]; [by rewrite (kernel_pte_none s pds) in Hu|].
  destruct (decide (a = pd)) as [->|N].
  - rewrite HP by done. destruct (decide (pg_no u = pg_no va)) as [D|].
    + exists e'. split; [done|]. apply same_vpage in D as [D1 D2].
      assert (ue = e) as ->. { unfold pte in *. rewrite D1, D2 in Hu. congruence. }
      apply CA. rewrite bool_decide_true, andb_true_r in F by done. done.
    + eauto using cache_agrees_refl.
  - rewrite PT by done. eauto using cache_agrees_refl.
Qed.

Lemma put_bit_agrees e i : in_u32 e -> 0 <= i < 12 -> cache_agrees e (put_bit e i true).
Proof.
  intros R Hi. destruct (put_bit_spec e i true R Hi) as (_ & T & TO & E). split; [done|].
  intros j Hj H. destruct (decide (j = i)) as [->|N]; [done|]. rewrite TO; [done| |done].
  assert (0 <= j); [|done]. clear -Hj. set_solver by lia.
Qed.

Lemma bit_step s s' pds a pd va i b : kernel_ok s pds a -> pd ∈ pds -> 0 <= va ->
  is_user_vaddr va = true -> 0 <= i < 12 -> i <> 0 -> set_bit (2 ^ i) pd va b s = Ret (tt, s') ->
  kernel_ok s' pds a.
Proof.
  intros KO Hpd H1 H2 Hi N E. pose proof KO as [SO A _ _].
  pose proof (set_bit_spec s pd a (so_vm _ _ SO) (so_pds _ _ SO pd Hpd) A va H1 H2 i b Hi N) as S.
  destruct (pte s pd va) as [e|] eqn:Pe; [|congruence]. destruct S as (s1 & E1 & EC & PP).
  rewrite E in E1. injection E1 as <-.
  apply (change_step s s' pds a pd va e (put_bit e i b) (negb b) []); try done.
  destruct b; [|done]. intros _. apply put_bit_agrees; [by eapply pte_range|done].
Qed.

Lemma clear_step s s' pds a pd upage : kernel_ok s pds a -> pd ∈ pds -> 0 <= upage ->
  upage mod 4096 = 0 -> is_user_vaddr upage = true -> pagedir_clear_page pd upage s = Ret (tt, s') ->
  kernel_ok s' pds a.
Proof.
  intros KO Hpd H1 Ha H2 E. pose proof KO as [SO A _ _].
  pose proof (pagedir_clear_page_spec s pd a (so_vm _ _ SO) (so_pds _ _ SO pd Hpd) A upage H1 H2 Ha)
    as S.
  destruct (mapping s pd upage) as [[page w]|]; [|congruence].
  destruct S as (s1 & e & e' & E1 & Pe & _ & EC & PP). rewrite E in E1. injection E1 as <-.
  by apply (change_step s s' pds a pd upage e e' true [page]).
Qed.

Lemma set_step s s' pds a pd upage kpage w r : kernel_ok s pds a -> pd ∈ pds -> 0 <= upage ->
  upage mod 4096 = 0 -> is_user_vaddr upage = true -> live_page s kpage -> kpage ∉ owned s pds ->
  pagedir_set_page pd upage kpage w s = Ret (r, s') -> kernel_ok s' pds a.
Proof.
  intros [SO A I T] Hpd H1 Ha H2 Lk Nk E.
  pose proof (so_vm _ _ SO) as V. pose proof (so_pds _ _ SO pd Hpd) as OK.
  assert (pd <> init_page_dir s) as Npd.
  { intros ->. pose proof (so_nodup _ _ SO) as N. apply NoDup_app in N as (_ & D & _).
    apply (D (init_page_dir s)); [|by left]. apply elem_of_flat_map. exists (init_page_dir s).
    split; [done|]. apply node_in_pages. by left. }
  destruct (mapping s pd upage) eqn:M.
  { rewrite set_page_mapped in E; congruence. }
  assert (kpage ∉ pd_pages s pd) as Nk' by (intros H; apply Nk; by eapply owned_pd).
  destruct (set_page_spec s pd V OK Npd upage kpage w H1 Ha H2 Lk Nk' M)
    as [(s1 & new & E1 & G & OK1 & K1 & PP & MP & _ & _ & QP)|(_ & _ & E1)]; rewrite E in E1; injection E1 as -> <-.
  2:{ by split. }
  destruct (spaces_update s s' pds pd SO Hpd) as [SO' PT]; try done.
  - apply G.
  - apply (gr_cpu _ _ _ _ G).
  - apply G.
  - intros q Hq. rewrite PP in Hq. apply elem_of_cons in Hq as [-> |Hq]; [by right|].
    apply elem_of_app in Hq as [Hq|Hq]; [|by left]. right. intros Ho.
    destruct (owned_live s pds q SO Ho) as [_ Lu]. pose proof (gr_new _ _ _ _ G) as F.
    rewrite Forall_forall in F. by rewrite (F q Hq) in Lu.
  - pose proof (gr_cpu _ _ _ _ G) as C. pose proof C as (C1 & C2 & C3 & C4). split; try done.
    + by eapply active_same_cpu.
    + by rewrite C3.
    + apply (tlb_transfer s); [done..|]. intros u ue U1 U2 Hu T0.
      destruct I as [-> | I]; [by rewrite (kernel_pte_none s pds) in Hu|].
      destruct (decide (a = pd)) as [->|N]; [|rewrite PT by done; eauto using cache_agrees_refl].
      exists ue. split; [|apply cache_agrees_refl]. apply QP; [done..| |done].
      intros D. apply same_vpage in D as [D1 D2].
      assert (pte s pd upage = Some ue) as Hp by (unfold pte in *; by rewrite D1, D2 in Hu).
      pose proof (mapping_None s pd upage ue Hp M) as P. by rewrite present_bit, T0 in P.
Qed.

Lemma create_step s s' pds a pd : kernel_ok s pds a -> pagedir_create s = Ret (pd, s') ->
  kernel_ok s' (if decide (pd = NULL) then pds else pd :: pds) a.
Proof.
  intros KO E. pose proof KO as [SO A I T].
  destruct (pagedir_create_spec s pds SO)
    as [(s1 & p & E1 & N & Np & Ni & G & SO' & PP & PT)|[_ E1]];
    rewrite E in E1; injection E1 as -> <-.
  - rewrite decide_False by done.
    apply (kernel_ok_quiet s s' pds); [done|done|apply (gr_cpu _ _ _ _ G)| |].
    + destruct I as [|I]; [by left|right; by right].
    + intros q va Hq _. by apply PT.
  - by rewrite decide_True.
Qed.

Lemma destroy_step s s' pds a pd rest : kernel_ok s pds a -> pds ≡ₚ pd :: rest -> a <> pd ->
  pagedir_destroy pd s = Ret (tt, s') -> kernel_ok s' rest a.
Proof.
  intros KO P N E. pose proof KO as [SO A I T].
  pose proof (spaces_perm _ _ _ P SO) as SO2. apply spaces_cons in SO2 as (SR & OK & D & KH).
  assert (pd <> init_page_dir s) as Ni.
  { intros ->. apply (D (init_page_dir s)); [apply node_in_pages; by left|].
    apply owned_kernel. by left. }
  destruct (pagedir_destroy_spec s pd (so_vm _ _ SO) OK Ni) as (s1 & E1 & F).
  rewrite E in E1. injection E1 as <-. pose proof (fr_cpu _ _ _ F) as C.
  assert (forall q, q ∈ owned s rest -> live_page s q /\ q ∉ pd_pages s pd) as HO.
  { intros q Hq. split; [by apply (owned_live s rest)|]. intros H. by apply (D q). }
  destruct (spaces_frame s s' rest SR) as (SR' & _ & PT).
  - apply F.
  - apply C.
  - intros q Hq. destruct (HO q Hq). by apply (freed_live s s' _ _ F).
  - intros q Hq. assert (q ∈ owned s rest) as Ho.
    { destruct Hq as [Hq|(p & Hp & Hq)]; [by apply owned_kernel|by eapply node_owned]. }
    destruct (HO q Ho). by apply (fr_same _ _ _ F).
  - apply (kernel_ok_quiet s s' pds); [done|done|exact C| |].
    + destruct I as [|I]; [by left|right]. rewrite P in I. by apply elem_of_cons in I as [|].
    + intros q va _ Hq. by apply PT.
Qed.

(** Directories look the same when only the CPU registers differ. *)
Lemma spaces_same_pages s s' pds : pages s' = pages s -> init_page_dir s' = init_page_dir s ->
  init_ram_pages s' = init_ram_pages s -> spaces_ok s pds -> spaces_ok s' pds.
Proof.
  intros E1 E2 E3 SO. pose proof (so_vm _ _ SO) as [V1 V2].
  apply (spaces_frame s s' pds SO); [split; [by rewrite E1|by rewrite E1, E3]|done| |].
  - intros q Hq. pose proof (owned_live s pds q SO Hq) as [L1 L2]. split; [done|]. by rewrite E1.
  - intros q _ x _. by rewrite E1.
Qed.

Lemma activate_step s s' pds a pd : kernel_ok s pds a -> pd = NULL \/ pd ∈ pds ->
  pagedir_activate pd s = Ret (tt, s') ->
  kernel_ok s' pds (if decide (pd = NULL) then init_page_dir s else pd).
Proof.
  intros [SO A I T] Hpd E. pose proof (so_vm _ _ SO) as V.
  assert (exists p, p = (if decide (pd = NULL) then init_page_dir s else pd) /\ kernel_page p /\
    (p = init_page_dir s \/ p ∈ pds) /\
    s' = mk_vm (pages s) (p - PHYS_BASE) ∅ (init_page_dir s) (init_ram_pages s))
    as (p & <- & K & Hp & ->).
  { eexists. split; [reflexivity|]. destruct (decide (pd = NULL)) as [->|N].
    - assert (kernel_page (init_page_dir s)) as K.
      { apply (live_kernel_page s); [done|]. apply (owned_live s pds); [done|]. apply owned_kernel. by left. }
      rewrite pagedir_activate_null in E by done. injection E as <-. auto.
    - destruct Hpd as [|Hpd]; [done|].
      assert (kernel_page pd) as K.
      { apply (live_kernel_page s); [done|]. apply pd_is_live. by apply SO. }
      rewrite pagedir_activate_spec in E by done. injection E as <-. auto. }
  split; [by apply (spaces_same_pages s)|by split|done|by apply tlb_empty_coherent].
Qed.

Lemma alloc_step s s' pds a flags q : kernel_ok s pds a -> get_page flags s = Ret (q, s') ->
  kernel_ok s' pds a.
Proof.
  intros KO E. pose proof KO as [SO A I T].
  destruct (get_page_spec s flags (so_vm _ _ SO)) as [(s1 & p & E1 & N & G & M)|[_ E1]];
    rewrite E in E1.
  2:{ destruct (has_flag flags PAL_ASSERT); [done|]. by injection E1 as -> <-. }
  injection E1 as <- <-. destruct G as [V1 L1 U1 US C].
  destruct (spaces_frame s s' pds SO V1) as (SO' & _ & PT).
  - apply C.
  - intros r Hr. destruct (owned_live s pds r SO Hr) as [Lm Lu]. split; [done|].
    rewrite US, Lu by done. by case_decide.
  - intros r Hr x Hx. rewrite M. destruct (has_flag flags PAL_ZERO); [|done].
    assert (r ∈ owned s pds) as Ho.
    { destruct Hr as [Hr|(pd & Hp & Hr)]; [by apply owned_kernel|by eapply node_owned]. }
    destruct (owned_live s pds r SO Ho) as [Lm Lu].
    apply (same_page_memset _ q 0 r); [apply L1|done| |done]. congruence.
  - apply (kernel_ok_quiet s s' pds); [done..|]. intros pd va Hp _. by apply PT.
Qed.

Lemma free_step s s' pds a q : kernel_ok s pds a -> live_page s q -> q ∉ owned s pds ->
  free_page q s = Ret (tt, s') -> kernel_ok s' pds a.
Proof.
  intros KO L N E. pose proof KO as [SO A I T].
  destruct (free_page_freed s q (so_vm _ _ SO) L) as (s1 & E1 & F). rewrite E in E1.
  injection E1 as <-. pose proof (fr_cpu _ _ _ F) as C.
  assert (forall r, r ∈ owned s pds -> live_page s r /\ r ∉ [q]) as HO.
  { intros r Hr. split; [by apply (owned_live s pds)|]. intros ->%list_elem_of_singleton. done. }
  destruct (spaces_frame s s' pds SO) as (SO' & _ & PT).
  - apply F.
  - apply C.
  - intros r Hr. destruct (HO r Hr). by apply (freed_live s s' _ _ F).
  - intros r Hr. assert (r ∈ owned s pds) as Ho.
    { destruct Hr as [Hr|(pd & Hp & Hr)]; [by apply owned_kernel|by eapply node_owned]. }
    destruct (HO r Ho). by apply (fr_same _ _ _ F).
  - apply (kernel_ok_quiet s s' pds); [done..|]. intros pd va Hp _. by apply PT.
Qed.

Lemma write_step s pds a q m : kernel_ok s pds a -> live_page s q -> q ∉ kernel_nodes s ->
  (forall pd, pd ∈ pds -> ~ node s pd q) ->
  (forall x, ~ (q <= x < q + 4096) -> m x = mem (pages s) x) -> kernel_ok (change_mem s m) pds a.
Proof.
  intros KO L Nk Np Hm. pose proof KO as [SO A I T].
  assert (forall r, live_page s r -> r <> q -> same_page (mem (pages s)) m r) as SP.
  { intros r [Lr _] N x Hx. apply Hm. destruct L as [Lq _].
    destruct (page_disjoint r q Lr Lq N); lia. }
  destruct (spaces_frame s (change_mem s m) pds SO) as (SO' & _ & PT).
  - apply vm_ok_change_mem, SO.
  - done.
  - intros r Hr. destruct (owned_live s pds r SO Hr) as [Lm Lu]. by split.
  - intros r Hr. apply SP.
    + apply (owned_live s pds); [done|].
      destruct Hr as [Hr|(pd & Hp & Hr)]; [by apply owned_kernel|by eapply node_owned].
    + intros ->. destruct Hr as [Hr|(pd & Hp & Hr)]; [done|]. by apply (Np pd).
  - apply (kernel_ok_quiet s _ pds); [done..|]. intros pd va Hp _. by apply PT.
Qed.

Lemma cpu_flags_spec e write : in_u32 e ->
  in_u32 (cpu_flags e write) /\ cache_agrees e (cpu_flags e write) /\
  Z.testbit (cpu_flags e write) 0 = Z.testbit e 0 /\
  entry_page (cpu_flags e write) = entry_page e.
Proof.
  intros R. unfold cpu_flags.
  destruct (put_bit_spec e 5 true R) as (R1 & _ & T1 & E1); [lia|].
  pose proof (put_bit_agrees e 5 R ltac:(lia)) as C1. destruct write.
  - destruct (put_bit_spec _ 6 true R1) as (R2 & _ & T2 & E2); [lia|].
    pose proof (put_bit_agrees _ 6 R1 ltac:(lia)) as C2.
    split; [lia|]. split; [by eapply cache_agrees_trans|]. rewrite T2, T1, E2, E1 by lia. done.
  - split; [lia|]. split; [done|]. by rewrite T1, E1 by lia.
Qed.

Lemma access_step s s' pds a v write : kernel_ok s pds a -> 0 <= v < 786432 ->
  cpu_access s a v write = Some s' -> kernel_ok s' pds a.
Proof.
  intros KO Hv E. pose proof KO as [SO A I T]. destruct (user_vpage v Hv) as (U1 & U2 & U3).
  unfold cpu_access in E. destruct (table s a (pd_no (4096 * v))) as [pt|] eqn:Tb; [|done].
  cbn [mbind option_bind] in E. set (e := pte_at s pt (pt_no (4096 * v))) in *.
  assert (pte s a (4096 * v) = Some e) as Pe by (unfold pte; by rewrite Tb).
  destruct (negb (Z.land e PTE_P =? 0) && _) eqn:G; [|done]. injection E as <-.
  apply andb_true_iff in G as [P _]. rewrite present_bit, negb_involutive in P.
  destruct I as [-> | I]; [by rewrite (kernel_pte_none s pds) in Pe|].
  pose proof (pte_range _ _ _ _ Pe) as R. destruct (cpu_flags_spec e write R) as (R' & CA & T0 & EP).
  destruct (entry_set_spec s a (so_vm _ _ SO) (so_pds _ _ SO a I) (4096 * v) U1 U2 pt e Tb Pe
    (cpu_flags e write) R') as [ST V2 C2 K2 HD HP HA HR HU].
  set (s1 := write_word _ _ _) in *.
  assert (kernel_ok s1 pds a) as [SO1 A1 I1 T1].
  { apply (change_step s s1 pds a a (4096 * v) e (cpu_flags e write) false []); try done.
    apply (HR []). unfold frames_of. by rewrite !present_bit, T0, EP. }
  split; [by apply (spaces_same_pages s1)|exact A1|by right|].
  intros v' e0 L Hv'. cbn [tlb] in L.
  match goal with |- _ /\ exists e', pte ?x a _ = _ /\ _ =>
    destruct (same_pages_view s1 x a eq_refl) as (_ & _ & PT) end. rewrite PT.
  destruct (decide (v' = v)) as [->|N].
  - rewrite lookup_insert_eq in L. injection L as <-. split; [by rewrite T0|].
    exists (cpu_flags e write). split; [|apply cache_agrees_refl].
    rewrite HP by done. by rewrite decide_True.
  - rewrite lookup_insert_ne in L by done. by apply T1.
Qed.

Lemma vm_step_ok s s' pds pds' a a' : kernel_ok s pds a ->
  vm_step (s, pds, a) (s', pds', a') -> kernel_ok s' pds' a'.
Proof.
  intros KO St. inv St.
  - pose proof (create_step s s' pds a' pd KO) as H. rewrite decide_False in H; auto.
  - pose proof (create_step s s' pds' a' NULL KO) as H. rewrite decide_True in H; auto.
  - by eapply destroy_step.
  - by eapply set_step.
  - by eapply clear_step.
  - by apply (bit_step s s' pds' a' pd va 6 b).
  - by apply (bit_step s s' pds' a' pd va 5 b).
  - pose proof (activate_step s s' pds' a a' KO) as H. rewrite decide_False in H; [auto|].
    eapply pd_not_null; [apply KO|]. by apply KO.
  - pose proof (activate_step s s' pds' a NULL KO) as H. rewrite decide_True in H; auto.
  - by eapply alloc_step.
  - by eapply free_step.
  - by eapply write_step.
  - by eapply access_step.
Qed.

Lemma vm_steps_ok x y : rtc vm_step x y -> kernel_ok x.1.1 x.1.2 x.2 -> kernel_ok y.1.1 y.1.2 y.2.
Proof.
  induction 1 as [|[[s pds] a] [[s' pds'] a'] z St R IH]; [done|]. intros KO. apply IH.
  by eapply vm_step_ok.
Qed.

(** * Isolation *)

Lemma mapping_frame s pd u f w : 0 <= u -> is_user_vaddr u = true -> mapping s pd u = Some (f, w) ->
  exists pt, table s pd (pd_no u) = Some pt /\ f ∈ frame_at s pt (pt_no u).
Proof.
  intros H1 H2 M. rewrite mapping_pte in M. destruct (pte s pd u) as [e|] eqn:E; [|done].
  destruct (pte_table _ _ _ _ E) as (pt & T & ->). exists pt. split; [done|].
  cbn in M. unfold mapping_of, frame_at in *. destruct (_ =? 0); [done|].
  injection M as <- _. by left.
Qed.

Lemma frame_in_entry s pd k pt i f : 0 <= i < 1024 -> table s pd k = Some pt -> f ∈ frame_at s pt i ->
  f ∈ flat_map (frame_at s pt) (seqZ 0 1024) /\ f ∈ entry_pages s pd k.
Proof.
  intros Hi T F. assert (f ∈ flat_map (frame_at s pt) (seqZ 0 1024)) as H.
  { apply elem_of_flat_map. exists i. split; [apply elem_of_seqZ; lia|done]. }
  split; [done|]. unfold entry_pages, table_pages. rewrite T. apply elem_of_app. by left.
Qed.

Lemma table_nodup s pd k pt : pd_ok s pd -> 0 <= k < 768 -> table s pd k = Some pt ->
  NoDup (table_pages s pt).
Proof.
  intros OK Hk T. pose proof (pd_nodup s pd OK) as N. unfold pd_pages in N.
  apply NoDup_app in N as (N & _ & _).
  assert (k ∈ seqZ 0 768) as Hin by (apply elem_of_seqZ; lia).
  apply list_elem_of_split in Hin as (l1 & l2 & El). rewrite El, flat_map_app in N. simpl in N.
  apply NoDup_app in N as (_ & _ & N). apply NoDup_app in N as (N & _ & _).
  unfold entry_pages in N. by rewrite T in N.
Qed.

Lemma entry_in_pages s pd k q : 0 <= k < 768 -> q ∈ entry_pages s pd k ->
  q ∈ flat_map (entry_pages s pd) (seqZ 0 768) /\ q ∈ pd_pages s pd.
Proof.
  intros Hk Q. assert (q ∈ flat_map (entry_pages s pd) (seqZ 0 768)) as H.
  { apply elem_of_flat_map. exists k. split; [apply elem_of_seqZ; lia|done]. }
  split; [done|]. apply elem_of_app. by left.
Qed.

(** A mapped frame is in use, and no node of the directory. *)
Lemma frame_apart s pd u f w : pd_ok s pd -> 0 <= u -> is_user_vaddr u = true ->
  mapping s pd u = Some (f, w) -> f ∈ pd_pages s pd /\ live_page s f /\ ~ node s pd f.
Proof.
  intros OK A B M. destruct (mapping_frame s pd u f w A B M) as (pt & T & F).
  pose proof (user_pd_no u A B) as K.
  destruct (frame_in_entry s pd _ pt _ f (pt_no_bound u) T F) as [G E].
  destruct (entry_in_pages s pd _ f K E) as [Hf Hp]. split; [done|].
  pose proof (pd_live s pd OK) as L. rewrite Forall_forall in L. split; [by apply L|].
  pose proof (pd_nodup s pd OK) as N. unfold pd_pages in N. apply NoDup_app in N as (N & D & _).
  intros [-> | (k & Hk & Tk)]; [apply (D pd Hf); by apply list_elem_of_singleton|].
  assert (k = pd_no u) as ->.
  { apply (flat_map_disjoint _ _ _ _ f N); try (apply elem_of_seqZ; lia); [|done].
    unfold entry_pages. rewrite Tk. apply table_pages_self. }
  rewrite T in Tk. injection Tk as ->. pose proof (table_nodup s pd _ f OK K T) as Nt.
  unfold table_pages in Nt. apply NoDup_app in Nt as (_ & DD & _). apply (DD f G).
  by apply list_elem_of_singleton.
Qed.

Section Isolation.
Context (s : vm) (pds : list Z) (SO : spaces_ok s pds).

Lemma pages_apart pd1 pd2 q : pd1 ∈ pds -> pd2 ∈ pds -> q ∈ pd_pages s pd1 -> q ∈ pd_pages s pd2 ->
  pd1 = pd2.
Proof.
  intros H1 H2 Q1 Q2. pose proof (so_nodup _ _ SO) as N. apply NoDup_app in N as (N & _ & _).
  by apply (flat_map_disjoint _ _ _ _ q N).
Qed.

Lemma mapping_unique pd1 pd2 u1 u2 f w1 w2 : pd1 ∈ pds -> pd2 ∈ pds ->
  0 <= u1 -> is_user_vaddr u1 = true -> 0 <= u2 -> is_user_vaddr u2 = true ->
  mapping s pd1 u1 = Some (f, w1) -> mapping s pd2 u2 = Some (f, w2) ->
  pd1 = pd2 /\ pg_no u1 = pg_no u2.
Proof.
  intros P1 P2 A1 B1 A2 B2 M1 M2.
  destruct (mapping_frame s pd1 u1 f w1 A1 B1 M1) as (pt1 & T1 & F1).
  destruct (mapping_frame s pd2 u2 f w2 A2 B2 M2) as (pt2 & T2 & F2).
  pose proof (user_pd_no u1 A1 B1) as K1. pose proof (user_pd_no u2 A2 B2) as K2.
  destruct (frame_in_entry s pd1 _ pt1 _ f (pt_no_bound u1) T1 F1) as [G1 E1].
  destruct (frame_in_entry s pd2 _ pt2 _ f (pt_no_bound u2) T2 F2) as [G2 E2].
  assert (pd1 = pd2) as ->.
  { apply (pages_apart pd1 pd2 f); [done|done| |].
    - apply (entry_in_pages s pd1 _ f K1 E1).
    - apply (entry_in_pages s pd2 _ f K2 E2). }
  split; [done|]. pose proof (pd_nodup s pd2 (so_pds _ _ SO _ P2)) as N. unfold pd_pages in N.
  apply NoDup_app in N as (N & _ & _).
  assert (pd_no u1 = pd_no u2) as Ek.
  { apply (flat_map_disjoint _ _ _ _ f N); try (apply elem_of_seqZ; lia); done. }
  rewrite <- Ek in T2. rewrite T1 in T2. injection T2 as <-.
  apply same_vpage. split; [done|].
  pose proof (table_nodup s pd2 _ pt1 (so_pds _ _ SO _ P2) K1 T1) as Nt.
  unfold table_pages in Nt. apply NoDup_app in Nt as (Nt & _ & _).
  apply (flat_map_disjoint _ _ _ _ f Nt); try (apply elem_of_seqZ; pose proof (pt_no_bound u1); pose proof (pt_no_bound u2); lia); done.
Qed.

Lemma frame_not_node pd u f w : pd ∈ pds -> 0 <= u -> is_user_vaddr u = true ->
  mapping s pd u = Some (f, w) ->
  live_page s f /\ f ∉ kernel_nodes s /\ forall pd2, pd2 ∈ pds -> ~ node s pd2 f.
Proof.
  intros P A B M. destruct (frame_apart s pd u f w (so_pds _ _ SO _ P) A B M) as (Hp & L & N).
  split_and!; [done| |].
  - pose proof (so_nodup _ _ SO) as NN. apply NoDup_app in NN as (_ & DD & _).
    apply DD. apply elem_of_flat_map. eauto.
  - intros pd2 P2 ND. assert (pd2 = pd) as ->; [|done].
    apply (pages_apart pd2 pd f); try done. by apply node_in_pages.
Qed.
End Isolation.
