(* ===== verification/AddressProps.v ===== *)
(** Properties of page directories and address spaces, with a small machine that instantiates them. *)
From S2P Require Import Prelude Bitmap Vaddr Palloc Pagedir PagedirFacts PagedirProps AddressSpaces.

(** * Properties *)

(** C19. Mapping a user page to a frame that the directory does not own either succeeds, and then
    exactly that page is translated to that frame with the given permission, every other mapping and
    every page outside the directory's tables is as before; or it fails for want of a page for a
    table and changes nothing.  A page that is mapped already fails an assertion. *)
Theorem pagedir_set_page_correct (s : vm) (pd upage kpage : Z) (writable : bool)
    (V : vm_ok s) (OK : pd_ok s pd) (Hpd : pd <> init_page_dir s)
    (Hu : 0 <= upage /\ upage mod 4096 = 0 /\ is_user_vaddr upage = true)
    (Hk : live_page s kpage) (Hown : kpage ∉ pd_pages s pd) :
  match mapping s pd upage with
  | Some _ => pagedir_set_page pd upage kpage writable s = Panic
  | None =>
      (exists s' new, pagedir_set_page pd upage kpage writable s = Ret (true, s') /\
         pd_ok s' pd /\ grown s s' (node s pd) new /\ pd_pages s' pd ≡ₚ kpage :: new ++ pd_pages s pd /\
         maps_page s s' pd upage (Some (kpage, writable)) /\ same_kernel_half s s' pd /\
         forall o, 0 <= o < 4096 -> pagedir_get_page pd (upage + o) s' = Ret (kpage + o, s')) \/
      (pool_exhausted (kernel_pool (pages s)) 1 /\
       pagedir_set_page pd upage kpage writable s = Ret (false, s))
  end.
Proof.
  destruct Hu as (H1 & Ha & H2). destruct (mapping s pd upage) as [m|] eqn:M.
  - apply set_page_mapped; try done. by rewrite M.
  - destruct (set_page_spec s pd V OK Hpd upage kpage writable H1 Ha H2 Hk Hown M)
      as [(s' & new & E & G & OK' & K & P & MP & _)|(_ & X & E)]; [left|right; done].
    exists s', new. split_and!; try done. intros o Ho.
    pose proof (page_offset upage o H1 Ha H2 Ho) as (U1 & U2 & U3 & U4).
    rewrite (pagedir_get_page_spec s' pd (gr_ok _ _ _ _ G) OK') by done.
    rewrite MP by done. by rewrite decide_True, U4 by done.
Qed.

(** C33. Destroying a process's directory returns and gives back exactly the pages it owns: the
    mapped frames, the tables and the directory; all other pages keep their state and contents. *)
Theorem pagedir_destroy_correct (s : vm) (pd : Z) (V : vm_ok s) (OK : pd_ok s pd)
    (Hpd : pd <> init_page_dir s) :
  exists s', pagedir_destroy pd s = Ret (tt, s') /\ vm_ok s' /\
    (forall q, q mod 4096 = 0 -> page_used (pages s') q =
       page_used (pages s) q && negb (bool_decide (q ∈ pd_pages s pd))) /\
    (forall q, live_page s q -> q ∉ pd_pages s pd ->
       same_page (mem (pages s)) (mem (pages s')) q).
Proof.
  destruct (pagedir_destroy_spec s pd V OK Hpd) as (s' & E & [F1 F2 F3 F4]). by exists s'.
Qed.

(** C7. Whatever the kernel and the CPU do, in any order: a frame is mapped at one page of one
    process at most, it is never a table or a directory, the kernel half of every directory is the
    kernel's own, and what the TLB holds agrees with the tables of the active directory. *)
Theorem address_spaces_isolated (s s' : vm) (pds pds' : list Z) (a a' : Z)
    (KO : kernel_ok s pds a) (R : rtc vm_step (s, pds, a) (s', pds', a')) :
  (forall pd1 pd2 u1 u2 f w1 w2, pd1 ∈ pds' -> pd2 ∈ pds' ->
     0 <= u1 -> is_user_vaddr u1 = true -> 0 <= u2 -> is_user_vaddr u2 = true ->
     mapping s' pd1 u1 = Some (f, w1) -> mapping s' pd2 u2 = Some (f, w2) ->
     pd1 = pd2 /\ pg_no u1 = pg_no u2) /\
  (forall pd u f w, pd ∈ pds' -> 0 <= u -> is_user_vaddr u = true ->
     mapping s' pd u = Some (f, w) ->
     live_page s' f /\ f ∉ kernel_nodes s' /\ forall pd2, pd2 ∈ pds' -> ~ node s' pd2 f) /\
  (forall pd k, pd ∈ pds' -> 768 <= k < 1024 -> pde s' pd k = pde s' (init_page_dir s') k) /\
  active s' a' /\ tlb_coherent s' a'.
Proof.
  destruct (vm_steps_ok _ _ R KO) as [SO A I T]. cbn [fst snd] in *. split_and!; try done.
  - intros pd1 pd2 u1 u2 f w1 w2. by apply (mapping_unique s' pds').
  - intros pd u f w. by apply (frame_not_node s' pds').
  - intros pd k. by apply (so_khalf _ _ SO).
Qed.

(** * A machine with two pools of eight pages *)

Definition ex_vm : vm :=
  mk_vm (mk_palloc (ex_pool 0xc0101000 0x1) (ex_pool 0xc0201000 0x1) (fun _ => 0))
    0x101000 ∅ 0xc0101000 1024.

Lemma ex_vm_ok : vm_ok ex_vm.
Proof.
  split; [split; [apply ex_pool_ok; (done || lia)..|done]|]. vm_compute. intuition discriminate.
Qed.

Lemma ex_kernel_ok : kernel_ok ex_vm [] 0xc0101000.
Proof.
  assert (kernel_nodes ex_vm = [0xc0101000]) as KN by reflexivity. split.
  - split.
    + apply ex_vm_ok.
    + intros pd H. by apply not_elem_of_nil in H.
    + rewrite KN. apply NoDup_singleton.
    + rewrite KN. constructor; [by split|done].
    + intros k Hk. reflexivity.
    + intros pd k H. by apply not_elem_of_nil in H.
  - split; [|done]. split; [|done]. vm_compute. intuition discriminate.
  - by left.
  - by apply tlb_empty_coherent.
Qed.

Definition run_vm {A} (m : VM A) (s : vm) : vm := match m s with Ret (_, s) => s | _ => s end.
Definition ex_created : vm := run_vm pagedir_create ex_vm.
Definition ex_framed : vm := run_vm (get_page PAL_USER) ex_created.
Definition ex_mapped : vm := run_vm (pagedir_set_page 0xc0102000 0x8048000 0xc0202000 true) ex_framed.

Lemma ex_create : pagedir_create ex_vm = Ret (0xc0102000, ex_created).
Proof. reflexivity. Qed.
Lemma ex_frame : get_page PAL_USER ex_created = Ret (0xc0202000, ex_framed).
Proof. reflexivity. Qed.
Lemma ex_map : pagedir_set_page 0xc0102000 0x8048000 0xc0202000 true ex_framed = Ret (true, ex_mapped).
Proof. reflexivity. Qed.

Lemma ex_framed_ok : kernel_ok ex_framed [0xc0102000] 0xc0101000.
Proof.
  apply (alloc_step ex_created ex_framed _ _ PAL_USER 0xc0202000); [|exact ex_frame].
  exact (create_step ex_vm ex_created [] 0xc0101000 0xc0102000 ex_kernel_ok ex_create).
Qed.

Lemma ex_frame_free : live_page ex_framed 0xc0202000 /\ 0xc0202000 ∉ owned ex_framed [0xc0102000].
Proof.
  split; [by split|].
  assert (owned ex_framed [0xc0102000] = [0xc0102000; 0xc0101000]) as -> by (vm_compute; reflexivity).
  rewrite !not_elem_of_cons. split_and!; [discriminate..|apply not_elem_of_nil].
Qed.

Lemma ex_steps : rtc vm_step (ex_vm, [], 0xc0101000) (ex_mapped, [0xc0102000], 0xc0101000).
Proof.
  eapply rtc_l; [eapply step_create; [exact ex_create|discriminate]|].
  eapply rtc_l; [eapply step_alloc; exact ex_frame|]. apply rtc_once.
  eapply (step_set _ _ _ _ 0xc0102000 0x8048000 0xc0202000 true true);
    [by left|done|done|done|apply ex_frame_free|apply ex_frame_free|exact ex_map].
Qed.

Lemma ex_pd_ok : vm_ok ex_framed /\ pd_ok ex_framed 0xc0102000.
Proof. destruct (ko_spaces _ _ _ ex_framed_ok) as [V P _ _ _ _]. split; [exact V|]. apply P. by left. Qed.

Lemma pagedir_set_page_correct_witness : exists s',
  pagedir_set_page 0xc0102000 0x8048000 0xc0202000 true ex_framed = Ret (true, s') /\
  pagedir_get_page 0xc0102000 (0x8048000 + 0x123) s' = Ret (0xc0202000 + 0x123, s').
Proof.
  destruct ex_pd_ok as [V P].
  assert (0xc0202000 ∉ pd_pages ex_framed 0xc0102000) as N.
  { intros H. apply (proj2 ex_frame_free). eapply owned_pd; [by left|exact H]. }
  pose proof (pagedir_set_page_correct ex_framed 0xc0102000 0x8048000 0xc0202000 true V P
    ltac:(discriminate) ltac:(split_and!; [discriminate|reflexivity|reflexivity])
    (proj1 ex_frame_free) N) as H.
  replace (mapping ex_framed 0xc0102000 0x8048000) with (@None (Z * bool)) in H
    by (vm_compute; reflexivity).
  destruct H as [(s' & new & E & _ & _ & _ & _ & _ & G)|[_ E]].
  - exists s'. split; [exact E|]. apply G. split; [discriminate|reflexivity].
  - rewrite ex_map in E. discriminate E.
Defined.

Lemma ex_mapped_ok : kernel_ok ex_mapped [0xc0102000] 0xc0101000.
Proof. exact (vm_steps_ok _ _ ex_steps ex_kernel_ok). Qed.

Lemma pagedir_destroy_correct_witness : exists s',
  pagedir_destroy 0xc0102000 ex_mapped = Ret (tt, s') /\
  page_used (pages s') 0xc0202000 = false /\ page_used (pages s') 0xc0102000 = false.
Proof.
  destruct (ko_spaces _ _ _ ex_mapped_ok) as [V P _ _ _ _].
  assert (pd_ok ex_mapped 0xc0102000) as OK by (apply P; by left).
  assert (0xc0102000 <> init_page_dir ex_mapped) as N by (vm_compute; discriminate).
  destruct (pagedir_destroy_correct ex_mapped 0xc0102000 V OK N) as (s' & E & _ & U & _).
  assert (pd_pages ex_mapped 0xc0102000 = [0xc0202000; 0xc0103000; 0xc0102000]) as PP
    by (vm_compute; reflexivity).
  exists s'. split; [exact E|]. rewrite PP in U.
  split; (rewrite U by reflexivity); vm_compute; reflexivity.
Defined.

Lemma address_spaces_isolated_witness : live_page ex_mapped 0xc0202000 /\
  ~ node ex_mapped 0xc0102000 0xc0202000.
Proof.
  destruct (address_spaces_isolated ex_vm ex_mapped [] [0xc0102000] 0xc0101000 0xc0101000
    ex_kernel_ok ex_steps) as (_ & H & _).
  destruct (H 0xc0102000 0x8048000 0xc0202000 true) as (L & _ & N).
  - by left.
  - discriminate.
  - reflexivity.
  - vm_compute. reflexivity.
  - split; [exact L|]. apply N. by left.
Defined.
