(* ===== verification/Paging.v ===== *)
(** The kernel's page tables at boot: [paging_init] (threads/init.c) maps every page of RAM at its
    1:1 address, the kernel's text read-only, and establishes the invariant of AddressSpaces. *)
From S2P Require Import Prelude Bitmap Vaddr Palloc Pagedir PagedirFacts PagedirProps AddressSpaces.

(** * Counting free pages *)

(** A pool with more pages than [l] has elements has a free page, when only the pages in [l] are in
    use. *)
Lemma pool_not_exhausted p l : pool_ok p ->
  (forall q, q mod 4096 = 0 -> pool_used p q = true -> q ∈ l) -> Z.of_nat (length l) < page_cnt p ->
  ~ pool_exhausted p 1.
Proof.
  intros P H Hl X. set (idx := seqZ 0 (page_cnt p)).
  assert (NoDup ((fun i => base p + 4096 * i) <$> idx)) as ND.
  { apply NoDup_fmap; [intros x y E; lia|apply NoDup_seqZ]. }
  assert (((fun i => base p + 4096 * i) <$> idx) ⊆ l) as S.
  { intros q Hq. apply list_elem_of_fmap in Hq as (i & -> & Hi%elem_of_seqZ).
    destruct (page_index p P i) as (Hm & _); [lia|]. apply H; [done|].
    rewrite pool_used_index by (done || lia).
    destruct (bget (used_map p) i) eqn:B; [done|]. exfalso. unfold page_cnt in Hi.
    apply (X i); [lia..|]. intros j Hj. by replace j with i by lia. }
  pose proof (NoDup_submseteq _ _ ND (fun x Hx => S x Hx)) as SM%submseteq_length.
  rewrite length_fmap in SM. unfold idx in SM. rewrite length_seqZ in SM. lia.
Qed.

(** * The loop of [paging_init] *)

Section Boot.
Context (_start _end_kernel_text : Z) (pd : Z).

Definition kernel_address (page : Z) : Z := PHYS_BASE + 4096 * page.
Definition in_text (va : Z) : bool := (_start <=? va) && (va <? _end_kernel_text).
Definition kernel_entry (page : Z) : outcome Z :=
  pte_create_kernel (kernel_address page) (negb (in_text (kernel_address page))).

(** After [p] pages are mapped; [ts] are the tables in the order of their creation. *)
Record boot_ok (s : vm) (ts : list Z) (p : Z) : Prop := {
  bo_vm : vm_ok s;
  bo_used : forall q, q mod 4096 = 0 -> page_used (pages s) q = bool_decide (q ∈ pd :: ts);
  bo_nodup : NoDup (pd :: ts);
  bo_aligned : forall q, q ∈ pd :: ts -> q mod 4096 = 0;
  bo_user : forall k, 0 <= k < 768 -> pde s pd k = 0;
  bo_pde : forall k, 768 <= k < 1024 ->
    match ts !! Z.to_nat (k - 768) with
    | Some t => pde_create t = Ret (pde s pd k)
    | None => pde s pd k = 0
    end;
  bo_pte : forall i, 0 <= i < p -> exists t, ts !! Z.to_nat (i / 1024) = Some t /\
    kernel_entry i = Ret (pte_at s t (i mod 1024))
}.

Lemma boot_live s ts p q : boot_ok s ts p -> q ∈ pd :: ts -> live_page s q.
Proof.
  intros B H. pose proof (bo_aligned _ _ _ B q H) as Hm. split; [done|].
  rewrite (bo_used _ _ _ B) by done. by apply bool_decide_true.
Qed.

Lemma lookup_in_tables (ts : list Z) i t : ts !! i = Some t -> t ∈ pd :: ts.
Proof. intros H. right. by eapply list_elem_of_lookup_2. Qed.

Lemma vaddr_indices p : 0 <= p < 2 ^ 18 -> ptov (u32 (p * PGSIZE)) = Ret (kernel_address p) /\
  pd_no (kernel_address p) = 768 + p / 1024 /\ pt_no (kernel_address p) = p mod 1024 /\
  kernel_page (kernel_address p) /\ 0 <= p / 1024 < 256.
Proof.
  intros Hp. unfold kernel_address, kernel_page, PHYS_BASE.
  assert ((3221225472 + 4096 * p) / 4096 = 786432 + p) as E.
  { replace (3221225472 + 4096 * p) with ((786432 + p) * 4096) by lia. by apply Z.div_mul. }
  assert (0 <= p / 1024 < 256).
  { split; [apply Z.div_pos; lia|apply Z.div_lt_upper_bound; lia]. }
  rewrite pd_no_div, pt_no_div, E. change (2 ^ 22) with (4096 * 1024).
  rewrite <- Z.div_div, E by lia. split_and!; try lia.
  - unfold ptov, PHYS_BASE. rewrite PGSIZE_val, (u32_small (p * 4096)) by lia.
    rewrite (proj2 (Z.ltb_lt _ _)) by lia. rewrite u32_small by lia. f_equal. lia.
  - replace (786432 + p) with (768 * 1024 + p) by lia. rewrite Z.div_add_l by lia. lia.
  - replace (786432 + p) with (p + 768 * 1024) by lia. by rewrite Z.mod_add by lia.
  - replace (3221225472 + 4096 * p) with ((786432 + p) * 4096) by lia. by rewrite Z.mod_mul.
Qed.

(** A fresh table for the next four megabytes. *)
Lemma boot_new_table s ts p s1 t e : boot_ok s ts p -> (length ts < 256)%nat ->
  got_page s s1 t -> mem (pages s1) = memset (mem (pages s)) t 0 4096 -> pde_create t = Ret e ->
  let s2 := write_word s1 (pd + 4 * (768 + Z.of_nat (length ts))) e in
  boot_ok s2 (ts ++ [t]) p.
Proof.
  intros B Hl [V1 L1 U1 US C1] M Ee s2. set (k0 := 768 + Z.of_nat (length ts)) in *.
  pose proof (boot_live s ts p pd B ltac:(by left)) as [Hdm Hdu]. pose proof L1 as [Htm Htu].
  destruct (pde_create_spec t (live_kernel_page s1 t V1 L1)) as (e0 & E0 & _ & ER & _).
  rewrite Ee in E0. injection E0 as <-.
  assert (forall q, q ∈ pd :: ts -> q <> t) as NT.
  { intros q Hq ->. destruct (boot_live s ts p t B Hq) as [_ Hu]. congruence. }
  assert (forall k, 0 <= k < 1024 -> pde s2 pd k = if decide (k = k0) then e else pde s pd k) as HD.
  { intros k Hk. unfold pde, s2. rewrite write_word_mem. destruct (decide (k = k0)) as [->|N].
    - by rewrite mem_word_set_same, u32_small by lia.
    - rewrite mem_word_set_other by lia. rewrite M. apply same_page_word; [|done].
      apply same_page_memset; try done. apply not_eq_sym, NT. by left. }
  assert (forall q i, q ∈ ts -> 0 <= i < 1024 -> pte_at s2 q i = pte_at s q i) as HP.
  { intros q i Hq Hi. apply pte_at_frame; [|done]. unfold s2. rewrite write_word_mem, M.
    assert (q ∈ pd :: ts) as Hq' by (by right). pose proof (bo_aligned _ _ _ B q Hq') as Hqm.
    apply same_page_trans with (memset (mem (pages s)) t 0 4096).
    - apply same_page_memset; try done. apply not_eq_sym. by apply NT.
    - apply same_page_set_word; try done; [|lia]. intros Eq.
      pose proof (bo_nodup _ _ _ B) as N. apply NoDup_cons in N as [N _]. apply N. by rewrite Eq. }
  assert (forall q, q ∈ pd :: ts ++ [t] <-> q ∈ pd :: ts \/ q = t) as HE.
  { intros q. rewrite !elem_of_cons, elem_of_app, list_elem_of_singleton. tauto. }
  split.
  - by apply vm_ok_change_mem.
  - intros q Hq. unfold s2. rewrite write_word_used, US, (bo_used _ _ _ B) by done.
    destruct (decide (q = t)) as [->|N].
    + symmetry. apply bool_decide_true, HE. by right.
    + apply bool_decide_ext. rewrite HE. tauto.
  - rewrite app_comm_cons. apply NoDup_app. split; [apply B|]. split; [|apply NoDup_singleton].
    intros q Hq ->%list_elem_of_singleton. by apply (NT t).
  - intros q [Hq| ->]%HE; [by apply B|done].
  - intros k Hk. rewrite HD, decide_False by lia. by apply (bo_user _ _ _ B).
  - intros k Hk. rewrite HD by lia. pose proof (bo_pde _ _ _ B k Hk) as P.
    destruct (decide (k = k0)) as [->|N].
    + unfold k0. replace (Z.to_nat (768 + Z.of_nat (length ts) - 768)) with (length ts) by lia.
      by rewrite list_lookup_middle.
    + destruct (decide (Z.to_nat (k - 768) < length ts)%nat) as [Hlt|Hge].
      * by rewrite lookup_app_l.
      * rewrite lookup_ge_None_2 in P by lia. rewrite lookup_ge_None_2; [done|].
        rewrite length_app. simpl. lia.
  - intros i Hi. destruct (bo_pte _ _ _ B i Hi) as (q & Hq & Eq). exists q.
    split; [by apply lookup_app_l_Some|]. rewrite HP; [done| |apply Z.mod_pos_bound; lia].
    by eapply list_elem_of_lookup_2.
Qed.

(** The entry of page [p]. *)
Lemma boot_write s ts p t w : boot_ok s ts p -> 0 <= p -> ts !! Z.to_nat (p / 1024) = Some t ->
  kernel_entry p = Ret w -> in_u32 w ->
  boot_ok (write_word s (t + 4 * (p mod 1024)) w) ts (p + 1).
Proof.
  intros B Hp T W R. pose proof (Z.mod_pos_bound p 1024 ltac:(lia)) as Hm.
  pose proof (bo_aligned _ _ _ B t (lookup_in_tables _ _ _ T)) as Htm.
  pose proof (bo_aligned _ _ _ B pd ltac:(by left)) as Hdm.
  pose proof (bo_nodup _ _ _ B) as N. apply NoDup_cons in N as [N1 N2].
  assert (t <> pd) as Nt. { intros ->. apply N1. by eapply list_elem_of_lookup_2. }
  set (s2 := write_word _ _ _).
  assert (forall k, 0 <= k < 1024 -> pde s2 pd k = pde s pd k) as HD.
  { intros k Hk. unfold pde, s2. rewrite write_word_mem.
    apply same_page_word; [by apply same_page_set_word|done]. }
  split; try apply B.
  - by apply vm_ok_change_mem, B.
  - intros k Hk. rewrite HD by lia. by apply (bo_user _ _ _ B).
  - intros k Hk. rewrite HD by lia. by apply (bo_pde _ _ _ B).
  - intros i Hi. pose proof (Z.mod_pos_bound i 1024 ltac:(lia)) as Hmi.
    destruct (decide (i = p)) as [->|Ni].
    + exists t. split; [done|]. unfold pte_at, s2. by rewrite write_word_mem, mem_word_set_same, u32_small.
    + destruct (bo_pte _ _ _ B i) as (q & Hq & Eq); [lia|]. exists q. split; [done|]. rewrite Eq.
      f_equal. symmetry. unfold pte_at, s2. rewrite write_word_mem. destruct (decide (q = t)) as [->|Nq].
      * assert (Z.to_nat (i / 1024) = Z.to_nat (p / 1024)) as Ed by (by apply (NoDup_lookup ts _ _ t)).
        assert (0 <= i / 1024 /\ 0 <= p / 1024) by (split; apply Z.div_pos; lia).
        assert (i / 1024 = p / 1024) by lia.
        assert (i mod 1024 <> p mod 1024).
        { intros Em. apply Ni. rewrite (Z.div_mod i 1024), (Z.div_mod p 1024) by lia. congruence. }
        by rewrite mem_word_set_other by lia.
      * apply same_page_word; [|done]. apply same_page_set_word; try done.
        by eapply (bo_aligned _ _ _ B), lookup_in_tables.
Qed.

Lemma get_page_geometry s s' flags q : get_page flags s = Ret (q, s') ->
  geometry (pages s') = geometry (pages s).
Proof.
  unfold get_page, palloc_get_page. destruct (palloc_get_multiple (pages s) flags 1) as [[p a]| | |] eqn:E;
    try discriminate. intros [= <- <-]. by eapply palloc_get_geometry.
Qed.

Lemma geometry_kernel (p1 p2 : palloc_state) : geometry p1 = geometry p2 ->
  page_cnt (kernel_pool p1) = page_cnt (kernel_pool p2).
Proof. unfold geometry. congruence. Qed.

(** The table for page [p]: present, or created when the page starts a new one. *)
Definition table_step (p pt : Z) : VM Z :=
  let! e := load_word (pd + 4 * (768 + p / 1024)) in
  if e =? 0 then
    let! pt := get_page (Z.lor PAL_ASSERT PAL_ZERO) in
    let! w := lift (pde_create pt) in
    let! _ := store_word (pd + 4 * (768 + p / 1024)) w in ret pt
  else ret pt.

Lemma table_step_spec s ts p pt : boot_ok s ts p -> 0 <= p < 2 ^ 18 ->
  Z.of_nat (length ts) = (p + 1023) / 1024 ->
  (p mod 1024 <> 0 -> ts !! Z.to_nat (p / 1024) = Some pt) ->
  1 + Z.of_nat (length ts) < page_cnt (kernel_pool (pages s)) ->
  exists s' ts' t, table_step p pt s = Ret (t, s') /\ boot_ok s' ts' p /\ same_cpu s s' /\
    geometry (pages s') = geometry (pages s) /\ ts' !! Z.to_nat (p / 1024) = Some t /\
    Z.of_nat (length ts') = p / 1024 + 1.
Proof.
  intros B Hp Hl Hpt Hc. pose proof (Z.div_mod p 1024 ltac:(lia)) as DM.
  pose proof (Z.mod_pos_bound p 1024 ltac:(lia)) as MB.
  assert (0 <= p / 1024 < 256) as Hd by (apply (vaddr_indices p Hp)).
  pose proof (boot_live s ts p pd B ltac:(by left)) as Lpd. pose proof (bo_vm _ _ _ B) as V.
  unfold table_step, bind at 1. rewrite load_live by (done || lia). cbn [obind].
  fold (pde s pd (768 + p / 1024)).
  pose proof (bo_pde _ _ _ B (768 + p / 1024) ltac:(lia)) as P.
  replace (Z.to_nat (768 + p / 1024 - 768)) with (Z.to_nat (p / 1024)) in P by lia.
  destruct (decide (p mod 1024 = 0)) as [E0|N0].
  - assert (Z.of_nat (length ts) = p / 1024) as Hl'.
    { rewrite Hl. replace (p + 1023) with (p / 1024 * 1024 + 1023) by lia.
      rewrite Z.div_add_l by lia. change (1023 / 1024) with 0. lia. }
    rewrite lookup_ge_None_2 in P by lia. rewrite P, Z.eqb_refl. unfold bind at 1.
    destruct (get_page_spec s (Z.lor PAL_ASSERT PAL_ZERO) V) as [(s1 & t & E & N & G & M)|[X _]].
    2:{ exfalso. change (has_flag (Z.lor PAL_ASSERT PAL_ZERO) PAL_USER) with false in X.
      apply (pool_not_exhausted (kernel_pool (pages s)) (pd :: ts)) in X; [done|apply V| |simpl; lia].
      intros q Hq Hu. assert (page_used (pages s) q = true) as Hq' by (unfold page_used; by rewrite Hu).
      rewrite (bo_used _ _ _ B) in Hq' by done. by apply bool_decide_eq_true in Hq'. }
    rewrite E. cbn [obind]. change (has_flag (Z.lor PAL_ASSERT PAL_ZERO) PAL_ZERO) with true in M.
    destruct (pde_create_spec t (live_kernel_page s1 t (gp_ok _ _ _ G) (gp_live _ _ _ G)))
      as (e & Ee & _). rewrite Ee, bind_lift_Ret. unfold bind.
    assert (live_page s1 pd) as L1.
    { destruct Lpd as [Lm Lu]. split; [done|]. rewrite (gp_used _ _ _ G), Lu by done. by case_decide. }
    rewrite store_live by (apply G || done || lia). cbn [obind ret].
    eexists _, (ts ++ [t]), t. split; [reflexivity|]. split_and!.
    + replace (p / 1024) with (Z.of_nat (length ts)) by lia.
      apply (boot_new_table s ts p s1 t e); try done. lia.
    + apply (gp_cpu _ _ _ G).
    + exact (get_page_geometry _ _ _ _ E).
    + replace (Z.to_nat (p / 1024)) with (length ts) by lia. by apply list_lookup_middle.
    + rewrite length_app. simpl. lia.
  - specialize (Hpt N0). rewrite Hpt in P.
    destruct (pde_create_spec pt) as (e & Ee & _ & _ & Ne & _).
    { apply (live_kernel_page s); [done|]. eapply boot_live, lookup_in_tables; done. }
    rewrite P in Ee. injection Ee as ->. rewrite (proj2 (Z.eqb_neq _ 0) Ne).
    exists s, ts, pt. split_and!; try done. rewrite Hl.
    replace (p + 1023) with ((p / 1024 + 1) * 1024 + (p mod 1024 - 1)) by lia.
    rewrite Z.div_add_l, (Z.div_small (_ - 1)) by lia. lia.
Qed.

Lemma paging_loop_spec n : forall s ts p pt, boot_ok s ts p -> 0 <= p -> p + Z.of_nat n <= 2 ^ 18 ->
  Z.of_nat (length ts) = (p + 1023) / 1024 ->
  (p mod 1024 <> 0 -> ts !! Z.to_nat (p / 1024) = Some pt) ->
  1 + (p + Z.of_nat n + 1023) / 1024 < page_cnt (kernel_pool (pages s)) ->
  exists s' ts', paging_loop _start _end_kernel_text n p pd pt s = Ret (tt, s') /\
    boot_ok s' ts' (p + Z.of_nat n) /\ same_cpu s s' /\
    Z.of_nat (length ts') = (p + Z.of_nat n + 1023) / 1024.
Proof.
  induction n as [|n IH]; intros s ts p pt B H0 Hp Hl Hpt Hc.
  { exists s, ts. replace (p + Z.of_nat 0) with p by lia. split_and!; done. }
  destruct (vaddr_indices p) as (Ev & Ed & Et & K & Hd); [lia|].
  assert ((p + 1023) / 1024 <= (p + Z.of_nat (S n) + 1023) / 1024) by (apply Z.div_le_mono; lia).
  destruct (table_step_spec s ts p pt B) as (s1 & ts1 & t & E1 & B1 & C1 & G1 & T1 & L1);
    [lia|lia|exact Hpt|lia|].
  destruct (pte_create_kernel_spec (kernel_address p) (negb (in_text (kernel_address p))) K)
    as (w & W & _ & WR). specialize (WR false). rewrite Z.lor_0_r in WR. destruct WR as (R & _).
  set (s2 := write_word s1 (t + 4 * (p mod 1024)) w).
  assert (boot_ok s2 ts1 (p + 1)) as B2 by (by apply boot_write).
  pose proof (Z.div_mod p 1024 ltac:(lia)) as DM. pose proof (Z.mod_pos_bound p 1024 ltac:(lia)) as MB.
  assert (p mod 1024 < 1023 -> (p + 1) / 1024 = p / 1024) as Dsame.
  { intros Hm. replace (p + 1) with (p / 1024 * 1024 + (p mod 1024 + 1)) by lia.
    rewrite Z.div_add_l, (Z.div_small (_ + 1)) by lia. lia. }
  destruct (IH s2 ts1 (p + 1) t B2) as (s3 & ts3 & E3 & B3 & C3 & L3); [lia|lia| | | |].
  - rewrite L1. replace (p + 1 + 1023) with ((p / 1024 + 1) * 1024 + p mod 1024) by lia.
    rewrite Z.div_add_l, (Z.div_small (_ mod _)) by lia. lia.
  - intros Hm. rewrite Dsame; [done|]. destruct (decide (p mod 1024 = 1023)) as [E|]; [|lia].
    exfalso. apply Hm. replace (p + 1) with (0 + (p / 1024 + 1) * 1024) by lia. by rewrite Z.mod_add.
  - change (pages s2) with (update_mem (pages s1) (mem (pages s2))).
    change (page_cnt (kernel_pool (update_mem (pages s1) (mem (pages s2)))))
      with (page_cnt (kernel_pool (pages s1))).
    rewrite (geometry_kernel _ _ G1). replace (p + 1 + Z.of_nat n) with (p + Z.of_nat (S n)) by lia. lia.
  - exists s3, ts3. replace (p + Z.of_nat (S n)) with (p + 1 + Z.of_nat n) by lia.
    split; [|split; [done|split; [by eapply same_cpu_trans; [|exact C3]|done]]].
    cbn [paging_loop]. rewrite Ev, bind_lift_Ret, Ed, Et.
    unfold table_step, bind at 1 in E1. unfold bind at 1 2.
    rewrite load_live in E1 |- * by
      (try exact (bo_vm _ _ _ B); try (eapply boot_live; [exact B|by left]); lia).
    cbn [obind] in E1 |- *. rewrite E1. cbn [obind].
    fold (in_text (kernel_address p)). fold (kernel_entry p) in W |- *. rewrite W, bind_lift_Ret.
    unfold bind. rewrite store_live.
    + exact E3.
    + apply B1.
    + by eapply boot_live, lookup_in_tables.
    + done.
Qed.
End Boot.

(** * The result *)

Lemma omap_lookup_tables (ts : list Z) (f : Z -> option Z) n : forall k,
  (forall j, k <= j < k + Z.of_nat n -> f j = ts !! Z.to_nat (j - 768)) -> 768 <= k ->
  (length ts <= Z.to_nat (k - 768) + n)%nat ->
  omap f (seqZ k (Z.of_nat n)) = drop (Z.to_nat (k - 768)) ts.
Proof.
  induction n as [|n IH]; intros k H Hk Hl.
  { by rewrite drop_ge by lia. }
  rewrite seqZ_cons by lia. replace (Z.pred (Z.of_nat (S n))) with (Z.of_nat n) by lia.
  replace (Z.succ k) with (k + 1) by lia.
  assert (forall l, omap f (k :: l) = match f k with Some y => y :: omap f l | None => omap f l end)
    as -> by done.
  rewrite H by lia. rewrite (IH (k + 1)); [|intros j Hj; apply H; lia|lia|lia].
  replace (Z.to_nat (k + 1 - 768)) with (S (Z.to_nat (k - 768))) by lia.
  destruct (ts !! Z.to_nat (k - 768)) as [t|] eqn:E.
  - by rewrite (drop_S ts t (Z.to_nat (k - 768)) E).
  - apply lookup_ge_None_1 in E. by rewrite !drop_ge by lia.
Qed.

Section Result.
Context (_start _end_kernel_text : Z) (s : vm) (ts : list Z) (p : Z).
Let pd := init_page_dir s.
Context (B : boot_ok _start _end_kernel_text pd s ts p) (Hl : (length ts <= 256)%nat).

Lemma boot_table k : 768 <= k < 1024 -> table s pd k = ts !! Z.to_nat (k - 768).
Proof.
  intros Hk. pose proof (bo_pde _ _ _ _ _ _ B k Hk) as P. unfold table.
  destruct (ts !! Z.to_nat (k - 768)) as [t|] eqn:E; [|by rewrite P].
  assert (kernel_page t) as K.
  { apply (live_kernel_page s); [apply B|]. eapply boot_live, lookup_in_tables; done. }
  destruct (pde_create_spec t K) as (e & Ee & EP & _ & N & _). rewrite P in Ee. injection Ee as ->.
  by rewrite (proj2 (Z.eqb_neq _ 0) N), EP.
Qed.

Lemma boot_kernel_nodes : kernel_nodes s = pd :: ts.
Proof.
  unfold kernel_nodes. f_equal. change 256 with (Z.of_nat 256).
  rewrite (omap_lookup_tables ts); [done| |lia|lia]. intros j Hj. apply boot_table. lia.
Qed.

Lemma boot_spaces : spaces_ok s [].
Proof.
  split.
  - apply B.
  - intros q H. by apply not_elem_of_nil in H.
  - rewrite boot_kernel_nodes. apply B.
  - rewrite boot_kernel_nodes. apply Forall_forall. intros q. by eapply boot_live.
  - apply B.
  - intros q k H. by apply not_elem_of_nil in H.
Qed.

Lemma boot_mapping i : 0 <= i < p -> p <= 2 ^ 18 ->
  mapping s pd (kernel_address i) =
    Some (kernel_address i, negb (in_text _start _end_kernel_text (kernel_address i))) /\
  exists e, pte s pd (kernel_address i) = Some e /\ kernel_entry _start _end_kernel_text i = Ret e.
Proof.
  intros Hi Hp. destruct (vaddr_indices i) as (_ & Ed & Et & K & Hd); [lia|].
  destruct (bo_pte _ _ _ _ _ _ B i Hi) as (t & T & E).
  assert (pte s pd (kernel_address i) = Some (pte_at s t (i mod 1024))) as P.
  { unfold pte. rewrite Ed, Et, boot_table by lia.
    replace (768 + i / 1024 - 768) with (i / 1024) by lia. by rewrite T. }
  split; [|eauto]. rewrite mapping_pte, P. cbn [mbind option_bind]. unfold kernel_entry in E.
  destruct (pte_create_kernel_spec (kernel_address i)
    (negb (in_text _start _end_kernel_text (kernel_address i))) K) as (w & W & _ & H).
  specialize (H false). rewrite Z.lor_0_r in H. destruct H as (_ & EP & T0 & T1).
  rewrite E in W. injection W as ->. unfold mapping_of. by rewrite present_bit, T0, EP, T1.
Qed.
End Result.

(** RAM ends below the top of the kernel's half. *)
Lemma ram_bounds s : vm_ok s -> 0 <= init_ram_pages s <= 2 ^ 18.
Proof.
  intros V. pose proof (vm_ram s V) as R. destruct (vm_palloc s V) as [K U D]. pose proof (po_low _ U).
  pose proof (bm_cnt _ (po_map _ U)). unfold PHYS_BASE, pool_end, page_cnt in *. lia.
Qed.

(** The empty directory that [paging_init] starts with. *)
Lemma boot_start _start _end_kernel_text s s1 pd : got_page s s1 pd ->
  (forall q, q mod 4096 = 0 -> page_used (pages s) q = false) -> mem (pages s1) = memset (mem (pages s)) pd 0 4096 ->
  boot_ok _start _end_kernel_text pd (mk_vm (pages s1) (cr3 s1) (tlb s1) pd (init_ram_pages s1)) [] 0.
Proof.
  intros G Hfree M. set (s2 := mk_vm _ _ _ _ _).
  assert (forall k, 0 <= k < 1024 -> pde s2 pd k = 0) as HZ.
  { intros k Hk. unfold pde. cbn. rewrite M. apply mem_word_memset_zero; lia. }
  split.
  - destruct (gp_ok _ _ _ G) as [V1 V2]. by split.
  - intros q Hq. change (pages s2) with (pages s1). rewrite (gp_used _ _ _ G), Hfree by done.
    case_decide; case_bool_decide as D; rewrite list_elem_of_singleton in D; done.
  - apply NoDup_singleton.
  - intros q ->%list_elem_of_singleton. apply (gp_live _ _ _ G).
  - intros k Hk. apply HZ. lia.
  - intros k Hk. rewrite lookup_nil. apply HZ. lia.
  - intros i Hi. lia.
Qed.

(** At boot, when no page is in use yet and the kernel pool has room for the tables,
    [paging_init] returns with every page of RAM mapped at its 1:1 address, writable except for the
    kernel's text, with the new directory active, and in a state from which address spaces stay
    isolated. *)
Theorem paging_init_correct (_start _end_kernel_text : Z) (s : vm) (V : vm_ok s)
    (Hfree : forall q, q mod 4096 = 0 -> page_used (pages s) q = false)
    (Hroom : 1 + (init_ram_pages s + 1023) / 1024 < page_cnt (kernel_pool (pages s))) :
  exists s', paging_init _start _end_kernel_text s = Ret (tt, s') /\
    kernel_ok s' [] (init_page_dir s') /\ init_ram_pages s' = init_ram_pages s /\
    forall i, 0 <= i < init_ram_pages s ->
      mapping s' (init_page_dir s') (kernel_address i) =
        Some (kernel_address i, negb (in_text _start _end_kernel_text (kernel_address i))).
Proof.
  pose proof (ram_bounds s V) as Hram.
  assert (0 <= (init_ram_pages s + 1023) / 1024) by (apply Z.div_pos; lia).
  destruct (get_page_spec s (Z.lor PAL_ASSERT PAL_ZERO) V) as [(s1 & pd & E & N & G & M)|[X _]].
  2:{ exfalso. apply (pool_not_exhausted (kernel_pool (pages s)) []) in X; [done|apply V| |simpl; lia].
    intros q Hq Hu. pose proof (Hfree q Hq) as F. unfold page_used in F. by rewrite Hu in F. }
  set (s2 := mk_vm (pages s1) (cr3 s1) (tlb s1) pd (init_ram_pages s1)).
  pose proof (gp_cpu _ _ _ G) as (C1 & C2 & C3 & C4).
  change (has_flag (Z.lor PAL_ASSERT PAL_ZERO) PAL_ZERO) with true in M.
  pose proof (boot_start _start _end_kernel_text s s1 pd G Hfree M) as B. fold s2 in B.
  assert (page_cnt (kernel_pool (pages s2)) = page_cnt (kernel_pool (pages s))) as PC.
  { apply geometry_kernel. exact (get_page_geometry _ _ _ _ E). }
  destruct (paging_loop_spec _start _end_kernel_text pd (Z.to_nat (init_ram_pages s)) s2 [] 0 NULL B)
    as (s3 & ts & E3 & B3 & (D1 & D2 & D3 & D4) & L3); [lia|lia|done|done| |].
  { rewrite PC. replace (0 + Z.of_nat (Z.to_nat (init_ram_pages s))) with (init_ram_pages s) by lia.
    done. }
  rewrite Z2Nat.id, Z.add_0_l in B3 by lia. cbn [init_page_dir init_ram_pages s2] in D3, D4.
  assert (kernel_page pd) as K.
  { apply (live_kernel_page s3); [apply B3|]. eapply boot_live; [done|by left]. }
  set (s4 := mk_vm (pages s3) (pd - PHYS_BASE) ∅ (init_page_dir s3) (init_ram_pages s3)).
  assert (boot_ok _start _end_kernel_text (init_page_dir s4) s4 ts (init_ram_pages s)) as B4.
  { cbn [init_page_dir s4]. rewrite D3. destruct B3 as [[X1 X2] X3 X4 X5 X6 X7 X8].
    split; [split; [exact X1|exact X2]|exact X3|exact X4|exact X5|exact X6|exact X7|exact X8]. }
  assert (length ts <= 256)%nat as Hl.
  { assert ((init_ram_pages s + 1023) / 1024 < 257) by (apply Z.div_lt_upper_bound; lia).
    rewrite Z2Nat.id, Z.add_0_l in L3 by lia. lia. }
  exists s4. split; [|split; [|split]].
  - unfold paging_init, bind at 1. rewrite E. cbn [obind]. unfold bind at 1, modify. cbn [obind].
    fold s2. unfold bind at 1, gets. cbn [obind]. change (init_ram_pages s2) with (init_ram_pages s1).
    rewrite C4. unfold bind at 1. rewrite E3. cbn [obind]. unfold bind at 1. cbn [obind].
    rewrite D3, (vtop_kernel pd K), bind_lift_Ret. reflexivity.
  - split.
    + by apply (boot_spaces _start _end_kernel_text s4 ts (init_ram_pages s)).
    + split; [|cbn; by rewrite D3]. cbn [init_page_dir s4]. by rewrite D3.
    + by left.
    + by apply tlb_empty_coherent.
  - cbn [init_ram_pages s4]. congruence.
  - intros i Hi. apply (boot_mapping _start _end_kernel_text s4 ts (init_ram_pages s)); try done. lia.
Qed.

(** ** A machine with four megabytes of RAM *)

Definition ex_boot : vm :=
  mk_vm (mk_palloc (ex_pool 0xc0101000 0x0) (ex_pool 0xc0201000 0x0) (fun a => a)) 0 ∅ 0 1024.

Lemma ex_boot_ok : vm_ok ex_boot /\ forall q, q mod 4096 = 0 -> page_used (pages ex_boot) q = false.
Proof.
  split.
  - split; [split; [apply ex_pool_ok; (done || lia)..|done]|]. vm_compute. intuition discriminate.
  - assert (forall b q, pool_used (ex_pool b 0) q = false) as H.
    { intros b q. unfold pool_used, page_from_pool, bget, bitmap_size.
      cbn [bits bit_cnt used_map base ex_pool]. set (i := pg_no q - pg_no b).
      destruct ((_ <=? _) && _) eqn:F; [|done]. cbn [andb].
      assert (0 <= i < 8) as Hi by (unfold i; lia). rewrite Z.div_small by lia. apply Z.bits_0. }
    intros q _. unfold page_used, ex_boot. cbn [kernel_pool user_pool pages]. by rewrite !H.
Qed.

Lemma paging_init_correct_witness : exists s',
  paging_init 0xc0020000 0xc0030000 ex_boot = Ret (tt, s') /\
  mapping s' (init_page_dir s') 0xc0025000 = Some (0xc0025000, false) /\
  mapping s' (init_page_dir s') 0xc0035000 = Some (0xc0035000, true).
Proof.
  destruct (paging_init_correct 0xc0020000 0xc0030000 ex_boot (proj1 ex_boot_ok) (proj2 ex_boot_ok)
    ltac:(vm_compute; reflexivity)) as (s' & E & _ & _ & M).
  exists s'. split; [exact E|]. split.
  - apply (M 0x25). split; [discriminate|reflexivity].
  - apply (M 0x35). split; [discriminate|reflexivity].
Defined.
