(* ===== verification/Malloc.v ===== *)
(** The kernel's block allocator (threads/malloc.c): descriptors of power-of-two block sizes,
    arenas carved out of pages, big blocks made of whole pages.  It is written against the
    interface [page_allocator]. *)
From S2P Require Import Prelude Bitmap Vaddr Palloc.

(** * Definitions *)

(** A descriptor; its list of free blocks is the sequence of their addresses. *)
Record desc := mk_desc {
  block_size : Z;
  blocks_per_arena : Z;
  free_list : list Z
}.

(** An arena header.  [a_desc] is the index of the owning descriptor, [None] for a big block.
    A page carries [ARENA_MAGIC] exactly when the map of arenas has an entry for it. *)
Record arena := mk_arena { a_desc : option nat; free_cnt : Z }.

Record heap (P : Type) := mk_heap {
  descs : list desc;
  arenas : gmap Z arena;
  pages : P
}.
Arguments mk_heap {P}.
Arguments descs {P}.
Arguments arenas {P}.
Arguments pages {P}.

Definition sizeof_arena : Z := 12.

(** [for (block_size = 16; block_size < PGSIZE / 2; block_size *= 2)]; [descs] has 10 slots. *)
Fixpoint malloc_init_loop (fuel : nat) (ds : list desc) (size : Z) : outcome (list desc) :=
  match fuel with
  | O => NoFuel
  | S fuel =>
      if size <? PGSIZE / 2 then
        assert? (Z.of_nat (length ds) + 1 <=? 10) in
        malloc_init_loop fuel (ds ++ [mk_desc size ((PGSIZE - sizeof_arena) / size) []])
          (u32 (size * 2))
      else Ret ds
  end.

Definition malloc_init {P} (p : P) : outcome (heap P) :=
  let? ds := malloc_init_loop 20 [] 16 in Ret (mk_heap ds ∅ p).

Section Operations.
Context {P : Type} `{PA : page_allocator P}.

Definition with_pages (h : heap P) (p : P) : heap P := mk_heap (descs h) (arenas h) p.
Definition with_desc (h : heap P) (d : nat) (D : desc) : heap P :=
  mk_heap (<[d := D]> (descs h)) (arenas h) (pages h).
Definition with_arena (h : heap P) (a : Z) (r : arena) : heap P :=
  mk_heap (descs h) (<[a := r]> (arenas h)) (pages h).
Definition del_arena (h : heap P) (a : Z) : heap P :=
  mk_heap (descs h) (delete a (arenas h)) (pages h).

(** [a->magic == ARENA_MAGIC]. *)
Definition arena_at (h : heap P) (a : Z) : outcome arena :=
  match arenas h !! a with Some r => Ret r | None => Panic end.

Definition arena_to_block (h : heap P) (a idx : Z) : outcome Z :=
  assert? (negb (a =? NULL)) in
  let? r := arena_at h a in
  let? d := deref (a_desc r) in
  let? D := deref (descs h !! d) in
  assert? (idx <? blocks_per_arena D) in
  Ret (u32 (a + sizeof_arena + idx * block_size D)).

Definition block_to_arena (h : heap P) (b : Z) : outcome (Z * arena) :=
  let a := pg_round_down b in
  assert? (negb (a =? NULL)) in
  let? r := arena_at h a in
  match a_desc r with
  | Some d =>
      let? D := deref (descs h !! d) in
      assert? (u32 (pg_ofs b - sizeof_arena) mod block_size D =? 0) in
      Ret (a, r)
  | None =>
      assert? (pg_ofs b =? sizeof_arena) in
      Ret (a, r)
  end.

(** The search for the smallest descriptor: the index of the first that fits, or [desc_cnt]. *)
Fixpoint find_desc (ds : list desc) (size : Z) : nat :=
  match ds with
  | [] => O
  | D :: ds => if size <=? block_size D then O else S (find_desc ds size)
  end.

Definition list_push_back_block (h : heap P) (d : nat) (b : Z) : outcome (heap P) :=
  let? D := deref (descs h !! d) in
  Ret (with_desc h d (mk_desc (block_size D) (blocks_per_arena D) (free_list D ++ [b]))).

(** [for (i = 0; i < d->blocks_per_arena; i++)], adding arena [a]'s blocks to the free list. *)
Fixpoint new_arena_loop (n : nat) (h : heap P) (d : nat) (a i : Z) : outcome (heap P) :=
  match n with
  | O => Ret h
  | S n => let? b := arena_to_block h a i in
           let? h := list_push_back_block h d b in
           new_arena_loop n h d a (i + 1)
  end.

Definition malloc (h : heap P) (size : Z) : outcome (heap P * Z) :=
  if size =? 0 then Ret (h, NULL)
  else
    let d := find_desc (descs h) size in
    match descs h !! d with
    | None =>
        let page_cnt := DIV_ROUND_UP (u32 (size + sizeof_arena)) PGSIZE in
        let? (p, a) := pa_get (pages h) page_cnt in
        let h := with_pages h p in
        if a =? NULL then Ret (h, NULL)
        else Ret (with_arena h a (mk_arena None page_cnt), u32 (a + sizeof_arena))
    | Some D =>
        let? (h, ok) :=
          (match free_list D with
           | [] =>
               let? (p, a) := pa_get (pages h) 1 in
               let h := with_pages h p in
               if a =? NULL then Ret (h, false)
               else
                 let h := with_arena h a (mk_arena (Some d) (blocks_per_arena D)) in
                 let? h := new_arena_loop (Z.to_nat (blocks_per_arena D)) h d a 0 in
                 Ret (h, true)
           | _ :: _ => Ret (h, true)
           end) in
        if negb ok then Ret (h, NULL)
        else
          let? D := deref (descs h !! d) in
          match free_list D with
          | [] => Panic
          | b :: rest =>
              let h := with_desc h d (mk_desc (block_size D) (blocks_per_arena D) rest) in
              let? (a, r) := block_to_arena h b in
              Ret (with_arena h a (mk_arena (a_desc r) (u32 (free_cnt r - 1))), b)
          end
    end.

Definition calloc (h : heap P) (a b : Z) : outcome (heap P * Z) :=
  let size := u32 (a * b) in
  if (size <? a) || (size <? b) then Ret (h, NULL)
  else
    let? (h, p) := malloc h size in
    if negb (p =? NULL) then
      Ret (with_pages h (pa_set_mem (pages h) (memset (pa_mem (pages h)) p 0 size)), p)
    else Ret (h, p).

(** The static function [block_size]. *)
Definition size_of_block (h : heap P) (b : Z) : outcome Z :=
  let? (a, r) := block_to_arena h b in
  match a_desc r with
  | Some d => let? D := deref (descs h !! d) in Ret (block_size D)
  | None => Ret (u32 (PGSIZE * free_cnt r - pg_ofs b))
  end.

(** Unlinking a block that is on no list has no defined effect. *)
Definition list_remove_block (h : heap P) (d : nat) (b : Z) : outcome (heap P) :=
  let? D := deref (descs h !! d) in
  if decide (b ∈ free_list D) then
    Ret (with_desc h d (mk_desc (block_size D) (blocks_per_arena D)
                          (filter (fun x => x <> b) (free_list D))))
  else UB.

Fixpoint free_arena_loop (n : nat) (h : heap P) (d : nat) (a i : Z) : outcome (heap P) :=
  match n with
  | O => Ret h
  | S n => let? b := arena_to_block h a i in
           let? h := list_remove_block h d b in
           free_arena_loop n h d a (i + 1)
  end.

Definition free (h : heap P) (p : Z) : outcome (heap P) :=
  if p =? NULL then Ret h
  else
    let? (a, r) := block_to_arena h p in
    match a_desc r with
    | Some d =>
        let? D := deref (descs h !! d) in
        let h := with_pages h (pa_set_mem (pages h)
                   (memset (pa_mem (pages h)) p 0xcc (block_size D))) in
        let h := with_desc h d (mk_desc (block_size D) (blocks_per_arena D)
                                  (p :: free_list D)) in
        let free_cnt := u32 (free_cnt r + 1) in
        let h := with_arena h a (mk_arena (Some d) free_cnt) in
        if blocks_per_arena D <=? free_cnt then
          assert? (free_cnt =? blocks_per_arena D) in
          let? h := free_arena_loop (Z.to_nat (blocks_per_arena D)) h d a 0 in
          let? p := pa_free (pages h) a 1 in
          Ret (with_pages (del_arena h a) p)
        else Ret h
    | None =>
        let? p := pa_free (pages h) a (free_cnt r) in
        Ret (with_pages (del_arena h a) p)
    end.

Definition realloc (h : heap P) (old_block new_size : Z) : outcome (heap P * Z) :=
  if new_size =? 0 then let? h := free h old_block in Ret (h, NULL)
  else
    let? (h, new_block) := malloc h new_size in
    if negb (old_block =? NULL) && negb (new_block =? NULL) then
      let? old_size := size_of_block h old_block in
      let min_size := if new_size <? old_size then new_size else old_size in
      let h := with_pages h (pa_set_mem (pages h)
                 (memcpy_block (pa_mem (pages h)) new_block old_block min_size)) in
      let? h := free h old_block in
      Ret (h, new_block)
    else Ret (h, new_block).
End Operations.
