(* ===== verification/MallocFacts.v ===== *)
(** Correctness of the block allocator: the heap invariant, the set of live blocks, and the
    effect of [malloc] and [free] on it. *)
From S2P Require Import Prelude Bitmap Vaddr Palloc Malloc.

(** * Geometry of descriptors and arenas *)

(** The descriptors [malloc_init] makes: block size and blocks per arena. *)
Definition desc_table : list (Z * Z) :=
  [(16, 255); (32, 127); (64, 63); (128, 31); (256, 15); (512, 7); (1024, 3)].

Definition desc_shape (D : desc) : Z * Z := (block_size D, blocks_per_arena D).

Definition nth_block (D : desc) (a i : Z) : Z := a + 12 + i * block_size D.
(** All blocks of arena [a]. *)
Definition arena_blocks (D : desc) (a : Z) : list Z :=
  map (nth_block D a) (seqZ 0 (blocks_per_arena D)).

(** Pages the arena occupies. *)
Definition npages (r : arena) : Z :=
  match a_desc r with Some _ => 1 | None => free_cnt r end.

Definition in_page (a b : Z) : Prop := a <= b < a + 4096.
#[export] Instance in_page_dec a b : Decision (in_page a b).
Proof. unfold in_page. apply _. Defined.

Record good_desc (D : desc) : Prop := {
  gd_size : 16 <= block_size D <= 1024;
  gd_align : block_size D mod 4 = 0;
  gd_cnt : 0 < blocks_per_arena D <= 255;
  gd_fit : 12 + blocks_per_arena D * block_size D <= 4096
}.

Lemma desc_table_good ds d D :
  map desc_shape ds = desc_table -> ds !! d = Some D -> good_desc D.
Proof.
  intros E H.
  assert (desc_table !! d = Some (desc_shape D)) as L.
  { rewrite <- E. by rewrite list_lookup_fmap, H. }
  do 7 (destruct d as [|d]; [injection L as E1 E2; split; rewrite <- ?E1, <- ?E2; (lia || done)|]).
  done.
Qed.

Section Blocks.
Context (D : desc) (G : good_desc D) (a : Z) (Ha : a mod 4096 = 0) (Hr : 0 <= a <= 2 ^ 32 - 4096).

Lemma nth_block_page i : 0 <= i < blocks_per_arena D ->
  a <= nth_block D a i /\ nth_block D a i + block_size D <= a + 4096.
Proof. intros Hi. destruct G. unfold nth_block. nia. Qed.

Lemma round_down_in_page b : in_page a b -> pg_round_down b = a /\ pg_ofs b = b - a.
Proof.
  unfold in_page. intros Hb. pose proof (Z.div_mod a 4096 ltac:(lia)) as E.
  rewrite pg_round_down_div, pg_ofs_mod by lia.
  pose proof (Z.div_mod b 4096 ltac:(lia)). pose proof (Z.mod_pos_bound b 4096 ltac:(lia)). lia.
Qed.

Lemma nth_block_round i : 0 <= i < blocks_per_arena D ->
  pg_round_down (nth_block D a i) = a /\ pg_ofs (nth_block D a i) - 12 = i * block_size D.
Proof.
  intros Hi. pose proof (nth_block_page i Hi). destruct G.
  destruct (round_down_in_page (nth_block D a i)) as [-> ->]; [unfold in_page; lia|].
  split; [done|]. unfold nth_block. lia.
Qed.

Lemma nth_block_inj i j : nth_block D a i = nth_block D a j -> i = j.
Proof. destruct G. unfold nth_block. nia. Qed.

Lemma elem_of_arena_blocks b :
  b ∈ arena_blocks D a <-> exists i, 0 <= i < blocks_per_arena D /\ b = nth_block D a i.
Proof.
  unfold arena_blocks. rewrite list_elem_of_fmap. setoid_rewrite elem_of_seqZ.
  split; intros (i & H1 & H2); exists i; split; (done || lia).
Qed.

Lemma NoDup_arena_blocks : NoDup (arena_blocks D a).
Proof.
  unfold arena_blocks. apply NoDup_fmap_2_strong; [|apply NoDup_seqZ].
  intros i j _ _. apply nth_block_inj.
Qed.

Lemma length_arena_blocks : Z.of_nat (length (arena_blocks D a)) = blocks_per_arena D.
Proof. destruct G. unfold arena_blocks. rewrite length_map, length_seqZ. lia. Qed.

Lemma arena_blocks_in_page b : b ∈ arena_blocks D a -> in_page a b.
Proof.
  intros (i & Hi & ->)%elem_of_arena_blocks. pose proof (nth_block_page i Hi).
  destruct G. unfold in_page. lia.
Qed.
End Blocks.

(** [find_desc] returns the first descriptor whose blocks are large enough. *)
Lemma find_desc_Some ds size D :
  ds !! find_desc ds size = Some D -> size <= block_size D.
Proof.
  induction ds as [|D0 ds IH]; simpl; [done|].
  destruct (size <=? block_size D0) eqn:E; simpl; [intros [= <-]; lia|exact IH].
Qed.

Lemma find_desc_None ds size :
  ds !! find_desc ds size = None -> Forall (fun D => block_size D < size) ds.
Proof.
  induction ds as [|D0 ds IH]; simpl; [constructor|].
  destruct (size <=? block_size D0) eqn:E; simpl; [done|]. intros H.
  constructor; [lia|by apply IH].
Qed.

(** * The invariant *)

Section Heap.
Context {P : Type} `{PA : page_allocator P}.

Definition free_in (D : desc) (a : Z) : list Z := filter (in_page a) (free_list D).

(** The invariant without the bound on an arena's free blocks, which does not hold while an
    arena is being made or given back. *)
Record heap_inv0 (h : heap P) : Prop := {
  hi_descs : map desc_shape (descs h) = desc_table;
  hi_pages : pa_inv (pages h);
  hi_arena a r : arenas h !! a = Some r ->
    a mod 4096 = 0 /\ PHYS_BASE < a /\ 0 < npages r /\ a + 4096 * npages r <= 2 ^ 32 /\
    pa_run (pages h) a (npages r) /\
    forall q, q mod 4096 = 0 -> a <= q < a + 4096 * npages r -> pa_used (pages h) q = true;
  hi_small a d c : arenas h !! a = Some (mk_arena (Some d) c) ->
    exists D, descs h !! d = Some D /\ c = Z.of_nat (length (free_in D a));
  hi_disjoint a r a' r' : arenas h !! a = Some r -> arenas h !! a' = Some r' -> a < a' ->
    a + 4096 * npages r <= a';
  hi_free d D b : descs h !! d = Some D -> b ∈ free_list D ->
    exists a c, arenas h !! a = Some (mk_arena (Some d) c) /\ b ∈ arena_blocks D a;
  hi_nodup d D : descs h !! d = Some D -> NoDup (free_list D)
}.

(** Every small arena but [skip] has a block in use. *)
Definition arenas_in_use (h : heap P) (skip : Z) : Prop :=
  forall a d c D, arenas h !! a = Some (mk_arena (Some d) c) -> descs h !! d = Some D ->
    a <> skip -> c < blocks_per_arena D.

Definition heap_inv (h : heap P) : Prop := heap_inv0 h /\ arenas_in_use h 0.

(** The blocks handed out and not freed. *)
Definition live (h : heap P) (b : Z) : Prop :=
  exists a r, arenas h !! a = Some r /\
    match a_desc r with
    | None => b = a + 12
    | Some d => exists D, descs h !! d = Some D /\ b ∈ arena_blocks D a /\ b ∉ free_list D
    end.

Section Inv.
Context (h : heap P) (I : heap_inv0 h).

Lemma inv_good d D : descs h !! d = Some D -> good_desc D.
Proof. apply desc_table_good, I. Qed.

Lemma arena_addr a r : arenas h !! a = Some r ->
  a mod 4096 = 0 /\ 0 <= a <= 2 ^ 32 - 4096 /\ a <> 0.
Proof.
  intros H. destruct (hi_arena h I a r H) as (H1 & H2 & H3 & H4 & _).
  unfold PHYS_BASE in *. lia.
Qed.

(** [block_to_arena] accepts the blocks of a small arena. *)
Lemma block_to_arena_small a d c D b :
  arenas h !! a = Some (mk_arena (Some d) c) -> descs h !! d = Some D ->
  b ∈ arena_blocks D a ->
  block_to_arena h b = Ret (a, mk_arena (Some d) c).
Proof.
  intros Ha HD Hb. pose proof (inv_good d D HD) as G.
  destruct (arena_addr a _ Ha) as (H1 & H2 & H3).
  apply (elem_of_arena_blocks D) in Hb as (i & Hi & ->).
  destruct (nth_block_round D G a H1 H2 i Hi) as [E1 E2].
  pose proof (nth_block_page D G a i Hi).
  unfold block_to_arena. rewrite E1, (proj2 (Z.eqb_neq a NULL)) by done. cbn [negb].
  unfold arena_at. rewrite Ha. cbn [obind a_desc]. rewrite HD. cbn [deref obind].
  unfold sizeof_arena. destruct G as [G1 G2 G3 G4]. rewrite E2, u32_small by nia.
  rewrite Z.mod_mul by lia. done.
Qed.

Lemma block_to_arena_big a c : arenas h !! a = Some (mk_arena None c) ->
  block_to_arena h (a + 12) = Ret (a, mk_arena None c).
Proof.
  intros Ha. destruct (arena_addr a _ Ha) as (H1 & H2 & H3).
  destruct (round_down_in_page a H1 H2 (a + 12)) as [E1 E2]; [unfold in_page; lia|].
  unfold block_to_arena. rewrite E1, (proj2 (Z.eqb_neq a NULL)) by done. cbn [negb].
  unfold arena_at. rewrite Ha. cbn [obind a_desc]. rewrite E2. unfold sizeof_arena.
  by replace (a + 12 - a =? 12) with true by lia.
Qed.

Lemma arena_to_block_ok a d c D i :
  arenas h !! a = Some (mk_arena (Some d) c) -> descs h !! d = Some D ->
  good_desc D -> 0 <= a <= 2 ^ 32 - 4096 -> a <> 0 ->
  0 <= i < blocks_per_arena D -> arena_to_block h a i = Ret (nth_block D a i).
Proof.
  intros Ha HD G H2 H3 Hi. unfold arena_to_block.
  rewrite (proj2 (Z.eqb_neq a NULL)) by done. cbn [negb].
  unfold arena_at. rewrite Ha. cbn [obind a_desc deref]. rewrite HD. cbn [obind deref].
  rewrite (proj2 (Z.ltb_lt _ _)) by lia. unfold sizeof_arena.
  pose proof (nth_block_page D G a i Hi). unfold nth_block in *. destruct G.
  rewrite u32_small by lia. done.
Qed.

(** Two arenas that share a page are the same. *)
Lemma arena_unique a r a' r' b :
  arenas h !! a = Some r -> arenas h !! a' = Some r' ->
  a <= b < a + 4096 * npages r -> a' <= b < a' + 4096 * npages r' -> a = a'.
Proof.
  intros Ha Ha' Hb Hb'. destruct (Z_lt_dec a a') as [H|H].
  - pose proof (hi_disjoint h I a r a' r' Ha Ha' H). lia.
  - destruct (Z_lt_dec a' a) as [H'|H']; [|lia].
    pose proof (hi_disjoint h I a' r' a r Ha' Ha H'). lia.
Qed.

Lemma in_page_small a d c b : in_page a b -> 
  a <= b < a + 4096 * npages (mk_arena (Some d) c).
Proof. unfold in_page, npages. simpl. lia. Qed.

(** Free blocks of [a]'s page belong to arena [a]. *)
Lemma free_in_blocks a d c D b :
  arenas h !! a = Some (mk_arena (Some d) c) -> descs h !! d = Some D ->
  b ∈ free_in D a -> b ∈ arena_blocks D a.
Proof.
  intros Ha HD [Hp Hb]%list_elem_of_filter.
  destruct (hi_free h I d D b HD Hb) as (a' & c' & Ha' & Hb').
  assert (a = a') as ->; [|done].
  destruct (arena_addr a' _ Ha') as (H1 & H2 & _).
  pose proof (arena_blocks_in_page D (inv_good d D HD) a' b Hb').
  eapply arena_unique; [exact Ha|exact Ha'| |]; by apply in_page_small.
Qed.
End Inv.

(** ** Updating one descriptor and one of its arenas *)

Definition upd (h : heap P) (d : nat) (D : desc) (a c : Z) : heap P :=
  with_arena (with_desc h d D) a (mk_arena (Some d) c).

Lemma descs_insert_shape (ds : list desc) d D D' :
  ds !! d = Some D -> desc_shape D' = desc_shape D ->
  map desc_shape (<[d := D']> ds) = map desc_shape ds.
Proof.
  intros H E. rewrite list_fmap_insert, E. apply list_insert_id. by rewrite list_lookup_fmap, H.
Qed.

Lemma desc_lookup_upd (ds : list desc) d D D' d2 D2 :
  ds !! d = Some D -> <[d := D']> ds !! d2 = Some D2 ->
  (d2 = d /\ D2 = D') \/ (d2 <> d /\ ds !! d2 = Some D2).
Proof.
  intros H H2. apply lookup_lt_Some in H. destruct (decide (d2 = d)) as [->|Hn].
  - rewrite list_lookup_insert_eq in H2 by done. left. by injection H2 as <-.
  - rewrite list_lookup_insert_ne in H2 by done. by right.
Qed.

Lemma shape_eq D D' : desc_shape D' = desc_shape D ->
  block_size D' = block_size D /\ blocks_per_arena D' = blocks_per_arena D.
Proof. by intros [= -> ->]. Qed.

Lemma arena_blocks_shape D D' a : desc_shape D' = desc_shape D ->
  arena_blocks D' a = arena_blocks D a.
Proof. intros [E1 E2]%shape_eq. unfold arena_blocks, nth_block. by rewrite E1, E2. Qed.

Section Upd.
Context (h : heap P) (I : heap_inv0 h) (d : nat) (D D' : desc) (a c c' : Z).
Context (HD : descs h !! d = Some D) (HS : desc_shape D' = desc_shape D).
Context (Ha : arenas h !! a = Some (mk_arena (Some d) c)).

Lemma upd_desc_eq : descs (upd h d D' a c') !! d = Some D'.
Proof. simpl. apply list_lookup_insert_eq. by eapply lookup_lt_Some. Qed.

Lemma upd_arena a2 r2 : arenas (upd h d D' a c') !! a2 = Some r2 ->
  exists r, arenas h !! a2 = Some r /\ a_desc r2 = a_desc r /\ npages r2 = npages r /\
    (r2 = r \/ a2 = a /\ r2 = mk_arena (Some d) c').
Proof.
  simpl. intros H. destruct (decide (a2 = a)) as [->|Hn].
  - rewrite lookup_insert_eq in H. injection H as <-.
    exists (mk_arena (Some d) c). split_and!; [done..|by right].
  - rewrite lookup_insert_ne in H by done. exists r2. by split_and!; [..|left].
Qed.

Lemma upd_inv0 :
  c' = Z.of_nat (length (free_in D' a)) ->
  (forall a2, a2 <> a -> is_Some (arenas h !! a2) -> free_in D' a2 = free_in D a2) ->
  (forall b, b ∈ free_list D' -> b ∈ free_list D \/ b ∈ arena_blocks D a) ->
  NoDup (free_list D') -> heap_inv0 (upd h d D' a c').
Proof.
  intros Hc Hother Hin Hnd. split.
  - simpl. rewrite (descs_insert_shape _ d D) by done. apply I.
  - apply I.
  - intros a2 r2 H. destruct (upd_arena a2 r2 H) as (r & H2 & _ & -> & _).
    apply (hi_arena h I a2 r H2).
  - intros a2 d2 c2 H. destruct (upd_arena _ _ H) as (r & H2 & E & _ & [<-|[-> Er]]).
    + destruct (decide (a2 = a)) as [->|Hn].
      { simpl in H. rewrite lookup_insert_eq in H. injection H as <- <-.
        exists D'. by rewrite upd_desc_eq. }
      destruct (hi_small h I a2 d2 c2 H2) as (D2 & HD2 & Hc2).
      destruct (decide (d2 = d)) as [->|Hd].
      * exists D'. rewrite upd_desc_eq. split; [done|]. rewrite HD in HD2. injection HD2 as <-.
        rewrite Hother; [done|done|by eexists].
      * exists D2. simpl. by rewrite list_lookup_insert_ne.
    + injection Er as -> ->. exists D'. by rewrite upd_desc_eq.
  - intros a1 r1 a2 r2 H1 H2. destruct (upd_arena _ _ H1) as (s1 & E1 & _ & -> & _).
    destruct (upd_arena _ _ H2) as (s2 & E2 & _ & _ & _).
    apply (hi_disjoint h I a1 s1 a2 s2 E1 E2).
  - intros d2 D2 b H Hb.
    assert (forall a2 c2, arenas h !! a2 = Some (mk_arena (Some d2) c2) ->
      exists c3, arenas (upd h d D' a c') !! a2 = Some (mk_arena (Some d2) c3)) as Hkeep.
    { intros a2 c2 H2. simpl. destruct (decide (a2 = a)) as [->|Hn].
      - rewrite Ha in H2. injection H2 as <- <-. rewrite lookup_insert_eq. by eexists.
      - rewrite lookup_insert_ne by done. by eexists. }
    apply (desc_lookup_upd _ d D) in H as [[-> ->]|[Hd H]]; [| |done].
    + destruct (Hin b Hb) as [Hb'|Hb'].
      * destruct (hi_free h I d D b HD Hb') as (a2 & c2 & H2 & Hb2).
        destruct (Hkeep a2 c2 H2) as [c3 H3]. exists a2, c3.
        by rewrite (arena_blocks_shape D D').
      * destruct (Hkeep a c Ha) as [c3 H3]. exists a, c3. by rewrite (arena_blocks_shape D D').
    + destruct (hi_free h I d2 D2 b H Hb) as (a2 & c2 & H2 & Hb2).
      destruct (Hkeep a2 c2 H2) as [c3 H3]. by exists a2, c3.
  - intros d2 D2 H. apply (desc_lookup_upd _ d D) in H as [[-> ->]|[Hd H]]; [done| |done].
    by eapply (hi_nodup h I).
Qed.

Lemma upd_live x : live (upd h d D' a c') x <->
  (exists a2 r2, arenas h !! a2 = Some r2 /\
     match a_desc r2 with
     | None => x = a2 + 12
     | Some d2 => if decide (d2 = d) then x ∈ arena_blocks D a2 /\ x ∉ free_list D'
         else exists D2, descs h !! d2 = Some D2 /\ x ∈ arena_blocks D2 a2 /\ x ∉ free_list D2
     end).
Proof.
  assert (forall a2 r2, match a_desc r2 with
     | None => x = a2 + 12
     | Some d2 => if decide (d2 = d) then x ∈ arena_blocks D a2 /\ x ∉ free_list D'
         else exists D2, descs h !! d2 = Some D2 /\ x ∈ arena_blocks D2 a2 /\ x ∉ free_list D2
     end <-> match a_desc r2 with
    | None => x = a2 + 12
    | Some d2 => exists D2, descs (upd h d D' a c') !! d2 = Some D2 /\
        x ∈ arena_blocks D2 a2 /\ x ∉ free_list D2
    end) as Hm.
  { intros a2 r2. destruct (a_desc r2) as [d2|]; [|done].
    destruct (decide (d2 = d)) as [->|Hn].
    - rewrite upd_desc_eq. rewrite <- (arena_blocks_shape D D') by done. naive_solver.
    - simpl. by rewrite list_lookup_insert_ne. }
  split.
  - intros (a2 & r2 & H & Hl). destruct (upd_arena a2 r2 H) as (r & H2 & E & _).
    exists a2, r. split; [done|]. apply Hm. by rewrite <- E.
  - intros (a2 & r2 & H & Hl). apply Hm in Hl. destruct (decide (a2 = a)) as [->|Hn].
    + exists a, (mk_arena (Some d) c'). split; [simpl; by rewrite lookup_insert_eq|].
      rewrite Ha in H. injection H as <-. exact Hl.
    + exists a2, r2. split; [simpl; by rewrite lookup_insert_ne|done].
Qed.
End Upd.

(** ** Taking a block off a free list and putting one on *)

Section Step.
Context (h : heap P) (I : heap_inv0 h) (d : nat) (D : desc) (a c : Z).
Context (HD : descs h !! d = Some D) (Ha : arenas h !! a = Some (mk_arena (Some d) c)).

Lemma live_block b : b ∈ arena_blocks D a -> live h b <-> b ∉ free_list D.
Proof.
  intros Hb. split.
  - intros (a2 & r2 & H2 & Hl).
    destruct (arena_addr h I a _ Ha) as (A1 & A2 & A3).
    destruct (arena_addr h I a2 _ H2) as (B1 & B2 & B3).
    pose proof (arena_blocks_in_page D (inv_good h I d D HD) a b Hb) as Hp.
    assert (a2 = a) as ->.
    { eapply (arena_unique h I); [exact H2|exact Ha| |by apply in_page_small].
      destruct r2 as [[d2|] c2]; simpl in Hl.
      - destruct Hl as (D2 & HD2 & Hb2 & _). apply in_page_small.
        eapply arena_blocks_in_page; [|done..]. by eapply inv_good.
      - destruct (hi_arena h I a2 _ H2) as (_ & _ & Hn & _). unfold npages in *. simpl in *. lia. }
    rewrite Ha in H2. injection H2 as <-. simpl in Hl.
    destruct Hl as (D2 & HD2 & _ & Hn). congruence.
  - intros Hn. exists a, (mk_arena (Some d) c). split; [done|]. by exists D.
Qed.

Lemma free_list_bound : c <= blocks_per_arena D.
Proof.
  destruct (hi_small h I a d c Ha) as (D2 & HD2 & ->). rewrite HD in HD2. injection HD2 as <-.
  rewrite <- (length_arena_blocks D (inv_good h I d D HD) a).
  apply Nat2Z.inj_le, submseteq_length, NoDup_submseteq.
  - apply NoDup_filter. by eapply (hi_nodup h I).
  - intros b Hb. by eapply (free_in_blocks h I).
Qed.

Lemma pop_step b rest : free_list D = b :: rest -> b ∈ arena_blocks D a ->
  arenas_in_use h a ->
  let D' := mk_desc (block_size D) (blocks_per_arena D) rest in
  let h' := upd h d D' a (u32 (c - 1)) in
  heap_inv h' /\ ~ live h b /\ forall x, live h' x <-> live h x \/ x = b.
Proof.
  intros Hf Hb Hu D' h'.
  pose proof (hi_nodup h I d D HD) as Hnd. rewrite Hf in Hnd.
  apply NoDup_cons in Hnd as [Hbr Hnd].
  destruct (arena_addr h I a _ Ha) as (A1 & A2 & A3).
  pose proof (arena_blocks_in_page D (inv_good h I d D HD) a b Hb) as Hp.
  assert (c = Z.of_nat (S (length (free_in D' a)))) as Hc.
  { destruct (hi_small h I a d c Ha) as (D2 & HD2 & ->). rewrite HD in HD2. injection HD2 as <-.
    unfold free_in. rewrite Hf, filter_cons_True by done. done. }
  pose proof free_list_bound as Hle. pose proof (gd_cnt D (inv_good h I d D HD)) as Hcnt.
  assert (u32 (c - 1) = Z.of_nat (length (free_in D' a))) as Hc' by (rewrite u32_small; lia).
  split; [split|split].
  - apply (upd_inv0 h I d D D' a c); [done|done|done|done| | |done].
    + intros a2 Hn [r2 H2]. unfold free_in. rewrite Hf, filter_cons_False; [done|].
      intros Hp2. apply Hn. eapply (arena_unique h I); [exact H2|exact Ha| |by apply in_page_small].
      destruct (hi_arena h I a2 _ H2) as (_ & _ & Hr & _). unfold in_page in Hp2. lia.
    + intros x Hx. left. rewrite Hf. by right.
  - intros a2 d2 c2 D2 H2 HD2 _.
    destruct (decide (a2 = a)) as [->|Hn].
    + simpl in H2. rewrite lookup_insert_eq in H2. injection H2 as <- <-.
      simpl in HD2. rewrite list_lookup_insert_eq in HD2 by (by eapply lookup_lt_Some).
      injection HD2 as <-. simpl. lia.
    + simpl in H2, HD2. rewrite lookup_insert_ne in H2 by done.
      apply (desc_lookup_upd _ d D) in HD2 as [[-> ->]|[Hd HD2]]; [| |done].
      * by apply (Hu a2 d c2 D).
      * by apply (Hu a2 d2 c2 D2).
  - rewrite (live_block b Hb), Hf. intros Hn. apply Hn. by left.
  - intros x. unfold h'. rewrite (upd_live h d D D' a c) by done. split.
    + intros (a2 & r2 & H2 & Hl). destruct (decide (x = b)) as [->|Hx]; [by right|left].
      exists a2, r2. split; [done|]. destruct (a_desc r2) as [d2|]; [|done].
      destruct (decide (d2 = d)) as [->|]; [|done]. destruct Hl as [Hl1 Hl2].
      exists D. split_and!; [done..|]. rewrite Hf. apply not_elem_of_cons. done.
    + intros [(a2 & r2 & H2 & Hl)| ->].
      * exists a2, r2. split; [done|]. destruct (a_desc r2) as [d2|]; [|done].
        destruct (decide (d2 = d)) as [->|]; [|done]. destruct Hl as (D2 & HD2 & Hl1 & Hl2).
        rewrite HD in HD2. injection HD2 as <-. split; [done|].
        rewrite Hf in Hl2. by apply not_elem_of_cons in Hl2 as [_ ?].
      * exists a, (mk_arena (Some d) c). split; [done|]. simpl. by rewrite decide_True.
Qed.

Lemma push_step b : b ∈ arena_blocks D a -> b ∉ free_list D ->
  arenas_in_use h 0 ->
  let D' := mk_desc (block_size D) (blocks_per_arena D) (b :: free_list D) in
  let h' := upd h d D' a (u32 (c + 1)) in
  heap_inv0 h' /\ u32 (c + 1) = c + 1 /\ c + 1 <= blocks_per_arena D /\ arenas_in_use h' a /\
  forall x, live h' x <-> live h x /\ x <> b.
Proof.
  intros Hb Hnf Hu D' h'.
  destruct (arena_addr h I a _ Ha) as (A1 & A2 & A3).
  pose proof (arena_blocks_in_page D (inv_good h I d D HD) a b Hb) as Hp.
  assert (Z.of_nat (length (free_in D' a)) = c + 1) as Hc.
  { destruct (hi_small h I a d c Ha) as (D2 & HD2 & ->). rewrite HD in HD2. injection HD2 as <-.
    unfold free_in, D'. cbn [free_list]. rewrite filter_cons_True by done. simpl. lia. }
  pose proof (gd_cnt D (inv_good h I d D HD)) as Hcnt.
  assert (c < blocks_per_arena D) as Hlt by (by apply (Hu a d c D)).
  assert (u32 (c + 1) = c + 1) as Eu by (apply u32_small; lia).
  split_and!; [|done|lia| |].
  - apply (upd_inv0 h I d D D' a c); [done|done|done|by rewrite Eu| | |].
    + intros a2 Hn [r2 H2]. unfold free_in, D'. cbn [free_list].
      rewrite filter_cons_False; [done|].
      intros Hp2. apply Hn. eapply (arena_unique h I); [exact H2|exact Ha| |by apply in_page_small].
      destruct (hi_arena h I a2 _ H2) as (_ & _ & Hr & _). unfold in_page in Hp2. lia.
    + intros x Hx. apply elem_of_cons in Hx as [->|Hx]; [by right|by left].
    + apply NoDup_cons. split; [done|by eapply (hi_nodup h I)].
  - intros a2 d2 c2 D2 H2 HD2 Hn. simpl in H2, HD2. rewrite lookup_insert_ne in H2 by done.
    destruct (arena_addr h I a2 _ H2) as (_ & _ & N2).
    apply (desc_lookup_upd _ d D) in HD2 as [[-> ->]|[Hd HD2]]; [| |done].
    + by apply (Hu a2 d c2 D).
    + by apply (Hu a2 d2 c2 D2).
  - intros x. unfold h'. rewrite (upd_live h d D D' a c) by done. split.
    + intros (a2 & r2 & H2 & Hl). split.
      * exists a2, r2. split; [done|]. destruct (a_desc r2) as [d2|]; [|done].
        destruct (decide (d2 = d)) as [->|]; [|done]. destruct Hl as [Hl1 Hl2].
        apply not_elem_of_cons in Hl2 as [_ ?]. by exists D.
      * intros ->. assert (live h b) as Hlb.
        { by rewrite (live_block b Hb). }
        assert (a2 = a) as ->.
        { destruct (arena_addr h I a2 _ H2) as (B1 & B2 & B3).
          eapply (arena_unique h I); [exact H2|exact Ha| |by apply in_page_small].
          destruct r2 as [[d2|] c2]; simpl in Hl.
          - apply in_page_small. destruct (decide (d2 = d)) as [->|].
            + destruct Hl. eapply arena_blocks_in_page; [|done..]. by eapply inv_good.
            + destruct Hl as (D2 & HD2 & Hb2 & _).
              eapply arena_blocks_in_page; [|done..]. by eapply inv_good.
          - destruct (hi_arena h I a2 _ H2) as (_ & _ & Hn & _). unfold npages in *. simpl in *. lia. }
        rewrite Ha in H2. injection H2 as <-. simpl in Hl. rewrite decide_True in Hl by done.
        destruct Hl as [_ Hl]. apply Hl. by left.
    + intros [(a2 & r2 & H2 & Hl) Hx]. exists a2, r2. split; [done|].
      destruct (a_desc r2) as [d2|]; [|done].
      destruct (decide (d2 = d)) as [->|]; [|done]. destruct Hl as (D2 & HD2 & Hl1 & Hl2).
      rewrite HD in HD2. injection HD2 as <-. split; [done|].
      simpl. apply not_elem_of_cons. done.
Qed.
End Step.
End Heap.

(** ** Making an arena and giving one back *)

Section Arenas.
Context {P : Type} `{PA : page_allocator P}.
Implicit Types h : heap P.

Lemma with_desc_twice h d D1 D2 : with_desc (with_desc h d D1) d D2 = with_desc h d D2.
Proof. unfold with_desc. simpl. by rewrite list_insert_insert_eq. Qed.

Lemma with_desc_id h d D : descs h !! d = Some D -> with_desc h d D = h.
Proof. intros H. unfold with_desc. rewrite list_insert_id by done. by destruct h. Qed.

Lemma seqZ_S i n : seqZ i (Z.of_nat (S n)) = i :: seqZ (i + 1) (Z.of_nat n).
Proof.
  rewrite seqZ_cons by lia. f_equal. f_equal; lia.
Qed.

Lemma new_arena_loop_spec n h d D a c i :
  descs h !! d = Some D -> good_desc D -> arenas h !! a = Some (mk_arena (Some d) c) ->
  0 <= a <= 2 ^ 32 - 4096 -> a <> 0 -> 0 <= i -> i + Z.of_nat n <= blocks_per_arena D ->
  new_arena_loop n h d a i =
    Ret (with_desc h d (mk_desc (block_size D) (blocks_per_arena D)
           (free_list D ++ map (nth_block D a) (seqZ i (Z.of_nat n))))).
Proof.
  revert h D i. induction n as [|n IH]; intros h D i HD G Ha A2 A3 Hi Hn.
  - simpl. rewrite app_nil_r. by rewrite with_desc_id by (by destruct D).
  - cbn [new_arena_loop].
    rewrite (arena_to_block_ok h a d c D i) by (done || lia). cbn [obind].
    unfold list_push_back_block. rewrite HD. cbn [obind deref].
    set (D1 := mk_desc _ _ _).
    rewrite (IH (with_desc h d D1) D1); [| |by destruct G; split|done|done|done|lia|simpl; lia].
    + rewrite with_desc_twice. simpl. do 3 f_equal. rewrite seqZ_S, <- app_assoc. done.
    + simpl. apply list_lookup_insert_eq. by eapply lookup_lt_Some.
Qed.

Lemma free_arena_loop_spec n h d D a c i :
  descs h !! d = Some D -> good_desc D -> arenas h !! a = Some (mk_arena (Some d) c) ->
  0 <= a <= 2 ^ 32 - 4096 -> a <> 0 -> 0 <= i -> i + Z.of_nat n <= blocks_per_arena D ->
  (forall j, i <= j < i + Z.of_nat n -> nth_block D a j ∈ free_list D) ->
  exists D', free_arena_loop n h d a i = Ret (with_desc h d D') /\
    desc_shape D' = desc_shape D /\
    free_list D' = filter (fun x => x ∉ map (nth_block D a) (seqZ i (Z.of_nat n))) (free_list D).
Proof.
  revert h D i. induction n as [|n IH]; intros h D i HD G Ha A2 A3 Hi Hn Hin.
  - exists D. simpl. rewrite with_desc_id by done. split_and!; [done|done|].
    symmetry. apply list_filter_all. intros x _. apply not_elem_of_nil.
  - cbn [free_arena_loop].
    rewrite (arena_to_block_ok h a d c D i) by (done || lia). cbn [obind].
    unfold list_remove_block. rewrite HD. cbn [obind deref].
    rewrite decide_True by (apply Hin; lia). cbn [obind].
    set (D1 := mk_desc _ _ _).
    destruct (IH (with_desc h d D1) D1 (i + 1)) as (D' & -> & S1 & S2);
      [| by destruct G; split|done|done|done|lia|simpl; lia| |].
    + simpl. apply list_lookup_insert_eq. by eapply lookup_lt_Some.
    + intros j Hj. simpl. apply list_elem_of_filter. split.
      * intros E. apply (nth_block_inj D G a) in E. lia.
      * apply Hin. lia.
    + exists D'. rewrite with_desc_twice. split_and!; [done|done|].
      rewrite S2. simpl. rewrite list_filter_filter. apply list_filter_iff.
      intros x. rewrite seqZ_S. simpl. rewrite not_elem_of_cons. tauto.
Qed.

(** Replacing the pages' state by one in which the arenas' pages are still used. *)
Lemma with_pages_inv0 h p : heap_inv0 h -> pa_inv p ->
  (forall b k, pa_run (pages h) b k -> pa_run p b k) ->
  (forall q, q mod 4096 = 0 -> pa_used (pages h) q = true -> pa_used p q = true) ->
  heap_inv0 (with_pages h p).
Proof.
  intros I HP HR HU. destruct I as [I1 I2 I3 I4 I5 I6 I7]. split; simpl; try done.
  intros a r H. destruct (I3 a r H) as (H1 & H2 & H3 & H4 & H5 & H6).
  split_and!; auto.
Qed.

(** A new entry in the map of arenas, for fresh pages. *)
Lemma add_arena_inv0 h a r p : heap_inv0 h -> pa_inv p ->
  PHYS_BASE < a -> a + 4096 * npages r <= 2 ^ 32 -> a mod 4096 = 0 -> 0 < npages r ->
  (forall q, q mod 4096 = 0 -> a <= q < a + 4096 * npages r -> pa_used (pages h) q = false) ->
  (forall q, q mod 4096 = 0 -> pa_used p q =
     if in_range q a (4096 * npages r) then true else pa_used (pages h) q) ->
  pa_run p a (npages r) -> (forall b k, pa_run (pages h) b k -> pa_run p b k) ->
  (forall d c, r = mk_arena (Some d) c -> exists D, descs h !! d = Some D /\
     c = Z.of_nat (length (free_in D a))) ->
  heap_inv0 (with_arena (with_pages h p) a r) /\ arenas h !! a = None /\
  forall a2 r2, arenas h !! a2 = Some r2 -> a2 + 4096 * npages r2 <= a \/
    a + 4096 * npages r <= a2.
Proof.
  intros I HP A1 A2 A3 A4 Hfree Hused Hrun Hruns Hsmall.
  assert (forall a2 r2, arenas h !! a2 = Some r2 ->
    a2 + 4096 * npages r2 <= a \/ a + 4096 * npages r <= a2) as Hsep.
  { intros a2 r2 H2. destruct (hi_arena h I a2 r2 H2) as (B1 & B2 & B3 & B4 & _ & B6).
    pose proof (Z.div_mod a 4096 ltac:(lia)). pose proof (Z.div_mod a2 4096 ltac:(lia)).
    destruct (Z_le_dec (a2 + 4096 * npages r2) a); [by left|].
    destruct (Z_le_dec (a + 4096 * npages r) a2); [by right|]. exfalso.
    destruct (Z_le_dec a a2).
    - pose proof (Hfree a2 B1 ltac:(lia)) as E. rewrite (B6 a2) in E by (done || lia). done.
    - pose proof (Hfree a A3 ltac:(lia)) as E. rewrite (B6 a) in E by (done || lia). done. }
  assert (arenas h !! a = None) as Hnone.
  { destruct (arenas h !! a) as [r2|] eqn:H2; [|done]. exfalso.
    destruct (hi_arena h I a r2 H2) as (_ & _ & B3 & _). destruct (Hsep a r2 H2); lia. }
  split_and!; [|done|done].
  pose proof I as [I1 I2 I3 I4 I5 I6 I7]. split; simpl; try done.
  - intros a2 r2. destruct (decide (a2 = a)) as [->|Hn].
    + rewrite lookup_insert_eq. intros [= <-]. split_and!; try done.
      intros q Hq Hr. rewrite Hused by done. unfold in_range.
      by replace ((a <=? q) && (q <? a + 4096 * npages r)) with true by lia.
    + rewrite lookup_insert_ne by done. intros H2.
      destruct (I3 a2 r2 H2) as (B1 & B2 & B3 & B4 & B5 & B6).
      split_and!; try done; [by apply Hruns|].
      intros q Hq Hr. rewrite Hused by done. destruct (in_range _ _ _); [done|]. by apply B6.
  - intros a2 d c. destruct (decide (a2 = a)) as [->|Hn].
    + rewrite lookup_insert_eq. intros [= ->]. by apply (Hsmall d c).
    + rewrite lookup_insert_ne by done. apply I4.
  - intros a1 r1 a2 r2 H1 H2 Hlt. destruct (decide (a1 = a)) as [->|N1].
    + rewrite lookup_insert_eq in H1. injection H1 as <-.
      rewrite lookup_insert_ne in H2 by lia. destruct (I3 a2 r2 H2) as (_ & _ & B3 & _).
      destruct (Hsep a2 r2 H2); lia.
    + rewrite lookup_insert_ne in H1 by done. destruct (decide (a2 = a)) as [->|N2].
      * destruct (Hsep a1 r1 H1); lia.
      * rewrite lookup_insert_ne in H2 by done. by apply (I5 a1 r1 a2 r2).
  - intros d D b HD Hb. destruct (I6 d D b HD Hb) as (a2 & c2 & H2 & Hb2).
    exists a2, c2. split; [|done]. rewrite lookup_insert_ne; [done|]. intros ->. congruence.
Qed.

(** Removing an arena none of whose blocks is on a free list. *)
Lemma del_arena_inv0 h a r p : heap_inv0 h -> arenas h !! a = Some r -> pa_inv p ->
  (forall d D, descs h !! d = Some D -> forall b, b ∈ free_list D -> ~ (exists c,
     r = mk_arena (Some d) c /\ b ∈ arena_blocks D a)) ->
  (forall q, q mod 4096 = 0 -> pa_used p q =
     if in_range q a (4096 * npages r) then false else pa_used (pages h) q) ->
  (forall b k, pa_run (pages h) b k -> pa_run p b k) ->
  heap_inv0 (with_pages (del_arena h a) p).
Proof.
  intros I Ha HP Hfree Hused Hruns. pose proof I as [I1 I2 I3 I4 I5 I6 I7].
  split; simpl; try done.
  - intros a2 r2 H2. apply lookup_delete_Some in H2 as [Hn H2].
    destruct (I3 a2 r2 H2) as (B1 & B2 & B3 & B4 & B5 & B6).
    split_and!; try done; [by apply Hruns|].
    intros q Hq Hr. rewrite Hused by done.
    destruct (in_range q a (4096 * npages r)) eqn:E; [|by apply B6]. exfalso.
    unfold in_range in E. apply Hn.
    apply (arena_unique h I a r a2 r2 q); (done || lia).
  - intros a2 d c H2. apply lookup_delete_Some in H2 as [_ H2]. by apply I4.
  - intros a1 r1 a2 r2 H1 H2. apply lookup_delete_Some in H1 as [_ H1].
    apply lookup_delete_Some in H2 as [_ H2]. by apply (I5 a1 r1 a2 r2).
  - intros d D b HD Hb. destruct (I6 d D b HD Hb) as (a2 & c2 & H2 & Hb2).
    exists a2, c2. split; [|done]. apply lookup_delete_Some. split; [|done].
    intros <-. rewrite Ha in H2. injection H2 as ->.
    apply (Hfree d D HD b Hb). by exists c2.
Qed.

Lemma live_with_pages h p x : live (with_pages h p) x <-> live h x.
Proof. done. Qed.
End Arenas.

(** * [malloc] and [free] *)

Section Theorems.
Context {P : Type} `{PA : page_allocator P}.
Implicit Types h : heap P.

(** The size of a live block, and where it lies. *)
Lemma live_size h b : heap_inv0 h -> live h b ->
  exists a r n, arenas h !! a = Some r /\ size_of_block h b = Ret n /\ 4 <= n /\
    a + 12 <= b /\ b + n <= a + 4096 * npages r /\
    match a_desc r with
    | None => b = a + 12 /\ n = 4096 * free_cnt r - 12
    | Some d => exists D i, descs h !! d = Some D /\ n = block_size D /\
        0 <= i < blocks_per_arena D /\ b = nth_block D a i
    end.
Proof.
  intros I (a & r & Ha & Hl). destruct (arena_addr h I a r Ha) as (A1 & A2 & A3).
  destruct (hi_arena h I a r Ha) as (_ & B2 & B3 & B4 & _). unfold PHYS_BASE in B2.
  exists a, r. destruct r as [[d|] c]; simpl in Hl |- *.
  - destruct Hl as (D & HD & Hb & _). pose proof (inv_good h I d D HD) as G.
    exists (block_size D). unfold size_of_block.
    rewrite (block_to_arena_small h I a d c D b) by done. cbn [obind a_desc]. rewrite HD.
    apply (elem_of_arena_blocks D) in Hb as (i & Hi & ->).
    pose proof (nth_block_page D G a i Hi). pose proof (gd_size D G). unfold npages. simpl.
    split_and!; try done; [lia|unfold nth_block; nia|lia|]. by exists D, i.
  - subst b. exists (4096 * c - 12). unfold npages in *. simpl in *. unfold size_of_block.
    rewrite (block_to_arena_big h I a c) by done. cbn [obind a_desc free_cnt].
    destruct (round_down_in_page a A1 A2 (a + 12)) as [_ ->]; [unfold in_page; lia|].
    rewrite PGSIZE_val, u32_small by lia. split_and!; try done; try lia.
    f_equal. lia.
Qed.

Lemma live_disjoint h x y n m : heap_inv0 h -> live h x -> live h y -> x <> y ->
  size_of_block h x = Ret n -> size_of_block h y = Ret m -> x + n <= y \/ y + m <= x.
Proof.
  intros I Hx Hy Hne Ex Ey.
  destruct (live_size h x I Hx) as (a & r & n' & Ha & E & _ & X1 & X2 & X3).
  rewrite E in Ex. injection Ex as ->.
  destruct (live_size h y I Hy) as (a' & r' & m' & Ha' & E' & _ & Y1 & Y2 & Y3).
  rewrite E' in Ey. injection Ey as ->.
  destruct (Z_lt_dec a a') as [H|H].
  { pose proof (hi_disjoint h I a r a' r' Ha Ha' H). lia. }
  destruct (Z_lt_dec a' a) as [H'|H'].
  { pose proof (hi_disjoint h I a' r' a r Ha' Ha H'). lia. }
  assert (a = a') as <- by lia. rewrite Ha in Ha'. injection Ha' as <-.
  destruct (a_desc r) as [d|]; [|lia].
  destruct X3 as (D & i & HD & -> & Hi & ->). destruct Y3 as (D' & j & HD' & -> & Hj & ->).
  rewrite HD in HD'. injection HD' as <-.
  pose proof (gd_size D (inv_good h I d D HD)). unfold nth_block in *.
  destruct (Z_lt_dec i j); [left; nia|]. right. assert (j < i); [|nia].
  destruct (decide (i = j)) as [->|]; [done|lia].
Qed.

(** The address, the size and the separation of a block just handed out. *)
Definition fresh_block (h h' : heap P) (size b : Z) : Prop :=
  heap_inv h' /\ ~ live h b /\ (forall x, live h' x <-> live h x \/ x = b) /\
  exists n, size_of_block h' b = Ret n /\ size <= n /\
    forall y m, live h y -> size_of_block h' y = Ret m -> b + n <= y \/ y + m <= b.

Lemma fresh_block_intro h h' size b n :
  heap_inv h' -> ~ live h b -> (forall x, live h' x <-> live h x \/ x = b) ->
  size_of_block h' b = Ret n -> size <= n -> fresh_block h h' size b.
Proof.
  intros I Hn Hl Hs Hle. split_and!; try done. exists n. split_and!; try done.
  intros y m Hy Ey. apply (live_disjoint h'); try done; [apply I| | |].
  - apply Hl. by right.
  - apply Hl. by left.
  - intros ->. done.
Qed.

(** The last part of [malloc]: taking the first block of a free list. *)
Lemma malloc_pop h d D a c b rest :
  heap_inv0 h -> descs h !! d = Some D -> arenas h !! a = Some (mk_arena (Some d) c) ->
  free_list D = b :: rest -> b ∈ arena_blocks D a -> arenas_in_use h a ->
  exists h', (let h := with_desc h d (mk_desc (block_size D) (blocks_per_arena D) rest) in
     let? (a, r) := block_to_arena h b in
     Ret (with_arena h a (mk_arena (a_desc r) (u32 (free_cnt r - 1))), b)) = Ret (h', b) /\
    heap_inv h' /\ ~ live h b /\ (forall x, live h' x <-> live h x \/ x = b) /\
    size_of_block h' b = Ret (block_size D).
Proof.
  intros I HD Ha Hf Hb Hu.
  destruct (pop_step h I d D a c HD Ha b rest Hf Hb Hu) as (I' & Hnl & Hl).
  set (D' := mk_desc (block_size D) (blocks_per_arena D) rest) in *.
  assert (descs (with_desc h d D') !! d = Some D') as HD'.
  { simpl. apply list_lookup_insert_eq. by eapply lookup_lt_Some. }
  exists (upd h d D' a (u32 (c - 1))). split_and!; try done.
  - assert (block_to_arena (with_desc h d D') b = Ret (a, mk_arena (Some d) c)) as E.
    { pose proof (block_to_arena_small h I a d c D b Ha HD Hb) as E. revert E.
      unfold block_to_arena, arena_at. simpl. destruct (arenas h !! pg_round_down b) as [r|]; [|done].
      destruct (negb (pg_round_down b =? NULL)); [|done].
      cbn [obind]. destruct (a_desc r) as [d2|] eqn:Er; [|done]. simpl.
      destruct (decide (d2 = d)) as [->|Hd]; [|by rewrite list_lookup_insert_ne].
      rewrite list_lookup_insert_eq by (by eapply lookup_lt_Some). rewrite HD. done. }
    cbv zeta. rewrite E. done.
  - unfold size_of_block.
    rewrite (block_to_arena_small _ (proj1 I') a d (u32 (c - 1)) D').
    + cbn [obind a_desc]. rewrite upd_desc_eq with (D := D) by done. done.
    + simpl. by rewrite lookup_insert_eq.
    + by rewrite upd_desc_eq with (D := D).
    + by rewrite (arena_blocks_shape D D').
Qed.

(** A new arena: the heap once its blocks are on the free list. *)
Lemma new_arena_ok h d D p a :
  heap_inv h -> descs h !! d = Some D -> free_list D = [] -> pa_inv p ->
  PHYS_BASE < a -> a + 4096 * 1 <= 2 ^ 32 -> a mod 4096 = 0 ->
  (forall q, q mod 4096 = 0 -> a <= q < a + 4096 * 1 -> pa_used (pages h) q = false) ->
  (forall q, q mod 4096 = 0 -> pa_used p q =
     if in_range q a (4096 * 1) then true else pa_used (pages h) q) ->
  pa_run p a 1 -> (forall b k, pa_run (pages h) b k -> pa_run p b k) ->
  exists h2, new_arena_loop (Z.to_nat (blocks_per_arena D))
      (with_arena (with_pages h p) a (mk_arena (Some d) (blocks_per_arena D))) d a 0 = Ret h2 /\
    heap_inv0 h2 /\ arenas_in_use h2 a /\
    arenas h2 !! a = Some (mk_arena (Some d) (blocks_per_arena D)) /\
    descs h2 !! d = Some (mk_desc (block_size D) (blocks_per_arena D) (arena_blocks D a)) /\
    forall x, live h2 x <-> live h x.
Proof.
  intros [I Hu] HD Hf HP A1 A2 A3 Hfree Hused Hrun Hruns.
  pose proof (inv_good h I d D HD) as G. pose proof (gd_cnt D G) as Gc.
  set (h1 := with_arena (with_pages h p) a (mk_arena (Some d) 0)).
  destruct (add_arena_inv0 h a (mk_arena (Some d) 0) p) as (I1 & Hnone & Hsep); try done.
  { intros d2 c2 [= <- <-]. exists D. split; [done|]. unfold free_in. by rewrite Hf. }
  fold h1 in I1. set (D1 := mk_desc (block_size D) (blocks_per_arena D) (arena_blocks D a)).
  assert (HD1 : descs h1 !! d = Some D) by done.
  assert (Ha1 : arenas h1 !! a = Some (mk_arena (Some d) 0)) by (simpl; by rewrite lookup_insert_eq).
  set (h2 := upd h1 d D1 a (blocks_per_arena D)).
  assert (Hpage : forall a2 r2 x, arenas h !! a2 = Some r2 -> x ∈ arena_blocks D a ->
    ~ (a2 <= x < a2 + 4096 * npages r2)).
  { intros a2 r2 x H2 Hx Hp. apply (arena_blocks_in_page D G) in Hx. unfold in_page in Hx.
    destruct (hi_arena h I a2 r2 H2) as (_ & _ & B3 & _).
    destruct (Hsep a2 r2 H2); unfold npages in *; simpl in *; lia. }
  assert (I2 : heap_inv0 h2).
  { apply (upd_inv0 h1 I1 d D D1 a 0); try done.
    - unfold free_in, D1. cbn [free_list]. rewrite list_filter_all.
      + by rewrite length_arena_blocks.
      + intros x Hx. by apply (arena_blocks_in_page D G).
    - intros a2 Hn [r2 H2]. unfold free_in, D1. cbn [free_list]. rewrite Hf.
      simpl in H2. rewrite lookup_insert_ne in H2 by done.
      assert (filter (in_page a2) (arena_blocks D a) = []) as ->; [|done].
      assert (forall x, x ∉ filter (in_page a2) (arena_blocks D a)) as H.
      { intros x [Hp Hx]%list_elem_of_filter. apply (Hpage a2 r2 x H2 Hx).
        destruct (hi_arena h I a2 r2 H2) as (_ & _ & B3 & _). unfold in_page in Hp. lia. }
      destruct (filter _ _) as [|y l]; [done|]. exfalso. apply (H y). by left.
    - intros b Hb. by right.
    - apply (NoDup_arena_blocks D G). }
  exists h2. split_and!; try done.
  - rewrite (new_arena_loop_spec _ _ d D a (blocks_per_arena D)); try done; try lia.
    + f_equal. unfold h2, upd, h1, with_desc, with_arena, with_pages. simpl.
      rewrite insert_insert_eq.
      rewrite Hf. simpl. unfold D1, arena_blocks. rewrite Z2Nat.id by lia. done.
    + simpl. by rewrite lookup_insert_eq.
    + unfold PHYS_BASE in A1. lia.
    + unfold PHYS_BASE in A1. lia.
  - intros a2 d2 c2 D2 H2 HD2 Hn. simpl in H2, HD2. rewrite !lookup_insert_ne in H2 by done.
    destruct (arena_addr h I a2 _ H2) as (_ & _ & N2).
    apply (desc_lookup_upd _ d D) in HD2 as [[-> ->]|[Hd HD2]]; [| |done].
    + by apply (Hu a2 d c2 D).
    + by apply (Hu a2 d2 c2 D2).
  - simpl. by rewrite lookup_insert_eq.
  - simpl. apply list_lookup_insert_eq. by eapply lookup_lt_Some.
  - intros x. unfold h2. rewrite (upd_live h1 d D D1 a 0) by done. split.
    + intros (a2 & r2 & H2 & Hl). simpl in H2. destruct (decide (a2 = a)) as [->|Hn].
      * rewrite lookup_insert_eq in H2. injection H2 as <-. simpl in Hl.
        rewrite decide_True in Hl by done. destruct Hl. done.
      * rewrite lookup_insert_ne in H2 by done. exists a2, r2. split; [done|].
        destruct (a_desc r2) as [d2|]; [|done]. destruct (decide (d2 = d)) as [->|]; [|done].
        destruct Hl as [Hl _]. exists D. split_and!; [done..|]. rewrite Hf. apply not_elem_of_nil.
    + intros (a2 & r2 & H2 & Hl). exists a2, r2.
      assert (a2 <> a) as Hn by congruence.
      split; [simpl; by rewrite lookup_insert_ne|].
      destruct r2 as [[d2|] c2]; simpl in Hl |- *; [|done].
      destruct (decide (d2 = d)) as [->|]; [|done]. destruct Hl as (D2 & HD2 & Hl1 & Hl2).
      rewrite HD in HD2. injection HD2 as <-. split; [done|]. intros Hx.
      apply (Hpage a2 _ x H2 Hx). apply in_page_small. by apply (arena_blocks_in_page D G).
Qed.

Lemma with_pages_id h : with_pages h (pages h) = h.
Proof. by destruct h. Qed.

(** A big block: [n] whole pages with a header at the start. *)
Lemma big_block_ok h n p a :
  heap_inv h -> 0 < n -> pa_inv p ->
  PHYS_BASE < a -> a + 4096 * n <= 2 ^ 32 -> a mod 4096 = 0 ->
  (forall q, q mod 4096 = 0 -> a <= q < a + 4096 * n -> pa_used (pages h) q = false) ->
  (forall q, q mod 4096 = 0 -> pa_used p q =
     if in_range q a (4096 * n) then true else pa_used (pages h) q) ->
  pa_run p a n -> (forall b k, pa_run (pages h) b k -> pa_run p b k) ->
  let h' := with_arena (with_pages h p) a (mk_arena None n) in
  heap_inv h' /\ ~ live h (a + 12) /\ (forall x, live h' x <-> live h x \/ x = a + 12) /\
  size_of_block h' (a + 12) = Ret (4096 * n - 12).
Proof.
  intros [I Hu] Hn HP A1 A2 A3 Hfree Hused Hrun Hruns h'.
  destruct (add_arena_inv0 h a (mk_arena None n) p) as (I' & Hnone & Hsep); try done.
  assert (Ha' : arenas h' !! a = Some (mk_arena None n)) by (simpl; by rewrite lookup_insert_eq).
  assert (live h' (a + 12)) as Hl' by (exists a, (mk_arena None n); done).
  assert (forall x, live h' x <-> live h x \/ x = a + 12) as Hl.
  { intros x. split.
    - intros (a2 & r2 & H2 & Hl). simpl in H2. destruct (decide (a2 = a)) as [->|Hne].
      + rewrite lookup_insert_eq in H2. injection H2 as <-. by right.
      + rewrite lookup_insert_ne in H2 by done. left. by exists a2, r2.
    - intros [(a2 & r2 & H2 & Hl)| ->]; [|done]. exists a2, r2.
      split; [|done]. simpl. rewrite lookup_insert_ne; [done|]. congruence. }
  split; [split; [done|]|split; [|split; [done|]]].
  - intros a2 d2 c2 D2 H2 HD2 _. simpl in H2, HD2. destruct (decide (a2 = a)) as [->|Hne].
    + rewrite lookup_insert_eq in H2. done.
    + rewrite lookup_insert_ne in H2 by done. apply (Hu a2 d2 c2 D2); try done.
      by destruct (arena_addr h I a2 _ H2) as (_ & _ & ?).
  - intros Hlive. destruct (live_size h (a + 12) I Hlive) as (a2 & r2 & m & H2 & _ & M & X1 & X2 & _).
    destruct (hi_arena h I a2 r2 H2) as (_ & _ & B3 & _).
    unfold npages in Hsep at 2. simpl in Hsep.
    destruct (Hsep a2 r2 H2); lia.
  - destruct (live_size h' (a + 12) I' Hl') as (a2 & r2 & m & H2 & -> & M & X1 & X2 & X3).
    assert (a = a2) as <-.
    { apply (arena_unique h' I' a (mk_arena None n) a2 r2 (a + 12)); try done.
      - unfold npages. simpl. lia.
      - lia. }
    rewrite Ha' in H2. injection H2 as <-. simpl in X3. by destruct X3 as [_ ->].
Qed.

Lemma malloc_spec h size : heap_inv h -> 0 < size -> size + 4107 < 2 ^ 32 ->
  malloc h size = Ret (h, NULL) \/
  exists h' b, malloc h size = Ret (h', b) /\ b <> NULL /\ fresh_block h h' size b.
Proof.
  intros HI Hs Hb. pose proof HI as [I Hu]. unfold malloc.
  rewrite (proj2 (Z.eqb_neq size 0)) by lia.
  destruct (descs h !! find_desc (descs h) size) as [D|] eqn:HD.
  - set (d := find_desc (descs h) size) in *.
    pose proof (find_desc_Some _ _ _ HD) as Hle. pose proof (inv_good h I d D HD) as G.
    destruct (free_list D) as [|b rest] eqn:Hf.
    + destruct (pa_get_law (pages h) 1 (hi_pages h I) ltac:(lia))
        as [->|(p & a & -> & HP & _ & (A1 & A2 & A3) & Hfree & Hused & Hrun & Hruns & _)].
      { left. cbn [obind]. rewrite with_pages_id. done. }
      cbn [obind]. rewrite (proj2 (Z.eqb_neq a NULL)) by (unfold NULL, PHYS_BASE in *; lia).
      destruct (new_arena_ok h d D p a HI HD Hf HP A1 A2 A3 Hfree Hused Hrun Hruns)
        as (h2 & -> & I2 & Hu2 & Ha2 & HD2 & Hl2).
      cbn [obind negb]. rewrite HD2. cbn [deref obind free_list block_size blocks_per_arena].
      unfold arena_blocks. pose proof (gd_cnt D G). rewrite seqZ_cons by lia. cbn [map].
      set (D2 := mk_desc (block_size D) (blocks_per_arena D) (arena_blocks D a)) in *.
      assert (arena_blocks D a = nth_block D a 0 ::
        map (nth_block D a) (seqZ (Z.succ 0) (Z.pred (blocks_per_arena D)))) as Ef.
      { unfold arena_blocks. by rewrite seqZ_cons by lia. }
      destruct (malloc_pop h2 d D2 a (blocks_per_arena D) (nth_block D a 0)
        (map (nth_block D a) (seqZ (Z.succ 0) (Z.pred (blocks_per_arena D)))))
        as (h' & E & I' & Hnl & Hl & Hsz); try done.
      { rewrite (arena_blocks_shape D D2) by done. rewrite Ef. by left. }
      right. exists h', (nth_block D a 0). split; [exact E|]. split.
      { unfold nth_block, NULL, PHYS_BASE in *. lia. }
      apply (fresh_block_intro _ _ _ _ (block_size D)); try done.
      * by rewrite <- Hl2.
      * intros x. by rewrite Hl, Hl2.
    + cbn [obind negb]. rewrite HD. cbn [deref obind]. rewrite Hf.
      destruct (hi_free h I d D b HD) as (a & c & Ha & Hba); [rewrite Hf; by left|].
      destruct (malloc_pop h d D a c b rest) as (h' & E & I' & Hnl & Hl & Hsz); try done.
      { intros a2 d2 c2 D2 H2 HD2 _. apply (Hu a2 d2 c2 D2); try done.
        by destruct (arena_addr h I a2 _ H2) as (_ & _ & ?). }
      right. exists h', b. split; [exact E|]. split.
      { destruct (arena_addr h I a _ Ha) as (B1 & B2 & B3).
        apply (arena_blocks_in_page D G) in Hba. unfold in_page, NULL in *. lia. }
      by apply (fresh_block_intro _ _ _ _ (block_size D)).
  - unfold DIV_ROUND_UP, sizeof_arena. rewrite PGSIZE_val, (u32_small (size + 12)) by lia. rewrite u32_small by lia.
    set (n := (size + 12 + 4096 - 1) / 4096).
    assert (0 < n < 2 ^ 20 /\ size + 12 <= 4096 * n) as [Hn Hfit].
    { unfold n. pose proof (Z.div_mod (size + 12 + 4096 - 1) 4096 ltac:(lia)).
      pose proof (Z.mod_pos_bound (size + 12 + 4096 - 1) 4096 ltac:(lia)). lia. }
    destruct (pa_get_law (pages h) n (hi_pages h I) ltac:(lia))
      as [->|(p & a & -> & HP & _ & (A1 & A2 & A3) & Hfree & Hused & Hrun & Hruns & _)].
    { left. cbn [obind]. by rewrite with_pages_id. }
    cbn [obind]. unfold PHYS_BASE in A1.
    rewrite (proj2 (Z.eqb_neq a NULL)) by (unfold NULL; lia).
    rewrite u32_small by lia.
    destruct (big_block_ok h n p a) as (I' & Hnl & Hl & Hsz); try done; [lia|].
    right. eexists _, _. split; [reflexivity|]. split; [unfold NULL; lia|].
    apply (fresh_block_intro _ _ _ _ (4096 * n - 12)); try done. lia.
Qed.

(** Near 4 GB the sum of the size and the header, or its rounding to pages, wraps: no page or one page is asked for. *)
Lemma malloc_wrapped h size : heap_inv h -> 2 ^ 32 <= size + 4107 -> size < 2 ^ 32 ->
  malloc h size = Ret (h, NULL) \/
  2 ^ 32 - 12 < size /\ exists h' b, malloc h size = Ret (h', b) /\ b <> NULL /\ fresh_block h h' 4084 b /\
    size_of_block h' b = Ret 4084.
Proof.
  intros HI Hlo Hhi. pose proof HI as [I _]. unfold malloc. rewrite (proj2 (Z.eqb_neq size 0)) by lia.
  destruct (descs h !! find_desc (descs h) size) as [D|] eqn:HD.
  { pose proof (find_desc_Some _ _ _ HD). pose proof (gd_size D (inv_good h I _ D HD)). lia. }
  unfold DIV_ROUND_UP, sizeof_arena. rewrite PGSIZE_val. destruct (Z.ltb_spec (2 ^ 32 - 12) size) as [L|L].
  - replace (u32 (size + 12)) with (size + 12 - 2 ^ 32) by (apply Z.mod_unique with 1; lia).
    rewrite u32_small by lia. replace ((_ - 1) / 4096) with 1 by (apply Z.div_unique with (size + 12 - 2 ^ 32 - 1); lia).
    destruct (pa_get_law (pages h) 1 (hi_pages h I) ltac:(lia))
      as [->|(p & a & -> & HP & _ & (A1 & A2 & A3) & Hfree & Hused & Hrun & Hruns & _)]; cbn [obind].
    { left. by rewrite with_pages_id. }
    unfold PHYS_BASE in A1. rewrite (proj2 (Z.eqb_neq a NULL)) by (unfold NULL; lia). rewrite u32_small by lia.
    destruct (big_block_ok h 1 p a) as (I' & Hnl & Hl & Hsz); try done.
    right. split; [done|]. eexists _, _. split; [reflexivity|]. split; [unfold NULL; lia|]. split; [|exact Hsz].
    by apply (fresh_block_intro _ _ _ _ (4096 * 1 - 12)).
  - left. assert (u32 (u32 (size + 12) + 4096 - 1) / 4096 = 0) as ->.
    { apply Z.div_small. destruct (Z.eq_dec size (2 ^ 32 - 12)) as [->|N]; [done|].
      rewrite (u32_small (size + 12)) by lia. replace (u32 _) with (size + 12 + 4096 - 1 - 2 ^ 32) by (apply Z.mod_unique with 1; lia). lia. }
    rewrite pa_get_zero. cbn [obind]. by rewrite with_pages_id.
Qed.

Lemma set_mem_inv h m : heap_inv h -> heap_inv (with_pages h (pa_set_mem (pages h) m)).
Proof.
  intros [I Hu]. split; [|done]. apply with_pages_inv0; [done| | |].
  - apply pa_set_mem_inv, I.
  - intros b k. apply pa_set_mem_run.
  - intros q _ H. by rewrite pa_set_mem_used.
Qed.

(** When all the blocks of a page are free they are all on the free list. *)
Lemma all_blocks_free h d D a : heap_inv0 h -> descs h !! d = Some D ->
  arenas h !! a = Some (mk_arena (Some d) (blocks_per_arena D)) ->
  forall x, x ∈ arena_blocks D a -> x ∈ free_list D.
Proof.
  intros I HD Ha x Hx.
  destruct (hi_small h I a d _ Ha) as (D2 & HD2 & Hc). rewrite HD in HD2. injection HD2 as <-.
  pose proof (inv_good h I d D HD) as G.
  pose proof (length_arena_blocks D G a) as HL.
  assert (Hin : incl (free_in D a) (arena_blocks D a)).
  { intros y Hy. apply list_elem_of_In in Hy. apply list_elem_of_In.
    by apply (free_in_blocks h I a d (blocks_per_arena D)). }
  assert (Hnd : List.NoDup (free_in D a)).
  { apply NoDup_ListNoDup. apply NoDup_filter. by eapply (hi_nodup h I). }
  assert (incl (arena_blocks D a) (free_in D a)) as Hincl.
  { apply NoDup_length_incl; [done|lia|done]. }
  apply list_elem_of_In, Hincl, list_elem_of_In, list_elem_of_filter in Hx as [_ ?]. done.
Qed.

(** The arena at [a] is gone and its [n] pages are the page allocator's again; all other pages stay. *)
Definition given_back (h h' : heap P) (a n : Z) : Prop :=
  arenas h' = delete a (arenas h) /\
  forall q, q mod 4096 = 0 -> pa_used (pages h') q = if in_range q a (4096 * n) then false else pa_used (pages h) q.
(** No arena came or went, and no page changed hands. *)
Definition arenas_kept (h h' : heap P) : Prop :=
  (forall a, is_Some (arenas h' !! a) <-> is_Some (arenas h !! a)) /\
  forall q, pa_used (pages h') q = pa_used (pages h) q.
(** A block other than [b] of the arena of [b] is in use. *)
Definition shares_arena (h : heap P) (b : Z) : Prop :=
  exists y, live h y /\ y <> b /\ pg_round_down y = pg_round_down b.

(** A live block starts on the first page of its arena. *)
Lemma live_page h x : heap_inv0 h -> live h x -> exists r, arenas h !! pg_round_down x = Some r.
Proof.
  intros I (a & r & Ha & Hl). destruct (arena_addr h I a r Ha) as (A1 & A2 & A3). exists r.
  assert (in_page a x) as Hp.
  { destruct (a_desc r) as [d|] eqn:Ed.
    - destruct Hl as (D & HD & Hx & _). by apply (arena_blocks_in_page D (inv_good h I d D HD)).
    - subst x. unfold in_page. lia. }
  by destruct (round_down_in_page a A1 A2 x Hp) as [-> _].
Qed.

(** Giving an entirely free arena back to the page allocator. *)
Lemma release_arena h d D a :
  heap_inv0 h -> descs h !! d = Some D -> arenas_in_use h a ->
  arenas h !! a = Some (mk_arena (Some d) (blocks_per_arena D)) ->
  exists h', (let? h := free_arena_loop (Z.to_nat (blocks_per_arena D)) h d a 0 in
     let? p := pa_free (pages h) a 1 in
     Ret (with_pages (del_arena h a) p)) = Ret h' /\
    heap_inv h' /\ (forall x, live h' x <-> live h x) /\ given_back h h' a 1.
Proof.
  intros I HD Hu Ha. pose proof (inv_good h I d D HD) as G. pose proof (gd_cnt D G) as Gc.
  destruct (arena_addr h I a _ Ha) as (A1 & A2 & A3).
  pose proof (all_blocks_free h d D a I HD Ha) as Hall.
  destruct (free_arena_loop_spec (Z.to_nat (blocks_per_arena D)) h d D a (blocks_per_arena D) 0)
    as (D' & -> & S1 & S2); try done; try lia.
  { intros j Hj. apply Hall, elem_of_arena_blocks. exists j. split; [lia|done]. }
  rewrite Z2Nat.id in S2 by lia. fold (arena_blocks D a) in S2. cbn [obind].
  set (h2 := with_desc h d D').
  assert (HD2 : descs h2 !! d = Some D').
  { simpl. apply list_lookup_insert_eq. by eapply lookup_lt_Some. }
  assert (Hbb : arena_blocks D' a = arena_blocks D a) by (by apply arena_blocks_shape).
  destruct (hi_arena h I a _ Ha) as (_ & _ & _ & B4 & B5 & B6). unfold npages in B4, B5, B6.
  simpl in B4, B5, B6.
  destruct (pa_free_law (pages h) a 1 (hi_pages h I) ltac:(lia) A1 B5 B6)
    as (p & E & HP & _ & Hused & Hruns & _).
  simpl. rewrite E. cbn [obind]. eexists. split; [reflexivity|].
  set (h3 := upd h d D' a 0).
  assert (forall a2 x, a2 <> a -> is_Some (arenas h !! a2) -> in_page a2 x -> x ∉ arena_blocks D a)
    as Hpg.
  { intros a2 x Hn [r2 H2] Hp Hx. apply Hn. apply (arena_blocks_in_page D G) in Hx.
    apply (arena_unique h I a2 r2 a (mk_arena (Some d) (blocks_per_arena D)) x); try done.
    destruct (hi_arena h I a2 r2 H2) as (_ & _ & B3 & _). unfold in_page in Hp. lia. }
  assert (I3 : heap_inv0 h3).
  { apply (upd_inv0 h I d D D' a (blocks_per_arena D)); try done.
    - assert (free_in D' a = []) as ->; [|done].
      assert (forall x, x ∉ free_in D' a) as H.
      { intros x [Hp Hx]%list_elem_of_filter. rewrite S2 in Hx.
        apply list_elem_of_filter in Hx as [Hn Hx]. apply Hn.
        apply (free_in_blocks h I a d (blocks_per_arena D) D x Ha HD).
        by apply list_elem_of_filter. }
      destruct (free_in D' a) as [|y l]; [done|]. exfalso. apply (H y). by left.
    - intros a2 Hn H2. unfold free_in. rewrite S2, list_filter_filter.
      apply list_filter_iff. intros x. split; [tauto|]. intros Hp. split; [done|].
      by apply (Hpg a2).
    - intros b. rewrite S2. intros [_ Hb]%list_elem_of_filter. by left.
    - rewrite S2. apply NoDup_filter. by eapply (hi_nodup h I). }
  assert (Ha3 : arenas h3 !! a = Some (mk_arena (Some d) 0)) by (simpl; by rewrite lookup_insert_eq).
  assert (Eq : with_pages (del_arena h2 a) p = with_pages (del_arena h3 a) p).
  { unfold with_pages, del_arena, h2, h3, upd, with_desc, with_arena. simpl.
    by rewrite delete_insert_eq. }
  fold h2. assert (given_back h (with_pages (del_arena h2 a) p) a 1) as GB.
  { split; [done|]. exact Hused. }
  rewrite Eq in GB |- *. split; [split|split; [|exact GB]].
  - apply (del_arena_inv0 h3 a (mk_arena (Some d) 0) p); try done.
    intros d2 D2 H2 b Hb (c2 & [= <- <-] & Hba).
    unfold h3 in H2. rewrite (upd_desc_eq h d D) in H2 by done. injection H2 as <-.
    rewrite S2 in Hb. apply list_elem_of_filter in Hb as [Hn _]. by rewrite Hbb in Hba.
  - intros a2 d2 c2 D2 H2 HD3 _. simpl in H2, HD3.
    apply lookup_delete_Some in H2 as [Hn H2]. rewrite lookup_insert_ne in H2 by done.
    apply (desc_lookup_upd _ d D) in HD3 as [[-> ->]|[Hd HD3]]; [| |done].
    + destruct (shape_eq D D' S1) as [_ ->]. by apply (Hu a2 d c2 D).
    + by apply (Hu a2 d2 c2 D2).
  - assert (Hsub : forall a2 x, a2 <> a -> is_Some (arenas h !! a2) ->
      x ∈ arena_blocks D a2 -> x ∉ free_list D' <-> x ∉ free_list D).
    { intros a2 x Hn Hs Hx. rewrite S2, list_elem_of_filter.
      pose proof (Hpg a2 x Hn Hs).
      destruct Hs as [r2 H2]. destruct (arena_addr h I a2 r2 H2) as (C1 & C2 & _).
      pose proof (arena_blocks_in_page D G a2 x Hx). naive_solver. }
    intros x. split.
    + intros (a2 & r2 & H2 & Hl). simpl in H2. apply lookup_delete_Some in H2 as [Hn H2].
      rewrite lookup_insert_ne in H2 by done. exists a2, r2. split; [done|].
      destruct (a_desc r2) as [d2|]; [|done]. destruct Hl as (D2 & HD3 & Hl1 & Hl2).
      apply (desc_lookup_upd _ d D) in HD3 as [[-> ->]|[Hd HD3]]; [| |done]; [|by exists D2].
      rewrite (arena_blocks_shape D D') in Hl1 by done.
      exists D. split_and!; try done. by apply (Hsub a2).
    + intros (a2 & r2 & H2 & Hl). destruct (decide (a2 = a)) as [->|Hn].
      { rewrite Ha in H2. injection H2 as <-. simpl in Hl.
        destruct Hl as (D2 & HD3 & Hl1 & Hl2). rewrite HD in HD3. injection HD3 as <-.
        exfalso. by apply Hl2, Hall. }
      exists a2, r2. split.
      { simpl. apply lookup_delete_Some. split; [done|]. by rewrite lookup_insert_ne. }
      destruct (a_desc r2) as [d2|]; [|done]. destruct Hl as (D2 & HD3 & Hl1 & Hl2).
      destruct (decide (d2 = d)) as [->|Hd].
      * rewrite HD in HD3. injection HD3 as <-. exists D'. split_and!; try done.
        -- by rewrite (arena_blocks_shape D D').
        -- by apply (Hsub a2).
      * exists D2. split_and!; try done. simpl. by rewrite list_lookup_insert_ne.
Qed.

(** An arena that has fewer free blocks than the others of it has another block in use. *)
Lemma small_shares_arena h d D a c b : heap_inv0 h -> descs h !! d = Some D -> arenas h !! a = Some (mk_arena (Some d) c) ->
  b ∈ arena_blocks D a -> b ∉ free_list D -> c + 1 < blocks_per_arena D -> shares_arena h b.
Proof.
  intros I HD Ha Hb Hnf Hc. pose proof (inv_good h I d D HD) as G. destruct (arena_addr h I a _ Ha) as (A1 & A2 & A3).
  destruct (hi_small h I a d c Ha) as (D2 & HD2 & Ec). rewrite HD in HD2. injection HD2 as <-.
  destruct (decide (Exists (fun y => y <> b /\ y ∉ free_list D) (arena_blocks D a))) as [(y & Hy & Ny & Fy)%Exists_exists|N].
  - exists y. split; [by apply (live_block h I d D a c)|]. split; [done|].
    destruct (round_down_in_page a A1 A2 b (arena_blocks_in_page D G a b Hb)) as [-> _].
    by destruct (round_down_in_page a A1 A2 y (arena_blocks_in_page D G a y Hy)) as [-> _].
  - exfalso. assert (arena_blocks D a ⊆+ b :: free_in D a) as SUB.
    { apply NoDup_submseteq; [by apply NoDup_arena_blocks|]. intros y Hy. destruct (decide (y = b)) as [->|Ny]; [by left|right].
      apply list_elem_of_filter. split; [by apply (arena_blocks_in_page D G)|].
      destruct (decide (y ∈ free_list D)) as [|Fy]; [done|]. exfalso. apply N, Exists_exists. by exists y. }
    apply submseteq_length in SUB. pose proof (length_arena_blocks D G a). cbn [length] in SUB. lia.
Qed.

Lemma free_spec h b : heap_inv h -> live h b ->
  exists h' a r, free h b = Ret h' /\ heap_inv h' /\ (forall x, live h' x <-> live h x /\ x <> b) /\
    a = pg_round_down b /\ arenas h !! a = Some r /\
    (given_back h h' a (npages r) \/ arenas_kept h h' /\ shares_arena h b).
Proof.
  intros HI Hlive. pose proof HI as [I Hu]. pose proof Hlive as (a & r & Ha & Hl).
  destruct (arena_addr h I a r Ha) as (A1 & A2 & A3).
  destruct (hi_arena h I a r Ha) as (_ & B2 & B3 & B4 & B5 & B6). unfold PHYS_BASE in B2.
  destruct r as [[d|] c]; simpl in Hl.
  - destruct Hl as (D & HD & Hb & Hnf).
    pose proof (arena_blocks_in_page D (inv_good h I d D HD) a b Hb) as Hp.
    destruct (round_down_in_page a A1 A2 b Hp) as [ER _].
    unfold free. rewrite (proj2 (Z.eqb_neq b NULL)) by (unfold in_page, NULL in *; lia).
    rewrite (block_to_arena_small h I a d c D b) by done. cbn [obind a_desc].
    rewrite HD. cbn [deref obind free_cnt].
    set (m := memset (pa_mem (pages h)) b 0xcc (block_size D)).
    destruct (set_mem_inv h m HI) as [I1 Hu1]. set (h1 := with_pages h _) in *.
    destruct (push_step h1 I1 d D a c HD Ha b Hb Hnf Hu1) as (I2 & Ec & Hle & Hu2 & Hl2).
    set (D' := mk_desc (block_size D) (blocks_per_arena D) (b :: free_list D)) in *.
    fold (upd h1 d D' a (u32 (c + 1))). rewrite Ec in *. set (h2 := upd h1 d D' a (c + 1)) in *.
    assert (HD2 : descs h2 !! d = Some D') by (by apply (upd_desc_eq h1 d D)).
    destruct (blocks_per_arena D <=? c + 1) eqn:E.
    + assert (c + 1 = blocks_per_arena D) as Ef by lia. rewrite Ef, Z.eqb_refl.
      destruct (release_arena h2 d D' a I2 HD2 Hu2) as (h' & E' & I' & Hl' & GA & GP).
      { simpl. rewrite lookup_insert_eq. by rewrite Ef. }
      exists h', a, (mk_arena (Some d) c). split; [|split; [done|split; [|split; [done|split; [done|left; split]]]]].
      * replace (upd h1 d D' a (blocks_per_arena D)) with h2 by (unfold h2; by rewrite Ef).
        exact E'.
      * intros x. rewrite Hl'. apply Hl2.
      * rewrite GA. simpl. by rewrite delete_insert_eq.
      * intros q Hq. rewrite (GP q Hq). simpl. by rewrite pa_set_mem_used.
    + exists h2, a, (mk_arena (Some d) c). split; [done|]. split; [|split; [done|split; [done|split; [done|right; split]]]].
      2: { split; [|intros q; apply pa_set_mem_used]. intros a2. simpl. rewrite lookup_insert. case_decide as Ea; [subst; rewrite Ha|done].
           by split; eexists. }
      2: { apply (small_shares_arena h d D a c b); try done. lia. }
      split; [done|]. intros a2 d2 c2 D2 H2 HD3 _. destruct (decide (a2 = a)) as [->|Hn].
      * simpl in H2. rewrite lookup_insert_eq in H2. injection H2 as <- <-.
        rewrite HD2 in HD3. injection HD3 as <-. simpl. lia.
      * by apply (Hu2 a2 d2 c2 D2).
  - subst b. destruct (round_down_in_page a A1 A2 (a + 12) ltac:(unfold in_page; lia)) as [ER _]. unfold npages in *. simpl in B3, B4, B5, B6.
    unfold free. rewrite (proj2 (Z.eqb_neq (a + 12) NULL)) by (unfold NULL; lia).
    rewrite (block_to_arena_big h I a c) by done. cbn [obind a_desc free_cnt].
    destruct (pa_free_law (pages h) a c (hi_pages h I) B3 A1 B5 B6)
      as (p & -> & HP & _ & Hused & Hruns & _).
    cbn [obind]. eexists _, a, (mk_arena None c). split; [reflexivity|]. split; [split|split; [|split; [done|split; [done|left; by split]]]].
    + apply (del_arena_inv0 h a (mk_arena None c) p); try done.
      intros d D _ b _ (c2 & ? & _). done.
    + intros a2 d2 c2 D2 H2 HD2 _. simpl in H2, HD2. apply lookup_delete_Some in H2 as [_ H2].
      apply (Hu a2 d2 c2 D2); try done. by destruct (arena_addr h I a2 _ H2) as (_ & _ & ?).
    + intros x. split.
      * intros (a2 & r2 & H2 & Hl). simpl in H2. apply lookup_delete_Some in H2 as [Hn H2].
        split; [by exists a2, r2|]. intros ->. 
        destruct (live_size h (a + 12) I) as (a3 & r3 & m & H3 & _ & M & X1 & X2 & _);
          [by exists a2, r2|].
        destruct r2 as [[d2|] c2]; simpl in Hl.
        -- destruct Hl as (D2 & HD2 & Hb2 & _). apply Hn.
           destruct (arena_addr h I a2 _ H2) as (C1 & C2 & _).
           pose proof (arena_blocks_in_page D2 (inv_good h I d2 D2 HD2) a2 _ Hb2).
           apply (arena_unique h I a (mk_arena None c) a2 (mk_arena (Some d2) c2) (a + 12));
             try done. unfold npages; simpl; lia.
        -- lia.
      * intros [(a2 & r2 & H2 & Hl) Hx]. exists a2, r2. split; [|done].
        simpl. apply lookup_delete_Some. split; [|done]. intros <-.
        rewrite Ha in H2. injection H2 as <-. done.
Qed.

(** * Properties *)

(** C6.  For any size from 1 to 2^32 - 1, [malloc] returns null without changing the heap, or a block that
    was not live, disjoint from every live block; exactly that block becomes live and the heap
    invariant is kept.  The block has at least the requested size up to 2^32 - 12; above, the sum of the size and
    the header wraps around and the block has 4084 bytes only. *)
Theorem malloc_correct h size (Inv : heap_inv h) (Hsize : 0 < size < 2 ^ 32) :
  malloc h size = Ret (h, NULL) \/
  exists h' b n, malloc h size = Ret (h', b) /\ b <> NULL /\ heap_inv h' /\ ~ live h b /\
    (forall x, live h' x <-> live h x \/ x = b) /\
    size_of_block h' b = Ret n /\ (if size <=? 2 ^ 32 - 12 then size <= n else n = 4084) /\
    forall y m, live h y -> size_of_block h' y = Ret m -> b + n <= y \/ y + m <= b.
Proof.
  destruct (Z.ltb_spec (size + 4107) (2 ^ 32)) as [L|L].
  - destruct (malloc_spec h size Inv ltac:(lia) L) as [E|(h' & b & E & Hn & I' & Hl & Hx & n & ?)]; [by left|right].
    exists h', b, n. replace (size <=? 2 ^ 32 - 12) with true by lia. naive_solver.
  - destruct (malloc_wrapped h size Inv L ltac:(lia)) as [E|(W & h' & b & E & Hn & (I' & Hl & Hx & n & En & Hle & Hd) & E4)]; [by left|right].
    exists h', b, n. replace (size <=? 2 ^ 32 - 12) with false by lia. assert (n = 4084) by congruence. by split_and!.
Qed.

(** C12.  [free] of a live block succeeds with no failing assertion; exactly that block stops being
    live and the invariant is kept.  If another block of its arena is in use, no arena and no page changes
    hands; otherwise the arena is gone and exactly its pages are given back to the page allocator. *)
Theorem free_correct h b (Inv : heap_inv h) (Hlive : live h b) :
  exists h' a r, free h b = Ret h' /\ heap_inv h' /\ (forall x, live h' x <-> live h x /\ x <> b) /\
    a = pg_round_down b /\ arenas h !! a = Some r /\
    (shares_arena h b -> arenas_kept h h') /\
    (~ shares_arena h b -> given_back h h' a (npages r) /\
       forall q, q mod 4096 = 0 -> in_range q a (4096 * npages r) = true -> pa_used (pages h) q = true).
Proof.
  destruct (free_spec h b Inv Hlive) as (h' & a & r & E & I' & Hl & Ea & Ha & K). exists h', a, r. split_and!; try done.
  - intros (y & Hy & Ny & Ey). destruct K as [[GA _]|[K _]]; [exfalso|done].
    destruct (live_page h' y (proj1 I')) as [r' Hr']; [apply Hl; by split|].
    rewrite GA, Ey, <-Ea, lookup_delete_eq in Hr'. done.
  - intros N. split; [by destruct K as [K|[_ S]]|]. intros q Hq Hin. unfold in_range in Hin.
    destruct (hi_arena h (proj1 Inv) a r Ha) as (_ & _ & _ & _ & _ & U). apply U; [done|lia].
Qed.

(**  The sum [size + sizeof (struct arena)] is not checked for wrap-around: a request
    within eleven bytes of 4 GB that does not fail yields a block of 4,084 bytes. *)
Theorem malloc_size_wraps h h' size b
    (Inv : heap_inv h) (Hsize : 2 ^ 32 - 12 < size < 2 ^ 32)
    (Hret : malloc h size = Ret (h', b)) (Hb : b <> NULL) :
  size_of_block h' b = Ret 4084.
Proof.
  destruct (malloc_wrapped h size Inv ltac:(lia) ltac:(lia)) as [E|(_ & h2 & b2 & E & _ & _ & Hsz)]; congruence.
Qed.
End Theorems.

(** ** The initial heap *)

(**  [malloc_init] makes the seven descriptors 16 ... 1024 with empty free lists: a heap
    that satisfies the invariant and has no live block. *)
Theorem malloc_init_correct {P} `{PA : page_allocator P} (p : P) (Hp : pa_inv p) :
  exists h, malloc_init p = Ret h /\ map desc_shape (descs h) = desc_table /\
    heap_inv h /\ pages h = p /\ forall x, ~ live h x.
Proof.
  eexists. split; [vm_compute; reflexivity|]. split; [done|].
  split; [|split; [done|]].
  - split.
    + split; simpl; try done.
      * intros d D b H Hb.
        do 7 (destruct d as [|d]; [injection H as <-; by apply not_elem_of_nil in Hb|]). done.
      * intros d D H.
        do 7 (destruct d as [|d]; [injection H as <-; apply NoDup_nil_2|]). done.
    + done.
  - intros x (a & r & H & _). done.
Qed.

(** ** Witnesses on the page pools of the Palloc example *)

Definition ex_heap : heap palloc_state :=
  match malloc_init ex_palloc with Ret h => h | _ => mk_heap [] ∅ ex_palloc end.

Lemma ex_heap_inv : heap_inv ex_heap.
Proof.
  destruct (malloc_init ex_palloc) as [h| | |] eqn:E; try discriminate E.
  assert (ex_heap = h) as -> by (unfold ex_heap; by rewrite E).
  revert E. unfold malloc_init. vm_compute malloc_init_loop. cbn [obind]. intros [= <-].
  split; [split; simpl; try done|done].
  - apply ex_palloc_ok.
  - intros d D b H Hb.
    do 7 (destruct d as [|d]; [injection H as <-; by apply not_elem_of_nil in Hb|]). done.
  - intros d D H. do 7 (destruct d as [|d]; [injection H as <-; apply NoDup_nil_2|]). done.
Qed.

Lemma malloc_correct_witness :
  exists h' b, malloc ex_heap 100 = Ret (h', b) /\ heap_inv h' /\ live h' b.
Proof.
  destruct (malloc_correct ex_heap 100 ex_heap_inv ltac:(lia))
    as [E|(h' & b & n & E & _ & I & _ & Hl & _)].
  - vm_compute in E. discriminate E.
  - exists h', b. split; [exact E|]. split; [exact I|]. apply Hl. right. reflexivity.
Defined.

(** A heap with one live block. *)
Definition ex_heap1 : heap palloc_state :=
  match malloc ex_heap 2000 with Ret (h, _) => h | _ => ex_heap end.

Lemma ex_heap_empty x : ~ live ex_heap x.
Proof.
  destruct (malloc_init_correct (PA := palloc_page_allocator) ex_palloc ex_palloc_ok) as (h & E & _ & _ & _ & N). unfold ex_heap. rewrite E. apply N.
Qed.

Lemma ex_heap1_live : heap_inv ex_heap1 /\ forall x, live ex_heap1 x <-> x = 0xc010300c.
Proof.
  destruct (malloc_spec ex_heap 2000 ex_heap_inv ltac:(lia) ltac:(lia))
    as [E|(h' & b & E & _ & I & _ & Hl & _)]; [vm_compute in E; discriminate E|].
  assert (b = 0xc010300c) as -> by (vm_compute in E; congruence).
  unfold ex_heap1. rewrite E. split; [exact I|]. intros x. rewrite Hl. split; [intros [H|H]; [by apply ex_heap_empty in H|done]|by right].
Qed.

Lemma free_correct_witness :
  exists h', free ex_heap1 0xc010300c = Ret h' /\ ~ live h' 0xc010300c /\ given_back ex_heap1 h' 0xc0103000 1.
Proof.
  destruct ex_heap1_live as [I L].
  destruct (free_correct ex_heap1 0xc010300c I (proj2 (L _) eq_refl)) as (h' & a & r & E & _ & Hl & -> & Ha & _ & G).
  exists h'. split; [exact E|]. split; [intros H; apply Hl in H; destruct H as [_ H]; by apply H|].
  destruct G as [G _].
  - intros (y & Hy & Ny & _). apply Ny, L, Hy.
  - assert (arenas ex_heap1 !! pg_round_down 0xc010300c = Some (mk_arena None 1)) as Ha1 by (vm_compute; reflexivity).
    rewrite Ha in Ha1. injection Ha1 as ->. exact G.
Defined.

Definition ex_wrapped : heap palloc_state :=
  match malloc ex_heap 4294967290 with Ret (h, _) => h | _ => ex_heap end.

Lemma malloc_size_wraps_witness : size_of_block ex_wrapped 0xc010300c = Ret 4084.
Proof.
  apply (malloc_size_wraps ex_heap ex_wrapped 4294967290 0xc010300c);
    [exact ex_heap_inv | lia | reflexivity | discriminate].
Defined.

Lemma malloc_init_correct_witness :
  exists h, malloc_init ex_palloc = Ret h /\ heap_inv h.
Proof.
  destruct (malloc_init_correct (PA := palloc_page_allocator) ex_palloc ex_palloc_ok) as (h & E & _ & I & _).
  exists h. split; [exact E|exact I].
Defined.

(** A small run on the example pools: three blocks from one arena, then a big block. *)
Example malloc_run :
  (let? h := malloc_init ex_palloc in
   let? (h, x) := malloc h 20 in
   let? (h, y) := malloc h 1000 in
   let? (h, z) := malloc h 5000 in
   let? h := free h y in
   let? (h, w) := realloc h x 40 in
   Ret (x, y, z, w)) = Ret (0xc010300c, 0xc010400c, 0xc010600c, 0xc010400c).
Proof. vm_compute. reflexivity. Qed.
