(* ===== verification/Threads.v ===== *)
(** Kernel threads (threads/thread.c): thread structures, the FIFO ready list, blocking,
    unblocking, yielding, exiting, the scheduler and the time slice.  The thread structure
    of a thread sits at the start of its own page, so a thread is identified by the address
    of that page; a page with an entry in [threads] is one for which [is_thread] holds. *)
From S2P Require Import Prelude Bitmap Vaddr Palloc.

(** * Definitions *)

Inductive thread_status := THREAD_RUNNING | THREAD_READY | THREAD_BLOCKED | THREAD_DYING.
#[export] Instance thread_status_eq_dec : EqDecision thread_status.
Proof. solve_decision. Defined.

Definition TID_ERROR : Z := -1.
Definition PRI_MIN : Z := 0.
Definition PRI_DEFAULT : Z := 31.
Definition PRI_MAX : Z := 63.
Definition TIME_SLICE : Z := 4.

Record thread := mk_thread {
  tid : Z;
  status : thread_status;
  name : string;
  stack : Z;
  priority : Z;
  pcb : option Z
}.

Inductive sched_policy := SCHED_FIFO | SCHED_PRIO | SCHED_FAIR | SCHED_MLFQS.

(** The static state of thread.c and the interrupt flags.  [running] is the thread whose
    stack the processor is on. *)
Record sched (P : Type) := mk_sched {
  threads : gmap Z thread;
  fifo_ready_list : list Z;
  all_list : list Z;
  idle_thread : Z;
  initial_thread : Z;
  running : Z;
  next_tid : Z;
  idle_ticks : Z;
  kernel_ticks : Z;
  user_ticks : Z;
  thread_ticks : Z;
  active_sched_policy : sched_policy;
  intr_on : bool;
  in_external_intr : bool;
  yield_on_return : bool;
  pages : P
}.
Arguments mk_sched {P}.
Arguments threads {P}.
Arguments fifo_ready_list {P}.
Arguments all_list {P}.
Arguments idle_thread {P}.
Arguments initial_thread {P}.
Arguments running {P}.
Arguments next_tid {P}.
Arguments idle_ticks {P}.
Arguments kernel_ticks {P}.
Arguments user_ticks {P}.
Arguments thread_ticks {P}.
Arguments active_sched_policy {P}.
Arguments intr_on {P}.
Arguments in_external_intr {P}.
Arguments yield_on_return {P}.
Arguments pages {P}.

Definition set_threads {P} (s : sched P) m := mk_sched m (fifo_ready_list s) (all_list s)
  (idle_thread s) (initial_thread s) (running s) (next_tid s) (idle_ticks s) (kernel_ticks s)
  (user_ticks s) (thread_ticks s) (active_sched_policy s) (intr_on s) (in_external_intr s)
  (yield_on_return s) (pages s).
Definition set_ready {P} (s : sched P) l := mk_sched (threads s) l (all_list s)
  (idle_thread s) (initial_thread s) (running s) (next_tid s) (idle_ticks s) (kernel_ticks s)
  (user_ticks s) (thread_ticks s) (active_sched_policy s) (intr_on s) (in_external_intr s)
  (yield_on_return s) (pages s).
Definition set_all {P} (s : sched P) l := mk_sched (threads s) (fifo_ready_list s) l
  (idle_thread s) (initial_thread s) (running s) (next_tid s) (idle_ticks s) (kernel_ticks s)
  (user_ticks s) (thread_ticks s) (active_sched_policy s) (intr_on s) (in_external_intr s)
  (yield_on_return s) (pages s).
Definition set_idle {P} (s : sched P) t := mk_sched (threads s) (fifo_ready_list s) (all_list s)
  t (initial_thread s) (running s) (next_tid s) (idle_ticks s) (kernel_ticks s)
  (user_ticks s) (thread_ticks s) (active_sched_policy s) (intr_on s) (in_external_intr s)
  (yield_on_return s) (pages s).
Definition set_running {P} (s : sched P) t := mk_sched (threads s) (fifo_ready_list s)
  (all_list s) (idle_thread s) (initial_thread s) t (next_tid s) (idle_ticks s)
  (kernel_ticks s) (user_ticks s) (thread_ticks s) (active_sched_policy s) (intr_on s)
  (in_external_intr s) (yield_on_return s) (pages s).
Definition set_next_tid {P} (s : sched P) n := mk_sched (threads s) (fifo_ready_list s)
  (all_list s) (idle_thread s) (initial_thread s) (running s) n (idle_ticks s)
  (kernel_ticks s) (user_ticks s) (thread_ticks s) (active_sched_policy s) (intr_on s)
  (in_external_intr s) (yield_on_return s) (pages s).
Definition set_ticks {P} (s : sched P) i k u n := mk_sched (threads s) (fifo_ready_list s)
  (all_list s) (idle_thread s) (initial_thread s) (running s) (next_tid s) i k u n
  (active_sched_policy s) (intr_on s) (in_external_intr s) (yield_on_return s) (pages s).
Definition set_intr {P} (s : sched P) b := mk_sched (threads s) (fifo_ready_list s)
  (all_list s) (idle_thread s) (initial_thread s) (running s) (next_tid s) (idle_ticks s)
  (kernel_ticks s) (user_ticks s) (thread_ticks s) (active_sched_policy s) b
  (in_external_intr s) (yield_on_return s) (pages s).
Definition set_context {P} (s : sched P) c y := mk_sched (threads s) (fifo_ready_list s)
  (all_list s) (idle_thread s) (initial_thread s) (running s) (next_tid s) (idle_ticks s)
  (kernel_ticks s) (user_ticks s) (thread_ticks s) (active_sched_policy s) (intr_on s)
  c y (pages s).
Definition set_pages {P} (s : sched P) (p : P) := mk_sched (threads s) (fifo_ready_list s)
  (all_list s) (idle_thread s) (initial_thread s) (running s) (next_tid s) (idle_ticks s)
  (kernel_ticks s) (user_ticks s) (thread_ticks s) (active_sched_policy s) (intr_on s)
  (in_external_intr s) (yield_on_return s) p.

Definition with_status (t : thread) (st : thread_status) : thread :=
  mk_thread (tid t) st (name t) (stack t) (priority t) (pcb t).

Section Operations.
Context {P : Type} `{PA : page_allocator P}.
Implicit Types s : sched P.

Definition intr_context s : bool := in_external_intr s.
Definition intr_disable s : sched P * bool := (set_intr s false, intr_on s).
Definition intr_enable s : outcome (sched P) :=
  assert? negb (intr_context s) in Ret (set_intr s true).
Definition intr_set_level s (level : bool) : outcome (sched P) :=
  if level then intr_enable s else Ret (set_intr s false).
Definition intr_yield_on_return s : outcome (sched P) :=
  assert? intr_context s in Ret (set_context s (in_external_intr s) true).

Definition is_thread s (t : Z) : bool := bool_decide (is_Some (threads s !! t)).

(** The [struct thread] at [t]; a page without one is not a thread. *)
Definition thread_at s (t : Z) : outcome thread :=
  match threads s !! t with Some th => Ret th | None => Panic end.

Definition set_status s (t : Z) (st : thread_status) : outcome (sched P) :=
  let? th := thread_at s t in Ret (set_threads s (<[t := with_status th st]> (threads s))).

Definition thread_current s : outcome Z :=
  let? th := thread_at s (running s) in
  assert? bool_decide (status th = THREAD_RUNNING) in Ret (running s).

Definition thread_tid s : outcome Z :=
  let? t := thread_current s in let? th := thread_at s t in Ret (tid th).
Definition thread_name s : outcome string :=
  let? t := thread_current s in let? th := thread_at s t in Ret (name th).
Definition thread_get_priority s : outcome Z :=
  let? t := thread_current s in let? th := thread_at s t in Ret (priority th).
Definition thread_set_priority s (new_priority : Z) : outcome (sched P) :=
  let? t := thread_current s in
  let? th := thread_at s t in
  Ret (set_threads s (<[t := mk_thread (tid th) (status th) (name th) (stack th)
                             new_priority (pcb th)]> (threads s))).

Definition thread_enqueue s (t : Z) : outcome (sched P) :=
  assert? negb (intr_on s) in
  assert? is_thread s t in
  match active_sched_policy s with
  | SCHED_FIFO => Ret (set_ready s (fifo_ready_list s ++ [t]))
  | _ => Panic
  end.

Definition thread_unblock s (t : Z) : outcome (sched P) :=
  let? th := thread_at s t in
  let (s, old_level) := intr_disable s in
  assert? bool_decide (status th = THREAD_BLOCKED) in
  let? s := thread_enqueue s t in
  let? s := set_status s t THREAD_READY in
  intr_set_level s old_level.

Definition thread_schedule_fifo s : outcome (sched P * Z) :=
  match fifo_ready_list s with
  | t :: rest => Ret (set_ready s rest, t)
  | [] => Ret (s, idle_thread s)
  end.
Definition thread_schedule_prio s : outcome (sched P * Z) := Panic.
Definition thread_schedule_fair s : outcome (sched P * Z) := Panic.
Definition thread_schedule_mlfqs s : outcome (sched P * Z) := Panic.

Definition next_thread_to_run s : outcome (sched P * Z) :=
  match active_sched_policy s with
  | SCHED_FIFO => thread_schedule_fifo s
  | SCHED_PRIO => thread_schedule_prio s
  | SCHED_FAIR => thread_schedule_fair s
  | SCHED_MLFQS => thread_schedule_mlfqs s
  end.

(** Freeing the page of a dead thread overwrites its [magic]. *)
Definition thread_switch_tail s (prev : option Z) : outcome (sched P) :=
  let cur := running s in
  assert? negb (intr_on s) in
  let? s := set_status s cur THREAD_RUNNING in
  let s := set_ticks s (idle_ticks s) (kernel_ticks s) (user_ticks s) 0 in
  match prev with
  | None => Ret s
  | Some prev =>
      let? th := thread_at s prev in
      if bool_decide (status th = THREAD_DYING) && negb (prev =? initial_thread s) then
        assert? negb (prev =? cur) in
        let? p := pa_free (pages s) prev 1 in
        Ret (set_pages (set_threads s (delete prev (threads s))) p)
      else Ret s
  end.

(** [switch_threads] changes stacks: what follows it runs on the stack of [next]. *)
Definition schedule s : outcome (sched P) :=
  let cur := running s in
  let? (s, next) := next_thread_to_run s in
  assert? negb (intr_on s) in
  let? th := thread_at s cur in
  assert? negb (bool_decide (status th = THREAD_RUNNING)) in
  assert? is_thread s next in
  if negb (cur =? next) then thread_switch_tail (set_running s next) (Some cur)
  else thread_switch_tail s None.

Definition thread_block s : outcome (sched P) :=
  assert? negb (intr_context s) in
  assert? negb (intr_on s) in
  let? cur := thread_current s in
  let? s := set_status s cur THREAD_BLOCKED in
  schedule s.

(** Up to the call of [schedule]; the caller's [intr_set_level (old_level)] runs when it is
    scheduled again. *)
Definition thread_yield s : outcome (sched P * bool) :=
  let? cur := thread_current s in
  assert? negb (intr_context s) in
  let (s, old_level) := intr_disable s in
  let? s := (if negb (cur =? idle_thread s) then thread_enqueue s cur else Ret s) in
  let? s := set_status s cur THREAD_READY in
  let? s := schedule s in
  Ret (s, old_level).

Definition thread_exit s : outcome (sched P) :=
  assert? negb (intr_context s) in
  let (s, _) := intr_disable s in
  let? cur := thread_current s in
  if bool_decide (cur ∈ all_list s) then
    let s := set_all s (filter (fun t => t <> cur) (all_list s)) in
    let? s := set_status s cur THREAD_DYING in
    schedule s
  else UB.

Definition thread_tick s : outcome (sched P) :=
  let? t := thread_current s in
  let? th := thread_at s t in
  let '(i, k, u) :=
    if t =? idle_thread s then (idle_ticks s + 1, kernel_ticks s, user_ticks s)
    else match pcb th with
         | Some _ => (idle_ticks s, kernel_ticks s, user_ticks s + 1)
         | None => (idle_ticks s, kernel_ticks s + 1, user_ticks s)
         end in
  let n := u32 (thread_ticks s + 1) in
  let s := set_ticks s i k u n in
  if TIME_SLICE <=? n then intr_yield_on_return s else Ret s.

(** [name] is an array of 16 bytes. *)
Definition init_thread s (t : Z) (name : string) (priority : Z) : outcome (sched P) :=
  assert? negb (t =? NULL) in
  assert? (PRI_MIN <=? priority) && (priority <=? PRI_MAX) in
  let th := mk_thread 0 THREAD_BLOCKED (String.substring 0 15 name) (u32 (t + PGSIZE))
              priority None in
  let s := set_threads s (<[t := th]> (threads s)) in
  let (s, old_level) := intr_disable s in
  let s := set_all s (all_list s ++ [t]) in
  intr_set_level s old_level.

Definition alloc_frame s (t size : Z) : outcome (sched P * Z) :=
  let? th := thread_at s t in
  assert? (size mod 4 =? 0) in
  let sp := u32 (stack th - size) in
  Ret (set_threads s (<[t := mk_thread (tid th) (status th) (name th) sp (priority th)
                             (pcb th)]> (threads s)), sp).

Definition set_tid s (t n : Z) : outcome (sched P) :=
  let? th := thread_at s t in
  Ret (set_threads s (<[t := mk_thread n (status th) (name th) (stack th) (priority th)
                             (pcb th)]> (threads s))).

(** [thread_create] up to the call of [allocate_tid], and after it.  The frames of
    [kernel_thread], [switch_entry] and [switch_threads] take 12, 4 and 28 bytes. *)
Definition thread_create_alloc s (name : string) (priority : Z) : outcome (sched P * Z) :=
  let? (p, t) := pa_get (pages s) 1 in
  let s := set_pages s p in
  if t =? NULL then Ret (s, NULL)
  else let? s := init_thread s t name priority in Ret (s, t).

Definition thread_create_finish s (t new_tid : Z) : outcome (sched P) :=
  let? s := set_tid s t new_tid in
  let? (s, _) := alloc_frame s t 12 in
  let? (s, _) := alloc_frame s t 4 in
  let? (s, _) := alloc_frame s t 28 in
  thread_unblock s t.

(** The increment under [tid_lock]. *)
Definition take_tid s : sched P * Z := (set_next_tid s (next_tid s + 1), next_tid s).

(** The state at the start of [thread_init]: nothing is initialised but the page allocator
    and the running stack.  [tid_lock] is free, so [allocate_tid] does not block. *)
Definition thread_init (main : Z) (p : P) : outcome (sched P) :=
  let s := mk_sched ∅ [] [] NULL main main 1 0 0 0 0 SCHED_FIFO false false false p in
  let? s := init_thread s main "main" PRI_DEFAULT in
  let? s := set_status s main THREAD_RUNNING in
  let (s, n) := take_tid s in
  set_tid s main n.

(** The timer interrupt as [intr_handler] runs it: [Some old_level] when it ends in
    [thread_yield], whose last step is then still to be done by the preempted thread. *)
Definition timer_interrupt s : outcome (sched P * option bool) :=
  let s := set_intr s false in
  assert? negb (intr_context s) in
  let s := set_context s true false in
  let? s := thread_tick s in
  let yield := yield_on_return s in
  let s := set_context s false yield in
  if yield then let? (s, old) := thread_yield s in Ret (s, Some old)
  else Ret (s, None).
End Operations.

(** * The scheduler's invariant *)

Section Invariant.
Context {P : Type} `{PA : page_allocator P}.
Implicit Types s : sched P.

Definition has_status s (t : Z) (st : thread_status) : Prop :=
  exists th, threads s !! t = Some th /\ status th = st.

(** What holds whoever is running: [dead] is the thread that may be dying, if any. *)
Record sched_base s (dead : option Z) : Prop := {
  sb_policy : active_sched_policy s = SCHED_FIFO;
  sb_nodup : NoDup (fifo_ready_list s);
  sb_ready t : t ∈ fifo_ready_list s -> has_status s t THREAD_READY;
  sb_ready_inv t : has_status s t THREAD_READY -> t ∈ fifo_ready_list s \/ t = idle_thread s;
  sb_all_nodup : NoDup (all_list s);
  sb_all t : t ∈ all_list s <-> exists th, threads s !! t = Some th /\ status th <> THREAD_DYING;
  sb_dying t : has_status s t THREAD_DYING -> t = initial_thread s \/ Some t = dead;
  sb_idle : ~ has_status s (idle_thread s) THREAD_DYING;
  sb_pages : pa_inv (pages s);
  sb_foreign : pa_foreign (pages s) (initial_thread s);
  sb_mem t : is_Some (threads s !! t) -> t <> NULL /\
    (t = initial_thread s \/
     (PHYS_BASE < t /\ t mod 4096 = 0 /\ pa_used (pages s) t = true /\ pa_run (pages s) t 1))
}.

Record sched_inv s : Prop := {
  si_base : sched_base s None;
  si_running : has_status s (running s) THREAD_RUNNING;
  si_unique t : has_status s t THREAD_RUNNING -> t = running s
}.

(** Inside [schedule]: the running thread has given up its status. *)
Record sched_mid s : Prop := {
  sm_base : sched_base s (Some (running s));
  sm_cur : is_Some (threads s !! running s);
  sm_none t : ~ has_status s t THREAD_RUNNING
}.

Lemma thread_at_Ret s t th : thread_at s t = Ret th <-> threads s !! t = Some th.
Proof. unfold thread_at. destruct (threads s !! t); split; congruence. Qed.

Lemma has_status_fun s t st st' : has_status s t st -> has_status s t st' -> st = st'.
Proof. intros (th & H & <-) (th' & H' & <-). congruence. Qed.

(** ** Changing the status of one thread *)

Lemma status_update s t th st t' st' :
  threads s !! t = Some th ->
  has_status (set_threads s (<[t := with_status th st]> (threads s))) t' st' <->
    (t' = t /\ st' = st) \/ (t' <> t /\ has_status s t' st').
Proof.
  intros Ht. unfold has_status. cbn [threads set_threads]. destruct (decide (t' = t)) as [->|Hn].
  - rewrite lookup_insert_eq. split.
    + intros (x & [= <-] & <-). by left.
    + intros [[_ ->]|[? _]]; [|done]. by eexists.
  - rewrite lookup_insert_ne by done. naive_solver.
Qed.

Lemma alive_update s t th st t' : threads s !! t = Some th ->
  (exists x, <[t := with_status th st]> (threads s) !! t' = Some x /\ status x <> THREAD_DYING) <->
    (t' = t /\ st <> THREAD_DYING) \/
    (t' <> t /\ exists x, threads s !! t' = Some x /\ status x <> THREAD_DYING).
Proof.
  intros Ht. destruct (decide (t' = t)) as [->|Hn].
  - rewrite lookup_insert_eq. split.
    + intros (x & [= <-] & Hs). by left.
    + intros [[_ ?]|[? _]]; [|done]. eexists. split; [done|done].
  - rewrite lookup_insert_ne by done. naive_solver.
Qed.

Lemma dom_update s t th st t' : threads s !! t = Some th ->
  is_Some (<[t := with_status th st]> (threads s) !! t') -> is_Some (threads s !! t').
Proof.
  intros Ht. destruct (decide (t' = t)) as [->|Hn]; [by eexists|].
  by rewrite lookup_insert_ne.
Qed.

(** The next thread: the head of the ready list, or the idle thread. *)
Definition next_of s : Z := match fifo_ready_list s with t :: _ => t | [] => idle_thread s end.

Lemma next_thread_spec s : active_sched_policy s = SCHED_FIFO ->
  next_thread_to_run s = Ret (set_ready s (tail (fifo_ready_list s)), next_of s).
Proof.
  intros HP. unfold next_thread_to_run, next_of, thread_schedule_fifo. rewrite HP.
  destruct (fifo_ready_list s) eqn:E; [|done].
  simpl. rewrite <- E. by destruct s.
Qed.

(** The part of the state the scheduler does not touch for threads other than the two
    involved. *)
Definition sched_frame s s' : Prop :=
  idle_thread s' = idle_thread s /\ initial_thread s' = initial_thread s /\
  active_sched_policy s' = active_sched_policy s /\ next_tid s' = next_tid s /\
  (forall t, t <> idle_thread s -> has_status s t THREAD_BLOCKED ->
     has_status s' t THREAD_BLOCKED) /\
  (forall t, is_Some (threads s' !! t) -> is_Some (threads s !! t)) /\
  (forall t, is_Some (threads s !! t) ->
     is_Some (threads s' !! t) \/ (t = running s /\ has_status s t THREAD_DYING)).

(** The state in which the next thread has been marked as running. *)
Lemma mark_running s next th : sched_mid s -> next = next_of s -> threads s !! next = Some th ->
  status th <> THREAD_DYING ->
  let s' := set_threads (set_running (set_ready s (tail (fifo_ready_list s))) next)
              (<[next := with_status th THREAD_RUNNING]> (threads s)) in
  sched_base s' (Some (running s)) /\ has_status s' next THREAD_RUNNING /\
  (forall t, has_status s' t THREAD_RUNNING -> t = next) /\
  (forall t, t <> idle_thread s -> has_status s t THREAD_BLOCKED ->
     has_status s' t THREAD_BLOCKED).
Proof.
  intros [B C N] -> Ht Hnd s'.
  assert (forall t st, has_status s' t st <->
    (t = next_of s /\ st = THREAD_RUNNING) \/ (t <> next_of s /\ has_status s t st)) as HS.
  { intros t st. rewrite <- (status_update s _ th) by done. done. }
  assert (forall t, t ∈ tail (fifo_ready_list s) -> t <> next_of s) as Htl.
  { intros t Hin ->. pose proof (sb_nodup s _ B) as Hnd2. unfold next_of in *.
    destruct (fifo_ready_list s) as [|x l]; [by apply not_elem_of_nil in Hin|].
    apply NoDup_cons in Hnd2 as [Hx _]. done. }
  assert (forall t, t ∈ tail (fifo_ready_list s) -> t ∈ fifo_ready_list s) as Hsub.
  { intros t Hin. destruct (fifo_ready_list s); [done|by right]. }
  split; [|split_and!].
  - split; try apply B.
    + cbn. pose proof (sb_nodup s _ B). destruct (fifo_ready_list s); [constructor|].
      by apply NoDup_cons in H as [_ ?].
    + intros t Hin. apply HS. right. split; [by apply Htl|]. apply (sb_ready s _ B). by apply Hsub.
    + intros t [[_ ?]|[Hne Hr]]%HS; [done|].
      destruct (sb_ready_inv s _ B t Hr) as [Hin|Hid]; [|by right]. left. cbn.
      unfold next_of in Hne. destruct (fifo_ready_list s); [done|].
      apply elem_of_cons in Hin as [->|?]; done.
    + intros t. cbn. rewrite (sb_all s _ B), (alive_update s (next_of s) th) by done.
      destruct (decide (t = next_of s)) as [->|Hn]; naive_solver.
    + intros t [[_ ?]|[Hne Hd]]%HS; [done|]. by apply (sb_dying s _ B).
    + intros [[_ ?]|[Hne Hd]]%HS; [done|]. by apply (sb_idle s _ B).
    + intros t Hd. apply (sb_mem s _ B). cbn in Hd. by eapply dom_update.
  - apply HS. by left.
  - intros t [[? _]|[_ Hr]]%HS; [done|]. by destruct (N t).
  - intros t Hid Hb. apply HS. right. split; [|done]. intros ->.
    unfold next_of in *. destruct (fifo_ready_list s) as [|x l] eqn:E; [done|].
    assert (has_status s x THREAD_READY) by (apply (sb_ready s _ B); rewrite E; by left).
    by pose proof (has_status_fun s x _ _ H Hb).
Qed.

(** Giving the page of the thread that has just died back to the allocator. *)
Lemma reap s prev p : sched_base s (Some prev) -> has_status s prev THREAD_DYING ->
  prev <> initial_thread s -> pa_free (pages s) prev 1 = Ret p ->
  sched_base (set_pages (set_threads s (delete prev (threads s))) p) None.
Proof.
  intros B Hd Hi E.
  destruct (sb_mem s _ B prev) as (Hnull & [?|(M1 & M2 & M3 & M4)]);
    [destruct Hd as (th & -> & _); by eexists|done|].
  destruct (pa_free_law (pages s) prev 1 (sb_pages s _ B) ltac:(lia) M2 M4)
    as (p' & E' & HP & _ & HU & HR & HF).
  { intros q Hq Hr. assert (q = prev) as ->; [|done].
    pose proof (Z.div_mod q 4096 ltac:(lia)). pose proof (Z.div_mod prev 4096 ltac:(lia)). lia. }
  rewrite E' in E. injection E as ->.
  assert (forall t st, has_status (set_pages (set_threads s (delete prev (threads s))) p) t st ->
    t <> prev /\ has_status s t st) as HS.
  { intros t st (th & H & Hs). cbn in H. apply lookup_delete_Some in H as [Hn H].
    split; [done|by exists th]. }
  assert (forall t st, t <> prev -> has_status s t st ->
    has_status (set_pages (set_threads s (delete prev (threads s))) p) t st) as HS'.
  { intros t st Hn (th & H & Hs). exists th. cbn. by rewrite lookup_delete_ne. }
  split; try apply B.
  - intros t Hin. apply HS'; [|by apply (sb_ready s _ B)]. intros ->.
    pose proof (has_status_fun s prev _ _ Hd (sb_ready s _ B prev Hin)). done.
  - intros t [Hn Hr]%HS. by apply (sb_ready_inv s _ B).
  - intros t. cbn. rewrite (sb_all s _ B). split.
    + intros (th & H & Hs). exists th. rewrite lookup_delete_ne; [done|]. intros <-.
      destruct Hd as (th' & H' & ?). congruence.
    + intros (th & H & Hs). apply lookup_delete_Some in H as [_ H]. by exists th.
  - intros t [Hn Hr]%HS. destruct (sb_dying s _ B t Hr) as [?|[= ->]]; [by left|done].
  - intros [_ Hr]%HS. by apply (sb_idle s _ B).
  - done.
  - cbn. apply HF, B.
  - intros t [th H]. cbn in H |- *. apply lookup_delete_Some in H as [Hn H].
    destruct (sb_mem s _ B t) as (N & [?|(A1 & A2 & A3 & A4)]); [by eexists| |];
      (split; [done|]); [by left|right].
    split_and!; [done|done| |by apply HR]. rewrite HU by done.
    unfold in_range. destruct ((prev <=? t) && (t <? prev + 4096 * 1)) eqn:R; [|done].
    exfalso. apply Hn. pose proof (Z.div_mod t 4096 ltac:(lia)).
    pose proof (Z.div_mod prev 4096 ltac:(lia)). lia.
Qed.

Lemma base_not_dying s d : sched_base s (Some d) -> ~ has_status s d THREAD_DYING \/ d = initial_thread s ->
  sched_base s None.
Proof.
  intros B H. split; try apply B. intros t Hd.
  destruct (sb_dying s _ B t Hd) as [?|[= ->]]; [by left|].
  destruct H as [H|H]; [done|by left].
Qed.

Lemma schedule_spec s s' : sched_mid s -> schedule s = Ret s' ->
  sched_inv s' /\ sched_frame s s' /\ running s' = next_of s /\ intr_on s' = intr_on s /\
  in_external_intr s' = in_external_intr s.
Proof.
  intros M H. pose proof M as [B C N]. unfold schedule in H.
  rewrite next_thread_spec in H by apply B. cbn [obind] in H.
  apply assert_Ret in H as [Hi H]. apply obind_Ret in H as (thc & Hc & H).
  apply assert_Ret in H as [_ H]. apply assert_Ret in H as [Hn H].
  cbn in Hi. unfold is_thread in Hn. apply bool_decide_eq_true in Hn as [th Hth]. cbn in Hth.
  assert (~ has_status s (next_of s) THREAD_DYING) as Hnd.
  { unfold next_of. destruct (fifo_ready_list s) as [|x l] eqn:E; [apply B|].
    intros Hd. assert (has_status s x THREAD_READY) as Hr by (apply (sb_ready s _ B); rewrite E; by left).
    by pose proof (has_status_fun s x _ _ Hr Hd). }
  assert (status th <> THREAD_DYING) as Hnd' by (intros E; apply Hnd; by exists th).
  destruct (mark_running s (next_of s) th M eq_refl Hth Hnd') as (B1 & R1 & U1 & K1).
  set (s1 := set_threads (set_running (set_ready s (tail (fifo_ready_list s))) (next_of s))
               (<[next_of s := with_status th THREAD_RUNNING]> (threads s))) in *.
  assert (Hdom : forall t, is_Some (threads s1 !! t) -> is_Some (threads s !! t))
    by (intros t; by eapply dom_update).
  assert (Hdom' : forall t, is_Some (threads s !! t) -> is_Some (threads s1 !! t)).
  { intros t Ht. cbn. destruct (decide (t = next_of s)) as [->|Hne].
    - rewrite lookup_insert_eq. by eexists.
    - by rewrite lookup_insert_ne. }
  cbn [running set_ready] in H.
  destruct (running s =? next_of s) eqn:E; cbn [negb] in H.
  - apply Z.eqb_eq in E. unfold thread_switch_tail in H. cbn in H.
    apply assert_Ret in H as [_ H]. apply obind_Ret in H as (s2 & H2 & H).
    unfold set_status, thread_at in H2. cbn in H2. rewrite E, Hth in H2. cbn in H2.
    injection H2 as <-. injection H as <-.
    assert (Eq : set_threads (set_ready s (tail (fifo_ready_list s)))
      (<[next_of s := with_status th THREAD_RUNNING]> (threads s)) = s1).
    { unfold s1. generalize (<[next_of s := with_status th THREAD_RUNNING]> (threads s)).
      intros m. by rewrite <- E. }
    rewrite Eq.
    assert (Hs : sched_base s1 None).
    { apply (base_not_dying s1 (running s)); [done|]. left. rewrite E. intros Hd.
      by pose proof (has_status_fun s1 _ _ _ R1 Hd). }
    split; [|unfold sched_frame; split_and!; try done; by auto].
    split; [by destruct Hs|exact R1|exact U1].
  - unfold thread_switch_tail in H. cbn in H.
    apply assert_Ret in H as [_ H]. apply obind_Ret in H as (s2 & H2 & H).
    unfold set_status, thread_at in H2. cbn in H2. rewrite Hth in H2. cbn in H2.
    injection H2 as <-. apply obind_Ret in H as (thp & Hp & H). cbn in Hp.
    set (s3 := set_ticks _ _ _ _ _) in H.
    change (initial_thread (set_threads _ _)) with (initial_thread s) in H.
    assert (B3 : sched_base s3 (Some (running s))) by (destruct B1; by split).
    assert (Hp' : threads s1 !! running s = Some thp).
    { unfold thread_at in Hp. cbn in Hp |- *. destruct (_ !! running s); [by injection Hp as ->|done]. }
    destruct (bool_decide (status thp = THREAD_DYING) && negb (running s =? initial_thread s)) eqn:D.
    + apply andb_true_iff in D as [D1 D2]. apply bool_decide_eq_true in D1.
      apply assert_Ret in H as [Hne H]. apply obind_Ret in H as (p & Hf & H). injection H as <-.
      assert (has_status s3 (running s) THREAD_DYING) as Hd by (by exists thp).
      assert (running s <> initial_thread s) as Hni by lia.
      pose proof (reap s3 (running s) p B3 Hd Hni Hf) as B4.
      split; [split; [done| |]|unfold sched_frame; split_and!; try done].
      * destruct R1 as (x & Hx & Hxs). exists x. cbn in Hx |- *.
        rewrite lookup_delete_ne by lia. done.
      * intros t (x & Hx & Hxs). cbn in Hx. apply lookup_delete_Some in Hx as [_ Hx].
        apply U1. by exists x.
      * intros t Hid Hb. cbn in Hid. destruct (K1 t Hid Hb) as (x & Hx & Hxs). exists x.
        cbn in Hx |- *. rewrite lookup_delete_ne; [done|]. intros <-.
        assert (has_status s1 (running s) THREAD_BLOCKED) as Hb1 by (by exists x).
        by pose proof (has_status_fun s1 _ _ _ Hb1 Hd).
      * intros t [x Hx]. cbn in Hx. apply lookup_delete_Some in Hx as [_ Hx]. apply Hdom. by exists x.
      * intros t Ht. destruct (decide (t = running s)) as [->|Hne2].
        -- right. split; [done|]. exists thp. split; [|done]. cbn in Hp'.
           by rewrite lookup_insert_ne in Hp' by lia.
        -- left. cbn. rewrite lookup_delete_ne by done. by apply Hdom'.
    + injection H as <-. split; [|unfold sched_frame; split_and!; try done; by auto].
      split; [|done|done].
      apply (base_not_dying s3 (running s)); [done|].
      apply andb_false_iff in D as [D|D].
      * apply bool_decide_eq_false in D. left. intros (x & Hx & Hxs). apply D.
        cbn in Hx, Hp'. congruence.
      * right. cbn. lia.
Qed.

(** ** The operations *)

Lemma switch_away s th st l al : sched_inv s -> threads s !! running s = Some th ->
  st <> THREAD_RUNNING -> NoDup l ->
  (forall t, t ∈ l <-> t ∈ fifo_ready_list s \/
     (t = running s /\ st = THREAD_READY /\ running s <> idle_thread s)) ->
  NoDup al -> (forall t, t ∈ al <-> t ∈ all_list s /\ (t <> running s \/ st <> THREAD_DYING)) ->
  (st = THREAD_DYING -> running s <> idle_thread s) ->
  let s' := set_threads (set_all (set_ready s l) al)
              (<[running s := with_status th st]> (threads s)) in
  sched_mid s' /\ forall t, has_status s t THREAD_BLOCKED -> has_status s' t THREAD_BLOCKED.
Proof.
  intros [B R U] Ht Hst Hnl Hl Hna Hal Hdi s'.
  assert (forall t x, has_status s' t x <->
    (t = running s /\ x = st) \/ (t <> running s /\ has_status s t x)) as HS.
  { intros t x. rewrite <- (status_update s _ th) by done. done. }
  assert (forall t x, has_status s t x -> x <> THREAD_RUNNING -> t <> running s) as Hne.
  { intros t x Hx Hx' ->. by pose proof (has_status_fun s _ _ _ Hx R). }
  split.
  - split; [|by eexists; cbn; rewrite lookup_insert_eq|].
    + split; try apply B; try done.
      * intros t Hin. apply Hl in Hin as [Hin|(-> & -> & _)]; apply HS; [right|by left].
        pose proof (sb_ready s _ B t Hin) as Hr. split; [by eapply Hne|done].
      * intros t [[-> <-]|[Hn Hr]]%HS; cbn.
        -- destruct (decide (running s = idle_thread s)); [by right|left].
           apply Hl. by right.
        -- destruct (sb_ready_inv s _ B t Hr); [left; apply Hl; by left|by right].
      * intros t. cbn. rewrite Hal, (sb_all s _ B), (alive_update s (running s) th) by done.
        destruct R as (thr & Hthr & Hs). destruct (decide (t = running s)) as [->|Hn].
        -- split.
           ++ intros [_ [?|?]]; [done|by left].
           ++ intros [[_ ?]|[? _]]; [|done]. split; [|by right]. exists thr. by rewrite Hs.
        -- naive_solver.
      * intros t [[-> <-]|[Hn Hr]]%HS; cbn; [by right|].
        destruct (sb_dying s _ B t Hr); [by left|done].
      * intros [[E <-]|[Hn Hr]]%HS; [by apply Hdi|by apply (sb_idle s _ B)].
      * intros t Hd. apply (sb_mem s _ B). by apply (dom_update s (running s) th st).
    + intros t [[-> ?]|[Hn Hr]]%HS; [done|]. by apply Hn, U.
  - intros t Hb. apply HS. right. split; [by eapply Hne|done].
Qed.

Lemma thread_current_Ret s t : thread_current s = Ret t ->
  t = running s /\ has_status s (running s) THREAD_RUNNING.
Proof.
  unfold thread_current. intros H. apply obind_Ret in H as (th & Ht & H).
  apply assert_Ret in H as [Hb H]. apply bool_decide_eq_true in Hb. injection H as <-.
  apply thread_at_Ret in Ht. split; [done|by exists th].
Qed.

(** What a scheduling operation guarantees. *)
Definition sched_step s s' : Prop :=
  sched_inv s' /\ idle_thread s' = idle_thread s /\ initial_thread s' = initial_thread s /\
  next_tid s' = next_tid s /\
  (forall t, t <> idle_thread s -> has_status s t THREAD_BLOCKED ->
     has_status s' t THREAD_BLOCKED) /\
  (forall t, is_Some (threads s !! t) -> t <> running s -> is_Some (threads s' !! t)).

Lemma thread_block_spec s s' : sched_inv s -> thread_block s = Ret s' ->
  sched_step s s' /\ running s' = next_of s /\ intr_on s' = false /\
  (running s <> idle_thread s -> has_status s' (running s) THREAD_BLOCKED) /\
  is_Some (threads s' !! running s).
Proof.
  intros I H. pose proof I as [B R U]. unfold thread_block in H.
  apply assert_Ret in H as [_ H]. apply assert_Ret in H as [Hi H].
  apply obind_Ret in H as (cur & Hc & H). apply thread_current_Ret in Hc as [-> _].
  apply obind_Ret in H as (s1 & H1 & H). unfold set_status in H1.
  apply obind_Ret in H1 as (th & Ht & H1). apply thread_at_Ret in Ht. injection H1 as <-.
  destruct (switch_away s th THREAD_BLOCKED (fifo_ready_list s) (all_list s)) as [M K]; try done.
  - apply B.
  - intros t. naive_solver.
  - apply B.
  - intros t. naive_solver.
  - assert (set_all (set_ready s (fifo_ready_list s)) (all_list s) = s) as E by (by destruct s).
    rewrite E in M, K. set (s1 := set_threads s _) in *.
    destruct (schedule_spec s1 s' M H) as (I' & (F1 & F2 & F3 & F4 & F5 & _ & F6) & Hr & Hi' & _).
    split; [split_and!; try done|split_and!; try done].
    + intros t Hid Hb. apply F5; [done|]. by apply K.
    + intros t Ht' Hne. destruct (F6 t) as [?|[-> _]]; [|done|done].
      cbn. by rewrite lookup_insert_ne.
    + rewrite Hi'. cbn. by destruct (intr_on s).
    + intros Hid. apply F5; [done|]. exists (with_status th THREAD_BLOCKED).
      cbn. by rewrite lookup_insert_eq.
    + destruct (F6 (running s)) as [?|[_ (x & Hx & Hd)]]; [|done|].
      * cbn. rewrite lookup_insert_eq. by eexists.
      * cbn in Hx. rewrite lookup_insert_eq in Hx. injection Hx as <-. done.
Qed.

Lemma thread_yield_spec s s' old : sched_inv s -> thread_yield s = Ret (s', old) ->
  sched_step s s' /\ intr_on s' = false /\ old = intr_on s /\ is_Some (threads s' !! running s).
Proof.
  intros I H. pose proof I as [B R U]. unfold thread_yield in H.
  apply obind_Ret in H as (cur & Hc & H). apply thread_current_Ret in Hc as [-> _].
  apply assert_Ret in H as [_ H]. cbn [intr_disable] in H.
  apply obind_Ret in H as (s1 & H1 & H). apply obind_Ret in H as (s2 & H2 & H).
  apply obind_Ret in H as (s3 & H3 & H). injection H as -> <-.
  set (l := if running s =? idle_thread s then fifo_ready_list s
            else fifo_ready_list s ++ [running s]).
  assert (s1 = set_ready (set_intr s false) l) as ->.
  { unfold l. cbn in H1. destruct (running s =? idle_thread s); cbn in H1.
    - injection H1 as <-. by destruct s.
    - unfold thread_enqueue in H1. cbn in H1. apply assert_Ret in H1 as [_ H1]. rewrite (sb_policy s _ B) in H1. by injection H1 as <-. }
  unfold set_status in H2. apply obind_Ret in H2 as (th & Ht & H2). apply thread_at_Ret in Ht.
  cbn in Ht. injection H2 as <-.
  assert (sched_inv (set_intr s false)) as I0 by (destruct B; split; [by split|done|done]).
  destruct (switch_away (set_intr s false) th THREAD_READY l (all_list s)) as [M K]; try done.
  - unfold l. destruct (running s =? idle_thread s); [apply B|].
    apply NoDup_app. split_and!; [apply B| |apply NoDup_singleton].
    intros x Hx ->%list_elem_of_singleton.
    by pose proof (has_status_fun s _ _ _ R (sb_ready s _ B _ Hx)).
  - intros t. unfold l. cbn. destruct (running s =? idle_thread s) eqn:E.
    + split; [by left|]. intros [?|(_ & _ & ?)]; [done|lia].
    + rewrite elem_of_app, list_elem_of_singleton. split; intros [?|?]; auto.
      * right. split_and!; [done|done|lia].
      * naive_solver.
  - apply B.
  - intros t. naive_solver.
  - assert (set_all (set_ready (set_intr s false) l) (all_list s) = set_ready (set_intr s false) l)
      as E by (by destruct s).
    rewrite E in M, K. set (s1 := set_threads _ _) in *.
    assert (schedule s1 = Ret s') as Hs by exact H3.
    destruct (schedule_spec s1 s' M Hs) as (I' & (F1 & F2 & F3 & F4 & F5 & _ & F6) & Hr & Hi' & _).
    split; [split_and!; try done|split_and!; [by rewrite Hi'|done|]].
    + intros t Hid Hb. apply F5; [done|]. by apply K.
    + intros t Ht' Hne. destruct (F6 t) as [?|[-> _]]; [|done|done].
      cbn. by rewrite lookup_insert_ne.
    + destruct (F6 (running s)) as [?|[_ (x & Hx & Hd)]]; [|done|].
      * cbn. rewrite lookup_insert_eq. by eexists.
      * cbn in Hx. rewrite lookup_insert_eq in Hx. injection Hx as <-. done.
Qed.

Lemma thread_exit_spec s s' : sched_inv s -> running s <> idle_thread s ->
  thread_exit s = Ret s' -> sched_step s s' /\ intr_on s' = false.
Proof.
  intros I Hid H. pose proof I as [B R U]. unfold thread_exit in H.
  apply assert_Ret in H as [_ H]. cbn [intr_disable] in H.
  apply obind_Ret in H as (cur & Hc & H). apply thread_current_Ret in Hc as [-> _].
  cbn in H. destruct (bool_decide (running s ∈ all_list s)) eqn:Hin; [|done].
  apply obind_Ret in H as (s1 & H1 & H). unfold set_status in H1.
  apply obind_Ret in H1 as (th & Ht & H1). apply thread_at_Ret in Ht. cbn in Ht.
  injection H1 as <-. set (al := filter _ (all_list s)) in *.
  assert (sched_inv (set_intr s false)) as I0 by (destruct B; split; [by split|done|done]).
  destruct (switch_away (set_intr s false) th THREAD_DYING (fifo_ready_list s) al) as [M K]; try done.
  - apply B.
  - intros t. naive_solver.
  - apply NoDup_filter, B.
  - intros t. unfold al. rewrite list_elem_of_filter. cbn. naive_solver.
  - assert (set_all (set_ready (set_intr s false) (fifo_ready_list s)) al
            = set_all (set_intr s false) al) as E by (by destruct s).
    rewrite E in M, K. set (s1 := set_threads _ _) in *.
    assert (schedule s1 = Ret s') as Hs by exact H.
    destruct (schedule_spec s1 s' M Hs) as (I' & (F1 & F2 & F3 & F4 & F5 & _ & F6) & Hr & Hi' & _).
    split; [split_and!; try done|].
    + intros t Ht' Hb. apply F5; [done|]. by apply K.
    + intros t Ht' Hne. destruct (F6 t) as [?|[-> _]]; [|done|done].
      cbn. by rewrite lookup_insert_ne.
    + by rewrite Hi'.
Qed.

(** Interrupt flags, statistics and the like are not part of the invariant. *)
Lemma sched_inv_ext s s' : sched_inv s -> threads s' = threads s ->
  fifo_ready_list s' = fifo_ready_list s -> all_list s' = all_list s ->
  idle_thread s' = idle_thread s -> initial_thread s' = initial_thread s ->
  running s' = running s -> active_sched_policy s' = active_sched_policy s ->
  pages s' = pages s -> sched_inv s'.
Proof.
  intros [[? ? ? ? ? ? ? ? ? ? ?] R U] E1 E2 E3 E4 E5 E6 E7 E8.
  assert (forall t st, has_status s' t st <-> has_status s t st) as HS.
  { intros t st. unfold has_status. by rewrite E1. }
  split; [split|rewrite E6; by apply HS|intros t; rewrite HS, E6; apply U];
    rewrite ?E1, ?E2, ?E3, ?E4, ?E5, ?E6, ?E7, ?E8 in *; try done.
  - intros t. rewrite HS. auto.
  - intros t. rewrite HS. auto.
  - intros t. rewrite HS. auto.
  - by rewrite HS.
Qed.

Lemma intr_set_level_inv s s' b : sched_inv s -> intr_set_level s b = Ret s' ->
  s' = set_intr s b /\ sched_inv s'.
Proof.
  intros I H. assert (s' = set_intr s b) as ->.
  { unfold intr_set_level, intr_enable in H. destruct b; [|by injection H as <-].
    apply assert_Ret in H as [_ H]. by injection H as <-. }
  split; [done|]. by apply (sched_inv_ext s).
Qed.

(** Changing a field of a thread other than its status. *)
Lemma update_thread_inv s t th th' : sched_inv s -> threads s !! t = Some th ->
  status th' = status th -> let s' := set_threads s (<[t := th']> (threads s)) in
  sched_inv s' /\ forall x st, has_status s' x st <-> has_status s x st.
Proof.
  intros [B R U] Ht Hs s'.
  assert (forall x st, has_status s' x st <-> has_status s x st) as HS.
  { intros x st. unfold has_status, s'. cbn. destruct (decide (x = t)) as [->|Hn].
    - rewrite lookup_insert_eq. split.
      + intros (y & [= <-] & <-). by exists th.
      + intros (y & Hy & <-). rewrite Ht in Hy. injection Hy as <-. by exists th'.
    - by rewrite lookup_insert_ne. }
  split; [|exact HS]. split; [|by apply HS|intros x; rewrite HS; apply U].
  assert (forall x, (exists y, <[t := th']> (threads s) !! x = Some y /\ status y <> THREAD_DYING)
    <-> exists y, threads s !! x = Some y /\ status y <> THREAD_DYING) as HA.
  { intros x. destruct (decide (x = t)) as [->|Hn]; [|by rewrite lookup_insert_ne].
    rewrite lookup_insert_eq. split.
    - intros (y & [= <-] & ?). exists th. by rewrite <- Hs.
    - intros (y & Hy & ?). rewrite Ht in Hy. injection Hy as <-. exists th'. by rewrite Hs. }
  split; try apply B.
  - intros x Hx. apply HS. by apply (sb_ready s _ B).
  - intros x Hx. apply HS in Hx. by apply (sb_ready_inv s _ B).
  - intros x. cbn. rewrite HA. apply (sb_all s _ B).
  - intros x Hx. apply HS in Hx. by apply (sb_dying s _ B).
  - rewrite HS. apply (sb_idle s _ B).
  - intros x Hx. apply (sb_mem s _ B). cbn in Hx. destruct (decide (x = t)) as [->|Hn].
    + by exists th.
    + by rewrite lookup_insert_ne in Hx.
Qed.

Lemma thread_unblock_spec s s' t : sched_inv s -> thread_unblock s t = Ret s' ->
  sched_inv s' /\ has_status s t THREAD_BLOCKED /\
  fifo_ready_list s' = fifo_ready_list s ++ [t] /\ running s' = running s /\
  idle_thread s' = idle_thread s /\ initial_thread s' = initial_thread s /\
  intr_on s' = intr_on s /\ pages s' = pages s /\ next_tid s' = next_tid s /\
  forall x st, has_status s' x st <-> (x = t /\ st = THREAD_READY) \/ (x <> t /\ has_status s x st).
Proof.
  intros I H. pose proof I as [B R U]. unfold thread_unblock in H.
  apply obind_Ret in H as (th & Ht & H). apply thread_at_Ret in Ht. cbn [intr_disable] in H.
  apply assert_Ret in H as [Hb H]. apply bool_decide_eq_true in Hb.
  apply obind_Ret in H as (s1 & H1 & H). unfold thread_enqueue in H1. cbn in H1.
  apply assert_Ret in H1 as [_ H1]. rewrite (sb_policy s _ B) in H1. injection H1 as <-.
  apply obind_Ret in H as (s2 & H2 & H). unfold set_status, thread_at in H2. cbn in H2.
  rewrite Ht in H2. cbn in H2. injection H2 as <-.
  assert (has_status s t THREAD_BLOCKED) as Hbl by (by exists th).
  assert (t <> running s) as Hnr.
  { intros ->. by pose proof (has_status_fun s _ _ _ R Hbl). }
  set (s1 := set_threads (set_ready s (fifo_ready_list s ++ [t]))
               (<[t := with_status th THREAD_READY]> (threads s))).
  assert (forall x st, has_status s1 x st <->
    (x = t /\ st = THREAD_READY) \/ (x <> t /\ has_status s x st)) as HS.
  { intros x st. rewrite <- (status_update s _ th) by done. done. }
  assert (sched_inv s1) as I1.
  { split; [split| |]; try apply B.
    - cbn. apply NoDup_app. split_and!; [apply B| |apply NoDup_singleton].
      intros x Hx ->%list_elem_of_singleton.
      by pose proof (has_status_fun s _ _ _ Hbl (sb_ready s _ B _ Hx)).
    - intros x [Hx| ->%list_elem_of_singleton]%elem_of_app; apply HS; [right|by left].
      pose proof (sb_ready s _ B _ Hx) as Hr. split; [|done]. intros ->.
      by pose proof (has_status_fun s _ _ _ Hbl Hr).
    - intros x [[-> _]|[Hn Hx]]%HS; cbn; [left; apply elem_of_app; right; by left|].
      destruct (sb_ready_inv s _ B x Hx); [left; apply elem_of_app; by left|by right].
    - intros x. cbn. rewrite (sb_all s _ B), (alive_update s t th) by done.
      destruct (decide (x = t)) as [->|Hn].
      + split; [by left|]. intros _. exists th. by rewrite Hb.
      + naive_solver.
    - intros x [[_ ?]|[Hn Hx]]%HS; [done|]. by apply (sb_dying s _ B).
    - intros [[_ ?]|[Hn Hx]]%HS; [done|]. by apply (sb_idle s _ B).
    - intros x Hx. apply (sb_mem s _ B). by apply (dom_update s t th THREAD_READY).
    - apply HS. right. split; [by apply not_eq_sym|done].
    - intros x [[_ ?]|[Hn Hx]]%HS; [done|]. by apply U. }
  assert (sched_inv (set_intr s1 false)) as I1' by (by apply (sched_inv_ext s1)).
  destruct (intr_set_level_inv (set_intr s1 false) s' (intr_on s) I1' H) as [-> I2].
  split_and!; try done.
Qed.

Lemma thread_create_alloc_spec s s' nm prio t : sched_inv s ->
  thread_create_alloc s nm prio = Ret (s', t) ->
  (t = NULL /\ sched_inv s' /\ threads s' = threads s /\ running s' = running s /\
   idle_thread s' = idle_thread s) \/
  (t <> NULL /\ sched_inv s' /\ threads s !! t = None /\ running s' = running s /\
   idle_thread s' = idle_thread s /\ initial_thread s' = initial_thread s /\
   intr_on s' = intr_on s /\ next_tid s' = next_tid s /\
   forall x st, has_status s' x st <->
     (x = t /\ st = THREAD_BLOCKED) \/ (x <> t /\ has_status s x st)).
Proof.
  intros I H. pose proof I as [B R U]. unfold thread_create_alloc in H.
  destruct (pa_get_law (pages s) 1 (sb_pages s _ B) ltac:(lia))
    as [E|(p & a & E & HP & _ & (A1 & A2 & A3) & Hfree & Hused & Hrun & Hruns & Hf & Hfs)];
    rewrite E in H; cbn [obind] in H.
  { rewrite Z.eqb_refl in H. injection H as <- <-. left.
    assert (set_pages s (pages s) = s) as -> by (by destruct s). done. }
  unfold PHYS_BASE in A1. rewrite (proj2 (Z.eqb_neq a NULL)) in H by (unfold NULL; lia).
  apply obind_Ret in H as (s1 & H1 & H). injection H as <- <-.
  unfold init_thread in H1. apply assert_Ret in H1 as [Ha H1]. apply assert_Ret in H1 as [_ H1].
  cbn [intr_disable] in H1.
  assert (threads s !! a = None) as Hnone.
  { destruct (threads s !! a) as [x|] eqn:Ex; [|done]. exfalso.
    destruct (sb_mem s _ B a) as (_ & [->|(_ & _ & M & _)]); [by eexists| |].
    - apply Hf, B.
    - rewrite Hfree in M by (done || lia). done. }
  set (th := mk_thread 0 THREAD_BLOCKED _ _ prio None) in H1.
  set (s0 := set_all (set_threads (set_pages s p) (<[a := th]> (threads s))) (all_list s ++ [a])).
  assert (forall x st, has_status s0 x st <->
    (x = a /\ st = THREAD_BLOCKED) \/ (x <> a /\ has_status s x st)) as HS.
  { intros x st. unfold has_status, s0. cbn. destruct (decide (x = a)) as [->|Hn].
    - rewrite lookup_insert_eq. split.
      + intros (y & [= <-] & <-). by left.
      + intros [[_ ->]|[? _]]; [|done]. by exists th.
    - rewrite lookup_insert_ne by done. naive_solver. }
  assert (Hne : forall x st, has_status s x st -> x <> a).
  { intros x st (y & Hy & _) ->. congruence. }
  assert (sched_inv s0) as I0.
  { split; [split| |]; try apply B; try done.
    - intros x Hx. apply HS. right. pose proof (sb_ready s _ B _ Hx) as Hr.
      split; [by eapply Hne|done].
    - intros x [[_ ?]|[Hn Hx]]%HS; [done|]. by apply (sb_ready_inv s _ B).
    - cbn. apply NoDup_app. split_and!; [apply B| |apply NoDup_singleton].
      intros x (y & Hy & _)%(sb_all s _ B) ->%list_elem_of_singleton. congruence.
    - intros x. cbn. rewrite elem_of_app, list_elem_of_singleton, (sb_all s _ B).
      destruct (decide (x = a)) as [->|Hn].
      + rewrite lookup_insert_eq. split; [intros _; by exists th|by right].
      + rewrite lookup_insert_ne by done. naive_solver.
    - intros x [[_ ?]|[Hn Hx]]%HS; [done|]. by apply (sb_dying s _ B).
    - intros [[_ ?]|[Hn Hx]]%HS; [done|]. by apply (sb_idle s _ B).
    - cbn. apply Hfs, B.
    - intros x Hx. cbn in Hx. destruct (decide (x = a)) as [->|Hn].
      + split; [unfold NULL; lia|]. right. cbn. rewrite Hused by done. unfold in_range.
        replace ((a <=? a) && (a <? a + 4096 * 1)) with true by lia.
        split_and!; try done; unfold PHYS_BASE; lia.
      + rewrite lookup_insert_ne in Hx by done.
        destruct (sb_mem s _ B x Hx) as (N & [?|(M1 & M2 & M3 & M4)]);
          (split; [done|]); [by left|right].
        split_and!; [done|done| |by apply Hruns]. cbn. rewrite Hused by done.
        by destruct (in_range _ _ _).
    - apply HS. right. split; [by eapply Hne|done].
    - intros x [[_ ?]|[Hn Hx]]%HS; [done|]. by apply U. }
  right. assert (sched_inv (set_intr s0 false)) as I0' by (by apply (sched_inv_ext s0)).
  destruct (intr_set_level_inv (set_intr s0 false) s1 (intr_on s) I0' H1) as [-> I2].
  split_and!; try done; unfold NULL; lia.
Qed.

(** [set_tid] and [alloc_frame] keep every status. *)
Definition same_status s s' : Prop :=
  sched_inv s' /\ running s' = running s /\ idle_thread s' = idle_thread s /\
  initial_thread s' = initial_thread s /\ intr_on s' = intr_on s /\
  forall x st, has_status s' x st <-> has_status s x st.

Lemma set_tid_spec s s' t n : sched_inv s -> set_tid s t n = Ret s' -> same_status s s'.
Proof.
  intros I H. unfold set_tid in H. apply obind_Ret in H as (th & Ht & H).
  apply thread_at_Ret in Ht. injection H as <-.
  destruct (update_thread_inv s t th (mk_thread n (status th) (name th) (stack th)
    (priority th) (pcb th)) I Ht eq_refl) as [I' HS]. by split_and!.
Qed.

Lemma alloc_frame_spec s s' t n sp : sched_inv s -> alloc_frame s t n = Ret (s', sp) ->
  same_status s s'.
Proof.
  intros I H. unfold alloc_frame in H. apply obind_Ret in H as (th & Ht & H).
  apply thread_at_Ret in Ht. apply assert_Ret in H as [_ H]. injection H as <- _.
  destruct (update_thread_inv s t th (mk_thread (tid th) (status th) (name th)
    (u32 (stack th - n)) (priority th) (pcb th)) I Ht eq_refl) as [I' HS]. by split_and!.
Qed.

Lemma same_status_trans s1 s2 s3 : same_status s1 s2 -> same_status s2 s3 -> same_status s1 s3.
Proof.
  intros (I2 & A1 & A2 & A3 & A4 & A5) (I3 & B1 & B2 & B3 & B4 & B5).
  split_and!; try congruence. intros x st. by rewrite B5, A5.
Qed.

Lemma thread_create_finish_spec s s' t n : sched_inv s -> thread_create_finish s t n = Ret s' ->
  exists s1, same_status s s1 /\ thread_unblock s1 t = Ret s'.
Proof.
  intros I H. unfold thread_create_finish in H.
  apply obind_Ret in H as (s1 & H1 & H). apply set_tid_spec in H1; [|done].
  apply obind_Ret in H as ([s2 sp2] & H2 & H). apply alloc_frame_spec in H2; [|apply H1].
  apply obind_Ret in H as ([s3 sp3] & H3 & H). apply alloc_frame_spec in H3; [|apply H2].
  apply obind_Ret in H as ([s4 sp4] & H4 & H). apply alloc_frame_spec in H4; [|apply H3].
  exists s4. split; [|done]. eauto using same_status_trans.
Qed.

Lemma timer_interrupt_spec s s' y : sched_inv s -> timer_interrupt s = Ret (s', y) ->
  sched_step s s' /\ intr_on s' = false /\ (y = None -> running s' = running s) /\
  is_Some (threads s' !! running s).
Proof.
  intros I H. pose proof (si_running s I) as R. unfold timer_interrupt in H. apply assert_Ret in H as [_ H].
  apply obind_Ret in H as (s1 & H1 & H). unfold thread_tick in H1.
  apply obind_Ret in H1 as (t & Ht & H1). apply obind_Ret in H1 as (th & Hth & H1).
  destruct (if t =? _ then _ else _) as [[i k] u].
  set (s0 := set_ticks _ i k u _) in H1.
  assert (exists b, s1 = set_context s0 true b) as [b ->].
  { destruct (TIME_SLICE <=? _).
    - unfold intr_yield_on_return in H1. apply assert_Ret in H1 as [_ H1].
      injection H1 as <-. by exists true.
    - injection H1 as <-. by exists false. }
  cbn in H. assert (sched_inv (set_context (set_context s0 true b) false b)) as I1
    by (by apply (sched_inv_ext s)).
  destruct b.
  - apply obind_Ret in H as ([s2 old] & H2 & H). injection H as <- <-.
    destruct (thread_yield_spec _ s2 old I1 H2) as ((I2 & E1 & E2 & E3 & K & K') & Hi & Ho & Hr).
    by split_and!.
  - injection H as <- <-. split_and!; try done. destruct R as (x & Hx & _). by exists x.
Qed.
End Invariant.
