(* ===== verification/Synch.v ===== *)
(** Semaphores, locks, condition variables and readers-writers locks (threads/synch.c),
    executed by the preemptible threads of Threads.

    A routine that may block or be preempted is a sequence of [frame]s: each frame is a piece
    of C code that runs without another thread in between, and the stack of a thread's pending
    frames plays the role of its saved program counter and locals.  A frame that calls another
    routine pushes that routine's frames.  An empty stack means that the thread is in its own
    code, which may then call any routine. *)
From S2P Require Import Prelude Bitmap Vaddr Palloc Threads.

(** * Definitions *)

(** Locks: ordinary ones by address, the one of [allocate_tid], the guard of an rw_lock. *)
Inductive lock_id := Lock (a : Z) | TidLock | RwGuard (a : Z).
(** Semaphores: ordinary ones, the one inside a lock, and the [waiter] on the stack of a thread
    in [cond_wait]. *)
Inductive sema_id := Sema (a : Z) | LockSema (l : lock_id) | WaiterSema (t : Z).
Inductive cond_id := Cond (a : Z) | RwRead (a : Z) | RwWrite (a : Z).
#[export] Instance lock_id_eq_dec : EqDecision lock_id.
Proof. solve_decision. Defined.
#[export] Instance sema_id_eq_dec : EqDecision sema_id.
Proof. solve_decision. Defined.
#[export] Instance cond_id_eq_dec : EqDecision cond_id.
Proof. solve_decision. Defined.

Record semaphore := mk_sema { value : Z; waiters : list Z }.

(** The counters of an rw_lock.  The lists are auxiliary: the threads counted by [AR], [AW]
    and [WW]. *)
Record rw_lock := mk_rw {
  AR : Z; WR : Z; AW : Z; WW : Z;
  readers : list Z; writers : list Z; waiting_writers : list Z
}.

Inductive frame :=
  | FSemaDown (s : sema_id)
  | FSemaRetry (s : sema_id) (old_level : bool)
  | FSemaUp (s : sema_id)
  | FSemaTryDown (s : sema_id)
  | FLockAcquire (l : lock_id)
  | FLockTryAcquire (l : lock_id)
  | FSetHolder (l : lock_id)
  | FLockRelease (l : lock_id)
  | FCondWait (c : cond_id) (l : lock_id)
  | FCondSignal (c : cond_id) (l : lock_id)
  | FCondBroadcast (c : cond_id) (l : lock_id)
  | FRwAcquire (a : Z) (reader : bool)
  | FRwReadTest (a : Z) | FRwReadWoken (a : Z) | FRwReadEnter (a : Z)
  | FRwWriteTest (a : Z) | FRwWriteWoken (a : Z) | FRwWriteEnter (a : Z)
  | FRwRelease (a : Z) (reader : bool)
  | FRwReadLeave (a : Z) | FRwReadWake (a : Z)
  | FRwWriteLeave (a : Z) | FRwWriteWake (a : Z)
  | FSetLevel (old_level : bool) | FIret
  | FThreadCreate (name : string) (priority : Z) (started : option sema_id)
  | FTakeTid (t : Z) | FCreateFinish (t tid : Z)
  | FYield | FExit
  | FIntrEnable | FIdle (started : sema_id) | FIdleBlock | FIdleHalt.

Record kernel (P : Type) := mk_kernel {
  sc : sched P;
  frames : Z -> list frame;
  semas : sema_id -> semaphore;
  holder : lock_id -> option Z;
  conds : cond_id -> list sema_id;
  rws : Z -> rw_lock
}.
Arguments mk_kernel {P}.
Arguments sc {P}.
Arguments frames {P}.
Arguments semas {P}.
Arguments holder {P}.
Arguments conds {P}.
Arguments rws {P}.

Definition fset {K V} `{EqDecision K} (f : K -> V) (k : K) (v : V) : K -> V :=
  fun x => if decide (x = k) then v else f x.

Definition sema_init (value : Z) : semaphore := mk_sema value [].
Definition cond_init : list sema_id := [].
Definition rw_lock_init : rw_lock := mk_rw 0 0 0 0 [] [] [].
(** The initial state of every object: locks are free semaphores of value 1. *)
Definition lock_init : option Z * semaphore := (None, sema_init 1).

Section Operations.
Context {P : Type} `{PA : page_allocator P}.
Implicit Types k : kernel P.

Definition with_sc k (s : sched P) : kernel P := mk_kernel s (frames k) (semas k) (holder k) (conds k) (rws k).
Definition with_frames k t fs : kernel P :=
  mk_kernel (sc k) (fset (frames k) t fs) (semas k) (holder k) (conds k) (rws k).
Definition with_sema k s v : kernel P :=
  mk_kernel (sc k) (frames k) (fset (semas k) s v) (holder k) (conds k) (rws k).
Definition with_holder k l h : kernel P :=
  mk_kernel (sc k) (frames k) (semas k) (fset (holder k) l h) (conds k) (rws k).
Definition with_cond k c ws : kernel P :=
  mk_kernel (sc k) (frames k) (semas k) (holder k) (fset (conds k) c ws) (rws k).
Definition with_rw k a r : kernel P :=
  mk_kernel (sc k) (frames k) (semas k) (holder k) (conds k) (fset (rws k) a r).

Definition cur k : Z := running (sc k).
(** Calls made by the running thread: their frames run before the rest of its code. *)
Definition push k (fs : list frame) : kernel P := with_frames k (cur k) (fs ++ frames k (cur k)).

Definition lock_held_by_current_thread k (l : lock_id) : outcome bool :=
  let? t := thread_current (sc k) in Ret (bool_decide (holder k l = Some t)).

(** One test of [while (sema->value == 0)]: block and test again, or take the unit. *)
Definition sema_down_loop k (s : sema_id) (old_level : bool) : outcome (kernel P) :=
  let sem := semas k s in
  if value sem =? 0 then
    let? t := thread_current (sc k) in
    let k := with_sema k s (mk_sema (value sem) (waiters sem ++ [t])) in
    let k := push k [FSemaRetry s old_level] in
    let? sc' := thread_block (sc k) in
    Ret (with_sc k sc')
  else
    let k := with_sema k s (mk_sema (u32 (value sem - 1)) (waiters sem)) in
    let? sc' := intr_set_level (sc k) old_level in
    Ret (with_sc k sc').

Definition sema_down k (s : sema_id) : outcome (kernel P) :=
  assert? negb (intr_context (sc k)) in
  let (sc', old_level) := intr_disable (sc k) in
  sema_down_loop (with_sc k sc') s old_level.

Definition sema_try_down k (s : sema_id) : outcome (kernel P * bool) :=
  let (sc', old_level) := intr_disable (sc k) in
  let k := with_sc k sc' in
  let sem := semas k s in
  let '(k, success) :=
    if 0 <? value sem
    then (with_sema k s (mk_sema (u32 (value sem - 1)) (waiters sem)), true)
    else (k, false) in
  let? sc' := intr_set_level (sc k) old_level in
  Ret (with_sc k sc', success).

Definition sema_up k (s : sema_id) : outcome (kernel P) :=
  let (sc', old_level) := intr_disable (sc k) in
  let k := with_sc k sc' in
  let sem := semas k s in
  let? k := (match waiters sem with
             | t :: rest =>
                 let? sc' := thread_unblock (sc k) t in
                 Ret (with_sema (with_sc k sc') s (mk_sema (value sem) rest))
             | [] => Ret k
             end) in
  let sem := semas k s in
  let k := with_sema k s (mk_sema (u32 (value sem + 1)) (waiters sem)) in
  let? sc' := intr_set_level (sc k) old_level in
  Ret (with_sc k sc').

Definition lock_acquire k (l : lock_id) : outcome (kernel P) :=
  assert? negb (intr_context (sc k)) in
  let? held := lock_held_by_current_thread k l in
  assert? negb held in
  Ret (push k [FSemaDown (LockSema l); FSetHolder l]).

Definition lock_try_acquire k (l : lock_id) : outcome (kernel P * bool) :=
  let? held := lock_held_by_current_thread k l in
  assert? negb held in
  let? (k, success) := sema_try_down k (LockSema l) in
  Ret (if success then push k [FSetHolder l] else k, success).

Definition set_holder k (l : lock_id) : outcome (kernel P) :=
  let? t := thread_current (sc k) in Ret (with_holder k l (Some t)).

Definition lock_release k (l : lock_id) : outcome (kernel P) :=
  let? held := lock_held_by_current_thread k l in
  assert? held in
  Ret (push (with_holder k l None) [FSemaUp (LockSema l)]).

Definition cond_wait k (c : cond_id) (l : lock_id) : outcome (kernel P) :=
  assert? negb (intr_context (sc k)) in
  let? held := lock_held_by_current_thread k l in
  assert? held in
  let waiter := WaiterSema (cur k) in
  let k := with_sema k waiter (sema_init 0) in
  let k := with_cond k c (conds k c ++ [waiter]) in
  Ret (push k [FLockRelease l; FSemaDown waiter; FLockAcquire l]).

Definition cond_signal k (c : cond_id) (l : lock_id) : outcome (kernel P) :=
  assert? negb (intr_context (sc k)) in
  let? held := lock_held_by_current_thread k l in
  assert? held in
  match conds k c with
  | [] => Ret k
  | w :: rest => Ret (push (with_cond k c rest) [FSemaUp w])
  end.

Definition cond_broadcast k (c : cond_id) (l : lock_id) : outcome (kernel P) :=
  match conds k c with
  | [] => Ret k
  | _ :: _ => Ret (push k [FCondSignal c l; FCondBroadcast c l])
  end.

(** ** Readers-writers locks *)

Definition rw_lock_acquire k (a : Z) (reader : bool) : outcome (kernel P) :=
  Ret (push k [FLockAcquire (RwGuard a); if reader then FRwReadTest a else FRwWriteTest a]).

(** [while ((AW + WW) > 0) { WR++; cond_wait (...); WR--; }] and what follows the loop. *)
Definition rw_read_test k (a : Z) : outcome (kernel P) :=
  let r := rws k a in
  if 0 <? AW r + WW r then
    let k := with_rw k a (mk_rw (AR r) (WR r + 1) (AW r) (WW r)
                            (readers r) (writers r) (waiting_writers r)) in
    Ret (push k [FCondWait (RwRead a) (RwGuard a); FRwReadWoken a; FRwReadTest a])
  else Ret (push k [FRwReadEnter a; FLockRelease (RwGuard a)]).

Definition rw_read_woken k (a : Z) : outcome (kernel P) :=
  let r := rws k a in
  Ret (with_rw k a (mk_rw (AR r) (WR r - 1) (AW r) (WW r)
                      (readers r) (writers r) (waiting_writers r))).

Definition rw_read_enter k (a : Z) : outcome (kernel P) :=
  let r := rws k a in
  Ret (with_rw k a (mk_rw (AR r + 1) (WR r) (AW r) (WW r)
                      (cur k :: readers r) (writers r) (waiting_writers r))).

Definition rw_write_test k (a : Z) : outcome (kernel P) :=
  let r := rws k a in
  if 0 <? AR r + AW r then
    let k := with_rw k a (mk_rw (AR r) (WR r) (AW r) (WW r + 1)
                            (readers r) (writers r) (cur k :: waiting_writers r)) in
    Ret (push k [FCondWait (RwWrite a) (RwGuard a); FRwWriteWoken a; FRwWriteTest a])
  else Ret (push k [FRwWriteEnter a; FLockRelease (RwGuard a)]).

(** Removes one occurrence. *)
Fixpoint remove_one (t : Z) (l : list Z) : list Z :=
  match l with
  | [] => []
  | x :: l => if x =? t then l else x :: remove_one t l
  end.

Definition rw_write_woken k (a : Z) : outcome (kernel P) :=
  let r := rws k a in
  Ret (with_rw k a (mk_rw (AR r) (WR r) (AW r) (WW r - 1)
                      (readers r) (writers r) (remove_one (cur k) (waiting_writers r)))).

Definition rw_write_enter k (a : Z) : outcome (kernel P) :=
  let r := rws k a in
  Ret (with_rw k a (mk_rw (AR r) (WR r) (AW r + 1) (WW r)
                      (readers r) (cur k :: writers r) (waiting_writers r))).

Definition rw_lock_release k (a : Z) (reader : bool) : outcome (kernel P) :=
  Ret (push k ((FLockAcquire (RwGuard a)) ::
                 (if reader then [FRwReadLeave a; FRwReadWake a]
                  else [FRwWriteLeave a; FRwWriteWake a]) ++ [FLockRelease (RwGuard a)])).

Definition rw_read_leave k (a : Z) : outcome (kernel P) :=
  let r := rws k a in
  Ret (with_rw k a (mk_rw (AR r - 1) (WR r) (AW r) (WW r)
                      (remove_one (cur k) (readers r)) (writers r) (waiting_writers r))).

Definition rw_read_wake k (a : Z) : outcome (kernel P) :=
  let r := rws k a in
  if (AR r =? 0) && (0 <? WW r) then Ret (push k [FCondSignal (RwWrite a) (RwGuard a)])
  else Ret k.

Definition rw_write_leave k (a : Z) : outcome (kernel P) :=
  let r := rws k a in
  Ret (with_rw k a (mk_rw (AR r) (WR r) (AW r - 1) (WW r)
                      (readers r) (remove_one (cur k) (writers r)) (waiting_writers r))).

Definition rw_write_wake k (a : Z) : outcome (kernel P) :=
  let r := rws k a in
  if 0 <? WW r then Ret (push k [FCondSignal (RwWrite a) (RwGuard a)])
  else if 0 <? WR r then Ret (push k [FCondBroadcast (RwRead a) (RwGuard a)])
  else Ret k.

(** ** Threads *)

(** [allocate_tid] acquires [tid_lock]; a failed allocation returns [TID_ERROR].  The new
    thread starts in [kernel_thread]; only the idle thread has a known function. *)
Definition thread_create k (name : string) (priority : Z) (started : option sema_id)
    : outcome (kernel P) :=
  let? (s, t) := thread_create_alloc (sc k) name priority in
  let k := with_sc k s in
  if t =? NULL then Ret k
  else
    let entry := match started with Some s => [FIntrEnable; FIdle s] | None => [FIntrEnable] end in
    Ret (push (with_frames k t entry) [FLockAcquire TidLock; FTakeTid t]).

Definition allocate_tid k (t : Z) : outcome (kernel P) :=
  let (s, n) := take_tid (sc k) in
  Ret (push (with_sc k s) [FLockRelease TidLock; FCreateFinish t n]).

Definition idle k (started : sema_id) : outcome (kernel P) :=
  let? t := thread_current (sc k) in
  Ret (push (with_sc k (set_idle (sc k) t)) [FSemaUp started; FIdleBlock]).
(** [for (;;) { intr_disable (); thread_block (); sti; hlt }]. *)
Definition idle_block k : outcome (kernel P) :=
  let (s, _) := intr_disable (sc k) in
  let k := push (with_sc k s) [FIdleHalt] in
  let? s := thread_block (sc k) in Ret (with_sc k s).
Definition idle_halt k : outcome (kernel P) :=
  Ret (push (with_sc k (set_intr (sc k) true)) [FIdleBlock]).

Definition yield k : outcome (kernel P) :=
  let? (s, old) := thread_yield (sc k) in
  Ret (mk_kernel s (fset (frames k) (cur k) (FSetLevel old :: frames k (cur k)))
         (semas k) (holder k) (conds k) (rws k)).

(** Runs one frame of the running thread, already popped from its stack. *)
Definition exec k (f : frame) : outcome (kernel P) :=
  match f with
  | FSemaDown s => sema_down k s
  | FSemaRetry s old => sema_down_loop k s old
  | FSemaUp s => sema_up k s
  | FSemaTryDown s => let? (k, _) := sema_try_down k s in Ret k
  | FLockAcquire l => lock_acquire k l
  | FLockTryAcquire l => let? (k, _) := lock_try_acquire k l in Ret k
  | FSetHolder l => set_holder k l
  | FLockRelease l => lock_release k l
  | FCondWait c l => cond_wait k c l
  | FCondSignal c l => cond_signal k c l
  | FCondBroadcast c l => cond_broadcast k c l
  | FRwAcquire a reader => rw_lock_acquire k a reader
  | FRwReadTest a => rw_read_test k a
  | FRwReadWoken a => rw_read_woken k a
  | FRwReadEnter a => rw_read_enter k a
  | FRwWriteTest a => rw_write_test k a
  | FRwWriteWoken a => rw_write_woken k a
  | FRwWriteEnter a => rw_write_enter k a
  | FRwRelease a reader => rw_lock_release k a reader
  | FRwReadLeave a => rw_read_leave k a
  | FRwReadWake a => rw_read_wake k a
  | FRwWriteLeave a => rw_write_leave k a
  | FRwWriteWake a => rw_write_wake k a
  | FSetLevel b => let? s := intr_set_level (sc k) b in Ret (with_sc k s)
  | FIret => Ret (with_sc k (set_intr (sc k) true))
  | FThreadCreate n p e => thread_create k n p e
  | FTakeTid t => allocate_tid k t
  | FCreateFinish t n => let? s := thread_create_finish (sc k) t n in Ret (with_sc k s)
  | FYield => yield k
  | FExit => let? s := thread_exit (sc k) in Ret (with_sc k s)
  | FIntrEnable => let? s := intr_enable (sc k) in Ret (with_sc k s)
  | FIdle s => idle k s
  | FIdleBlock => idle_block k
  | FIdleHalt => idle_halt k
  end.

(** A timer interrupt: the interrupted code resumes with interrupts on, after the yield's
    own [intr_set_level] when the time slice was over. *)
Definition timer_tick k : outcome (kernel P) :=
  let? (s, y) := timer_interrupt (sc k) in
  let fs := match y with Some old => [FSetLevel old; FIret] | None => [FIret] end in
  Ret (mk_kernel s (fset (frames k) (cur k) (fs ++ frames k (cur k)))
         (semas k) (holder k) (conds k) (rws k)).

Definition run1 k : outcome (kernel P) :=
  match frames k (cur k) with
  | [] => UB
  | f :: fs => exec (with_frames k (cur k) fs) f
  end.

(** [thread_start], called once by the initial thread. *)
Definition thread_start k : kernel P :=
  let started := Sema 0 in
  push (with_sema k started (sema_init 0))
    [FThreadCreate "idle" PRI_MIN (Some started); FIntrEnable; FSemaDown started].

Fixpoint run (n : nat) k : outcome (kernel P) :=
  match n with
  | O => Ret k
  | S n => let? k := run1 k in run n k
  end.

(** After [thread_init]. *)
Definition boot (main : Z) (p : P) : outcome (kernel P) :=
  let? s := thread_init main p in
  Ret (mk_kernel s (fun _ => [])
         (fun s => match s with LockSema _ => snd lock_init | _ => sema_init 0 end)
         (fun _ => fst lock_init) (fun _ => cond_init) (fun _ => rw_lock_init)).
End Operations.

(** Booting on the example pools: after [thread_start] the initial thread runs again and the
    idle thread is blocked at its [hlt]. *)
Definition booted : outcome (kernel palloc_state) :=
  let? k := boot 0xc000e000 ex_palloc in run 15 (thread_start k).

Example booted_state :
  (let? k := booted in
   Ret (cur k, idle_thread (sc k), frames k (cur k), frames k (idle_thread (sc k)),
        fifo_ready_list (sc k))) =
  Ret (0xc000e000, 0xc0103000, [], [FIdleHalt], []).
Proof. vm_compute. reflexivity. Qed.
