(* ===== verification/SynchFacts.v ===== *)
(** The steps of the preemptible kernel and what they preserve: mutual exclusion of locks,
    exclusion of writers by readers-writers locks, and the agreement of the scheduler with
    the lists of waiting threads. *)
From S2P Require Import Prelude Bitmap Vaddr Palloc Threads Synch.

#[export] Instance frame_eq_dec : EqDecision frame.
Proof. solve_decision. Defined.

(** * The step relation *)

Section Steps.
Context {P : Type} `{PA : page_allocator P}.
Implicit Types k : kernel P.

(** What the code of a thread may call.  The guard of a readers-writers lock, [tid_lock] and
    the semaphores inside other objects are private; [rw_lock_release] is only called by a
    thread that is inside, and [cond_broadcast] with the lock held, as their comments demand;
    the idle thread never exits. *)
Definition client_ok k (f : frame) : Prop :=
  match f with
  | FSemaDown (Sema _) | FSemaUp (Sema _) | FSemaTryDown (Sema _) => True
  | FLockAcquire (Lock _) | FLockTryAcquire (Lock _) | FLockRelease (Lock _) => True
  | FCondWait (Cond _) (Lock _) | FCondSignal (Cond _) (Lock _) => True
  | FCondBroadcast (Cond _) (Lock a) => holder k (Lock a) = Some (cur k)
  | FRwAcquire _ _ => True
  | FRwRelease a reader =>
      if reader then cur k ∈ readers (rws k a) else cur k ∈ writers (rws k a)
  | FThreadCreate _ _ None => True
  | FYield | FExit => True
  | _ => False
  end.

(** A thread runs its next frame, its code calls a routine, or the timer interrupts it. *)
Inductive step k : kernel P -> Prop :=
  | step_run k' : run1 k = Ret k' -> step k k'
  | step_call f k' : frames k (cur k) = [] -> client_ok k f ->
      run1 (push k [f]) = Ret k' -> step k k'
  | step_tick k' : intr_on (sc k) = true -> timer_tick k = Ret k' -> step k k'.

Inductive steps k : kernel P -> Prop :=
  | steps_refl : steps k k
  | steps_step k1 k2 : steps k k1 -> step k1 k2 -> steps k k2.

(** * Locks *)

(** Where a thread stands with a lock: outside, past the lock's semaphore, recorded as its
    holder, or no longer recorded and about to release the semaphore. *)
Inductive phase := Out | Got | Held | Rel.

#[local] Instance phase_eq_dec : EqDecision phase.
Proof. solve_decision. Defined.

Definition phase_step (p q ph : phase) : option phase :=
  match p, ph with
  | Out, Out | Got, Got | Held, Held | Rel, Rel => Some q
  | _, _ => None
  end.

(** How a frame, with the frames it will push, moves a thread with respect to lock [l]. *)
Definition fphase (l : lock_id) (f : frame) (ph : phase) : option phase :=
  let on_lock l' p q := if decide (l' = l) then phase_step p q ph else Some ph in
  let on_sema s p q := match s with LockSema l' => on_lock l' p q | _ => Some ph end in
  match f with
  | FSemaDown s | FSemaRetry s _ => on_sema s Out Got
  | FSemaTryDown s => match s with Sema _ => Some ph | _ => None end
  | FSemaUp s => on_sema s Rel Out
  | FSetHolder l' => on_lock l' Got Held
  | FLockAcquire l' => on_lock l' Out Held
  | FLockTryAcquire l' => if decide (l' = l) then None else Some ph
  | FLockRelease l' => on_lock l' Held Out
  | FCondWait _ l' | FCondSignal _ l' | FCondBroadcast _ l' => on_lock l' Held Held
  | FRwAcquire a _ | FRwRelease a _ => on_lock (RwGuard a) Out Out
  | FRwReadTest a | FRwWriteTest a => on_lock (RwGuard a) Held Out
  | FRwReadWoken a | FRwWriteWoken a | FRwReadEnter a | FRwWriteEnter a
  | FRwReadLeave a | FRwWriteLeave a | FRwReadWake a | FRwWriteWake a =>
      on_lock (RwGuard a) Held Held
  | FThreadCreate _ _ None => on_lock TidLock Out Out
  | FThreadCreate _ _ (Some _) | FIdle _ => None
  | FTakeTid _ => on_lock TidLock Held Out
  | _ => Some ph
  end.

Fixpoint fphases (l : lock_id) (fs : list frame) (ph : phase) : option phase :=
  match fs with
  | [] => Some ph
  | f :: fs => match fphase l f ph with Some ph' => fphases l fs ph' | None => None end
  end.

(** At the bottom of its stack a thread may hold ordinary locks only. *)
Definition bottom_ok (l : lock_id) (ph : phase) : Prop :=
  match l, ph with _, Out => True | Lock _, Held => True | _, _ => False end.
Definition typed (l : lock_id) (ph : phase) (fs : list frame) : Prop :=
  exists ph', fphases l fs ph = Some ph' /\ bottom_ok l ph'.

Lemma fphases_app l fs gs ph :
  fphases l (fs ++ gs) ph =
    match fphases l fs ph with Some ph' => fphases l gs ph' | None => None end.
Proof.
  revert ph. induction fs as [|f fs IH]; intros ph; simpl; [done|].
  destruct (fphase l f ph); [apply IH|done].
Qed.

Lemma typed_step l ph f fs rest :
  (forall ph', fphase l f ph = Some ph' -> fphases l fs ph = Some ph') ->
  typed l ph (f :: rest) -> typed l ph (fs ++ rest).
Proof.
  intros H (ph' & E & B). simpl in E. destruct (fphase l f ph) as [p|] eqn:Ef; [|done].
  exists ph'. split; [|done]. by rewrite fphases_app, (H p).
Qed.

Lemma typed_cons l ph f rest ph' : typed l ph (f :: rest) -> fphase l f ph = Some ph' ->
  typed l ph' rest.
Proof. intros (p & E & B) Hf. simpl in E. rewrite Hf in E. by exists p. Qed.

Definition lval k (l : lock_id) : Z := value (semas k (LockSema l)).

(** At most one thread is not outside a lock, and then the semaphore is down. *)
Record lock_ok k (φ : lock_id -> Z -> phase) : Prop := {
  lo_typed l t : typed l (φ l t) (frames k t);
  lo_held l t : φ l t = Held <-> holder k l = Some t;
  lo_value l : (lval k l = 1 /\ forall t, φ l t = Out) \/
    (lval k l = 0 /\ exists t, φ l t <> Out /\ forall t', φ l t' <> Out -> t' = t)
}.

(** The frames after the running thread has replaced [f] by [fs]. *)
Definition replaced k k' (f : frame) (fs rest : list frame) : Prop :=
  frames k (cur k) = f :: rest /\ forall t, t <> cur k ->
    frames k' t = frames k t \/ (frames k t = [] /\ Forall (fun g => forall l ph, fphase l g ph = Some ph) (frames k' t)).

Lemma typed_neutral l ph fs : typed l ph [] ->
  Forall (fun g => forall l ph, fphase l g ph = Some ph) fs -> typed l ph fs.
Proof.
  intros (p & E & B) HF. injection E as <-. exists ph. split; [|done]. clear B.
  induction HF as [|g fs Hg Hfs IH]; [done|]. simpl. by rewrite Hg.
Qed.

Lemma lock_quiet k k' φ f fs rest : lock_ok k φ -> replaced k k' f fs rest ->
  frames k' (cur k) = fs ++ rest ->
  holder k' = holder k -> (forall l, lval k' l = lval k l) ->
  (forall l ph, ph = φ l (cur k) -> fphase l f ph <> None -> fphases l fs ph = fphase l f ph) ->
  lock_ok k' φ.
Proof.
  intros [T H V] [Hf Ho] Hc Hh Hv Hp. split.
  - intros l t. destruct (decide (t = cur k)) as [->|Hne].
    + rewrite Hc. specialize (T l (cur k)). rewrite Hf in T.
      apply (typed_step l _ f fs rest); [|done]. intros ph' E.
      rewrite (Hp l _ eq_refl); congruence.
    + destruct (Ho t Hne) as [->|[E Hn]]; [done|]. specialize (T l t). rewrite E in T.
      by apply typed_neutral.
  - intros l t. by rewrite Hh.
  - intros l. rewrite Hv. apply V.
Qed.

(** One lock's phase moves for the running thread. *)
Definition phi_set (φ : lock_id -> Z -> phase) l0 t0 ph : lock_id -> Z -> phase :=
  fun l t => if decide (l = l0 /\ t = t0) then ph else φ l t.

Lemma phi_set_eq φ l t ph : phi_set φ l t ph l t = ph.
Proof. unfold phi_set. by rewrite decide_True. Qed.
Lemma phi_set_ne φ l t ph l' t' : ~ (l' = l /\ t' = t) -> phi_set φ l t ph l' t' = φ l' t'.
Proof. intros. unfold phi_set. by rewrite decide_False. Qed.

Lemma lock_move k k' φ f fs rest l0 ph1 : lock_ok k φ -> replaced k k' f fs rest ->
  frames k' (cur k) = fs ++ rest ->
  (forall l, l <> l0 -> fphase l f (φ l (cur k)) <> None ->
     fphases l fs (φ l (cur k)) = fphase l f (φ l (cur k))) ->
  (fphase l0 f (φ l0 (cur k)) <> None -> fphases l0 fs ph1 = fphase l0 f (φ l0 (cur k))) ->
  (forall l t, ~ (l = l0 /\ t = cur k) -> holder k' l = Some t <-> holder k l = Some t) ->
  (ph1 = Held <-> holder k' l0 = Some (cur k)) ->
  (forall l, l <> l0 -> lval k' l = lval k l) ->
  (lval k' l0 = 1 /\ ph1 = Out /\ (forall t, t <> cur k -> φ l0 t = Out) \/
   lval k' l0 = 0 /\ ph1 <> Out /\ (forall t, t <> cur k -> φ l0 t = Out)) ->
  lock_ok k' (phi_set φ l0 (cur k) ph1).
Proof.
  intros [T H V] [Hf Ho] Hc Hp1 Hp0 Hh Hh0 Hv Hv0. split.
  - intros l t. destruct (decide (t = cur k)) as [->|Hne].
    + rewrite Hc. specialize (T l (cur k)). rewrite Hf in T.
      destruct (decide (l = l0)) as [->|Hl].
      * rewrite phi_set_eq. destruct T as (p & E & B). simpl in E.
        destruct (fphase l0 f _) as [q|] eqn:Ef; [|done].
        exists p. split; [|done]. rewrite fphases_app, Hp0 by congruence. done.
      * rewrite phi_set_ne by naive_solver. apply (typed_step l _ f fs rest); [|done].
        intros ph' E. rewrite Hp1; congruence.
    + rewrite phi_set_ne by naive_solver.
      destruct (Ho t Hne) as [->|[E Hn]]; [done|]. specialize (T l t). rewrite E in T.
      by apply typed_neutral.
  - intros l t. destruct (decide (l = l0 /\ t = cur k)) as [[-> ->]|Hn].
    + by rewrite phi_set_eq.
    + rewrite phi_set_ne by done. rewrite H. symmetry. by apply Hh.
  - intros l. destruct (decide (l = l0)) as [->|Hl].
    + destruct Hv0 as [(E & -> & Ht)|(E & Hph & Ht)]; [left|right]; (split; [done|]).
      * intros t. destruct (decide (t = cur k)) as [->|]; [by rewrite phi_set_eq|].
        rewrite phi_set_ne by naive_solver. auto.
      * exists (cur k). rewrite phi_set_eq. split; [done|]. intros t Hx.
        destruct (decide (t = cur k)); [done|]. rewrite phi_set_ne in Hx by naive_solver.
        exfalso. auto.
    + rewrite Hv by done. destruct (V l) as [[E Ht]|[E (t & Ht & Hu)]]; [left|right]; (split; [done|]).
      * intros t. rewrite phi_set_ne by naive_solver. auto.
      * exists t. rewrite phi_set_ne by naive_solver. split; [done|].
        intros t'. rewrite phi_set_ne by naive_solver. apply Hu.
Qed.

(** ** What one frame does *)

(** The executed frame has been popped: [run1] starts from [popped k rest]. *)
Definition popped k rest : kernel P := with_frames k (cur k) rest.

Lemma fset_eq {K V} `{EqDecision K} (f : K -> V) x v : fset f x v x = v.
Proof. unfold fset. by rewrite decide_True. Qed.
Lemma fset_ne {K V} `{EqDecision K} (f : K -> V) x y v : y <> x -> fset f x v y = f y.
Proof. intros. unfold fset. by rewrite decide_False. Qed.

Lemma frames_replaced k k' f fs rest : frames k (cur k) = f :: rest ->
  frames k' = fset (fset (frames k) (cur k) rest) (cur k) (fs ++ rest) ->
  replaced k k' f fs rest /\ frames k' (cur k) = fs ++ rest.
Proof.
  intros Hf E. split; [split; [done|]|by rewrite E, fset_eq].
  intros t Ht. left. by rewrite E, !fset_ne by done.
Qed.

Lemma frames_popped k k' f rest : frames k (cur k) = f :: rest ->
  frames k' = fset (frames k) (cur k) rest ->
  replaced k k' f [] rest /\ frames k' (cur k) = [] ++ rest.
Proof.
  intros Hf E. split; [split; [done|]|by rewrite E, fset_eq].
  intros t Ht. left. by rewrite E, !fset_ne by done.
Qed.

(** The frames that leave holders and lock semaphores alone: what they push. *)
Definition quiet k k' f rest fs : Prop :=
  replaced k k' f fs rest /\ frames k' (cur k) = fs ++ rest /\
  holder k' = holder k /\ forall l, lval k' l = lval k l.

Lemma quiet_push k k' f rest fs : frames k (cur k) = f :: rest ->
  frames k' = fset (fset (frames k) (cur k) rest) (cur k) (fs ++ rest) ->
  holder k' = holder k -> (forall l, lval k' l = lval k l) -> quiet k k' f rest fs.
Proof. intros Hf E Hh Hv. destruct (frames_replaced k k' f fs rest Hf E). by split_and!. Qed.

Lemma quiet_pop k k' f rest : frames k (cur k) = f :: rest ->
  frames k' = fset (frames k) (cur k) rest ->
  holder k' = holder k -> (forall l, lval k' l = lval k l) -> quiet k k' f rest [].
Proof. intros Hf E Hh Hv. destruct (frames_popped k k' f rest Hf E). by split_and!. Qed.

Lemma quiet_ok k k' φ f rest fs : lock_ok k φ -> quiet k k' f rest fs ->
  (forall l ph, fphase l f ph <> None -> fphases l fs ph = fphase l f ph) -> lock_ok k' φ.
Proof.
  intros L (R & C & Hh & Hv) Hp. eapply lock_quiet; eauto.
Qed.

Lemma lval_fset_other k s v l : s <> LockSema l -> lval (with_sema k s v) l = lval k l.
Proof. intros. unfold lval. simpl. by rewrite fset_ne. Qed.

Lemma lval_fset k l v l' :
  lval (with_sema k (LockSema l) v) l' = if decide (l' = l) then value v else lval k l'.
Proof.
  unfold lval. simpl. destruct (decide (l' = l)) as [->|Hn]; [by rewrite fset_eq|].
  rewrite fset_ne by congruence. done.
Qed.

(** Taking the unit of a lock's semaphore. *)
Lemma take_unit k k' φ f l rest : lock_ok k φ -> frames k (cur k) = f :: rest ->
  (forall l' ph, fphase l' f ph = if decide (l = l') then phase_step Out Got ph else Some ph) ->
  frames k' = fset (frames k) (cur k) rest -> holder k' = holder k ->
  lval k l <> 0 -> (forall l', lval k' l' = if decide (l' = l) then u32 (lval k l - 1) else lval k l') ->
  lock_ok k' (phi_set φ l (cur k) Got).
Proof.
  intros L Hf Hp Hfr Hh Hnz Hv. destruct (frames_popped k k' f rest Hf Hfr) as [R C].
  destruct (lo_value k φ L l) as [[E Ho]|[E _]]; [|done].
  apply (lock_move k k' φ f [] rest); try done.
  - intros l' Hl _. rewrite Hp. rewrite decide_False by done. done.
  - intros _. rewrite Hp, decide_True, Ho by done. done.
  - intros l' t _. by rewrite Hh.
  - rewrite Hh, <- (lo_held k φ L), Ho. done.
  - intros l' Hl. by rewrite Hv, decide_False.
  - right. rewrite Hv, decide_True, E by done. split_and!; [done|done|]. intros t _. apply Ho.
Qed.

Lemma sema_down_loop_lock k k' φ f s old rest : lock_ok k φ -> frames k (cur k) = f :: rest ->
  (forall l' ph, fphase l' f ph = fphase l' (FSemaRetry s old) ph) ->
  sema_down_loop (popped k rest) s old = Ret k' -> exists φ', lock_ok k' φ'.
Proof.
  intros L Hf Hp H. unfold sema_down_loop in H. cbv zeta in H.
  destruct (value (semas (popped k rest) s) =? 0) eqn:E.
  - apply obind_Ret in H as (t & _ & H). apply obind_Ret in H as (s' & _ & H). injection H as <-.
    exists φ. apply (quiet_ok k _ φ f rest [FSemaRetry s old]); [done| |].
    + apply quiet_push; [done|by simpl; rewrite fset_eq|done|]. intros l. unfold lval. simpl.
      destruct (decide (LockSema l = s)) as [<-|]; [by rewrite fset_eq|by rewrite fset_ne].
    + intros l ph Hn. cbn [fphases]. rewrite Hp in *. by destruct (fphase _ _ _).
  - apply obind_Ret in H as (s' & _ & H). injection H as <-.
    destruct s as [a|l|t].
    2:{ exists (phi_set φ l (cur k) Got).
        apply (take_unit k _ φ f l rest); try done; [unfold lval; simpl in E; lia|].
        intros l'. unfold with_sc, lval. cbn [semas with_sema popped with_frames].
        destruct (decide (l' = l)) as [->|Hn]; [by rewrite fset_eq|].
        rewrite fset_ne by congruence. done. }
    all: exists φ; apply (quiet_ok k _ φ f rest []); [done| |intros l ph _; by rewrite Hp];
      apply quiet_pop; try done; intros l; unfold lval; simpl; by rewrite fset_ne.
Qed.

Lemma sema_up_lock k k' φ s rest : lock_ok k φ -> frames k (cur k) = FSemaUp s :: rest ->
  sema_up (popped k rest) s = Ret k' -> exists φ', lock_ok k' φ'.
Proof.
  intros L Hf H. unfold sema_up in H. cbn [intr_disable] in H.
  apply obind_Ret in H as (k1 & H1 & H). apply obind_Ret in H as (s' & _ & H). injection H as <-.
  assert (frames k1 = fset (frames k) (cur k) rest /\ holder k1 = holder k /\
    forall x, value (semas k1 x) = value (semas k x)) as (E1 & E2 & E3).
  { destruct (waiters _) in H1.
    - injection H1 as <-. by split_and!.
    - apply obind_Ret in H1 as (s1 & _ & H1). injection H1 as <-. split_and!; [done|done|].
      intros x. simpl. destruct (decide (x = s)) as [->|]; [by rewrite fset_eq|by rewrite fset_ne]. }
  set (k2 := with_sc _ s').
  assert (frames k2 = fset (frames k) (cur k) rest) as F2 by done.
  assert (holder k2 = holder k) as F3 by done.
  assert (forall x, x <> s -> value (semas k2 x) = value (semas k x)) as F4.
  { intros x Hx. simpl. by rewrite fset_ne. }
  assert (value (semas k2 s) = u32 (value (semas k s) + 1)) as F5.
  { simpl. rewrite fset_eq. simpl. by rewrite E3. }
  clearbody k2. destruct s as [a|l|t].
  2:{ exists (phi_set φ l (cur k) Out). destruct (frames_popped k k2 _ rest Hf F2) as [R C].
      pose proof (lo_typed k φ L l (cur k)) as T. rewrite Hf in T.
      assert (φ l (cur k) = Rel) as Hrel.
      { destruct T as (p & E & _). simpl in E. rewrite decide_True in E by done.
        by destruct (φ l (cur k)). }
      destruct (lo_value k φ L l) as [[_ Ho]|[E (t & Ht & Hu)]]; [by rewrite Ho in Hrel|].
      assert (t = cur k) as ->.
      { symmetry. apply Hu. by rewrite Hrel. }
      apply (lock_move k k2 φ (FSemaUp (LockSema l)) [] rest); try done.
      - intros l' Hl _. simpl. by rewrite decide_False.
      - intros _. simpl. by rewrite decide_True, Hrel.
      - intros l' t _. by rewrite F3.
      - rewrite F3, <- (lo_held k φ L), Hrel. done.
      - intros l' Hl. apply F4. congruence.
      - left. unfold lval in *. rewrite F5, E. split_and!; [done|done|].
        intros t Hne. destruct (decide (φ l t = Out)); [done|]. by rewrite (Hu t) in Hne. }
  all: exists φ; eapply (quiet_ok k k2 φ);
    [done|eapply quiet_pop; [exact Hf|done|done|intros l; by apply F4]|done].
Qed.

Lemma sema_try_down_quiet k k' b φ s rest : lock_ok k φ ->
  frames k (cur k) = FSemaTryDown s :: rest ->
  sema_try_down (popped k rest) s = Ret (k', b) -> lock_ok k' φ.
Proof.
  intros L Hf H. pose proof (lo_typed k φ L) as T.
  assert (exists a, s = Sema a) as [a ->].
  { destruct s as [a|l|t]; [by exists a| |];
      [destruct (T l (cur k)) as (p & E & _)|destruct (T TidLock (cur k)) as (p & E & _)];
      rewrite Hf in E; done. }
  unfold sema_try_down in H. cbn [intr_disable] in H.
  destruct (0 <? _); apply obind_Ret in H as (s' & _ & H); injection H as <- <-;
    (eapply (quiet_ok k _ φ); [done|eapply quiet_pop; [exact Hf|done|done|]|done]);
    intros l; unfold lval; simpl; by rewrite ?fset_ne.
Qed.

Lemma held_spec k l b : lock_held_by_current_thread k l = Ret b ->
  b = bool_decide (holder k l = Some (cur k)).
Proof.
  unfold lock_held_by_current_thread. intros H. apply obind_Ret in H as (t & Ht & H).
  apply thread_current_Ret in Ht as [-> _]. by injection H as <-.
Qed.

Lemma set_holder_lock k k' φ l rest : lock_ok k φ -> frames k (cur k) = FSetHolder l :: rest ->
  set_holder (popped k rest) l = Ret k' -> exists φ', lock_ok k' φ'.
Proof.
  intros L Hf H. unfold set_holder in H. apply obind_Ret in H as (t & Ht & H).
  apply thread_current_Ret in Ht as [-> _]. injection H as <-.
  exists (phi_set φ l (cur k) Held).
  pose proof (lo_typed k φ L l (cur k)) as T. rewrite Hf in T.
  assert (φ l (cur k) = Got) as Hg.
  { destruct T as (p & E & _). simpl in E. rewrite decide_True in E by done.
    by destruct (φ l (cur k)). }
  destruct (lo_value k φ L l) as [[_ Ho]|[E (t & Ht & Hu)]]; [by rewrite Ho in Hg|].
  assert (t = cur k) as -> by (symmetry; apply Hu; by rewrite Hg).
  destruct (frames_popped k (with_holder (popped k rest) l (Some (running (sc (popped k rest)))))
    _ rest Hf eq_refl) as [R C].
  apply (lock_move k _ φ (FSetHolder l) [] rest); try done.
  - intros l' Hl _. simpl. by rewrite decide_False.
  - intros _. simpl. by rewrite decide_True, Hg.
  - intros l' t Hn. simpl. destruct (decide (l' = l)) as [->|]; [|by rewrite fset_ne].
    rewrite fset_eq. split; [intros [= <-]; naive_solver|].
    intros Hh. apply (lo_held k φ L) in Hh. rewrite (Hu t) by congruence. naive_solver.
  - simpl. by rewrite fset_eq.
  - right. split_and!; [done|done|]. intros t Hne.
    destruct (decide (φ l t = Out)); [done|]. by rewrite (Hu t) in Hne.
Qed.

Lemma lock_release_lock k k' φ l rest : lock_ok k φ -> frames k (cur k) = FLockRelease l :: rest ->
  lock_release (popped k rest) l = Ret k' -> exists φ', lock_ok k' φ'.
Proof.
  intros L Hf H. unfold lock_release in H. apply obind_Ret in H as (b & Hb & H).
  apply held_spec in Hb. apply assert_Ret in H as [-> H]. injection H as <-.
  symmetry in Hb. apply bool_decide_eq_true in Hb. simpl in Hb.
  change (cur (popped k rest)) with (cur k) in Hb.
  pose proof Hb as Hh. apply (lo_held k φ L) in Hh.
  exists (phi_set φ l (cur k) Rel).
  destruct (lo_value k φ L l) as [[_ Ho]|[E (t & Ht & Hu)]]; [by rewrite Ho in Hh|].
  assert (t = cur k) as -> by (symmetry; apply Hu; by rewrite Hh).
  destruct (frames_replaced k (push (with_holder (popped k rest) l None) [FSemaUp (LockSema l)])
    _ [FSemaUp (LockSema l)] rest Hf) as [R C].
  { simpl. by rewrite fset_eq. }
  apply (lock_move k _ φ (FLockRelease l) [FSemaUp (LockSema l)] rest); try done.
  - intros l' Hl _. simpl. by rewrite !decide_False.
  - intros _. simpl. by rewrite !decide_True, Hh.
  - intros l' t Hn. simpl. destruct (decide (l' = l)) as [->|]; [|by rewrite fset_ne].
    rewrite fset_eq. split; [done|].
    intros Hh'. apply (lo_held k φ L) in Hh'. rewrite (Hu t) in Hn by congruence. naive_solver.
  - simpl. by rewrite fset_eq.
  - right. split_and!; [done|done|]. intros t Hne.
    destruct (decide (φ l t = Out)); [done|]. by rewrite (Hu t) in Hne.
Qed.

(** The effect of [exec] on frames, holders and lock semaphores for the remaining frames. *)
Ltac quiet_frame k φ f rest fs :=
  exists φ; apply (quiet_ok k _ φ f rest fs);
  [done
  | first [ apply quiet_push; [done|by simpl; rewrite ?fset_eq|done|try done]
          | apply quiet_pop; [done|done|done|try done] ]
  | intros ? [] Hn; cbn in *; repeat (case_decide; try done); try done ].

(** Condition variables only list the semaphores of waiting threads. *)
Definition conds_ok k : Prop := forall c w, w ∈ conds k c -> exists t, w = WaiterSema t.

(** Only threads have pending frames. *)
Definition dead_ok k : Prop := forall t, threads (sc k) !! t = None -> frames k t = [].

Lemma run1_lock k k' φ : sched_inv (sc k) -> dead_ok k -> lock_ok k φ -> conds_ok k -> run1 k = Ret k' -> exists φ', lock_ok k' φ'.
Proof.
  intros SI HD L HC H. unfold run1 in H. destruct (frames k (cur k)) as [|f rest] eqn:Hf; [done|].
  fold (popped k rest) in H.
  destruct f; cbn [exec] in H.
  - unfold sema_down in H. apply assert_Ret in H as [_ H]. cbn [intr_disable] in H.
    assert (L' : lock_ok (with_sc k (set_intr (sc k) false)) φ) by (destruct L; by split).
    by eapply (sema_down_loop_lock (with_sc k (set_intr (sc k) false)) _ φ (FSemaDown s)).
  - by eapply (sema_down_loop_lock k _ φ (FSemaRetry s old_level)).
  - by eapply sema_up_lock.
  - apply obind_Ret in H as ([k1 b] & H1 & H). injection H as <-.
    exists φ. by eapply sema_try_down_quiet.
  - unfold lock_acquire in H. apply assert_Ret in H as [_ H]. apply obind_Ret in H as (b & _ & H).
    apply assert_Ret in H as [_ H]. injection H as <-.
    quiet_frame k φ (FLockAcquire l) rest [FSemaDown (LockSema l); FSetHolder l].
  - destruct (lo_typed k φ L l (cur k)) as (p & E & _). rewrite Hf in E. simpl in E.
    by rewrite decide_True in E by done.
  - by eapply set_holder_lock.
  - by eapply lock_release_lock.
  - unfold cond_wait in H. apply assert_Ret in H as [_ H]. apply obind_Ret in H as (b & _ & H).
    apply assert_Ret in H as [_ H]. injection H as <-.
    quiet_frame k φ (FCondWait c l) rest [FLockRelease l; FSemaDown (WaiterSema (cur k)); FLockAcquire l].
  - unfold cond_signal in H. apply assert_Ret in H as [_ H]. apply obind_Ret in H as (b & _ & H).
    apply assert_Ret in H as [_ H]. simpl in H.
    destruct (conds k c) as [|w ws] eqn:Ec; injection H as <-.
    + quiet_frame k φ (FCondSignal c l) rest (@nil frame).
    + destruct (HC c w) as [t ->]; [rewrite Ec; by left|].
      quiet_frame k φ (FCondSignal c l) rest [FSemaUp (WaiterSema t)].
  - unfold cond_broadcast in H. simpl in H. destruct (conds k c) as [|w ws]; injection H as <-.
    + quiet_frame k φ (FCondBroadcast c l) rest (@nil frame).
    + quiet_frame k φ (FCondBroadcast c l) rest [FCondSignal c l; FCondBroadcast c l].
  - injection H as <-. destruct reader.
    + quiet_frame k φ (FRwAcquire a true) rest [FLockAcquire (RwGuard a); FRwReadTest a].
    + quiet_frame k φ (FRwAcquire a false) rest [FLockAcquire (RwGuard a); FRwWriteTest a].
  - unfold rw_read_test in H. simpl in H. destruct (0 <? _); injection H as <-.
    + quiet_frame k φ (FRwReadTest a) rest
        [FCondWait (RwRead a) (RwGuard a); FRwReadWoken a; FRwReadTest a].
    + quiet_frame k φ (FRwReadTest a) rest [FRwReadEnter a; FLockRelease (RwGuard a)].
  - injection H as <-. quiet_frame k φ (FRwReadWoken a) rest (@nil frame).
  - injection H as <-. quiet_frame k φ (FRwReadEnter a) rest (@nil frame).
  - unfold rw_write_test in H. simpl in H. destruct (0 <? _); injection H as <-.
    + quiet_frame k φ (FRwWriteTest a) rest
        [FCondWait (RwWrite a) (RwGuard a); FRwWriteWoken a; FRwWriteTest a].
    + quiet_frame k φ (FRwWriteTest a) rest [FRwWriteEnter a; FLockRelease (RwGuard a)].
  - injection H as <-. quiet_frame k φ (FRwWriteWoken a) rest (@nil frame).
  - injection H as <-. quiet_frame k φ (FRwWriteEnter a) rest (@nil frame).
  - injection H as <-. destruct reader.
    + quiet_frame k φ (FRwRelease a true) rest
        [FLockAcquire (RwGuard a); FRwReadLeave a; FRwReadWake a; FLockRelease (RwGuard a)].
    + quiet_frame k φ (FRwRelease a false) rest
        [FLockAcquire (RwGuard a); FRwWriteLeave a; FRwWriteWake a; FLockRelease (RwGuard a)].
  - injection H as <-. quiet_frame k φ (FRwReadLeave a) rest (@nil frame).
  - unfold rw_read_wake in H. simpl in H. destruct ((_ =? 0) && _); injection H as <-.
    + quiet_frame k φ (FRwReadWake a) rest [FCondSignal (RwWrite a) (RwGuard a)].
    + quiet_frame k φ (FRwReadWake a) rest (@nil frame).
  - injection H as <-. quiet_frame k φ (FRwWriteLeave a) rest (@nil frame).
  - unfold rw_write_wake in H. simpl in H. destruct (0 <? _); [|destruct (0 <? _)]; injection H as <-.
    + quiet_frame k φ (FRwWriteWake a) rest [FCondSignal (RwWrite a) (RwGuard a)].
    + quiet_frame k φ (FRwWriteWake a) rest [FCondBroadcast (RwRead a) (RwGuard a)].
    + quiet_frame k φ (FRwWriteWake a) rest (@nil frame).
  - apply obind_Ret in H as (s & _ & H). injection H as <-.
    quiet_frame k φ (FSetLevel old_level) rest (@nil frame).
  - injection H as <-. quiet_frame k φ FIret rest (@nil frame).
  - destruct started as [s|].
    { destruct (lo_typed k φ L TidLock (cur k)) as (p & E & _). by rewrite Hf in E. }
    unfold thread_create in H. apply obind_Ret in H as ([s t] & Hs & H). simpl in Hs.
    destruct (thread_create_alloc_spec _ _ _ _ _ SI Hs)
      as [(-> & _)|(Ht & I' & Hn & Hrun & _)].
    + injection H as <-. quiet_frame k φ (FThreadCreate name priority None) rest (@nil frame).
    + rewrite (proj2 (Z.eqb_neq t NULL)) in H by done. injection H as <-. exists φ.
      assert (t <> cur k) as Hne.
      { intros ->. destruct (si_running _ SI) as (x & Hx & _). unfold cur in Hn. congruence. }
      set (k1 := push _ _).
      assert (cur (with_frames (with_sc (popped k rest) s) t [FIntrEnable]) = cur k) as Ec by done.
      apply (quiet_ok k k1 φ (FThreadCreate name priority None) rest [FLockAcquire TidLock; FTakeTid t]);
        [done| |intros ? [] ?; cbn in *; repeat (case_decide; try done); done].
      split_and!; try done.
      * split; [done|]. intros u Hu. unfold k1, push. rewrite Ec. cbn [frames with_frames].
        rewrite (fset_ne _ (cur k)) by done. destruct (decide (u = t)) as [->|Hut].
        -- right. split; [by apply HD|]. rewrite fset_eq. by apply Forall_singleton.
        -- left. rewrite fset_ne by done. simpl. by rewrite fset_ne by done.
      * unfold k1, push. rewrite Ec. cbn [frames with_frames]. rewrite fset_eq. f_equal.
        rewrite fset_ne by done. simpl. by rewrite fset_eq.
  - unfold allocate_tid in H. cbn [take_tid] in H. injection H as <-.
    quiet_frame k φ (FTakeTid t) rest [FLockRelease TidLock; FCreateFinish t (next_tid (sc k))].
  - apply obind_Ret in H as (s & _ & H). injection H as <-.
    quiet_frame k φ (FCreateFinish t tid) rest (@nil frame).
  - unfold yield in H. apply obind_Ret in H as ([s old] & _ & H). injection H as <-.
    quiet_frame k φ FYield rest [FSetLevel old].
  - apply obind_Ret in H as (s & _ & H). injection H as <-.
    quiet_frame k φ FExit rest (@nil frame).
  - apply obind_Ret in H as (s & _ & H). injection H as <-.
    quiet_frame k φ FIntrEnable rest (@nil frame).
  - destruct (lo_typed k φ L TidLock (cur k)) as (p & E & _). by rewrite Hf in E.
  - unfold idle_block in H. cbn [intr_disable] in H. apply obind_Ret in H as (s & _ & H).
    injection H as <-. quiet_frame k φ FIdleBlock rest [FIdleHalt].
  - injection H as <-. quiet_frame k φ FIdleHalt rest [FIdleBlock].
Qed.

Lemma tick_lock k k' φ : lock_ok k φ -> timer_tick k = Ret k' -> lock_ok k' φ.
Proof.
  intros L H. unfold timer_tick in H. apply obind_Ret in H as ([s y] & _ & H). injection H as <-.
  destruct L as [T Hh V]. split; [|done|done]. intros l t. simpl.
  destruct (decide (t = cur k)) as [->|Hne]; [|by rewrite fset_ne].
  rewrite fset_eq. destruct (T l (cur k)) as (p & E & B). exists p. split; [|done].
  by destruct y.
Qed.

(** A call from the thread's own code, unless it fails its own assertions. *)
Lemma call_lock k k' φ f : lock_ok k φ -> frames k (cur k) = [] -> client_ok k f ->
  (forall l, f <> FLockTryAcquire l) -> run1 (push k [f]) = Ret k' -> lock_ok (push k [f]) φ.
Proof.
  intros L Hf C Htry H. pose proof L as [T Hh V]. split; [|done|done].
  intros l t. simpl. destruct (decide (t = cur k)) as [->|Hne]; [|by rewrite fset_ne].
  rewrite fset_eq, Hf. simpl.
  pose proof (T l (cur k)) as (p & E & B). rewrite Hf in E. injection E as <-.
  assert (Hex : exec (popped (push k [f]) []) f = Ret k').
  { unfold run1 in H. cbn [push frames with_frames cur sc] in H.
    change (cur (push k [f])) with (cur k) in H. rewrite fset_eq, Hf in H. exact H. }
  assert (Hlk : forall l' b, lock_held_by_current_thread (popped (push k [f]) []) l' = Ret b ->
    b = bool_decide (φ l' (cur k) = Held)).
  { intros l' b Hb. apply held_spec in Hb. rewrite Hb. apply bool_decide_ext.
    symmetry. apply (Hh l' (cur k)). }
  assert (Hgoal : forall q, fphase l f (φ l (cur k)) = Some q -> bottom_ok l q ->
    typed l (φ l (cur k)) [f]) by (intros q E1 E2; exists q; simpl; by rewrite E1).
  assert (Hheld : forall a c, φ (Lock a) (cur k) = Held ->
    typed l (φ l (cur k)) [FCondWait c (Lock a)] /\ typed l (φ l (cur k)) [FCondSignal c (Lock a)] /\
    typed l (φ l (cur k)) [FCondBroadcast c (Lock a)]).
  { intros a c E. destruct (decide (Lock a = l)) as [<-|Hn]; [rewrite E|].
    - split_and!; exists Held; simpl; by rewrite decide_True.
    - split_and!; exists (φ l (cur k)); simpl; by rewrite decide_False. }
  destruct f; try done; cbn [client_ok exec] in C, Hex.
  all: try (destruct s; try done; eapply Hgoal; [done|done]).
  all: try (destruct l0; try done).
  all: try (destruct c; try done).
  - (* acquire *)
    unfold lock_acquire in Hex. apply assert_Ret in Hex as [_ Hex].
    apply obind_Ret in Hex as (b & Hb & Hex). apply Hlk in Hb. apply assert_Ret in Hex as [Hnb _].
    destruct (decide (Lock a = l)) as [<-|Hn].
    + apply (Hgoal Held); [|done]. simpl. rewrite decide_True by done.
      destruct (φ (Lock a) (cur k)) eqn:Ep; try done. rewrite bool_decide_true in Hb by done.
      by rewrite Hb in Hnb.
    + apply (Hgoal (φ l (cur k))); [|done]. simpl. by rewrite decide_False.
  - (* try *) by destruct (Htry (Lock a)).
  - (* release *)
    unfold lock_release in Hex. apply obind_Ret in Hex as (b & Hb & Hex). apply Hlk in Hb.
    apply assert_Ret in Hex as [-> _]. symmetry in Hb. apply bool_decide_eq_true in Hb.
    destruct (decide (Lock a = l)) as [<-|Hn].
    + apply (Hgoal Out); [|done]. simpl. rewrite decide_True by done. by rewrite Hb.
    + apply (Hgoal (φ l (cur k))); [|done]. simpl. by rewrite decide_False.
  - unfold cond_wait in Hex. apply assert_Ret in Hex as [_ Hex].
    apply obind_Ret in Hex as (b & Hb & Hex). apply Hlk in Hb.
    apply assert_Ret in Hex as [-> _]. symmetry in Hb. apply bool_decide_eq_true in Hb. by apply Hheld.
  - unfold cond_signal in Hex. apply assert_Ret in Hex as [_ Hex].
    apply obind_Ret in Hex as (b & Hb & Hex). apply Hlk in Hb.
    apply assert_Ret in Hex as [-> _]. symmetry in Hb. apply bool_decide_eq_true in Hb. by apply Hheld.
  - apply Hh in C. by apply Hheld.
  - apply (Hgoal (φ l (cur k))); [|done]. simpl. case_decide; [subst|done].
    by destruct (φ (RwGuard a) (cur k)).
  - apply (Hgoal (φ l (cur k))); [|done]. simpl. case_decide; [subst|done].
    by destruct (φ (RwGuard a) (cur k)).
  - destruct started; [done|]. apply (Hgoal (φ l (cur k))); [|done]. simpl. case_decide; [subst|done].
    by destruct (φ TidLock (cur k)).
  - by apply (Hgoal (φ l (cur k))).
  - by apply (Hgoal (φ l (cur k))).
Qed.

Lemma intr_set_level_eq (s s' : sched P) b : intr_set_level s b = Ret s' -> s' = set_intr s b.
Proof.
  unfold intr_set_level, intr_enable. destruct b; [|by intros [= <-]].
  intros H. apply assert_Ret in H as [_ H]. by injection H as <-.
Qed.

Lemma try_acquire_lock k k' φ a : lock_ok k φ -> frames k (cur k) = [] ->
  run1 (push k [FLockTryAcquire (Lock a)]) = Ret k' -> exists φ', lock_ok k' φ'.
Proof.
  intros L Hf H. pose proof L as [T Hh V].
  unfold run1 in H. change (cur (push k _)) with (cur k) in H.
  cbn [push frames with_frames] in H. rewrite fset_eq, Hf in H. cbn [app exec] in H.
  apply obind_Ret in H as ([k1 b] & H1 & H). injection H as <-. unfold lock_try_acquire in H1.
  apply obind_Ret in H1 as (held & _ & H1). apply assert_Ret in H1 as [_ H1].
  apply obind_Ret in H1 as ([k2 ok] & H2 & H1). injection H1 as <- <-.
  unfold sema_try_down in H2. cbn [intr_disable] in H2. simpl in H2.
  destruct (0 <? value (semas k (LockSema (Lock a)))) eqn:Ev;
    apply obind_Ret in H2 as (s' & Hs & H2); injection H2 as <- <-;
    apply intr_set_level_eq in Hs as ->.
  - destruct (V (Lock a)) as [[E Ho]|[E _]]; unfold lval in E; [|lia].
    set (k1 := push k [FSemaDown (LockSema (Lock a)); FSetHolder (Lock a)]).
    assert (L1 : lock_ok k1 φ).
    { split; [|done|done]. intros l t. simpl. destruct (decide (t = cur k)) as [->|Hne].
      - rewrite fset_eq, Hf. destruct (T l (cur k)) as (p & Ep & B). rewrite Hf in Ep.
        injection Ep as <-. destruct (decide (Lock a = l)) as [<-|Hl].
        + exists Held. simpl. by rewrite !decide_True, Ho, decide_True by done.
        + exists (φ l (cur k)). simpl. by rewrite !decide_False by done.
      - by rewrite fset_ne. }
    exists (phi_set φ (Lock a) (cur k) Got).
    apply (lock_move k1 _ φ (FSemaDown (LockSema (Lock a))) [] [FSetHolder (Lock a)]); try done.
    + split; [simpl; by rewrite fset_eq, Hf|]. intros t Ht. left. simpl.
      rewrite !fset_ne; [done|exact Ht..].
    + simpl. by rewrite fset_eq, fset_eq.
    + intros l Hl _. simpl. by rewrite decide_False.
    + intros _. simpl. by rewrite decide_True, Ho.
    + change (cur k1) with (cur k). rewrite <- (Hh (Lock a) (cur k)), Ho. done.
    + intros l Hl. unfold lval. simpl. rewrite fset_ne by congruence. done.
    + right. unfold lval. simpl. rewrite fset_eq. simpl. rewrite E. split_and!; [done|done|].
      intros t _. apply Ho.
  - exists φ. split; [|done|done]. intros l t. simpl.
    destruct (decide (t = cur k)) as [->|Hne]; [|by rewrite !fset_ne].
    rewrite fset_eq. specialize (T l (cur k)). by rewrite Hf in T.
Qed.
End Steps.
