(* ===== verification/SynchInv.v ===== *)
(** The invariant of the preemptible kernel and its preservation by every step: scheduler,
    waiting lists, locks and readers-writers locks. *)
From S2P Require Import Prelude Bitmap Vaddr Palloc Threads Synch SynchFacts.

Section Inv.
Context {P : Type} `{PA : page_allocator P}.
Implicit Types k : kernel P.

(** * What a frame pushes *)

Definition pushes (f : frame) (fs : list frame) : Prop :=
  match f with
  | FSemaDown s => fs = [] \/ exists o, fs = [FSemaRetry s o]
  | FSemaRetry s o => fs = [] \/ fs = [FSemaRetry s o]
  | FLockAcquire l => fs = [FSemaDown (LockSema l); FSetHolder l]
  | FLockTryAcquire l => fs = [] \/ fs = [FSetHolder l]
  | FLockRelease l => fs = [FSemaUp (LockSema l)]
  | FCondWait c l => exists w, fs = [FLockRelease l; FSemaDown w; FLockAcquire l]
  | FCondSignal c l => fs = [] \/ exists w, fs = [FSemaUp w]
  | FCondBroadcast c l => fs = [] \/ fs = [FCondSignal c l; FCondBroadcast c l]
  | FRwAcquire a r => fs = [FLockAcquire (RwGuard a); if r then FRwReadTest a else FRwWriteTest a]
  | FRwReadTest a =>
      fs = [FCondWait (RwRead a) (RwGuard a); FRwReadWoken a; FRwReadTest a] \/
      fs = [FRwReadEnter a; FLockRelease (RwGuard a)]
  | FRwWriteTest a =>
      fs = [FCondWait (RwWrite a) (RwGuard a); FRwWriteWoken a; FRwWriteTest a] \/
      fs = [FRwWriteEnter a; FLockRelease (RwGuard a)]
  | FRwRelease a r => fs = FLockAcquire (RwGuard a) ::
      (if r then [FRwReadLeave a; FRwReadWake a] else [FRwWriteLeave a; FRwWriteWake a]) ++
      [FLockRelease (RwGuard a)]
  | FRwReadWake a => fs = [] \/ fs = [FCondSignal (RwWrite a) (RwGuard a)]
  | FRwWriteWake a => fs = [] \/ fs = [FCondSignal (RwWrite a) (RwGuard a)] \/
      fs = [FCondBroadcast (RwRead a) (RwGuard a)]
  | FTakeTid t => exists n, fs = [FLockRelease TidLock; FCreateFinish t n]
  | FThreadCreate _ _ _ => fs = [] \/ exists t, fs = [FLockAcquire TidLock; FTakeTid t]
  | FYield => exists o, fs = [FSetLevel o]
  | FIdle s => fs = [FSemaUp s; FIdleBlock]
  | FIdleBlock => fs = [FIdleHalt]
  | FIdleHalt => fs = [FIdleBlock]
  | _ => fs = []
  end.

(** A new thread starts in [kernel_thread]. *)
Definition created k k' (t : Z) : Prop :=
  threads (sc k) !! t = None /\ t <> cur k /\ frames k' t = [FIntrEnable].

Definition frames_eff k k' (f : frame) (fs rest : list frame) : Prop :=
  pushes f fs /\ frames k' (cur k) = fs ++ rest /\
  ((forall t, t <> cur k -> frames k' t = frames k t) \/
   exists t n p, f = FThreadCreate n p None /\ created k k' t /\
     fs = [FLockAcquire TidLock; FTakeTid t] /\
     forall u, u <> cur k -> u <> t -> frames k' u = frames k u).

Lemma eff_push k k' f fs rest : pushes f fs ->
  frames k' = fset (fset (frames k) (cur k) rest) (cur k) (fs ++ rest) -> frames_eff k k' f fs rest.
Proof.
  intros Hp E. split_and!; [done|by rewrite E, fset_eq|]. left. intros t Ht. by rewrite E, !fset_ne.
Qed.

Lemma eff_pop k k' f rest : pushes f [] ->
  frames k' = fset (frames k) (cur k) rest -> frames_eff k k' f [] rest.
Proof.
  intros Hp E. split_and!; [done|by rewrite E, fset_eq|]. left. intros t Ht. by rewrite E, !fset_ne.
Qed.

(** The scheduler's part of a frame: nobody who waits is disturbed, except the threads that
    [sema_up] and the end of [thread_create] wake. *)
Definition sched_keep (s s' : sched P) (may_exit : bool) : Prop :=
  sched_inv s' /\ idle_thread s' = idle_thread s /\
  (forall t, t <> idle_thread s -> has_status s t THREAD_BLOCKED ->
     has_status s' t THREAD_BLOCKED) /\
  (forall t, is_Some (threads s !! t) -> t <> running s \/ may_exit = false ->
     is_Some (threads s' !! t)).

Lemma sched_keep_refl s b : sched_inv s -> sched_keep s s b.
Proof. intros I. by split_and!. Qed.

Lemma sched_keep_flags s s' b : sched_inv s -> threads s' = threads s ->
  fifo_ready_list s' = fifo_ready_list s -> all_list s' = all_list s ->
  idle_thread s' = idle_thread s -> initial_thread s' = initial_thread s ->
  running s' = running s -> active_sched_policy s' = active_sched_policy s ->
  pages s' = pages s -> sched_keep s s' b.
Proof.
  intros I E1 E2 E3 E4 E5 E6 E7 E8.
  split_and!; [by apply (sched_inv_ext s)|done| |].
  - intros t _. unfold has_status. by rewrite E1.
  - intros t. by rewrite E1.
Qed.

Definition may_exit (f : frame) : bool := match f with FExit => true | _ => false end.

(** Waiting lists never grow except by the running thread on the semaphore it goes down. *)
Definition waits_keep k k' : Prop := forall s, waiters (semas k' s) = waiters (semas k s) \/
  waiters (semas k' s) = [].

(** The effect of one frame. *)
Inductive effect k k' (f : frame) (rest : list frame) : Prop :=
  | eff_plain fs : frames_eff k k' f fs rest -> sched_keep (sc k) (sc k') (may_exit f) ->
      waits_keep k k' -> (forall n p s, f = FThreadCreate n p s -> fs = []) -> effect k k' f rest
  | eff_block s old : frames_eff k k' f [FSemaRetry s old] rest ->
      (f = FSemaDown s \/ f = FSemaRetry s old) ->
      sched_keep (sc k) (sc k') false ->
      (cur k <> idle_thread (sc k) -> has_status (sc k') (cur k) THREAD_BLOCKED) ->
      waiters (semas k' s) = waiters (semas k s) ++ [cur k] ->
      (forall s', s' <> s -> semas k' s' = semas k s') -> effect k k' f rest
  | eff_wake s t ws : f = FSemaUp s -> frames_eff k k' f [] rest ->
      waiters (semas k s) = t :: ws -> waiters (semas k' s) = ws ->
      (forall s', s' <> s -> semas k' s' = semas k s') ->
      sched_inv (sc k') -> idle_thread (sc k') = idle_thread (sc k) ->
      (forall x st, has_status (sc k') x st <->
         (x = t /\ st = THREAD_READY) \/ (x <> t /\ has_status (sc k) x st)) ->
      effect k k' f rest
  | eff_start t n : f = FCreateFinish t n -> frames_eff k k' f [] rest ->
      (forall s, semas k' s = semas k s) ->
      sched_inv (sc k') -> idle_thread (sc k') = idle_thread (sc k) ->
      (forall x st, has_status (sc k') x st <->
         (x = t /\ st = THREAD_READY) \/ (x <> t /\ has_status (sc k) x st)) ->
      effect k k' f rest
  | eff_create t n p : f = FThreadCreate n p None ->
      frames_eff k k' f [FLockAcquire TidLock; FTakeTid t] rest -> created k k' t ->
      (forall s, semas k' s = semas k s) ->
      sched_inv (sc k') -> idle_thread (sc k') = idle_thread (sc k) ->
      (forall x st, has_status (sc k') x st <->
         (x = t /\ st = THREAD_BLOCKED) \/ (x <> t /\ has_status (sc k) x st)) ->
      effect k k' f rest.

Lemma waits_same k k' : semas k' = semas k -> waits_keep k k'.
Proof. intros E s. left. by rewrite E. Qed.

Lemma waits_fset k k' s v : semas k' = fset (semas k) s v ->
  waiters v = waiters (semas k s) \/ waiters v = [] -> waits_keep k k'.
Proof.
  intros E Hv s'. rewrite E. destruct (decide (s' = s)) as [->|Hn].
  - by rewrite fset_eq.
  - rewrite fset_ne by done. by left.
Qed.

Ltac plain fs :=
  apply (eff_plain _ _ _ _ fs);
  [ first [ apply eff_push; [simpl; by eauto|by simpl; rewrite ?fset_eq]
          | apply eff_pop; [simpl; by eauto|done] ]
  | try (by apply sched_keep_flags); try (by apply sched_keep_refl)
  | try (by apply waits_same)
  | by intros ].

Lemma sema_down_loop_effect k k' f s old rest : sched_inv (sc k) ->
  frames k (cur k) = f :: rest -> (f = FSemaDown s \/ f = FSemaRetry s old) ->
  sema_down_loop (popped k rest) s old = Ret k' -> effect k k' f rest.
Proof.
  intros I Hf Hs H. unfold sema_down_loop in H. cbv zeta in H.
  destruct (value (semas (popped k rest) s) =? 0) eqn:E.
  - apply obind_Ret in H as (t & Ht & H). apply thread_current_Ret in Ht as [-> _].
    apply obind_Ret in H as (s' & Hb & H). injection H as <-.
    destruct (thread_block_spec (sc k) s' I Hb) as ((I' & E1 & _ & _ & K & D) & _ & _ & Hbl & Hd).
    apply (eff_block _ _ _ _ s old); try done.
    + apply eff_push; [|by simpl; rewrite fset_eq]. destruct Hs as [->| ->]; simpl; eauto.
    + split_and!; try done. intros t Ht _. destruct (decide (t = running (sc k))) as [->|]; auto.
    + simpl. by rewrite fset_eq.
    + intros s1 Hn. simpl. by rewrite fset_ne.
  - apply obind_Ret in H as (s' & Hl & H). injection H as <-. simpl in Hl.
    destruct (intr_set_level_inv (sc k) s' old I Hl) as [-> I'].
    apply (eff_plain _ _ _ _ []).
    + apply eff_pop; [|done]. destruct Hs as [->| ->]; simpl; eauto.
    + by apply sched_keep_flags.
    + apply (waits_fset _ _ s (mk_sema (u32 (value (semas k s) - 1)) (waiters (semas k s)))); [done|by left].
    + by destruct Hs as [->| ->].
Qed.

Lemma sema_up_effect k k' s rest : sched_inv (sc k) ->
  frames k (cur k) = FSemaUp s :: rest -> sema_up (popped k rest) s = Ret k' ->
  effect k k' (FSemaUp s) rest.
Proof.
  intros I Hf H. unfold sema_up in H. cbn [intr_disable] in H. simpl in H.
  assert (I0 : sched_inv (set_intr (sc k) false)) by (by apply (sched_inv_ext (sc k))).
  destruct (waiters (semas k s)) as [|t ws] eqn:Ew.
  - cbn [obind] in H. apply obind_Ret in H as (s' & Hl & H). injection H as <-. simpl in Hl.
    destruct (intr_set_level_inv _ s' _ I0 Hl) as [-> I'].
    apply (eff_plain _ _ _ _ []); [by apply eff_pop|by apply sched_keep_flags| |by intros].
    apply (waits_fset _ _ s (mk_sema (u32 (value (semas k s) + 1)) (waiters (semas k s)))); [done|by left].
  - apply obind_Ret in H as (k1 & H1 & H). apply obind_Ret in H1 as (s1 & Hu & H1).
    injection H1 as <-. apply obind_Ret in H as (s' & Hl & H). injection H as <-. simpl in Hl.
    destruct (thread_unblock_spec _ s1 t I0 Hu) as (I1 & _ & _ & _ & Hid & _ & _ & _ & _ & HS).
    destruct (intr_set_level_inv s1 s' _ I1 Hl) as [-> I'].
    apply (eff_wake _ _ _ _ s t ws); try done.
    + by apply eff_pop.
    + simpl. rewrite fset_eq. simpl. by rewrite fset_eq.
    + intros s2 Hn. simpl. by rewrite !fset_ne.
Qed.

Lemma create_effect k k' n p rest : sched_inv (sc k) ->
  frames k (cur k) = FThreadCreate n p None :: rest ->
  thread_create (popped k rest) n p None = Ret k' -> effect k k' (FThreadCreate n p None) rest.
Proof.
  intros I Hf H. unfold thread_create in H. apply obind_Ret in H as ([s t] & Hs & H). simpl in Hs.
  destruct (thread_create_alloc_spec _ _ _ _ _ I Hs)
    as [(-> & I' & E1 & E2 & E3)|(Ht & I' & Hn & Hrun & Hid & _ & _ & _ & HS)].
  - injection H as <-. apply (eff_plain _ _ _ _ []); [apply eff_pop; [by left|done]| |by apply waits_same|done].
    simpl in E1. split_and!; try done.
    + intros x _. unfold has_status. simpl. by rewrite E1.
    + intros x Hx _. simpl. by rewrite E1.
  - rewrite (proj2 (Z.eqb_neq t NULL)) in H by done. injection H as <-.
    assert (t <> cur k) as Hne.
    { intros ->. destruct (si_running _ I) as (x & Hx & _). unfold cur in Hn. congruence. }
    set (k1 := push _ _).
    assert (cur (with_frames (with_sc (popped k rest) s) t [FIntrEnable]) = cur k) as Ec by done.
    assert (Hfr : frames k1 = fset (fset (fset (frames k) (cur k) rest) t [FIntrEnable]) (cur k)
      ([FLockAcquire TidLock; FTakeTid t] ++ rest)).
    { unfold k1, push. rewrite Ec. cbn [frames with_frames with_sc popped]. f_equal. f_equal.
      rewrite fset_ne by done. by rewrite fset_eq. }
    assert (created k k1 t) as Hcr.
    { split_and!; [done|done|]. by rewrite Hfr, fset_ne, fset_eq by done. }
    apply (eff_create _ _ _ _ t n p); try done.
    split_and!; [right; by eexists|by rewrite Hfr, fset_eq|]. right. exists t, n, p.
    split_and!; try done. intros u Hu Hu'. by rewrite Hfr, !fset_ne by done.
Qed.

Lemma effect_flags k k' f rest b :
  effect (with_sc k (set_intr (sc k) b)) k' f rest -> effect k k' f rest.
Proof.
  intros [fs E1 E2 E3 E0|s old E1 E2 E3 E4 E5 E6|s t ws E1 E2 E3 E4 E5 E6 E7 E8
         |t n E1 E2 E3 E4 E5 E6|t n p E1 E2 E3 E4 E5 E6 E7].
  - exact (eff_plain k k' f rest fs E1 E2 E3 E0).
  - exact (eff_block k k' f rest s old E1 E2 E3 E4 E5 E6).
  - exact (eff_wake k k' f rest s t ws E1 E2 E3 E4 E5 E6 E7 E8).
  - exact (eff_start k k' f rest t n E1 E2 E3 E4 E5 E6).
  - exact (eff_create k k' f rest t n p E1 E2 E3 E4 E5 E6 E7).
Qed.

Lemma sema_try_down_effect k k' b s rest f : sched_inv (sc k) -> frames k (cur k) = f :: rest ->
  sema_try_down (popped k rest) s = Ret (k', b) ->
  frames k' = fset (frames k) (cur k) rest /\ sched_keep (sc k) (sc k') (may_exit f) /\
  waits_keep k k' /\ running (sc k') = running (sc k).
Proof.
  intros I Hf H. unfold sema_try_down in H. cbn [intr_disable] in H.
  destruct (0 <? _); apply obind_Ret in H as (s' & Hl & H); injection H as <- <-;
    apply intr_set_level_eq in Hl as ->; split_and!; try done;
    try (by apply sched_keep_flags); try (by apply waits_same).
  apply (waits_fset _ _ s (mk_sema (u32 (value (semas k s) - 1)) (waiters (semas k s)))); [done|by left].
Qed.

Lemma run1_effect k k' f rest : sched_inv (sc k) ->
  (f = FExit -> cur k <> idle_thread (sc k)) -> (forall s, f <> FIdle s) ->
  (forall n p s, f <> FThreadCreate n p (Some s)) ->
  frames k (cur k) = f :: rest -> run1 k = Ret k' -> effect k k' f rest.
Proof.
  intros I Hex Hid Hcr Hf H. unfold run1 in H. rewrite Hf in H. fold (popped k rest) in H.
  destruct f; cbn [exec] in H.
  - unfold sema_down in H. apply assert_Ret in H as [_ H]. cbn [intr_disable] in H.
    apply (effect_flags _ _ _ _ false).
    apply (sema_down_loop_effect (with_sc k (set_intr (sc k) false)) k' (FSemaDown s) s (intr_on (sc k)));
      [by apply (sched_inv_ext (sc k))|done|by left|exact H].
  - eapply sema_down_loop_effect; eauto.
  - by apply sema_up_effect.
  - apply obind_Ret in H as ([k1 b] & H1 & H). injection H as <-.
    destruct (sema_try_down_effect _ _ _ _ _ _ I Hf H1) as (E1 & E2 & E3 & _).
    apply (eff_plain _ _ _ _ []); [by apply eff_pop|done|done|done].
  - unfold lock_acquire in H. apply assert_Ret in H as [_ H]. apply obind_Ret in H as (b & _ & H).
    apply assert_Ret in H as [_ H]. injection H as <-.
    plain [FSemaDown (LockSema l); FSetHolder l].
  - apply obind_Ret in H as ([k1 b] & H1 & H). injection H as <-. unfold lock_try_acquire in H1.
    apply obind_Ret in H1 as (held & _ & H1). apply assert_Ret in H1 as [_ H1].
    apply obind_Ret in H1 as ([k2 ok] & H2 & H1). injection H1 as <- <-.
    destruct (sema_try_down_effect _ _ _ _ _ _ I Hf H2) as (E1 & E2 & E3 & E4).
    destruct ok.
    + apply (eff_plain _ _ _ _ [FSetHolder l]); [|done|done|done].
      apply eff_push; [by right|]. unfold push, cur. rewrite E4. simpl. by rewrite E1, fset_eq.
    + apply (eff_plain _ _ _ _ []); [apply eff_pop; [by left|done]|done|done|done].
  - unfold set_holder in H. apply obind_Ret in H as (t & _ & H). injection H as <-.
    plain (@nil frame).
  - unfold lock_release in H. apply obind_Ret in H as (b & _ & H). apply assert_Ret in H as [_ H].
    injection H as <-. plain [FSemaUp (LockSema l)].
  - unfold cond_wait in H. apply assert_Ret in H as [_ H]. apply obind_Ret in H as (b & _ & H).
    apply assert_Ret in H as [_ H]. injection H as <-.
    plain [FLockRelease l; FSemaDown (WaiterSema (cur k)); FLockAcquire l].
    apply (waits_fset _ _ (WaiterSema (cur k)) (sema_init 0)); [done|by right].
  - unfold cond_signal in H. apply assert_Ret in H as [_ H]. apply obind_Ret in H as (b & _ & H).
    apply assert_Ret in H as [_ H]. simpl in H. destruct (conds k c) as [|w ws]; injection H as <-.
    + plain (@nil frame).
    + plain [FSemaUp w].
  - unfold cond_broadcast in H. simpl in H. destruct (conds k c) as [|w ws]; injection H as <-.
    + plain (@nil frame).
    + plain [FCondSignal c l; FCondBroadcast c l].
  - injection H as <-. plain [FLockAcquire (RwGuard a); if reader then FRwReadTest a else FRwWriteTest a].
  - unfold rw_read_test in H. simpl in H. destruct (0 <? _); injection H as <-.
    + plain [FCondWait (RwRead a) (RwGuard a); FRwReadWoken a; FRwReadTest a].
    + plain [FRwReadEnter a; FLockRelease (RwGuard a)].
  - injection H as <-. plain (@nil frame).
  - injection H as <-. plain (@nil frame).
  - unfold rw_write_test in H. simpl in H. destruct (0 <? _); injection H as <-.
    + plain [FCondWait (RwWrite a) (RwGuard a); FRwWriteWoken a; FRwWriteTest a].
    + plain [FRwWriteEnter a; FLockRelease (RwGuard a)].
  - injection H as <-. plain (@nil frame).
  - injection H as <-. plain (@nil frame).
  - injection H as <-. destruct reader.
    + plain [FLockAcquire (RwGuard a); FRwReadLeave a; FRwReadWake a; FLockRelease (RwGuard a)].
    + plain [FLockAcquire (RwGuard a); FRwWriteLeave a; FRwWriteWake a; FLockRelease (RwGuard a)].
  - injection H as <-. plain (@nil frame).
  - unfold rw_read_wake in H. simpl in H. destruct ((_ =? 0) && _); injection H as <-.
    + plain [FCondSignal (RwWrite a) (RwGuard a)].
    + plain (@nil frame).
  - injection H as <-. plain (@nil frame).
  - unfold rw_write_wake in H. simpl in H. destruct (0 <? _); [|destruct (0 <? _)]; injection H as <-.
    + plain [FCondSignal (RwWrite a) (RwGuard a)].
    + plain [FCondBroadcast (RwRead a) (RwGuard a)].
    + plain (@nil frame).
  - apply obind_Ret in H as (s & Hl & H). injection H as <-.
    apply intr_set_level_eq in Hl as ->. plain (@nil frame).
  - injection H as <-. plain (@nil frame).
  - destruct started as [s|]; [by destruct (Hcr name priority s)|]. by apply create_effect.
  - unfold allocate_tid in H. cbn [take_tid] in H. injection H as <-.
    plain [FLockRelease TidLock; FCreateFinish t (next_tid (sc k))].
  - apply obind_Ret in H as (s & Hc & H). injection H as <-. simpl in Hc.
    destruct (thread_create_finish_spec _ _ _ _ I Hc) as (s1 & (I1 & R1 & D1 & N1 & L1 & HS1) & Hu).
    destruct (thread_unblock_spec s1 s t I1 Hu) as (I2 & _ & _ & _ & D2 & _ & _ & _ & _ & HS2).
    apply (eff_start _ _ _ _ t tid); try done.
    + by apply eff_pop.
    + simpl. congruence.
    + intros x st. simpl. by rewrite HS2, HS1.
  - unfold yield in H. apply obind_Ret in H as ([s old] & Hy & H). injection H as <-.
    simpl in Hy. destruct (thread_yield_spec _ _ _ I Hy) as ((I' & E1 & _ & _ & K & D) & _ & _ & Hd).
    plain [FSetLevel old]. split_and!; try done.
    intros t Ht _. destruct (decide (t = running (sc k))) as [->|]; auto.
  - apply obind_Ret in H as (s & Hx & H). injection H as <-. simpl in Hx.
    destruct (thread_exit_spec _ _ I (Hex eq_refl) Hx) as ((I' & E1 & _ & _ & K & D) & _).
    plain (@nil frame). split_and!; try done. intros t Ht [Hne|?]; [|done]. by apply D.
  - apply obind_Ret in H as (s & Hx & H). injection H as <-. unfold intr_enable in Hx.
    apply assert_Ret in Hx as [_ Hx]. injection Hx as <-. plain (@nil frame).
  - by destruct (Hid started).
  - unfold idle_block in H. cbn [intr_disable] in H. apply obind_Ret in H as (s & Hb & H).
    injection H as <-. simpl in Hb.
    assert (I0 : sched_inv (set_intr (sc k) false)) by (by apply (sched_inv_ext (sc k))).
    destruct (thread_block_spec _ s I0 Hb) as ((I' & E1 & _ & _ & K & D) & _ & _ & _ & Hd).
    plain [FIdleHalt]. split_and!; try done.
    intros t Ht _. destruct (decide (t = running (sc k))) as [->|]; [exact Hd|by apply D].
  - injection H as <-. plain [FIdleBlock].
Qed.

(** * Waiting threads *)

Definition idle_frame (f : frame) : Prop :=
  match f with FIdleBlock | FIdleHalt | FSetLevel _ | FIret => True | _ => False end.

(** The idle thread is in its loop: it never waits and never returns to a caller. *)
Definition idle_ok k : Prop :=
  is_Some (threads (sc k) !! idle_thread (sc k)) /\
  Forall idle_frame (frames k (idle_thread (sc k))) /\
  (FIdleBlock ∈ frames k (idle_thread (sc k)) \/ FIdleHalt ∈ frames k (idle_thread (sc k))).

(** A thread on a waiting list is blocked inside [sema_down] on that semaphore. *)
Definition wait_ok k : Prop := forall s, NoDup (waiters (semas k s)) /\
  forall t, t ∈ waiters (semas k s) ->
    has_status (sc k) t THREAD_BLOCKED /\ exists old fs, frames k t = FSemaRetry s old :: fs.

(** The threads that a creator still has to make ready. *)
Definition new_of (f : frame) : list Z :=
  match f with FTakeTid t | FCreateFinish t _ => [t] | _ => [] end.
Definition news (fs : list frame) : list Z := fs ≫= new_of.

Definition new_ok k : Prop :=
  (forall u, NoDup (news (frames k u))) /\
  (forall u u' t, t ∈ news (frames k u) -> t ∈ news (frames k u') -> u = u') /\
  (forall u t, t ∈ news (frames k u) ->
     has_status (sc k) t THREAD_BLOCKED /\ frames k t = [FIntrEnable]).

Definition exit_free k : Prop := forall t, FExit ∉ frames k t.

Lemma news_app fs gs : news (fs ++ gs) = news fs ++ news gs.
Proof. unfold news. apply bind_app. Qed.

Lemma pushes_news f fs : pushes f fs -> (forall n p s, f = FThreadCreate n p s -> fs = []) ->
  match f with FCreateFinish _ _ => news fs = [] | _ => news fs = new_of f end.
Proof.
  intros H Hc. destruct f; simpl in *; try (by rewrite (Hc name priority started));
    repeat match goal with
    | H : _ \/ _ |- _ => destruct H
    | H : exists _, _ |- _ => destruct H
    end; subst; try done; by destruct reader.
Qed.

Lemma pushes_exit f fs : pushes f fs -> FExit ∉ fs.
Proof.
  intros H. destruct f; simpl in *;
    repeat match goal with
    | H : _ \/ _ |- _ => destruct H
    | H : exists _, _ |- _ => destruct H
    end; subst; try destruct reader; by_compute.
Qed.

Lemma pushes_idle f fs : pushes f fs -> idle_frame f ->
  Forall idle_frame fs /\ ((f = FIdleBlock \/ f = FIdleHalt) -> FIdleBlock ∈ fs \/ FIdleHalt ∈ fs).
Proof.
  intros H Hi. destruct f; simpl in *; try done; subst; split; repeat constructor; naive_solver set_solver.
Qed.

(** Facts of a state whose running thread is about to run [f]. *)
Record about k (f : frame) (rest : list frame) : Prop := {
  ab_sched : sched_inv (sc k);
  ab_frames : frames k (cur k) = f :: rest;
  ab_dead : dead_ok k;
  ab_idle : idle_ok k;
  ab_wait : wait_ok k;
  ab_new : new_ok k;
  ab_exit : (forall t, t <> cur k -> FExit ∉ frames k t) /\ FExit ∉ rest;
  ab_last : f = FExit -> rest = []
}.

Section About.
Context (k k' : kernel P) (f : frame) (rest : list frame) (A : about k f rest).

Lemma cur_running : has_status (sc k) (cur k) THREAD_RUNNING.
Proof. apply (si_running _ (ab_sched _ _ _ A)). Qed.

Lemma blocked_not_cur t : has_status (sc k) t THREAD_BLOCKED -> t <> cur k.
Proof. intros H ->. by pose proof (has_status_fun _ _ _ _ H cur_running). Qed.

Lemma retry_not_idle t s old fs : frames k t = FSemaRetry s old :: fs -> t <> idle_thread (sc k).
Proof.
  intros H ->. destruct (ab_idle _ _ _ A) as (_ & F & _). rewrite H in F.
  by apply Forall_cons in F as [? _].
Qed.

Lemma start_not_idle t : frames k t = [FIntrEnable] -> t <> idle_thread (sc k).
Proof.
  intros H ->. destruct (ab_idle _ _ _ A) as (_ & F & _). rewrite H in F.
  by apply Forall_cons in F as [? _].
Qed.

Lemma cur_idle_frame : cur k = idle_thread (sc k) -> idle_frame f.
Proof.
  intros E. destruct (ab_idle _ _ _ A) as (_ & F & _). rewrite <- E, (ab_frames _ _ _ A) in F.
  by apply Forall_cons in F as [? _].
Qed.

Lemma status_thread t st : has_status (sc k) t st -> is_Some (threads (sc k) !! t).
Proof. intros (th & H & _). by exists th. Qed.

Lemma frames_other fs t : frames_eff k k' f fs rest -> t <> cur k ->
  is_Some (threads (sc k) !! t) -> frames k' t = frames k t.
Proof.
  intros (_ & _ & [H|(u & n & p & _ & (Hn & _ & _) & _ & H)]) Ht Hs; [by apply H|].
  apply H; [done|]. intros ->. rewrite Hn in Hs. by destruct Hs.
Qed.

Lemma eff_idle fs : frames_eff k k' f fs rest ->
  idle_thread (sc k') = idle_thread (sc k) ->
  is_Some (threads (sc k') !! idle_thread (sc k)) -> idle_ok k'.
Proof.
  intros E Hid Hs. destruct (ab_idle _ _ _ A) as (S & F & B). unfold idle_ok. rewrite Hid.
  split; [done|]. destruct (decide (idle_thread (sc k) = cur k)) as [Ec|Hn].
  - pose proof (cur_idle_frame (eq_sym Ec)) as Hi. destruct E as (Hp & Hc & _).
    destruct (pushes_idle f fs Hp Hi) as [Hf1 Hf2].
    rewrite Ec, (ab_frames _ _ _ A) in F, B. rewrite Ec, Hc. apply Forall_cons in F as [_ F].
    split; [by apply Forall_app|]. setoid_rewrite elem_of_app.
    destruct B as [B|B]; apply elem_of_cons in B as [B|B]; naive_solver.
  - by rewrite (frames_other fs) by done.
Qed.

Lemma eff_exit fs : frames_eff k k' f fs rest -> exit_free k'.
Proof.
  intros (Hp & Hc & Ho) t. destruct (ab_exit _ _ _ A) as [X1 X2].
  destruct (decide (t = cur k)) as [->|Hn].
  - rewrite Hc, elem_of_app. pose proof (pushes_exit f fs Hp). naive_solver.
  - destruct Ho as [Ho|(u & n & p & _ & (_ & _ & Hu) & _ & Ho)].
    + rewrite Ho by done. by apply X1.
    + destruct (decide (t = u)) as [->|]; [rewrite Hu; by_compute|]. rewrite Ho by done. by apply X1.
Qed.

(** Threads outside the map of threads have no frames, if those that leave it have none. *)
Lemma eff_dead fs : frames_eff k k' f fs rest ->
  (forall t, is_Some (threads (sc k) !! t) -> t <> cur k \/ may_exit f = false ->
     is_Some (threads (sc k') !! t)) ->
  (forall t n p, f = FThreadCreate n p None -> fs = [FLockAcquire TidLock; FTakeTid t] ->
     is_Some (threads (sc k') !! t)) -> dead_ok k'.
Proof.
  intros E Hs Hcr t Ht. pose proof E as (Hp & Hc & Ho).
  destruct (decide (t = cur k)) as [->|Hn].
  - assert (may_exit f = true) as Hm.
    { destruct (may_exit f) eqn:Em; [done|]. exfalso.
      destruct (Hs (cur k)) as [x Hx]; [|by right|congruence].
      eapply status_thread. apply cur_running. }
    destruct f; try done. pose proof (ab_last _ _ _ A eq_refl) as ->. simpl in Hp. by rewrite Hc, Hp.
  - assert (threads (sc k) !! t = None) as Hnone.
    { destruct (threads (sc k) !! t) eqn:Et; [|done]. exfalso.
      destruct (Hs t) as [x Hx]; [by eexists|by left|congruence]. }
    destruct Ho as [Ho|(u & n & p & Ef & Cr & Efs & Ho)].
    + rewrite Ho by done. by apply (ab_dead _ _ _ A).
    + destruct (decide (t = u)) as [->|].
      * destruct (Hcr u n p Ef Efs) as [x Hx]. congruence.
      * rewrite Ho by done. by apply (ab_dead _ _ _ A).
Qed.

(** Waiting lists: each remaining waiter was one before and is still blocked. *)
Lemma eff_wait fs : frames_eff k k' f fs rest ->
  (forall s, NoDup (waiters (semas k' s)) /\ forall t, t ∈ waiters (semas k' s) ->
     has_status (sc k') t THREAD_BLOCKED /\ t ∈ waiters (semas k s)) -> wait_ok k'.
Proof.
  intros E H s. destruct (H s) as [Hnd Hin]. split; [done|]. intros t Ht.
  destruct (Hin t Ht) as [Hb Hw]. split; [done|].
  destruct (ab_wait _ _ _ A s) as [_ W]. destruct (W t Hw) as [Hb0 (old & fs' & Hf)].
  exists old, fs'. rewrite (frames_other fs); [done|done|by apply blocked_not_cur|].
  by eapply status_thread.
Qed.

Lemma eff_new fs : frames_eff k k' f fs rest ->
  (forall n p s, f = FThreadCreate n p s -> fs = []) ->
  (forall t, has_status (sc k) t THREAD_BLOCKED -> frames k t = [FIntrEnable] ->
     (forall n, f <> FCreateFinish t n) -> has_status (sc k') t THREAD_BLOCKED) -> new_ok k'.
Proof.
  intros E Hnc Hb. pose proof E as (Hp & Hc & Ho). destruct (ab_new _ _ _ A) as (N1 & N2 & N3).
  destruct Ho as [Ho|(t1 & n & p & Ef & _ & Efs & _)]; [|by rewrite (Hnc n p None Ef) in Efs].
  pose proof (pushes_news f fs Hp Hnc) as Hnews.
  pose proof (N1 (cur k)) as Nc. rewrite (ab_frames _ _ _ A) in Nc.
  change (news (f :: rest)) with (new_of f ++ news rest) in Nc.
  assert (news (frames k' (cur k)) = match f with FCreateFinish _ _ => news rest
    | _ => new_of f ++ news rest end) as Ec.
  { rewrite Hc, news_app. destruct f; by rewrite Hnews. }
  assert (forall u t, t ∈ news (frames k' u) ->
    t ∈ news (frames k u) /\ forall n, f <> FCreateFinish t n) as Hsub.
  { intros u t Ht. destruct (decide (u = cur k)) as [->|Hu].
    - rewrite Ec in Ht. rewrite (ab_frames _ _ _ A).
      change (news (f :: rest)) with (new_of f ++ news rest).
      destruct f; try (split; [done|by intros]).
      split; [rewrite elem_of_app; by right|]. intros n [= <- _].
      apply NoDup_app in Nc as (_ & Nc & _). apply (Nc t0); [by left|done].
    - rewrite Ho in Ht by done. split; [done|]. intros n ->. apply Hu.
      apply (N2 u (cur k) t); [done|]. rewrite (ab_frames _ _ _ A). by left. }
  split_and!.
  - intros u. destruct (decide (u = cur k)) as [->|Hu]; [|by rewrite Ho].
    rewrite Ec. destruct f; try done. by apply NoDup_app in Nc as (_ & _ & ?).
  - intros u u' t H1 H2. apply (N2 u u' t); by apply Hsub.
  - intros u t Ht. destruct (Hsub u t Ht) as [Ht' Hn]. destruct (N3 u t Ht') as [B F].
    split; [by apply Hb|]. rewrite Ho; [done|]. by apply blocked_not_cur.
Qed.
End About.

Record sched_part k : Prop := {
  sp_sched : sched_inv (sc k);
  sp_dead : dead_ok k;
  sp_idle : idle_ok k;
  sp_wait : wait_ok k;
  sp_new : new_ok k;
  sp_exit : exit_free k
}.

Lemma is_Some_status (s : sched P) t : is_Some (threads s !! t) <-> exists st, has_status s t st.
Proof.
  split.
  - intros [th H]. exists (status th). by exists th.
  - intros (st & th & H & _). by exists th.
Qed.

Lemma about_step k k' f rest : about k f rest ->
  (forall s, f <> FIdle s) -> (forall n p s, f <> FThreadCreate n p (Some s)) ->
  run1 k = Ret k' -> sched_part k'.
Proof.
  intros A Hid Hcr H. pose proof (ab_sched _ _ _ A) as I.
  assert (Hxt : f = FExit -> cur k <> idle_thread (sc k)).
  { intros ->. intros E. by pose proof (cur_idle_frame k FExit rest A E). }
  destruct (run1_effect k k' f rest I Hxt Hid Hcr (ab_frames _ _ _ A) H)
    as [fs E (I' & D & B & S) W C|s old E Hf (I' & D & B & S) Hb Hw Ho
       |s t ws -> E Hw Hw' Ho I' D HS|t n -> E Hs I' D HS|t n p -> E Cr Hs I' D HS].
  - assert (Hi : is_Some (threads (sc k') !! idle_thread (sc k))).
    { destruct (ab_idle _ _ _ A) as (Hi & _). apply S; [done|].
      destruct (may_exit f) eqn:Em; [|by right]. left. destruct f; try done.
      intros E'. by apply Hxt. }
    split; [done| | | | |].
    + eapply eff_dead; try done. intros t n p Ef Efs. by rewrite (C n p None Ef) in Efs.
    + by eapply eff_idle.
    + eapply eff_wait; try done. intros s. destruct (W s) as [->| ->].
      * destruct (ab_wait _ _ _ A s) as [Hnd Hw]. split; [done|]. intros t Ht.
        destruct (Hw t Ht) as (Hb & old & fs' & Hf). split; [|done].
        apply B; [|done]. by eapply retry_not_idle.
      * split; [constructor|]. intros t Ht. by apply not_elem_of_nil in Ht.
    + eapply eff_new; try done. intros t Hb Hf _. apply B; [|done]. by eapply start_not_idle.
    + by eapply eff_exit.
  - assert (Hnc : forall n p s', f <> FThreadCreate n p s') by (by destruct Hf as [->| ->]).
    assert (Hni : cur k <> idle_thread (sc k)).
    { intros E'. pose proof (cur_idle_frame k f rest A E'). by destruct Hf as [->| ->]. }
    assert (Hi : is_Some (threads (sc k') !! idle_thread (sc k))).
    { destruct (ab_idle _ _ _ A) as (Hi & _). apply S; [done|by right]. }
    split; [done| | | | |].
    + eapply eff_dead; try done. intros t Ht _. apply S; [done|by right].
    + by eapply eff_idle.
    + intros s'. destruct (decide (s' = s)) as [->|Hn].
      * rewrite Hw. destruct (ab_wait _ _ _ A s) as [Hnd Hin]. split.
        -- apply NoDup_app. split_and!; [done| |apply NoDup_singleton].
           intros x Hx ->%list_elem_of_singleton. destruct (Hin _ Hx) as [Hbl _].
           by apply (blocked_not_cur k f rest A _ Hbl).
        -- intros t [Ht| ->%list_elem_of_singleton]%elem_of_app.
           ++ destruct (Hin t Ht) as (Hbl & o & fs' & Hft).
              split; [apply B; [by eapply retry_not_idle|done]|]. exists o, fs'.
              rewrite (frames_other k k' f rest _ t E); [done| |by eapply status_thread].
              by apply (blocked_not_cur k f rest A).
           ++ split; [by apply Hb|]. destruct E as (_ & -> & _). by eexists _, _.
      * rewrite Ho by done. destruct (ab_wait _ _ _ A s') as [Hnd Hin]. split; [done|].
        intros t Ht. destruct (Hin t Ht) as (Hbl & o & fs' & Hft).
        split; [apply B; [by eapply retry_not_idle|done]|]. exists o, fs'.
        rewrite (frames_other k k' f rest _ t E); [done| |by eapply status_thread].
        by apply (blocked_not_cur k f rest A).
    + eapply eff_new; try done; [intros n p s' Ef; by destruct (Hnc n p s')|].
      intros t Hbl Hft _. apply B; [|done]. by eapply start_not_idle.
    + by eapply eff_exit.
  - assert (Hdom : forall x, is_Some (threads (sc k) !! x) -> is_Some (threads (sc k') !! x)).
    { intros x. rewrite !is_Some_status. intros [st Hst].
      destruct (decide (x = t)) as [->|]; [exists THREAD_READY|exists st]; apply HS; naive_solver. }
    destruct (ab_wait _ _ _ A s) as [Hnd Hin]. rewrite Hw in Hnd, Hin.
    destruct (Hin t) as (Hbt & o & ft & Hft); [by left|]. apply NoDup_cons in Hnd as [Hnt Hnd].
    assert (Hkeep : forall x, x <> t -> has_status (sc k) x THREAD_BLOCKED ->
      has_status (sc k') x THREAD_BLOCKED) by (intros x Hx Hbx; apply HS; by right).
    split; [done| | | | |].
    + eapply eff_dead; try done. intros x Hx _. by apply Hdom.
    + eapply eff_idle; try done. apply Hdom, (ab_idle _ _ _ A).
    + eapply eff_wait; try done. intros s'. destruct (decide (s' = s)) as [->|Hn].
      * rewrite Hw'. split; [done|]. intros x Hxw. split; [|rewrite Hw; by right].
        apply Hkeep; [by intros ->|]. apply Hin. by right.
      * rewrite Ho by done. destruct (ab_wait _ _ _ A s') as [Hnd' Hin']. split; [done|].
        intros x Hxw. split; [|done]. destruct (Hin' x Hxw) as (Hbx & o' & fx & Hfx).
        apply Hkeep; [|done]. intros ->. congruence.
    + eapply eff_new; try done. intros x Hbx Hfx _. apply Hkeep; [|done]. intros ->. congruence.
    + by eapply eff_exit.
  - assert (Hdom : forall x, is_Some (threads (sc k) !! x) -> is_Some (threads (sc k') !! x)).
    { intros x. rewrite !is_Some_status. intros [st Hst].
      destruct (decide (x = t)) as [->|]; [exists THREAD_READY|exists st]; apply HS; naive_solver. }
    assert (Hkeep : forall x, x <> t -> has_status (sc k) x THREAD_BLOCKED ->
      has_status (sc k') x THREAD_BLOCKED) by (intros x Hx Hbx; apply HS; by right).
    assert (Hstart : frames k t = [FIntrEnable]).
    { destruct (ab_new _ _ _ A) as (_ & _ & N3). apply (N3 (cur k)).
      rewrite (ab_frames _ _ _ A). by left. }
    split; [done| | | | |].
    + eapply eff_dead; try done. intros x Hx _. by apply Hdom.
    + eapply eff_idle; try done. apply Hdom, (ab_idle _ _ _ A).
    + eapply eff_wait; try done. intros s. rewrite Hs.
      destruct (ab_wait _ _ _ A s) as [Hnd Hin]. split; [done|]. intros x Hxw. split; [|done].
      destruct (Hin x Hxw) as (Hbx & o & fx & Hfx). apply Hkeep; [|done]. intros ->. congruence.
    + eapply eff_new; try done. intros x Hbx Hfx Hn. apply Hkeep; [|done]. intros ->. by destruct (Hn n).
    + by eapply eff_exit.
  - assert (Hnt : threads (sc k) !! t = None) by apply Cr.
    assert (Hdom : forall x, is_Some (threads (sc k) !! x) -> is_Some (threads (sc k') !! x)).
    { intros x. rewrite !is_Some_status. intros [st Hst].
      destruct (decide (x = t)) as [->|]; [exists THREAD_BLOCKED|exists st]; apply HS; naive_solver. }
    assert (Hne : forall x st, has_status (sc k) x st -> x <> t).
    { intros x st (th & Hth & _) ->. congruence. }
    assert (Hkeep : forall x st, has_status (sc k) x st -> has_status (sc k') x st).
    { intros x st Hx. apply HS. right. split; [by eapply Hne|done]. }
    split; [done| | | | |].
    + eapply eff_dead; try done; [intros x Hx _; by apply Hdom|].
      intros t' n' p' _ [= <-]. apply is_Some_status. exists THREAD_BLOCKED. apply HS. by left.
    + eapply eff_idle; try done. apply Hdom, (ab_idle _ _ _ A).
    + eapply eff_wait; try done. intros s. rewrite Hs.
      destruct (ab_wait _ _ _ A s) as [Hnd Hin]. split; [done|]. intros x Hxw. split; [|done].
      apply Hkeep. by apply Hin.
    + destruct (ab_new _ _ _ A) as (N1 & N2 & N3). destruct Cr as (_ & Hnc & Hft).
      assert (Hu : forall u, u <> cur k -> u <> t -> frames k' u = frames k u).
      { destruct E as (_ & _ & [E|(t' & n' & p' & _ & _ & [= ->] & E)]); auto. }
      pose proof (N1 (cur k)) as Nc. rewrite (ab_frames _ _ _ A) in Nc. simpl in Nc.
      assert (Hmem : forall u x, x ∈ news (frames k' u) ->
        (u = cur k /\ x = t) \/ (x <> t /\ x ∈ news (frames k u))).
      { intros u x Hux. destruct (decide (u = cur k)) as [->|Hnu].
        - destruct E as (_ & Ec & _). rewrite Ec in Hux. apply elem_of_cons in Hux as [->|Hux]; [by left|].
          assert (x ∈ news (frames k (cur k))) as Hin by (by rewrite (ab_frames _ _ _ A)).
          right. split; [|done]. destruct (N3 _ _ Hin) as [Hb _]. by eapply Hne.
        - destruct (decide (u = t)) as [->|Hnt']; [rewrite Hft in Hux; by apply not_elem_of_nil in Hux|].
          rewrite Hu in Hux by done. right. split; [|done].
          destruct (N3 _ _ Hux) as [Hb _]. by eapply Hne. }
      split_and!.
      * intros u. destruct (decide (u = cur k)) as [->|Hnu].
        -- destruct E as (_ & -> & _). apply NoDup_cons. split; [|done].
           intros Hin. assert (t ∈ news (frames k (cur k))) as Hin' by (by rewrite (ab_frames _ _ _ A)).
           destruct (N3 _ _ Hin') as [Hb _]. by apply (Hne t _ Hb).
        -- destruct (decide (u = t)) as [->|]; [rewrite Hft; constructor|]. by rewrite Hu.
      * intros u u' x H1 H2. apply Hmem in H1, H2.
        destruct H1 as [[-> ->]|[Hx1 H1]], H2 as [[-> ?]|[Hx2 H2]]; try done. by apply (N2 u u' x).
      * intros u x Hux. destruct (Hmem u x Hux) as [[-> ->]|[Hxt' Hin]].
        -- split; [apply HS; by left|done].
        -- destruct (N3 u x Hin) as [Hb Hfx]. split; [by apply Hkeep|].
           rewrite Hu; [done|by apply (blocked_not_cur _ _ _ A)|done].
    + by eapply eff_exit.
Qed.

Lemma sched_part_about k f rest : sched_part k -> frames k (cur k) = f :: rest -> about k f rest.
Proof.
  intros [S D I W N X] Hf. split; try done.
  - split; [by intros|]. intros H. apply (X (cur k)). rewrite Hf. by right.
  - intros ->. exfalso. apply (X (cur k)). rewrite Hf. by left.
Qed.

Lemma cur_not_idle k : idle_ok k -> frames k (cur k) = [] -> cur k <> idle_thread (sc k).
Proof.
  intros (_ & _ & B) E Ec. rewrite <- Ec, E in B. destruct B as [B|B]; by apply not_elem_of_nil in B.
Qed.

(** A call from the thread's own code. *)
Lemma call_about k f : sched_part k -> frames k (cur k) = [] -> new_of f = [] ->
  about (push k [f]) f [].
Proof.
  intros [S D I W N X] Hf Hn.
  assert (Hfr : forall t, t <> cur k -> frames (push k [f]) t = frames k t).
  { intros t Ht. simpl. by rewrite fset_ne. }
  assert (Hc : frames (push k [f]) (cur k) = [f]) by (simpl; by rewrite fset_eq, Hf).
  pose proof (si_running _ S) as R.
  assert (Hb : forall t, has_status (sc k) t THREAD_BLOCKED -> t <> cur k).
  { intros t Ht ->. by pose proof (has_status_fun _ _ _ _ Ht R). }
  split; try done.
  - intros t Ht. destruct (decide (t = cur k)) as [->|Hne].
    + destruct R as (x & Hx & _). unfold cur in Ht. simpl in Ht. congruence.
    + rewrite Hfr by done. by apply D.
  - unfold idle_ok. change (idle_thread (sc (push k [f]))) with (idle_thread (sc k)).
    rewrite Hfr; [done|]. by apply not_eq_sym, cur_not_idle.
  - intros s. destruct (W s) as [Hnd Hin]. split; [done|]. intros t Ht.
    destruct (Hin t Ht) as (Hbl & o & fs & Hft). split; [done|]. exists o, fs.
    rewrite Hfr; [done|by apply Hb].
  - destruct N as (N1 & N2 & N3).
    assert (Hnews : forall u, news (frames (push k [f]) u) = news (frames k u)).
    { intros u. destruct (decide (u = cur k)) as [->|Hu]; [|by rewrite Hfr].
      rewrite Hc, Hf. simpl. by rewrite Hn. }
    split_and!.
    + intros u. rewrite Hnews. apply N1.
    + intros u u' t. rewrite !Hnews. apply N2.
    + intros u t. rewrite Hnews. intros Ht. destruct (N3 u t Ht) as [Hbl Hft].
      split; [done|]. rewrite Hfr; [done|by apply Hb].
  - split; [|apply not_elem_of_nil]. intros t Ht. rewrite Hfr by done. apply X.
Qed.

Lemma tick_sched k k' : sched_part k -> timer_tick k = Ret k' -> sched_part k'.
Proof.
  intros [S D I W N X] H. unfold timer_tick in H. apply obind_Ret in H as ([s y] & Hs & H).
  destruct (timer_interrupt_spec _ _ _ S Hs) as ((S' & E1 & _ & _ & K & Dm) & _ & _ & Hr).
  set (fs := match y with Some old => [FSetLevel old; FIret] | None => [FIret] end) in H.
  assert (Hfs : Forall idle_frame fs /\ news fs = [] /\ FExit ∉ fs).
  { unfold fs. destruct y; split_and!; repeat constructor; try done; by_compute. }
  injection H as <-. set (k' := mk_kernel _ _ _ _ _ _).
  assert (Hfr : forall t, t <> cur k -> frames k' t = frames k t).
  { intros t Ht. simpl. by rewrite fset_ne. }
  assert (Hc : frames k' (cur k) = fs ++ frames k (cur k)) by (simpl; by rewrite fset_eq).
  pose proof (si_running _ S) as R.
  assert (Hb : forall t, has_status (sc k) t THREAD_BLOCKED -> t <> cur k).
  { intros t Ht ->. by pose proof (has_status_fun _ _ _ _ Ht R). }
  assert (Hdom : forall t, is_Some (threads (sc k) !! t) -> is_Some (threads s !! t)).
  { intros t Ht. destruct (decide (t = running (sc k))) as [->|]; auto. }
  destruct I as (I1 & I2 & I3).
  assert (Hidle : forall t, t = idle_thread (sc k) -> frames k t <> [FIntrEnable] /\
    forall s' o fs', frames k t <> FSemaRetry s' o :: fs').
  { intros t ->. split; [intros E|intros s' o fs' E]; rewrite E in I2; by apply Forall_cons in I2 as [? _]. }
  split; try done.
  - intros t Ht. simpl in Ht. destruct (decide (t = cur k)) as [->|Hne].
    + destruct Hr as [x Hx]. unfold cur in Ht. congruence.
    + rewrite Hfr by done. apply D. destruct (threads (sc k) !! t) eqn:E; [|done].
      destruct (Hdom t) as [x Hx]; [by eexists|congruence].
  - unfold idle_ok. change (sc k') with s. rewrite E1. split; [by apply Hdom|].
    destruct (decide (idle_thread (sc k) = cur k)) as [Ec|Hne]; [|by rewrite Hfr].
    rewrite Ec, Hc. rewrite Ec in I2, I3. split; [apply Forall_app; split; [apply Hfs|done]|].
    setoid_rewrite elem_of_app. naive_solver.
  - intros s'. destruct (W s') as [Hnd Hin]. split; [done|]. intros t Ht.
    destruct (Hin t Ht) as (Hbl & o & fs' & Hft). split.
    + apply K; [|done]. intros ->. by apply (proj2 (Hidle _ eq_refl) _ _ _ Hft).
    + exists o, fs'. rewrite Hfr; [done|by apply Hb].
  - destruct N as (N1 & N2 & N3).
    assert (Hnews : forall u, news (frames k' u) = news (frames k u)).
    { intros u. destruct (decide (u = cur k)) as [->|Hu]; [|by rewrite Hfr].
      rewrite Hc, news_app. destruct Hfs as (_ & -> & _). done. }
    split_and!.
    + intros u. rewrite Hnews. apply N1.
    + intros u u' t. rewrite !Hnews. apply N2.
    + intros u t. rewrite Hnews. intros Ht. destruct (N3 u t Ht) as [Hbl Hft].
      split; [apply K; [|done]; intros ->; by apply (proj1 (Hidle _ eq_refl))|].
      rewrite Hfr; [done|by apply Hb].
  - intros t. destruct (decide (t = cur k)) as [->|Hne]; [|rewrite Hfr by done; apply X].
    rewrite Hc, elem_of_app. pose proof (X (cur k)). naive_solver.
Qed.

(** * Readers-writers locks *)

(** What one frame does to the counters, the holders and the condition variables. *)
Definition rw_frame (f : frame) : bool :=
  match f with
  | FRwReadTest _ | FRwReadWoken _ | FRwReadEnter _ | FRwReadLeave _
  | FRwWriteTest _ | FRwWriteWoken _ | FRwWriteEnter _ | FRwWriteLeave _ => true
  | _ => false
  end.

Definition holder_eff k k' (f : frame) : Prop :=
  match f with
  | FSetHolder l => forall l', holder k' l' = if decide (l' = l) then Some (cur k) else holder k l'
  | FLockRelease l => holder k l = Some (cur k) /\
      forall l', holder k' l' = if decide (l' = l) then None else holder k l'
  | _ => holder k' = holder k
  end.

Lemma conds_append k c t : conds_ok k -> forall c' w,
  w ∈ fset (conds k) c (conds k c ++ [WaiterSema t]) c' -> exists t', w = WaiterSema t'.
Proof.
  intros H c' w. destruct (decide (c' = c)) as [->|Hn]; [|rewrite fset_ne by done; apply H].
  rewrite fset_eq, elem_of_app, list_elem_of_singleton. intros [Hw| ->]; [by apply H in Hw|by eexists].
Qed.

Lemma conds_pop k c x ws : conds_ok k -> conds k c = x :: ws -> forall c' w,
  w ∈ fset (conds k) c ws c' -> exists t', w = WaiterSema t'.
Proof.
  intros H E c' w. destruct (decide (c' = c)) as [->|Hn]; [|rewrite fset_ne by done; apply H].
  rewrite fset_eq. intros Hw. apply (H c). rewrite E. by right.
Qed.

Lemma sema_ops_state k k' s : (exists old, sema_down_loop k s old = Ret k') \/
    sema_down k s = Ret k' \/ sema_up k s = Ret k' \/ (exists b, sema_try_down k s = Ret (k', b)) ->
  rws k' = rws k /\ holder k' = holder k /\ conds k' = conds k.
Proof.
  assert (L : forall k old, sema_down_loop k s old = Ret k' ->
    rws k' = rws k /\ holder k' = holder k /\ conds k' = conds k).
  { intros k0 old H. unfold sema_down_loop in H. cbv zeta in H. destruct (value _ =? 0).
    - apply obind_Ret in H as (t & _ & H). apply obind_Ret in H as (s' & _ & H). by injection H as <-.
    - apply obind_Ret in H as (s' & _ & H). by injection H as <-. }
  intros [[old H]|[H|[H|[b H]]]].
  - by eapply L.
  - unfold sema_down in H. apply assert_Ret in H as [_ H]. cbn [intr_disable] in H.
    apply (L (with_sc k (set_intr (sc k) false)) _ H).
  - unfold sema_up in H. cbn [intr_disable] in H. apply obind_Ret in H as (k1 & H1 & H).
    apply obind_Ret in H as (s' & _ & H). injection H as <-. simpl in H1.
    destruct (waiters (semas k s)); [by injection H1 as <-|].
    apply obind_Ret in H1 as (s1 & _ & H1). by injection H1 as <-.
  - unfold sema_try_down in H. cbn [intr_disable] in H.
    destruct (0 <? _); apply obind_Ret in H as (s' & _ & H); by injection H as <- <-.
Qed.

Lemma run1_state k k' f rest : frames k (cur k) = f :: rest -> run1 k = Ret k' ->
  (rw_frame f = false -> rws k' = rws k) /\ holder_eff k k' f /\ (conds_ok k -> conds_ok k').
Proof.
  intros Hf H. unfold run1 in H. rewrite Hf in H. fold (popped k rest) in H.
  assert (Hsame : forall k1, rws k1 = rws k /\ holder k1 = holder k /\ conds k1 = conds k ->
    rws k1 = rws k /\ holder k1 = holder k /\ (conds_ok k -> conds_ok k1)).
  { intros k1 (E1 & E2 & E3). split_and!; [done|done|]. unfold conds_ok. by rewrite E3. }
  destruct f; cbn [exec] in H; cbn [rw_frame holder_eff].
  - destruct (Hsame k') as (? & ? & ?); [|done]. apply (sema_ops_state (popped k rest) k' s). auto.
  - destruct (Hsame k') as (? & ? & ?); [|done]. apply (sema_ops_state (popped k rest) k' s). eauto.
  - destruct (Hsame k') as (? & ? & ?); [|done]. apply (sema_ops_state (popped k rest) k' s). auto.
  - apply obind_Ret in H as ([k1 b] & H1 & H). injection H as <-.
    destruct (Hsame k1) as (? & ? & ?); [|done]. apply (sema_ops_state (popped k rest) k1 s). eauto.
  - unfold lock_acquire in H. apply assert_Ret in H as [_ H]. apply obind_Ret in H as (b & _ & H).
    apply assert_Ret in H as [_ H]. by injection H as <-.
  - apply obind_Ret in H as ([k1 b] & H1 & H). injection H as <-. unfold lock_try_acquire in H1.
    apply obind_Ret in H1 as (held & _ & H1). apply assert_Ret in H1 as [_ H1].
    apply obind_Ret in H1 as ([k2 ok] & H2 & H1). injection H1 as <- <-.
    destruct (Hsame k2) as (? & ? & ?); [|by destruct ok].
    apply (sema_ops_state (popped k rest) k2 (LockSema l)). eauto.
  - unfold set_holder in H. apply obind_Ret in H as (t & Ht & H).
    apply thread_current_Ret in Ht as [-> _]. injection H as <-. done.
  - unfold lock_release in H. apply obind_Ret in H as (b & Hb & H). apply held_spec in Hb.
    apply assert_Ret in H as [-> H]. injection H as <-. symmetry in Hb.
    apply bool_decide_eq_true in Hb. done.
  - unfold cond_wait in H. apply assert_Ret in H as [_ H]. apply obind_Ret in H as (b & _ & H).
    apply assert_Ret in H as [_ H]. injection H as <-. split_and!; [done|done|]. intros HC c' w. apply (conds_append k c (cur k) HC).
  - unfold cond_signal in H. apply assert_Ret in H as [_ H]. apply obind_Ret in H as (b & _ & H).
    apply assert_Ret in H as [_ H]. simpl in H. destruct (conds k c) as [|w ws] eqn:Ec; injection H as <-.
    + done.
    + split_and!; [done|done|]. intros HC c' w'. by eapply conds_pop.
  - unfold cond_broadcast in H. simpl in H. destruct (conds k c); injection H as <-; done.
  - by injection H as <-.
  - unfold rw_read_test in H. simpl in H. destruct (0 <? _); injection H as <-; done.
  - by injection H as <-.
  - by injection H as <-.
  - unfold rw_write_test in H. simpl in H. destruct (0 <? _); injection H as <-; done.
  - by injection H as <-.
  - by injection H as <-.
  - by injection H as <-.
  - by injection H as <-.
  - unfold rw_read_wake in H. simpl in H. destruct ((_ =? 0) && _); injection H as <-; done.
  - by injection H as <-.
  - unfold rw_write_wake in H. simpl in H.
    destruct (0 <? _); [|destruct (0 <? _)]; injection H as <-; done.
  - apply obind_Ret in H as (s & _ & H). by injection H as <-.
  - by injection H as <-.
  - unfold thread_create in H. apply obind_Ret in H as ([s t] & _ & H).
    destruct (t =? NULL); injection H as <-; done.
  - unfold allocate_tid in H. cbn [take_tid] in H. by injection H as <-.
  - apply obind_Ret in H as (s & _ & H). by injection H as <-.
  - unfold yield in H. apply obind_Ret in H as ([s o] & _ & H). by injection H as <-.
  - apply obind_Ret in H as (s & _ & H). by injection H as <-.
  - apply obind_Ret in H as (s & _ & H). by injection H as <-.
  - unfold idle in H. apply obind_Ret in H as (t & _ & H). by injection H as <-.
  - unfold idle_block in H. cbn [intr_disable] in H. apply obind_Ret in H as (s & _ & H).
    by injection H as <-.
  - by injection H as <-.
Qed.

(** ** The counters count, and writers exclude everybody else *)

Definition reads_leaving (a : Z) (f : frame) : bool :=
  match f with FRwReadLeave b => b =? a | FRwRelease b true => b =? a | _ => false end.
Definition writes_leaving (a : Z) (f : frame) : bool :=
  match f with FRwWriteLeave b => b =? a | FRwRelease b false => b =? a | _ => false end.
Definition writes_waiting (a : Z) (f : frame) : bool :=
  match f with FRwWriteWoken b => b =? a | _ => false end.
Definition number (p : frame -> bool) (fs : list frame) : nat := length (List.filter p fs).
Definition occurrences (t : Z) (l : list Z) : nat := length (List.filter (Z.eqb t) l).

Definition entering (f : frame) : bool :=
  match f with FRwReadEnter _ | FRwWriteEnter _ => true | _ => false end.

(** The frames below those of an interrupt. *)
Fixpoint strip (fs : list frame) : list frame :=
  match fs with
  | FSetLevel _ :: fs | FIret :: fs => strip fs
  | _ => fs
  end.
Definition wrapper (f : frame) : bool :=
  match f with FSetLevel _ | FIret => true | _ => false end.

Definition counts_ok (r : rw_lock) : Prop :=
  AR r = Z.of_nat (length (readers r)) /\ AW r = Z.of_nat (length (writers r)) /\
  WW r = Z.of_nat (length (waiting_writers r)).
Definition excl_ok (r : rw_lock) : Prop :=
  writers r = [] \/ (length (writers r) = 1%nat /\ readers r = []).
Definition leave_ok (r : rw_lock) (a t : Z) (fs : list frame) : Prop :=
  (number (reads_leaving a) fs <= occurrences t (readers r))%nat /\
  (number (writes_leaving a) fs <= occurrences t (writers r))%nat /\
  (number (writes_waiting a) fs <= occurrences t (waiting_writers r))%nat.
(** A thread that has passed its test and not yet counted itself. *)
Definition enter_ok k (t : Z) (fs : list frame) : Prop :=
  forall f gs, strip fs = f :: gs -> Forall (fun g => entering g = false) gs /\
    match f with
    | FRwReadEnter a => holder k (RwGuard a) = Some t /\ writers (rws k a) = []
    | FRwWriteEnter a => holder k (RwGuard a) = Some t /\ writers (rws k a) = [] /\
        readers (rws k a) = []
    | _ => True
    end.

Record rw_ok k : Prop := {
  ro_counts a : counts_ok (rws k a);
  ro_excl a : excl_ok (rws k a);
  ro_leave a t : leave_ok (rws k a) a t (frames k t);
  ro_enter t : enter_ok k t (frames k t)
}.

Lemma number_app p fs gs : number p (fs ++ gs) = (number p fs + number p gs)%nat.
Proof. unfold number. by rewrite List.filter_app, length_app. Qed.
Lemma number_cons p f fs : number p (f :: fs) = (number p [f] + number p fs)%nat.
Proof. apply (number_app p [f] fs). Qed.

Lemma strip_cons f fs : wrapper f = false -> strip (f :: fs) = f :: fs.
Proof. by destruct f. Qed.
Lemma strip_wrap f fs : wrapper f = true -> strip (f :: fs) = strip fs.
Proof. by destruct f. Qed.

Lemma strip_plain fs f gs : Forall (fun g => entering g = false) fs -> strip fs = f :: gs ->
  entering f = false /\ Forall (fun g => entering g = false) gs.
Proof.
  induction fs as [|x fs IH]; intros H E; [done|]. apply Forall_cons in H as [Hx H].
  destruct (wrapper x) eqn:W.
  - rewrite strip_wrap in E by done. by apply IH.
  - rewrite strip_cons in E by done. by injection E as -> ->.
Qed.

Lemma enter_plain k t fs : Forall (fun g => entering g = false) fs -> enter_ok k t fs.
Proof.
  intros H f gs E. destruct (strip_plain fs f gs H E) as [Hf Hg]. split; [done|]. by destruct f.
Qed.

Lemma occurrences_remove t l : In t l ->
  length l = S (length (remove_one t l)) /\ occurrences t l = S (occurrences t (remove_one t l)).
Proof.
  unfold occurrences. induction l as [|x l IH]; simpl; [done|]. intros [->|H].
  - by rewrite Z.eqb_refl.
  - destruct (x =? t) eqn:E.
    + apply Z.eqb_eq in E as ->. by rewrite Z.eqb_refl.
    + destruct (IH H) as [E1 E2]. rewrite E1. simpl. split; [done|].
      destruct (t =? x) eqn:E'; [lia|done].
Qed.

Lemma occurrences_remove_ne t u l : u <> t -> occurrences u (remove_one t l) = occurrences u l.
Proof.
  intros H. unfold occurrences. induction l as [|x l IH]; simpl; [done|].
  destruct (x =? t) eqn:E; simpl.
  - destruct (u =? x) eqn:E'; [lia|done].
  - destruct (u =? x); simpl; by rewrite IH.
Qed.

Lemma occurrences_in t l : (0 < occurrences t l)%nat -> In t l.
Proof.
  unfold occurrences. intros H. destruct (List.filter (Z.eqb t) l) as [|x y] eqn:E; [simpl in H; lia|].
  assert (In x (List.filter (Z.eqb t) l)) as Hin by (rewrite E; by left).
  apply filter_In in Hin as [Hin Ht]. by apply Z.eqb_eq in Ht as ->.
Qed.

Lemma remove_one_nil t : remove_one t [] = [].
Proof. done. Qed.

(** What the frames that do not change counters push. *)
Lemma pushes_leaving f fs a : pushes f fs -> rw_frame f = false ->
  (number (reads_leaving a) fs <= number (reads_leaving a) [f])%nat /\
  (number (writes_leaving a) fs <= number (writes_leaving a) [f])%nat /\
  (number (writes_waiting a) fs <= number (writes_waiting a) [f])%nat /\
  Forall (fun g => entering g = false) fs.
Proof.
  intros H Hn. destruct f; simpl in *; try done;
    repeat match goal with
    | H : _ \/ _ |- _ => destruct H
    | H : exists _, _ |- _ => destruct H
    end; subst; try destruct reader; unfold number; simpl; split_and!;
    try (by repeat constructor); try lia; destruct (_ =? _); simpl; lia.
Qed.

Lemma effect_frames k k' f rest : effect k k' f rest -> exists fs, frames_eff k k' f fs rest.
Proof. intros []; eauto. Qed.

(** The frames of the other threads. *)
Lemma eff_other k k' f fs rest t : frames_eff k k' f fs rest -> t <> cur k ->
  frames k' t = frames k t \/ frames k' t = [FIntrEnable].
Proof.
  intros (_ & _ & [H|(u & n & p & _ & (_ & _ & Hu) & _ & H)]) Ht; [left; auto|].
  destruct (decide (t = u)) as [->|]; [by right|left; auto].
Qed.

Lemma leave_start r a t : leave_ok r a t [FIntrEnable].
Proof. unfold leave_ok, number. simpl. lia. Qed.

Lemma rw_quiet k k' f fs rest : rw_ok k -> frames k (cur k) = f :: rest ->
  frames_eff k k' f fs rest -> rw_frame f = false -> rws k' = rws k -> holder_eff k k' f ->
  (forall l t, f = FSetHolder l -> t <> cur k -> holder k l <> Some t) -> rw_ok k'.
Proof.
  intros [C X L En] Hf E Hn Hr Hh Hset.
  assert (Hhold : forall a t, t <> cur k -> holder k (RwGuard a) = Some t ->
    holder k' (RwGuard a) = Some t).
  { intros a t Ht Ha. destruct f; cbn [holder_eff] in Hh; try (by rewrite Hh).
    - rewrite Hh. case_decide; [|done]. subst. by destruct (Hset (RwGuard a) t).
    - destruct Hh as [Hc Hh]. rewrite Hh. case_decide; [|done]. subst. congruence. }
  pose proof E as (Hp & Hc & _). destruct (pushes_leaving f fs 0 Hp Hn) as (_ & _ & _ & Hplain).
  pose proof (En (cur k)) as Ec. rewrite Hf in Ec.
  split; try (intros a; rewrite Hr; auto; fail).
  - intros a t. rewrite Hr. destruct (decide (t = cur k)) as [->|Ht].
    + rewrite Hc. specialize (L a (cur k)). rewrite Hf in L. unfold leave_ok in *.
      rewrite !number_app. rewrite !(number_cons _ f rest) in L.
      destruct (pushes_leaving f fs a Hp Hn) as (? & ? & ? & _). lia.
    + destruct (eff_other _ _ _ _ _ t E Ht) as [->| ->]; [apply L|apply leave_start].
  - intros t. destruct (decide (t = cur k)) as [->|Ht].
    + rewrite Hc. destruct (wrapper f) eqn:W.
      * assert (fs = [] /\ holder k' = holder k) as [-> Eh].
        { destruct f; try done; by simpl in Hp. }
        intros g gs Eg. rewrite Hr, Eh. apply Ec. by rewrite strip_wrap.
      * destruct (Ec f rest) as [Hrest _]; [by apply strip_cons|].
        apply enter_plain, Forall_app. by split.
    + destruct (eff_other _ _ _ _ _ t E Ht) as [->| ->]; [|by apply enter_plain; repeat constructor].
      intros g gs Eg. destruct (En t g gs Eg) as [Hg Hm]. split; [done|]. rewrite Hr.
      destruct g; try done.
      * destruct Hm. split; [by apply Hhold|done].
      * destruct Hm as (? & ? & ?). split; [by apply Hhold|done].
Qed.

(** A frame that changes the counters of lock [a]. *)
Lemma rw_change k k' f fs rest a r' : rw_ok k -> frames k (cur k) = f :: rest ->
  frames_eff k k' f fs rest -> rw_frame f = true -> holder k' = holder k ->
  (forall b, rws k' b = if decide (b = a) then r' else rws k b) ->
  counts_ok r' -> excl_ok r' ->
  (forall b, b <> a -> number (reads_leaving b) fs = number (reads_leaving b) [f] /\
     number (writes_leaving b) fs = number (writes_leaving b) [f] /\
     number (writes_waiting b) fs = number (writes_waiting b) [f]) ->
  (forall t, t <> cur k -> occurrences t (readers r') = occurrences t (readers (rws k a)) /\
     occurrences t (writers r') = occurrences t (writers (rws k a)) /\
     occurrences t (waiting_writers r') = occurrences t (waiting_writers (rws k a))) ->
  (occurrences (cur k) (readers (rws k a)) + number (reads_leaving a) fs <=
     occurrences (cur k) (readers r') + number (reads_leaving a) [f] /\
   occurrences (cur k) (writers (rws k a)) + number (writes_leaving a) fs <=
     occurrences (cur k) (writers r') + number (writes_leaving a) [f] /\
   occurrences (cur k) (waiting_writers (rws k a)) + number (writes_waiting a) fs <=
     occurrences (cur k) (waiting_writers r') + number (writes_waiting a) [f])%nat ->
  (forall g gs, fs = g :: gs -> wrapper g = false /\ Forall (fun x => entering x = false) gs /\
    match g with
    | FRwReadEnter b => holder k (RwGuard b) = Some (cur k) /\ b = a /\ writers r' = []
    | FRwWriteEnter b => holder k (RwGuard b) = Some (cur k) /\ b = a /\ writers r' = [] /\
        readers r' = []
    | _ => True
    end) ->
  holder k (RwGuard a) = Some (cur k) \/
    ((writers (rws k a) = [] -> writers r' = []) /\ (readers (rws k a) = [] -> readers r' = [])) ->
  rw_ok k'.
Proof.
  intros [C X L En] Hf E Hn Hh Hr HC HX Hb Ht Hcur Hfs Hmono.
  pose proof E as (Hp & Hc & _).
  assert (Hw : wrapper f = false) by (by destruct f).
  destruct (En (cur k) f rest) as [Hrest _]; [rewrite Hf; by apply strip_cons|].
  split.
  - intros b. rewrite Hr. case_decide; auto.
  - intros b. rewrite Hr. case_decide; auto.
  - intros b t. rewrite Hr. destruct (decide (t = cur k)) as [->|Hne].
    + rewrite Hc. pose proof (L b (cur k)) as Lb. rewrite Hf in Lb. unfold leave_ok in *.
      rewrite !number_app. rewrite !(number_cons _ f rest) in Lb. case_decide as Eb.
      * subst b. lia.
      * destruct (Hb b Eb) as (-> & -> & ->). done.
    + destruct (eff_other _ _ _ _ _ t E Hne) as [->| ->]; [|apply leave_start].
      case_decide as Eb; [|apply L]. subst b. destruct (Ht t Hne) as (H1 & H2 & H3).
      pose proof (L a t) as La. unfold leave_ok in *. by rewrite H1, H2, H3.
  - intros t. destruct (decide (t = cur k)) as [->|Hne].
    + rewrite Hc. destruct fs as [|g gs]; [by apply enter_plain|].
      destruct (Hfs g gs eq_refl) as (Wg & Hgs & Hg). intros x xs Ex.
      change ((g :: gs) ++ rest) with (g :: (gs ++ rest)) in Ex.
      rewrite strip_cons in Ex by done. injection Ex as <- <-. split; [by apply Forall_app|].
      destruct g; try done; rewrite Hh, Hr.
      * destruct Hg as (H1 & -> & H2). by rewrite decide_True.
      * destruct Hg as (H1 & -> & H2). by rewrite decide_True.
    + destruct (eff_other _ _ _ _ _ t E Hne) as [->| ->]; [|by apply enter_plain; repeat constructor].
      intros g gs Eg. destruct (En t g gs Eg) as [Hg Hm]. split; [done|].
      destruct g; try done; rewrite Hh, Hr; case_decide as Ea; try done; subst;
        (destruct Hmono as [Hme|[M1 M2]]; [destruct Hm; congruence|naive_solver]).
Qed.

(** A thread about to run a frame of the guarded region holds the guard. *)
Lemma guard_held k φ f rest a : lock_ok k φ -> frames k (cur k) = f :: rest ->
  (forall ph, fphase (RwGuard a) f ph <> None -> ph = Held) ->
  holder k (RwGuard a) = Some (cur k).
Proof.
  intros L Hf Hp. apply (lo_held k φ L). apply Hp. intros E.
  destruct (lo_typed k φ L (RwGuard a) (cur k)) as (p & Ep & _). rewrite Hf in Ep. simpl in Ep.
  by rewrite E in Ep.
Qed.

Lemma holder_other k φ l rest t : lock_ok k φ -> frames k (cur k) = FSetHolder l :: rest ->
  t <> cur k -> holder k l <> Some t.
Proof.
  intros L Hf Ht Hh. apply (lo_held k φ L) in Hh.
  destruct (lo_typed k φ L l (cur k)) as (p & Ep & _). rewrite Hf in Ep. simpl in Ep.
  rewrite decide_True in Ep by done.
  destruct (lo_value k φ L l) as [[_ Ho]|[_ (u & _ & Hu)]]; [by rewrite Ho in Hh|].
  apply Ht. rewrite (Hu t) by congruence. symmetry. apply Hu. by destruct (φ l (cur k)).
Qed.

Lemma occurrences_cons t u l :
  occurrences t (u :: l) = ((if (t =? u)%Z then 1 else 0) + occurrences t l)%nat.
Proof. unfold occurrences. simpl. by destruct (t =? u). Qed.

Section RwStep.
Context (k k' : kernel P) (φ : lock_id -> Z -> phase) (f : frame) (rest fs : list frame) (a : Z).
Context (R : rw_ok k) (L : lock_ok k φ) (Hf : frames k (cur k) = f :: rest).
Context (E : frames_eff k k' f fs rest) (Hh : holder k' = holder k).

(** The two tests. *)
Lemma rw_test_step r' : 
  (f = FRwReadTest a \/ f = FRwWriteTest a) ->
  (forall b, rws k' b = if decide (b = a) then r' else rws k b) ->
  readers r' = readers (rws k a) -> writers r' = writers (rws k a) -> counts_ok r' ->
  (forall t, t <> cur k -> occurrences t (waiting_writers r') =
     occurrences t (waiting_writers (rws k a))) ->
  (occurrences (cur k) (waiting_writers (rws k a)) + number (writes_waiting a) fs <=
     occurrences (cur k) (waiting_writers r'))%nat ->
  (fs = [FRwReadEnter a; FLockRelease (RwGuard a)] -> writers (rws k a) = []) ->
  (fs = [FRwWriteEnter a; FLockRelease (RwGuard a)] ->
     writers (rws k a) = [] /\ readers (rws k a) = []) ->
  rw_ok k'.
Proof.
  intros Hk Hr E1 E2 HC Ht Hw Henr Henw.
  assert (Hg : holder k (RwGuard a) = Some (cur k)).
  { eapply guard_held; [done|exact Hf|]. intros ph Hph.
    destruct Hk as [->| ->]; simpl in Hph; rewrite decide_True in Hph by done; by destruct ph. }
  pose proof E as (Hp & _ & _).
  assert (Hfs : fs = [FCondWait (RwRead a) (RwGuard a); FRwReadWoken a; FRwReadTest a] \/
    fs = [FRwReadEnter a; FLockRelease (RwGuard a)] \/
    fs = [FCondWait (RwWrite a) (RwGuard a); FRwWriteWoken a; FRwWriteTest a] \/
    fs = [FRwWriteEnter a; FLockRelease (RwGuard a)]).
  { destruct Hk as [->| ->]; simpl in Hp; naive_solver. }
  assert (Hn : forall b, number (reads_leaving b) fs = 0%nat /\ number (writes_leaving b) fs = 0%nat /\
    (b <> a -> number (writes_waiting b) fs = 0%nat)).
  { intros b. destruct Hfs as [->|[->|[->| ->]]]; unfold number; simpl; split_and!; try done;
      intros Hb; try done. rewrite (proj2 (Z.eqb_neq a b)) by congruence. done. }
  assert (Hnf : forall b, number (reads_leaving b) [f] = 0%nat /\ number (writes_leaving b) [f] = 0%nat /\
    number (writes_waiting b) [f] = 0%nat) by (intros b; by destruct Hk as [->| ->]).
  apply (rw_change k k' f fs rest a r'); try done.
  - by destruct Hk as [->| ->].
  - unfold excl_ok. rewrite E1, E2. apply R.
  - intros b Hb. destruct (Hn b) as (-> & -> & Hb2). rewrite (Hb2 Hb). by destruct (Hnf b) as (-> & -> & ->).
  - intros t Hne. rewrite E1, E2. auto.
  - destruct (Hn a) as (-> & -> & _). destruct (Hnf a) as (-> & -> & ->). rewrite E1, E2. lia.
  - intros g gs Eg. destruct Hfs as [->|[->|[->| ->]]]; injection Eg as <- <-; split_and!;
      try done; try (by repeat constructor); rewrite ?E1, ?E2; try (by apply Henr); by apply Henw.
  - by left.
Qed.
End RwStep.

Lemma rw_step k k' φ f rest : rw_ok k -> lock_ok k φ -> frames k (cur k) = f :: rest ->
  effect k k' f rest -> run1 k = Ret k' -> rw_ok k'.
Proof.
  intros R L Hf Eff H. destruct (effect_frames _ _ _ _ Eff) as [fs E].
  destruct (run1_state k k' f rest Hf H) as (Hr & Hh & _).
  destruct (rw_frame f) eqn:Hn.
  2:{ eapply rw_quiet; try done; [by apply Hr|]. intros l t -> Ht. by eapply holder_other. }
  assert (Ho : holder k' = holder k) by (by destruct f). clear Hr Hh.
  unfold run1 in H. rewrite Hf in H. fold (popped k rest) in H.
  pose proof E as (Hp & Hc & _).
  pose proof (ro_leave k R) as Lv.
  assert (Hfs : forall gs, frames k' (cur k) = gs ++ rest -> fs = gs).
  { intros gs Eg. rewrite Eg in Hc. by apply app_inv_tail in Hc. }
  destruct f; try done; cbn [exec] in H; clear Hp Hc; destruct (ro_counts k R a) as (CA & CW & CWW);
    pose proof (ro_excl k R a) as X; pose proof (Lv a (cur k)) as La; rewrite Hf in La;
    destruct La as (La1 & La2 & La3); rewrite number_cons in La1;
    rewrite number_cons in La2; rewrite number_cons in La3.
  - unfold rw_read_test in H. simpl in H.
    destruct (0 <? AW (rws k a) + WW (rws k a)) eqn:T; injection H as <-.
    + assert (fs = [FCondWait (RwRead a) (RwGuard a); FRwReadWoken a; FRwReadTest a]) as ->
        by (apply Hfs; simpl; by rewrite !fset_eq).
      by apply (rw_test_step k _ φ _ rest _ a R L Hf E Ho (mk_rw (AR (rws k a)) (WR (rws k a) + 1)
        (AW (rws k a)) (WW (rws k a)) (readers (rws k a)) (writers (rws k a))
        (waiting_writers (rws k a)))); [by left|by intros b|..]; try (by intros);
        unfold number; simpl; lia.
    + assert (fs = [FRwReadEnter a; FLockRelease (RwGuard a)]) as ->
        by (apply Hfs; simpl; by rewrite !fset_eq).
      apply (rw_test_step k _ φ _ rest _ a R L Hf E Ho (rws k a)); try done; [by left| | |].
      * intros b. simpl. by case_decide; subst.
      * unfold number. simpl. lia.
      * intros _. destruct (writers (rws k a)); [done|]. simpl in CW. lia.
  - injection H as <-. assert (fs = []) as -> by (apply Hfs; simpl; by rewrite fset_eq).
    apply (rw_change k _ (FRwReadWoken a) [] rest a (mk_rw (AR (rws k a)) (WR (rws k a) - 1)
        (AW (rws k a)) (WW (rws k a)) (readers (rws k a)) (writers (rws k a))
        (waiting_writers (rws k a)))); try done.
    by right.
  - injection H as <-. assert (fs = []) as -> by (apply Hfs; simpl; by rewrite fset_eq).
    destruct (ro_enter k R (cur k) (FRwReadEnter a) rest) as (_ & Hg & Hw); [by rewrite Hf|].
    apply (rw_change k _ (FRwReadEnter a) [] rest a (mk_rw (AR (rws k a) + 1) (WR (rws k a))
        (AW (rws k a)) (WW (rws k a)) (cur k :: readers (rws k a)) (writers (rws k a))
        (waiting_writers (rws k a)))); try done.
    + unfold counts_ok. simpl. lia.
    + by left.
    + intros t Ht. cbn [readers writers waiting_writers]. rewrite occurrences_cons. by rewrite (proj2 (Z.eqb_neq t (cur k))).
    + cbn [readers writers waiting_writers]. rewrite occurrences_cons, Z.eqb_refl.
      unfold number. simpl. lia.
    + by left.
  - unfold rw_write_test in H. simpl in H.
    destruct (0 <? AR (rws k a) + AW (rws k a)) eqn:T; injection H as <-.
    + assert (fs = [FCondWait (RwWrite a) (RwGuard a); FRwWriteWoken a; FRwWriteTest a]) as ->
        by (apply Hfs; simpl; by rewrite !fset_eq).
      apply (rw_test_step k _ φ _ rest _ a R L Hf E Ho (mk_rw (AR (rws k a)) (WR (rws k a))
        (AW (rws k a)) (WW (rws k a) + 1) (readers (rws k a)) (writers (rws k a))
        (cur k :: waiting_writers (rws k a)))); [by right|by intros b|..]; try (by intros).
      * unfold counts_ok. simpl. lia.
      * intros t Ht. cbn [readers writers waiting_writers]. rewrite occurrences_cons. by rewrite (proj2 (Z.eqb_neq t (cur k))).
      * cbn [waiting_writers]. rewrite occurrences_cons, Z.eqb_refl. unfold number. simpl.
        rewrite Z.eqb_refl. simpl. lia.
    + assert (fs = [FRwWriteEnter a; FLockRelease (RwGuard a)]) as ->
        by (apply Hfs; simpl; by rewrite !fset_eq).
      apply (rw_test_step k _ φ _ rest _ a R L Hf E Ho (rws k a)); try done; [by right| | |].
      * intros b. simpl. by case_decide; subst.
      * unfold number. simpl. lia.
      * intros _. destruct (writers (rws k a)), (readers (rws k a)); simpl in *; try done; lia.
  - injection H as <-. assert (fs = []) as -> by (apply Hfs; simpl; by rewrite fset_eq).
    assert (Hin : In (cur k) (waiting_writers (rws k a))).
    { apply occurrences_in. unfold number in La3 at 1. simpl in La3. rewrite Z.eqb_refl in La3.
      simpl in La3. lia. }
    destruct (occurrences_remove _ _ Hin) as [O1 O2].
    apply (rw_change k _ (FRwWriteWoken a) [] rest a (mk_rw (AR (rws k a)) (WR (rws k a))
        (AW (rws k a)) (WW (rws k a) - 1) (readers (rws k a)) (writers (rws k a))
        (remove_one (cur k) (waiting_writers (rws k a))))); try done.
    + unfold counts_ok. simpl. lia.
    + intros b Hb. unfold number. simpl. by rewrite (proj2 (Z.eqb_neq a b)) by congruence.
    + intros t Ht. cbn [readers writers waiting_writers]. by rewrite occurrences_remove_ne.
    + cbn [readers writers waiting_writers]. unfold number. simpl. rewrite Z.eqb_refl. simpl. lia.
    + by right.
  - injection H as <-. assert (fs = []) as -> by (apply Hfs; simpl; by rewrite fset_eq).
    destruct (ro_enter k R (cur k) (FRwWriteEnter a) rest) as (_ & Hg & Hw & Hrd); [by rewrite Hf|].
    apply (rw_change k _ (FRwWriteEnter a) [] rest a (mk_rw (AR (rws k a)) (WR (rws k a))
        (AW (rws k a) + 1) (WW (rws k a)) (readers (rws k a)) (cur k :: writers (rws k a))
        (waiting_writers (rws k a)))); try done.
    + unfold counts_ok. simpl. lia.
    + right. simpl. by rewrite Hw.
    + intros t Ht. cbn [readers writers waiting_writers]. rewrite occurrences_cons. by rewrite (proj2 (Z.eqb_neq t (cur k))).
    + cbn [readers writers waiting_writers]. rewrite occurrences_cons, Z.eqb_refl.
      unfold number. simpl. lia.
    + by left.
  - injection H as <-. assert (fs = []) as -> by (apply Hfs; simpl; by rewrite fset_eq).
    assert (Hin : In (cur k) (readers (rws k a))).
    { apply occurrences_in. unfold number in La1 at 1. simpl in La1. rewrite Z.eqb_refl in La1.
      simpl in La1. lia. }
    destruct (occurrences_remove _ _ Hin) as [O1 O2].
    apply (rw_change k _ (FRwReadLeave a) [] rest a (mk_rw (AR (rws k a) - 1) (WR (rws k a))
        (AW (rws k a)) (WW (rws k a)) (remove_one (cur k) (readers (rws k a))) (writers (rws k a))
        (waiting_writers (rws k a)))); try done.
    + unfold counts_ok. simpl. lia.
    + destruct X as [X|[_ X]]; [by left|]. by rewrite X in Hin.
    + intros b Hb. unfold number. simpl. by rewrite (proj2 (Z.eqb_neq a b)) by congruence.
    + intros t Ht. cbn [readers writers waiting_writers]. by rewrite occurrences_remove_ne.
    + cbn [readers writers waiting_writers]. unfold number. simpl. rewrite Z.eqb_refl. simpl. lia.
    + right. split; [done|]. intros Er. by rewrite Er in Hin.
  - injection H as <-. assert (fs = []) as -> by (apply Hfs; simpl; by rewrite fset_eq).
    assert (Hin : In (cur k) (writers (rws k a))).
    { apply occurrences_in. unfold number in La2 at 1. simpl in La2. rewrite Z.eqb_refl in La2.
      simpl in La2. lia. }
    destruct (occurrences_remove _ _ Hin) as [O1 O2].
    destruct X as [X|[X1 X2]]; [by rewrite X in Hin|].
    apply (rw_change k _ (FRwWriteLeave a) [] rest a (mk_rw (AR (rws k a)) (WR (rws k a))
        (AW (rws k a) - 1) (WW (rws k a)) (readers (rws k a)) (remove_one (cur k) (writers (rws k a)))
        (waiting_writers (rws k a)))); try done.
    + unfold counts_ok. simpl. lia.
    + left. simpl. destruct (remove_one _ _); [done|simpl in *; lia].
    + intros b Hb. unfold number. simpl. by rewrite (proj2 (Z.eqb_neq a b)) by congruence.
    + intros t Ht. cbn [readers writers waiting_writers]. by rewrite occurrences_remove_ne.
    + cbn [readers writers waiting_writers]. unfold number. simpl. rewrite Z.eqb_refl. simpl. lia.
    + right. split; [|done]. intros Ew. by rewrite Ew in Hin.
Qed.

(** * The invariant of the kernel *)

Record kinv k : Prop := {
  kv_sched : sched_part k;
  kv_conds : conds_ok k;
  kv_lock : exists φ, lock_ok k φ;
  kv_rw : rw_ok k
}.

Lemma typed_head k φ f rest : lock_ok k φ -> frames k (cur k) = f :: rest ->
  (forall s, f <> FIdle s) /\ (forall n p s, f <> FThreadCreate n p (Some s)).
Proof.
  intros L Hf. destruct (lo_typed k φ L TidLock (cur k)) as (p & E & _). rewrite Hf in E.
  split; by intros; intros ->.
Qed.

Lemma run_kinv k k' : kinv k -> run1 k = Ret k' -> kinv k'.
Proof.
  intros [S C [φ L] R] H. destruct (frames k (cur k)) as [|f rest] eqn:Hf.
  { unfold run1 in H. by rewrite Hf in H. }
  destruct (typed_head k φ f rest L Hf) as [H1 H2].
  pose proof (sched_part_about k f rest S Hf) as A.
  split.
  - by eapply about_step.
  - by eapply run1_state.
  - eapply run1_lock; try done; apply S.
  - eapply rw_step; try done. eapply run1_effect; try done; [apply S|].
    intros -> E. by pose proof (cur_idle_frame k FExit rest A E).
Qed.

Lemma call_rw k f : rw_ok k -> frames k (cur k) = [] -> client_ok k f -> rw_ok (push k [f]).
Proof.
  intros R Hf C. split; try apply R.
  - intros a t. simpl. destruct (decide (t = cur k)) as [->|Hn].
    + rewrite fset_eq, Hf. pose proof (ro_leave k R a (cur k)) as La. rewrite Hf in La.
      unfold leave_ok, number in *. simpl in *.
      destruct f; simpl in *; try done. destruct reader; simpl; destruct (a0 =? a) eqn:E; simpl;
        try done; apply Z.eqb_eq in E as ->; apply list_elem_of_In in C; split_and!; try lia.
      * destruct (occurrences_remove _ _ C). lia.
      * destruct (occurrences_remove _ _ C). lia.
    + rewrite fset_ne by done. apply R.
  - intros t. simpl. destruct (decide (t = cur k)) as [->|Hn].
    + rewrite fset_eq, Hf. apply enter_plain. constructor; [by destruct f|constructor].
    + rewrite fset_ne by done. apply R.
Qed.

Lemma call_kinv k f k' : kinv k -> frames k (cur k) = [] -> client_ok k f ->
  run1 (push k [f]) = Ret k' -> kinv k'.
Proof.
  intros [S C [φ L] R] Hf Hc H.
  assert (Hnew : new_of f = []) by (by destruct f).
  pose proof (call_about k f S Hf Hnew) as A.
  assert (Hpf : frames (push k [f]) (cur (push k [f])) = [f]) by (simpl; by rewrite fset_eq, Hf).
  assert (Hid : forall s, f <> FIdle s) by (by intros s ->).
  assert (Hth : forall n p s, f <> FThreadCreate n p (Some s)) by (by intros n p s ->).
  assert (S' : sched_part k') by (by eapply about_step).
  destruct (run1_state _ k' f [] Hpf H) as (Hr & Hh & HC). specialize (HC C).
  assert (Eff : effect (push k [f]) k' f []).
  { eapply run1_effect; try done; [apply S|].
    intros -> E. by pose proof (cur_idle_frame _ FExit [] A E). }
  pose proof (call_rw k f R Hf Hc) as R'.
  assert ((exists a, f = FLockTryAcquire (Lock a)) \/ forall l, f <> FLockTryAcquire l)
    as [[a ->]|Ht].
  { destruct f; try (by right). destruct l; try done. left. by eexists. }
  - split; try done; [by eapply try_acquire_lock|].
    destruct (effect_frames _ _ _ _ Eff) as [fs E].
    eapply rw_quiet; try done; [by apply Hr].
  - pose proof (call_lock k k' φ f L Hf Hc Ht H) as L'.
    split; try done.
    + eapply (run1_lock (push k [f])); try done; apply A.
    + by eapply rw_step.
Qed.

Lemma tick_kinv k k' : kinv k -> timer_tick k = Ret k' -> kinv k'.
Proof.
  intros [S C [φ L] R] H. split.
  - by eapply tick_sched.
  - unfold timer_tick in H. apply obind_Ret in H as ([s y] & _ & H). by injection H as <-.
  - exists φ. by eapply tick_lock.
  - unfold timer_tick in H. apply obind_Ret in H as ([s y] & _ & H). injection H as <-.
    split; try apply R.
    + intros a t. simpl. destruct (decide (t = cur k)) as [->|Hn]; [|rewrite fset_ne by done; apply R].
      rewrite fset_eq. pose proof (ro_leave k R a (cur k)) as La. unfold leave_ok in *.
      by destruct y.
    + intros t. simpl. destruct (decide (t = cur k)) as [->|Hn]; [|rewrite fset_ne by done; apply R].
      rewrite fset_eq. intros f gs E. apply (ro_enter k R (cur k) f gs). by destruct y.
Qed.

Lemma step_kinv k k' : kinv k -> step k k' -> kinv k'.
Proof. intros K []; eauto using run_kinv, call_kinv, tick_kinv. Qed.

Lemma steps_kinv k k' : kinv k -> steps k k' -> kinv k'.
Proof. intros K H. induction H; eauto using step_kinv. Qed.

(** ** Initial states: after [thread_start], with every synchronisation object fresh. *)
Record initial k : Prop := {
  in_sched : sched_inv (sc k);
  in_idle : is_Some (threads (sc k) !! idle_thread (sc k));
  in_halt : frames k (idle_thread (sc k)) = [FIdleHalt];
  in_frames t : t <> idle_thread (sc k) -> frames k t = [];
  in_semas s : waiters (semas k s) = [];
  in_locks l : semas k (LockSema l) = snd lock_init /\ holder k l = fst lock_init;
  in_conds c : conds k c = cond_init;
  in_rws a : rws k a = rw_lock_init
}.

Lemma initial_kinv k : initial k -> kinv k.
Proof.
  intros [S I Ha F W Lk C R].
  assert (Hno : forall t f, f ∈ frames k t -> f = FIdleHalt).
  { intros t f Hf. destruct (decide (t = idle_thread (sc k))) as [->|Ht].
    - rewrite Ha in Hf. by apply list_elem_of_singleton in Hf.
    - rewrite F in Hf by done. by apply not_elem_of_nil in Hf. }
  assert (Hnews : forall u, news (frames k u) = []).
  { intros t. destruct (decide (t = idle_thread (sc k))) as [->|Ht]; [by rewrite Ha|by rewrite F]. }
  assert (Hnum : forall p t, p FIdleHalt = false -> number p (frames k t) = 0%nat).
  { intros p t Hp. destruct (decide (t = idle_thread (sc k))) as [->|Ht]; [|by rewrite F].
    rewrite Ha. unfold number. simpl. by rewrite Hp. }
  split.
  - split; try done.
    + intros t Ht. apply F. intros ->. destruct I as [x Hx]. congruence.
    + split; [done|]. rewrite Ha. split; [by repeat constructor|]. right. by left.
    + intros s. rewrite W. split; [constructor|]. intros t Ht. by apply not_elem_of_nil in Ht.
    + split_and!.
      * intros u. rewrite Hnews. constructor.
      * intros u u' t. rewrite Hnews. intros Ht. by apply not_elem_of_nil in Ht.
      * intros u t. rewrite Hnews. intros Ht. by apply not_elem_of_nil in Ht.
    + intros t Ht. by apply Hno in Ht.
  - intros c w. rewrite C. intros Hw. by apply not_elem_of_nil in Hw.
  - exists (fun _ _ => Out). split.
    + intros l t. destruct (decide (t = idle_thread (sc k))) as [->|Ht]; [rewrite Ha|rewrite F by done];
        exists Out; by destruct l.
    + intros l t. destruct (Lk l) as [_ ->]. done.
    + intros l. left. unfold lval. destruct (Lk l) as [-> _]. done.
  - split.
    + intros a. by rewrite R.
    + intros a. rewrite R. by left.
    + intros a t. unfold leave_ok. rewrite !Hnum by done. lia.
    + intros t. apply enter_plain, Forall_forall. intros f Hf. by apply Hno in Hf as ->.
Qed.

(** * Properties *)

(** A thread is inside a lock from the moment it has passed the lock's semaphore until it has
    released it again. *)
Definition inside k (l : lock_id) (t : Z) : Prop :=
  holder k l = Some t \/
  exists f fs, strip (frames k t) = f :: fs /\ (f = FSetHolder l \/ f = FSemaUp (LockSema l)).

Lemma inside_phase k φ l t : lock_ok k φ -> inside k l t -> φ l t <> Out.
Proof.
  intros L [H|(f & fs & E & Hf)] Ho.
  - apply (lo_held k φ L) in H. congruence.
  - destruct (lo_typed k φ L l t) as (p & Ep & _). rewrite Ho in Ep.
    assert (forall gs, fphases l gs Out = fphases l (strip gs) Out) as Hs.
    { intros gs. induction gs as [|g gs IH]; [done|]. destruct g; done. }
    rewrite Hs, E in Ep. destruct Hf as [->| ->]; simpl in Ep; by rewrite decide_True in Ep by done.
Qed.

(** C1.  Locks are mutually exclusive in every state the kernel can reach, whatever the threads
    call and wherever the timer preempts them: two threads are never inside the same lock, and
    its semaphore is 0 when one is. *)
Theorem lock_mutual_exclusion k0 k l t t' (Init : initial k0) (Reach : steps k0 k)
    (In1 : inside k l t) (In2 : inside k l t') :
  t = t' /\ value (semas k (LockSema l)) = 0.
Proof.
  destruct (steps_kinv _ _ (initial_kinv _ Init) Reach) as [_ _ [φ L] _].
  pose proof (inside_phase k φ l t L In1) as H1. pose proof (inside_phase k φ l t' L In2) as H2.
  destruct (lo_value k φ L l) as [[_ Ho]|[E (u & _ & Hu)]]; [by rewrite Ho in H1|].
  split; [|exact E]. rewrite (Hu t H1). symmetry. by apply Hu.
Qed.

(** C2.  A readers-writers lock keeps its promise in every reachable state: at most one writer
    is inside, no reader is inside together with a writer, and the counters [AR] and [AW] are
    the numbers of threads inside. *)
Theorem rw_lock_exclusion k0 k a (Init : initial k0) (Reach : steps k0 k) :
  AR (rws k a) = Z.of_nat (length (readers (rws k a))) /\
  AW (rws k a) = Z.of_nat (length (writers (rws k a))) /\
  WW (rws k a) = Z.of_nat (length (waiting_writers (rws k a))) /\
  (writers (rws k a) = [] \/ (length (writers (rws k a)) = 1%nat /\ readers (rws k a) = [])).
Proof.
  destruct (steps_kinv _ _ (initial_kinv _ Init) Reach) as [_ _ _ R].
  destruct (ro_counts k R a) as (? & ? & ?). split_and!; try done. apply R.
Qed.

(** C3.  In every reachable state exactly the running thread has status [THREAD_RUNNING]; the
    ready list has no duplicates and holds exactly the ready threads, the idle thread apart;
    the threads on waiting lists are blocked inside [sema_down] on that very semaphore, so no
    thread waits twice; and threads without a structure have no pending code. *)
Theorem scheduler_invariant k0 k (Init : initial k0) (Reach : steps k0 k) :
  (forall t, has_status (sc k) t THREAD_RUNNING <-> t = cur k) /\
  NoDup (fifo_ready_list (sc k)) /\
  (forall t, t <> idle_thread (sc k) ->
     t ∈ fifo_ready_list (sc k) <-> has_status (sc k) t THREAD_READY) /\
  (forall s t, t ∈ waiters (semas k s) -> has_status (sc k) t THREAD_BLOCKED /\
     exists old fs, frames k t = FSemaRetry s old :: fs) /\
  (forall s s' t, t ∈ waiters (semas k s) -> t ∈ waiters (semas k s') -> s = s') /\
  (forall t, threads (sc k) !! t = None -> frames k t = []).
Proof.
  destruct (steps_kinv _ _ (initial_kinv _ Init) Reach) as [[S D _ W _ _] _ _ _].
  destruct S as [B R U]. split_and!.
  - intros t. split; [apply U|by intros ->].
  - apply B.
  - intros t Ht. split; [apply (sb_ready _ _ B)|].
    intros H. by destruct (sb_ready_inv _ _ B t H).
  - intros s. apply W.
  - intros s s' t H1 H2. apply W in H1 as (_ & o & fs & E1). apply W in H2 as (_ & o' & fs' & E2).
    congruence.
  - exact D.
Qed.
End Inv.

(** ** Witnesses: the initial thread and the idle thread; the first takes a lock *)

Definition ex_main : Z := 0xc000e000.
Definition ex_idle : Z := 0xc0101000.
Definition ex_thread (n : Z) (st : thread_status) : thread :=
  mk_thread n st "t" 0 PRI_DEFAULT None.
Definition ex_sched : sched palloc_state :=
  mk_sched (<[ex_main := ex_thread 1 THREAD_RUNNING]> {[ex_idle := ex_thread 2 THREAD_BLOCKED]})
    [] [ex_main; ex_idle] ex_idle ex_main ex_main 3 0 0 0 0 SCHED_FIFO true false false ex_palloc.
Definition ex_kernel : kernel palloc_state :=
  mk_kernel ex_sched (fset (fun _ => []) ex_idle [FIdleHalt])
    (fun s => match s with LockSema _ => snd lock_init | _ => sema_init 0 end)
    (fun _ => fst lock_init) (fun _ => cond_init) (fun _ => rw_lock_init).

Lemma ex_status t st : has_status ex_sched t st <->
  (t = ex_main /\ st = THREAD_RUNNING) \/ (t = ex_idle /\ st = THREAD_BLOCKED).
Proof.
  unfold has_status. simpl. split.
  - intros (th & H & <-). apply lookup_insert_Some in H as [[<- <-]|[_ H]]; [by left|].
    apply lookup_singleton_Some in H as [<- <-]. by right.
  - intros [[-> ->]|[-> ->]].
    + exists (ex_thread 1 THREAD_RUNNING). by rewrite lookup_insert_eq.
    + exists (ex_thread 2 THREAD_BLOCKED). by rewrite lookup_insert_ne, lookup_singleton_eq.
Qed.

Lemma ex_sched_inv : sched_inv ex_sched.
Proof.
  split; [split; try done| |].
  - constructor.
  - intros t Ht. by apply not_elem_of_nil in Ht.
  - intros t [[_ ?]|[_ ?]]%ex_status; done.
  - by_compute.
  - intros t. change (all_list ex_sched) with [ex_main; ex_idle].
    rewrite elem_of_cons, list_elem_of_singleton. split.
    + intros [-> | ->]; [exists (ex_thread 1 THREAD_RUNNING)|exists (ex_thread 2 THREAD_BLOCKED)];
        simpl; [by rewrite lookup_insert_eq|by rewrite lookup_insert_ne, lookup_singleton_eq].
    + intros (th & H & _). assert (has_status ex_sched t (status th)) as Hs by (by exists th).
      apply ex_status in Hs. tauto.
  - intros t [[_ ?]|[_ ?]]%ex_status; done.
  - intros [[_ ?]|[_ ?]]%ex_status; done.
  - apply ex_palloc_ok.
  - intros t [st Hst]%is_Some_status. apply ex_status in Hst as [[-> _]|[-> _]].
    + split; [done|by left].
    + split; [done|right]. split_and!; [done|done|done|].
      intros [|] F; vm_compute in F |- *; discriminate.
  - apply ex_status. by left.
  - intros t [[-> _]|[_ ?]]%ex_status; done.
Qed.

Lemma ex_initial : initial ex_kernel.
Proof.
  split; try done.
  - apply ex_sched_inv.
  - intros t Ht. simpl. by rewrite fset_ne.
  - by intros s; destruct s.
Qed.

(** The initial thread calls [lock_acquire] and runs until it holds the lock. *)
Definition ex_after (fs : list frame) (n : nat) : kernel palloc_state :=
  match run n (push ex_kernel fs) with Ret k => k | _ => ex_kernel end.

Lemma ex_steps_lock : steps ex_kernel (ex_after [FLockAcquire (Lock 7)] 3).
Proof.
  apply steps_step with (ex_after [FLockAcquire (Lock 7)] 2).
  - apply steps_step with (ex_after [FLockAcquire (Lock 7)] 1).
    + apply steps_step with ex_kernel; [apply steps_refl|].
      apply step_call with (FLockAcquire (Lock 7)); [reflexivity|exact I|vm_compute; reflexivity].
    + apply step_run. vm_compute. reflexivity.
  - apply step_run. vm_compute. reflexivity.
Qed.

Lemma lock_mutual_exclusion_witness :
  ex_main = ex_main /\ value (semas (ex_after [FLockAcquire (Lock 7)] 3) (LockSema (Lock 7))) = 0.
Proof.
  apply (lock_mutual_exclusion ex_kernel _ (Lock 7) ex_main ex_main ex_initial ex_steps_lock);
    left; vm_compute; reflexivity.
Defined.

Lemma ex_steps_write : steps ex_kernel (ex_after [FRwAcquire 9 false] 1).
Proof.
  apply steps_step with ex_kernel; [apply steps_refl|].
  apply step_call with (FRwAcquire 9 false); [reflexivity|exact I|vm_compute; reflexivity].
Qed.

Lemma rw_lock_exclusion_witness :
  AW (rws (ex_after [FRwAcquire 9 false] 1) 9) =
    Z.of_nat (length (writers (rws (ex_after [FRwAcquire 9 false] 1) 9))).
Proof.
  destruct (rw_lock_exclusion ex_kernel _ 9 ex_initial ex_steps_write) as (_ & E & _). exact E.
Defined.

Lemma scheduler_invariant_witness :
  has_status (sc (ex_after [FLockAcquire (Lock 7)] 3)) ex_main THREAD_RUNNING.
Proof.
  destruct (scheduler_invariant ex_kernel _ ex_initial ex_steps_lock) as (H & _).
  apply H. vm_compute. reflexivity.
Defined.
