(* ===== verification/KString.v ===== *)
(** The C string library of the kernel (lib/string.c): block operations, searches, bounded
    copies and the tokenizer [strtok_r], over the byte memory of Palloc.  The loops that scan
    to a null byte take fuel; the theorems show that one more than the length of the string
    is enough. *)
From S2P Require Import Prelude Palloc.

(** * Definitions

    [rd] reads an unsigned char and [wr] stores the low byte of a value.  Addresses are
    integers: an object does not wrap around the end of the address space. *)

Definition rd (m : memory) (a : Z) : Z := u8 (m a).
Definition wr (m : memory) (a v : Z) : memory := fun x => if x =? a then u8 v else m x.

Definition nonnull_or_empty (p size : Z) : bool := negb (p =? NULL) || (size =? 0).

Fixpoint copy_up (n : nat) (m : memory) (dst src : Z) : memory * Z :=
  match n with
  | O => (m, dst)
  | S n => copy_up n (wr m dst (rd m src)) (dst + 1) (src + 1)
  end.

Fixpoint copy_down (n : nat) (m : memory) (dst src : Z) : memory * Z :=
  match n with
  | O => (m, dst)
  | S n => copy_down n (wr m (dst - 1) (rd m (src - 1))) (dst - 1) (src - 1)
  end.

Definition memcpy (m : memory) (dst src size : Z) : outcome (memory * Z) :=
  assert? nonnull_or_empty dst size in
  assert? nonnull_or_empty src size in
  Ret (fst (copy_up (Z.to_nat size) m dst src), dst).

Definition memmove (m : memory) (dst src size : Z) : outcome (memory * Z) :=
  assert? nonnull_or_empty dst size in
  assert? nonnull_or_empty src size in
  Ret (if dst <? src
       then copy_up (Z.to_nat size) m dst src
       else copy_down (Z.to_nat size) m (dst + size) (src + size)).

Fixpoint memcmp_loop (n : nat) (m : memory) (a b : Z) : Z :=
  match n with
  | O => 0
  | S n =>
      if negb (rd m a =? rd m b) then (if rd m b <? rd m a then 1 else -1)
      else memcmp_loop n m (a + 1) (b + 1)
  end.

Definition memcmp (m : memory) (a b size : Z) : outcome Z :=
  assert? nonnull_or_empty a size in
  assert? nonnull_or_empty b size in
  Ret (memcmp_loop (Z.to_nat size) m a b).

Fixpoint memchr_loop (n : nat) (m : memory) (block ch : Z) : Z :=
  match n with
  | O => NULL
  | S n => if rd m block =? ch then block else memchr_loop n m (block + 1) ch
  end.

Definition memchr (m : memory) (block ch_ size : Z) : outcome Z :=
  assert? nonnull_or_empty block size in
  Ret (memchr_loop (Z.to_nat size) m block (u8 ch_)).

Fixpoint strcmp_loop (fuel : nat) (m : memory) (a b : Z) : outcome Z :=
  match fuel with
  | O => NoFuel
  | S fuel =>
      if negb (rd m a =? 0) && (rd m a =? rd m b) then strcmp_loop fuel m (a + 1) (b + 1)
      else Ret (if rd m a <? rd m b then -1 else if rd m b <? rd m a then 1 else 0)
  end.

Definition strcmp (fuel : nat) (m : memory) (a b : Z) : outcome Z :=
  assert? negb (a =? NULL) in
  assert? negb (b =? NULL) in
  strcmp_loop fuel m a b.

Fixpoint strchr_loop (fuel : nat) (m : memory) (string c : Z) : outcome Z :=
  match fuel with
  | O => NoFuel
  | S fuel =>
      if rd m string =? c then Ret string
      else if rd m string =? 0 then Ret NULL
      else strchr_loop fuel m (string + 1) c
  end.

Definition strchr (fuel : nat) (m : memory) (string c_ : Z) : outcome Z :=
  assert? negb (string =? NULL) in
  strchr_loop fuel m string (u8 c_).

Fixpoint strlen_loop (fuel : nat) (m : memory) (p : Z) : outcome Z :=
  match fuel with
  | O => NoFuel
  | S fuel => if negb (rd m p =? 0) then strlen_loop fuel m (p + 1) else Ret p
  end.

Definition strlen (fuel : nat) (m : memory) (string : Z) : outcome Z :=
  assert? negb (string =? NULL) in
  let? p := strlen_loop fuel m string in
  Ret (p - string).

Fixpoint strnlen_loop (fuel : nat) (m : memory) (string maxlen length : Z) : outcome Z :=
  match fuel with
  | O => NoFuel
  | S fuel =>
      if negb (rd m (string + length) =? 0) && (length <? maxlen)
      then strnlen_loop fuel m string maxlen (length + 1)
      else Ret length
  end.
Definition strnlen (fuel : nat) (m : memory) (string maxlen : Z) : outcome Z :=
  strnlen_loop fuel m string maxlen 0.

Section Scans.
Variable fuel0 : nat.
Variable m : memory.

Fixpoint strcspn_loop (fuel : nat) (string stop length : Z) : outcome Z :=
  match fuel with
  | O => NoFuel
  | S fuel =>
      if negb (rd m (string + length) =? 0) then
        let? r := strchr fuel0 m stop (rd m (string + length)) in
        if negb (r =? NULL) then Ret length
        else strcspn_loop fuel string stop (length + 1)
      else Ret length
  end.
Definition strcspn (string stop : Z) : outcome Z := strcspn_loop fuel0 string stop 0.

Fixpoint strpbrk_loop (fuel : nat) (string stop : Z) : outcome Z :=
  match fuel with
  | O => NoFuel
  | S fuel =>
      if negb (rd m string =? 0) then
        let? r := strchr fuel0 m stop (rd m string) in
        if negb (r =? NULL) then Ret string
        else strpbrk_loop fuel (string + 1) stop
      else Ret NULL
  end.
Definition strpbrk (string stop : Z) : outcome Z := strpbrk_loop fuel0 string stop.

Fixpoint strrchr_loop (fuel : nat) (string c p : Z) : outcome Z :=
  match fuel with
  | O => NoFuel
  | S fuel =>
      if negb (rd m string =? 0)
      then strrchr_loop fuel (string + 1) c (if rd m string =? c then string else p)
      else Ret p
  end.
Definition strrchr (string c_ : Z) : outcome Z := strrchr_loop fuel0 string (u8 c_) NULL.

Fixpoint strspn_loop (fuel : nat) (string skip length : Z) : outcome Z :=
  match fuel with
  | O => NoFuel
  | S fuel =>
      if negb (rd m (string + length) =? 0) then
        let? r := strchr fuel0 m skip (rd m (string + length)) in
        if r =? NULL then Ret length
        else strspn_loop fuel string skip (length + 1)
      else Ret length
  end.
Definition strspn (string skip : Z) : outcome Z := strspn_loop fuel0 string skip 0.

(** [n] candidates are left, the next one is [i]. *)
Fixpoint strstr_loop (n : nat) (haystack needle needle_len i : Z) : outcome Z :=
  match n with
  | O => Ret NULL
  | S n =>
      let? c := memcmp m (haystack + i) needle needle_len in
      if c =? 0 then Ret (haystack + i)
      else strstr_loop n haystack needle needle_len (i + 1)
  end.
Definition strstr (haystack needle : Z) : outcome Z :=
  let? haystack_len := strlen fuel0 m haystack in
  let? needle_len := strlen fuel0 m needle in
  if needle_len <=? haystack_len then
    strstr_loop (Z.to_nat (haystack_len - needle_len + 1)) haystack needle needle_len 0
  else Ret NULL.

(** Skips delimiters.  [inl s]: the string ended at [s]; [inr s]: a token starts at [s]. *)
Fixpoint strtok_skip (fuel : nat) (delimiters s : Z) : outcome (Z + Z) :=
  match fuel with
  | O => NoFuel
  | S fuel =>
      let? r := strchr fuel0 m delimiters (rd m s) in
      if negb (r =? NULL) then
        (if rd m s =? 0 then Ret (inl s) else strtok_skip fuel delimiters (s + 1))
      else Ret (inr s)
  end.

Fixpoint strtok_scan (fuel : nat) (delimiters s : Z) : outcome Z :=
  match fuel with
  | O => NoFuel
  | S fuel =>
      let? r := strchr fuel0 m delimiters (rd m s) in
      if r =? NULL then strtok_scan fuel delimiters (s + 1) else Ret s
  end.

(** [save] is the value of [*save_ptr]; the result is the memory, the new value of
    [*save_ptr] and the token. *)
Definition strtok_r (s delimiters save : Z) : outcome (memory * Z * Z) :=
  assert? negb (delimiters =? NULL) in
  let s := if s =? NULL then save else s in
  assert? negb (s =? NULL) in
  let? r := strtok_skip fuel0 delimiters s in
  match r with
  | inl s => Ret (m, s, NULL)
  | inr token =>
      let? s := strtok_scan fuel0 delimiters token in
      if negb (rd m s =? 0) then Ret (wr m s 0, s + 1, token)
      else Ret (m, s, token)
  end.
End Scans.

Definition strlcpy (fuel : nat) (m : memory) (dst src size : Z) : outcome (memory * Z) :=
  assert? negb (dst =? NULL) in
  assert? negb (src =? NULL) in
  let? src_len := strlen fuel m src in
  if 0 <? size then
    let dst_len := size - 1 in
    let dst_len := if src_len <? dst_len then src_len else dst_len in
    let? (m, _) := memcpy m dst src dst_len in
    Ret (wr m (dst + dst_len) 0, src_len)
  else Ret (m, src_len).

Definition strlcat (fuel : nat) (m : memory) (dst src size : Z) : outcome (memory * Z) :=
  assert? negb (dst =? NULL) in
  assert? negb (src =? NULL) in
  let? src_len := strlen fuel m src in
  let? dst_len := strlen fuel m dst in
  if (0 <? size) && (dst_len <? size) then
    let copy_cnt := size - dst_len - 1 in
    let copy_cnt := if src_len <? copy_cnt then src_len else copy_cnt in
    let? (m, _) := memcpy m (dst + dst_len) src copy_cnt in
    Ret (wr m (dst + dst_len + copy_cnt) 0, src_len + dst_len)
  else Ret (m, src_len + dst_len).

(** The loop of the usage example of [strtok_r]: every token of the string at [s]. *)
Fixpoint strtok_all (calls fuel : nat) (m : memory) (s delimiters save : Z)
    : outcome (memory * list Z) :=
  match calls with
  | O => NoFuel
  | S calls =>
      let? (m, save, token) := strtok_r fuel m s delimiters save in
      if token =? NULL then Ret (m, [])
      else
        let? (m, tokens) := strtok_all calls fuel m NULL delimiters save in
        Ret (m, token :: tokens)
  end.

(** * Specification *)

(** The bytes [l] (a null-terminated string with contents [l]) are stored at [p]. *)
Fixpoint bytes_at (m : memory) (p : Z) (l : list Z) : Prop :=
  match l with
  | [] => True
  | c :: l => rd m p = c /\ bytes_at m (p + 1) l
  end.
Fixpoint is_str (m : memory) (p : Z) (l : list Z) : Prop :=
  match l with
  | [] => rd m p = 0
  | c :: l => rd m p = c /\ c <> 0 /\ is_str m (p + 1) l
  end.

(** The maximal runs of characters of [l] outside [ds], in one left-to-right pass. *)
Fixpoint tokens (ds l cur : list Z) : list (list Z) :=
  match l with
  | [] => if decide (cur = []) then [] else [cur]
  | c :: l =>
      if decide (c ∈ ds) then
        (if decide (cur = []) then tokens ds l [] else cur :: tokens ds l [])
      else tokens ds l (cur ++ [c])
  end.

(** Lexicographic comparison of byte strings, a proper prefix being smaller. *)
Fixpoint lex (l1 l2 : list Z) : comparison :=
  match l1, l2 with
  | [], [] => Eq
  | [], _ => Lt
  | _, [] => Gt
  | a :: l1, b :: l2 => match a ?= b with Eq => lex l1 l2 | c => c end
  end.
Definition cmp_sign (c : comparison) : Z :=
  match c with Lt => -1 | Eq => 0 | Gt => 1 end.

(** The position of the first element satisfying [P]. *)
Fixpoint find_pos (P : Z -> bool) (l : list Z) : option nat :=
  match l with
  | [] => None
  | c :: l => if P c then Some O else S <$> find_pos P l
  end.

(** * Lemmas *)

Lemma rd_range m a : 0 <= rd m a < 256.
Proof. apply u8_range. Qed.
#[export] Hint Resolve rd_range : width.

Lemma rd_wr m a v x : rd (wr m a v) x = if x =? a then u8 v else rd m x.
Proof.
  unfold rd, wr. destruct (x =? a); [|done]. apply u8_small, u8_range.
Qed.

Lemma rd_wr_rd m a b x : rd (wr m a (rd m b)) x = if x =? a then rd m b else rd m x.
Proof. rewrite rd_wr. destruct (x =? a); [|done]. apply u8_small, rd_range. Qed.

Lemma copy_up_spec n : forall m dst src,
  (dst < src \/ src + Z.of_nat n <= dst) ->
  snd (copy_up n m dst src) = dst + Z.of_nat n /\
  forall x, rd (fst (copy_up n m dst src)) x =
            if (dst <=? x) && (x <? dst + Z.of_nat n) then rd m (src + (x - dst)) else rd m x.
Proof.
  induction n as [|n IH]; intros m dst src Hov; cbn [copy_up].
  - split; [simpl; lia|]. intros x. simpl. destruct ((_ <=? _) && _) eqn:E; [lia|done].
  - destruct (IH (wr m dst (rd m src)) (dst + 1) (src + 1)) as [-> Hx]; [lia|].
    split; [lia|]. intros x. rewrite Hx, !rd_wr_rd.
    replace (src + 1 + (x - (dst + 1))) with (src + (x - dst)) by lia.
    destruct (decide (x = dst)) as [->|Hne].
    + replace (dst + 1 <=? dst) with false by lia. cbn [andb].
      replace (dst =? dst) with true by lia.
      replace ((dst <=? dst) && (dst <? dst + Z.of_nat (S n))) with true by lia.
      f_equal. lia.
    + replace (x =? dst) with false by lia.
      destruct ((dst + 1 <=? x) && (x <? dst + 1 + Z.of_nat n)) eqn:E.
      * replace ((dst <=? x) && (x <? dst + Z.of_nat (S n))) with true by lia.
        replace (src + (x - dst) =? dst) with false by lia. done.
      * replace ((dst <=? x) && (x <? dst + Z.of_nat (S n))) with false by lia. done.
Qed.

Lemma copy_down_spec n : forall m dst src,
  (src <= dst) ->
  snd (copy_down n m (dst + Z.of_nat n) (src + Z.of_nat n)) = dst /\
  forall x, rd (fst (copy_down n m (dst + Z.of_nat n) (src + Z.of_nat n))) x =
            if (dst <=? x) && (x <? dst + Z.of_nat n) then rd m (src + (x - dst)) else rd m x.
Proof.
  induction n as [|n IH]; intros m dst src Hov; cbn [copy_down].
  - split; [simpl; lia|]. intros x. simpl. destruct ((_ <=? _) && _) eqn:E; [lia|done].
  - replace (dst + Z.of_nat (S n) - 1) with (dst + Z.of_nat n) by lia.
    replace (src + Z.of_nat (S n) - 1) with (src + Z.of_nat n) by lia.
    destruct (IH (wr m (dst + Z.of_nat n) (rd m (src + Z.of_nat n))) dst src) as [-> Hx]; [lia|].
    split; [done|]. intros x. rewrite Hx, !rd_wr_rd.
    destruct (decide (x = dst + Z.of_nat n)) as [->|Hne].
    + replace ((dst <=? dst + Z.of_nat n) && (dst + Z.of_nat n <? dst + Z.of_nat n)) with false by lia.
      replace (dst + Z.of_nat n =? dst + Z.of_nat n) with true by lia.
      replace ((dst <=? dst + Z.of_nat n) && (dst + Z.of_nat n <? dst + Z.of_nat (S n))) with true by lia.
      f_equal. lia.
    + replace (x =? dst + Z.of_nat n) with false by lia.
      destruct ((dst <=? x) && (x <? dst + Z.of_nat n)) eqn:E.
      * replace ((dst <=? x) && (x <? dst + Z.of_nat (S n))) with true by lia.
        replace (src + (x - dst) =? dst + Z.of_nat n) with false by lia. done.
      * replace ((dst <=? x) && (x <? dst + Z.of_nat (S n))) with false by lia. done.
Qed.

Lemma memcpy_Ret m dst src size :
  0 <= size -> (size = 0 \/ dst <> NULL /\ src <> NULL) ->
  (dst < src \/ src + size <= dst) ->
  exists m', memcpy m dst src size = Ret (m', dst) /\
    forall x, rd m' x = if (dst <=? x) && (x <? dst + size) then rd m (src + (x - dst))
                        else rd m x.
Proof.
  intros Hs Hn Hov. unfold memcpy, nonnull_or_empty.
  replace (_ || _) with true by lia. replace (_ || _) with true by lia.
  eexists. split; [done|]. intros x.
  destruct (copy_up_spec (Z.to_nat size) m dst src) as [_ Hx]; [lia|].
  rewrite Hx, Z2Nat.id by lia. done.
Qed.

(** [memmove] copies the block whatever the overlap, and [memcpy] agrees with it when the
    blocks do not overlap; [memcpy] returns [dst], while [memmove] returns [dst] only when it
    copies downwards: copying upwards it returns the advanced pointer [dst + size]. *)
Theorem memmove_correct m dst src size :
  0 <= size -> dst <> NULL -> src <> NULL ->
  exists m', memmove m dst src size = Ret (m', if dst <? src then dst + size else dst) /\
    (forall x, rd m' x = if (dst <=? x) && (x <? dst + size) then rd m (src + (x - dst))
                         else rd m x) /\
    (dst + size <= src \/ src + size <= dst ->
     exists mc, memcpy m dst src size = Ret (mc, dst) /\ forall x, rd mc x = rd m' x).
Proof.
  intros Hs Hd Hr.
  assert (Hn : size = 0 \/ dst <> NULL /\ src <> NULL) by auto.
  assert (Hmv : exists m', memmove m dst src size = Ret (m', if dst <? src then dst + size else dst) /\
    (forall x, rd m' x = if (dst <=? x) && (x <? dst + size) then rd m (src + (x - dst))
                         else rd m x)).
  { unfold memmove, nonnull_or_empty.
    replace (_ || _) with true by lia. replace (_ || _) with true by lia.
    assert (Hid : Z.of_nat (Z.to_nat size) = size) by lia.
    destruct (dst <? src) eqn:E.
    - destruct (copy_up_spec (Z.to_nat size) m dst src) as [H1 H2]; [lia|].
      rewrite Hid in *. destruct (copy_up _ _ _ _) as [m' r]. simpl in *. subst r. eauto.
    - destruct (copy_down_spec (Z.to_nat size) m dst src) as [H1 H2]; [lia|].
      rewrite Hid in *. destruct (copy_down _ _ _ _) as [m' r]. simpl in *. subst r. eauto. }
  destruct Hmv as (m' & Hm & Hx). exists m'. split_and!; [done..|].
  intros Hov. destruct (memcpy_Ret m dst src size) as (mc & Hc & Hcx); [lia|done|lia|].
  exists mc. split; [done|]. intros x. by rewrite Hcx, Hx.
Qed.

Lemma memmove_correct_witness :
  exists m', memmove (fun a => a) 100 102 5 = Ret (m', 105) /\
    (forall x, rd m' x = if (100 <=? x) && (x <? 105) then rd (fun a => a) (102 + (x - 100))
                         else rd (fun a => a) x) /\
    (100 + 5 <= 102 \/ 102 + 5 <= 100 ->
     exists mc, memcpy (fun a => a) 100 102 5 = Ret (mc, 100) /\ forall x, rd mc x = rd m' x).
Proof. apply (memmove_correct (fun a => a) 100 102 5); unfold NULL; lia. Defined.

(** ** Scans *)

Lemma is_str_app m p l1 l2 :
  is_str m p (l1 ++ l2) <->
  bytes_at m p l1 /\ Forall (fun c => c <> 0) l1 /\ is_str m (p + Z.of_nat (length l1)) l2.
Proof.
  revert p. induction l1 as [|c l1 IH]; intros p; simpl.
  - rewrite Z.add_0_r. split; [|tauto]. intros; split_and!; try done.
  - rewrite IH. replace (p + 1 + Z.of_nat (length l1)) with (p + Z.of_nat (S (length l1))) by lia.
    rewrite Forall_cons. tauto.
Qed.

Lemma bytes_at_app m p l1 l2 :
  bytes_at m p (l1 ++ l2) <-> bytes_at m p l1 /\ bytes_at m (p + Z.of_nat (length l1)) l2.
Proof.
  revert p. induction l1 as [|c l1 IH]; intros p; simpl.
  - rewrite Z.add_0_r. tauto.
  - rewrite IH. replace (p + 1 + Z.of_nat (length l1)) with (p + Z.of_nat (S (length l1))) by lia.
    tauto.
Qed.

Lemma bytes_at_lookup m p l i c :
  bytes_at m p l -> l !! i = Some c -> rd m (p + Z.of_nat i) = c.
Proof.
  revert p i. induction l as [|d l IH]; intros p [|i]; simpl; try done.
  - intros [? _] [= <-]. by rewrite Z.add_0_r.
  - intros [_ H] Hi. rewrite <- (IH (p + 1) i H Hi). f_equal. lia.
Qed.

Lemma is_str_bytes m p l : is_str m p l -> bytes_at m p l.
Proof. intros H. rewrite <- (app_nil_r l) in H. by apply is_str_app in H as [? _]. Qed.

Lemma is_str_nonzero m p l : is_str m p l -> Forall (fun c => c <> 0) l.
Proof. intros H. rewrite <- (app_nil_r l) in H. by apply is_str_app in H as (? & ? & _). Qed.

Lemma is_str_byte m p l : is_str m p l -> Forall (fun c => 0 <= c < 256) l.
Proof.
  revert p. induction l as [|c l IH]; intros p; simpl; [constructor|].
  intros (<- & _ & H). constructor; [apply rd_range|eauto].
Qed.

Lemma bytes_at_frame m m' p l :
  (forall x, p <= x < p + Z.of_nat (length l) -> rd m' x = rd m x) ->
  bytes_at m p l -> bytes_at m' p l.
Proof.
  revert p. induction l as [|c l IH]; intros p Hf; simpl in *; [done|].
  intros [<- H]. split; [apply Hf; lia|]. apply IH; [|done]. intros; apply Hf; lia.
Qed.

Lemma is_str_frame m m' p l :
  (forall x, p <= x <= p + Z.of_nat (length l) -> rd m' x = rd m x) ->
  is_str m p l -> is_str m' p l.
Proof.
  revert p. induction l as [|c l IH]; intros p Hf; simpl in *.
  - intros <-. apply Hf. lia.
  - intros (<- & Hne & H). split; [apply Hf; lia|]. split; [done|].
    apply IH; [|done]. intros; apply Hf; lia.
Qed.

Lemma strlen_loop_spec fuel m p l :
  is_str m p l -> (length l < fuel)%nat ->
  strlen_loop fuel m p = Ret (p + Z.of_nat (length l)).
Proof.
  revert p fuel. induction l as [|c l IH]; intros p [|fuel] H Hf; simpl in *; try lia.
  - rewrite H. simpl. by rewrite Z.add_0_r.
  - destruct H as (-> & Hne & H). replace (c =? 0) with false by lia. simpl.
    rewrite (IH _ _ H) by lia. f_equal. lia.
Qed.

Lemma strlen_spec fuel m p l :
  is_str m p l -> p <> NULL -> (length l < fuel)%nat ->
  strlen fuel m p = Ret (Z.of_nat (length l)).
Proof.
  intros H Hp Hf. unfold strlen. replace (p =? NULL) with false by lia.
  cbn [negb]. rewrite (strlen_loop_spec fuel m p l H Hf). simpl. f_equal. lia.
Qed.

Lemma strchr_loop_spec fuel m p l c :
  is_str m p l -> (length l < fuel)%nat ->
  strchr_loop fuel m p c =
  Ret (match find_pos (fun x => x =? c) (l ++ [0]) with
       | Some i => p + Z.of_nat i
       | None => NULL
       end).
Proof.
  revert p fuel. induction l as [|d l IH]; intros p [|fuel] H Hf; 
    cbn [strchr_loop is_str length app find_pos] in *; try lia.
  - rewrite H. destruct (0 =? c) eqn:E; [|done]. cbn. by rewrite Z.add_0_r.
  - destruct H as (-> & Hne & H). destruct (d =? c) eqn:E.
    + cbn. by rewrite Z.add_0_r.
    + replace (d =? 0) with false by lia. rewrite (IH _ _ H) by lia.
      destruct (find_pos _ (l ++ [0])); simpl; [|done]. f_equal. lia.
Qed.

Lemma find_pos_Some P l i :
  find_pos P l = Some i <->
  (exists c, l !! i = Some c /\ P c = true) /\ Forall (fun c => P c = false) (take i l).
Proof.
  revert i. induction l as [|c l IH]; intros i; simpl.
  - split; [done|]. intros [(? & ? & _) _]. done.
  - destruct (P c) eqn:Hc.
    + split.
      * intros [= <-]. split; [exists c; done|constructor].
      * intros [_ H]. destruct i; [done|]. simpl in H. inversion H; subst. congruence.
    + rewrite fmap_Some. split.
      * intros (j & Hj & ->). apply IH in Hj as [Hj Ht]. split; [done|]. simpl. by constructor.
      * intros [Hi Ht]. destruct i as [|i].
        -- destruct Hi as (? & [= ->] & ?). congruence.
        -- simpl in Ht. inversion Ht; subst. exists i. split; [|done]. apply IH. done.
Qed.

Lemma find_pos_None P l : find_pos P l = None <-> Forall (fun c => P c = false) l.
Proof.
  induction l as [|c l IH]; simpl; [split; [constructor|done]|].
  rewrite Forall_cons, <- IH. destruct (P c).
  { split; [done|]. intros [? _]; discriminate. }
  rewrite fmap_None. tauto.
Qed.

(** Membership test through [strchr], for a non-null character. *)
Lemma strchr_mem fuel m p l c :
  is_str m p l -> 0 < p -> (length l < fuel)%nat -> 0 <= c < 256 ->
  exists r, strchr fuel m p c = Ret r /\ (r =? NULL) = negb (bool_decide (c ∈ l \/ c = 0)).
Proof.
  intros H Hp Hf Hc. unfold strchr. replace (p =? NULL) with false by (unfold NULL; lia).
  cbn [negb]. rewrite u8_small by done. rewrite (strchr_loop_spec fuel m p l c H Hf).
  eexists. split; [done|]. destruct (find_pos _ (l ++ [0])) as [i|] eqn:E.
  - apply find_pos_Some in E as [(d & Hd & Hdc) _]. rewrite bool_decide_true.
    + unfold NULL. simpl. lia.
    + apply Z.eqb_eq in Hdc. subst d. apply list_elem_of_lookup_2 in Hd.
      set_solver.
  - apply find_pos_None in E. rewrite bool_decide_false; [done|].
    rewrite Forall_forall in E. intros Hin.
    assert (c ∈ l ++ [0]) as Hin' by set_solver. apply E in Hin'. lia.
Qed.

Lemma strcspn_loop_spec fuel0 fuel m s stop l ds :
  0 < stop -> is_str m stop ds -> (length ds < fuel0)%nat ->
  forall k, is_str m (s + k) l -> (length l < fuel)%nat ->
  strcspn_loop fuel0 m fuel s stop k =
  Ret (k + match find_pos (fun c => bool_decide (c ∈ ds)) l with
           | Some i => Z.of_nat i
           | None => Z.of_nat (length l)
           end).
Proof.
  intros Hp Hds Hf0. revert fuel. induction l as [|c l IH]; intros [|fuel] k H Hf;
    cbn [strcspn_loop find_pos length is_str] in *; try lia.
  - rewrite H. cbn. f_equal. lia.
  - destruct H as (Hc & Hne & H). pose proof (rd_range m (s + k)). rewrite Hc in *.
    replace (negb (c =? 0)) with true by lia.
    destruct (strchr_mem fuel0 m stop ds c Hds Hp Hf0) as (r & -> & Hr0); [lia|].
    cbn [obind]. rewrite Hr0. rewrite negb_involutive.
    destruct (decide (c ∈ ds)) as [Hin|Hin].
    + rewrite !bool_decide_true by tauto. f_equal. lia.
    + rewrite !bool_decide_false by tauto.
      rewrite (IH fuel (k + 1)); [|by rewrite Z.add_assoc|lia].
      destruct (find_pos _ l); cbn; f_equal; lia.
Qed.

Lemma strspn_loop_spec fuel0 fuel m s skip l ds :
  0 < skip -> is_str m skip ds -> (length ds < fuel0)%nat ->
  forall k, is_str m (s + k) l -> (length l < fuel)%nat ->
  strspn_loop fuel0 m fuel s skip k =
  Ret (k + match find_pos (fun c => bool_decide (c ∉ ds)) l with
           | Some i => Z.of_nat i
           | None => Z.of_nat (length l)
           end).
Proof.
  intros Hp Hds Hf0. revert fuel. induction l as [|c l IH]; intros [|fuel] k H Hf;
    cbn [strspn_loop find_pos length is_str] in *; try lia.
  - rewrite H. cbn. f_equal. lia.
  - destruct H as (Hc & Hne & H). pose proof (rd_range m (s + k)). rewrite Hc in *.
    replace (negb (c =? 0)) with true by lia.
    destruct (strchr_mem fuel0 m skip ds c Hds Hp Hf0) as (r & -> & Hr0); [lia|].
    cbn [obind]. rewrite Hr0. destruct (decide (c ∈ ds)) as [Hin|Hin].
    + rewrite (bool_decide_true (c ∈ ds \/ c = 0)) by tauto.
      rewrite (bool_decide_false (c ∉ ds)) by tauto. cbn [negb].
      rewrite (IH fuel (k + 1)); [|by rewrite Z.add_assoc|lia].
      destruct (find_pos _ l); cbn; f_equal; lia.
    + rewrite (bool_decide_false (c ∈ ds \/ c = 0)) by tauto.
      rewrite (bool_decide_true (c ∉ ds)) by tauto. cbn [negb]. f_equal. lia.
Qed.

Lemma strpbrk_loop_spec fuel0 fuel m stop l ds :
  0 < stop -> is_str m stop ds -> (length ds < fuel0)%nat ->
  forall s, is_str m s l -> (length l < fuel)%nat ->
  strpbrk_loop fuel0 m fuel s stop =
  Ret (match find_pos (fun c => bool_decide (c ∈ ds)) l with
       | Some i => s + Z.of_nat i
       | None => NULL
       end).
Proof.
  intros Hp Hds Hf0. revert fuel. induction l as [|c l IH]; intros [|fuel] s H Hf;
    cbn [strpbrk_loop find_pos length is_str] in *; try lia.
  - rewrite H. done.
  - destruct H as (Hc & Hne & H). pose proof (rd_range m s). rewrite Hc in *.
    replace (negb (c =? 0)) with true by lia.
    destruct (strchr_mem fuel0 m stop ds c Hds Hp Hf0) as (r & -> & Hr0); [lia|].
    cbn [obind]. rewrite Hr0. rewrite negb_involutive.
    destruct (decide (c ∈ ds)) as [Hin|Hin].
    + rewrite !bool_decide_true by tauto. f_equal. lia.
    + rewrite !bool_decide_false by tauto. rewrite (IH fuel (s + 1)); [|done|lia].
      destruct (find_pos _ l); cbn; f_equal; lia.
Qed.

Lemma find_pos_app P l1 l2 :
  find_pos P (l1 ++ l2) =
  match find_pos P l1 with
  | Some i => Some i
  | None => (fun i => length l1 + i)%nat <$> find_pos P l2
  end.
Proof.
  induction l1 as [|c l1 IH]; cbn; [by destruct (find_pos P l2)|].
  destruct (P c); [done|]. rewrite IH. destruct (find_pos P l1); [done|].
  by destruct (find_pos P l2).
Qed.

Lemma strrchr_loop_spec fuel m l c :
  forall s p, is_str m s l -> (length l < fuel)%nat ->
  strrchr_loop m fuel s c p =
  Ret (match find_pos (fun x => x =? c) (reverse l) with
       | Some i => s + (Z.of_nat (length l) - 1 - Z.of_nat i)
       | None => p
       end).
Proof.
  revert fuel. induction l as [|d l IH]; intros [|fuel] s p H Hf;
    cbn [strrchr_loop length is_str] in *; try lia.
  - rewrite H. done.
  - destruct H as (-> & Hne & H). replace (negb (d =? 0)) with true by lia.
    rewrite (IH fuel (s + 1)); [|done|lia]. rewrite reverse_cons, find_pos_app.
    cbn [find_pos]. destruct (find_pos _ (reverse l)) as [i|] eqn:E; [f_equal; lia|].
    destruct (d =? c); cbn; [|done]. rewrite length_reverse. f_equal. lia.
Qed.

Lemma strnlen_loop_spec fuel m s l maxlen :
  forall k, is_str m (s + k) l -> (length l < fuel)%nat -> k <= maxlen ->
  strnlen_loop fuel m s maxlen k = Ret (Z.min (k + Z.of_nat (length l)) maxlen).
Proof.
  revert fuel. induction l as [|c l IH]; intros [|fuel] k H Hf Hk;
    cbn [strnlen_loop length is_str] in *; try lia.
  - rewrite H. cbn. f_equal. lia.
  - destruct H as (-> & Hne & H). replace (negb (c =? 0)) with true by lia. cbn [andb].
    destruct (k <? maxlen) eqn:E; [|f_equal; lia].
    rewrite IH; [f_equal; lia|by rewrite Z.add_assoc|lia|lia].
Qed.

Lemma memchr_loop_spec m ch l : forall p n,
  bytes_at m p l -> n = length l ->
  memchr_loop n m p ch =
  match find_pos (fun x => x =? ch) l with Some i => p + Z.of_nat i | None => NULL end.
Proof.
  induction l as [|c l IH]; intros p n H ->; cbn [memchr_loop length find_pos bytes_at] in *;
    [done|].
  destruct H as [-> H]. destruct (c =? ch); [cbn; lia|].
  rewrite (IH (p + 1) _ H) by done. destruct (find_pos _ l); cbn; lia.
Qed.

(** The searches of the string library compute the positions that the contents [l] of the
    string, the character set [r] and the character [c] determine: first and last
    occurrences, initial spans inside and outside a set, and lengths; a fuel of one more than
    the lengths suffices. *)
Theorem string_scans_correct fuel m s l t r c maxlen :
  0 < s -> is_str m s l -> (length l < fuel)%nat ->
  0 < t -> is_str m t r -> (length r < fuel)%nat ->
  0 <= c < 256 -> 0 <= maxlen ->
  strlen fuel m s = Ret (Z.of_nat (length l)) /\
  strnlen fuel m s maxlen = Ret (Z.min (Z.of_nat (length l)) maxlen) /\
  strchr fuel m s c = Ret (from_option (fun i => s + Z.of_nat i) NULL
                             (find_pos (fun x => x =? c) (l ++ [0]))) /\
  strrchr fuel m s c = Ret (from_option (fun i => s + (Z.of_nat (length l) - 1 - Z.of_nat i))
                              NULL (find_pos (fun x => x =? c) (reverse l))) /\
  memchr m s c (Z.of_nat (length l)) = Ret (from_option (fun i => s + Z.of_nat i) NULL
                             (find_pos (fun x => x =? c) l)) /\
  strpbrk fuel m s t = Ret (from_option (fun i => s + Z.of_nat i) NULL
                             (find_pos (fun x => bool_decide (x ∈ r)) l)) /\
  strcspn fuel m s t = Ret (Z.of_nat (default (length l)
                             (find_pos (fun x => bool_decide (x ∈ r)) l))) /\
  strspn fuel m s t = Ret (Z.of_nat (default (length l)
                             (find_pos (fun x => bool_decide (x ∉ r)) l))).
Proof.
  intros Hs Hl Hfl Ht Hr Hfr Hc Hm.
  assert (Hl0 : is_str m (s + 0) l) by by rewrite Z.add_0_r.
  assert (Hsn : (s =? NULL) = false) by (unfold NULL; lia).
  split_and!.
  - apply strlen_spec; [done|unfold NULL; lia|done].
  - unfold strnlen. by rewrite (strnlen_loop_spec fuel m s l maxlen 0 Hl0 Hfl Hm).
  - unfold strchr. rewrite Hsn, u8_small by done. cbn [negb].
    rewrite (strchr_loop_spec fuel m s l c Hl Hfl). by destruct (find_pos _ _).
  - unfold strrchr. rewrite u8_small by done.
    rewrite (strrchr_loop_spec fuel m l c s NULL Hl Hfl). by destruct (find_pos _ _).
  - unfold memchr, nonnull_or_empty. rewrite Hsn. cbn [negb orb]. rewrite u8_small by done.
    rewrite (memchr_loop_spec m c l); [|by apply is_str_bytes|lia]. by destruct (find_pos _ _).
  - unfold strpbrk. rewrite (strpbrk_loop_spec fuel fuel m t l r); [|done..].
    by destruct (find_pos _ _).
  - unfold strcspn. rewrite (strcspn_loop_spec fuel fuel m s t l r); [|done..].
    by destruct (find_pos _ _).
  - unfold strspn. rewrite (strspn_loop_spec fuel fuel m s t l r); [|done..].
    by destruct (find_pos _ _).
Qed.

(** A memory holding the bytes [l] from address [p] on and null bytes elsewhere. *)
Definition mem_of (p : Z) (l : list Z) : memory := fun a => default 0 (aget l (a - p)).

Definition ex_mem : memory := mem_of 100 [97; 98; 44; 32; 99; 0; 44; 32; 0].

Lemma ex_mem_str : is_str ex_mem 100 [97; 98; 44; 32; 99] /\ is_str ex_mem 106 [44; 32].
Proof. by_compute. Qed.

Lemma string_scans_correct_witness :
  strlen 6 ex_mem 100 = Ret 5 /\ strnlen 6 ex_mem 100 3 = Ret 3 /\
  strchr 6 ex_mem 100 44 = Ret 102 /\ strrchr 6 ex_mem 100 44 = Ret 102 /\
  memchr ex_mem 100 44 5 = Ret 102 /\ strpbrk 6 ex_mem 100 106 = Ret 102 /\
  strcspn 6 ex_mem 100 106 = Ret 2 /\ strspn 6 ex_mem 100 106 = Ret 0.
Proof.
  destruct ex_mem_str as [Hs Ht].
  apply (string_scans_correct 6 ex_mem 100 [97; 98; 44; 32; 99] 106 [44; 32] 44 3);
    try done; simpl; lia.
Defined.

(** ** Comparison and substring search *)

Lemma memcmp_loop_spec m la : forall a b lb,
  bytes_at m a la -> bytes_at m b lb -> length la = length lb ->
  memcmp_loop (length la) m a b = cmp_sign (lex la lb).
Proof.
  induction la as [|x la IH]; intros a b [|y lb] Ha Hb Hlen; try discriminate; [done|].
  cbn [memcmp_loop length bytes_at lex] in *. destruct Ha as [-> Ha], Hb as [-> Hb].
  destruct (Z.compare_spec x y).
  - subst. replace (y =? y) with true by lia. apply IH; [done..|]. by injection Hlen.
  - replace (x =? y) with false by lia. replace (y <? x) with false by lia. done.
  - replace (x =? y) with false by lia. replace (y <? x) with true by lia. done.
Qed.

Lemma lex_Eq la : forall lb, lex la lb = Eq <-> la = lb.
Proof.
  induction la as [|x la IH]; intros [|y lb]; cbn; try done.
  destruct (Z.compare_spec x y) as [->|H|H].
  - rewrite IH. split; [by intros ->|by intros [= ->]].
  - split; [done|]. intros [= ? _]. lia.
  - split; [done|]. intros [= ? _]. lia.
Qed.

Lemma strcmp_loop_spec fuel m la : forall a b lb,
  is_str m a la -> is_str m b lb -> (length la < fuel)%nat ->
  strcmp_loop fuel m a b = Ret (cmp_sign (lex la lb)).
Proof.
  revert fuel. induction la as [|x la IH]; intros [|fuel] a b lb Ha Hb Hf;
    cbn [strcmp_loop length is_str] in *; try lia.
  - rewrite Ha. cbn [negb andb Z.eqb]. pose proof (rd_range m b).
    destruct lb as [|y lb]; cbn [is_str lex] in Hb |- *.
    + rewrite Hb. done.
    + destruct Hb as (Hb & Hy & _). rewrite Hb in *. replace (0 <? y) with true by lia. done.
  - destruct Ha as (Hxa & Hx & Ha). rewrite Hxa. replace (negb (x =? 0)) with true by lia.
    pose proof (rd_range m a). rewrite Hxa in *. cbn [andb].
    destruct lb as [|y lb]; cbn [is_str lex] in Hb |- *.
    + rewrite Hb. replace (x =? 0) with false by lia. replace (x <? 0) with false by lia.
      replace (0 <? x) with true by lia. done.
    + destruct Hb as (-> & Hy & Hb). destruct (Z.compare_spec x y) as [Exy| |].
      * rewrite Exy, Z.eqb_refl. apply IH; [done..|lia].
      * replace (x =? y) with false by lia. replace (x <? y) with true by lia. done.
      * replace (x =? y) with false by lia. replace (x <? y) with false by lia.
        replace (y <? x) with true by lia. done.
Qed.

(** [strstr] tries the candidate positions of [needle] in increasing order. *)
Lemma strstr_loop_spec m h hl needle nl :
  bytes_at m h hl -> bytes_at m needle nl -> h <> NULL -> needle <> NULL -> 0 < h ->
  forall n i, (i + n <= length hl - length nl + 1)%nat -> (length nl <= length hl)%nat ->
  exists r, strstr_loop m n h needle (Z.of_nat (length nl)) (Z.of_nat i) = Ret r /\
    ((exists j, (i <= j < i + n)%nat /\ r = h + Z.of_nat j /\ take (length nl) (drop j hl) = nl /\
        forall k, (i <= k < j)%nat -> take (length nl) (drop k hl) <> nl) \/
     (r = NULL /\ forall k, (i <= k < i + n)%nat -> take (length nl) (drop k hl) <> nl)).
Proof.
  intros Hh Hn Hh0 Hn0 Hpos. induction n as [|n IH]; intros i Hi Hlen; cbn [strstr_loop].
  - exists NULL. split; [done|]. right. split; [done|]. intros; lia.
  - unfold memcmp, nonnull_or_empty.
    replace (_ || _) with true by (unfold NULL in *; lia).
    replace (_ || _) with true by (unfold NULL in *; lia). cbn [obind].
    assert (Hl : length (take (length nl) (drop i hl)) = length nl)
      by (rewrite length_take, length_drop; lia).
    assert (Hat : bytes_at m (h + Z.of_nat i) (take (length nl) (drop i hl))).
    { rewrite <- (take_drop i hl) in Hh. apply bytes_at_app in Hh as [_ Hh].
      rewrite length_take_le in Hh by lia.
      rewrite <- (take_drop (length nl) (drop i hl)) in Hh. by apply bytes_at_app in Hh as [? _]. }
    pose proof (memcmp_loop_spec m _ _ _ nl Hat Hn Hl) as Hcmp.
    rewrite Hl in Hcmp. rewrite Nat2Z.id, Hcmp.
    destruct (lex (take (length nl) (drop i hl)) nl) eqn:E; cbn [cmp_sign Z.eqb].
    1: { apply lex_Eq in E. eexists. split; [done|]. left. exists i.
         split_and!; [lia|lia|done|done|]. intros; lia. }
    1-2: assert (take (length nl) (drop i hl) <> nl) by (rewrite <- lex_Eq; congruence);
      replace (Z.of_nat i + 1) with (Z.of_nat (S i)) by lia;
      destruct (IH (S i)) as (r & -> & Hr); [lia|done|]; exists r; split; [done|];
      destruct Hr as [(j & Hj & -> & Ht & Hk)|[-> Hk]]; [left; exists j; split_and!;
        [lia|lia|done|done|] | right; split; [done|]];
      intros k Hik; destruct (decide (k = i)); [by subst|apply Hk; lia| by subst |apply Hk; lia].
Qed.

(** [strcmp] compares byte strings lexicographically, [memcmp] blocks of equal length, and
    [strstr] returns the first position at which the needle occurs, or a null pointer when
    it occurs nowhere. *)
Theorem string_compare_correct fuel m a la b lb :
  0 < a -> is_str m a la -> (length la < fuel)%nat ->
  0 < b -> is_str m b lb -> (length lb < fuel)%nat ->
  strcmp fuel m a b = Ret (cmp_sign (lex la lb)) /\
  (length la = length lb -> memcmp m a b (Z.of_nat (length la)) = Ret (cmp_sign (lex la lb))) /\
  exists r, strstr fuel m a b = Ret r /\
    ((exists j, (j + length lb <= length la)%nat /\ r = a + Z.of_nat j /\
        take (length lb) (drop j la) = lb /\
        forall k, (k < j)%nat -> take (length lb) (drop k la) <> lb) \/
     (r = NULL /\ forall k, take (length lb) (drop k la) <> lb)).
Proof.
  intros Ha Hla Hfa Hb Hlb Hfb.
  assert (Han : (a =? NULL) = false) by (unfold NULL; lia).
  assert (Hbn : (b =? NULL) = false) by (unfold NULL; lia).
  pose proof (is_str_bytes _ _ _ Hla) as Hba. pose proof (is_str_bytes _ _ _ Hlb) as Hbb.
  split_and!.
  - unfold strcmp. rewrite Han, Hbn. cbn [negb]. by apply strcmp_loop_spec.
  - intros Hlen. unfold memcmp, nonnull_or_empty. rewrite Han, Hbn, Nat2Z.id. cbn [negb orb].
    by rewrite (memcmp_loop_spec m la a b lb Hba Hbb Hlen).
  - unfold strstr. rewrite (strlen_spec fuel m a la), (strlen_spec fuel m b lb);
      [|done|unfold NULL; lia|done|done|unfold NULL; lia|done]. cbn [obind].
    assert (Hshort : forall k, (length la < k + length lb)%nat ->
              take (length lb) (drop k la) = lb -> lb = []).
    { intros k Hk E. apply (f_equal length) in E. rewrite length_take, length_drop in E.
      apply nil_length_inv. lia. }
    destruct (Z.of_nat (length lb) <=? Z.of_nat (length la)) eqn:E.
    + destruct (strstr_loop_spec m a la b lb Hba Hbb) with (n := (length la - length lb + 1)%nat)
        (i := O) as (r & Hr & Hcase); [unfold NULL; lia|unfold NULL; lia|lia|lia|lia|].
      exists r. split.
      { rewrite <- Hr. f_equal. lia. }
      destruct Hcase as [(j & Hj & -> & Ht & Hk)|[-> Hk]].
      * left. exists j. split_and!; [lia|done|done|]. intros; apply Hk; lia.
      * right. split; [done|]. intros k Ht. destruct (decide (k < length la - length lb + 1)%nat).
        -- apply (Hk k); [lia|done].
        -- assert (lb = []) as ->.
           { apply (Hshort k); [lia|done]. }
           apply (Hk O); [lia|done].
    + exists NULL. split; [done|]. right. split; [done|]. intros k Ht.
      apply (f_equal length) in Ht. rewrite length_take, length_drop in Ht. lia.
Qed.

Lemma string_compare_correct_witness :
  strcmp 6 ex_mem 100 106 = Ret 1 /\
  exists r, strstr 6 ex_mem 100 106 = Ret r /\
    ((exists j, (j + 2 <= 5)%nat /\ r = 100 + Z.of_nat j /\
        take 2 (drop j [97; 98; 44; 32; 99]) = [44; 32] /\
        forall k, (k < j)%nat -> take 2 (drop k [97; 98; 44; 32; 99]) <> [44; 32]) \/
     (r = NULL /\ forall k, take 2 (drop k [97; 98; 44; 32; 99]) <> [44; 32])).
Proof.
  destruct ex_mem_str as [Ha Hb].
  destruct (string_compare_correct 6 ex_mem 100 [97; 98; 44; 32; 99] 106 [44; 32])
    as (H1 & _ & H2); [lia|done|simpl; lia|lia|done|simpl; lia|].
  split; [exact H1|exact H2].
Defined.

(** ** Bounded copies *)

Lemma is_str_write m' p l :
  (forall i c, l !! i = Some c -> rd m' (p + Z.of_nat i) = c) ->
  Forall (fun c => c <> 0) l -> rd m' (p + Z.of_nat (length l)) = 0 -> is_str m' p l.
Proof.
  revert p. induction l as [|c l IH]; intros p H Hnz H0; cbn [is_str length] in *.
  - by rewrite Z.add_0_r in H0.
  - inversion Hnz; subst. split; [rewrite <- (H O c eq_refl); f_equal; lia|]. split; [done|].
    apply IH; [|done|rewrite <- H0; f_equal; lia].
    intros i d Hi. rewrite <- (H (S i) d Hi). f_equal. lia.
Qed.

(** Copying [n] characters of the string [l] after the string [pre] at [dst], with a null. *)
Lemma copy_terminate m dst pre src l n :
  bytes_at m dst pre -> Forall (fun c => c <> 0) pre -> is_str m src l -> (n <= length l)%nat ->
  let at_ := dst + Z.of_nat (length pre) in
  0 < dst -> src <> NULL -> (at_ < src \/ src + Z.of_nat n <= dst) ->
  exists m', memcpy m at_ src (Z.of_nat n) = Ret (m', at_) /\
    is_str (wr m' (at_ + Z.of_nat n) 0) dst (pre ++ take n l) /\
    forall x, ~ (at_ <= x <= at_ + Z.of_nat n) -> rd (wr m' (at_ + Z.of_nat n) 0) x = rd m x.
Proof.
  intros Hpre Hnz Hl Hn at_ Hd Hs Hov.
  destruct (memcpy_Ret m at_ src (Z.of_nat n)) as (m' & Hm & Hx); [lia| |lia|].
  { right. unfold NULL in *. lia. }
  exists m'. split; [done|]. split.
  2: { intros x Hxr. rewrite rd_wr, Hx. replace (x =? at_ + Z.of_nat n) with false by lia.
       by replace (_ && _) with false by lia. }
  apply (is_str_write).
  - intros i c Hi. rewrite rd_wr, Hx.
    destruct (decide (i < length pre)%nat) as [Hip|Hip].
    + replace (dst + Z.of_nat i =? at_ + Z.of_nat n) with false by lia.
      replace (_ && _) with false by lia. rewrite lookup_app_l in Hi by lia.
      by apply (bytes_at_lookup m dst pre).
    + rewrite lookup_app_r in Hi by lia. apply lookup_take_Some in Hi as [Hi Hin].
      replace (dst + Z.of_nat i =? at_ + Z.of_nat n) with false by lia.
      replace (_ && _) with true by lia.
      rewrite <- (bytes_at_lookup m src l (i - length pre) c (is_str_bytes _ _ _ Hl) Hi).
      f_equal. lia.
  - apply Forall_app_2; [done|]. apply Forall_take. by apply (is_str_nonzero m src).
  - rewrite rd_wr, length_app, length_take.
    replace (_ =? _) with true by lia. done.
Qed.

(** [strlcpy] and [strlcat] write at most [size] bytes at [dst] and leave there the longest
    null-terminated prefix of the source (of the concatenation) that fits; they return the
    length the full result would have, and do nothing when there is no room for a null. *)
Theorem bounded_copies_correct fuel m dst l0 src l size :
  0 < dst -> 0 < src -> is_str m src l -> (length l < fuel)%nat -> 0 <= size ->
  (dst + size <= src \/ src + Z.of_nat (length l) < dst) ->
  (exists m', strlcpy fuel m dst src size = Ret (m', Z.of_nat (length l)) /\
     (0 < size -> is_str m' dst (take (Z.to_nat (size - 1)) l)) /\
     (forall x, ~ (dst <= x < dst + size) -> rd m' x = rd m x)) /\
  (is_str m dst l0 -> (length l0 < fuel)%nat ->
   exists m', strlcat fuel m dst src size = Ret (m', Z.of_nat (length l + length l0)) /\
     is_str m' dst (l0 ++ take (Z.to_nat (size - 1) - length l0) l) /\
     (forall x, ~ (dst + Z.of_nat (length l0) <= x < dst + size) -> rd m' x = rd m x)).
Proof.
  intros Hd Hs Hl Hf Hsz Hov.
  assert (Hdn : (dst =? NULL) = false) by (unfold NULL; lia).
  assert (Hsn : (src =? NULL) = false) by (unfold NULL; lia).
  split.
  - unfold strlcpy. rewrite Hdn, Hsn. cbn [negb].
    rewrite (strlen_spec fuel m src l Hl) by (unfold NULL; lia). cbn [obind].
    destruct (0 <? size) eqn:E.
    + set (n := Nat.min (Z.to_nat (size - 1)) (length l)).
      replace (if Z.of_nat (length l) <? size - 1 then Z.of_nat (length l) else size - 1)
        with (Z.of_nat n) by (destruct (Z.of_nat (length l) <? size - 1) eqn:E1; lia).
      destruct (copy_terminate m dst [] src l n) as (m' & Hm & Hstr & Hfr);
        [done|constructor|done|lia|lia|unfold NULL; lia|simpl; lia|].
      cbn [length app] in *. rewrite Z.add_0_r in *. rewrite Hm. cbn [obind].
      eexists. split; [done|]. split.
      * intros _. replace (take (Z.to_nat (size - 1)) l) with (take n l); [done|].
        unfold n. rewrite <- take_take. by rewrite (take_ge l (length l)).
      * intros x Hx. apply Hfr. lia.
    + eexists. split; [done|]. split; [lia|done].
  - intros Hl0 Hf0. unfold strlcat. rewrite Hdn, Hsn. cbn [negb].
    rewrite (strlen_spec fuel m src l Hl), (strlen_spec fuel m dst l0 Hl0) by (unfold NULL; lia).
    cbn [obind]. rewrite <- Nat2Z.inj_add.
    destruct ((0 <? size) && (Z.of_nat (length l0) <? size)) eqn:E.
    + set (n := Nat.min (Z.to_nat (size - 1) - length l0) (length l)).
      replace (if Z.of_nat (length l) <? size - Z.of_nat (length l0) - 1
               then Z.of_nat (length l) else size - Z.of_nat (length l0) - 1)
        with (Z.of_nat n)
        by (destruct (Z.of_nat (length l) <? size - Z.of_nat (length l0) - 1) eqn:E1; lia).
      destruct (copy_terminate m dst l0 src l n) as (m' & Hm & Hstr & Hfr);
        [by apply is_str_bytes|by apply (is_str_nonzero m dst)|done|lia|lia|unfold NULL; lia|lia|].
      rewrite Hm. cbn [obind]. eexists. split; [done|]. split.
      * replace (take (Z.to_nat (size - 1) - length l0) l) with (take n l); [done|].
        unfold n. rewrite <- take_take. by rewrite (take_ge l (length l)).
      * intros x Hx. apply Hfr. lia.
    + eexists. split; [done|]. split; [|done].
      replace (Z.to_nat (size - 1) - length l0)%nat with O by lia. by rewrite app_nil_r.
Qed.

Lemma bounded_copies_correct_witness :
  (exists m', strlcpy 6 ex_mem 200 100 4 = Ret (m', 5) /\
     (0 < 4 -> is_str m' 200 [97; 98; 44]) /\
     (forall x, ~ (200 <= x < 204) -> rd m' x = rd ex_mem x)) /\
  (is_str ex_mem 200 [] -> (0 < 6)%nat ->
   exists m', strlcat 6 ex_mem 200 100 4 = Ret (m', 5) /\ is_str m' 200 [97; 98; 44] /\
     (forall x, ~ (200 + 0 <= x < 204) -> rd m' x = rd ex_mem x)).
Proof.
  destruct ex_mem_str as [Ha _].
  apply (bounded_copies_correct 6 ex_mem 200 [] 100 [97; 98; 44; 32; 99] 4);
    [lia|lia|done|simpl; lia|lia|simpl; lia].
Defined.

(** ** Tokens *)

Section Tokens.
Variables (fuel0 : nat) (t : Z) (ds : list Z).
Hypothesis Ht : 0 < t.
Hypothesis Hds : (length ds < fuel0)%nat.

Lemma tokens_skip l1 l2 : Forall (fun c => c ∈ ds) l1 -> tokens ds (l1 ++ l2) [] = tokens ds l2 [].
Proof.
  induction 1 as [|c l1 Hc _ IH]; [done|]. cbn. by rewrite decide_True.
Qed.

Lemma tokens_word w l2 : forall cur,
  Forall (fun c => c ∉ ds) w -> tokens ds (w ++ l2) cur = tokens ds l2 (cur ++ w).
Proof.
  induction w as [|c w IH]; intros cur H; [by rewrite app_nil_r|].
  inversion H; subst. cbn. rewrite decide_False by done. rewrite IH by done.
  by rewrite <- app_assoc.
Qed.

(** A string is delimiters alone, or delimiters, a word, and the end or another delimiter. *)
Lemma token_split l :
  Forall (fun c => c ∈ ds) l \/
  exists d w rest : list Z, l = d ++ w ++ rest /\ Forall (fun c => c ∈ ds) d /\ w <> [] /\
    Forall (fun c => c ∉ ds) w /\ (rest = [] \/ exists c rest', rest = c :: rest' /\ c ∈ ds).
Proof.
  induction l as [|c l IH]; [left; constructor|]. destruct (decide (c ∈ ds)) as [Hc|Hc].
  - destruct IH as [H|(d & w & rest & -> & H)]; [left; by constructor|].
    right. exists (c :: d), w, rest. split; [done|]. destruct H as (? & ?). split; [by constructor|done].
  - right. destruct IH as [H|(d & w & rest & -> & Hd & Hw & Hwn & Hr)].
    + exists [], [c], l. split_and!; [done|constructor|done|by repeat constructor|].
      destruct l as [|c' l]; [by left|]. right. inversion H; eauto.
    + destruct d as [|c' d].
      * exists [], (c :: w), rest. split_and!; [done|constructor|done|by constructor|done].
      * exists [], [c], (c' :: d ++ w ++ rest). inversion Hd; subst.
        split_and!; [done|constructor|done|by repeat constructor|]. right. eauto.
Qed.

Lemma strtok_skip_spec m d : forall fuel s l2,
  is_str m t ds -> is_str m s (d ++ l2) -> Forall (fun c => c ∈ ds) d ->
  (length d < fuel)%nat ->
  match l2 with [] => True | c :: _ => c ∉ ds end ->
  strtok_skip fuel0 m fuel t s =
  Ret (match l2 with [] => inl (s + Z.of_nat (length d)) | _ => inr (s + Z.of_nat (length d)) end).
Proof.
  induction d as [|c d IH]; intros [|fuel] s l2 Hs H Hd Hf Hl2; cbn [length app] in *; try lia;
    cbn [strtok_skip].
  - pose proof (rd_range m s) as Hrange.
    destruct (strchr_mem fuel0 m t ds (rd m s) Hs Ht Hds Hrange) as (r & -> & Hr).
    cbn [obind]. rewrite Hr, negb_involutive, Z.add_0_r.
    destruct l2 as [|c l2]; cbn [is_str] in H.
    + rewrite bool_decide_true by auto. by rewrite H.
    + destruct H as (-> & Hne & _). rewrite bool_decide_false by tauto. done.
  - destruct H as (Hc & Hne & H). pose proof (rd_range m s) as Hrange.
    destruct (strchr_mem fuel0 m t ds (rd m s) Hs Ht Hds Hrange) as (r & -> & Hr).
    cbn [obind]. inversion Hd; subst. rewrite Hr, bool_decide_true by auto. cbn [negb].
    replace (rd m s =? 0) with false by lia.
    rewrite (IH fuel (s + 1) l2); [|done|done|done|lia|done].
    destruct l2; do 2 f_equal; lia.
Qed.

Lemma strtok_scan_spec m w : forall fuel s rest,
  is_str m t ds -> is_str m s (w ++ rest) -> Forall (fun c => c ∉ ds) w ->
  (length w < fuel)%nat ->
  match rest with [] => True | c :: _ => c ∈ ds end ->
  strtok_scan fuel0 m fuel t s = Ret (s + Z.of_nat (length w)).
Proof.
  induction w as [|c w IH]; intros [|fuel] s rest Hs H Hw Hf Hrest; cbn [length app] in *;
    try lia; cbn [strtok_scan].
  - pose proof (rd_range m s) as Hrange.
    destruct (strchr_mem fuel0 m t ds (rd m s) Hs Ht Hds Hrange) as (r & -> & Hr).
    cbn [obind]. rewrite Hr, Z.add_0_r, bool_decide_true; [done|].
    destruct rest as [|c rest]; [by right|]. left. by destruct H as (-> & _).
  - destruct H as (Hc & Hne & H). pose proof (rd_range m s) as Hrange.
    destruct (strchr_mem fuel0 m t ds (rd m s) Hs Ht Hds Hrange) as (r & -> & Hr).
    cbn [obind]. inversion Hw; subst. rewrite Hr, bool_decide_false by tauto. cbn [negb].
    rewrite (IH fuel (s + 1) rest); [f_equal; lia|done|done|done|lia|done].
Qed.

(** One call on the string [l] at [p]: nothing is left, or the first word is cut off. *)
Lemma strtok_r_step m s save p l :
  p = (if s =? NULL then save else s) -> 0 < p ->
  is_str m t ds -> is_str m p l -> (length l < fuel0)%nat ->
  (strtok_r fuel0 m s t save = Ret (m, p + Z.of_nat (length l), NULL) /\ tokens ds l [] = []) \/
  exists m' (d w rest : list Z), strtok_r fuel0 m s t save =
      Ret (m', p + Z.of_nat (length l) - Z.of_nat (length rest), p + Z.of_nat (length d)) /\
    tokens ds l [] = w :: tokens ds rest [] /\
    (length d + length w + length rest <= length l)%nat /\ w <> [] /\
    (length rest < length l)%nat /\
    (rest = [] \/ length d + length w + length rest < length l)%nat /\
    is_str m' (p + Z.of_nat (length d)) w /\
    is_str m' (p + Z.of_nat (length l) - Z.of_nat (length rest)) rest /\
    (forall x, ~ (p <= x < p + Z.of_nat (length l)) -> rd m' x = rd m x).
Proof.
  intros Hp Hpos Hs Hl Hf. unfold strtok_r.
  replace (t =? NULL) with false by (unfold NULL; lia). rewrite <- Hp.
  replace (p =? NULL) with false by (unfold NULL; lia). cbn [negb].
  destruct (token_split l) as [Hall|(d & w & rest & -> & Hd & Hw & Hwn & Hrest)].
  - left. rewrite (strtok_skip_spec m l fuel0 p []);
      [|done|by rewrite app_nil_r|done|done|done]. split; [done|].
    rewrite <- (app_nil_r l). by apply tokens_skip.
  - right. rewrite !length_app in Hf.
    rewrite (strtok_skip_spec m d fuel0 p (w ++ rest)); [|done|done|done|lia|].
    2: { destruct w; [done|]. by inversion Hwn. }
    destruct w as [|c0 w0] eqn:Ew; [done|]. rewrite <- Ew in *. clear Hw.
    replace (match w ++ rest with [] => inl (p + Z.of_nat (length d))
             | _ :: _ => inr (p + Z.of_nat (length d)) end)
      with (inr (A := Z) (p + Z.of_nat (length d))) by by rewrite Ew.
    cbn [obind]. apply is_str_app in Hl as (Hld & _ & Hl).
    rewrite (strtok_scan_spec m w fuel0 _ rest); [|done|done|done|lia|].
    2: { by destruct Hrest as [->|(? & ? & -> & ?)]. }
    cbn [obind]. apply is_str_app in Hl as (Hlw & Hnz & Hl).
    rewrite tokens_skip by done. rewrite tokens_word by done. cbn [app].
    assert (Hlw0 : (0 < length w)%nat) by (subst w; simpl; lia).
    destruct Hrest as [->|(c & rest' & -> & Hc)].
    + exists m, d, w, []. rewrite app_nil_r in *. cbn [is_str] in Hl. rewrite Hl.
      cbn [negb Z.eqb]. rewrite !length_app. cbn [length tokens].
      rewrite decide_False by (subst w; done).
      split_and!; try done; try lia; [do 3 f_equal; lia|subst w; done|by left| |].
      * rewrite <- (app_nil_r w). apply is_str_app. done.
      * cbn [is_str]. rewrite <- Hl. f_equal. lia.
    + destruct Hl as (Hrc & Hcn & Hl). rewrite Hrc. replace (c =? 0) with false by lia.
      cbn [negb]. eexists _, d, w, rest'. split; [do 3 f_equal|].
      { rewrite !length_app. cbn [length]. lia. }
      rewrite !length_app. cbn [length tokens]. rewrite decide_True by done.
      rewrite decide_False by (subst w; done).
      split_and!; try done; try lia; [by subst w| | |].
      * apply (is_str_write).
        -- intros i x Hi. rewrite rd_wr. pose proof (lookup_lt_Some _ _ _ Hi).
           replace (_ =? _) with false by lia. by apply (bytes_at_lookup m _ w).
        -- done.
        -- rewrite rd_wr, Z.eqb_refl. done.
      * replace (p + Z.of_nat (length d + (length w + S (length rest'))) - Z.of_nat (length rest'))
          with (p + Z.of_nat (length d) + Z.of_nat (length w) + 1) by lia.
        apply (is_str_frame m); [|done]. intros x Hx. rewrite rd_wr.
        by replace (_ =? _) with false by lia.
      * intros x Hx. rewrite rd_wr. by replace (_ =? _) with false by lia.
Qed.
End Tokens.

(** Repeated calls of [strtok_r] return exactly the maximal runs of non-delimiters of the
    string, in order, each as a null-terminated string in the memory left by the last call;
    nothing outside the string is written, and the loop ends within one call more than the
    length of the string. *)
Theorem strtok_r_tokens calls fuel m s l t ds save :
  0 < s -> is_str m s l -> (length l < fuel)%nat -> (length l < calls)%nat ->
  0 < t -> is_str m t ds -> (length ds < fuel)%nat ->
  (t + Z.of_nat (length ds) < s \/ s + Z.of_nat (length l) < t) ->
  exists m' ptrs, strtok_all calls fuel m s t save = Ret (m', ptrs) /\
    Forall2 (is_str m') ptrs (tokens ds l []) /\
    (forall x, ~ (s <= x < s + Z.of_nat (length l)) -> rd m' x = rd m x).
Proof.
  intros Hs Hl Hf Hcalls Ht Hds Hfd Hdis.
  assert (Hgen : forall calls l p m s save, p = (if s =? NULL then save else s) -> 0 < p ->
    is_str m p l -> is_str m t ds -> (length l < fuel)%nat -> (length l < calls)%nat ->
    (t + Z.of_nat (length ds) < p \/ p + Z.of_nat (length l) < t) ->
    exists m' ptrs, strtok_all calls fuel m s t save = Ret (m', ptrs) /\
      Forall2 (is_str m') ptrs (tokens ds l []) /\
      (forall x, ~ (p <= x < p + Z.of_nat (length l)) -> rd m' x = rd m x)).
  2: { apply (Hgen calls l s m s save); try done. by replace (s =? NULL) with false by (unfold NULL; lia). }
  clear -Ht Hfd. induction calls as [|calls IH]; intros l p m s save Hp Hpos Hl Hds Hf Hc Hdis; [lia|].
  cbn [strtok_all].
  destruct (strtok_r_step fuel t ds Ht Hfd m s save p l Hp Hpos Hds Hl Hf)
    as [[-> ->]|(m1 & d & w & rest & -> & -> & Hlen & Hw & Hrl & Hor & Hwstr & Hrest & Hfr)].
  - cbn. eexists _, []. done.
  - cbn [obind]. replace (_ =? NULL) with false by (unfold NULL; lia).
    destruct (IH rest (p + Z.of_nat (length l) - Z.of_nat (length rest)) m1 NULL
                (p + Z.of_nat (length l) - Z.of_nat (length rest)))
      as (m' & ptrs & -> & Hptrs & Hfr'); [done|lia|done| |lia|lia|lia|].
    { apply (is_str_frame m); [|done]. intros x Hx. apply Hfr. lia. }
    cbn [obind]. eexists _, _. split; [done|]. split.
    + constructor; [|done]. apply (is_str_frame m1); [|done]. intros x Hx. apply Hfr'.
      destruct Hor as [->|Hor]; cbn [length] in *; lia.
    + intros x Hx. rewrite Hfr' by lia. apply Hfr. lia.
Qed.

Lemma strtok_r_tokens_witness :
  exists m' ptrs, strtok_all 6 6 ex_mem 100 106 NULL = Ret (m', ptrs) /\
    Forall2 (is_str m') ptrs [[97; 98]; [99]] /\
    (forall x, ~ (100 <= x < 105) -> rd m' x = rd ex_mem x).
Proof.
  destruct ex_mem_str as [Ha Hb].
  apply (strtok_r_tokens 6 6 ex_mem 100 [97; 98; 44; 32; 99] 106 [44; 32] NULL);
    [lia|done|simpl; lia|simpl; lia|lia|done|simpl; lia|simpl; lia].
Defined.
