(* ===== verification/KStdlib.v ===== *)
(** The utility routines of lib/stdlib.c and lib/ctype.h: character classes, [atoi], heap sort
    and binary search with a comparison callback. *)
From S2P Require Import Prelude Palloc KString.

(** * Definitions *)

(** ** Character classes (ctype.h) *)

Definition islower (c : Z) : bool := (97 <=? c) && (c <=? 122).
Definition isupper (c : Z) : bool := (65 <=? c) && (c <=? 90).
Definition isalpha (c : Z) : bool := islower c || isupper c.
Definition isdigit (c : Z) : bool := (48 <=? c) && (c <=? 57).
Definition isalnum (c : Z) : bool := isalpha c || isdigit c.
Definition isxdigit (c : Z) : bool :=
  isdigit c || ((97 <=? c) && (c <=? 102)) || ((65 <=? c) && (c <=? 70)).
Definition isspace (c : Z) : bool :=
  (c =? 32) || (c =? 12) || (c =? 10) || (c =? 13) || (c =? 9) || (c =? 11).
Definition isblank (c : Z) : bool := (c =? 32) || (c =? 9).
Definition isgraph (c : Z) : bool := (32 <? c) && (c <? 127).
Definition isprint (c : Z) : bool := (32 <=? c) && (c <? 127).
Definition iscntrl (c : Z) : bool := ((0 <=? c) && (c <? 32)) || (c =? 127).
Definition isascii (c : Z) : bool := (0 <=? c) && (c <? 128).
Definition ispunct (c : Z) : bool := isprint c && negb (isalnum c) && negb (isspace c).
Definition tolower (c : Z) : Z := if isupper c then c - 65 + 97 else c.
Definition toupper (c : Z) : Z := if islower c then c - 97 + 65 else c.

(** ** atoi

    [*s] has type [char], which is signed: [schar].  Overflow of the [int] arithmetic is
    undefined behaviour. *)

Definition schar (c : Z) : Z := if c <? 128 then c else c - 256.
Definition int_ (z : Z) : outcome Z :=
  if (INT_MIN <=? z) && (z <=? INT_MAX) then Ret z else UB.
Lemma int_Ret z : in_s32 z -> int_ z = Ret z.
Proof. intros. unfold int_, INT_MIN, INT_MAX. by replace (_ && _) with true by lia. Qed.
Lemma int_UB z : ~ in_s32 z -> int_ z = UB.
Proof. intros. unfold int_, INT_MIN, INT_MAX. by replace (_ && _) with false by lia. Qed.

Fixpoint atoi_skip (fuel : nat) (m : memory) (s : Z) : outcome Z :=
  match fuel with
  | O => NoFuel
  | S fuel => if isspace (rd m s) then atoi_skip fuel m (s + 1) else Ret s
  end.

Fixpoint atoi_digits (fuel : nat) (m : memory) (s value : Z) : outcome Z :=
  match fuel with
  | O => NoFuel
  | S fuel =>
      if isdigit (schar (rd m s)) then
        let? v := int_ (value * 10) in
        let? v := int_ (v - (schar (rd m s) - 48)) in
        atoi_digits fuel m (s + 1) v
      else Ret value
  end.

Definition atoi (fuel : nat) (m : memory) (s : Z) : outcome Z :=
  assert? negb (s =? NULL) in
  let? s := atoi_skip fuel m s in
  let '(s, negative) :=
    if rd m s =? 43 then (s + 1, false)
    else if rd m s =? 45 then (s + 1, true)
    else (s, false) in
  let? value := atoi_digits fuel m s 0 in
  if negb negative then int_ (- value) else Ret value.

(** ** Heap sort and binary search

    An array of [cnt] elements of [size] bytes is the list of its elements; indexes are
    1-based, as in the source.  [compare] is the callback with its auxiliary data. *)

Section Sorting.
Context {A : Type}.
Variable compare : A -> A -> Z.

Definition do_swap (array : list A) (a_idx b_idx : Z) : outcome (list A) :=
  let? a := aread array (a_idx - 1) in
  let? b := aread array (b_idx - 1) in
  let? array := aset array (a_idx - 1) b in
  aset array (b_idx - 1) a.

Definition do_compare (array : list A) (a_idx b_idx : Z) : outcome Z :=
  let? a := aread array (a_idx - 1) in
  let? b := aread array (b_idx - 1) in
  Ret (compare a b).

(** The indexes [2 * i] and [2 * i + 1] are of type [size_t]; they cannot wrap around, because an array of a
    size that an object can have has fewer than 2^31 elements. *)
Fixpoint heapify (fuel : nat) (array : list A) (i cnt : Z) : outcome (list A) :=
  match fuel with
  | O => NoFuel
  | S fuel =>
      let left := 2 * i in
      let right := 2 * i + 1 in
      let max := i in
      let? max := (if left <=? cnt then
                     let? c := do_compare array left max in
                     Ret (if 0 <? c then left else max)
                   else Ret max) in
      let? max := (if right <=? cnt then
                     let? c := do_compare array right max in
                     Ret (if 0 <? c then right else max)
                   else Ret max) in
      if max =? i then Ret array
      else
        let? array := do_swap array i max in
        heapify fuel array max cnt
  end.

(** One more than the height of a heap of [cnt] elements: the fuel of every [heapify]. *)
Definition heap_height (cnt : Z) : nat := S (Z.to_nat (Z.log2 cnt)).

Fixpoint build_heap_loop (n : nat) (array : list A) (cnt : Z) : outcome (list A) :=
  match n with
  | O => Ret array
  | S n' =>
      let? array := heapify (heap_height cnt) array (Z.of_nat n) cnt in
      build_heap_loop n' array cnt
  end.

(** [i] counts down to 2. *)
Fixpoint sort_heap_loop (i : nat) (array : list A) : outcome (list A) :=
  match i with
  | O => Ret array
  | S i' =>
      if 1 <? Z.of_nat i then
        let? array := do_swap array 1 (Z.of_nat i) in
        let? array := heapify (heap_height (Z.of_nat i - 1)) array 1 (Z.of_nat i - 1) in
        sort_heap_loop i' array
      else Ret array
  end.

Definition sort (array : list A) (cnt : Z) : outcome (list A) :=
  let? array := build_heap_loop (Z.to_nat (cnt / 2)) array cnt in
  sort_heap_loop (Z.to_nat cnt) array.

(** [first] and [last] are element indexes; the result is the index of a match. *)
Fixpoint binary_search_loop (fuel : nat) (key : A) (array : list A) (first last : Z)
    : outcome (option Z) :=
  match fuel with
  | O => NoFuel
  | S fuel =>
      if first <? last then
        let range := last - first in
        let middle := first + range / 2 in
        let? x := aread array middle in
        let cmp := compare key x in
        if cmp <? 0 then binary_search_loop fuel key array first middle
        else if 0 <? cmp then binary_search_loop fuel key array (middle + 1) last
        else Ret (Some middle)
      else Ret None
  end.

Definition binary_search (key : A) (array : list A) (cnt : Z) : outcome (option Z) :=
  binary_search_loop (S (heap_height cnt)) key array 0 cnt.
End Sorting.

(** The callback type of [qsort] and [bsearch] has no auxiliary argument. *)
Definition compare_thunk {A} (a b : A) (aux : A -> A -> Z) : Z := aux a b.
Definition qsort {A} (compare : A -> A -> Z) (array : list A) (cnt : Z) : outcome (list A) :=
  sort (fun a b => compare_thunk a b compare) array cnt.
Definition bsearch {A} (compare : A -> A -> Z) (key : A) (array : list A) (cnt : Z)
    : outcome (option Z) :=
  binary_search (fun a b => compare_thunk a b compare) key array cnt.

(** * Lemmas *)

(** A comparison callback as its documentation requires: a total preorder with strcmp-like
    results. *)
Class CompareOrder {A} (compare : A -> A -> Z) : Prop := {
  cmp_opp x y : 0 < compare x y <-> compare y x < 0;
  cmp_trans x y z : compare x y <= 0 -> compare y z <= 0 -> compare x z <= 0
}.

Section SortingFacts.
Context {A : Type} (compare : A -> A -> Z) `{!CompareOrder compare}.

Definition cle (x y : A) : Prop := compare x y <= 0.

Lemma cle_total x y : cle x y \/ cle y x.
Proof. unfold cle. pose proof (cmp_opp x y). lia. Qed.
Lemma cle_gt x y : 0 < compare x y -> cle y x.
Proof. unfold cle. rewrite cmp_opp. lia. Qed.
Lemma cle_refl x : cle x x.
Proof. destruct (cle_total x x); done. Qed.

Definition at1 (l : list A) (i : Z) : option A := aget l (i - 1).
(** The element at [j] is at most the one at [i]. *)
Definition le_at (l : list A) (j i : Z) : Prop :=
  forall x y, at1 l j = Some x -> at1 l i = Some y -> cle x y.
Definition child (p c : Z) : Prop := c = 2 * p \/ c = 2 * p + 1.

Lemma at1_is_Some (l : list A) i :
  1 <= i <= Z.of_nat (length l) -> exists x, at1 l i = Some x.
Proof. intros. apply aget_is_Some. lia. Qed.

Lemma le_at_trans l a b c :
  (exists x, at1 l b = Some x) -> le_at l a b -> le_at l b c -> le_at l a c.
Proof.
  intros [y Hy] H1 H2 x z Hx Hz. unfold cle. apply (cmp_trans x y z).
  - by apply H1.
  - by apply H2.
Qed.

Lemma do_compare_Ret l a b :
  1 <= a <= Z.of_nat (length l) -> 1 <= b <= Z.of_nat (length l) ->
  exists c, do_compare compare l a b = Ret c /\ (0 < c -> le_at l b a) /\ (c <= 0 -> le_at l a b).
Proof.
  intros Ha Hb. destruct (at1_is_Some l a Ha) as [x Hx], (at1_is_Some l b Hb) as [y Hy].
  exists (compare x y). unfold at1 in *. unfold do_compare, aread. rewrite Hx, Hy.
  split; [done|]. unfold le_at, at1. rewrite Hx, Hy.
  split; intros Hc x' y' [= <-] [= <-]; [by apply cle_gt|done].
Qed.

(** Swapping two positions. *)
Lemma do_swap_Ret (l : list A) a b :
  1 <= a <= Z.of_nat (length l) -> 1 <= b <= Z.of_nat (length l) -> a <> b ->
  exists l', do_swap l a b = Ret l' /\ length l' = length l /\ l ≡ₚ l' /\
    forall i, at1 l' i = if i =? a then at1 l b else if i =? b then at1 l a else at1 l i.
Proof.
  intros Ha Hb Hab. destruct (at1_is_Some l a Ha) as [x Hx], (at1_is_Some l b Hb) as [y Hy].
  unfold at1 in *. unfold do_swap, aread. rewrite Hx, Hy. cbn [obind deref].
  assert (H1 : aset l (a - 1) y = Ret (<[Z.to_nat (a - 1) := y]> l))
    by (apply aset_Ret; split; [lia|done]).
  rewrite H1. cbn [obind].
  assert (H2 : aset (<[Z.to_nat (a - 1) := y]> l) (b - 1) x
    = Ret (<[Z.to_nat (b - 1) := x]> (<[Z.to_nat (a - 1) := y]> l)))
    by (apply aset_Ret; rewrite length_insert; split; [lia|done]).
  rewrite H2. eexists. split; [done|]. rewrite !length_insert. split; [done|]. split.
  - unfold aget in Hx, Hy. replace (0 <=? a - 1) with true in Hx by lia.
    replace (0 <=? b - 1) with true in Hy by lia.
    symmetry. by apply Permutation_insert_swap.
  - intros i. destruct (i =? a) eqn:Eia; [|destruct (i =? b) eqn:Eib].
    + rewrite aget_insert_ne by lia. replace i with a by lia.
      rewrite aget_insert_eq by lia. done.
    + replace i with b by lia. rewrite aget_insert_eq by (rewrite length_insert; lia). done.
    + rewrite !aget_insert_ne by lia. done.
Qed.
(** The heap order holds from position [k] on, except below [i], whose children are below
    its parent. *)
Definition heap_but (l : list A) (k cnt i : Z) : Prop :=
  (forall p c, k <= p -> child p c -> c <= cnt -> p <> i -> le_at l c p) /\
  (forall p c, k <= p -> child p i -> child i c -> c <= cnt -> le_at l c p).
Definition heap_from (l : list A) (k cnt : Z) : Prop :=
  forall p c, k <= p -> child p c -> c <= cnt -> le_at l c p.

Lemma le_at_swap l l' a b x y x' y' :
  (forall i, at1 l' i = if i =? a then at1 l b else if i =? b then at1 l a else at1 l i) ->
  x' = (if x =? a then b else if x =? b then a else x) ->
  y' = (if y =? a then b else if y =? b then a else y) ->
  le_at l x' y' -> le_at l' x y.
Proof.
  intros H -> -> Hle u v. rewrite !H. unfold le_at in Hle.
  destruct (x =? a), (x =? b), (y =? a), (y =? b); apply Hle.
Qed.

(** [max] selected by [heapify]: the largest of the element and its children. *)
Lemma select_max l i cnt :
  1 <= i -> i <= cnt -> cnt <= Z.of_nat (length l) ->
  exists m, (let? max := (if 2 * i <=? cnt then
                            let? c := do_compare compare l (2 * i) i in
                            Ret (if 0 <? c then 2 * i else i)
                          else Ret i) in
             if 2 * i + 1 <=? cnt then
               let? c := do_compare compare l (2 * i + 1) max in
               Ret (if 0 <? c then 2 * i + 1 else max)
             else Ret max) = Ret m /\
    (m = i \/ child i m /\ m <= cnt) /\ le_at l i m /\
    (forall c, child i c -> c <= cnt -> le_at l c m).
Proof.
  intros Hi Hic Hlen.
  assert (Hrefl : forall j, le_at l j j).
  { intros j x y Hx Hy. rewrite Hx in Hy. injection Hy as ->. apply cle_refl. }
  assert (H1 : exists m1, (if 2 * i <=? cnt then
                   let? c := do_compare compare l (2 * i) i in
                   Ret (if 0 <? c then 2 * i else i)
                 else Ret i) = Ret m1 /\ (m1 = i \/ m1 = 2 * i /\ m1 <= cnt) /\ le_at l i m1 /\
                (2 * i <= cnt -> le_at l (2 * i) m1)).
  { destruct (2 * i <=? cnt) eqn:E1.
    - destruct (do_compare_Ret l (2 * i) i) as (c & -> & Hgt & Hle); [lia|lia|]. cbn [obind].
      destruct (0 <? c) eqn:Ec; eexists; (split; [done|]); split_and!; auto with lia.
    - exists i. split_and!; [done|by left|done|lia]. }
  destruct H1 as (m1 & -> & Hm1 & Him1 & Hl). cbn [obind].
  destruct (2 * i + 1 <=? cnt) eqn:E2.
  - destruct (do_compare_Ret l (2 * i + 1) m1) as (c & -> & Hgt & Hle); [lia|lia|]. cbn [obind].
    destruct (at1_is_Some l m1) as [xm Hxm]; [lia|].
    destruct (0 <? c) eqn:Ec; eexists; (split; [done|]); unfold child; split_and!.
    + right. lia.
    + eapply le_at_trans; [eauto|done|apply Hgt; lia].
    + intros c' [->| ->] Hc'; [|done]. eapply le_at_trans; [eauto|auto|apply Hgt; lia].
    + lia.
    + done.
    + intros c' [->| ->] Hc'; [auto|apply Hle; lia].
  - eexists. split; [done|]. unfold child. split_and!; [lia|done|].
    intros c' [->| ->] Hc'; [auto|lia].
Qed.

Lemma heapify_correct fuel : forall l k i cnt,
  1 <= k <= i -> i <= cnt -> cnt <= Z.of_nat (length l) ->
  heap_but l k cnt i -> Z.log2 cnt - Z.log2 i < Z.of_nat fuel ->
  exists l', heapify compare fuel l i cnt = Ret l' /\ l ≡ₚ l' /\ heap_from l' k cnt /\
    (forall j, cnt < j -> at1 l' j = at1 l j) /\
    (forall j, 1 <= j <= cnt -> exists j', 1 <= j' <= cnt /\ at1 l' j = at1 l j').
Proof.
  induction fuel as [|fuel IH]; intros l k i cnt Hk Hi Hlen [Hh1 Hh2] Hf.
  { pose proof (Z.log2_le_mono i cnt Hi). lia. }
  cbn [heapify]. destruct (select_max l i cnt) as (m & Hsel & Hm & Him & Hcm); [lia..|].
  apply obind_Ret in Hsel as (m1 & -> & Hsel). cbn [obind]. rewrite Hsel. cbn [obind].
  destruct (m =? i) eqn:Emi.
  - exists l. split_and!; [done|done| |done|eauto]. intros p c Hp Hpc Hc.
    destruct (decide (p = i)) as [->|Hne]; [|by apply Hh1].
    replace m with i in * by lia. by apply Hcm.
  - destruct Hm as [->|[Hchild Hmc]]; [lia|]. unfold child in *.
    destruct (do_swap_Ret l i m) as (l1 & -> & Hlen1 & Hperm & Hat); [lia|lia|lia|].
    cbn [obind].
    destruct (IH l1 k m cnt) as (l' & -> & Hp' & Hheap & Hout & Hin); [lia|lia|lia| | |].
    + split.
      * intros p c Hp Hpc Hc Hpm. unfold child in *.
        destruct (decide (p = i)) as [->|Hpi].
        { destruct (decide (c = m)) as [->|Hcm'].
          - apply (le_at_swap l l1 i m _ _ i m Hat); [|by rewrite Z.eqb_refl|done].
            replace (m =? i) with false by lia. by rewrite Z.eqb_refl.
          - apply (le_at_swap l l1 i m _ _ c m Hat); [| |by apply Hcm].
            + replace (c =? i) with false by lia. by replace (c =? m) with false by lia.
            + by rewrite Z.eqb_refl. }
        destruct (decide (c = i)) as [->|Hci].
        { apply (le_at_swap l l1 i m _ _ m p Hat); [by rewrite Z.eqb_refl| |].
          - replace (p =? i) with false by lia. by replace (p =? m) with false by lia.
          - by apply Hh2. }
        apply (le_at_swap l l1 i m _ _ c p Hat).
        -- replace (c =? i) with false by lia. by replace (c =? m) with false by lia.
        -- replace (p =? i) with false by lia. by replace (p =? m) with false by lia.
        -- by apply Hh1.
      * intros p c Hp Hpm Hmcc Hc. unfold child in *. replace p with i in * by lia.
        apply (le_at_swap l l1 i m _ _ c m Hat).
        -- replace (c =? i) with false by lia. by replace (c =? m) with false by lia.
        -- by rewrite Z.eqb_refl.
        -- apply Hh1; [lia|done|done|lia].
    + assert (Z.log2 m = Z.log2 i + 1); [|lia].
      destruct Hchild as [->| ->]; [rewrite Z.log2_double|rewrite Z.log2_succ_double]; lia.
    + exists l'. split_and!; [done|by etrans|done| |].
      * intros j Hj. rewrite Hout, Hat by lia. replace (j =? i) with false by lia.
        by replace (j =? m) with false by lia.
      * intros j Hj. destruct (Hin j Hj) as (j' & Hj' & ->). rewrite Hat.
        destruct (j' =? i); [exists m; split; [lia|done]|].
        destruct (j' =? m); [exists i; split; [lia|done]|eauto].
Qed.

Lemma build_heap_correct cnt n : forall l,
  Z.of_nat n <= cnt -> 0 <= cnt <= Z.of_nat (length l) -> heap_from l (Z.of_nat n + 1) cnt ->
  exists l', build_heap_loop compare n l cnt = Ret l' /\ l ≡ₚ l' /\ heap_from l' 1 cnt /\
    (forall j, cnt < j -> at1 l' j = at1 l j).
Proof.
  induction n as [|n IH]; intros l Hn Hc Hh; cbn [build_heap_loop]; [eauto|].
  destruct (heapify_correct (heap_height cnt) l (Z.of_nat (S n)) (Z.of_nat (S n)) cnt)
    as (l1 & -> & Hp & Hh1 & Hout & _); [lia|lia|lia| | |].
  - unfold heap_but, child. split; [|intros; lia]. intros p c Hp Hpc Hcc Hne. apply Hh; [lia|done|done].
  - unfold heap_height. pose proof (Z.log2_nonneg (Z.of_nat (S n))).
    pose proof (Z.log2_nonneg cnt). lia.
  - cbn [obind]. destruct (IH l1) as (l2 & -> & Hp2 & Hh2 & Hout2); [lia| | |].
    + pose proof (Permutation_length Hp). lia.
    + replace (Z.of_nat n + 1) with (Z.of_nat (S n)) by lia. done.
    + exists l2. split_and!; [done|by etrans|done|]. intros j Hj. by rewrite Hout2, Hout.
Qed.

(** The root of a heap dominates every element. *)
Lemma heap_root l cnt : cnt <= Z.of_nat (length l) -> heap_from l 1 cnt ->
  forall j, 1 <= j <= cnt -> le_at l j 1.
Proof.
  intros Hlen Hh j. induction j as [j IH] using (well_founded_induction (Z.lt_wf 0)).
  intros Hj. destruct (decide (j = 1)) as [->|].
  - intros x y Hx Hy. rewrite Hx in Hy. injection Hy as ->. apply cle_refl.
  - pose proof (Z.div_mod j 2). pose proof (Z.mod_pos_bound j 2).
    eapply (le_at_trans l j (j / 2) 1); [apply at1_is_Some; lia| |apply IH; lia].
    apply Hh; unfold child; lia.
Qed.

Lemma sort_heap_correct cnt i : forall l,
  Z.of_nat i <= cnt -> cnt <= Z.of_nat (length l) ->
  heap_from l 1 (Z.of_nat i) ->
  (forall a b, 1 <= a -> a < b -> Z.of_nat i < b -> b <= cnt -> le_at l a b) ->
  exists l', sort_heap_loop compare i l = Ret l' /\ l ≡ₚ l' /\
    (forall a b, 1 <= a -> a < b -> b <= cnt -> le_at l' a b) /\
    (forall j, cnt < j -> at1 l' j = at1 l j).
Proof.
  induction i as [|i IH]; intros l Hi Hlen Hh Hs; cbn [sort_heap_loop].
  { exists l. split_and!; [done|done| |done]. intros; apply Hs; lia. }
  destruct (1 <? Z.of_nat (S i)) eqn:E1.
  2: { exists l. split_and!; [done|done| |done]. intros; apply Hs; lia. }
  destruct (do_swap_Ret l 1 (Z.of_nat (S i))) as (l1 & -> & Hlen1 & Hp1 & Hat); [lia|lia|lia|].
  cbn [obind]. replace (Z.of_nat (S i) - 1) with (Z.of_nat i) by lia.
  assert (Hat' : forall j, j <> 1 -> j <> Z.of_nat (S i) -> at1 l1 j = at1 l j).
  { intros j ? ?. rewrite Hat. replace (j =? 1) with false by lia.
    by replace (j =? Z.of_nat (S i)) with false by lia. }
  destruct (heapify_correct (heap_height (Z.of_nat i)) l1 1 1 (Z.of_nat i))
    as (l2 & -> & Hp2 & Hh2 & Hout2 & Hin2); [lia|lia|lia| | |].
  - unfold heap_but, child. split; [|intros; lia]. intros p c Hp Hpc Hc Hne x y.
    rewrite !Hat' by lia. apply Hh; unfold child; lia.
  - unfold heap_height. pose proof (Z.log2_nonneg (Z.of_nat i)). simpl (Z.log2 1). lia.
  - cbn [obind]. pose proof (Permutation_length Hp2).
    destruct (IH l2) as (l3 & -> & Hp3 & Hs3 & Hout3); [lia|lia|done| |].
    + intros a b Ha Hab Hb Hbc x y. rewrite (Hout2 b) by lia.
      assert (exists a', 1 <= a' <= cnt /\ at1 l2 a = at1 l a' /\
                (a' <= Z.of_nat (S i) \/ a' = a) /\ (Z.of_nat (S i) < a -> a' = a))
        as (a' & Ha' & -> & Hor & Hbig).
      { destruct (decide (a <= Z.of_nat i)).
        - destruct (Hin2 a) as (a1 & Ha1 & ->); [lia|]. rewrite Hat.
          destruct (a1 =? 1); [exists (Z.of_nat (S i)); split_and!; [lia|lia|done|lia|lia]|].
          replace (a1 =? Z.of_nat (S i)) with false by lia.
          exists a1. split_and!; [lia|lia|done|lia|lia].
        - rewrite (Hout2 a) by lia. rewrite Hat. replace (a =? 1) with false by lia.
          destruct (a =? Z.of_nat (S i)) eqn:Ea; [exists 1|exists a]; split_and!; lia || done. }
      destruct (decide (b = Z.of_nat (S i))) as [->|].
      * rewrite Hat. replace (Z.of_nat (S i) =? 1) with false by lia. rewrite Z.eqb_refl.
        apply (heap_root l (Z.of_nat (S i))); [lia|done|lia].
      * rewrite Hat' by lia. apply Hs; lia.
    + exists l3. split_and!; [done|by rewrite Hp1, Hp2|done|].
      intros j Hj. rewrite Hout3, Hout2 by lia. apply Hat'; lia.
Qed.

End SortingFacts.

Lemma StronglySorted_at {A} (R : A -> A -> Prop) (l : list A) :
  StronglySorted R l <->
  forall i j x y, (i < j)%nat -> l !! i = Some x -> l !! j = Some y -> R x y.
Proof.
  induction l as [|a l IH]; [split; [done|constructor]|]. split.
  - intros H. inversion H as [|? ? Hl Ha]; subst. rewrite Forall_forall in Ha.
    intros [|i] [|j] x y Hij Hx Hy; simpl in *; try lia.
    + injection Hx as ->. apply Ha. by eapply list_elem_of_lookup_2.
    + apply (proj1 IH Hl i j x y); [lia|done|done].
  - intros H. constructor.
    + apply IH. intros i j x y Hij Hx Hy. apply (H (S i) (S j)); [lia|done|done].
    + apply Forall_forall. intros y Hy. apply list_elem_of_lookup_1 in Hy as [j Hj].
      apply (H O (S j) a y); [lia|done|done].
Qed.

(** C22. [sort] (and so [qsort]) permutes the first [cnt] elements into ascending order and
    leaves the others, for every callback that orders as its documentation requires; each
    [heapify] ends within the height of the heap. *)
Theorem sort_correct {A} (compare : A -> A -> Z) `{!CompareOrder compare}
    (array : list A) (cnt : Z) :
  0 <= cnt <= Z.of_nat (length array) ->
  exists array', sort compare array cnt = Ret array' /\ qsort compare array cnt = Ret array' /\
    array ≡ₚ array' /\ drop (Z.to_nat cnt) array' = drop (Z.to_nat cnt) array /\
    StronglySorted (fun x y => compare x y <= 0) (take (Z.to_nat cnt) array').
Proof.
  intros Hc.
  assert (Hs : exists array', sort compare array cnt = Ret array' /\ array ≡ₚ array' /\
    (forall a b, 1 <= a -> a < b -> b <= cnt -> le_at compare array' a b) /\
    (forall j, cnt < j -> at1 array' j = at1 array j)).
  { unfold sort. pose proof (Z.div_mod cnt 2). pose proof (Z.mod_pos_bound cnt 2).
    destruct (build_heap_correct compare cnt (Z.to_nat (cnt / 2)) array)
      as (l1 & -> & Hp1 & Hh1 & Hout1); [lia|lia| |].
    { intros p c Hp Hpc. unfold child in *. lia. }
    cbn [obind]. pose proof (Permutation_length Hp1).
    destruct (sort_heap_correct compare cnt (Z.to_nat cnt) l1)
      as (l2 & -> & Hp2 & Hs2 & Hout2); [lia|lia|by rewrite Z2Nat.id by lia|intros; lia|].
    exists l2. split_and!; [done|by etrans|done|]. intros j Hj. by rewrite Hout2, Hout1. }
  destruct Hs as (l & Hl & Hp & Hs & Hout). exists l. pose proof (Permutation_length Hp).
  split_and!; [done|exact Hl|done| |].
  - apply list_eq. intros i. rewrite !lookup_drop.
    specialize (Hout (Z.of_nat (Z.to_nat cnt + i) + 1) ltac:(lia)). unfold at1, aget in Hout.
    replace (Z.of_nat (Z.to_nat cnt + i) + 1 - 1) with (Z.of_nat (Z.to_nat cnt + i)) in Hout by lia.
    replace (0 <=? _) with true in Hout by lia. by rewrite Nat2Z.id in Hout.
  - apply StronglySorted_at. intros i j x y Hij Hx Hy.
    apply lookup_take_Some in Hx as [Hx Hi], Hy as [Hy Hj].
    apply (Hs (Z.of_nat i + 1) (Z.of_nat j + 1)); [lia|lia|lia| |]; unfold at1, aget.
    + replace (0 <=? _) with true by lia. by replace (Z.to_nat _) with i by lia.
    + replace (0 <=? _) with true by lia. by replace (Z.to_nat _) with j by lia.
Qed.

#[export] Instance Zsub_compare : CompareOrder (fun a b : Z => a - b).
Proof. split; lia. Qed.

Lemma sort_correct_witness :
  0 <= 5 <= 6 /\
  exists array', sort (fun a b => a - b) [5; 2; 9; 2; 7; 1] 5 = Ret array' /\
    qsort (fun a b => a - b) [5; 2; 9; 2; 7; 1] 5 = Ret array' /\
    [5; 2; 9; 2; 7; 1] ≡ₚ array' /\ drop 5 array' = [1] /\
    StronglySorted (fun x y => x - y <= 0) (take 5 array').
Proof.
  split; [lia|]. apply (sort_correct (fun a b => a - b) [5; 2; 9; 2; 7; 1] 5). simpl. lia.
Defined.

Example sort_ex : sort (fun a b => a - b) [5; 2; 9; 2; 7; 1] 6 = Ret [1; 2; 2; 5; 7; 9].
Proof. reflexivity. Qed.

Lemma binary_search_loop_correct {A} (compare : A -> A -> Z) key (l : list A) cnt :
  cnt <= Z.of_nat (length l) ->
  (forall i j x y, 0 <= i < j -> j < cnt -> aget l i = Some x -> aget l j = Some y ->
     (compare key x < 0 -> compare key y < 0) /\ (0 < compare key y -> 0 < compare key x)) ->
  forall fuel first last, 0 <= first -> last <= cnt ->
  (last - first < 2 ^ (Z.of_nat fuel - 1)) -> (0 < fuel)%nat ->
  (forall i x, 0 <= i < first -> aget l i = Some x -> 0 < compare key x) ->
  (forall i x, last <= i < cnt -> aget l i = Some x -> compare key x < 0) ->
  exists r, binary_search_loop compare fuel key l first last = Ret r /\
    match r with
    | Some i => 0 <= i < cnt /\ exists x, aget l i = Some x /\ compare key x = 0
    | None => forall i x, 0 <= i < cnt -> aget l i = Some x -> compare key x <> 0
    end.
Proof.
  intros Hlen Hmono. induction fuel as [|fuel IH]; intros first last Hf Hl Hfuel Hpos Hlo Hhi; [lia|].
  cbn [binary_search_loop]. destruct (first <? last) eqn:E.
  2: { eexists. split; [done|]. intros i x Hi Hx.
       destruct (decide (i < first)); [assert (0 < compare key x) by (by apply (Hlo i x); [lia|])
                                      |assert (compare key x < 0) by (by apply (Hhi i x); [lia|])];
       lia. }
  pose proof (Z.div_mod (last - first) 2). pose proof (Z.mod_pos_bound (last - first) 2).
  set (middle := first + (last - first) / 2) in *.
  destruct (aget_is_Some l middle) as [x Hx]; [lia|].
  unfold aread. rewrite Hx. cbn [deref obind].
  destruct fuel as [|fuel]; [simpl in Hfuel; lia|].
  assert (Hp : 2 ^ (Z.of_nat (S (S fuel)) - 1) = 2 * 2 ^ (Z.of_nat (S fuel) - 1)).
  { rewrite <- Z.pow_succ_r by lia. f_equal. lia. }
  rewrite Hp in Hfuel.
  destruct (compare key x <? 0) eqn:E1; [|destruct (0 <? compare key x) eqn:E2].
  - apply IH; [lia|lia|lia|lia|done|]. intros i y Hi Hy.
    destruct (decide (i = middle)) as [->|]; [rewrite Hx in Hy; injection Hy as ->; lia|].
    apply (Hmono middle i x y); [lia|lia|done|done|lia].
  - apply IH; [lia|lia|lia|lia| |done]. intros i y Hi Hy.
    destruct (decide (i = middle)) as [->|]; [rewrite Hx in Hy; injection Hy as ->; lia|].
    apply (Hmono i middle y x); [lia|lia|done|done|lia].
  - eexists. split; [done|]. split; [lia|]. exists x. split; [done|lia].
Qed.

(** On an array whose first [cnt] elements are sorted, [binary_search] (and so [bsearch])
    returns a matching element if there is one and a null result otherwise, within one
    iteration more than the binary logarithm of [cnt]. *)
Theorem binary_search_correct {A} (compare : A -> A -> Z) `{!CompareOrder compare}
    (key : A) (array : list A) (cnt : Z) :
  0 <= cnt <= Z.of_nat (length array) ->
  StronglySorted (fun x y => compare x y <= 0) (take (Z.to_nat cnt) array) ->
  exists r, binary_search compare key array cnt = Ret r /\ bsearch compare key array cnt = Ret r /\
    match r with
    | Some i => 0 <= i < cnt /\ exists x, aget array i = Some x /\ compare key x = 0
    | None => forall i x, 0 <= i < cnt -> aget array i = Some x -> compare key x <> 0
    end.
Proof.
  intros Hc Hs.
  destruct (binary_search_loop_correct compare key array cnt) with (fuel := S (heap_height cnt))
    (first := 0) (last := cnt) as (r & Hr & Hspec); [lia| |lia|lia| |lia|intros; lia|intros; lia|].
  - rewrite StronglySorted_at in Hs. intros i j x y Hij Hj Hx Hy.
    assert (Hxy : compare x y <= 0).
    { unfold aget in *. replace (0 <=? i) with true in Hx by lia.
      replace (0 <=? j) with true in Hy by lia.
      apply (Hs (Z.to_nat i) (Z.to_nat j)); [lia|apply lookup_take_Some; split; [done|lia]..]. }
    pose proof (cmp_opp x key). pose proof (cmp_opp key x).
    pose proof (cmp_opp y key). pose proof (cmp_opp key y).
    pose proof (cmp_opp y x). pose proof (cmp_trans x y key). pose proof (cmp_trans key x y).
    pose proof (cmp_trans y key x). pose proof (cmp_trans y x key). split; intros; lia.
  - unfold heap_height. replace (Z.of_nat _ - 1) with (Z.succ (Z.log2 cnt))
      by (pose proof (Z.log2_nonneg cnt); lia).
    destruct (decide (cnt = 0)) as [->|]; [simpl; lia|].
    pose proof (Z.log2_spec cnt). lia.
  - exists r. split_and!; [exact Hr|exact Hr|done].
Qed.

Lemma binary_search_correct_witness :
  StronglySorted (fun x y => x - y <= 0) [1; 3; 5; 8] /\
  exists r, binary_search (fun a b => a - b) 5 [1; 3; 5; 8] 4 = Ret r /\
    bsearch (fun a b => a - b) 5 [1; 3; 5; 8] 4 = Ret r /\
    match r with
    | Some i => 0 <= i < 4 /\ exists x, aget [1; 3; 5; 8] i = Some x /\ 5 - x = 0
    | None => forall i x, 0 <= i < 4 -> aget [1; 3; 5; 8] i = Some x -> 5 - x <> 0
    end.
Proof.
  assert (H : StronglySorted (fun x y => x - y <= 0) [1; 3; 5; 8]) by by_compute.
  split; [exact H|]. apply (binary_search_correct (fun a b => a - b) 5 [1; 3; 5; 8] 4); [|exact H].
  simpl. lia.
Defined.

(** ** atoi *)

(** The value of a list of decimal digits. *)
Definition decimal (ds : list Z) : Z := fold_left (fun v d => 10 * v + (d - 48)) ds 0.

Lemma isdigit_schar c : 0 <= c < 256 -> isdigit (schar c) = isdigit c.
Proof. intros. unfold schar, isdigit. destruct (c <? 128) eqn:E; lia. Qed.

Lemma decimal_from ds : forall v, Forall (fun d => isdigit d = true) ds -> 0 <= v ->
  v <= fold_left (fun v d => 10 * v + (d - 48)) ds v.
Proof.
  induction ds as [|d ds IH]; intros v Hd Hv; cbn [fold_left]; [lia|].
  inversion Hd as [|? ? Hd1 Hd2]; subst. unfold isdigit in Hd1.
  pose proof (IH (10 * v + (d - 48)) Hd2). lia.
Qed.

Lemma atoi_skip_spec m ws : forall fuel s,
  bytes_at m s ws -> Forall (fun c => isspace c = true) ws -> (length ws < fuel)%nat ->
  isspace (rd m (s + Z.of_nat (length ws))) = false ->
  atoi_skip fuel m s = Ret (s + Z.of_nat (length ws)).
Proof.
  induction ws as [|c ws IH]; intros [|fuel] s Hb Hw Hf Hr; cbn [length bytes_at] in *; try lia;
    cbn [atoi_skip].
  - rewrite Z.add_0_r in *. by rewrite Hr.
  - destruct Hb as [Hc Hb]. inversion Hw as [|? ? Hc1 Hw1]; subst. rewrite Hc1.
    rewrite (IH fuel (s + 1) Hb Hw1); [f_equal; lia|lia|]. rewrite <- Hr. do 2 f_equal. lia.
Qed.

Lemma atoi_digits_spec m ds : forall fuel s v,
  bytes_at m s ds -> Forall (fun d => isdigit d = true) ds -> (length ds < fuel)%nat ->
  isdigit (rd m (s + Z.of_nat (length ds))) = false -> 0 <= v ->
  fold_left (fun v d => 10 * v + (d - 48)) ds v <= 2 ^ 31 ->
  atoi_digits fuel m s (- v) = Ret (- fold_left (fun v d => 10 * v + (d - 48)) ds v).
Proof.
  induction ds as [|d ds IH]; intros [|fuel] s v Hb Hd Hf Hr Hv Hbound;
    cbn [length bytes_at fold_left] in *; try lia; cbn [atoi_digits].
  - rewrite Z.add_0_r in *. by rewrite isdigit_schar, Hr by apply rd_range.
  - destruct Hb as [Hc Hb]. inversion Hd as [|? ? Hd1 Hd2]; subst.
    pose proof (rd_range m s). rewrite isdigit_schar, Hd1 by done.
    assert (schar (rd m s) = rd m s) as ->.
    { unfold schar, isdigit in *. replace (rd m s <? 128) with true by lia. done. }
    unfold isdigit in Hd1.
    pose proof (decimal_from ds (10 * v + (rd m s - 48)) Hd2).
    unfold int_, INT_MIN, INT_MAX. replace (_ && _) with true by lia. cbn [obind].
    replace (_ && _) with true by lia. cbn [obind].
    replace (- v * 10 - (rd m s - 48)) with (- (10 * v + (rd m s - 48))) by lia.
    apply IH; [done|done|lia| |lia|lia].
    rewrite <- Hr. do 2 f_equal. lia.
Qed.

Lemma atoi_value fuel m s ws sign ds :
  s <> NULL -> bytes_at m s (ws ++ sign ++ ds) ->
  Forall (fun c => isspace c = true) ws -> sign = [] \/ sign = [43] \/ sign = [45] ->
  Forall (fun d => isdigit d = true) ds -> ds <> [] ->
  isdigit (rd m (s + Z.of_nat (length (ws ++ sign ++ ds)))) = false ->
  (length (ws ++ sign ++ ds) < fuel)%nat ->
  let value := if decide (sign = [45]) then - decimal ds else decimal ds in
  in_s32 value -> atoi fuel m s = Ret value.
Proof.
  intros Hs Hb Hw Hsign Hd Hne Hend Hf value Hv. unfold atoi.
  replace (s =? NULL) with false by lia. cbn [negb].
  apply bytes_at_app in Hb as [Hbw Hb]. rewrite !length_app in *.
  pose proof (decimal_from ds 0 Hd) as Hdn. fold (decimal ds) in Hdn.
  set (p := s + Z.of_nat (length ws)) in *.
  assert (Hsp : atoi_skip fuel m s = Ret p).
  { apply atoi_skip_spec; [done|done|lia|]. fold p.
    assert (exists c l, sign ++ ds = c :: l /\ isspace c = false) as (c & l & E & Hc).
    { destruct Hsign as [->|[-> | ->]]; cbn; [|eauto..].
      destruct ds as [|d ds']; [done|]. exists d, ds'. split; [done|].
      inversion Hd; subst. unfold isdigit, isspace in *. lia. }
    rewrite E in Hb. by destruct Hb as [-> _]. }
  rewrite Hsp. cbn [obind]. clear Hsp.
  assert (Hdig : forall q, bytes_at m q ds -> q + Z.of_nat (length ds) =
      s + Z.of_nat (length ws + (length sign + length ds)) ->
      atoi_digits fuel m q 0 = Ret (- decimal ds)).
  { intros q Hq Hqe. apply (atoi_digits_spec m ds fuel q 0); [done|done|lia|by rewrite Hqe|lia|].
    fold (decimal ds). unfold value in Hv. destruct (decide _); lia. }
  apply bytes_at_app in Hb as [Hbs Hb].
  destruct Hsign as [->|[-> | ->]]; cbn [length bytes_at] in *; rewrite ?Z.add_0_r in *.
  - assert ((rd m p =? 43) = false /\ (rd m p =? 45) = false) as [-> ->].
    { destruct ds as [|d ds']; [done|]. destruct Hb as [-> _]. inversion Hd; subst.
      unfold isdigit in *. lia. }
    cbn [negb]. rewrite (Hdig p Hb) by (unfold p; lia). cbn [obind].
    unfold value in *. rewrite decide_False in * by done. unfold int_, INT_MIN, INT_MAX.
    replace (_ && _) with true by lia. f_equal. lia.
  - destruct Hbs as [-> _]. cbn [Z.eqb Pos.eqb negb].
    rewrite (Hdig (p + 1)); [|done|unfold p; lia]. cbn [obind].
    unfold value in *. rewrite decide_False in * by done. unfold int_, INT_MIN, INT_MAX.
    replace (_ && _) with true by lia. f_equal. lia.
  - destruct Hbs as [-> _]. cbn [Z.eqb Pos.eqb negb].
    rewrite (Hdig (p + 1)); [|done|unfold p; lia]. cbn [obind].
    unfold value. by rewrite decide_True by done.
Qed.

(** [atoi] skips white space, reads an optional sign and the digits that follow, and
    returns their signed value whenever it is representable, the smallest [int] included. *)
Theorem atoi_correct fuel m s ws sign ds :
  s <> NULL -> bytes_at m s (ws ++ sign ++ ds) ->
  Forall (fun c => isspace c = true) ws -> sign = [] \/ sign = [43] \/ sign = [45] ->
  Forall (fun d => isdigit d = true) ds -> ds <> [] ->
  isdigit (rd m (s + Z.of_nat (length (ws ++ sign ++ ds)))) = false ->
  (length (ws ++ sign ++ ds) < fuel)%nat ->
  let value := if decide (sign = [45]) then - decimal ds else decimal ds in
  in_s32 value -> atoi fuel m s = Ret value.
Proof. apply atoi_value. Qed.

(** " -2147483648" *)
Definition ex_number : list Z := [32; 45; 50; 49; 52; 55; 52; 56; 51; 54; 52; 56].

Lemma atoi_correct_witness : atoi 20 (mem_of 100 ex_number) 100 = Ret (-2147483648).
Proof.
  apply (atoi_correct 20 (mem_of 100 ex_number) 100 [32] [45] (drop 2 ex_number));
    [done|vm_compute; tauto|by_compute|auto|by_compute|done|reflexivity|simpl; lia|].
  by vm_compute.
Defined.
