(* ===== verification/Hash.v ===== *)
(** The chained hash table (lib/kernel/hash.c).  A bucket is the sequence of the addresses of
    its elements: that the list routines implement sequences is proved in KListFacts.  The
    hash and comparison callbacks (with their auxiliary data) are arguments, and so is
    whether an allocation succeeds. *)
From S2P Require Import Prelude KList Palloc KString.

(** * Definitions *)

Definition hash_elem : Type := loc.

Record hash := mk_hash { elem_cnt : Z; bucket_cnt : Z; buckets : list (list hash_elem) }.

(** The position of an iterator in its bucket: the sentinels, an element, or null. *)
Inductive cursor := AtHead | At (e : hash_elem) | AtEnd | AtNull.
Record hash_iterator := mk_iter { it_bucket : Z; it_elem : cursor }.

#[export] Instance cursor_eq_dec : EqDecision cursor.
Proof. solve_decision. Defined.

Definition hash_size (h : hash) : Z := elem_cnt h.
Definition hash_empty (h : hash) : bool := elem_cnt h =? 0.

Definition FNV_32_PRIME : Z := 16777619.
Definition FNV_32_BASIS : Z := 2166136261.

Fixpoint hash_bytes_loop (n : nat) (m : memory) (buf hash : Z) : Z :=
  match n with
  | O => hash
  | S n => hash_bytes_loop n m (buf + 1) (Z.lxor (u32 (hash * FNV_32_PRIME)) (KString.rd m buf))
  end.
Definition hash_bytes (m : memory) (buf size : Z) : outcome Z :=
  assert? negb (buf =? NULL) in
  Ret (hash_bytes_loop (Z.to_nat size) m buf FNV_32_BASIS).

Fixpoint hash_string_loop (fuel : nat) (m : memory) (s hash : Z) : outcome Z :=
  match fuel with
  | O => NoFuel
  | S fuel =>
      if negb (KString.rd m s =? 0)
      then hash_string_loop fuel m (s + 1)
             (Z.lxor (u32 (hash * FNV_32_PRIME)) (KString.rd m s))
      else Ret hash
  end.
Definition hash_string (fuel : nat) (m : memory) (s : Z) : outcome Z :=
  assert? negb (s =? NULL) in
  hash_string_loop fuel m s FNV_32_BASIS.

(** The four bytes of the [int], little endian. *)
Definition int_bytes (i : Z) : memory := fun a => u32 i / 2 ^ (8 * (a - 1)).
Definition hash_int (i : Z) : outcome Z := hash_bytes (int_bytes i) 1 4.

Definition turn_off_least_1bit (x : Z) : Z := Z.land x (u32 (x - 1)).
Definition is_power_of_2 (x : Z) : bool := negb (x =? 0) && (turn_off_least_1bit x =? 0).

Definition BEST_ELEMS_PER_BUCKET : Z := 2.

Fixpoint power_of_2_loop (fuel : nat) (new_bucket_cnt : Z) : outcome Z :=
  match fuel with
  | O => NoFuel
  | S fuel =>
      if negb (is_power_of_2 new_bucket_cnt)
      then power_of_2_loop fuel (turn_off_least_1bit new_bucket_cnt)
      else Ret new_bucket_cnt
  end.

Section Table.
Variable hash_hash : hash_elem -> Z.
Variable hash_less : hash_elem -> hash_elem -> bool.
(** Whether [malloc] grants a request of this many bytes. *)
Variable malloc_ok : Z -> bool.

Definition sizeof_list : Z := 16.

(** The destructor's calls, in order, are the second result. *)
Fixpoint hash_clear_loop (bs : list (list hash_elem)) (destructor : bool)
    : list (list hash_elem) * list hash_elem :=
  match bs with
  | [] => ([], [])
  | bucket :: bs =>
      let '(bs', calls) := hash_clear_loop bs destructor in
      ([] :: bs', (if destructor then bucket else []) ++ calls)
  end.
Definition hash_clear (h : hash) (destructor : bool) : hash * list hash_elem :=
  let '(bs, calls) := hash_clear_loop (buckets h) destructor in
  (mk_hash 0 (bucket_cnt h) bs, calls).

(** The freshly allocated buckets are initialized by [hash_clear] with no destructor. *)
Definition hash_init : option hash :=
  let bucket_cnt := 4 in
  if malloc_ok (sizeof_list * bucket_cnt)
  then Some (fst (hash_clear (mk_hash 0 bucket_cnt (replicate (Z.to_nat bucket_cnt) [])) false))
  else None.

Definition hash_destroy (h : hash) (destructor : bool) : list hash_elem :=
  if destructor then snd (hash_clear h destructor) else [].

Definition find_bucket (h : hash) (e : hash_elem) : Z :=
  Z.land (hash_hash e) (bucket_cnt h - 1).

Fixpoint find_elem (bucket : list hash_elem) (e : hash_elem) : option hash_elem :=
  match bucket with
  | [] => None
  | hi :: rest =>
      if negb (hash_less hi e) && negb (hash_less e hi) then Some hi else find_elem rest e
  end.

Definition insert_elem (h : hash) (bucket : Z) (e : hash_elem) : outcome hash :=
  let? b := aread (buckets h) bucket in
  let? bs := aset (buckets h) bucket (e :: b) in
  Ret (mk_hash (u32 (elem_cnt h + 1)) (bucket_cnt h) bs).

(** [list_remove] unlinks the element from whichever bucket holds it. *)
Definition remove_elem (h : hash) (e : hash_elem) : hash :=
  mk_hash (u32 (elem_cnt h - 1)) (bucket_cnt h)
    (map (filter (fun x => x <> e)) (buckets h)).

Fixpoint move_bucket_loop (h : hash) (bucket : list hash_elem) : outcome hash :=
  match bucket with
  | [] => Ret h
  | elem :: rest =>
      let i := find_bucket h elem in
      let? b := aread (buckets h) i in
      let? bs := aset (buckets h) i (elem :: b) in
      move_bucket_loop (mk_hash (elem_cnt h) (bucket_cnt h) bs) rest
  end.
Fixpoint move_buckets_loop (h : hash) (old_buckets : list (list hash_elem)) : outcome hash :=
  match old_buckets with
  | [] => Ret h
  | old_bucket :: rest =>
      let? h := move_bucket_loop h old_bucket in
      move_buckets_loop h rest
  end.

Definition rehash (h : hash) : outcome hash :=
  let old_buckets := buckets h in
  let old_bucket_cnt := bucket_cnt h in
  let new_bucket_cnt := elem_cnt h / BEST_ELEMS_PER_BUCKET in
  let new_bucket_cnt := if new_bucket_cnt <? 4 then 4 else new_bucket_cnt in
  let? new_bucket_cnt := power_of_2_loop 33 new_bucket_cnt in
  if new_bucket_cnt =? old_bucket_cnt then Ret h
  else if negb (malloc_ok (u32 (sizeof_list * new_bucket_cnt))) then Ret h
  else
    let h := mk_hash (elem_cnt h) new_bucket_cnt (replicate (Z.to_nat new_bucket_cnt) []) in
    move_buckets_loop h old_buckets.

Definition hash_find (h : hash) (e : hash_elem) : outcome (option hash_elem) :=
  let? b := aread (buckets h) (find_bucket h e) in
  Ret (find_elem b e).

Definition hash_insert (h : hash) (new : hash_elem) : outcome (hash * option hash_elem) :=
  let bucket := find_bucket h new in
  let? b := aread (buckets h) bucket in
  let old := find_elem b new in
  let? h := (match old with None => insert_elem h bucket new | Some _ => Ret h end) in
  let? h := rehash h in
  Ret (h, old).

Definition hash_replace (h : hash) (new : hash_elem) : outcome (hash * option hash_elem) :=
  let bucket := find_bucket h new in
  let? b := aread (buckets h) bucket in
  let old := find_elem b new in
  let h := match old with Some o => remove_elem h o | None => h end in
  let? h := insert_elem h bucket new in
  let? h := rehash h in
  Ret (h, old).

Definition hash_delete (h : hash) (e : hash_elem) : outcome (hash * option hash_elem) :=
  let? b := aread (buckets h) (find_bucket h e) in
  let found := find_elem b e in
  match found with
  | Some o => let? h := rehash (remove_elem h o) in Ret (h, found)
  | None => Ret (h, found)
  end.

(** The calls of the action, in order. *)
Fixpoint hash_apply_loop (bs : list (list hash_elem)) : list hash_elem :=
  match bs with [] => [] | bucket :: bs => bucket ++ hash_apply_loop bs end.
Definition hash_apply (h : hash) : list hash_elem := hash_apply_loop (buckets h).

Definition bucket_begin (l : list hash_elem) : cursor :=
  match l with [] => AtEnd | e :: _ => At e end.
(** [list_next] in the bucket [l]. *)
Fixpoint next_after (l : list hash_elem) (e : hash_elem) : outcome cursor :=
  match l with
  | [] => UB
  | x :: l => if decide (x = e) then Ret (bucket_begin l) else next_after l e
  end.
Definition bucket_next (l : list hash_elem) (c : cursor) : outcome cursor :=
  match c with
  | AtHead => Ret (bucket_begin l)
  | At e => next_after l e
  | AtEnd | AtNull => UB
  end.

Definition hash_first : hash_iterator := mk_iter 0 AtHead.

Fixpoint hash_next_loop (fuel : nat) (h : hash) (i : hash_iterator) : outcome hash_iterator :=
  match fuel with
  | O => NoFuel
  | S fuel =>
      if decide (it_elem i = AtEnd) then
        let b := it_bucket i + 1 in
        if bucket_cnt h <=? b then Ret (mk_iter b AtNull)
        else
          let? l := aread (buckets h) b in
          hash_next_loop fuel h (mk_iter b (bucket_begin l))
      else Ret i
  end.
Definition hash_next (h : hash) (i : hash_iterator) : outcome hash_iterator :=
  let? l := aread (buckets h) (it_bucket i) in
  let? c := bucket_next l (it_elem i) in
  hash_next_loop (S (Z.to_nat (bucket_cnt h))) h (mk_iter (it_bucket i) c).
Definition hash_cur (i : hash_iterator) : option hash_elem :=
  match it_elem i with At e => Some e | _ => None end.

(** The iteration idiom: the elements [hash_next] returns until it returns null. *)
Fixpoint hash_iterate (fuel : nat) (h : hash) (i : hash_iterator) : outcome (list hash_elem) :=
  match fuel with
  | O => NoFuel
  | S fuel =>
      let? i := hash_next h i in
      match hash_cur i with
      | None => Ret []
      | Some e => let? es := hash_iterate fuel h i in Ret (e :: es)
      end
  end.

(** * Specification *)

Definition elems (h : hash) : list hash_elem := concat (buckets h).
Definition same_key (a b : hash_elem) : Prop :=
  hash_less a b = false /\ hash_less b a = false.

Record hash_ok (h : hash) : Prop := {
  ho_pow2 : exists k, 0 <= k < 32 /\ bucket_cnt h = 2 ^ k;
  ho_len : Z.of_nat (length (buckets h)) = bucket_cnt h;
  ho_place i l e : aget (buckets h) i = Some l -> e ∈ l -> find_bucket h e = i;
  ho_nodup : NoDup (elems h);
  ho_keys a b : a ∈ elems h -> b ∈ elems h -> same_key a b -> a = b;
  ho_cnt : elem_cnt h = Z.of_nat (length (elems h)) /\ elem_cnt h < 2 ^ 32
}.
End Table.

(** What the documentation of the callbacks requires: [hash_less] is a strict ordering whose
    incomparability is an equivalence, and equal elements have equal hash values. *)
Class HashCallbacks (hash_hash : hash_elem -> Z) (hash_less : hash_elem -> hash_elem -> bool)
    : Prop := {
  hc_irrefl e : hash_less e e = false;
  hc_trans a b c : same_key hash_less a b -> same_key hash_less b c -> same_key hash_less a c;
  hc_hash a b : same_key hash_less a b -> hash_hash a = hash_hash b
}.

(** * Lemmas *)

(** ** Powers of two *)

Lemma land_pred_odd p : Z.land (Z.pos p~1) (Z.pos p~1 - 1) = Z.pos p~0.
Proof.
  replace (Z.pos p~1 - 1) with (Z.pos p~0) by lia.
  apply Z.bits_inj'. intros n Hn. rewrite Z.land_spec, (Pos2Z.inj_xO p), (Pos2Z.inj_xI p).
  destruct (decide (n = 0)) as [->|]; [by rewrite Z.testbit_even_0, andb_false_r|].
  replace n with (Z.succ (n - 1)) by lia.
  rewrite Z.testbit_even_succ, Z.testbit_odd_succ by lia. apply andb_diag.
Qed.

Lemma land_pred_even p :
  Z.land (Z.pos p~0) (Z.pos p~0 - 1) = 2 * Z.land (Z.pos p) (Z.pos p - 1).
Proof.
  rewrite Pos2Z.inj_xO. replace (2 * Z.pos p - 1) with (2 * (Z.pos p - 1) + 1) by lia.
  apply Z.bits_inj'. intros n Hn. rewrite Z.land_spec.
  destruct (decide (n = 0)) as [->|]; [by rewrite !Z.testbit_even_0|].
  replace n with (Z.succ (n - 1)) by lia.
  rewrite !Z.testbit_even_succ, Z.testbit_odd_succ, Z.land_spec by lia. done.
Qed.

(** The set bits of a positive number: the loop clears one of them per iteration. *)
Fixpoint ones (p : positive) : nat :=
  match p with xH => 1 | xO p => ones p | xI p => S (ones p) end.

Lemma land_pred_bits p :
  (Z.land (Zpos p) (Zpos p - 1) = 0 /\ Zpos p = 2 ^ Z.log2 (Zpos p)) \/
  exists q, Z.land (Zpos p) (Zpos p - 1) = Zpos q /\ (q < p)%positive /\
    Z.log2 (Zpos q) = Z.log2 (Zpos p) /\ ones p = S (ones q).
Proof.
  induction p as [p IH|p IH|].
  - right. exists (xO p). rewrite land_pred_odd. split_and!; [done|lia| |done].
    rewrite Pos2Z.inj_xI, Pos2Z.inj_xO, Z.log2_double, Z.log2_succ_double; lia.
  - rewrite land_pred_even. rewrite (Pos2Z.inj_xO p), Z.log2_double by lia.
    destruct IH as [[H0 Hp]|(q & Hq & Hlt & Hl & Ho)].
    + left. rewrite H0. split; [done|]. rewrite Z.pow_succ_r by apply Z.log2_nonneg. lia.
    + right. exists (xO q). rewrite Hq. split_and!; [by rewrite Pos2Z.inj_xO|lia| |done].
      rewrite Pos2Z.inj_xO, Z.log2_double by lia. lia.
  - left. done.
Qed.

Lemma ones_bound p : Z.of_nat (ones p) <= Z.log2 (Zpos p) + 1.
Proof.
  induction p as [p IH|p IH|]; cbn [ones].
  - rewrite Pos2Z.inj_xI, Z.log2_succ_double by lia. lia.
  - rewrite Pos2Z.inj_xO, Z.log2_double by lia. lia.
  - done.
Qed.

Lemma power_of_2_loop_ones fuel : forall p, Zpos p < 2 ^ 32 -> (ones p <= fuel)%nat ->
  power_of_2_loop fuel (Zpos p) = Ret (2 ^ Z.log2 (Zpos p)).
Proof.
  induction fuel as [|fuel IH]; intros p Hp Hf.
  { destruct p as [p|p|]; cbn in Hf; try lia. clear -Hf. exfalso. revert Hf.
    induction p; cbn; lia. }
  cbn [power_of_2_loop]. unfold is_power_of_2, turn_off_least_1bit.
  replace (negb (Z.pos p =? 0)) with true by lia. rewrite u32_small by lia. cbn [andb].
  destruct (land_pred_bits p) as [[-> Hpow]|(q & Hq & Hlt & Hlog & Hones)].
  - cbn [Z.eqb negb]. by rewrite <- Hpow.
  - rewrite Hq. cbn [Z.eqb negb]. rewrite <- Hlog.
    apply IH; lia.
Qed.

(** The loop of [rehash] ends with the largest power of two not above its start. *)
Lemma power_of_2_loop_Ret n : 0 < n < 2 ^ 32 -> power_of_2_loop 33 n = Ret (2 ^ Z.log2 n).
Proof.
  intros Hn. destruct n as [|p|p]; [lia| |lia]. apply power_of_2_loop_ones; [lia|].
  pose proof (ones_bound p). assert (Z.log2 (Z.pos p) < 32) by (apply Z.log2_lt_pow2; lia). lia.
Qed.

(** ** Buckets *)

Lemma concat_insert_cons {A} (bs : list (list A)) i b e :
  bs !! i = Some b -> concat (<[i := e :: b]> bs) ≡ₚ e :: concat bs.
Proof.
  revert i. induction bs as [|x bs IH]; intros [|i] H; cbn in *; [done..| |].
  - by injection H as ->.
  - rewrite (IH i H). by rewrite Permutation_middle.
Qed.

Lemma elem_of_concat {A} (x : A) bs : x ∈ concat bs <-> exists l, x ∈ l /\ l ∈ bs.
Proof.
  induction bs as [|b bs IH]; cbn; [set_solver|]. rewrite elem_of_app, IH. set_solver.
Qed.

Lemma concat_map_filter {A} (P : A -> Prop) `{!forall x, Decision (P x)} (bs : list (list A)) :
  concat (map (filter P) bs) = filter P (concat bs).
Proof. induction bs as [|b bs IH]; cbn; [done|]. by rewrite IH, filter_app. Qed.

Lemma filter_ne_perm (l : list hash_elem) e :
  NoDup l -> e ∈ l -> l ≡ₚ e :: filter (fun x => x <> e) l.
Proof.
  induction 1 as [|x l Hx Hl IH]; intros He; [by apply not_elem_of_nil in He|].
  destruct (decide (x = e)) as [->|Hne].
  - rewrite filter_cons_False by tauto. rewrite list_filter_all; [done|]. by intros y Hy ->.
  - rewrite filter_cons_True by done. rewrite Permutation_swap. f_equiv. apply IH.
    by apply elem_of_cons in He as [->|?].
Qed.

Section TableFacts.
Variable hash_hash : hash_elem -> Z.
Variable hash_less : hash_elem -> hash_elem -> bool.
Variable malloc_ok : Z -> bool.
Context `{!HashCallbacks hash_hash hash_less}.
Abbreviation find_bucket := (find_bucket hash_hash).
Abbreviation same_key := (same_key hash_less).
Abbreviation hash_ok := (hash_ok hash_hash hash_less).

(** The bucket array is well shaped and every element is in its bucket. *)
Record placed (h : hash) : Prop := {
  pl_pow2 : exists k, 0 <= k < 32 /\ bucket_cnt h = 2 ^ k;
  pl_len : Z.of_nat (length (buckets h)) = bucket_cnt h;
  pl_place i l e : aget (buckets h) i = Some l -> e ∈ l -> find_bucket h e = i
}.

Lemma hash_ok_placed h : hash_ok h -> placed h.
Proof. intros []. by constructor. Qed.

Lemma hash_ok_perm h es :
  placed h -> elems h ≡ₚ es -> NoDup es ->
  (forall a b, a ∈ es -> b ∈ es -> same_key a b -> a = b) ->
  elem_cnt h = Z.of_nat (length es) -> elem_cnt h < 2 ^ 32 -> hash_ok h.
Proof.
  intros [] Hp Hnd Hk Hc Hlt. constructor; [done..| | |].
  - by rewrite Hp.
  - intros a b. rewrite Hp. apply Hk.
  - by rewrite Hp.
Qed.

Lemma find_bucket_range h e : placed h -> 0 <= find_bucket h e < Z.of_nat (length (buckets h)).
Proof.
  intros [(k & Hk & Hc) Hl _]. unfold Hash.find_bucket. rewrite Hl, Hc.
  replace (2 ^ k - 1) with (Z.ones k) by (rewrite Z.ones_equiv; lia).
  rewrite Z.land_ones by lia. apply Z.mod_pos_bound. lia.
Qed.

Lemma find_bucket_Ret h e : placed h ->
  exists b, aget (buckets h) (find_bucket h e) = Some b /\ aread (buckets h) (find_bucket h e) = Ret b.
Proof.
  intros Hp. destruct (aget_is_Some (buckets h) (find_bucket h e)) as [b Hb];
    [by apply find_bucket_range|]. exists b. unfold aread. by rewrite Hb.
Qed.

Lemma elems_bucket h e x b :
  placed h -> x ∈ elems h -> find_bucket h x = find_bucket h e ->
  aget (buckets h) (find_bucket h e) = Some b -> x ∈ b.
Proof.
  intros Hp Hx Hxe Hb. apply elem_of_concat in Hx as (l & Hxl & Hl).
  apply list_elem_of_lookup_1 in Hl as [i Hi].
  assert (Hg : aget (buckets h) (Z.of_nat i) = Some l)
    by (unfold aget; rewrite Nat2Z.id; by replace (0 <=? _) with true by lia).
  pose proof (pl_place h Hp _ _ _ Hg Hxl) as Hix. rewrite <- Hxe, Hix, Hg in Hb. by injection Hb as <-.
Qed.

Lemma bucket_elems h i b x : aget (buckets h) i = Some b -> x ∈ b -> x ∈ elems h.
Proof.
  intros Hb Hx. apply elem_of_concat. exists b. split; [done|]. unfold aget in Hb.
  destruct (0 <=? i); [|done]. by eapply list_elem_of_lookup_2.
Qed.

(** Linking an element at the front of its bucket. *)
Lemma push_bucket h e b c :
  placed h -> aget (buckets h) (find_bucket h e) = Some b ->
  exists bs, aset (buckets h) (find_bucket h e) (e :: b) = Ret bs /\
    placed (mk_hash c (bucket_cnt h) bs) /\ concat bs ≡ₚ e :: elems h.
Proof.
  intros Hp Hb. pose proof (aget_Some _ _ _ Hb) as Hr. eexists. split; [by apply aset_Ret|].
  split.
  - destruct Hp as [Hpow Hl Hpl]. constructor; cbn; [done|by rewrite length_insert|].
    intros i l x Hi Hx. change (find_bucket (mk_hash c (bucket_cnt h) _) x) with (find_bucket h x).
    destruct (decide (i = find_bucket h e)) as [->|Hne].
    + rewrite aget_insert_eq in Hi by lia. injection Hi as <-.
      apply elem_of_cons in Hx as [->|Hx]; [done|]. by eapply Hpl.
    + rewrite aget_insert_ne in Hi by lia. by eapply Hpl.
  - apply concat_insert_cons. unfold aget in Hb. destruct (0 <=? _); done.
Qed.

Lemma move_bucket_Ret l : forall h, placed h ->
  exists h', move_bucket_loop hash_hash h l = Ret h' /\ placed h' /\
    elem_cnt h' = elem_cnt h /\ elems h' ≡ₚ elems h ++ l.
Proof.
  induction l as [|e l IH]; intros h Hp; cbn [move_bucket_loop].
  - exists h. by rewrite app_nil_r.
  - destruct (find_bucket_Ret h e Hp) as (b & Hb & ->). cbn [obind].
    destruct (push_bucket h e b (elem_cnt h) Hp Hb) as (bs & -> & Hp1 & Hperm). cbn [obind].
    destruct (IH _ Hp1) as (h' & -> & Hp' & Hc & He). exists h'. split_and!; [done..|].
    rewrite He. unfold elems at 1. cbn [buckets]. rewrite Hperm.
    by rewrite <- Permutation_middle.
Qed.

Lemma move_buckets_Ret old : forall h, placed h ->
  exists h', move_buckets_loop hash_hash h old = Ret h' /\ placed h' /\
    elem_cnt h' = elem_cnt h /\ elems h' ≡ₚ elems h ++ concat old.
Proof.
  induction old as [|l old IH]; intros h Hp; cbn [move_buckets_loop].
  - exists h. cbn. by rewrite app_nil_r.
  - destruct (move_bucket_Ret l h Hp) as (h1 & -> & Hp1 & Hc1 & He1). cbn [obind].
    destruct (IH h1 Hp1) as (h2 & -> & Hp2 & Hc2 & He2). exists h2.
    split_and!; [done..|congruence|]. rewrite He2, He1. cbn. by rewrite app_assoc.
Qed.

Lemma placed_empty k c : 0 <= k < 32 -> placed (mk_hash c (2 ^ k) (replicate (Z.to_nat (2 ^ k)) [])).
Proof.
  intros Hk. constructor; cbn; [eauto|rewrite length_replicate; lia|].
  intros i l e Hi He. exfalso. unfold aget in Hi. destruct (0 <=? i); [|done].
  apply lookup_replicate in Hi as [-> _]. by apply not_elem_of_nil in He.
Qed.

Lemma concat_replicate_nil {A} n : concat (replicate n (@nil A)) = [].
Proof. by induction n. Qed.

Lemma rehash_Ret h : placed h -> 0 <= elem_cnt h < 2 ^ 32 ->
  exists h', rehash hash_hash malloc_ok h = Ret h' /\ placed h' /\ elem_cnt h' = elem_cnt h /\
    elems h' ≡ₚ elems h.
Proof.
  intros Hp Hc. unfold rehash, BEST_ELEMS_PER_BUCKET.
  set (n := if elem_cnt h / 2 <? 4 then 4 else elem_cnt h / 2).
  pose proof (Z.div_mod (elem_cnt h) 2). pose proof (Z.mod_pos_bound (elem_cnt h) 2).
  assert (Hn : 4 <= n < 2 ^ 32) by (unfold n; destruct (_ <? 4) eqn:E; lia).
  rewrite power_of_2_loop_Ret by lia. cbn [obind].
  destruct (_ =? _); [eauto|]. destruct (negb _); [eauto|].
  assert (Hk : 0 <= Z.log2 n < 32).
  { split; [apply Z.log2_nonneg|]. apply Z.log2_lt_pow2; lia. }
  destruct (move_buckets_Ret (buckets h) _ (placed_empty (Z.log2 n) (elem_cnt h) Hk))
    as (h' & -> & Hp' & Hc' & He). exists h'. split_and!; [done..|].
  rewrite He. unfold elems. cbn [buckets]. by rewrite concat_replicate_nil.
Qed.
End TableFacts.

(** ** Operations *)

Section Operations.
Variable hash_hash : hash_elem -> Z.
Variable hash_less : hash_elem -> hash_elem -> bool.
Variable malloc_ok : Z -> bool.
Context `{!HashCallbacks hash_hash hash_less}.

(** What a search for the key of [e] must answer. *)
Definition found (h : hash) (e : hash_elem) (r : option hash_elem) : Prop :=
  match r with
  | Some x => x ∈ elems h /\ same_key hash_less x e
  | None => forall x, x ∈ elems h -> ~ same_key hash_less x e
  end.

Lemma find_elem_spec l e :
  match find_elem hash_less l e with
  | Some x => x ∈ l /\ same_key hash_less x e
  | None => forall x, x ∈ l -> ~ same_key hash_less x e
  end.
Proof.
  induction l as [|a l IH]; cbn [find_elem]; [set_solver|].
  destruct (negb (hash_less a e) && negb (hash_less e a)) eqn:E.
  - split; [by left|]. unfold same_key. lia.
  - assert (~ same_key hash_less a e) by (unfold same_key; lia).
    destruct (find_elem hash_less l e) as [x|].
    + destruct IH as [? ?]. split; [by right|done].
    + intros x [->|Hx]%elem_of_cons; [done|by apply IH].
Qed.

Lemma find_Ret h e : placed hash_hash h ->
  exists b, aget (buckets h) (find_bucket hash_hash h e) = Some b /\
    aread (buckets h) (find_bucket hash_hash h e) = Ret b /\
    found h e (find_elem hash_less b e).
Proof.
  intros Hp. destruct (find_bucket_Ret hash_hash h e Hp) as (b & Hb & Hr).
  exists b. split_and!; [done..|]. pose proof (find_elem_spec b e) as Hs.
  destruct (find_elem hash_less b e) as [x|]; cbn.
  - destruct Hs as [Hx Hk]. split; [by eapply bucket_elems|done].
  - intros x Hx Hk. apply (Hs x); [|done]. apply (elems_bucket hash_hash h e x b Hp Hx); [|done].
    unfold find_bucket. f_equal. by apply (hc_hash (hash_less := hash_less)).
Qed.

Lemma remove_elem_ok h e :
  hash_ok hash_hash hash_less h -> e ∈ elems h ->
  hash_ok hash_hash hash_less (remove_elem h e) /\ elems h ≡ₚ e :: elems (remove_elem h e).
Proof.
  intros Hok He. assert (Hel : elems (remove_elem h e) = filter (fun x => x <> e) (elems h))
    by (unfold elems; cbn; apply concat_map_filter).
  pose proof (filter_ne_perm (elems h) e (ho_nodup _ _ _ Hok) He) as Hp. rewrite Hel.
  split; [|done]. destruct Hok as [Hpow Hlen Hpl Hnd Hk [Hc Hlt]].
  pose proof (Permutation_length Hp) as Hl. cbn [length] in Hl.
  apply (hash_ok_perm hash_hash hash_less (remove_elem h e) (filter (fun x => x <> e) (elems h))).
  - constructor; cbn; [done|by rewrite length_map|]. intros i l x Hi Hx.
    change (find_bucket hash_hash (remove_elem h e) x) with (find_bucket hash_hash h x).
    unfold aget in Hi. destruct (0 <=? i) eqn:E; [|done]. rewrite list_lookup_fmap in Hi.
    apply fmap_Some in Hi as (l0 & Hl0 & ->). apply list_elem_of_filter in Hx as [_ Hx].
    apply (Hpl i l0 x); [|done]. unfold aget. by rewrite E.
  - by rewrite Hel.
  - by apply NoDup_filter.
  - intros a b Ha Hb. apply list_elem_of_filter in Ha as [_ ?], Hb as [_ ?]. by apply Hk.
  - cbn. rewrite Hc, Hl, u32_small; lia.
  - cbn. rewrite Hc, u32_small; lia.
Qed.

Lemma insert_elem_ok h e :
  hash_ok hash_hash hash_less h -> elem_cnt h + 1 < 2 ^ 32 ->
  (forall x, x ∈ elems h -> ~ same_key hash_less x e) ->
  exists h', insert_elem h (find_bucket hash_hash h e) e = Ret h' /\
    hash_ok hash_hash hash_less h' /\ elems h' ≡ₚ e :: elems h.
Proof.
  intros Hok Hc Hnew. pose proof (hash_ok_placed _ _ _ Hok) as Hp.
  destruct (find_bucket_Ret hash_hash h e Hp) as (b & Hb & Hr).
  destruct (push_bucket hash_hash h e b (u32 (elem_cnt h + 1)) Hp Hb) as (bs & Hs & Hp' & Hperm).
  unfold insert_elem. rewrite Hr. cbn [obind]. rewrite Hs. cbn [obind].
  eexists. split; [done|]. destruct Hok as [_ _ _ Hnd Hk [Hcnt _]]. split; [|done].
  assert (Hsk : same_key hash_less e e) by (split; apply (hc_irrefl (hash_hash := hash_hash))).
  apply (hash_ok_perm _ _ _ (e :: elems h)); [done|done| | | |].
  - constructor; [|done]. intros He. by apply (Hnew e).
  - intros a c Ha Hb' Hac. apply elem_of_cons in Ha as [->|Ha], Hb' as [->|Hc'].
    + done.
    + exfalso. apply (Hnew c Hc'). split; apply Hac.
    + exfalso. by apply (Hnew a Ha).
    + by apply Hk.
  - cbn. rewrite u32_small; lia.
  - cbn. rewrite u32_small; lia.
Qed.

Lemma rehash_ok h :
  hash_ok hash_hash hash_less h ->
  exists h', rehash hash_hash malloc_ok h = Ret h' /\ hash_ok hash_hash hash_less h' /\
    elems h' ≡ₚ elems h.
Proof.
  intros Hok. destruct (rehash_Ret hash_hash malloc_ok h (hash_ok_placed _ _ _ Hok))
    as (h' & -> & Hp' & Hc' & He); [destruct Hok as [_ _ _ _ _ [? ?]]; lia|].
  exists h'. split_and!; [done| |done]. destruct Hok as [_ _ _ Hnd Hk [Hc Hlt]].
  apply (hash_ok_perm _ _ _ (elems h)); [done|done|done|done|lia|lia].
Qed.
End Operations.

(** C25. The hash table implements a set of elements with distinct keys: every operation keeps
    the invariant (elements in the bucket of their hash value, power-of-two bucket count,
    exact element count), a search answers with the element of the given key or that there
    is none, and insertion, replacement and deletion change the set accordingly, whether or
    not the reorganisation of the buckets finds memory. *)
Theorem hash_table_correct hash_hash hash_less malloc_ok
    `{!HashCallbacks hash_hash hash_less} (h : hash) (e : hash_elem) :
  hash_ok hash_hash hash_less h ->
  exists r, hash_find hash_hash hash_less h e = Ret r /\ found hash_less h e r /\
  (elem_cnt h + 1 < 2 ^ 32 ->
   (exists h', hash_insert hash_hash hash_less malloc_ok h e = Ret (h', r) /\
      hash_ok hash_hash hash_less h' /\
      elems h' ≡ₚ match r with None => e :: elems h | Some _ => elems h end) /\
   (exists h', hash_replace hash_hash hash_less malloc_ok h e = Ret (h', r) /\
      hash_ok hash_hash hash_less h' /\
      (from_option (fun x => [x]) [] r) ++ elems h' ≡ₚ e :: elems h)) /\
  exists h', hash_delete hash_hash hash_less malloc_ok h e = Ret (h', r) /\
    hash_ok hash_hash hash_less h' /\
    elems h ≡ₚ (from_option (fun x => [x]) [] r) ++ elems h'.
Proof.
  intros Hok. pose proof (hash_ok_placed _ _ _ Hok) as Hp.
  destruct (find_Ret hash_hash hash_less h e Hp) as (b & Hb & Hr & Hf).
  exists (find_elem hash_less b e). unfold hash_find, hash_insert, hash_replace, hash_delete.
  rewrite Hr. cbn [obind]. split_and!; [done|done| |].
  - intros Hc. destruct (find_elem hash_less b e) as [x|]; cbn [found from_option obind] in *.
    + destruct Hf as [Hx Hxe]. split.
      * destruct (rehash_ok hash_hash hash_less malloc_ok h Hok) as (h' & -> & ? & ?). eauto.
      * destruct (remove_elem_ok hash_hash hash_less h x Hok Hx) as [Hok1 Hperm1].
        assert (Hfresh : forall y, y ∈ elems (remove_elem h x) -> ~ same_key hash_less y e).
        { intros y Hy Hye. pose proof (ho_nodup _ _ _ Hok) as Hnd. rewrite Hperm1 in Hnd.
          inversion Hnd as [|? ? Hxn _]; subst. apply Hxn.
          assert (y = x) as <-; [|done]. apply (ho_keys _ _ _ Hok); [|done|].
          - rewrite Hperm1. by right.
          - apply (hc_trans (hash_hash := hash_hash)) with e; [done|]. split; apply Hxe. }
        destruct (insert_elem_ok hash_hash hash_less (remove_elem h x) e Hok1) as (h2 & E2 & Hok2 & Hp2);
          [|done|].
        { pose proof (ho_cnt _ _ _ Hok). pose proof (ho_cnt _ _ _ Hok1).
          pose proof (Permutation_length Hperm1) as Hl. rewrite length_cons in Hl. lia. }
        change (find_bucket hash_hash (remove_elem h x) e) with (find_bucket hash_hash h e) in E2.
        rewrite E2. cbn [obind].
        destruct (rehash_ok hash_hash hash_less malloc_ok h2 Hok2) as (h3 & -> & Hok3 & Hp3).
        exists h3. split_and!; [done..|]. cbn. rewrite Hp3, Hp2, Hperm1. apply Permutation_swap.
    + destruct (insert_elem_ok hash_hash hash_less h e Hok Hc Hf) as (h2 & -> & Hok2 & Hp2).
      cbn [obind]. destruct (rehash_ok hash_hash hash_less malloc_ok h2 Hok2)
        as (h3 & -> & Hok3 & Hp3). split; exists h3; (split_and!; [done..|]); cbn;
        by rewrite Hp3, Hp2.
  - destruct (find_elem hash_less b e) as [x|]; cbn [found from_option obind] in *; [|eauto].
    destruct (remove_elem_ok hash_hash hash_less h x Hok (proj1 Hf)) as [Hok1 Hperm1].
    destruct (rehash_ok hash_hash hash_less malloc_ok _ Hok1) as (h' & -> & Hok' & Hp').
    exists h'. split_and!; [done..|]. rewrite Hp'. done.
Qed.

(** Integer keys: the element's address, compared and hashed by its value. *)
Definition ex_hash (e : hash_elem) : Z := Zpos e.
Definition ex_less (a b : hash_elem) : bool := (Zpos a <? Zpos b).

#[export] Instance ex_callbacks : HashCallbacks ex_hash ex_less.
Proof.
  assert (H : forall a b, same_key ex_less a b <-> a = b).
  { intros a b. unfold same_key, ex_less. lia. }
  split.
  - intros e. unfold ex_less. lia.
  - intros a b c. rewrite !H. congruence.
  - intros a b. rewrite H. congruence.
Qed.

Definition ex_table : hash := mk_hash 3 4 [[4%positive]; [5%positive; 1%positive]; []; []].

Lemma ex_table_ok : hash_ok ex_hash ex_less ex_table.
Proof.
  constructor; cbn.
  - exists 2. done.
  - done.
  - intros i l e Hi. unfold aget in Hi. destruct (0 <=? i) eqn:E; [|done].
    assert (Hi4 : i = 0 \/ i = 1 \/ i = 2 \/ i = 3).
    { apply lookup_lt_Some in Hi. cbn in Hi. lia. }
    destruct Hi4 as [-> | [-> | [-> | ->]]]; injection Hi as <-; rewrite ?elem_of_cons, elem_of_nil;
      unfold find_bucket, ex_hash; intros He.
    + by destruct He as [->|[]].
    + by destruct He as [->|[->|[]]].
    + done.
    + done.
  - by_compute.
  - intros a b _ _. unfold same_key, ex_less. lia.
  - done.
Qed.

Lemma hash_table_correct_witness :
  hash_ok ex_hash ex_less ex_table /\
  exists r, hash_find ex_hash ex_less ex_table 5%positive = Ret r /\
  found ex_less ex_table 5%positive r /\
  (3 + 1 < 2 ^ 32 ->
   (exists h', hash_insert ex_hash ex_less (fun _ => true) ex_table 5%positive = Ret (h', r) /\
      hash_ok ex_hash ex_less h' /\
      elems h' ≡ₚ match r with None => 5%positive :: elems ex_table | Some _ => elems ex_table end) /\
   (exists h', hash_replace ex_hash ex_less (fun _ => true) ex_table 5%positive = Ret (h', r) /\
      hash_ok ex_hash ex_less h' /\
      (from_option (fun x => [x]) [] r) ++ elems h' ≡ₚ 5%positive :: elems ex_table)) /\
  exists h', hash_delete ex_hash ex_less (fun _ => true) ex_table 5%positive = Ret (h', r) /\
    hash_ok ex_hash ex_less h' /\
    elems ex_table ≡ₚ (from_option (fun x => [x]) [] r) ++ elems h'.
Proof.
  split; [exact ex_table_ok|].
  apply (hash_table_correct ex_hash ex_less (fun _ => true)). exact ex_table_ok.
Defined.

(** ** Iteration *)

(** What is still to come for an iterator. *)
Definition remaining (h : hash) (i : hash_iterator) (es : list hash_elem) : Prop :=
  exists l pre post, aget (buckets h) (it_bucket i) = Some l /\ NoDup l /\
    es = post ++ concat (drop (S (Z.to_nat (it_bucket i))) (buckets h)) /\
    match it_elem i with
    | AtHead => pre = [] /\ post = l
    | At e => l = pre ++ e :: post
    | AtEnd | AtNull => False
    end.

Lemma next_after_app l pre e post :
  l = pre ++ e :: post -> NoDup l -> next_after l e = Ret (bucket_begin post).
Proof.
  revert l. induction pre as [|x pre IH]; intros l -> Hnd; cbn.
  - by rewrite decide_True.
  - inversion Hnd as [|? ? Hx Hnd']; subst. rewrite decide_False; [by apply (IH (pre ++ e :: post))|].
    intros ->. apply Hx. set_solver.
Qed.

(** The loop of [hash_next] skips the empty buckets. *)
Lemma hash_next_loop_Ret h :
  bucket_cnt h = Z.of_nat (length (buckets h)) -> NoDup (elems h) ->
  forall fuel b post pre l, aget (buckets h) b = Some l -> l = pre ++ post ->
  (Z.to_nat (bucket_cnt h - b) <= fuel)%nat ->
  exists i', hash_next_loop (S fuel) h (mk_iter b (bucket_begin post)) = Ret i' /\
    match post ++ concat (drop (S (Z.to_nat b)) (buckets h)) with
    | [] => hash_cur i' = None
    | e :: es => hash_cur i' = Some e /\ remaining h i' es
    end.
Proof.
  intros Hlen Hnd. induction fuel as [|fuel IH]; intros b post pre l Hb Hl Hf.
  { pose proof (aget_Some _ _ _ Hb). lia. }
  pose proof (aget_Some _ _ _ Hb) as Hbr.
  assert (Hndl : forall b l, aget (buckets h) b = Some l -> NoDup l).
  { intros b' l' Hb'. unfold aget in Hb'. destruct (0 <=? b'); [|done].
    unfold elems in Hnd. rewrite <- (take_drop_middle _ _ _ Hb'), concat_app in Hnd.
    rewrite concat_cons in Hnd.
    apply NoDup_app in Hnd as (_ & _ & Hnd). by apply NoDup_app in Hnd as (Hnd & _). }
  destruct post as [|e post]; cbn [app bucket_begin].
  - cbn [hash_next_loop it_elem it_bucket]. rewrite decide_True by done.
    destruct (bucket_cnt h <=? b + 1) eqn:E.
    + eexists. split; [done|]. rewrite drop_ge by lia. done.
    + destruct (aget_is_Some (buckets h) (b + 1)) as [l1 Hl1]; [lia|].
      unfold aread. rewrite Hl1. cbn [deref obind].
      destruct (IH (b + 1) l1 [] l1 Hl1 eq_refl) as (i' & Hi & Hm); [lia|].
      exists i'. split; [exact Hi|]. unfold aget in Hl1. replace (0 <=? b + 1) with true in Hl1 by lia.
      replace (Z.to_nat (b + 1)) with (S (Z.to_nat b)) in * by lia.
      by rewrite (drop_S _ _ _ Hl1).
  - eexists. cbn [hash_next_loop it_elem]. rewrite decide_False by done. split; [done|].
    split; [done|]. exists l, pre, post. cbn. split_and!; [done|by eapply Hndl|done|done].
Qed.

(** A complete iteration ([hash_first], then [hash_next] until it returns null) visits every
    element of the table exactly once, bucket by bucket, and so does [hash_apply]; a cleared
    table hands exactly its elements to the destructor and is left empty. *)
Theorem hash_iteration_correct hash_hash hash_less (h : hash) (fuel : nat) :
  hash_ok hash_hash hash_less h -> (length (elems h) < fuel)%nat ->
  hash_iterate fuel h hash_first = Ret (elems h) /\ hash_apply h = elems h /\
  NoDup (elems h) /\ hash_size h = Z.of_nat (length (elems h)) /\
  (let '(h', calls) := hash_clear h true in
   hash_ok hash_hash hash_less h' /\ elems h' = [] /\ calls = elems h).
Proof.
  intros Hok Hf. destruct Hok as [Hpow Hlen Hpl Hnd Hk [Hc Hlt]].
  assert (Hcl : forall bs, hash_clear_loop bs true = (replicate (length bs) [], concat bs)).
  { induction bs as [|b bs IH]; cbn; [done|]. by rewrite IH. }
  unfold hash_clear. rewrite Hcl. split; [|split; [|split; [done|split; [done|]]]].
  - assert (Hgen : forall es fuel i, remaining h i es -> (length es < fuel)%nat ->
              hash_iterate fuel h i = Ret es).
    { clear fuel Hf. intros es fuel. revert es. induction fuel as [|fuel IH]; intros es i Hrem Hf; [lia|].
      destruct Hrem as (l & pre & post & Hb & Hndl & Hes & Hcur). cbn [hash_iterate].
      unfold hash_next, aread. rewrite Hb. cbn [deref obind].
      pose proof (aget_Some _ _ _ Hb) as Hbr.
      assert (Hn : exists pre', bucket_next l (it_elem i) = Ret (bucket_begin post) /\ l = pre' ++ post).
      { destruct (it_elem i) as [|e| |]; try done.
        - destruct Hcur as [_ ->]. exists []. done.
        - exists (pre ++ [e]). split; [by eapply next_after_app|]. by rewrite <- app_assoc. }
      destruct Hn as (pre' & -> & Hl). cbn [obind].
      destruct (hash_next_loop_Ret h (eq_sym Hlen) Hnd (Z.to_nat (bucket_cnt h)) (it_bucket i)
                  post pre' l Hb Hl) as (i' & -> & Hm); [lia|]. cbn [obind].
      rewrite <- Hes in Hm. destruct es as [|e es]; [by rewrite Hm|].
      destruct Hm as [-> Hrem]. rewrite (IH es i' Hrem); [done|cbn in Hf; lia]. }
    apply Hgen; [|done]. destruct Hpow as (k & Hk0 & Hbc).
    destruct (aget_is_Some (buckets h) 0) as [l Hl]; [lia|].
    exists l, [], l. cbn. unfold aget in Hl. cbn in Hl. unfold elems in *.
    destruct (buckets h) as [|l0 bs]; [done|]. injection Hl as ->. cbn in *.
    split_and!; [done|by apply NoDup_app in Hnd as (? & _)|done..].
  - assert (Hap : forall bs, hash_apply_loop bs = concat bs) by (by induction bs as [|b bs IH]; cbn; rewrite ?IH).
    apply Hap.
  - split; [|split].
    + constructor; cbn.
      * done.
      * by rewrite length_replicate.
      * intros i l e Hi He. exfalso. unfold aget in Hi. destruct (0 <=? i); [|done].
        apply lookup_replicate in Hi as [-> _]. by apply not_elem_of_nil in He.
      * unfold elems. cbn. rewrite concat_replicate_nil. constructor.
      * unfold elems. cbn. rewrite concat_replicate_nil. intros a b Ha. by apply not_elem_of_nil in Ha.
      * unfold elems. cbn. by rewrite concat_replicate_nil.
    + unfold elems. cbn. apply concat_replicate_nil.
    + done.
Qed.

Lemma hash_iteration_correct_witness :
  hash_iterate 4 ex_table hash_first = Ret [4%positive; 5%positive; 1%positive] /\
  hash_apply ex_table = elems ex_table /\ NoDup (elems ex_table) /\ hash_size ex_table = 3 /\
  (let '(h', calls) := hash_clear ex_table true in
   hash_ok ex_hash ex_less h' /\ elems h' = [] /\ calls = elems ex_table).
Proof.
  apply (hash_iteration_correct ex_hash ex_less ex_table 4); [exact ex_table_ok|simpl; lia].
Defined.
