(* ===== verification/Arith64.v ===== *)
(** 64-bit division on a 32-bit machine (lib/arithmetic.c): the routines gcc calls for
    [long long] division and remainder, built on the 64-by-32-bit DIVL instruction. *)
From S2P Require Import Prelude.

(** * Definitions *)

(** DIVL divides the 64-bit [n] by the 32-bit [d]; it traps when the quotient does not fit in
    32 bits or the divisor is zero. *)
Definition divl (n d : Z) : outcome Z :=
  if (d =? 0) || (2 ^ 32 <=? n / d) then Panic else Ret (n / d).

Definition nlz (x : Z) : Z :=
  let n := 0 in
  let '(n, x) := if x <=? 0x0000FFFF then (n + 16, u32 (Z.shiftl x 16)) else (n, x) in
  let '(n, x) := if x <=? 0x00FFFFFF then (n + 8, u32 (Z.shiftl x 8)) else (n, x) in
  let '(n, x) := if x <=? 0x0FFFFFFF then (n + 4, u32 (Z.shiftl x 4)) else (n, x) in
  let '(n, x) := if x <=? 0x3FFFFFFF then (n + 2, u32 (Z.shiftl x 2)) else (n, x) in
  if x <=? 0x7FFFFFFF then n + 1 else n.

Definition udiv64 (n d : Z) : outcome Z :=
  if Z.shiftr d 32 =? 0 then
    let b := 2 ^ 32 in
    let n1 := u32 (Z.shiftr n 32) in
    let n0 := u32 n in
    let d0 := u32 d in
    if d0 =? 0 then Panic
    else
      let? q := divl (u64 (b * (n1 mod d0) + n0)) d0 in
      Ret (u64 (q + b * (n1 / d0)))
  else if n <? d then Ret 0
  else
    let d1 := u32 (Z.shiftr d 32) in
    let s := nlz d1 in
    let? q := divl (Z.shiftr n 1) (u32 (Z.shiftr (u64 (Z.shiftl d s)) 32)) in
    let q := Z.shiftr q (31 - s) in
    Ret (if u64 (n - (q - 1) * d) <? d then u64 (q - 1) else q).

Definition umod64 (n d : Z) : outcome Z :=
  let? q := udiv64 n d in Ret (u32 (n - d * q)).

(** Negation of an [int64_t]; the smallest one overflows. *)
Definition neg64 (z : Z) : outcome Z := if z =? - 2 ^ 63 then UB else Ret (- z).

Definition sdiv64 (n d : Z) : outcome Z :=
  let n_abs := if 0 <=? n then u64 n else u64 (- u64 n) in
  let d_abs := if 0 <=? d then u64 d else u64 (- u64 d) in
  let? q_abs := udiv64 n_abs d_abs in
  if Bool.eqb (n <? 0) (d <? 0) then Ret (s64 q_abs) else neg64 (s64 q_abs).

Definition smod64 (n d : Z) : outcome Z :=
  let? q := sdiv64 n d in Ret (s32 (n - d * q)).

Definition __divdi3 (n d : Z) : outcome Z := sdiv64 n d.
Definition __moddi3 (n d : Z) : outcome Z := smod64 n d.
Definition __udivdi3 (n d : Z) : outcome Z := udiv64 n d.
Definition __umoddi3 (n d : Z) : outcome Z := umod64 n d.

(** * Lemmas *)

(** One stage of [nlz]: a value below [2 ^ (32 - k)] is shifted left by [k]. *)
Lemma nlz_stage x k : 0 <= k <= 32 -> 0 <= x < 2 ^ (32 - k) -> u32 (Z.shiftl x k) = x * 2 ^ k.
Proof.
  intros Hk Hx. rewrite Z.shiftl_mul_pow2 by lia. apply u32_small.
  change 4294967296 with (2 ^ 32). replace 32 with (32 - k + k) by lia.
  rewrite Z.pow_add_r by lia. pose proof (Z.pow_pos_nonneg 2 k). nia.
Qed.

(** [nlz] is the shift that brings the leading one bit to position 31. *)
Lemma nlz_spec x : 0 < x < 2 ^ 32 -> 0 <= nlz x <= 31 /\ 2 ^ 31 <= x * 2 ^ nlz x < 2 ^ 32.
Proof.
  intros Hx. unfold nlz.
  destruct (x <=? 65535) eqn:E1; [rewrite (nlz_stage x 16) by lia|];
  match goal with |- context [?y <=? 16777215] =>
    destruct (y <=? 16777215) eqn:E2; [rewrite (nlz_stage y 8) by lia|] end;
  match goal with |- context [?y <=? 268435455] =>
    destruct (y <=? 268435455) eqn:E3; [rewrite (nlz_stage y 4) by lia|] end;
  match goal with |- context [?y <=? 1073741823] =>
    destruct (y <=? 1073741823) eqn:E4; [rewrite (nlz_stage y 2) by lia|] end;
  match goal with |- context [?y <=? 2147483647] =>
    destruct (y <=? 2147483647) eqn:E5 end;
  cbn [Z.add Pos.add Pos.succ]; lia.
Qed.

(** The estimate of the quotient from the leading 32 bits of the divisor (Hacker's Delight): it
    is the quotient by a number [D] slightly below [d], and at most one too large. *)
Lemma estimate_bound n d s v :
  0 <= n < 2 ^ 64 -> 0 <= s <= 31 -> 2 ^ 31 <= v < 2 ^ 32 ->
  v * 2 ^ (32 - s) <= d < (v + 1) * 2 ^ (32 - s) ->
  n / d <= n / (v * 2 ^ (32 - s)) <= n / d + 1.
Proof.
  intros Hn Hs Hv Hd. set (K := 2 ^ (32 - s)) in *.
  assert (HK : 2 <= K) by (change 2 with (2 ^ 1); apply Z.pow_le_mono_r; lia).
  assert (HKs : K * 2 ^ (s + 1) = 2 ^ 33) by (unfold K; rewrite <- Z.pow_add_r by lia; f_equal; lia).
  assert (HD : 0 < v * K) by nia. pose proof (Z.pow_pos_nonneg 2 (s + 1)).
  split; [apply Z.div_le_compat_l; nia|].
  pose proof (Z.div_mod n d) as Hdm. pose proof (Z.mod_pos_bound n d) as Hmb.
  set (Q := n / d) in *. cut (n / (v * K) < Q + 2); [lia|].
  apply Z.div_lt_upper_bound; [done|].
  assert (HQ0 : 0 <= Q) by (apply Z.div_pos; nia).
  assert (HQ : Q < 2 ^ (s + 1)).
  { apply Z.div_lt_upper_bound; [nia|].
    assert (2 ^ 31 * K * 2 ^ (s + 1) = 2 ^ 64) by (rewrite <- Z.mul_assoc, HKs; reflexivity). nia. }
  assert (H1 : (d - v * K) * (Q + 1) <= (K - 1) * 2 ^ (s + 1)).
  { apply Z.mul_le_mono_nonneg; lia. }
  assert (H2 : (K - 1) * 2 ^ (s + 1) <= v * K).
  { rewrite Z.mul_sub_distr_r, HKs. destruct (decide (s = 31)) as [->|].
    - change K with 2. lia.
    - assert (4 <= K) by (change 4 with (2 ^ 2); apply Z.pow_le_mono_r; lia). nia. }
  nia.
Qed.

Lemma udiv64_large n d :
  0 <= n < 2 ^ 64 -> 2 ^ 32 <= d < 2 ^ 64 -> udiv64 n d = Ret (n / d).
Proof.
  intros Hn Hd. unfold udiv64.
  rewrite !Z.shiftr_div_pow2 by lia. pose proof (Z.div_mod d (2 ^ 32)).
  pose proof (Z.mod_pos_bound d (2 ^ 32)).
  assert (H1 : 1 <= d / 2 ^ 32 < 2 ^ 32)
    by (split; [apply Z.div_le_lower_bound|apply Z.div_lt_upper_bound]; lia).
  replace (d / 2 ^ 32 =? 0) with false by lia.
  destruct (n <? d) eqn:E; [by rewrite Z.div_small by lia|].
  rewrite (u32_small (d / 2 ^ 32)) by lia.
  destruct (nlz_spec (d / 2 ^ 32)) as [Hs Hsh]; [lia|]. set (s := nlz (d / 2 ^ 32)) in *.
  assert (Hps : 0 < 2 ^ s) by (apply Z.pow_pos_nonneg; lia).
  assert (Hks : 2 ^ 32 = 2 ^ s * 2 ^ (32 - s)) by (rewrite <- Z.pow_add_r by lia; f_equal; lia).
  assert (Hpk : 0 < 2 ^ (32 - s)) by (apply Z.pow_pos_nonneg; lia).
  rewrite Z.shiftl_mul_pow2 by lia.
  assert (Hds : d * 2 ^ s < 2 ^ 64) by nia.
  rewrite u64_small by nia.
  set (v := d * 2 ^ s / 2 ^ 32) in *.
  assert (Hv : 2 ^ 31 <= v < 2 ^ 32)
    by (split; [apply Z.div_le_lower_bound|apply Z.div_lt_upper_bound]; nia).
  rewrite (u32_small v) by lia.
  assert (Hvd : v * 2 ^ (32 - s) <= d < (v + 1) * 2 ^ (32 - s)).
  { pose proof (Z.div_mod (d * 2 ^ s) (2 ^ 32)). pose proof (Z.mod_pos_bound (d * 2 ^ s) (2 ^ 32)).
    fold v in H2. clear -H2 H3 Hks Hps. set (P := 2 ^ s) in *. set (K := 2 ^ (32 - s)) in *.
    assert (E : 2 ^ 32 * v = v * K * P) by (rewrite Hks; ring).
    split; [apply (Z.mul_le_mono_pos_r _ _ P Hps)|apply (Z.mul_lt_mono_pos_r P _ _ Hps)]; lia. }
  assert (Hq : n / 2 ^ 1 / v / 2 ^ (31 - s) = n / (v * 2 ^ (32 - s))).
  { rewrite !Z.div_div by nia. f_equal. replace (32 - s) with (1 + (31 - s)) by lia.
    rewrite Z.pow_add_r by lia. lia. }
  unfold divl. replace (v =? 0) with false by lia.
  assert (Hfit : n / 2 ^ 1 / v < 2 ^ 32).
  { apply Z.div_lt_upper_bound; [lia|]. assert (n / 2 ^ 1 < 2 ^ 63) by (apply Z.div_lt_upper_bound; lia). nia. }
  replace (2 ^ 32 <=? n / 2 ^ 1 / v) with false by lia. cbn [orb obind].
  rewrite Z.shiftr_div_pow2 by lia. rewrite Hq.
  pose proof (estimate_bound n d s v Hn Hs Hv Hvd) as Hest.
  set (q := n / (v * 2 ^ (32 - s))) in *.
  pose proof (Z.div_mod n d). pose proof (Z.mod_pos_bound n d).
  assert (1 <= n / d) by (apply Z.div_le_lower_bound; lia).
  assert (Hq64 : q < 2 ^ 64) by (assert (n / d < 2 ^ 63) by (apply Z.div_lt_upper_bound; lia); lia).
  assert (Hor : q = n / d \/ q = n / d + 1) by lia. f_equal.
  destruct Hor as [Hor|Hor]; rewrite Hor.
  - rewrite u64_small by nia. replace (_ <? d) with false by nia. done.
  - replace (n / d + 1 - 1) with (n / d) by lia. rewrite u64_small by nia.
    replace (_ <? d) with true by nia. apply u64_small. lia.
Qed.

Lemma udiv64_small n d :
  0 <= n < 2 ^ 64 -> 0 < d < 2 ^ 32 -> udiv64 n d = Ret (n / d).
Proof.
  intros Hn Hd. unfold udiv64. rewrite !Z.shiftr_div_pow2 by lia.
  rewrite (Z.div_small d) by lia. cbn [Z.eqb].
  assert (0 <= n / 2 ^ 32 < 2 ^ 32) by (split; [apply Z.div_pos|apply Z.div_lt_upper_bound]; lia).
  rewrite (u32_small (n / 2 ^ 32)), (u32_small d) by lia. replace (d =? 0) with false by lia.
  change (u32 n) with (n mod 2 ^ 32).
  pose proof (Z.div_mod n (2 ^ 32)) as Hn1. pose proof (Z.mod_pos_bound n (2 ^ 32)).
  set (n1 := n / 2 ^ 32) in *. set (n0 := n mod 2 ^ 32) in *.
  pose proof (Z.div_mod n1 d) as Hn1d. pose proof (Z.mod_pos_bound n1 d).
  rewrite u64_small by nia. unfold divl. replace (d =? 0) with false by lia.
  assert (Hfit : (2 ^ 32 * (n1 mod d) + n0) / d < 2 ^ 32) by (apply Z.div_lt_upper_bound; nia).
  replace (2 ^ 32 <=? _) with false by lia. cbn [orb obind].
  assert (Heq : (2 ^ 32 * (n1 mod d) + n0) / d + 2 ^ 32 * (n1 / d) = n / d).
  { rewrite <- Z.div_add by lia. f_equal. lia. }
  rewrite Heq. f_equal. apply u64_small. split; [apply Z.div_pos; lia|].
  apply Z.div_lt_upper_bound; nia.
Qed.

Lemma udiv64_Ret n d : 0 <= n < 2 ^ 64 -> 0 < d < 2 ^ 64 -> udiv64 n d = Ret (n / d).
Proof.
  intros Hn Hd. destruct (decide (d < 2 ^ 32)); [apply udiv64_small|apply udiv64_large]; lia.
Qed.

(** Unsigned 64-bit division is exact for every dividend and divisor, and its DIVL
    instructions trap only for a zero divisor; the remainder is returned modulo [2 ^ 32], so
    it is the true remainder exactly when that fits in 32 bits, in particular for divisors up
    to [2 ^ 32]. *)
Theorem unsigned_division_correct n d :
  0 <= n < 2 ^ 64 -> 0 <= d < 2 ^ 64 ->
  (d = 0 -> __udivdi3 n d = Panic /\ __umoddi3 n d = Panic) /\
  (0 < d -> __udivdi3 n d = Ret (n / d) /\ __umoddi3 n d = Ret (u32 (n mod d))) /\
  (0 < d -> (__umoddi3 n d = Ret (n mod d) <-> n mod d < 2 ^ 32)).
Proof.
  intros Hn Hd. split_and!.
  - intros ->. done.
  - intros Hd0. unfold __udivdi3, __umoddi3, umod64. rewrite udiv64_Ret by lia.
    cbn [obind]. by rewrite Z.mod_eq by lia.
  - intros Hd0. unfold __umoddi3, umod64. rewrite udiv64_Ret by lia. cbn [obind].
    rewrite <- Z.mod_eq by lia. pose proof (Z.mod_pos_bound n d). split.
    + intros [= H0]. pose proof (u32_range (n mod d)). lia.
    + intros H0. f_equal. apply u32_small. lia.
Qed.

Lemma unsigned_division_correct_witness :
  __udivdi3 (2 ^ 32) (2 ^ 33) = Ret 0 /\ __umoddi3 (2 ^ 32) (2 ^ 33) = Ret 0 /\
  ~ __umoddi3 (2 ^ 32) (2 ^ 33) = Ret ((2 ^ 32) mod (2 ^ 33)).
Proof.
  destruct (unsigned_division_correct (2 ^ 32) (2 ^ 33)) as (_ & H1 & H2); [lia|lia|].
  destruct H1 as [H1 H1']; [lia|]. split; [exact H1|]. split; [exact H1'|].
  rewrite H2 by lia. intros H. exact (Z.lt_irrefl _ H).
Defined.

(** Signed 64-bit division truncates towards zero for every dividend and non-zero divisor
    except the quotients of magnitude [2 ^ 63]: the most negative dividend by -1 wraps around
    to itself, and by 1 it negates the most negative integer, which overflows. *)
Theorem signed_division_correct n d :
  - 2 ^ 63 <= n < 2 ^ 63 -> - 2 ^ 63 <= d < 2 ^ 63 -> d <> 0 ->
  (n <> - 2 ^ 63 \/ (d <> 1 /\ d <> -1) ->
     __divdi3 n d = Ret (Z.quot n d) /\ __moddi3 n d = Ret (s32 (Z.rem n d))) /\
  (n = - 2 ^ 63 -> d = -1 -> __divdi3 n d = Ret (- 2 ^ 63)) /\
  (n = - 2 ^ 63 -> d = 1 -> __divdi3 n d = UB).
Proof.
  intros Hn Hd Hd0. split_and!; [|by intros -> ->..].
  intros Hne.
  assert (Hq : sdiv64 n d = Ret (Z.quot n d)).
  { unfold sdiv64.
    assert (Habs : forall z, - 2 ^ 63 <= z < 2 ^ 63 -> (if 0 <=? z then u64 z else u64 (- u64 z)) = Z.abs z).
    { intros z Hz. destruct (0 <=? z) eqn:E; [rewrite u64_small; lia|].
      replace (u64 z) with (z + 2 ^ 64).
      - replace (- (z + 2 ^ 64)) with (- z + (-1) * 2 ^ 64) by lia. unfold u64.
        rewrite Z.mod_add by lia. rewrite Z.mod_small; lia.
      - unfold u64. rewrite <- (Z.mod_add z 1) by lia. rewrite Z.mod_small; lia. }
    rewrite !Habs by done. rewrite udiv64_Ret by lia. cbn [obind].
    assert (Hqa : Z.abs n / Z.abs d = Z.abs (Z.quot n d)).
    { rewrite <- Z.quot_div_nonneg by lia. by apply Z.quot_abs. }
    assert (Hb : Z.abs (Z.quot n d) < 2 ^ 63).
    { rewrite <- Hqa. destruct (decide (Z.abs d = 1)).
      - replace (Z.abs d) with 1 by lia. rewrite Z.div_1_r. lia.
      - apply Z.div_lt_upper_bound; lia. }
    rewrite Hqa, s64_small by lia.
    pose proof (Z.quot_rem' n d) as Hqr. pose proof (Z.rem_bound_abs n d Hd0) as Hrb.
    pose proof (Z.rem_sign_mul n d Hd0) as Hrs.
    destruct (Bool.eqb (n <? 0) (d <? 0)) eqn:E.
    - f_equal. apply Z.abs_eq. apply eqb_prop in E. nia.
    - unfold neg64. replace (_ =? _) with false by lia. f_equal.
      assert (Z.quot n d <= 0); [|lia]. apply eqb_false_iff in E. nia. }
  unfold __divdi3, __moddi3, smod64. rewrite Hq. cbn [obind]. split; [done|].
  do 2 f_equal. pose proof (Z.quot_rem' n d). lia.
Qed.

Lemma signed_division_correct_witness :
  (__divdi3 (-7) 2 = Ret (-3) /\ __moddi3 (-7) 2 = Ret (-1)) /\
  __divdi3 (- 2 ^ 63) 1 = UB.
Proof.
  split.
  - destruct (signed_division_correct (-7) 2) as (H & _ & _); [lia|lia|lia|]. apply H. lia.
  - destruct (signed_division_correct (- 2 ^ 63) 1) as (_ & _ & H); [lia|lia|lia|]. by apply H.
Defined.
