(* ===== verification/FixedPoint.v ===== *)
(** Fixed-point arithmetic (threads/fixed-point.h), 16 integer and 16 fractional bits in an
    [int].  Overflow of [int] arithmetic is undefined behaviour; a [long long] result is
    converted back modulo [2 ^ 32]. *)
From S2P Require Import Prelude KStdlib.

(** * Definitions *)

Definition FIX_P : Z := 16.
Definition FIX_Q : Z := 16.
Definition FIX_F : Z := Z.shiftl 1 FIX_Q.
Definition FIX_MAX_INT : Z := Z.shiftl 1 FIX_P - 1.
Definition FIX_MIN_INT : Z := - FIX_MAX_INT.

Record fixed_point_t := __mk_fix { f : Z }.

Definition fix_int (n : Z) : outcome fixed_point_t :=
  assert? (FIX_MIN_INT <=? n) && (n <=? FIX_MAX_INT) in
  let? v := int_ (n * FIX_F) in
  Ret (__mk_fix v).

Definition fix_frac (n d : Z) : outcome fixed_point_t :=
  assert? negb (d =? 0) in
  let? q := int_ (Z.quot n d) in
  assert? (FIX_MIN_INT <=? q) && (q <=? FIX_MAX_INT) in
  Ret (__mk_fix (s32 (Z.quot (n * FIX_F) d))).

Definition fix_round (x : fixed_point_t) : outcome Z :=
  let? v := int_ (f x + FIX_F / 2) in
  Ret (Z.quot v FIX_F).

Definition fix_trunc (x : fixed_point_t) : Z := Z.quot (f x) FIX_F.

Definition fix_add (x y : fixed_point_t) : outcome fixed_point_t :=
  let? v := int_ (f x + f y) in Ret (__mk_fix v).
Definition fix_sub (x y : fixed_point_t) : outcome fixed_point_t :=
  let? v := int_ (f x - f y) in Ret (__mk_fix v).
Definition fix_mul (x y : fixed_point_t) : fixed_point_t :=
  __mk_fix (s32 (Z.quot (f x * f y) FIX_F)).
Definition fix_scale (x : fixed_point_t) (n : Z) : outcome fixed_point_t :=
  assert? (0 <=? n) in
  let? v := int_ (f x * n) in Ret (__mk_fix v).
Definition fix_div (x y : fixed_point_t) : outcome fixed_point_t :=
  if f y =? 0 then UB else Ret (__mk_fix (s32 (Z.quot (f x * FIX_F) (f y)))).
Definition fix_unscale (x : fixed_point_t) (n : Z) : outcome fixed_point_t :=
  assert? (0 <? n) in
  Ret (__mk_fix (Z.quot (f x) n)).
Definition fix_inv (x : fixed_point_t) : outcome fixed_point_t :=
  let? one := fix_int 1 in fix_div one x.
Definition fix_compare (x y : fixed_point_t) : Z :=
  if f x <? f y then -1 else if f y <? f x then 1 else 0.

(** * Theorems

    The number represented by [x] is [f x / 65536]; statements are multiplied out. *)


(** Truncated division is within one unit of the exact quotient and not larger in magnitude. *)
Lemma quot_close a b : b <> 0 -> Z.abs (a - b * Z.quot a b) < Z.abs b /\
  Z.abs (b * Z.quot a b) <= Z.abs a.
Proof.
  intros Hb. pose proof (Z.quot_rem' a b). pose proof (Z.rem_bound_abs a b Hb). split; [lia|].
  rewrite Z.abs_mul, <- Z.quot_abs, Z.quot_div_nonneg by lia. apply Z.mul_div_le. lia.
Qed.

(** Conversion from an integer is exact up to 32767; from 32768 to 65535 the assertion lets
    an overflowing product through, and beyond it fails.  [fix_round] yields the nearest
    integer for a number that is not negative, and the nearest plus one for every negative
    integer: it rounds -1.0 to 0. *)
Theorem fix_int_round_correct n :
  in_s32 n ->
  (-32768 <= n < 32768 ->
     fix_int n = Ret (__mk_fix (n * 65536)) /\
     fix_trunc (__mk_fix (n * 65536)) = n) /\
  (32768 <= Z.abs n <= 65535 -> n <> -32768 -> fix_int n = UB) /\
  (65535 < Z.abs n -> fix_int n = Panic) /\
  (0 <= n < 2 ^ 31 - 32768 ->
     exists r, fix_round (__mk_fix n) = Ret r /\ Z.abs (65536 * r - n) <= 32768) /\
  (-32768 <= n < 0 -> fix_round (__mk_fix (n * 65536)) = Ret (n + 1)).
Proof.
  intros Hn. unfold fix_int, fix_trunc, fix_round, FIX_MIN_INT, FIX_MAX_INT.
  change (Z.shiftl 1 FIX_P) with 65536. change FIX_F with 65536. cbn [f].
  split_and!.
  - intros Hr. replace (_ && _) with true by lia. rewrite int_Ret by lia. split; [done|].
    apply Z.quot_mul. lia.
  - intros H1 H2. replace (_ && _) with true by lia. rewrite int_UB by lia. done.
  - intros H1. replace (_ && _) with false by lia. done.
  - intros H1. change (65536 / 2) with 32768. rewrite int_Ret by lia. cbn [obind].
    eexists. split; [done|]. rewrite Z.quot_div_nonneg by lia.
    pose proof (Z.div_mod (n + 32768) 65536). pose proof (Z.mod_pos_bound (n + 32768) 65536). lia.
  - intros H1. change (65536 / 2) with 32768. rewrite int_Ret by lia. cbn [obind]. f_equal.
    pose proof (quot_close (n * 65536 + 32768) 65536).
    pose proof (Z.rem_sign_mul (n * 65536 + 32768) 65536).
    pose proof (Z.quot_rem' (n * 65536 + 32768) 65536). lia.
Qed.

Lemma fix_int_round_correct_witness :
  fix_int 32768 = UB /\ fix_round (__mk_fix (-1 * 65536)) = Ret 0.
Proof.
  split.
  - destruct (fix_int_round_correct 32768) as (_ & H & _); [lia|]. apply H; lia.
  - destruct (fix_int_round_correct (-1)) as (_ & _ & _ & _ & H); [lia|]. apply H. lia.
Defined.

(** Sums, differences and integer multiples that fit are exact; products, quotients and
    fractions that fit are the exact values truncated towards zero, off by less than one unit
    of the last place; comparison orders the represented numbers. *)
Theorem fix_arith_correct x y n :
  in_s32 (f x) -> in_s32 (f y) -> in_s32 n ->
  (in_s32 (f x + f y) -> fix_add x y = Ret (__mk_fix (f x + f y))) /\
  (in_s32 (f x - f y) -> fix_sub x y = Ret (__mk_fix (f x - f y))) /\
  (0 <= n -> in_s32 (f x * n) -> fix_scale x n = Ret (__mk_fix (f x * n))) /\
  (Z.abs (f x * f y) < 2 ^ 47 ->
     Z.abs (f x * f y - 65536 * f (fix_mul x y)) < 65536 /\
     Z.abs (65536 * f (fix_mul x y)) <= Z.abs (f x * f y)) /\
  (f y <> 0 -> Z.abs (f x * 65536) < 2 ^ 31 * Z.abs (f y) ->
     exists z, fix_div x y = Ret z /\ Z.abs (f x * 65536 - f y * f z) < Z.abs (f y) /\
       Z.abs (f y * f z) <= Z.abs (f x * 65536)) /\
  (n <> 0 -> Z.abs (f x) < 32768 * Z.abs n ->
     exists z, fix_frac (f x) n = Ret z /\ Z.abs (f x * 65536 - n * f z) < Z.abs n /\
       Z.abs (n * f z) <= Z.abs (f x * 65536)) /\
  fix_compare x y = (if decide (f x < f y) then -1 else if decide (f x = f y) then 0 else 1).
Proof.
  intros Hx Hy Hn. unfold fix_add, fix_sub, fix_scale, fix_mul, fix_div, fix_frac, fix_compare.
  unfold FIX_MIN_INT, FIX_MAX_INT. change (Z.shiftl 1 FIX_P) with 65536. change FIX_F with 65536.
  split_and!.
  - intros H. by rewrite int_Ret.
  - intros H. by rewrite int_Ret.
  - intros H0 H. replace (0 <=? n) with true by lia. by rewrite int_Ret.
  - intros H. cbn [f]. destruct (quot_close (f x * f y) 65536) as [H1 H2]; [lia|].
    rewrite s32_small by lia. lia.
  - intros H0 H. replace (f y =? 0) with false by lia. eexists. split; [done|]. cbn [f].
    destruct (quot_close (f x * 65536) (f y)) as [H1 H2]; [done|].
    rewrite s32_small; [done|]. rewrite Z.abs_mul in H2. nia.
  - intros H0 H. replace (negb (n =? 0)) with true by lia.
    destruct (quot_close (f x) n) as [H1 H2]; [done|]. rewrite Z.abs_mul in H2.
    assert (Hq : Z.abs (Z.quot (f x) n) < 32768) by nia.
    rewrite int_Ret by lia. cbn [obind]. replace (_ && _) with true by lia.
    eexists. split; [done|]. cbn [f].
    destruct (quot_close (f x * 65536) n) as [H3 H4]; [done|].
    rewrite s32_small; [done|]. rewrite Z.abs_mul in H4. nia.
  - destruct (f x <? f y) eqn:E1.
    + by rewrite decide_True by lia.
    + rewrite decide_False by lia. destruct (f y <? f x) eqn:E2.
      * by rewrite decide_False by lia.
      * by rewrite decide_True by lia.
Qed.

Lemma fix_arith_correct_witness :
  exists z, fix_div (__mk_fix 65536) (__mk_fix 196608) = Ret z /\
    Z.abs (65536 * 65536 - 196608 * f z) < 196608 /\ Z.abs (196608 * f z) <= 65536 * 65536.
Proof.
  destruct (fix_arith_correct (__mk_fix 65536) (__mk_fix 196608) 0)
    as (_ & _ & _ & _ & H & _); [simpl; lia..|]. apply H; simpl; lia.
Defined.
