(* ===== verification/Random.v ===== *)
(** The pseudo-random number generator (lib/random.c): RC4 on a 256-byte permutation. *)
From S2P Require Import Prelude.

(** * Definitions *)

Record prng := mk_prng { s : list Z; s_i : Z; s_j : Z; inited : bool }.

Definition swap_byte (s : list Z) (a b : Z) : outcome (list Z) :=
  let? t := aread s a in
  let? v := aread s b in
  let? s := aset s a v in
  aset s b t.

(** Byte [i] of the seed in memory (little endian). *)
Definition seedp (seed i : Z) : Z := u8 (Z.shiftr seed (8 * i)).

(** [n] iterations are left; the next index is [256 - n]. *)
Fixpoint random_init_loop (n : nat) (seed : Z) (s : list Z) (j : Z) : outcome (list Z) :=
  match n with
  | O => Ret s
  | S n' =>
      let i := 256 - Z.of_nat n in
      let? c := aread s i in
      let j := u8 (j + (c + seedp seed (i mod 4))) in
      let? s := swap_byte s i j in
      random_init_loop n' seed s j
  end.

Definition random_init (seed : Z) : outcome prng :=
  let? s := random_init_loop 256 seed (seqZ 0 256) 0 in
  Ret (mk_prng s 0 0 true).

(** One byte of output. *)
Definition random_byte (g : prng) : outcome (prng * Z) :=
  let s_i := u8 (s_i g + 1) in
  let? a := aread (s g) s_i in
  let s_j := u8 (s_j g + a) in
  let? s := swap_byte (s g) s_i s_j in
  let? a := aread s s_i in
  let? b := aread s s_j in
  let s_k := u8 (a + b) in
  let? out := aread s s_k in
  Ret (mk_prng s s_i s_j (inited g), out).

Fixpoint random_bytes_loop (size : nat) (g : prng) : outcome (prng * list Z) :=
  match size with
  | O => Ret (g, [])
  | S size =>
      let? (g, b) := random_byte g in
      let? (g, bs) := random_bytes_loop size g in
      Ret (g, b :: bs)
  end.

Definition random_bytes (g : prng) (size : Z) : outcome (prng * list Z) :=
  let? g := (if negb (inited g) then random_init 0 else Ret g) in
  random_bytes_loop (Z.to_nat size) g.

Definition random_ulong (g : prng) : outcome (prng * Z) :=
  let? (g, bs) := random_bytes g 4 in
  match bs with
  | [a; b; c; d] => Ret (g, a + 256 * b + 65536 * c + 16777216 * d)
  | _ => UB
  end.

(** * Theorems *)

(** Before the first use the state is all zero and not initialized. *)
Record prng_ok (g : prng) : Prop := {
  pr_perm : inited g = true -> s g ≡ₚ seqZ 0 256;
  pr_i : 0 <= s_i g < 256;
  pr_j : 0 <= s_j g < 256
}.

Lemma perm_read l i : l ≡ₚ seqZ 0 256 -> 0 <= i < 256 ->
  exists c, aread l i = Ret c /\ 0 <= c < 256.
Proof.
  intros Hp Hi. destruct (aget_is_Some l i) as [c Hc].
  { rewrite (Permutation_length Hp), length_seqZ. lia. }
  exists c. unfold aread. rewrite Hc. split; [done|].
  assert (c ∈ l) as Hin.
  { unfold aget in Hc. replace (0 <=? i) with true in Hc by lia. by eapply list_elem_of_lookup_2. }
  rewrite Hp in Hin. apply elem_of_seqZ in Hin. lia.
Qed.

Lemma swap_byte_Ret l i j : l ≡ₚ seqZ 0 256 -> 0 <= i < 256 -> 0 <= j < 256 ->
  exists l', swap_byte l i j = Ret l' /\ l' ≡ₚ seqZ 0 256.
Proof.
  intros Hp Hi Hj. assert (Hlen : length l = 256%nat) by by rewrite (Permutation_length Hp), length_seqZ.
  destruct (aget_is_Some l i) as [x Hx]; [lia|]. destruct (aget_is_Some l j) as [y Hy]; [lia|].
  unfold swap_byte, aread. rewrite Hx, Hy. cbn [obind deref].
  assert (H1 : aset l i y = Ret (<[Z.to_nat i := y]> l)) by (apply aset_Ret; split; [lia|done]).
  rewrite H1. cbn [obind]. eexists. split.
  { apply aset_Ret. rewrite length_insert. split; [lia|done]. }
  unfold aget in *. replace (0 <=? i) with true in Hx by lia. replace (0 <=? j) with true in Hy by lia.
  rewrite (Permutation_insert_swap l _ _ x y Hx Hy). done.
Qed.

Lemma random_init_loop_Ret seed n : forall l j, (n <= 256)%nat -> l ≡ₚ seqZ 0 256 ->
  exists l', random_init_loop n seed l j = Ret l' /\ l' ≡ₚ seqZ 0 256.
Proof.
  induction n as [|n IH]; intros l j Hn Hp; cbn [random_init_loop]; [eauto|].
  destruct (perm_read l (256 - Z.of_nat (S n)) Hp) as (c & -> & Hc); [lia|]. cbn [obind].
  destruct (swap_byte_Ret l (256 - Z.of_nat (S n))
              (u8 (j + (c + seedp seed ((256 - Z.of_nat (S n)) mod 4))))) as (l1 & -> & Hp1);
    [done|lia|apply u8_range|]. cbn [obind]. apply IH; [lia|done].
Qed.

Lemma random_init_Ret seed : exists g, random_init seed = Ret g /\ inited g = true /\ prng_ok g.
Proof.
  unfold random_init. destruct (random_init_loop_Ret seed 256 (seqZ 0 256) 0) as (l & -> & Hp);
    [lia|done|]. eexists. split; [done|]. split; [done|]. constructor; cbn; [done|lia|lia].
Qed.

Lemma random_byte_Ret g : inited g = true -> prng_ok g ->
  exists g' b, random_byte g = Ret (g', b) /\ inited g' = true /\ prng_ok g' /\ 0 <= b < 256.
Proof.
  intros Hin [Hp Hi Hj]. specialize (Hp Hin). unfold random_byte.
  pose proof (u8_range (s_i g + 1)) as Hi'. set (i := u8 (s_i g + 1)) in *.
  destruct (perm_read (s g) i Hp Hi') as (a & -> & Ha). cbn [obind].
  pose proof (u8_range (s_j g + a)) as Hj'. set (j := u8 (s_j g + a)) in *.
  destruct (swap_byte_Ret (s g) i j Hp Hi' Hj') as (l & -> & Hl). cbn [obind].
  destruct (perm_read l i Hl Hi') as (c & -> & Hc). destruct (perm_read l j Hl Hj') as (d & -> & Hd).
  cbn [obind]. destruct (perm_read l (u8 (c + d)) Hl (u8_range _)) as (o & -> & Ho). cbn [obind].
  eexists _, _. split; [done|]. split_and!; [done|by constructor|lia|lia].
Qed.

Lemma random_bytes_loop_Ret n : forall g, inited g = true -> prng_ok g ->
  exists g' bs, random_bytes_loop n g = Ret (g', bs) /\ inited g' = true /\ prng_ok g' /\
    length bs = n /\ Forall (fun b => 0 <= b < 256) bs.
Proof.
  induction n as [|n IH]; intros g Hin Hok; cbn [random_bytes_loop]; [eauto 10|].
  destruct (random_byte_Ret g Hin Hok) as (g1 & b & -> & Hin1 & Hok1 & Hb). cbn [obind].
  destruct (IH g1 Hin1 Hok1) as (g2 & bs & -> & Hin2 & Hok2 & Hl & Hbs). cbn [obind].
  eexists _, _. split; [done|]. split_and!; [done|done|cbn; lia|by constructor].
Qed.

Lemma random_bytes_loop_app n m : forall g,
  random_bytes_loop (n + m) g =
  let? (g1, b1) := random_bytes_loop n g in
  let? (g2, b2) := random_bytes_loop m g1 in
  Ret (g2, b1 ++ b2).
Proof.
  induction n as [|n IH]; intros g; cbn [random_bytes_loop Nat.add obind].
  - destruct (random_bytes_loop m g) as [[]| | |]; done.
  - destruct (random_byte g) as [[g1 b]| | |]; cbn [obind]; [|done..]. rewrite IH.
    destruct (random_bytes_loop n g1) as [[g2 b1]| | |]; cbn [obind]; [|done..].
    destruct (random_bytes_loop m g2) as [[g3 b2]| | |]; done.
Qed.

(** The generator never leaves its state: after [random_init] with any seed, and after any
    number of output bytes (initializing itself with seed 0 on first use), [s] is a
    permutation of the 256 byte values; [random_bytes] yields exactly [n] bytes,
    [random_ulong] a 32-bit value, and a stream of [n + k] bytes is the same whether it is
    drawn at once or in two parts. *)
Theorem random_correct (g : prng) (seed n k : Z) :
  prng_ok g -> 0 <= n -> 0 <= k ->
  (exists g0, random_init seed = Ret g0 /\ inited g0 = true /\ prng_ok g0) /\
  (exists g1 b1 g2 b2, random_bytes g n = Ret (g1, b1) /\ prng_ok g1 /\ inited g1 = true /\
     s g1 ≡ₚ seqZ 0 256 /\ Z.of_nat (length b1) = n /\ Forall (fun b => 0 <= b < 256) b1 /\
     random_bytes g1 k = Ret (g2, b2) /\ random_bytes g (n + k) = Ret (g2, b1 ++ b2)) /\
  (exists g1 v, random_ulong g = Ret (g1, v) /\ prng_ok g1 /\ in_u32 v).
Proof.
  intros Hok Hn Hk.
  assert (Hst : exists g0, (if negb (inited g) then random_init 0 else Ret g) = Ret g0 /\
                  inited g0 = true /\ prng_ok g0).
  { destruct (inited g) eqn:E; cbn [negb]; [eauto|]. apply random_init_Ret. }
  destruct Hst as (g0 & Hst & Hin0 & Hok0). split_and!.
  - apply random_init_Ret.
  - destruct (random_bytes_loop_Ret (Z.to_nat n) g0 Hin0 Hok0)
      as (g1 & b1 & Hb1 & Hin1 & Hok1 & Hl1 & Hf1).
    destruct (random_bytes_loop_Ret (Z.to_nat k) g1 Hin1 Hok1)
      as (g2 & b2 & Hb2 & Hin2 & Hok2 & Hl2 & Hf2).
    exists g1, b1, g2, b2. unfold random_bytes. rewrite Hst, Hin1. cbn [obind negb].
    split_and!; [done|apply Hok1..|done|by apply Hok1|lia|done|done|].
    rewrite Z2Nat.inj_add by done. rewrite random_bytes_loop_app, Hb1. cbn [obind].
    by rewrite Hb2.
  - unfold random_ulong, random_bytes. rewrite Hst. cbn [obind].
    destruct (random_bytes_loop_Ret (Z.to_nat 4) g0 Hin0 Hok0)
      as (g1 & b1 & -> & Hin1 & Hok1 & Hl1 & Hf1). cbn [obind].
    destruct b1 as [|a [|b [|c [|d [|e b1]]]]]; try discriminate Hl1.
    eexists _, _. split; [done|]. split; [done|].
    repeat match goal with H : Forall _ (_ :: _) |- _ => inversion H; clear H; subst end. lia.
Qed.

Lemma random_correct_witness :
  prng_ok (mk_prng (replicate 256 0) 0 0 false) /\
  exists g1 v, random_ulong (mk_prng (replicate 256 0) 0 0 false) = Ret (g1, v) /\
    prng_ok g1 /\ in_u32 v.
Proof.
  assert (H : prng_ok (mk_prng (replicate 256 0) 0 0 false)) by (constructor; cbn; [done|lia|lia]).
  split; [exact H|].
  destruct (random_correct _ 7 1 1 H) as (_ & _ & Hu); [lia|lia|exact Hu].
Defined.

Example random_ex : exists g, (let? g := random_init 42 in random_bytes g 3) = Ret (g, [119; 65; 186]).
Proof. vm_compute. eexists. reflexivity. Qed.
