(* ===== verification/Intq.v ===== *)
(** The interrupt queue (devices/intq.c): a 64-byte circular buffer between kernel threads and
    interrupt handlers, with one waiting thread per condition.  All its routines run with
    interrupts off, so each is one atomic step up to the point where it sleeps. *)
From S2P Require Import Prelude.

(** * Definitions *)

Definition INTQ_BUFSIZE : Z := 64.

Abbreviation tid := Z.

(** [lock] is the holder of the queue's lock: the one thread allowed to wait. *)
Record intq := mk_intq {
  lock : option tid;
  not_full : option tid;
  not_empty : option tid;
  buf : list Z;
  head : Z;
  tail : Z
}.

(** An operation completes with a value and the thread it woke up, or the caller sleeps: on
    the queue's lock (another thread is already waiting) or on the condition. *)
Inductive result (A : Type) : Type :=
  | Done (a : A) (woken : option tid)
  | SleepOnLock
  | SleepOnCondition.
Arguments Done {A} a woken.
Arguments SleepOnLock {A}.
Arguments SleepOnCondition {A}.

Definition next (pos : Z) : Z := (pos + 1) mod INTQ_BUFSIZE.

(** Static storage is zero. *)
Definition intq_init (buf : list Z) : intq := mk_intq None None None buf 0 0.

Definition intq_empty (q : intq) : bool := head q =? tail q.
Definition intq_full (q : intq) : bool := next (head q) =? tail q.

(** [wait (q, &q->not_empty)] and [wait (q, &q->not_full)]. *)
Definition wait_not_empty (q : intq) (cur : tid) (intr_context : bool) : outcome intq :=
  assert? negb intr_context in
  assert? intq_empty q in
  Ret (mk_intq (lock q) (not_full q) (Some cur) (buf q) (head q) (tail q)).
Definition wait_not_full (q : intq) (cur : tid) (intr_context : bool) : outcome intq :=
  assert? negb intr_context in
  assert? intq_full q in
  Ret (mk_intq (lock q) (Some cur) (not_empty q) (buf q) (head q) (tail q)).

(** [signal]: wakes the waiting thread, if any, and resets it. *)
Definition signal_not_full (q : intq) : outcome (intq * option tid) :=
  assert? negb (intq_full q) in
  Ret (mk_intq (lock q) None (not_empty q) (buf q) (head q) (tail q), not_full q).
Definition signal_not_empty (q : intq) : outcome (intq * option tid) :=
  assert? negb (intq_empty q) in
  Ret (mk_intq (lock q) (not_full q) None (buf q) (head q) (tail q), not_empty q).

Definition q_lock_acquire (q : intq) (cur : tid) : option intq :=
  match lock q with
  | None => Some (mk_intq (Some cur) (not_full q) (not_empty q) (buf q) (head q) (tail q))
  | Some _ => None
  end.
(** A thread that was woken up releases the lock and tests the condition again. *)
Definition q_lock_release (q : intq) : intq :=
  mk_intq None (not_full q) (not_empty q) (buf q) (head q) (tail q).

(** One iteration of the loop of [intq_getc]. *)
Definition intq_getc (q : intq) (cur : tid) (intr_context : bool) : outcome (intq * result Z) :=
  if intq_empty q then
    assert? negb intr_context in
    match q_lock_acquire q cur with
    | None => Ret (q, SleepOnLock)
    | Some q => let? q := wait_not_empty q cur intr_context in Ret (q, SleepOnCondition)
    end
  else
    let? byte := aread (buf q) (tail q) in
    let q := mk_intq (lock q) (not_full q) (not_empty q) (buf q) (head q) (next (tail q)) in
    let? (q, woken) := signal_not_full q in
    Ret (q, Done byte woken).

Definition intq_putc (q : intq) (byte : Z) (cur : tid) (intr_context : bool)
    : outcome (intq * result unit) :=
  if intq_full q then
    assert? negb intr_context in
    match q_lock_acquire q cur with
    | None => Ret (q, SleepOnLock)
    | Some q => let? q := wait_not_full q cur intr_context in Ret (q, SleepOnCondition)
    end
  else
    let? b := aset (buf q) (head q) byte in
    let q := mk_intq (lock q) (not_full q) (not_empty q) b (next (head q)) (tail q) in
    let? (q, woken) := signal_not_empty q in
    Ret (q, Done tt woken).

(** * Specification *)

(** The number of bytes stored, and the bytes from the oldest to the newest. *)
Definition count (q : intq) : Z := (head q - tail q) mod 64.
Definition contents (q : intq) : list Z :=
  map (fun i => default 0 (aget (buf q) ((tail q + Z.of_nat i) mod 64))) (seq 0 (Z.to_nat (count q))).

(** A thread waits only while the condition it waits for is false and it holds the lock. *)
Record intq_ok (q : intq) : Prop := {
  iq_len : length (buf q) = 64%nat;
  iq_head : 0 <= head q < 64;
  iq_tail : 0 <= tail q < 64;
  iq_not_empty t : not_empty q = Some t -> contents q = [] /\ lock q = Some t;
  iq_not_full t : not_full q = Some t -> length (contents q) = 63%nat /\ lock q = Some t
}.

(** * Lemmas *)

Lemma mod64_cases a : -64 <= a < 128 ->
  a mod 64 = (if a <? 0 then a + 64 else if a <? 64 then a else a - 64).
Proof.
  intros. destruct (a <? 0) eqn:E1; [|destruct (a <? 64) eqn:E2].
  - symmetry. apply (Z.mod_unique _ _ (-1)); lia.
  - apply Z.mod_small. lia.
  - symmetry. apply (Z.mod_unique _ _ 1); lia.
Qed.

Lemma length_contents q : Z.of_nat (length (contents q)) = count q.
Proof.
  unfold contents. rewrite length_map, length_seq. unfold count.
  pose proof (Z.mod_pos_bound (head q - tail q) 64). lia.
Qed.

Lemma count_range q : 0 <= count q < 64.
Proof. unfold count. apply Z.mod_pos_bound. lia. Qed.

Section Facts.
Variables (q : intq).
Hypothesis Hh : 0 <= head q < 64.
Hypothesis Ht : 0 <= tail q < 64.

Lemma intq_empty_count : intq_empty q = (count q =? 0).
Proof. unfold intq_empty, count. rewrite mod64_cases by lia. destruct (_ <? 0) eqn:?; [|destruct (_ <? 64) eqn:?]; lia. Qed.

Lemma intq_full_count : intq_full q = (count q =? 63).
Proof.
  unfold intq_full, count, next, INTQ_BUFSIZE. rewrite !mod64_cases by lia.
  destruct (head q - tail q <? 0) eqn:?, (head q + 1 <? 0) eqn:?; try lia;
    destruct (head q + 1 <? 64) eqn:?; try lia; destruct (head q - tail q <? 64) eqn:?; lia.
Qed.

Lemma next_range pos : 0 <= next pos < 64.
Proof. unfold next, INTQ_BUFSIZE. apply Z.mod_pos_bound. lia. Qed.
End Facts.

Lemma empty_contents q : count q = 0 -> contents q = [].
Proof. intros H. apply nil_length_inv. pose proof (length_contents q). lia. Qed.

(** Storing a byte at the head position. *)
Lemma contents_put q lk nf ne byte :
  length (buf q) = 64%nat -> 0 <= head q < 64 -> 0 <= tail q < 64 -> count q <> 63 ->
  contents (mk_intq lk nf ne (<[Z.to_nat (head q) := byte]> (buf q)) (next (head q)) (tail q))
  = contents q ++ [byte].
Proof.
  intros Hl Hh Ht Hc. pose proof (count_range q) as Hcr.
  assert (Hcount : count (mk_intq lk nf ne (<[Z.to_nat (head q) := byte]> (buf q)) (next (head q)) (tail q))
                   = count q + 1).
  { unfold count, next, INTQ_BUFSIZE in *. cbn in *. rewrite Zminus_mod_idemp_l.
    replace (head q + 1 - tail q) with (head q - tail q + 1) by lia.
    rewrite <- Zplus_mod_idemp_l. apply Z.mod_small. lia. }
  unfold contents. rewrite Hcount. cbn [buf tail head].
  replace (Z.to_nat (count q + 1)) with (S (Z.to_nat (count q))) by lia.
  rewrite seq_S, map_app. cbn [map Nat.add]. f_equal.
  - apply map_ext_in. intros i Hi. apply in_seq in Hi. f_equal.
    apply aget_insert_ne; [lia|]. unfold count in *.
    assert (head q = (tail q + (head q - tail q) mod 64) mod 64).
    { rewrite Zplus_mod_idemp_r. replace (tail q + (head q - tail q)) with (head q) by lia.
      symmetry. by apply Z.mod_small. }
    set (c := (head q - tail q) mod 64) in *. rewrite !mod64_cases in * by lia.
    destruct (tail q + c <? 0), (tail q + c <? 64) eqn:?, (tail q + Z.of_nat i <? 0) eqn:?,
      (tail q + Z.of_nat i <? 64) eqn:?; lia.
  - f_equal. rewrite Z2Nat.id by lia. unfold count. rewrite Zplus_mod_idemp_r.
    replace (tail q + (head q - tail q)) with (head q) by lia. rewrite Z.mod_small by lia.
    rewrite aget_insert_eq by lia. done.
Qed.

(** Removing the byte at the tail position. *)
Lemma contents_get q lk nf ne :
  0 <= head q < 64 -> 0 <= tail q < 64 -> count q <> 0 ->
  contents q = default 0 (aget (buf q) (tail q))
                 :: contents (mk_intq lk nf ne (buf q) (head q) (next (tail q))).
Proof.
  intros Hh Ht Hc. pose proof (count_range q).
  assert (Hcount : count (mk_intq lk nf ne (buf q) (head q) (next (tail q))) = count q - 1).
  { unfold count, next, INTQ_BUFSIZE in *. cbn in *. rewrite Zminus_mod_idemp_r.
    replace (head q - (tail q + 1)) with (head q - tail q + -1) by lia.
    rewrite <- Zplus_mod_idemp_l. apply Z.mod_small. lia. }
  unfold contents. rewrite Hcount. cbn [buf tail head].
  replace (Z.to_nat (count q)) with (S (Z.to_nat (count q - 1))) by lia.
  cbn [seq map]. f_equal; [rewrite Z.add_0_r, Z.mod_small by lia; done|].
  rewrite <- seq_shift, map_map. apply map_ext. intros i. do 2 f_equal.
  unfold next, INTQ_BUFSIZE. rewrite Zplus_mod_idemp_l. f_equal. lia.
Qed.

(** ** The operations *)

Section Operations.
Variables (q : intq) (cur : tid) (ctx : bool).
Hypothesis Hok : intq_ok q.

Lemma intq_len : length (buf q) = 64%nat /\ 0 <= head q < 64 /\ 0 <= tail q < 64.
Proof. destruct Hok. auto. Qed.

Lemma intq_facts :
  intq_empty q = (count q =? 0) /\ intq_full q = (count q =? 63) /\
  Z.of_nat (length (contents q)) = count q /\ 0 <= count q < 64 /\
  (contents q = [] <-> count q = 0).
Proof.
  destruct intq_len as (Hl & Hh & Ht). pose proof (length_contents q) as Hlen.
  split; [by apply intq_empty_count|]. split; [by apply intq_full_count|]. split; [done|].
  split; [apply count_range|]. split; [|apply empty_contents].
  intros E. rewrite E in Hlen. simpl in Hlen. lia.
Qed.

Lemma intq_empty_spec : intq_empty q = bool_decide (contents q = []).
Proof.
  destruct intq_len as (Hl & Hh & Ht).
  destruct intq_facts as (He & Hf & Hlen & Hcr & Hnil).
  rewrite He. destruct (count q =? 0) eqn:E; symmetry;
    [apply bool_decide_eq_true|apply bool_decide_eq_false]; rewrite Hnil; lia.
Qed.

Lemma intq_full_spec : intq_full q = bool_decide (length (contents q) = 63%nat).
Proof.
  destruct intq_len as (Hl & Hh & Ht).
  destruct intq_facts as (He & Hf & Hlen & Hcr & Hnil).
  rewrite Hf. destruct (count q =? 63) eqn:E; symmetry;
    [apply bool_decide_eq_true|apply bool_decide_eq_false]; lia.
Qed.

Lemma intq_putc_Done byte :
  length (contents q) <> 63%nat ->
  exists q', intq_putc q byte cur ctx = Ret (q', Done tt (not_empty q)) /\ intq_ok q' /\
    contents q' = contents q ++ [byte] /\ not_empty q' = None.
Proof.
  destruct intq_len as (Hl & Hh & Ht).
  destruct intq_facts as (He & Hf & Hlen & Hcr & Hnil).
  intros Hn. unfold intq_putc. rewrite Hf. replace (count q =? 63) with false by lia.
  assert (Hs : aset (buf q) (head q) byte = Ret (<[Z.to_nat (head q) := byte]> (buf q)))
    by (apply aset_Ret; split; [lia|done]).
  rewrite Hs. cbn [obind]. clear Hs.
  pose proof (contents_put q (lock q) (not_full q) None byte Hl Hh Ht) as Hput.
  specialize (Hput ltac:(lia)). pose proof (f_equal length Hput) as Hlp.
  rewrite length_app in Hlp. cbn [length] in Hlp.
  unfold signal_not_empty. cbn [lock not_full not_empty buf head tail].
  rewrite intq_empty_count by (cbn; auto using next_range). rewrite <- length_contents.
  rewrite (contents_put q (lock q) (not_full q) (not_empty q) byte) by (done || lia).
  rewrite length_app. cbn [length]. replace (negb _) with true by lia. cbn [obind].
  eexists. split; [done|]. split_and!; [|done|done].
  constructor; cbn [lock not_full not_empty buf head tail]; [by rewrite length_insert|apply next_range
    |done|done|].
  intros t E. destruct (iq_not_full q Hok t E) as [E63 _]. lia.
Qed.

Lemma intq_putc_full byte :
  length (contents q) = 63%nat ->
  if ctx then intq_putc q byte cur ctx = Panic
  else exists q' r, intq_putc q byte cur ctx = Ret (q', r) /\ intq_ok q' /\
         contents q' = contents q /\
         match lock q with
         | Some _ => q' = q /\ r = SleepOnLock
         | None => not_full q' = Some cur /\ r = SleepOnCondition
         end.
Proof.
  destruct intq_len as (Hl & Hh & Ht).
  destruct intq_facts as (He & Hf & Hlen & Hcr & Hnil).
  intros Hn. unfold intq_putc. rewrite Hf. replace (count q =? 63) with true by lia.
  destruct ctx; [done|]. cbn [negb]. unfold q_lock_acquire.
  destruct (lock q) as [t|] eqn:El.
  - eexists _, _. split; [done|]. by split_and!.
  - unfold wait_not_full. cbn [negb]. change (intq_full _) with (intq_full q). rewrite Hf.
    replace (count q =? 63) with true by lia. cbn [obind].
    eexists _, _. split; [done|]. split; [|done].
    constructor; cbn [lock not_full not_empty buf head tail]; [done|done|done| |].
    + intros t E. apply (iq_not_empty q Hok) in E as [_ E]. congruence.
    + intros t [= <-]. split; [exact Hn|done].
Qed.

Lemma intq_getc_Done b rest :
  contents q = b :: rest ->
  exists q', intq_getc q cur ctx = Ret (q', Done b (not_full q)) /\ intq_ok q' /\
    contents q' = rest /\ not_full q' = None.
Proof.
  destruct intq_len as (Hl & Hh & Ht).
  destruct intq_facts as (He & Hf & Hlen & Hcr & Hnil).
  intros Hc. unfold intq_getc. rewrite He.
  assert (count q <> 0) as Hc0 by (rewrite <- Hnil; congruence).
  replace (count q =? 0) with false by lia.
  pose proof (contents_get q (lock q) None (not_empty q) Hh Ht Hc0) as Hget.
  rewrite Hc in Hget. injection Hget as Hb Hrest.
  destruct (aget_is_Some (buf q) (tail q)) as [x Hx]; [lia|]. rewrite Hx in Hb. simpl in Hb. subst x.
  unfold aread. rewrite Hx. cbn [deref obind]. unfold signal_not_full.
  cbn [lock not_full not_empty buf head tail].
  assert (Hcl : length (contents q) = S (length rest)) by by rewrite Hc.
  rewrite intq_full_count by (cbn; auto using next_range). rewrite <- length_contents.
  change (contents (mk_intq (lock q) (not_full q) (not_empty q) (buf q) (head q) (next (tail q))))
    with (contents (mk_intq (lock q) None (not_empty q) (buf q) (head q) (next (tail q)))).
  rewrite <- Hrest. replace (negb _) with true by lia. cbn [obind].
  eexists. split; [done|]. split_and!; [|done|done].
  constructor; cbn [lock not_full not_empty buf head tail]; [done|done|apply next_range| |done].
  intros t E. destruct (iq_not_empty q Hok t E) as [E0 _]. congruence.
Qed.

Lemma intq_getc_empty :
  contents q = [] ->
  if ctx then intq_getc q cur ctx = Panic
  else exists q' r, intq_getc q cur ctx = Ret (q', r) /\ intq_ok q' /\ contents q' = [] /\
         match lock q with
         | Some _ => q' = q /\ r = SleepOnLock
         | None => not_empty q' = Some cur /\ r = SleepOnCondition
         end.
Proof.
  destruct intq_len as (Hl & Hh & Ht).
  destruct intq_facts as (He & Hf & Hlen & Hcr & Hnil).
  intros Hn. unfold intq_getc. rewrite He. apply Hnil in Hn as Hn0.
  replace (count q =? 0) with true by lia.
  destruct ctx; [done|]. cbn [negb]. unfold q_lock_acquire.
  destruct (lock q) as [t|] eqn:El.
  - eexists _, _. split; [done|]. by split_and!.
  - unfold wait_not_empty. cbn [negb]. change (intq_empty _) with (intq_empty q). rewrite He.
    replace (count q =? 0) with true by lia. cbn [obind].
    eexists _, _. split; [done|]. split; [|done].
    constructor; cbn [lock not_full not_empty buf head tail]; [done|done|done| |].
    + intros t [= <-]. split; [exact Hn|done].
    + intros t E. apply (iq_not_full q Hok) in E as [_ E]. congruence.
Qed.
End Operations.

(** The queue is a first-in first-out buffer of at most 63 bytes: a byte is added at the end
    or taken from the front, waking the thread that waits for the opposite condition; on a full
    (empty) queue the caller sleeps and the contents stay, except in an interrupt handler,
    where an assertion fails.  The invariant rules out a lost wakeup: no thread is left waiting
    once its condition holds. *)
Theorem intq_fifo (q : intq) (byte : Z) (cur : tid) (ctx : bool) :
  intq_ok q ->
  intq_empty q = bool_decide (contents q = []) /\
  intq_full q = bool_decide (length (contents q) = 63%nat) /\
  (length (contents q) <= 63)%nat /\
  (length (contents q) <> 63%nat ->
   exists q', intq_putc q byte cur ctx = Ret (q', Done tt (not_empty q)) /\ intq_ok q' /\
     contents q' = contents q ++ [byte] /\ not_empty q' = None) /\
  (length (contents q) = 63%nat ->
   if ctx then intq_putc q byte cur ctx = Panic
   else exists q' r, intq_putc q byte cur ctx = Ret (q', r) /\ intq_ok q' /\
          contents q' = contents q /\
          match lock q with
          | Some _ => q' = q /\ r = SleepOnLock
          | None => not_full q' = Some cur /\ r = SleepOnCondition
          end) /\
  (forall b rest, contents q = b :: rest ->
   exists q', intq_getc q cur ctx = Ret (q', Done b (not_full q)) /\ intq_ok q' /\
     contents q' = rest /\ not_full q' = None) /\
  (contents q = [] ->
   if ctx then intq_getc q cur ctx = Panic
   else exists q' r, intq_getc q cur ctx = Ret (q', r) /\ intq_ok q' /\ contents q' = [] /\
          match lock q with
          | Some _ => q' = q /\ r = SleepOnLock
          | None => not_empty q' = Some cur /\ r = SleepOnCondition
          end).
Proof.
  intros Hok. destruct (intq_facts q Hok) as (He & Hf & Hlen & Hcr & Hnil).
  split; [by apply intq_empty_spec|]. split; [by apply intq_full_spec|]. split; [lia|].
  split; [by apply intq_putc_Done|]. split; [by apply intq_putc_full|].
  split; [intros b rest; by apply intq_getc_Done|by apply intq_getc_empty].
Qed.

Definition ex_queue : intq := mk_intq (Some 3) None (Some 3) (replicate 64 7) 63 63.

Lemma intq_fifo_witness :
  intq_ok ex_queue /\
  exists q', intq_putc ex_queue 65 1 true = Ret (q', Done tt (Some 3)) /\ intq_ok q' /\
    contents q' = [65] /\ not_empty q' = None.
Proof.
  assert (H : intq_ok ex_queue).
  { constructor; cbn; [done|lia|lia| |done]. intros t [= <-]. done. }
  split; [exact H|]. destruct (intq_fifo ex_queue 65 1 true H) as (_ & _ & _ & Hp & _).
  apply Hp. done.
Defined.
