(* ===== verification/Serial.v ===== *)
(** Console input and output: the input buffer (devices/input.c), the 16550A serial port
    driver (devices/serial.c) and the keyboard driver (devices/kbd.c). *)
From S2P Require Import Prelude Intq KStdlib.

(** * The UART

    The device as its data sheet describes it: the line control register selects the divisor
    latch on the first two ports; a byte written to the transmitter holding register is sent,
    a byte received waits in [rx].  [thre] gives the answers of the successive polls of the
    line status register to whether the transmitter is ready. *)

Definition IO_BASE : Z := 0x3f8.
Definition RBR_REG : Z := IO_BASE + 0.
Definition THR_REG : Z := IO_BASE + 0.
Definition IER_REG : Z := IO_BASE + 1.
Definition LS_REG : Z := IO_BASE + 0.
Definition MS_REG : Z := IO_BASE + 1.
Definition IIR_REG : Z := IO_BASE + 2.
Definition FCR_REG : Z := IO_BASE + 2.
Definition LCR_REG : Z := IO_BASE + 3.
Definition MCR_REG : Z := IO_BASE + 4.
Definition LSR_REG : Z := IO_BASE + 5.
Definition IER_RECV : Z := 0x01.
Definition IER_XMIT : Z := 0x02.
Definition LCR_N81 : Z := 0x03.
Definition LCR_DLAB : Z := 0x80.
Definition MCR_OUT2 : Z := 0x08.
Definition LSR_DR : Z := 0x01.
Definition LSR_THRE : Z := 0x20.

Record uart := mk_uart {
  ier : Z; lcr : Z; mcr : Z; divisor : Z;
  sent : list Z; rx : list Z; thre : list bool
}.

Definition dlab (u : uart) : bool := negb (Z.land (lcr u) LCR_DLAB =? 0).

Definition outb (u : uart) (port v : Z) : uart :=
  if port =? IO_BASE then
    if dlab u
    then mk_uart (ier u) (lcr u) (mcr u) (divisor u / 256 * 256 + v) (sent u) (rx u) (thre u)
    else mk_uart (ier u) (lcr u) (mcr u) (divisor u) (sent u ++ [v]) (rx u) (thre u)
  else if port =? IO_BASE + 1 then
    if dlab u
    then mk_uart (ier u) (lcr u) (mcr u) (v * 256 + divisor u mod 256) (sent u) (rx u) (thre u)
    else mk_uart v (lcr u) (mcr u) (divisor u) (sent u) (rx u) (thre u)
  else if port =? IO_BASE + 3 then
    mk_uart (ier u) v (mcr u) (divisor u) (sent u) (rx u) (thre u)
  else if port =? IO_BASE + 4 then
    mk_uart (ier u) (lcr u) v (divisor u) (sent u) (rx u) (thre u)
  else u.

(** Reads of the line status and receiver buffer registers (the divisor latch is not selected
    then). *)
Definition inb_LSR (u : uart) : Z * uart :=
  (Z.lor (if decide (rx u = []) then 0 else LSR_DR)
         (match thre u with true :: _ => LSR_THRE | _ => 0 end),
   mk_uart (ier u) (lcr u) (mcr u) (divisor u) (sent u) (rx u) (tl (thre u))).
Definition inb_RBR (u : uart) : Z * uart :=
  (default 0 (hd_error (rx u)),
   mk_uart (ier u) (lcr u) (mcr u) (divisor u) (sent u) (tl (rx u)) (thre u)).

(** * The drivers *)

Inductive serial_mode := UNINIT | POLL | QUEUE.
#[export] Instance serial_mode_eq_dec : EqDecision serial_mode.
Proof. solve_decision. Defined.

(** [buffer] is the input buffer of input.c. *)
Record console := mk_console { mode : serial_mode; txq : intq; buffer : intq; hw : uart }.

Definition set_hw (c : console) (u : uart) : console := mk_console (mode c) (txq c) (buffer c) u.
Definition set_txq (c : console) (q : intq) : console := mk_console (mode c) q (buffer c) (hw c).
Definition set_buffer (c : console) (q : intq) : console := mk_console (mode c) (txq c) q (hw c).

Definition input_init (c : console) : console := set_buffer c (intq_init (buf (buffer c))).
Definition input_full (c : console) : bool := intq_full (buffer c).

(** Every routine below runs with interrupts off; [cur] is the running thread and
    [intr_context] whether an interrupt handler runs. *)
Definition write_ier (c : console) : console :=
  let ier := 0 in
  let ier := if negb (intq_empty (txq c)) then Z.lor ier IER_XMIT else ier in
  let ier := if negb (input_full c) then Z.lor ier IER_RECV else ier in
  set_hw c (outb (hw c) IER_REG ier).

Definition serial_notify (c : console) : console :=
  if decide (mode c = QUEUE) then write_ier c else c.

Definition set_serial (u : uart) (bps : Z) : outcome uart :=
  let base_rate := 1843200 / 16 in
  let? divisor := (if bps =? 0 then UB else Ret (u16 (Z.quot base_rate bps))) in
  assert? (300 <=? bps) && (bps <=? 115200) in
  let u := outb u LCR_REG (Z.lor LCR_N81 LCR_DLAB) in
  let u := outb u LS_REG (Z.land divisor 0xff) in
  let u := outb u MS_REG (Z.shiftr divisor 8) in
  Ret (outb u LCR_REG LCR_N81).

Definition init_poll (c : console) : outcome console :=
  assert? bool_decide (mode c = UNINIT) in
  let u := outb (hw c) IER_REG 0 in
  let u := outb u FCR_REG 0 in
  let? u := set_serial u 9600 in
  let u := outb u MCR_REG MCR_OUT2 in
  Ret (mk_console POLL (intq_init (buf (txq c))) (buffer c) u).

(** Registration of the interrupt handler is in Threads. *)
Definition serial_init_queue (c : console) : outcome console :=
  let? c := (if decide (mode c = UNINIT) then init_poll c else Ret c) in
  assert? bool_decide (mode c = POLL) in
  Ret (write_ier (mk_console QUEUE (txq c) (buffer c) (hw c))).

(** Polls until the device is ready: the fuel is the number of polls the device will answer. *)
Fixpoint putc_poll_loop (fuel : nat) (u : uart) (byte : Z) : outcome uart :=
  match fuel with
  | O => NoFuel
  | S fuel =>
      let '(lsr, u) := inb_LSR u in
      if Z.land lsr LSR_THRE =? 0 then putc_poll_loop fuel u byte
      else Ret (outb u THR_REG byte)
  end.
Definition putc_poll (c : console) (byte : Z) : outcome console :=
  let? u := putc_poll_loop (length (thre (hw c))) (hw c) byte in
  Ret (set_hw c u).

(** A caller that sleeps inside [intq_putc] runs the same path again when it is woken up: the
    mode is still [QUEUE] and interrupts were on. *)
Definition serial_putc (c : console) (byte : Z) (old_level_off : bool) (cur : tid)
    (intr_context : bool) : outcome (console * result unit) :=
  if decide (mode c <> QUEUE) then
    let? c := (if decide (mode c = UNINIT) then init_poll c else Ret c) in
    let? c := putc_poll c byte in
    Ret (c, Done tt None)
  else
    let? c := (if old_level_off && intq_full (txq c) then
                 let? (q, r) := intq_getc (txq c) cur intr_context in
                 match r with
                 | Done b _ => putc_poll (set_txq c q) b
                 | _ => UB
                 end
               else Ret c) in
    let? (q, r) := intq_putc (txq c) byte cur intr_context in
    match r with
    | Done _ woken => Ret (write_ier (set_txq c q), Done tt woken)
    | r => Ret (set_txq c q, r)
    end.

Fixpoint serial_flush_loop (fuel : nat) (c : console) (cur : tid) (intr_context : bool)
    : outcome console :=
  match fuel with
  | O => NoFuel
  | S fuel =>
      if negb (intq_empty (txq c)) then
        let? (q, r) := intq_getc (txq c) cur intr_context in
        match r with
        | Done b _ =>
            let? c := putc_poll (set_txq c q) b in
            serial_flush_loop fuel c cur intr_context
        | _ => UB
        end
      else Ret c
  end.
Definition serial_flush (c : console) (cur : tid) (intr_context : bool) : outcome console :=
  serial_flush_loop 64 c cur intr_context.

(** [Done]: the thread that waited for input, if any. *)
Definition input_putc (c : console) (key : Z) (cur : tid) (intr_context : bool)
    : outcome (console * result unit) :=
  assert? negb (intq_full (buffer c)) in
  let? (q, r) := intq_putc (buffer c) key cur intr_context in
  Ret (serial_notify (set_buffer c q), r).

Definition input_getc (c : console) (cur : tid) : outcome (console * result Z) :=
  let? (q, r) := intq_getc (buffer c) cur false in
  match r with
  | Done key woken => Ret (serial_notify (set_buffer c q), Done key woken)
  | r => Ret (set_buffer c q, r)
  end.

Fixpoint serial_receive_loop (fuel : nat) (c : console) (cur : tid) : outcome console :=
  match fuel with
  | O => NoFuel
  | S fuel =>
      if input_full c then Ret c
      else
        let '(lsr, u) := inb_LSR (hw c) in
        let c := set_hw c u in
        if Z.land lsr LSR_DR =? 0 then Ret c
        else
          let '(b, u) := inb_RBR (hw c) in
          let? (c, _) := input_putc (set_hw c u) b cur true in
          serial_receive_loop fuel c cur
  end.

Fixpoint serial_transmit_loop (fuel : nat) (c : console) (cur : tid) : outcome console :=
  match fuel with
  | O => NoFuel
  | S fuel =>
      if intq_empty (txq c) then Ret c
      else
        let '(lsr, u) := inb_LSR (hw c) in
        let c := set_hw c u in
        if Z.land lsr LSR_THRE =? 0 then Ret c
        else
          let? (q, r) := intq_getc (txq c) cur true in
          match r with
          | Done b _ =>
              let c := set_txq c q in
              serial_transmit_loop fuel (set_hw c (outb (hw c) THR_REG b)) cur
          | _ => UB
          end
  end.

(** The reading of IIR_REG has no effect on the modelled state. *)
Definition serial_interrupt (c : console) (cur : tid) : outcome console :=
  let? c := serial_receive_loop 65 c cur in
  let? c := serial_transmit_loop 65 c cur in
  Ret (write_ier c).

(** ** The keyboard *)

Record kbd_state := mk_kbd {
  left_shift : bool; right_shift : bool; left_alt : bool; right_alt : bool;
  left_ctrl : bool; right_ctrl : bool; caps_lock : bool; key_cnt : Z
}.

(** A keymap: runs of consecutive scancodes with their characters. *)
Definition keymap : Type := list (Z * list Z).

Definition invariant_keymap : keymap :=
  [(0x01, [27]); (0x0e, [8]); (0x0f, 9 :: chars "QWERTYUIOP"); (0x1c, [13]);
   (0x1e, chars "ASDFGHJKL"); (0x2c, chars "ZXCVBNM"); (0x37, chars "*");
   (0x39, chars " "); (0x53, [127])].
Definition unshifted_keymap : keymap :=
  [(0x02, chars "1234567890-="); (0x1a, chars "[]"); (0x27, chars ";'`"); (0x2b, chars "\");
   (0x33, chars ",./")].
(** The characters of the third run are a colon, a double quote and a tilde. *)
Definition shifted_keymap : keymap :=
  [(0x02, chars "!@#$%^&*()_+"); (0x1a, chars "{}"); (0x27, [58; 34; 126]); (0x2b, chars "|");
   (0x33, chars "<>?")].

Fixpoint map_key (k : keymap) (scancode : Z) : option Z :=
  match k with
  | [] => None
  | (first_scancode, cs) :: k =>
      if (first_scancode <=? scancode) && (scancode <? first_scancode + Z.of_nat (length cs))
      then aget cs (scancode - first_scancode)
      else map_key k scancode
  end.

Definition shift_keys : list (Z * (kbd_state -> bool -> kbd_state)) :=
  [(0x2a, fun k b => mk_kbd b (right_shift k) (left_alt k) (right_alt k) (left_ctrl k) (right_ctrl k) (caps_lock k) (key_cnt k));
   (0x36, fun k b => mk_kbd (left_shift k) b (left_alt k) (right_alt k) (left_ctrl k) (right_ctrl k) (caps_lock k) (key_cnt k));
   (0x38, fun k b => mk_kbd (left_shift k) (right_shift k) b (right_alt k) (left_ctrl k) (right_ctrl k) (caps_lock k) (key_cnt k));
   (0xe038, fun k b => mk_kbd (left_shift k) (right_shift k) (left_alt k) b (left_ctrl k) (right_ctrl k) (caps_lock k) (key_cnt k));
   (0x1d, fun k b => mk_kbd (left_shift k) (right_shift k) (left_alt k) (right_alt k) b (right_ctrl k) (caps_lock k) (key_cnt k));
   (0xe01d, fun k b => mk_kbd (left_shift k) (right_shift k) (left_alt k) (right_alt k) (left_ctrl k) b (caps_lock k) (key_cnt k))].

Fixpoint set_shift_key (keys : list (Z * (kbd_state -> bool -> kbd_state))) (k : kbd_state)
    (code : Z) (b : bool) : kbd_state :=
  match keys with
  | [] => k
  | (scancode, set) :: keys => if scancode =? code then set k b else set_shift_key keys k code b
  end.

Inductive kbd_action := Reboot | Continue (k : kbd_state) (c : console).

(** [data] are the bytes read from the data register: a scancode, or 0xe0 and a second byte. *)
Definition keyboard_interrupt (k : kbd_state) (c : console) (data : Z * Z) (cur : tid)
    : outcome kbd_action :=
  let shift := left_shift k || right_shift k in
  let alt := left_alt k || right_alt k in
  let ctrl := left_ctrl k || right_ctrl k in
  let code := fst data in
  let code := if code =? 0xe0 then Z.lor (Z.shiftl code 8) (snd data) else code in
  let release := negb (Z.land code 0x80 =? 0) in
  let code := Z.ldiff code 0x80 in
  if code =? 0x3a then
    Ret (Continue
           (if negb release
            then mk_kbd (left_shift k) (right_shift k) (left_alt k) (right_alt k)
                   (left_ctrl k) (right_ctrl k) (negb (caps_lock k)) (key_cnt k)
            else k) c)
  else
    match
      match map_key invariant_keymap code with
      | Some ch => Some ch
      | None => if negb shift then map_key unshifted_keymap code else map_key shifted_keymap code
      end
    with
    | Some ch =>
        if negb release then
          if (ch =? 127) && ctrl && alt then Ret Reboot
          else
            let ch := if ctrl && (0x40 <=? ch) && (ch <? 0x60) then ch - 0x40
                      else if Bool.eqb shift (caps_lock k) then tolower ch
                      else ch in
            let ch := if alt then u8 (ch + 0x80) else ch in
            if negb (input_full c) then
              let k := mk_kbd (left_shift k) (right_shift k) (left_alt k) (right_alt k)
                         (left_ctrl k) (right_ctrl k) (caps_lock k) (key_cnt k + 1) in
              let? (c, _) := input_putc c ch cur true in
              Ret (Continue k c)
            else Ret (Continue k c)
        else Ret (Continue k c)
    | None => Ret (Continue (set_shift_key shift_keys k code (negb release)) c)
    end.

(** * Specification

    All the bytes given to the port: sent, then still queued.  All the bytes received from it:
    in the input buffer, then still in the device. *)

Definition output (c : console) : list Z := sent (hw c) ++ contents (txq c).
Definition pending_input (c : console) : list Z := contents (buffer c) ++ rx (hw c).

Record queues_ok (c : console) : Prop := {
  qs_txq : intq_ok (txq c);
  qs_buffer : intq_ok (buffer c);
  qs_dlab : dlab (hw c) = false;
  qs_mode : mode c <> QUEUE -> contents (txq c) = []
}.

(** The interrupts that have work to do are enabled: transmission while bytes are queued,
    reception while there is room. *)
Record ier_ok (c : console) : Prop := {
  ie_xmit : contents (txq c) <> [] -> Z.testbit (ier (hw c)) 1 = true;
  ie_recv : length (contents (buffer c)) <> 63%nat -> Z.testbit (ier (hw c)) 0 = true
}.

Definition console_ok (c : console) : Prop := queues_ok c /\ (mode c = QUEUE -> ier_ok c).

(** * Lemmas *)

Lemma outb_THR u b : dlab u = false ->
  outb u THR_REG b = mk_uart (ier u) (lcr u) (mcr u) (divisor u) (sent u ++ [b]) (rx u) (thre u).
Proof. intros H. unfold outb. change (THR_REG =? IO_BASE) with true. cbn. by rewrite H. Qed.

Lemma outb_IER u v : dlab u = false ->
  outb u IER_REG v = mk_uart v (lcr u) (mcr u) (divisor u) (sent u) (rx u) (thre u).
Proof.
  intros H. unfold outb. change (IER_REG =? IO_BASE) with false.
  change (IER_REG =? IO_BASE + 1) with true. cbn. by rewrite H.
Qed.

(** [write_ier] enables exactly the interrupts with work to do and changes nothing else. *)
Lemma write_ier_ok c : queues_ok c ->
  queues_ok (write_ier c) /\ ier_ok (write_ier c) /\ output (write_ier c) = output c /\
  pending_input (write_ier c) = pending_input c /\ mode (write_ier c) = mode c /\
  txq (write_ier c) = txq c /\ buffer (write_ier c) = buffer c /\
  rx (hw (write_ier c)) = rx (hw c) /\ thre (hw (write_ier c)) = thre (hw c).
Proof.
  intros [Ht Hb Hd Hm]. unfold write_ier, input_full.
  rewrite (intq_empty_spec (txq c) Ht), (intq_full_spec (buffer c) Hb), outb_IER by done.
  split; [constructor; cbn; done|]. split; [|split_and!; reflexivity].
  constructor; cbn [hw set_hw ier buffer txq].
  - intros Hne. rewrite (bool_decide_false (contents (txq c) = [])) by done.
    by destruct (bool_decide _).
  - intros Hne. rewrite (bool_decide_false (length _ = _)) by done.
    by destruct (bool_decide _).
Qed.

Lemma serial_notify_ok c : queues_ok c ->
  queues_ok (serial_notify c) /\ (mode c = QUEUE -> ier_ok (serial_notify c)) /\
  output (serial_notify c) = output c /\ pending_input (serial_notify c) = pending_input c /\
  mode (serial_notify c) = mode c /\ txq (serial_notify c) = txq c /\
  buffer (serial_notify c) = buffer c /\
  rx (hw (serial_notify c)) = rx (hw c) /\ thre (hw (serial_notify c)) = thre (hw c).
Proof.
  intros H. unfold serial_notify. destruct (decide (mode c = QUEUE)) as [E|E].
  - destruct (write_ier_ok c H) as (H1 & H2 & H3). exact (conj H1 (conj (fun _ => H2) H3)).
  - split; [done|]. split; [done|]. done.
Qed.

Lemma putc_poll_loop_ok fuel : forall u b u', dlab u = false ->
  putc_poll_loop fuel u b = Ret u' ->
  sent u' = sent u ++ [b] /\ rx u' = rx u /\ ier u' = ier u /\ dlab u' = false.
Proof.
  induction fuel as [|fuel IH]; intros u b u' Hd H; cbn [putc_poll_loop] in H; [done|].
  destruct (inb_LSR u) as [lsr u1] eqn:E. unfold inb_LSR in E. injection E as <- <-.
  destruct (_ =? 0).
  - apply IH in H; [|exact Hd]. exact H.
  - injection H as <-. rewrite outb_THR by done. done.
Qed.

Lemma putc_poll_ok c b c' : dlab (hw c) = false -> putc_poll c b = Ret c' ->
  sent (hw c') = sent (hw c) ++ [b] /\ rx (hw c') = rx (hw c) /\ ier (hw c') = ier (hw c) /\
  dlab (hw c') = false /\ txq c' = txq c /\ buffer c' = buffer c /\ mode c' = mode c.
Proof.
  intros Hd H. unfold putc_poll in H. apply obind_Ret in H as (u & Hu & [= <-]).
  destruct (putc_poll_loop_ok _ _ _ _ Hd Hu) as (? & ? & ? & ?). done.
Qed.

(** Polling ends as soon as the device answers that it is ready. *)
Lemma putc_poll_loop_total b n : forall u, (length (thre u) <= n)%nat -> true ∈ thre u ->
  exists u', putc_poll_loop n u b = Ret u'.
Proof.
  induction n as [|n IH]; intros u Hn Hin.
  { destruct (thre u); [by apply not_elem_of_nil in Hin|simpl in Hn; lia]. }
  cbn [putc_poll_loop]. destruct (inb_LSR u) as [lsr u1] eqn:E. unfold inb_LSR in E.
  injection E as <- <-. destruct (thre u) as [|[] t] eqn:Et; [by apply not_elem_of_nil in Hin| |].
  - replace (Z.land _ LSR_THRE =? 0) with false by (by destruct (decide _)). eauto.
  - replace (Z.land _ LSR_THRE =? 0) with true by (by destruct (decide _)).
    apply IH; cbn; [simpl in Hn; lia|]. by apply elem_of_cons in Hin as [?|?].
Qed.

Lemma init_poll_ok c : queues_ok c -> mode c = UNINIT ->
  exists c', init_poll c = Ret c' /\ queues_ok c' /\ mode c' = POLL /\
    sent (hw c') = sent (hw c) /\ contents (txq c') = [] /\ buffer c' = buffer c /\
    rx (hw c') = rx (hw c) /\ thre (hw c') = thre (hw c) /\ divisor (hw c') = 12 /\ ier (hw c') = 0.
Proof.
  intros [Ht Hb Hd Hm] E. unfold init_poll. rewrite bool_decide_true by done.
  rewrite outb_IER by done. destruct (hw c) as [i l m d se r t]. cbn in *.
  eexists. split; [reflexivity|]. split.
  { constructor; [|done|done|done]. constructor; cbn; [by apply (iq_len _ Ht)|lia|lia|done|done]. }
  do 6 (split; [done|]). split; [|done].
  change ((Z.shiftr 12 8) * 256 + (d / 256 * 256 + Z.land 12 255) mod 256 = 12).
  change (Z.shiftr 12 8) with 0. change (Z.land 12 255) with 12.
  rewrite Z.add_comm, Z.add_0_r, Z.add_comm, Z.mod_add by lia. done.
Qed.

(** Taking the oldest byte of the transmit queue and sending it by polling. *)
Lemma poll_oldest c cur ctx b rest q r c' :
  queues_ok c -> contents (txq c) = b :: rest ->
  intq_getc (txq c) cur ctx = Ret (q, r) ->
  (exists w, r = Done b w) /\
  (putc_poll (set_txq c q) b = Ret c' ->
   queues_ok c' /\ output c' = output c /\ contents (txq c') = rest /\ mode c' = mode c /\
   buffer c' = buffer c /\ rx (hw c') = rx (hw c) /\ ier (hw c') = ier (hw c)).
Proof.
  intros [Ht Hb Hd Hm] Hc Hg.
  destruct (intq_getc_Done (txq c) cur ctx Ht b rest Hc) as (q' & Hg' & Hq' & Hcq & _).
  rewrite Hg in Hg'. injection Hg' as -> ->. split; [eauto|]. intros Hp.
  destruct (putc_poll_ok (set_txq c q') b c' Hd Hp) as (H1 & H2 & H3 & H4 & H5 & H6 & H7).
  cbn in *. split.
  { constructor; [by rewrite H5|by rewrite H6|done|]. rewrite H7. intros E. by rewrite Hm in Hc. }
  unfold output. rewrite H1, H5. cbn. rewrite Hcq, Hc, <- app_assoc. split_and!; done.
Qed.

Lemma serial_putc_ok c byte off cur ctx c' r :
  console_ok c -> serial_putc c byte off cur ctx = Ret (c', r) ->
  console_ok c' /\ pending_input c' = pending_input c /\ mode c' <> UNINIT /\
  output c' = output c ++ (match r with Done _ _ => [byte] | _ => [] end).
Proof.
  intros [Hq Hi] H. unfold serial_putc in H. destruct (decide (mode c <> QUEUE)) as [Em|Em].
  - apply obind_Ret in H as (c1 & H1 & H). apply obind_Ret in H as (c2 & H2 & [= <- <-]).
    assert (Hc1 : queues_ok c1 /\ mode c1 = POLL /\ sent (hw c1) = sent (hw c) /\
              contents (txq c1) = [] /\ buffer c1 = buffer c /\ rx (hw c1) = rx (hw c)).
    { destruct (decide (mode c = UNINIT)) as [E|E].
      - destruct (init_poll_ok c Hq E) as (c1' & Hc1 & ? & ? & ? & ? & ? & ? & _).
        rewrite H1 in Hc1. injection Hc1 as ->. done.
      - injection H1 as <-. split_and!; try done; [by destruct (mode c)|by apply (qs_mode c Hq)]. }
    destruct Hc1 as (Hq1 & Hm1 & Hs1 & Ht1 & Hb1 & Hr1).
    destruct (putc_poll_ok c1 byte c2 (qs_dlab c1 Hq1) H2) as (P1 & P2 & P3 & P4 & P5 & P6 & P7).
    split; [split|].
    + constructor; [rewrite P5; apply Hq1|rewrite P6; apply Hq1|done|by rewrite P5].
    + rewrite P7, Hm1. done.
    + unfold pending_input, output. rewrite P1, P2, P5, P6, P7, Hs1, Hr1, Hb1, Hm1, Ht1.
      rewrite (qs_mode c Hq Em), !app_nil_r. done.
  - apply dec_stable in Em. apply obind_Ret in H as (c1 & H1 & H).
    assert (Hc1 : queues_ok c1 /\ mode c1 = QUEUE /\ output c1 = output c /\ buffer c1 = buffer c /\
              rx (hw c1) = rx (hw c) /\ (c1 = c \/ length (contents (txq c1)) <> 63%nat)).
    { destruct (off && intq_full (txq c)) eqn:E; [|injection H1 as <-; split_and!; auto].
      rewrite (intq_full_spec (txq c) (qs_txq c Hq)) in E. apply andb_true_iff in E as [_ E].
      apply bool_decide_eq_true in E. destruct (contents (txq c)) as [|b rest] eqn:Ec; [done|].
      apply obind_Ret in H1 as ([q r1] & Hg & H1).
      destruct (poll_oldest c cur ctx b rest q r1 c1 Hq Ec Hg) as [[w ->] Hp].
      destruct (Hp H1) as (? & ? & Hct & ? & ? & ? & _).
      split_and!; try done; [congruence|right; rewrite Hct; simpl in E; lia]. }
    clear H1. destruct Hc1 as (Hq1 & Hm1 & Ho1 & Hb1 & Hr1 & Hor).
    apply obind_Ret in H as ([q r1] & Hp & H).
    destruct (decide (length (contents (txq c1)) = 63%nat)) as [Hfull|Hroom].
    + pose proof (intq_putc_full (txq c1) cur ctx (qs_txq c1 Hq1) byte Hfull) as Hpf.
      destruct ctx; [congruence|]. destruct Hpf as (q' & r' & Hp' & Hq' & Hcq & Hl).
      rewrite Hp in Hp'. injection Hp' as -> ->. destruct Hor as [->|?]; [|done].
      assert (Hr' : forall x w, r' <> Done x w) by (intros x w ->; destruct (lock _); by destruct Hl).
      destruct r' as [x w| |]; [by destruct (Hr' x w)| |]; injection H as <- <-;
        rewrite app_nil_r; unfold output, pending_input; cbn; rewrite Hcq.
      all: split; [|split; [done|split; [congruence|done]]].
      all: split; [constructor; cbn; [done|apply Hq|apply Hq|by rewrite Hcq; apply Hq]|].
      all: intros _; destruct (Hi Em) as [Hx Hy]; constructor; cbn; [by rewrite Hcq|done].
    + destruct (intq_putc_Done (txq c1) cur ctx (qs_txq c1 Hq1) byte Hroom) as (q' & Hp' & Hq' & Hcq & _).
      rewrite Hp in Hp'. injection Hp' as -> ->. injection H as <- <-.
      assert (Hq2 : queues_ok (set_txq c1 q')).
      { constructor; cbn; [done|apply Hq1|apply Hq1|by rewrite Hm1]. }
      destruct (write_ier_ok _ Hq2) as (W1 & W2 & W3 & W4 & W5 & _).
      split; [by split|]. rewrite W3, W4, W5. unfold output, pending_input in *. cbn.
      rewrite Hcq, Hb1, Hr1, Hm1, app_assoc, Ho1. done.
Qed.

Lemma serial_flush_loop_ok cur ctx n : forall c c',
  queues_ok c -> serial_flush_loop n c cur ctx = Ret c' ->
  queues_ok c' /\ output c' = output c /\ contents (txq c') = [] /\ mode c' = mode c /\
  buffer c' = buffer c /\ rx (hw c') = rx (hw c) /\ ier (hw c') = ier (hw c).
Proof.
  induction n as [|n IH]; intros c c' Hq H; [done|]. cbn [serial_flush_loop] in H.
  rewrite (intq_empty_spec (txq c) (qs_txq c Hq)) in H.
  destruct (contents (txq c)) as [|b rest] eqn:Ec.
  - cbn in H. injection H as <-. done.
  - rewrite bool_decide_false in H by done. cbn [negb] in H.
    apply obind_Ret in H as ([q r] & Hg & H).
    destruct (poll_oldest c cur ctx b rest q r c Hq Ec Hg) as [[w ->] _].
    apply obind_Ret in H as (c1 & Hp & H).
    destruct (poll_oldest c cur ctx b rest q (Done b w) c1 Hq Ec Hg) as [_ Hp'].
    destruct (Hp' Hp) as (Hq1 & Ho1 & _ & Hm1 & Hb1 & Hr1 & Hi1).
    destruct (IH c1 c' Hq1 H) as (? & Ho & ? & Hm & Hb & Hr & Hi). split_and!; congruence.
Qed.

Lemma input_putc_ok c key cur ctx : queues_ok c -> length (contents (buffer c)) <> 63%nat ->
  exists c' w, input_putc c key cur ctx = Ret (c', Done tt w) /\ queues_ok c' /\
    (mode c = QUEUE -> ier_ok c') /\ output c' = output c /\
    contents (buffer c') = contents (buffer c) ++ [key] /\ mode c' = mode c /\
    txq c' = txq c /\ rx (hw c') = rx (hw c) /\ thre (hw c') = thre (hw c).
Proof.
  intros Hq Hroom. unfold input_putc.
  rewrite (intq_full_spec _ (qs_buffer c Hq)), bool_decide_false by done. cbn [negb].
  destruct (intq_putc_Done (buffer c) cur ctx (qs_buffer c Hq) key Hroom) as (q & -> & Hok & Hc & _).
  cbn [obind].
  assert (Hq1 : queues_ok (set_buffer c q)) by (constructor; cbn; [apply Hq|done|apply Hq|apply Hq]).
  destruct (serial_notify_ok _ Hq1) as (H1 & H2 & H3 & H4 & H5 & H6 & H7 & H8 & H9).
  eexists _, _. split; [done|]. split; [done|]. split; [done|]. rewrite H3, H5, H6, H7, H8, H9. done.
Qed.

Lemma serial_receive_loop_ok cur n : forall c,
  queues_ok c -> (63 - length (contents (buffer c)) < n)%nat ->
  exists c', serial_receive_loop n c cur = Ret c' /\ queues_ok c' /\ output c' = output c /\
    pending_input c' = pending_input c /\ mode c' = mode c /\ txq c' = txq c /\
    (length (contents (buffer c')) = 63%nat \/ rx (hw c') = []).
Proof.
  induction n as [|n IH]; intros c Hq Hn; [lia|]. cbn [serial_receive_loop]. unfold input_full.
  rewrite (intq_full_spec _ (qs_buffer c Hq)).
  destruct (decide (length (contents (buffer c)) = 63%nat)) as [Hfull|Hroom].
  { rewrite bool_decide_true by done. exists c. split_and!; auto. }
  rewrite bool_decide_false by done. destruct (inb_LSR (hw c)) as [lsr u] eqn:El.
  unfold inb_LSR in El. injection El as El Eu.
  assert (Hdr : (Z.land lsr LSR_DR =? 0) = bool_decide (rx (hw c) = [])).
  { rewrite <- El. destruct (decide (rx (hw c) = [])) as [->|E]; destruct (thre (hw c)) as [|[]];
      rewrite ?bool_decide_false by done; done. }
  assert (Hq1 : queues_ok (set_hw c u)) by (subst u; constructor; apply Hq).
  rewrite Hdr. destruct (rx (hw c)) as [|b rs] eqn:Erx.
  { cbn. eexists. split; [done|]. subst u. unfold output, pending_input. cbn. rewrite Erx.
    split_and!; auto. }
  rewrite bool_decide_false by done. cbn zeta. unfold inb_RBR. subst u. cbn [hw set_hw rx]. rewrite ?Erx.
  cbn [hd_error from_option id list.tail fst snd].
  match goal with |- context [input_putc ?c0 b cur true] => set (c1 := c0) end.
  assert (Hq2 : queues_ok c1) by (constructor; apply Hq).
  destruct (input_putc_ok c1 b cur true Hq2 Hroom) as (c2 & w & -> & Hq3 & _ & Ho & Hc & Hm & Ht & Hr & _).
  cbn [obind]. destruct (IH c2 Hq3) as (c' & -> & Hq' & Ho' & Hp' & Hm' & Ht' & Hend).
  { rewrite Hc. rewrite length_app. cbn [length]. cbn in *.
    pose proof (intq_facts (buffer c) (qs_buffer c Hq)). lia. }
  exists c'. split; [done|]. split; [done|]. split; [by rewrite Ho', Ho|]. split.
  { rewrite Hp'. unfold pending_input. rewrite Hc, Hr. cbn. by rewrite Erx, <- app_assoc. }
  split; [by rewrite Hm', Hm|]. split; [by rewrite Ht', Ht|done].
Qed.

Lemma serial_transmit_loop_ok cur n : forall c,
  queues_ok c -> (length (contents (txq c)) < n)%nat ->
  exists c', serial_transmit_loop n c cur = Ret c' /\ queues_ok c' /\ output c' = output c /\
    mode c' = mode c /\ buffer c' = buffer c /\ rx (hw c') = rx (hw c).
Proof.
  induction n as [|n IH]; intros c Hq Hn; [lia|]. cbn [serial_transmit_loop].
  rewrite (intq_empty_spec _ (qs_txq c Hq)). destruct (contents (txq c)) as [|b rest] eqn:Ec.
  { cbn. exists c. done. }
  rewrite bool_decide_false by done. destruct (inb_LSR (hw c)) as [lsr u] eqn:El.
  unfold inb_LSR in El. injection El as El Eu.
  assert (Hq1 : queues_ok (set_hw c u)) by (subst u; constructor; apply Hq).
  assert (Hu : sent u = sent (hw c) /\ rx u = rx (hw c)) by by subst u. clear Eu.
  cbn zeta. destruct (Z.land lsr LSR_THRE =? 0).
  { eexists. split; [done|]. unfold output. cbn. destruct Hu as [-> ->]. done. }
  destruct (intq_getc_Done (txq c) cur true (qs_txq c Hq) b rest Ec) as (q & Hg & Hok & Hc & _).
  cbn [txq set_hw]. rewrite Hg. cbn [obind].
  match goal with |- context [serial_transmit_loop n ?c0 cur] => set (c1 := c0) end.
  assert (Hq2 : queues_ok c1).
  { unfold c1. cbn. rewrite outb_THR by apply Hq1. constructor; [done|apply Hq|apply Hq1|].
    cbn. intros E. by rewrite (qs_mode c Hq E) in Ec. }
  destruct (IH c1 Hq2) as (c' & -> & Hq' & Ho & Hm & Hb & Hr).
  { unfold c1. cbn. rewrite Hc. simpl in Hn. lia. }
  exists c'. split; [done|]. split; [done|]. rewrite Ho, Hm, Hb, Hr. unfold output, c1. cbn.
  rewrite outb_THR by apply Hq1. cbn. destruct Hu as [-> ->]. rewrite Hc, <- app_assoc, Ec. done.
Qed.

(** The serial driver loses, duplicates and reorders nothing: whatever the mode, the bytes
    sent followed by those still queued are those given to [serial_putc] in order, across
    interrupts and flushes, and the bytes received reach the input buffer in order until it is
    full or the device is drained.  Every step keeps the queues valid and the transmit
    (receive) interrupt enabled whenever there are bytes to send (room to receive). *)
Theorem serial_streams (c : console) (byte : Z) (off ctx : bool) (cur : tid) :
  console_ok c ->
  (forall c' r, serial_putc c byte off cur ctx = Ret (c', r) ->
     console_ok c' /\ pending_input c' = pending_input c /\
     output c' = output c ++ (match r with Done _ _ => [byte] | _ => [] end)) /\
  (forall c', serial_flush c cur ctx = Ret c' ->
     console_ok c' /\ pending_input c' = pending_input c /\
     output c' = output c /\ contents (txq c') = []) /\
  (mode c = QUEUE ->
     exists c', serial_interrupt c cur = Ret c' /\ console_ok c' /\ output c' = output c /\
       pending_input c' = pending_input c /\
       (length (contents (buffer c')) = 63%nat \/ rx (hw c') = [])) /\
  (mode c <> QUEUE ->
     exists c', serial_init_queue c = Ret c' /\ console_ok c' /\ mode c' = QUEUE /\
       output c' = output c /\ pending_input c' = pending_input c).
Proof.
  intros Hok. pose proof Hok as [Hq Hi]. split_and!.
  - intros c' r H. destruct (serial_putc_ok c byte off cur ctx c' r Hok H) as (? & ? & _ & ?). done.
  - intros c' H. destruct (serial_flush_loop_ok cur ctx 64 c c' Hq H)
      as (H1 & H2 & H3 & H4 & H5 & H6 & H7).
    split; [|unfold pending_input; by rewrite H5, H6]. split; [done|]. rewrite H4. intros E.
    destruct (Hi E) as [_ Hr]. constructor; [by rewrite H3|by rewrite H5, H7].
  - intros Hm. unfold serial_interrupt.
    pose proof (intq_facts (buffer c) (qs_buffer c Hq)).
    destruct (serial_receive_loop_ok cur 65 c Hq)
      as (c1 & -> & Hq1 & Ho1 & Hp1 & Hm1 & Ht1 & Hend); [lia|]. cbn [obind].
    pose proof (intq_facts (txq c1) (qs_txq c1 Hq1)).
    destruct (serial_transmit_loop_ok cur 65 c1 Hq1) as (c2 & -> & Hq2 & Ho2 & Hm2 & Hb2 & Hr2); [lia|].
    cbn [obind]. destruct (write_ier_ok c2 Hq2) as (W1 & W2 & W3 & W4 & W5 & W6 & W7 & W8 & _).
    eexists. split; [done|]. split; [by split|]. split; [congruence|].
    split; [rewrite W4, <- Hp1; unfold pending_input; by rewrite Hb2, Hr2|].
    by rewrite W7, W8, Hb2, Hr2.
  - intros Hm. unfold serial_init_queue.
    assert (Hc1 : exists c1, (if decide (mode c = UNINIT) then init_poll c else Ret c) = Ret c1 /\
              queues_ok c1 /\ mode c1 = POLL /\ output c1 = output c /\ pending_input c1 = pending_input c).
    { destruct (decide (mode c = UNINIT)) as [E|E].
      - destruct (init_poll_ok c Hq E) as (c1 & -> & ? & ? & Hs & Ht & Hb & Hr & _).
        exists c1. unfold output, pending_input. by rewrite Hs, Ht, Hb, Hr, (qs_mode c Hq Hm).
      - exists c. split; [done|]. split; [done|]. split; [by destruct (mode c)|done]. }
    destruct Hc1 as (c1 & -> & Hq1 & Hm1 & Ho1 & Hp1). cbn [obind].
    rewrite bool_decide_true by done.
    assert (Hq2 : queues_ok (mk_console QUEUE (txq c1) (buffer c1) (hw c1))).
    { constructor; [apply Hq1|apply Hq1|apply Hq1|done]. }
    destruct (write_ier_ok _ Hq2) as (W1 & W2 & W3 & W4 & W5 & _).
    eexists. split; [done|]. split; [by split|]. split; [by rewrite W5|].
    split; [by rewrite W3, <- Ho1|by rewrite W4, <- Hp1].
Qed.

(** At power-on: static storage is zero, the line control register does not select the latch. *)
Definition ex_console : console :=
  mk_console UNINIT (intq_init (replicate 64 0)) (intq_init (replicate 64 0))
    (mk_uart 0 0 0 0 [] [65; 66] [false; true]).

Lemma ex_console_ok : console_ok ex_console.
Proof.
  assert (H : intq_ok (intq_init (replicate 64 0))) by (constructor; cbn; [done|lia|lia|done|done]).
  split; [constructor; [exact H|exact H|done|done]|done].
Qed.

Lemma serial_streams_witness :
  console_ok ex_console /\
  exists c', serial_init_queue ex_console = Ret c' /\ console_ok c' /\ mode c' = QUEUE /\
    output c' = output ex_console /\ pending_input c' = pending_input ex_console.
Proof.
  split; [exact ex_console_ok|].
  destruct (serial_streams ex_console 66 true true 1 ex_console_ok) as (_ & _ & _ & H).
  apply H. discriminate.
Defined.

Example serial_ex :
  (let? (c, _) := serial_putc ex_console 72 true 1 false in Ret (sent (hw c), mode c, divisor (hw c)))
  = Ret ([72], POLL, 12).
Proof. reflexivity. Qed.

(** ** Keyboard *)

(** The scancodes of the letter keys, in the order of the keyboard's rows. *)
Definition letter_keys : list (Z * Z) :=
  combine (seqZ 0x10 10) (chars "QWERTYUIOP") ++ combine (seqZ 0x1e 9) (chars "ASDFGHJKL") ++
  combine (seqZ 0x2c 7) (chars "ZXCVBNM").

(** The character a letter key stands for under the modifiers. *)
Definition letter_char (k : kbd_state) (letter : Z) : Z :=
  let base :=
    if left_ctrl k || right_ctrl k then letter - 64
    else if xorb (left_shift k || right_shift k) (caps_lock k) then letter else letter + 32 in
  if left_alt k || right_alt k then base + 128 else base.

Lemma letter_keys_table : Forall (fun '(code, letter) =>
    65 <= letter <= 90 /\ code <> 0x3a /\ code <> 0xe0 /\ code + 128 <> 0xe0 /\
    Z.land code 0x80 = 0 /\ Z.ldiff code 0x80 = code /\
    Z.land (code + 128) 0x80 = 0x80 /\ Z.ldiff (code + 128) 0x80 = code /\
    map_key invariant_keymap code = Some letter) letter_keys.
Proof. by_compute. Qed.

(** Pressing a letter key appends one character to the input buffer when it has room: upper
    case exactly when one of Shift and Caps Lock is in effect, the control character under
    Ctrl, with the high bit set under Alt.  Releasing it does nothing; Caps Lock toggles on
    each press; Ctrl+Alt+Delete reboots; and a modifier key sets its own flag while held. *)
Theorem keyboard_correct (k : kbd_state) (c : console) (cur d : Z) :
  queues_ok c ->
  (forall code letter, (code, letter) ∈ letter_keys ->
     length (contents (buffer c)) <> 63%nat ->
     exists k' c', keyboard_interrupt k c (code, d) cur = Ret (Continue k' c') /\
       contents (buffer c') = contents (buffer c) ++ [letter_char k letter] /\
       k' = mk_kbd (left_shift k) (right_shift k) (left_alt k) (right_alt k)
              (left_ctrl k) (right_ctrl k) (caps_lock k) (key_cnt k + 1)) /\
  (forall code letter, (code, letter) ∈ letter_keys ->
     keyboard_interrupt k c (code + 128, d) cur = Ret (Continue k c)) /\
  (exists k', keyboard_interrupt k c (0x3a, d) cur = Ret (Continue k' c) /\
     caps_lock k' = negb (caps_lock k) /\
     keyboard_interrupt k' c (0xba, d) cur = Ret (Continue k' c)) /\
  ((left_ctrl k || right_ctrl k) && (left_alt k || right_alt k) = true ->
     keyboard_interrupt k c (0x53, d) cur = Ret Reboot) /\
  keyboard_interrupt k c (0x2a, d) cur =
    Ret (Continue (mk_kbd true (right_shift k) (left_alt k) (right_alt k) (left_ctrl k)
                     (right_ctrl k) (caps_lock k) (key_cnt k)) c) /\
  keyboard_interrupt k c (0xe0, 0x9d) cur =
    Ret (Continue (mk_kbd (left_shift k) (right_shift k) (left_alt k) (right_alt k) (left_ctrl k)
                     false (caps_lock k) (key_cnt k)) c).
Proof.
  intros Hq. pose proof letter_keys_table as Htab. rewrite Forall_forall in Htab. split_and!.
  - intros code letter Hin Hroom. destruct (Htab _ Hin) as (Hl & Hcaps & He0 & _ & Hland & Hdiff & _ & _ & Hmap).
    unfold keyboard_interrupt. cbn [fst snd]. replace (code =? 224) with false by lia.
    rewrite Hland, Hdiff. cbn [Z.eqb negb]. replace (code =? 58) with false by lia.
    rewrite Hmap. replace (letter =? 127) with false by lia. cbn [andb].
    unfold input_full. rewrite (intq_full_spec _ (qs_buffer c Hq)), bool_decide_false by done.
    cbn [negb].
    match goal with |- context [input_putc c ?ch cur true] => assert (Hch : ch = letter_char k letter) end.
    { unfold letter_char, tolower, isupper.
      replace (64 <=? letter) with true by lia. replace (letter <? 96) with true by lia.
      replace ((65 <=? letter) && (letter <=? 90)) with true by lia.
      destruct (left_ctrl k || right_ctrl k) eqn:Ectrl; cbn [andb].
      - destruct (left_alt k || right_alt k); [apply u8_small|]; lia.
      - destruct (left_shift k || right_shift k), (caps_lock k); cbn [Bool.eqb xorb];
          (destruct (left_alt k || right_alt k); [rewrite u8_small by lia|]; lia). }
    rewrite Hch.
    destruct (input_putc_ok c (letter_char k letter) cur true Hq Hroom)
      as (c' & w & -> & _ & _ & _ & Hcont & _). cbn [obind]. eauto.
  - intros code letter Hin.
    destruct (Htab _ Hin) as (Hl & Hcaps & _ & He0 & _ & _ & Hland & Hdiff & Hmap).
    unfold keyboard_interrupt. cbn [fst snd]. replace (code + 128 =? 224) with false by lia.
    rewrite Hland, Hdiff. replace (code =? 58) with false by lia. by rewrite Hmap.
  - eexists. split; [done|]. done.
  - intros H. apply andb_true_iff in H as [H1 H2]. unfold keyboard_interrupt. cbn [fst snd].
    cbn -[left_ctrl]. rewrite H1, H2. done.
  - unfold keyboard_interrupt. cbn [fst snd]. by destruct (left_shift k || right_shift k).
  - unfold keyboard_interrupt. cbn [fst snd]. by destruct (left_shift k || right_shift k).
Qed.

Lemma keyboard_correct_witness :
  queues_ok ex_console /\
  exists k' c', keyboard_interrupt (mk_kbd true false false false false false false 0) ex_console
      (0x10, 0) 1 = Ret (Continue k' c') /\
    contents (buffer c') = contents (buffer ex_console) ++ [81] /\
    k' = mk_kbd true false false false false false false 1.
Proof.
  pose proof (proj1 ex_console_ok) as Hq. split; [exact Hq|].
  destruct (keyboard_correct (mk_kbd true false false false false false false 0) ex_console 1 0 Hq)
    as (H & _).
  apply (H 0x10 81); [|discriminate]. apply (list_elem_of_lookup_2 _ O). reflexivity.
Defined.
