(* ===== verification/Stdio.v ===== *)
(** Formatted output (lib/stdio.c): [__vprintf] with its conversion parser and integer and
    string formatting, and [vsnprintf].  The [output] callback is represented by the list of
    characters passed to it, in order. *)
From S2P Require Import Prelude Palloc KString KStdlib.

(** * Definitions *)

Definition MINUS : Z := Z.shiftl 1 0.
Definition PLUS : Z := Z.shiftl 1 1.
Definition SPACE : Z := Z.shiftl 1 2.
Definition POUND : Z := Z.shiftl 1 3.
Definition ZERO : Z := Z.shiftl 1 4.
Definition GROUP : Z := Z.shiftl 1 5.

Inductive conv_type := CHAR | SHORT | INT | INTMAX | LONG | LONGLONG | PTRDIFFT | SIZET.

Record printf_conversion := mk_conv { flags : Z; width : Z; precision : Z; ctype : conv_type }.

Record integer_base := mk_base { base : Z; digits : list Z; x : Z; group : Z }.
Definition base_d : integer_base := mk_base 10 (chars "0123456789") 0 3.
Definition base_o : integer_base := mk_base 8 (chars "01234567") 0 3.
Definition base_x : integer_base := mk_base 16 (chars "0123456789abcdef") 120 4.
Definition base_X : integer_base := mk_base 16 (chars "0123456789ABCDEF") 88 4.

Definition output_dup (ch cnt : Z) : list Z := replicate (Z.to_nat cnt) ch.

(** The digit buffer has 64 bytes; a store past its end is undefined behaviour. *)
Definition BUF_SIZE : nat := 64.
Definition push (buf : list Z) (ch : Z) : outcome (list Z) :=
  if decide (length buf < BUF_SIZE)%nat then Ret (buf ++ [ch]) else UB.

(** The digits in reverse order; a 64-bit value has at most 22 octal digits. *)
Fixpoint digits_loop (fuel : nat) (b : integer_base) (grouping : bool) (value digit_cnt : Z)
    (buf : list Z) : outcome (list Z) :=
  match fuel with
  | O => NoFuel
  | S fuel =>
      if 0 <? value then
        let? buf := (if grouping && (0 <? digit_cnt) && (digit_cnt mod group b =? 0)
                     then push buf 44 else Ret buf) in
        let? d := aread (digits b) (value mod base b) in
        let? buf := push buf d in
        digits_loop fuel b grouping (value / base b) (digit_cnt + 1) buf
      else Ret buf
  end.

Fixpoint zeros_loop (fuel : nat) (precision : Z) (buf : list Z) : outcome (list Z) :=
  match fuel with
  | O => NoFuel
  | S fuel =>
      if (Z.of_nat (length buf) <? precision) && (Z.of_nat (length buf) <? Z.of_nat BUF_SIZE - 1)
      then let? buf := push buf 48 in zeros_loop fuel precision buf
      else Ret buf
  end.

Definition format_integer (value : Z) (is_signed negative : bool) (b : integer_base)
    (c : printf_conversion) : outcome (list Z) :=
  let sign :=
    if is_signed then
      if has_flag (flags c) PLUS then (if negative then 45 else 43)
      else if has_flag (flags c) SPACE then (if negative then 45 else 32)
      else if negative then 45 else 0
    else 0 in
  let x := if has_flag (flags c) POUND && negb (value =? 0) then x b else 0 in
  let? buf := digits_loop 23 b (has_flag (flags c) GROUP) value 0 [] in
  let precision := if precision c <? 0 then 1 else precision c in
  let? buf := zeros_loop (S BUF_SIZE) precision buf in
  let? buf := (if has_flag (flags c) POUND && (base b =? 8) &&
                  match last buf with None => true | Some d => negb (d =? 48) end
               then push buf 48 else Ret buf) in
  let pad_cnt := width c - Z.of_nat (length buf) - (if negb (x =? 0) then 2 else 0)
                 - (if negb (sign =? 0) then 1 else 0) in
  let pad_cnt := if pad_cnt <? 0 then 0 else pad_cnt in
  Ret ((if Z.land (flags c) (Z.lor MINUS ZERO) =? 0 then output_dup 32 pad_cnt else []) ++
       (if negb (sign =? 0) then [sign] else []) ++
       (if negb (x =? 0) then [48; x] else []) ++
       (if has_flag (flags c) ZERO then output_dup 48 pad_cnt else []) ++
       rev buf ++
       (if has_flag (flags c) MINUS then output_dup 32 pad_cnt else [])).

Definition format_string (string : list Z) (c : printf_conversion) : list Z :=
  let length := Z.of_nat (length string) in
  (if (length <? width c) && negb (has_flag (flags c) MINUS)
   then output_dup 32 (width c - length) else []) ++
  string ++
  (if (length <? width c) && has_flag (flags c) MINUS
   then output_dup 32 (width c - length) else []).

Section Printf.
(** Floating-point arguments: truncation to an integer, the comparison with zero, and the
    integer part of [(d - first) * 10^p]. *)
Variable double : Type.
Variable double_to_int : double -> Z.
Variable double_is_negative : double -> bool.
Variable double_rest : double -> Z -> Z.

(** The variable arguments: words of 32 or 64 bits, strings (or a null pointer), doubles. *)
Inductive arg : Type :=
  | Arg32 (z : Z)
  | Arg64 (z : Z)
  | ArgStr (s : option (list Z))
  | ArgDouble (d : double).

Definition va_arg32 (args : list arg) : outcome (Z * list arg) :=
  match args with Arg32 z :: args => Ret (z, args) | _ => UB end.
Definition va_arg64 (args : list arg) : outcome (Z * list arg) :=
  match args with Arg64 z :: args => Ret (z, args) | _ => UB end.

(** The format is the list of its characters; [head_char] reads [*format], the null byte at the end
    included, and advancing past the null byte is undefined behaviour. *)
Definition head_char (format : list Z) : Z := default 0 (hd_error format).
Definition advance (format : list Z) : outcome (list Z) :=
  match format with [] => UB | _ :: format => Ret format end.

Fixpoint parse_flags (format : list Z) (flags : Z) : list Z * Z :=
  match format with
  | 45 :: format => parse_flags format (Z.lor flags MINUS)
  | 43 :: format => parse_flags format (Z.lor flags PLUS)
  | 32 :: format => parse_flags format (Z.lor flags SPACE)
  | 35 :: format => parse_flags format (Z.lor flags POUND)
  | 48 :: format => parse_flags format (Z.lor flags ZERO)
  | 39 :: format => parse_flags format (Z.lor flags GROUP)
  | format => (format, flags)
  end.

(** Overflow of the [int] is undefined behaviour. *)
Fixpoint parse_digits (format : list Z) (v : Z) : outcome (list Z * Z) :=
  match format with
  | c :: rest =>
      if isdigit (schar c) then
        let? v := int_ (v * 10) in let? v := int_ (v + schar c) in parse_digits rest (v - 48)
      else Ret (format, v)
  | [] => Ret ([], v)
  end.

Definition parse_type (format : list Z) : list Z * conv_type :=
  match format with
  | 104 :: 104 :: format => (format, CHAR)
  | 104 :: format => (format, SHORT)
  | 106 :: format => (format, INTMAX)
  | 108 :: 108 :: format => (format, LONGLONG)
  | 108 :: format => (format, LONG)
  | 116 :: format => (format, PTRDIFFT)
  | 122 :: format => (format, SIZET)
  | format => (format, INT)
  end.

Definition parse_conversion (format : list Z) (args : list arg)
    : outcome (list Z * printf_conversion * list arg) :=
  let '(format, flags) := parse_flags format 0 in
  let flags := if has_flag flags MINUS then Z.ldiff flags ZERO else flags in
  let flags := if has_flag flags PLUS then Z.ldiff flags SPACE else flags in
  let? (format, width, args) :=
    (if head_char format =? 42 then
       let? format := advance format in
       let? (w, args) := va_arg32 args in Ret (format, s32 w, args)
     else let? (format, w) := parse_digits format 0 in Ret (format, w, args)) in
  let? (flags, width) :=
    (if width <? 0 then let? w := int_ (- width) in Ret (Z.lor flags MINUS, w)
     else Ret (flags, width)) in
  let? (format, precision, args) :=
    (if head_char format =? 46 then
       let? format := advance format in
       let? (format, p, args) :=
         (if head_char format =? 42 then
            let? format := advance format in
            let? (p, args) := va_arg32 args in Ret (format, s32 p, args)
          else let? (format, p) := parse_digits format 0 in Ret (format, p, args)) in
       Ret (format, (if p <? 0 then -1 else p), args)
     else Ret (format, -1, args)) in
  let flags := if 0 <=? precision then Z.ldiff flags ZERO else flags in
  let '(format, type) := parse_type format in
  Ret (format, mk_conv flags width precision type, args).

(** The value of a signed conversion. *)
Definition signed_arg (type : conv_type) (args : list arg) : outcome (Z * list arg) :=
  match type with
  | CHAR => let? (v, args) := va_arg32 args in Ret (schar (u8 v), args)
  | SHORT => let? (v, args) := va_arg32 args in
      Ret (if u16 v <? 32768 then u16 v else u16 v - 65536, args)
  | INT | LONG | PTRDIFFT => let? (v, args) := va_arg32 args in Ret (s32 v, args)
  | INTMAX | LONGLONG => let? (v, args) := va_arg64 args in Ret (s64 v, args)
  | SIZET => let? (v, args) := va_arg32 args in
      let v := u32 v in Ret (if UINT_MAX / 2 <? v then v - UINT_MAX - 1 else v, args)
  end.

Definition unsigned_arg (type : conv_type) (args : list arg) : outcome (Z * list arg) :=
  match type with
  | CHAR => let? (v, args) := va_arg32 args in Ret (u8 v, args)
  | SHORT => let? (v, args) := va_arg32 args in Ret (u16 v, args)
  | INT | LONG | SIZET => let? (v, args) := va_arg32 args in Ret (u32 v, args)
  | INTMAX | LONGLONG => let? (v, args) := va_arg64 args in Ret (u64 v, args)
  | PTRDIFFT => let? (v, args) := va_arg32 args in
      Ret (Z.land (u64 (s32 v)) (Z.lor (Z.shiftl INT_MAX 1) 1), args)
  end.

Definition DEFAULT_FLOAT_PRECISION : Z := 6.
Definition MAX_FLOAT_PRECISION : Z := 9.
Definition powers : list Z :=
  [0; 10; 100; 1000; 10000; 100000; 1000000; 10000000; 100000000; 1000000000;
   0; 0; 0; 0; 0; 0].

(** Absolute value; the most negative [intmax_t] overflows. *)
Definition abs64 (v : Z) : outcome Z := if v =? - 2 ^ 63 then UB else Ret (Z.abs v).

Definition strnlen_chars (s : list Z) (maxlen : Z) : list Z :=
  if Z.of_nat (length s) <=? maxlen then s else take (Z.to_nat maxlen) s.

(** The fuel is spent on the characters of the format and of the two fixed messages. *)
Fixpoint __vprintf (fuel : nat) (format : list Z) (args : list arg) : outcome (list Z) :=
  match fuel with
  | O => NoFuel
  | S fuel =>
      match format with
      | [] => Ret []
      | ch :: format =>
          if negb (ch =? 37) then
            let? out := __vprintf fuel format args in Ret (ch :: out)
          else if head_char format =? 37 then
            let? format := advance format in
            let? out := __vprintf fuel format args in Ret (37 :: out)
          else
            let? (format, c, args) := parse_conversion format args in
            let conv := head_char format in
            let? (out1, args) :=
              (if (conv =? 100) || (conv =? 105) then
                 let? (value, args) := signed_arg (ctype c) args in
                 let? v := abs64 value in
                 let? out := format_integer v true (value <? 0) base_d c in Ret (out, args)
               else if (conv =? 111) || (conv =? 117) || (conv =? 120) || (conv =? 88) then
                 let? (value, args) := unsigned_arg (ctype c) args in
                 let b := if conv =? 111 then base_o else if conv =? 117 then base_d
                          else if conv =? 120 then base_x else base_X in
                 let? out := format_integer value false false b c in Ret (out, args)
               else if conv =? 99 then
                 let? (v, args) := va_arg32 args in Ret (format_string [u8 v] c, args)
               else if conv =? 115 then
                 match args with
                 | ArgStr s :: args =>
                     let s := match s with None => chars "(null)" | Some s => s end in
                     let s := strnlen_chars s (u32 (precision c)) in
                     Ret (format_string s c, args)
                 | _ => UB
                 end
               else if conv =? 112 then
                 let? (v, args) := va_arg32 args in
                 let? out := format_integer (u32 v) false false base_x
                               (mk_conv POUND (width c) (precision c) (ctype c)) in Ret (out, args)
               else if conv =? 102 then
                 match args with
                 | ArgDouble d :: args =>
                     let p := if precision c <? 0 then DEFAULT_FLOAT_PRECISION else precision c in
                     let p := if MAX_FLOAT_PRECISION <? p then MAX_FLOAT_PRECISION else p in
                     let first := double_to_int d in
                     let? power := aread powers p in
                     let rest := double_rest d power in
                     let? v := int_ (Z.abs first) in
                     let? out1 := format_integer v true (double_is_negative d) base_d
                                    (mk_conv (flags c) (width c) (-1) (ctype c)) in
                     let? r := int_ (Z.abs rest) in
                     let? out2 := format_integer r false false base_d
                                    (mk_conv (flags c) (width c) (if p =? 0 then 1 else p) (ctype c)) in
                     Ret (out1 ++ [46] ++ out2, args)
                 | _ => UB
                 end
               else if (conv =? 101) || (conv =? 69) || (conv =? 103) || (conv =? 71) || (conv =? 110) then
                 let? out := __vprintf fuel (chars "<<no %%%c in kernel>>") [Arg32 conv] in
                 Ret (out, args)
               else
                 let? out := __vprintf fuel (chars "<<no %%%c conversion>>") [Arg32 conv] in
                 Ret (out, args)) in
            let? format := advance format in
            let? out := __vprintf fuel format args in
            Ret (out1 ++ out)
      end
  end.

Definition printf_fuel (format : list Z) : nat := length format + 24.
Definition vprintf (format : list Z) (args : list arg) : outcome (list Z) :=
  __vprintf (printf_fuel format) format args.

(** ** Output to a buffer *)

Record vsnprintf_aux := mk_aux { p : Z; length_ : Z; max_length : Z }.

Definition vsnprintf_helper (state : memory * vsnprintf_aux) (ch : Z) : memory * vsnprintf_aux :=
  let '(m, aux) := state in
  if length_ aux <? max_length aux
  then (wr m (p aux) ch, mk_aux (p aux + 1) (length_ aux + 1) (max_length aux))
  else (m, mk_aux (p aux) (length_ aux + 1) (max_length aux)).

Definition vsnprintf (m : memory) (buffer buf_size : Z) (format : list Z) (args : list arg)
    : outcome (memory * Z) :=
  let aux := mk_aux buffer 0 (if 0 <? buf_size then s32 (buf_size - 1) else 0) in
  let? out := vprintf format args in
  let '(m, aux) := fold_left vsnprintf_helper out (m, aux) in
  let m := if 0 <? buf_size then wr m (p aux) 0 else m in
  Ret (m, length_ aux).

Definition snprintf := vsnprintf.

(** ** Memory dumps and sizes *)

Definition printf (format : string) (args : list arg) : outcome (list Z) := vprintf (chars format) args.

(** The output of [for (; i < i + n; i++) body (i)]. *)
Fixpoint for_output (n : nat) (i : Z) (body : Z -> outcome (list Z)) : outcome (list Z) :=
  match n with
  | O => Ret []
  | S n => let? out := body i in let? out' := for_output n (i + 1) body in Ret (out ++ out')
  end.

Definition per_line : Z := 16.

Definition hex_dump_line (ofs : Z) (buf : list Z) (start end_ : Z) (ascii : bool) : outcome (list Z) :=
  let loop lo hi := for_output (Z.to_nat (hi - lo)) lo in
  let? o1 := printf "%08jx  " [Arg64 (u32 (ofs / per_line * per_line))] in
  let? o2 := loop 0 start (fun _ => printf "   " []) in
  let? o3 := loop start end_ (fun i =>
    let? b := aread buf (i - start) in
    printf "%02hhx%c" [Arg32 b; Arg32 (if i =? per_line / 2 - 1 then 45 else 32)]) in
  let? o4 := (if ascii then
    let? o1 := loop end_ per_line (fun _ => printf "   " []) in
    let? o2 := printf "|" [] in
    let? o3 := loop 0 start (fun _ => printf " " []) in
    let? o4 := loop start end_ (fun i =>
      let? b := aread buf (i - start) in
      printf "%c" [Arg32 (if isprint b then b else 46)]) in
    let? o5 := loop end_ per_line (fun _ => printf " " []) in
    let? o6 := printf "|" [] in
    Ret (o1 ++ o2 ++ o3 ++ o4 ++ o5 ++ o6) else Ret []) in
  let? o5 := vprintf [10] [] in
  Ret (o1 ++ o2 ++ o3 ++ o4 ++ o5).

Fixpoint hex_dump_loop (fuel : nat) (ofs : Z) (buf : list Z) (size : Z) (ascii : bool)
    : outcome (list Z) :=
  match fuel with
  | O => NoFuel
  | S fuel =>
      if 0 <? size then
        let start := ofs mod per_line in
        let end_ := if size <? per_line - start then start + size else per_line in
        let n := end_ - start in
        let? line := hex_dump_line ofs buf start end_ ascii in
        let? rest := hex_dump_loop fuel (u32 (ofs + n)) (drop (Z.to_nat n) buf) (size - n) ascii in
        Ret (line ++ rest)
      else Ret []
  end.
Definition hex_dump (ofs : Z) (buf : list Z) (size : Z) (ascii : bool) : outcome (list Z) :=
  hex_dump_loop (S (Z.to_nat size)) ofs buf size ascii.

Fixpoint human_factor (size : Z) (fp : list (list Z)) : outcome (Z * list Z) :=
  match fp with
  | factor :: ((_ :: _) as rest) =>
      if 1024 <=? size then human_factor (size / 1024) rest else Ret (size, factor)
  | [factor] => Ret (size, factor)
  | [] => UB
  end.
Definition factors : list (list Z) :=
  [chars "bytes"; chars "kB"; chars "MB"; chars "GB"; chars "TB"].
Definition print_human_readable_size (size : Z) : outcome (list Z) :=
  if size =? 1 then printf "1 byte" []
  else
    let? (size, factor) := human_factor size factors in
    printf "%llu %s" [Arg64 size; ArgStr (Some factor)].
End Printf.

Arguments Arg32 {double} z.
Arguments Arg64 {double} z.
Arguments ArgStr {double} s.
Arguments ArgDouble {double} d.

(** Formatting without floating-point arguments. *)
Definition no_double_int (d : Empty_set) : Z := match d with end.
Definition no_double_neg (d : Empty_set) : bool := match d with end.
Definition no_double_rest (d : Empty_set) (p : Z) : Z := match d with end.
Definition kvprintf := vprintf Empty_set no_double_int no_double_neg no_double_rest.

(** * Specification *)

Definition bases : list integer_base := [base_d; base_o; base_x; base_X].

(** The value that a character stands for in base [b]. *)
Definition digit_value (b : integer_base) (ch : Z) : option Z :=
  Z.of_nat <$> find_pos (fun d => d =? ch) (digits b).

(** The number written by a list of digits in base [b], group separators skipped. *)
Fixpoint read_base (b : integer_base) (l : list Z) (v : Z) : option Z :=
  match l with
  | [] => Some v
  | ch :: l =>
      if ch =? 44 then read_base b l v
      else match digit_value b ch with
           | Some d => read_base b l (base b * v + d)
           | None => None
           end
  end.

(** * Lemmas *)

Lemma base_table b : b ∈ bases ->
  8 <= base b /\ 0 < group b /\ Z.of_nat (length (digits b)) = base b /\
  Forall (fun v => exists d, aget (digits b) v = Some d /\ d <> 44 /\ digit_value b d = Some v)
    (seqZ 0 (base b)).
Proof.
  set (ok := fun b v => match aget (digits b) v with
                        | Some d => negb (d =? 44) && bool_decide (digit_value b d = Some v)
                        | None => false
                        end).
  assert (H : Forall (fun b => 8 <= base b /\ 0 < group b /\ Z.of_nat (length (digits b)) = base b /\
    Forall (fun v => ok b v = true) (seqZ 0 (base b))) bases) by by_compute.
  intros Hb. rewrite Forall_forall in H. destruct (H b Hb) as (H1 & H2 & H3 & H4).
  split_and!; [done..|]. eapply Forall_impl; [exact H4|]. cbn. unfold ok. intros v Hv.
  destruct (aget (digits b) v) as [d|]; [|done]. apply andb_true_iff in Hv as [Hd Hv].
  apply bool_decide_eq_true in Hv. exists d. split_and!; [done|lia|done].
Qed.

Lemma base_digit b v : b ∈ bases -> 0 <= v < base b ->
  exists d, aget (digits b) v = Some d /\ d <> 44 /\ digit_value b d = Some v.
Proof.
  intros Hb Hv. destruct (base_table b Hb) as (_ & _ & _ & H). rewrite Forall_forall in H.
  apply H, elem_of_seqZ. lia.
Qed.

Lemma zero_digit b : b ∈ bases -> digit_value b 48 = Some 0.
Proof.
  assert (H : Forall (fun b => digit_value b 48 = Some 0) bases) by by_compute.
  rewrite Forall_forall in H. apply H.
Qed.

Lemma read_base_app b l1 l2 v :
  read_base b (l1 ++ l2) v = match read_base b l1 v with Some w => read_base b l2 w | None => None end.
Proof.
  revert v. induction l1 as [|ch l1 IH]; intros v; cbn; [done|].
  destruct (ch =? 44); [done|]. by destruct (digit_value b ch).
Qed.

Lemma read_base_zeros b n l : b ∈ bases -> read_base b (replicate n 48 ++ l) 0 = read_base b l 0.
Proof.
  intros Hb. induction n as [|n IH]; cbn; [done|]. rewrite zero_digit by done.
  by rewrite Z.add_0_r, Z.mul_0_r.
Qed.

Lemma push_Ret buf ch : (length buf < 64)%nat -> push buf ch = Ret (buf ++ [ch]).
Proof. intros. unfold push, BUF_SIZE. by rewrite decide_True. Qed.

(** The digits of [value], least significant first, two places of the buffer at most for each. *)
Lemma digits_loop_Ret b g : b ∈ bases -> forall fuel value dc buf,
  0 <= value -> value < 8 ^ (Z.of_nat fuel - 1) -> (0 < fuel)%nat -> 0 <= dc ->
  Z.of_nat (length buf) <= 2 * dc -> dc + Z.of_nat fuel <= 23 ->
  exists l, digits_loop fuel b g value dc buf = Ret (buf ++ l) /\
    (forall v, read_base b (rev l) v = Some (v * base b ^ Z.of_nat (length (filter (fun c => c <> 44) l)) + value)) /\
    Z.of_nat (length (buf ++ l)) <= 44 /\ (g = false -> Forall (fun c => c <> 44) l) /\
    (value = 0 -> l = []) /\
    (g = false -> forall k, 0 <= k -> value < base b ^ k -> Z.of_nat (length l) <= k).
Proof.
  intros Hb. destruct (base_table b Hb) as (Hb8 & Hg & _ & _).
  induction fuel as [|fuel IH]; intros value dc buf Hv Hlt Hf Hdc Hlen Hsum; [lia|].
  cbn [digits_loop]. destruct (0 <? value) eqn:E.
  2: { exists []. rewrite app_nil_r. split_and!; [done| |lia|constructor|done|done].
       intros v. cbn. f_equal. lia. }
  assert (Hcomma : exists sep, (if g && (0 <? dc) && (dc mod group b =? 0) then push buf 44 else Ret buf)
            = Ret (buf ++ sep) /\ (sep = [] \/ sep = [44] /\ g = true) /\ (dc = 0 -> sep = [])).
  { destruct (g && (0 <? dc) && (dc mod group b =? 0)) eqn:Es.
    - rewrite push_Ret by lia. exists [44]. split_and!; [done| |lia]. right. by destruct g.
    - exists []. rewrite app_nil_r. auto. }
  destruct Hcomma as (sep & -> & Hsep & Hsep0). cbn [obind].
  pose proof (Z.mod_pos_bound value (base b) ltac:(lia)) as Hmod.
  destruct (base_digit b (value mod base b) Hb Hmod) as (d & Hd & Hd44 & Hdv).
  unfold aread. rewrite Hd. cbn [deref obind].
  assert (Hseplen : (length sep <= 1)%nat) by (destruct Hsep as [->|[-> _]]; cbn; lia).
  rewrite push_Ret by (rewrite length_app; lia). cbn [obind].
  assert (Hf1 : (0 < fuel)%nat).
  { destruct fuel; [|lia]. cbn in Hlt. lia. }
  destruct (IH (value / base b) (dc + 1) ((buf ++ sep) ++ [d])) as (l & -> & Hread & Hlen' & Hg' & _ & Hcnt).
  - apply Z.div_pos; lia.
  - apply Z.div_lt_upper_bound; [lia|].
    replace (8 ^ (Z.of_nat (S fuel) - 1)) with (8 * 8 ^ (Z.of_nat fuel - 1)) in Hlt.
    + pose proof (Z.pow_pos_nonneg 8 (Z.of_nat fuel - 1)). nia.
    + rewrite <- Z.pow_succ_r by lia. f_equal. lia.
  - done.
  - lia.
  - rewrite !length_app. cbn. lia.
  - lia.
  - exists (sep ++ d :: l). rewrite <- !app_assoc. cbn [app]. split; [done|].
    rewrite <- !app_assoc in Hlen'. cbn [app] in Hlen'. split_and!; [|done| |lia|].
    + intros v. rewrite rev_app_distr. cbn [rev]. rewrite !read_base_app, Hread. cbn [read_base].
      replace (d =? 44) with false by lia. rewrite Hdv.
      assert (Hsr : forall w, read_base b (rev sep) w = Some w) by (by destruct Hsep as [->|[-> _]]).
      rewrite Hsr. f_equal. rewrite filter_app, filter_cons_True, length_app by done. cbn [length].
      assert (Hfs : filter (fun c => c <> 44) sep = []) by (by destruct Hsep as [->|[-> _]]).
      rewrite Hfs. cbn [length Nat.add]. rewrite Nat2Z.inj_succ, Z.pow_succ_r by lia.
      pose proof (Z.div_mod value (base b)). lia.
    + intros ->. apply Forall_app_2; [|constructor; [done|by apply Hg']].
      destruct Hsep as [->|[_ ?]]; [constructor|done].
    + intros Hgf k Hk Hvk. destruct (decide (k = 0)) as [->|]; [change (base b ^ 0) with 1 in Hvk; lia|].
      destruct Hsep as [->|[_ ?]]; [|congruence]. cbn [app length].
      enough (Z.of_nat (length l) <= k - 1) by lia. apply Hcnt; [done|lia|].
      apply Z.div_lt_upper_bound; [lia|]. rewrite <- Z.pow_succ_r by lia.
      by replace (Z.succ (k - 1)) with k by lia.
Qed.

Lemma zeros_loop_Ret precision fuel : forall buf,
  (length buf <= 63)%nat -> (63 - length buf < fuel)%nat ->
  exists n, zeros_loop fuel precision buf = Ret (buf ++ replicate n 48) /\
    (length buf + n <= 63)%nat /\
    Z.min precision 63 <= Z.of_nat (length buf + n) /\
    Z.of_nat n <= Z.max 0 (precision - Z.of_nat (length buf)).
Proof.
  induction fuel as [|fuel IH]; intros buf Hb Hf; [lia|]. cbn [zeros_loop].
  destruct ((Z.of_nat (length buf) <? precision) && (Z.of_nat (length buf) <? Z.of_nat BUF_SIZE - 1)) eqn:E.
  - unfold BUF_SIZE in E. rewrite push_Ret by lia. cbn [obind].
    destruct (IH (buf ++ [48])) as (n & -> & H1 & H2 & H3); rewrite length_app in *; cbn [length] in *;
      [lia|lia|].
    exists (S n). rewrite <- app_assoc. split; [done|]. split_and!; lia.
  - unfold BUF_SIZE in E. exists O. rewrite app_nil_r. split; [done|]. split_and!; lia.
Qed.

Lemma flags_test f : (Z.land f (Z.lor MINUS ZERO) =? 0) = negb (has_flag f MINUS) && negb (has_flag f ZERO).
Proof.
  unfold has_flag. rewrite Z.land_lor_distr_r, !negb_involutive.
  destruct (Z.land f MINUS =? 0) eqn:E1, (Z.land f ZERO =? 0) eqn:E2; cbn [andb].
  { apply Z.eqb_eq in E1, E2. by rewrite E1, E2. }
  all: apply Z.eqb_neq; intros H; apply Z.lor_eq_0_iff in H as [H1 H2]; lia.
Qed.

Lemma rev_replicate {A} n (a : A) : rev (replicate n a) = replicate n a.
Proof.
  induction n as [|n IH]; [done|]. cbn [replicate rev]. rewrite IH.
  clear IH. induction n as [|n IH]; [done|]. cbn. by rewrite IH.
Qed.

Section FormatInteger.
Variables (value : Z) (is_signed negative : bool) (b : integer_base) (c : printf_conversion).
Hypothesis Hv : 0 <= value < 2 ^ 64.
Hypothesis Hb : b ∈ bases.

Lemma format_integer_Ret :
  exists k1 sgn pfx k2 body k3,
    format_integer value is_signed negative b c
      = Ret (output_dup 32 k1 ++ sgn ++ pfx ++ output_dup 48 k2 ++ body ++ output_dup 32 k3) /\
    read_base b body 0 = Some value /\
    (sgn = [] \/ exists s, sgn = [s] /\ s <> 0) /\ (pfx = [] \/ exists x, pfx = [48; x]) /\
    (sgn = [45] <-> is_signed = true /\ negative = true) /\
    (body <> [] \/ (value = 0 /\ precision c = 0)) /\
    (precision c <= 63 -> precision c <= Z.of_nat (length body)) /\
    (has_flag (flags c) GROUP = false -> Forall (fun ch => ch <> 44) body) /\
    (length body <= 64)%nat /\
    (has_flag (flags c) MINUS && has_flag (flags c) ZERO = false ->
       k1 + k2 + k3 = Z.max 0 (width c - Z.of_nat (length (sgn ++ pfx ++ body)))) /\
    0 <= k1 /\ 0 <= k2 /\ 0 <= k3 /\
    (flags c = 0 -> width c = 0 -> k1 = 0 /\ k2 = 0 /\ k3 = 0 /\ pfx = [] /\
       sgn = if is_signed && negative then [45] else []) /\
    (flags c = 0 -> precision c <= 1 -> forall k, 1 <= k -> value < base b ^ k -> Z.of_nat (length body) <= k).
Proof.
  unfold format_integer. cbv zeta.
  destruct (digits_loop_Ret b (has_flag (flags c) GROUP) Hb 23 value 0 [])
    as (ds & -> & Hread & Hlen & Hgrp & Hnil & Hcnt); [lia|change (8 ^ (Z.of_nat 23 - 1)) with (2 ^ 66); lia|lia|lia|cbn; lia|lia|].
  cbn [obind app] in *.
  destruct (zeros_loop_Ret (if precision c <? 0 then 1 else precision c) (S BUF_SIZE) ds)
    as (n & -> & Hn & Hn2 & Hn3); [lia|unfold BUF_SIZE; lia|]. cbn [obind].
  assert (Hoct : exists o, (if has_flag (flags c) POUND && (base b =? 8) &&
       match last (ds ++ replicate n 48) with None => true | Some d => negb (d =? 48) end
     then push (ds ++ replicate n 48) 48 else Ret (ds ++ replicate n 48))
     = Ret (ds ++ replicate (n + o) 48) /\ (o <= 1)%nat /\ (flags c = 0 -> o = O)).
  { destruct (_ && _ && _) eqn:E.
    - rewrite push_Ret by (rewrite length_app, length_replicate; lia). exists 1%nat.
      rewrite replicate_add, app_assoc. split_and!; [done|lia|]. intros Hf. by rewrite Hf in E.
    - exists O. rewrite Nat.add_0_r. split_and!; [done|lia|done]. }
  destruct Hoct as (o & -> & Ho & Ho0). cbn [obind]. rewrite flags_test.
  set (sign := if is_signed then _ else 0). set (xx := if has_flag (flags c) POUND && _ then x b else 0).
  set (pad := if _ <? 0 then 0 else _).
  set (sgn := if negb (sign =? 0) then [sign] else []).
  set (pfx := if negb (xx =? 0) then [48; xx] else []).
  set (body := rev (ds ++ replicate (n + o) 48)).
  assert (Hpad : pad = Z.max 0 (width c - Z.of_nat (length (sgn ++ pfx ++ body)))).
  { unfold pad, sgn, pfx, body. rewrite !length_app, length_rev, length_app.
    destruct (negb (sign =? 0)), (negb (xx =? 0)); cbn [length];
      match goal with |- context [?z <? 0] => destruct (z <? 0) eqn:? end; lia. }
  assert (Hpad0 : 0 <= pad) by lia.
  exists (if negb (has_flag (flags c) MINUS) && negb (has_flag (flags c) ZERO) then pad else 0), sgn, pfx,
    (if has_flag (flags c) ZERO then pad else 0), body, (if has_flag (flags c) MINUS then pad else 0).
  split; [|split_and!].
  - f_equal. fold sgn pfx body. fold body.
    destruct (has_flag (flags c) MINUS), (has_flag (flags c) ZERO); reflexivity.
  - unfold body. rewrite rev_app_distr, rev_replicate, read_base_zeros, Hread by done. reflexivity.
  - unfold sgn. destruct (sign =? 0) eqn:Es; [by left|]. right. exists sign. split; [done|lia].
  - unfold pfx. destruct (negb (xx =? 0)); eauto.
  - unfold sgn, sign. destruct is_signed; [|by split; [|intros [? _]]].
    destruct (has_flag (flags c) PLUS), (has_flag (flags c) SPACE), negative; cbn; split; try done;
      intros; tauto || discriminate || naive_solver.
  - destruct (decide (body = [])) as [E|]; [|by left]. right. unfold body in E.
    apply (f_equal length) in E. rewrite length_rev, length_app, length_replicate in E. cbn in E.
    split.
    + destruct (decide (value = 0)) as [|Hne]; [done|]. exfalso.
      assert (ds = []) by (apply nil_length_inv; lia). subst ds. specialize (Hread 0). cbn in Hread.
      injection Hread as Hread. lia.
    + destruct (precision c <? 0) eqn:Ep; lia.
  - intros Hp. unfold body. rewrite length_rev, length_app, length_replicate.
    destruct (precision c <? 0) eqn:Ep; lia.
  - intros Hg. unfold body. apply Forall_rev, Forall_app_2; [by apply Hgrp|]. by apply Forall_replicate.
  - unfold body. rewrite length_rev, length_app, length_replicate. lia.
  - intros Hmz. rewrite <- Hpad. destruct (has_flag (flags c) MINUS), (has_flag (flags c) ZERO); cbn in *; lia || done.
  - destruct (has_flag _ MINUS), (has_flag _ ZERO); cbn; lia.
  - by destruct (has_flag _ ZERO).
  - by destruct (has_flag _ MINUS).
  - intros Hf Hw. assert (pad = 0) as -> by lia. rewrite Hf. split_and!; [done..| |].
    { unfold pfx, xx. by rewrite Hf. }
    unfold sgn, sign. rewrite Hf. by destruct is_signed, negative.
  - intros Hf Hp k Hk Hvk. unfold body. rewrite length_rev, length_app, length_replicate, (Ho0 Hf).
    specialize (Hcnt ltac:(by rewrite Hf) k ltac:(lia) Hvk).
    destruct (precision c <? 0) eqn:Ep; lia.
Qed.
End FormatInteger.

(** ** The output buffer *)

Lemma vsnprintf_helper_room m pos k mx ch : k < mx ->
  vsnprintf_helper (m, mk_aux pos k mx) ch = (wr m pos ch, mk_aux (pos + 1) (k + 1) mx).
Proof. intros. unfold vsnprintf_helper. cbn. by replace (k <? mx) with true by lia. Qed.

Lemma vsnprintf_helper_full m pos k mx ch : mx <= k ->
  vsnprintf_helper (m, mk_aux pos k mx) ch = (m, mk_aux pos (k + 1) mx).
Proof. intros. unfold vsnprintf_helper. cbn. by replace (k <? mx) with false by lia. Qed.

Lemma vsnprintf_loop (m0 : memory) buffer mx out : forall (m : memory) k,
  0 <= mx -> 0 <= k ->
  (forall a, a < buffer \/ buffer + Z.min k mx <= a -> m a = m0 a) ->
  exists m', fold_left vsnprintf_helper out
      (m, mk_aux (buffer + Z.min k mx) k mx)
    = (m', mk_aux (buffer + Z.min (k + Z.of_nat (length out)) mx) (k + Z.of_nat (length out)) mx) /\
    (forall a, a < buffer + Z.min k mx -> m' a = m a) /\
    (forall i ch, aget out i = Some ch -> k + i < mx -> m' (buffer + k + i) = u8 ch) /\
    (forall a, a < buffer \/ buffer + Z.min (k + Z.of_nat (length out)) mx <= a -> m' a = m0 a).
Proof.
  induction out as [|ch out IH]; intros m k Hmx Hk Hm; cbn [fold_left].
  - exists m. cbn [length]. rewrite Z.add_0_r. split_and!; [done|done| |done].
    intros i c Hi. apply aget_Some in Hi. cbn in Hi. lia.
  - destruct (decide (k < mx)) as [E|E].
    + rewrite vsnprintf_helper_room by done. destruct (IH (wr m (buffer + Z.min k mx) ch) (k + 1)) as (m' & Heq & H1 & H2 & H3); [lia|lia| |].
      { intros a Ha. unfold wr. replace (a =? _) with false by lia. apply Hm. lia. }
      exists m'. replace (buffer + Z.min k mx + 1) with (buffer + Z.min (k + 1) mx) by lia.
cbn [length]. split_and!.
      * rewrite Heq. do 2 f_equal; lia.
      * intros a Ha. rewrite H1 by lia. unfold wr. by replace (a =? _) with false by lia.
      * intros i c Hi Hlt. pose proof (aget_Some _ _ _ Hi). destruct (decide (i = 0)) as [->|Hi0].
        -- cbn in Hi. injection Hi as <-. rewrite H1 by lia. unfold wr.
           by replace (_ =? _) with true by lia.
        -- replace (buffer + k + i) with (buffer + (k + 1) + (i - 1)) by lia. apply H2; [|lia].
           rewrite <- Hi. unfold aget. replace (0 <=? i - 1) with true by lia.
           replace (0 <=? i) with true by lia. by replace (Z.to_nat i) with (S (Z.to_nat (i - 1))) by lia.
      * intros a Ha. apply H3. lia.
    + rewrite vsnprintf_helper_full by lia. destruct (IH m (k + 1)) as (m' & Heq & H1 & H2 & H3); [lia|lia| |].
      { intros a Ha. apply Hm. lia. }
      exists m'. replace (buffer + Z.min k mx) with (buffer + Z.min (k + 1) mx) by lia.
      cbn [length]. split_and!.
      * rewrite Heq. do 2 f_equal; lia.
      * intros a Ha. apply H1. lia.
      * intros i c Hi Hlt. apply aget_Some in Hi. lia.
      * intros a Ha. apply H3. lia.
Qed.

Section Vsnprintf.
Context {double : Type} (d2i : double -> Z) (dneg : double -> bool) (drest : double -> Z -> Z).

Lemma vsnprintf_out m buffer buf_size format args out :
  0 <= buf_size < 2 ^ 31 ->
  vprintf double d2i dneg drest format args = Ret out ->
  let stored := Z.min (Z.of_nat (length out)) (Z.max 0 (buf_size - 1)) in
  exists m',
    vsnprintf double d2i dneg drest m buffer buf_size format args = Ret (m', Z.of_nat (length out)) /\
    (forall i ch, aget out i = Some ch -> i < stored -> m' (buffer + i) = u8 ch) /\
    (0 < buf_size -> m' (buffer + stored) = 0) /\
    (forall a, a < buffer \/ buffer + buf_size <= a -> m' a = m a).
Proof.
  intros Hn Ho stored. unfold vsnprintf. rewrite Ho. cbn [obind].
  assert (Hmx : (if 0 <? buf_size then s32 (buf_size - 1) else 0) = Z.max 0 (buf_size - 1)).
  { destruct (0 <? buf_size) eqn:E; [|lia]. rewrite s32_small; lia. }
  rewrite Hmx. set (mx := Z.max 0 (buf_size - 1)) in *.
  destruct (vsnprintf_loop m buffer mx out m 0) as (m1 & Heq & H1 & H2 & H3); [lia|lia|done|].
  replace (buffer + Z.min 0 mx) with buffer in * by lia. rewrite Heq. cbn [p length_].
  fold stored in H3 |- *. replace (0 + Z.of_nat (length out)) with (Z.of_nat (length out)) by lia.
  fold stored. eexists. split; [done|]. split_and!.
  - intros i ch Hi Hlt. pose proof (aget_Some _ _ _ Hi). specialize (H2 i ch Hi).
    replace (buffer + 0 + i) with (buffer + i) in H2 by lia.
    destruct (0 <? buf_size); [|apply H2; lia]. unfold wr. replace (_ =? _) with false by lia. apply H2. lia.
  - intros Hp. replace (0 <? buf_size) with true by lia. unfold wr. by rewrite Z.eqb_refl.
  - intros a Ha. destruct (0 <? buf_size) eqn:E; [|apply H3; lia].
    unfold wr. replace (a =? _) with false by lia. apply H3. lia.
Qed.

(** [vsnprintf] stores at most [buf_size] bytes, all inside the buffer: the longest prefix of the
    output that fits, then a null byte; it returns the length of the whole output. *)
Theorem vsnprintf_correct m buffer buf_size format args out :
  0 <= buf_size < 2 ^ 31 ->
  vprintf double d2i dneg drest format args = Ret out ->
  let stored := Z.min (Z.of_nat (length out)) (Z.max 0 (buf_size - 1)) in
  exists m',
    vsnprintf double d2i dneg drest m buffer buf_size format args = Ret (m', Z.of_nat (length out)) /\
    (forall i ch, aget out i = Some ch -> i < stored -> m' (buffer + i) = u8 ch) /\
    (0 < buf_size -> m' (buffer + stored) = 0) /\
    (forall a, a < buffer \/ buffer + buf_size <= a -> m' a = m a).
Proof. apply vsnprintf_out. Qed.

(** ** Decimal round trip *)

Lemma digit_value_d ch : is_Some (digit_value base_d ch) ->
  isdigit ch = true /\ digit_value base_d ch = Some (ch - 48).
Proof.
  intros [v Hv]. assert (Hch : ch ∈ digits base_d).
  { unfold digit_value in Hv. apply fmap_Some in Hv as (i & Hi & _).
    apply find_pos_Some in Hi as [(d & Hd & Hdc) _]. apply Z.eqb_eq in Hdc as <-.
    by eapply list_elem_of_lookup_2. }
  assert (H : Forall (fun ch => isdigit ch = true /\ digit_value base_d ch = Some (ch - 48)) (digits base_d))
    by by_compute.
  rewrite Forall_forall in H. by apply H.
Qed.

Lemma read_base_decimal body : Forall (fun ch => ch <> 44) body -> forall v w,
  read_base base_d body v = Some w ->
  Forall (fun ch => isdigit ch = true) body /\ fold_left (fun v d => 10 * v + (d - 48)) body v = w.
Proof.
  induction 1 as [|ch body Hch _ IH]; intros v w; cbn [read_base fold_left].
  - by intros [= ->].
  - replace (ch =? 44) with false by lia. destruct (digit_value base_d ch) as [d|] eqn:E; [|done].
    destruct (digit_value_d ch) as [Hd Hv]; [by rewrite E|]. rewrite E in Hv. injection Hv as ->.
    intros Hr. apply IH in Hr as [H1 H2]. split; [by constructor|done].
Qed.

Definition sign_of (v : Z) : list Z := if v <? 0 then [45] else [].

Lemma format_plain_d v : in_s32 v -> exists body,
  format_integer (Z.abs v) true (v <? 0) base_d (mk_conv 0 0 (-1) INT) = Ret (sign_of v ++ body) /\
  Forall (fun ch => isdigit ch = true) body /\ decimal body = Z.abs v /\ body <> [] /\ (length body <= 10)%nat.
Proof.
  intros Hv. destruct (format_integer_Ret (Z.abs v) true (v <? 0) base_d (mk_conv 0 0 (-1) INT))
    as (k1 & sgn & pfx & k2 & body & k3 & Heq & Hread & _ & _ & _ & Hne & _ & Hgrp & _ & _ & _ & _ & _ & Hplain & Hcnt);
    [lia|left|]. cbn [flags width precision] in *.
  destruct Hplain as (-> & -> & -> & -> & ->); [done..|].
  destruct (read_base_decimal body (Hgrp eq_refl) 0 _ Hread) as [Hd Hval].
  specialize (Hcnt eq_refl ltac:(lia) 10 ltac:(lia) ltac:(cbn; lia)).
  exists body. split_and!; [|done|done| |lia].
  - rewrite Heq. unfold output_dup. cbn. rewrite !app_nil_r. unfold sign_of. by destruct (v <? 0).
  - destruct Hne as [?|[_ ?]]; done.
Qed.

Lemma printf_d fuel v : in_s32 v -> exists body,
  __vprintf double d2i dneg drest (S (S fuel)) (chars "%d") [Arg32 v] = Ret (sign_of v ++ body) /\
  Forall (fun ch => isdigit ch = true) body /\ decimal body = Z.abs v /\ body <> [] /\ (length body <= 10)%nat.
Proof.
  intros Hv. destruct (format_plain_d v Hv) as (body & Heq & H). exists body. split; [|exact H].
  change (chars "%d") with [37; 100]. cbn [__vprintf Z.eqb Pos.eqb negb head_char hd_error default].
  unfold parse_conversion. cbn -[format_integer s32 abs64]. rewrite s32_small by done.
  unfold abs64. replace (v =? - 2 ^ 63) with false by lia. cbn [obind].
  change (if has_flag (if has_flag 0 MINUS then 0 else 0) PLUS then _ else _) with 0.
  rewrite Heq. cbn [obind]. by rewrite app_nil_r.
Qed.

(** A string followed by a number. *)
Lemma printf_sd str v : in_s32 v -> Z.of_nat (length str) < 2 ^ 32 -> exists body,
  vprintf double d2i dneg drest (chars "%s%d") [ArgStr (Some str); Arg32 v] = Ret (str ++ sign_of v ++ body) /\
  decimal body = Z.abs v.
Proof.
  intros Hv Hl. destruct (format_plain_d v Hv) as (body & Heq & _ & Hval & _). exists body. split; [|exact Hval].
  unfold vprintf. change (chars "%s%d") with [37; 115; 37; 100]. cbn -[format_integer s32 abs64 format_string].
  unfold parse_conversion. cbn -[format_integer s32 abs64 format_string]. rewrite s32_small by done.
  unfold abs64. replace (v =? - 2 ^ 63) with false by lia. cbn [obind].
  change (if has_flag (if has_flag 0 MINUS then 0 else 0) PLUS then _ else _) with 0.
  rewrite Heq. cbn [obind].
  unfold strnlen_chars. change (u32 (-1)) with 4294967295.
  replace (Z.of_nat (length str) <=? 4294967295) with true by lia.
  unfold format_string. cbn [width flags]. replace (Z.of_nat (length str) <? 0) with false by lia.
  cbn [andb app]. by rewrite !app_nil_r.
Qed.

Lemma bytes_at_intro m l : forall p,
  (forall i ch, l !! i = Some ch -> rd m (p + Z.of_nat i) = ch) -> bytes_at m p l.
Proof.
  induction l as [|c l IH]; intros p H; [done|]. split.
  - rewrite <- (H O c eq_refl). f_equal. lia.
  - apply IH. intros i ch Hi. rewrite <- (H (S i) ch Hi). f_equal. lia.
Qed.

Lemma snprintf_d_fits m buffer buf_size v :
  in_s32 v -> 12 <= buf_size < 2 ^ 31 ->
  exists m' body,
    snprintf double d2i dneg drest m buffer buf_size (chars "%d") [Arg32 v]
      = Ret (m', Z.of_nat (length (sign_of v ++ body))) /\
    (length (sign_of v ++ body) <= 11)%nat /\ bytes_at m' buffer (sign_of v ++ body) /\
    m' (buffer + Z.of_nat (length (sign_of v ++ body))) = 0 /\
    Forall (fun ch => isdigit ch = true) body /\ decimal body = Z.abs v /\ body <> [] /\
    (forall a, a < buffer \/ buffer + buf_size <= a -> m' a = m a).
Proof.
  intros Hv Hn. destruct (printf_d 24 v Hv) as (body & Hp & Hd & Hval & Hne & Hlen).
  destruct (vsnprintf_out m buffer buf_size (chars "%d") [Arg32 v] _ ltac:(lia) Hp)
    as (m' & Hs & Hbytes & Hnull & Hout).
  set (out := sign_of v ++ body) in *.
  assert (Hol : (length out <= 11)%nat).
  { unfold out. rewrite length_app. unfold sign_of. destruct (v <? 0); cbn [length]; lia. }
  replace (Z.min _ _) with (Z.of_nat (length out)) in Hbytes, Hnull by lia.
  exists m', body. split_and!; [done|done| |apply Hnull; lia|done..].
  assert (Hr : Forall (fun ch => 0 <= ch < 256) out).
  { apply Forall_app_2; [unfold sign_of; destruct (v <? 0); repeat constructor; lia|].
    eapply Forall_impl; [exact Hd|]. unfold isdigit. cbn. lia. }
  apply bytes_at_intro. intros i ch Hi. rewrite Forall_lookup in Hr. pose proof (Hr i ch Hi).
  pose proof (lookup_lt_Some _ _ _ Hi). unfold rd. rewrite (Hbytes (Z.of_nat i) ch).
  - by rewrite !u8_small; rewrite ?u8_small.
  - unfold aget. by replace (0 <=? Z.of_nat i) with true by lia; rewrite Nat2Z.id.
  - fold out in H0. lia.
Qed.

(** Converting any [int] with the "%d" conversion into a buffer of 12 bytes or more and reading it
    back with [atoi] returns the same [int], the smallest one included. *)
Theorem snprintf_atoi_roundtrip m buffer buf_size v fuel :
  in_s32 v -> 12 <= buf_size < 2 ^ 31 -> buffer <> NULL -> (12 <= fuel)%nat ->
  exists m' len,
    snprintf double d2i dneg drest m buffer buf_size (chars "%d") [Arg32 v] = Ret (m', len) /\
    len <= 11 /\ atoi fuel m' buffer = Ret v.
Proof.
  intros Hv Hn Hb Hf.
  destruct (snprintf_d_fits m buffer buf_size v Hv Hn) as (m' & body & Hs & Hlen & Hbytes & Hnull & Hd & Hval & Hne & _).
  eexists m', _. split; [exact Hs|]. split; [lia|].
  assert (Hsgn : (if decide (sign_of v = [45]) then - decimal body else decimal body) = v).
  { rewrite Hval. unfold sign_of. destruct (v <? 0) eqn:E; case_decide; try done; lia. }
  rewrite (atoi_value fuel m' buffer [] (sign_of v) body); cbn [app].
  - by rewrite Hsgn.
  - done.
  - done.
  - constructor.
  - unfold sign_of. destruct (v <? 0); auto.
  - done.
  - done.
  - unfold rd. by rewrite Hnull.
  - lia.
  - by rewrite Hsgn.
Qed.
End Vsnprintf.

(** [format_integer] never overruns its 64-byte digit buffer: for every 64-bit value and
    conversion it emits space padding, the sign, the base prefix, zero padding, the digits and trailing
    space padding; the digits read back in the base as the value; the sign is a minus exactly for
    negative signed values; there are at least [precision] digits (up to 63), commas only with the
    group flag, and padding to exactly the field width unless [MINUS] and [ZERO] are both set. *)
Theorem format_integer_correct value is_signed negative b c :
  0 <= value < 2 ^ 64 -> b ∈ bases ->
  exists k1 sgn pfx k2 body k3,
    format_integer value is_signed negative b c
      = Ret (output_dup 32 k1 ++ sgn ++ pfx ++ output_dup 48 k2 ++ body ++ output_dup 32 k3) /\
    read_base b body 0 = Some value /\
    (sgn = [] \/ exists s, sgn = [s] /\ s <> 0) /\ (pfx = [] \/ exists x, pfx = [48; x]) /\
    (sgn = [45] <-> is_signed = true /\ negative = true) /\
    (precision c <= 63 -> precision c <= Z.of_nat (length body)) /\
    (has_flag (flags c) GROUP = false -> Forall (fun ch => ch <> 44) body) /\
    (length body <= 64)%nat /\
    (has_flag (flags c) MINUS && has_flag (flags c) ZERO = false ->
       k1 + k2 + k3 = Z.max 0 (width c - Z.of_nat (length (sgn ++ pfx ++ body)))) /\
    0 <= k1 /\ 0 <= k2 /\ 0 <= k3.
Proof.
  intros Hv Hb.
  destruct (format_integer_Ret value is_signed negative b c Hv Hb)
    as (k1 & sgn & pfx & k2 & body & k3 & ?). exists k1, sgn, pfx, k2, body, k3. tauto.
Qed.

(** * Concrete conversions *)

Example printf_examples :
  kvprintf (chars "%5d|%-5d|%05d|%+d|% d") [Arg32 42; Arg32 42; Arg32 42; Arg32 42; Arg32 42]
    = Ret (chars "   42|42   |00042|+42| 42") /\
  kvprintf (chars "%#x %08X %o %'u") [Arg32 48879; Arg32 48879; Arg32 8; Arg32 1234567]
    = Ret (chars "0xbeef 0000BEEF 10 1,234,567") /\
  kvprintf (chars "%-6s|%.2s|%c|%%|%p") [ArgStr (Some (chars "abc")); ArgStr (Some (chars "xyz")); Arg32 65; Arg32 4096]
    = Ret (chars "abc   |xy|A|%|0x1000") /\
  kvprintf (chars "%hhd %lld %e") [Arg32 255; Arg64 (-1)]
    = Ret (chars "-1 -1 <<no %e in kernel>>").
Proof. by_compute. Qed.

Example hex_dump_example :
  hex_dump Empty_set no_double_int no_double_neg no_double_rest 1029 (chars "Hello, Pintos!") 14 true
    = Ret (chars "00000400                 48 65 6c-6c 6f 2c 20 50 69 6e 74 |     Hello, Pint|" ++ [10] ++
           chars "00000410  6f 73 21                                        |os!             |" ++ [10]).
Proof. by_compute. Qed.

Example human_readable_examples :
  let print := print_human_readable_size Empty_set no_double_int no_double_neg no_double_rest in
  print 1 = Ret (chars "1 byte") /\ print 1023 = Ret (chars "1023 bytes") /\
  print 262144 = Ret (chars "256 kB") /\ print (2 ^ 64 - 1) = Ret (chars "16777215 TB").
Proof. vm_compute. auto. Qed.

(** With a negative [*] width the [MINUS] flag is set after [ZERO] was resolved against it, so the
    field is padded on both sides and is wider than asked for. *)
Example negative_star_width_pads_twice :
  kvprintf (chars "%0*d|") [Arg32 (-5); Arg32 42] = Ret (chars "00042   |").
Proof. by_compute. Qed.

(** The field width applies to the integer part and again to the fraction.  Here doubles are multiples
    of one thousandth. *)
Example float_width_applies_twice :
  vprintf Z (fun d => Z.quot d 1000) (fun d => d <? 0)
    (fun d power => Z.quot ((d - 1000 * Z.quot d 1000) * power) 1000)
    (chars "%8.2f|%.2f") [ArgDouble 12500; ArgDouble (-500)] = Ret (chars "      12.      50|-0.50").
Proof. by_compute. Qed.

(** A format that ends in a lone percent sign is read past its end. *)
Example lone_percent_reads_past_end : kvprintf (chars "50%") [] = UB.
Proof. by_compute. Qed.

Lemma format_integer_correct_witness :
  exists k1 sgn pfx k2 body k3,
    format_integer 1234 true true base_d (mk_conv (Z.lor GROUP PLUS) 9 (-1) INT)
      = Ret (output_dup 32 k1 ++ sgn ++ pfx ++ output_dup 48 k2 ++ body ++ output_dup 32 k3) /\
    read_base base_d body 0 = Some 1234.
Proof.
  destruct (format_integer_correct 1234 true true base_d (mk_conv (Z.lor GROUP PLUS) 9 (-1) INT))
    as (k1 & sgn & pfx & k2 & body & k3 & H1 & H2 & _); [lia|left|]. by exists k1, sgn, pfx, k2, body, k3.
Defined.

Lemma vsnprintf_correct_witness :
  exists m', vsnprintf Empty_set no_double_int no_double_neg no_double_rest (fun _ => 7) 100 4
      (chars "%s!") [ArgStr (Some (chars "hello"))] = Ret (m', 6) /\
    m' (100 + 3) = 0 /\ m' 99 = 7 /\ m' 104 = 7.
Proof.
  destruct (vsnprintf_correct no_double_int no_double_neg no_double_rest (fun _ => 7) 100 4
    (chars "%s!") [ArgStr (Some (chars "hello"))] (chars "hello!"))
    as (m' & H1 & _ & H3 & H4); [lia|by_compute|].
  exists m'. split; [exact H1|]. split; [apply H3; lia|]. split; apply H4; lia.
Defined.

Lemma snprintf_atoi_roundtrip_witness :
  exists m' len,
    snprintf Empty_set no_double_int no_double_neg no_double_rest (fun _ => 7) 100 16
      (chars "%d") [Arg32 (-2147483648)] = Ret (m', len) /\
    len <= 11 /\ atoi 12 m' 100 = Ret (-2147483648).
Proof. apply snprintf_atoi_roundtrip; [lia|lia|done|lia]. Defined.
