(* ===== verification/Endian.v ===== *)
(** Fields of on-disk structures: little-endian integers as lists of bytes, and lists of fixed-size
    records as byte strings. *)
From S2P Require Import Prelude.

(** * Definitions *)

(** The [n] bytes of [v], least significant first, and the integer that a list of bytes encodes. *)
Fixpoint le_bytes (n : nat) (v : Z) : list Z :=
  match n with
  | O => []
  | S n => v mod 256 :: le_bytes n (v / 256)
  end.
Fixpoint le_value (l : list Z) : Z :=
  match l with
  | [] => 0
  | b :: l => b + 256 * le_value l
  end.

(** The field of [n] bytes at offset [ofs] of a structure. *)
Definition field (l : list Z) (ofs n : nat) : list Z := take n (drop ofs l).

Definition is_bytes (l : list Z) : Prop := Forall (fun b => 0 <= b < 256) l.

(** * Lemmas *)

Lemma le_bytes_length n : forall v, length (le_bytes n v) = n.
Proof. induction n as [|n IH]; intros v; cbn; [done|]. by rewrite IH. Qed.

Lemma le_bytes_bytes n : forall v, is_bytes (le_bytes n v).
Proof.
  induction n as [|n IH]; intros v; cbn; [constructor|]. constructor; [|apply IH].
  apply Z.mod_pos_bound. lia.
Qed.

Lemma le_value_bytes n : forall v, 0 <= v < 256 ^ Z.of_nat n -> le_value (le_bytes n v) = v.
Proof.
  induction n as [|n IH]; intros v Hv; cbn [le_bytes le_value]; [change (256 ^ Z.of_nat 0) with 1 in Hv; lia|].
  rewrite Nat2Z.inj_succ, Z.pow_succ_r in Hv by lia. rewrite IH.
  - pose proof (Z.div_mod v 256). lia.
  - split; [apply Z.div_pos; lia|]. apply Z.div_lt_upper_bound; lia.
Qed.

Lemma le_value_range l : is_bytes l -> 0 <= le_value l < 256 ^ Z.of_nat (length l).
Proof.
  induction 1 as [|b l Hb _ IH]; cbn [le_value length]; [by cbn|].
  rewrite Nat2Z.inj_succ, Z.pow_succ_r by lia. lia.
Qed.

Lemma le_bytes_value l : is_bytes l -> le_bytes (length l) (le_value l) = l.
Proof.
  induction 1 as [|b l Hb _ IH]; cbn [le_value le_bytes length]; [done|]. f_equal.
  - rewrite (Z.mul_comm 256), Z.mod_add by lia. by apply Z.mod_small.
  - rewrite (Z.mul_comm 256), Z.div_add by lia. rewrite (Z.div_small b) by done. by rewrite Z.add_0_l.
Qed.

Lemma field_app_l l1 l2 ofs n : (ofs + n <= length l1)%nat -> field (l1 ++ l2) ofs n = field l1 ofs n.
Proof.
  intros H. unfold field. rewrite drop_app_le by lia. rewrite take_app_le; [done|]. rewrite length_drop. lia.
Qed.

Lemma field_app_r l1 l2 ofs n : ofs = length l1 -> n = length l2 -> field (l1 ++ l2) ofs n = l2.
Proof.
  intros -> ->. unfold field. rewrite drop_app_ge by lia. rewrite Nat.sub_diag, drop_0. by apply take_ge.
Qed.

Lemma is_bytes_app l1 l2 : is_bytes (l1 ++ l2) <-> is_bytes l1 /\ is_bytes l2.
Proof. apply Forall_app. Qed.
Lemma is_bytes_take n l : is_bytes l -> is_bytes (take n l).
Proof. apply Forall_take. Qed.
Lemma is_bytes_drop n l : is_bytes l -> is_bytes (drop n l).
Proof. apply Forall_drop. Qed.
Lemma is_bytes_replicate n b : 0 <= b < 256 -> is_bytes (replicate n b).
Proof. intros. by apply Forall_replicate. Qed.
#[export] Hint Resolve is_bytes_take is_bytes_drop le_bytes_bytes : bytes.
