(* ===== verification/Block.v ===== *)
(** Block devices (devices/block.c) and partitions (devices/partition.c): the device list, roles,
    bounds-checked sector access through a chain of drivers, and the partition-table scan. *)
From S2P Require Import Prelude Palloc KString KStdlib Stdio Endian.

(** * Definitions *)

Definition BLOCK_SECTOR_SIZE : Z := 512.

Inductive block_type :=
  | BLOCK_KERNEL | BLOCK_FILESYS | BLOCK_SCRATCH | BLOCK_SWAP | BLOCK_RAW | BLOCK_FOREIGN.
#[export] Instance block_type_eq_dec : EqDecision block_type.
Proof. solve_decision. Defined.

Definition is_role (type : block_type) : bool :=
  match type with BLOCK_RAW | BLOCK_FOREIGN => false | _ => true end.
#[local] Notation BLOCK_ROLE_CNT := is_role (only parsing).

Definition block_type_name (type : block_type) : string :=
  match type with
  | BLOCK_KERNEL => "kernel"
  | BLOCK_FILESYS => "filesys"
  | BLOCK_SCRATCH => "scratch"
  | BLOCK_SWAP => "swap"
  | BLOCK_RAW => "raw"
  | BLOCK_FOREIGN => "foreign"
  end.

(** Devices are never freed and are appended to the list, so a [struct block *] is the device's
    position in the list of all devices. *)
Abbreviation block_ptr := nat (only parsing).

Record partition := mk_partition { p_block : block_ptr; p_start : Z }.

(** The driver operations with their auxiliary data: an IDE disk, or a partition. *)
Inductive block_ops :=
  | ide_operations (disk : nat)
  | partition_operations (p : partition).

Record block := mk_block {
  name : list Z;
  b_type : block_type;
  b_size : Z;
  ops : block_ops;
  read_cnt : Z;
  write_cnt : Z }.

Abbreviation sector := (list Z) (only parsing).

(** The state: the device list, the roles, the sectors of the disks (hardware), the answers of the
    next calls of [malloc] (success once the list is used up), and the calls of [printf], latest
    first. *)
Record devices := mk_devices {
  all_blocks : list block;
  block_by_role : block_type -> option block_ptr;
  disks : list (list sector);
  mallocs : list bool;
  console : list (string * list (arg Empty_set)) }.

Definition set_blocks (s : devices) (l : list block) : devices :=
  mk_devices l (block_by_role s) (disks s) (mallocs s) (console s).
Definition set_disks (s : devices) (l : list (list sector)) : devices :=
  mk_devices (all_blocks s) (block_by_role s) l (mallocs s) (console s).
Definition printk (s : devices) (format : string) (args : list (arg Empty_set)) : devices :=
  mk_devices (all_blocks s) (block_by_role s) (disks s) (mallocs s) ((format, args) :: console s).
Definition line (format : string) : string := format ++ String (Ascii.ascii_of_nat 10) EmptyString.
Definition print_human_readable_size (s : devices) (size : Z) : outcome devices :=
  if size =? 1 then Ret (printk s "1 byte" [])
  else
    let? (size, factor) := human_factor size factors in
    Ret (printk s "%llu %s" [Arg64 size; ArgStr (Some factor)]).
Definition malloc (s : devices) : bool * devices :=
  match mallocs s with
  | [] => (true, s)
  | ok :: l => (ok, mk_devices (all_blocks s) (block_by_role s) (disks s) l (console s))
  end.

Definition block_get_role (s : devices) (role : block_type) : outcome (option block_ptr) :=
  assert? BLOCK_ROLE_CNT role in Ret (block_by_role s role).
Definition block_set_role (s : devices) (role : block_type) (b : option block_ptr) : outcome devices :=
  assert? BLOCK_ROLE_CNT role in
  Ret (mk_devices (all_blocks s) (fun r => if decide (r = role) then b else block_by_role s r)
         (disks s) (mallocs s) (console s)).

(** The end of the list is a null pointer. *)
Definition list_elem_to_block (s : devices) (list_elem : nat) : option block_ptr :=
  if decide (list_elem < length (all_blocks s))%nat then Some list_elem else None.
Definition block_first (s : devices) : option block_ptr := list_elem_to_block s 0.
Definition block_next (s : devices) (b : block_ptr) : outcome (option block_ptr) :=
  let? _ := deref (all_blocks s !! b) in Ret (list_elem_to_block s (S b)).

Definition block_get_by_name (s : devices) (nm : list Z) : option block_ptr :=
  fst <$> list_find (fun b => name b = nm) (all_blocks s).

Definition block_size (s : devices) (b : block_ptr) : outcome Z :=
  let? blk := deref (all_blocks s !! b) in Ret (b_size blk).
Definition block_name (s : devices) (b : block_ptr) : outcome (list Z) :=
  let? blk := deref (all_blocks s !! b) in Ret (name blk).

Definition check_sector {A} (blk : block) (sec : Z) (k : outcome A) : outcome A :=
  if b_size blk <=? sec then Panic else k.

Definition count_read (s : devices) (b : block_ptr) : outcome devices :=
  let? blk := deref (all_blocks s !! b) in
  Ret (set_blocks s (<[b := mk_block (name blk) (b_type blk) (b_size blk) (ops blk)
                               (u64 (read_cnt blk + 1)) (write_cnt blk)]> (all_blocks s))).
Definition count_write (s : devices) (b : block_ptr) : outcome devices :=
  let? blk := deref (all_blocks s !! b) in
  Ret (set_blocks s (<[b := mk_block (name blk) (b_type blk) (b_size blk) (ops blk)
                               (read_cnt blk) (u64 (write_cnt blk + 1))]> (all_blocks s))).

(** The transfer of one sector, which stands for the driver of the disk hardware (ide.c, not modelled). *)
Definition disk_read (s : devices) (disk : nat) (sec : Z) : outcome sector :=
  let? d := deref (disks s !! disk) in aread d sec.
Definition disk_write (s : devices) (disk : nat) (sec : Z) (data : sector) : outcome devices :=
  let? d := deref (disks s !! disk) in
  let? d := aset d sec data in
  Ret (set_disks s (<[disk := d]> (disks s))).

Definition partition_read (block_read : devices -> block_ptr -> Z -> outcome (devices * sector))
    (s : devices) (p : partition) (sec : Z) : outcome (devices * sector) :=
  block_read s (p_block p) (u32 (p_start p + sec)).
Definition partition_write (block_write : devices -> block_ptr -> Z -> sector -> outcome devices)
    (s : devices) (p : partition) (sec : Z) (data : sector) : outcome devices :=
  block_write s (p_block p) (u32 (p_start p + sec)) data.

(** The fuel bounds the depth of nesting of partitions. *)
Fixpoint block_read (fuel : nat) (s : devices) (b : block_ptr) (sec : Z) : outcome (devices * sector) :=
  match fuel with
  | O => NoFuel
  | S fuel =>
      let? blk := deref (all_blocks s !! b) in
      check_sector blk sec (
      let? (s, data) :=
        match ops blk with
        | ide_operations disk => let? data := disk_read s disk sec in Ret (s, data)
        | partition_operations p => partition_read (block_read fuel) s p sec
        end in
      let? s := count_read s b in
      Ret (s, data))
  end.

Fixpoint block_write (fuel : nat) (s : devices) (b : block_ptr) (sec : Z) (data : sector)
    : outcome devices :=
  match fuel with
  | O => NoFuel
  | S fuel =>
      let? blk := deref (all_blocks s !! b) in
      check_sector blk sec (
      assert? negb (bool_decide (b_type blk = BLOCK_FOREIGN)) in
      let? s :=
        match ops blk with
        | ide_operations disk => disk_write s disk sec data
        | partition_operations p => partition_write (block_write fuel) s p sec data
        end in
      count_write s b)
  end.

Definition block_register (s : devices) (nm : list Z) (type : block_type) (extra_info : option (list Z))
    (size : Z) (o : block_ops) : outcome (devices * block_ptr) :=
  let '(ok, s) := malloc s in
  if negb ok then Panic
  else
    let b := length (all_blocks s) in
    let nm := take 15 nm in
    let s := set_blocks s (all_blocks s ++ [mk_block nm type size o 0 0]) in
    let s := printk s "%s: %'u sectors (" [ArgStr (Some nm); Arg32 size] in
    let? s := print_human_readable_size s (u64 (size * BLOCK_SECTOR_SIZE)) in
    let s := printk s ")" [] in
    let s := match extra_info with
             | Some info => printk s ", %s" [ArgStr (Some info)]
             | None => s
             end in
    Ret (printk s (line "") [], b).

(** The statistics are printed for the roles in order. *)
Definition roles : list block_type := [BLOCK_KERNEL; BLOCK_FILESYS; BLOCK_SCRATCH; BLOCK_SWAP].
Definition print_stats_of (s : devices) (role : block_type) : outcome devices :=
  match block_by_role s role with
  | None => Ret s
  | Some b =>
      let? blk := deref (all_blocks s !! b) in
      Ret (printk s (line "%s (%s): %llu reads, %llu writes")
             [ArgStr (Some (name blk)); ArgStr (Some (chars (block_type_name (b_type blk))));
              Arg64 (read_cnt blk); Arg64 (write_cnt blk)])
  end.
Definition block_print_stats (s : devices) : outcome devices :=
  fold_left (fun s role => let? s := s in print_stats_of s role) roles (Ret s).

(** ** Partition tables (partition.c) *)

Record partition_table_entry := mk_pte { e_type : Z; e_offset : Z; e_size : Z }.
(** The packed entry of 16 bytes; the boot flag and the cylinder-head-sector addresses are not used. *)
Definition decode_entry (l : list Z) : partition_table_entry :=
  mk_pte (le_value (field l 4 1)) (le_value (field l 8 4)) (le_value (field l 12 4)).
Definition pt_partitions (pt : sector) : list partition_table_entry :=
  map (fun i => decode_entry (field pt (446 + 16 * i) 16)) [0; 1; 2; 3]%nat.
Definition pt_signature (pt : sector) : Z := le_value (field pt 510 2).

Definition is_extended (type : Z) : bool :=
  (type =? 0x05) || (type =? 0x0f) || (type =? 0x85) || (type =? 0xc5).

Definition partition_block_type (part_type : Z) : block_type :=
  if part_type =? 0x20 then BLOCK_KERNEL
  else if part_type =? 0x21 then BLOCK_FILESYS
  else if part_type =? 0x22 then BLOCK_SCRATCH
  else if part_type =? 0x23 then BLOCK_SWAP
  else BLOCK_FOREIGN.

Definition type_names : list (Z * string) :=
  [ (0x00, "Empty"); (0x01, "FAT12"); (0x02, "XENIX root"); (0x03, "XENIX usr");
    (0x04, "FAT16 <32M"); (0x05, "Extended"); (0x06, "FAT16"); (0x07, "HPFS/NTFS");
    (0x08, "AIX"); (0x09, "AIX bootable"); (0x0a, "OS/2 Boot Manager"); (0x0b, "W95 FAT32");
    (0x0c, "W95 FAT32 (LBA)"); (0x0e, "W95 FAT16 (LBA)"); (0x0f, "W95 Ext'd (LBA)");
    (0x10, "OPUS"); (0x11, "Hidden FAT12"); (0x12, "Compaq diagnostics");
    (0x14, "Hidden FAT16 <32M"); (0x16, "Hidden FAT16"); (0x17, "Hidden HPFS/NTFS");
    (0x18, "AST SmartSleep"); (0x1b, "Hidden W95 FAT32"); (0x1c, "Hidden W95 FAT32 (LBA)");
    (0x1e, "Hidden W95 FAT16 (LBA)"); (0x20, "Pintos OS kernel"); (0x21, "Pintos file system");
    (0x22, "Pintos scratch"); (0x23, "Pintos swap"); (0x24, "NEC DOS"); (0x39, "Plan 9");
    (0x3c, "PartitionMagic recovery"); (0x40, "Venix 80286"); (0x41, "PPC PReP Boot");
    (0x42, "SFS"); (0x4d, "QNX4.x"); (0x4e, "QNX4.x 2nd part"); (0x4f, "QNX4.x 3rd part");
    (0x50, "OnTrack DM"); (0x51, "OnTrack DM6 Aux1"); (0x52, "CP/M");
    (0x53, "OnTrack DM6 Aux3"); (0x54, "OnTrackDM6"); (0x55, "EZ-Drive");
    (0x56, "Golden Bow"); (0x5c, "Priam Edisk"); (0x61, "SpeedStor");
    (0x63, "GNU HURD or SysV"); (0x64, "Novell Netware 286"); (0x65, "Novell Netware 386");
    (0x70, "DiskSecure Multi-Boot"); (0x75, "PC/IX"); (0x80, "Old Minix");
    (0x81, "Minix / old Linux"); (0x82, "Linux swap / Solaris"); (0x83, "Linux");
    (0x84, "OS/2 hidden C: drive"); (0x85, "Linux extended"); (0x86, "NTFS volume set");
    (0x87, "NTFS volume set"); (0x88, "Linux plaintext"); (0x8e, "Linux LVM");
    (0x93, "Amoeba"); (0x94, "Amoeba BBT"); (0x9f, "BSD/OS");
    (0xa0, "IBM Thinkpad hibernation"); (0xa5, "FreeBSD"); (0xa6, "OpenBSD");
    (0xa7, "NeXTSTEP"); (0xa8, "Darwin UFS"); (0xa9, "NetBSD"); (0xab, "Darwin boot");
    (0xb7, "BSDI fs"); (0xb8, "BSDI swap"); (0xbb, "Boot Wizard hidden");
    (0xbe, "Solaris boot"); (0xbf, "Solaris"); (0xc1, "DRDOS/sec (FAT-12)");
    (0xc4, "DRDOS/sec (FAT-16 < 32M)"); (0xc6, "DRDOS/sec (FAT-16)"); (0xc7, "Syrinx");
    (0xda, "Non-FS data"); (0xdb, "CP/M / CTOS / ..."); (0xde, "Dell Utility");
    (0xdf, "BootIt"); (0xe1, "DOS access"); (0xe3, "DOS R/O"); (0xe4, "SpeedStor");
    (0xeb, "BeOS fs"); (0xee, "EFI GPT"); (0xef, "EFI (FAT-12/16/32)");
    (0xf0, "Linux/PA-RISC boot"); (0xf1, "SpeedStor"); (0xf4, "SpeedStor");
    (0xf2, "DOS secondary"); (0xfd, "Linux raid autodetect"); (0xfe, "LANstep"); (0xff, "BBT") ].
Definition partition_type_name (type : Z) : string :=
  match list_find (fun e => e.1 = type) type_names with
  | Some (_, (_, s)) => s
  | None => "Unknown"
  end.

(** [snprintf] into a [char] array of [size] bytes, as the string stored there. *)
Definition snprintf_str (size : nat) (format : string) (args : list (arg Empty_set)) : outcome (list Z) :=
  let? out := kvprintf (chars format) args in Ret (take (size - 1) out).

Definition found_partition (s : devices) (b : block_ptr) (part_type start size part_nr : Z)
    : outcome devices :=
  let? bsize := block_size s b in
  let? bname := block_name s b in
  if bsize <=? start then
    Ret (printk s (line "%s%d: Partition starts past end of device (sector %u)")
           [ArgStr (Some bname); Arg32 part_nr; Arg32 start])
  else if (u32 (start + size) <? start) || (bsize <? u32 (start + size)) then
    Ret (printk s (line "%s%d: Partition end (%u) past end of device (%u)")
           [ArgStr (Some bname); Arg32 part_nr; Arg32 (u32 (start + size)); Arg32 bsize])
  else
    let type := partition_block_type part_type in
    let '(ok, s) := malloc s in
    if negb ok then Panic
    else
      let? nm := snprintf_str 16 "%s%d" [ArgStr (Some bname); Arg32 part_nr] in
      let? extra_info := snprintf_str 128 "%s (%02x)"
        [ArgStr (Some (chars (partition_type_name part_type))); Arg32 part_type] in
      let? (s, _) := block_register s nm type (Some extra_info) size
        (partition_operations (mk_partition b start)) in
      Ret s.

(** The loop over the entries of a table; [read_table] is the recursive call. *)
Fixpoint parse_partitions (read_table : devices -> Z -> Z -> Z -> outcome (devices * Z)) (b : block_ptr)
    (bname : list Z) (sec primary_extended_sector : Z) (entries : list partition_table_entry)
    (s : devices) (part_nr : Z) : outcome (devices * Z) :=
  match entries with
  | [] => Ret (s, part_nr)
  | e :: entries =>
      let? (s, part_nr) :=
        (if (e_size e =? 0) || (e_type e =? 0) then Ret (s, part_nr)
         else if is_extended (e_type e) then
           let s := printk s (line "%s: Extended partition in sector %u")
                      [ArgStr (Some bname); Arg32 sec] in
           if sec =? 0 then read_table s (e_offset e) (e_offset e) part_nr
           else read_table s (u32 (e_offset e + primary_extended_sector)) primary_extended_sector part_nr
         else
           let? part_nr := int_ (part_nr + 1) in
           let? s := found_partition s b (e_type e) (u32 (e_offset e + sec)) (e_size e) part_nr in
           Ret (s, part_nr)) in
      parse_partitions read_table b bname sec primary_extended_sector entries s part_nr
  end.

(** [depth] is the fuel of sector reads.  The table of the requested sector is always read from
    sector 0 of the device. *)
Fixpoint read_partition_table (fuel depth : nat) (s : devices) (b : block_ptr)
    (sec primary_extended_sector part_nr : Z) : outcome (devices * Z) :=
  match fuel with
  | O => NoFuel
  | S fuel =>
      let? bsize := block_size s b in
      let? bname := block_name s b in
      if bsize <=? sec then
        Ret (printk s (line "%s: Partition table at sector %u past end of device.")
               [ArgStr (Some bname); Arg32 sec], part_nr)
      else
        let '(ok, s) := malloc s in
        if negb ok then Panic
        else
          let? (s, pt) := block_read depth s b 0 in
          if negb (pt_signature pt =? 0xaa55) then
            Ret (if primary_extended_sector =? 0
                 then printk s (line "%s: Invalid partition table signature") [ArgStr (Some bname)]
                 else printk s (line "%s: Invalid extended partition table in sector %u")
                        [ArgStr (Some bname); Arg32 sec], part_nr)
          else
            parse_partitions (fun s => read_partition_table fuel depth s b) b bname sec
              primary_extended_sector (pt_partitions pt) s part_nr
  end.

Definition partition_scan (fuel depth : nat) (s : devices) (b : block_ptr) : outcome devices :=
  let? (s, part_nr) := read_partition_table fuel depth s b 0 0 0 in
  if part_nr =? 0 then
    let? bname := block_name s b in
    Ret (printk s (line "%s: Device contains no partitions") [ArgStr (Some bname)])
  else Ret s.

(** * Specification *)

(** What does not change once a device is registered. *)
Definition shape (b : block) : list Z * block_type * Z * block_ops := (name b, b_type b, b_size b, ops b).
Definition shapes (s : devices) := map shape (all_blocks s).

(** The first sector of a device on its disk. *)
Fixpoint extent (fuel : nat) (s : devices) (b : block_ptr) : option (nat * Z) :=
  match fuel with
  | O => None
  | S fuel =>
      match ops <$> all_blocks s !! b with
      | Some (ide_operations disk) => Some (disk, 0)
      | Some (partition_operations p) =>
          match extent fuel s (p_block p) with
          | Some (disk, ofs) => Some (disk, ofs + p_start p)
          | None => None
          end
      | None => None
      end
  end.

(** No device of the chain below [b] is foreign. *)
Fixpoint writable (fuel : nat) (s : devices) (b : block_ptr) : bool :=
  match fuel with
  | O => false
  | S fuel =>
      match all_blocks s !! b with
      | Some blk =>
          negb (bool_decide (b_type blk = BLOCK_FOREIGN)) &&
          match ops blk with
          | ide_operations _ => true
          | partition_operations p => writable fuel s (p_block p)
          end
      | None => false
      end
  end.

Definition sector_ok (d : sector) : Prop := length d = 512%nat /\ is_bytes d.

(** Disks are as large as their devices say, partitions lie inside an earlier device. *)
Definition block_ok (s : devices) (b : block_ptr) (blk : block) : Prop :=
  0 <= b_size blk < 2 ^ 32 /\
  match ops blk with
  | ide_operations disk => exists d, disks s !! disk = Some d /\ b_size blk <= Z.of_nat (length d)
  | partition_operations p =>
      (p_block p < b)%nat /\ 0 <= p_start p /\
      exists parent, all_blocks s !! p_block p = Some parent /\ p_start p + b_size blk <= b_size parent
  end.
Definition devices_ok (s : devices) : Prop :=
  (forall b blk, all_blocks s !! b = Some blk -> block_ok s b blk) /\ Forall (Forall sector_ok) (disks s).

(** The device as an array of sectors. *)
Definition view (s : devices) (b : block_ptr) : list sector :=
  match extent (S b) s b, all_blocks s !! b with
  | Some (disk, ofs), Some blk =>
      take (Z.to_nat (b_size blk)) (drop (Z.to_nat ofs) (default [] (disks s !! disk)))
  | _, _ => []
  end.

(** * Lemmas *)

(** The changes a sector access makes to the bookkeeping. *)
Definition quiet (s s' : devices) : Prop :=
  shapes s' = shapes s /\ block_by_role s' = block_by_role s /\ mallocs s' = mallocs s /\
  console s' = console s.

Lemma quiet_refl s : quiet s s.
Proof. done. Qed.
Lemma quiet_trans s1 s2 s3 : quiet s1 s2 -> quiet s2 s3 -> quiet s1 s3.
Proof. intros (? & ? & ? & ?) (? & ? & ? & ?). unfold quiet. split_and!; congruence. Qed.

Lemma shapes_lookup s s' b blk : shapes s' = shapes s -> all_blocks s !! b = Some blk ->
  exists blk', all_blocks s' !! b = Some blk' /\ shape blk' = shape blk.
Proof.
  intros H Hb. apply (f_equal (fun l => l !! b)) in H. unfold shapes in H.
  rewrite !list_lookup_fmap, Hb in H. cbn in H. apply fmap_Some in H as (blk' & Hb' & H). eauto.
Qed.

Lemma shapes_none s s' b : shapes s' = shapes s -> all_blocks s !! b = None -> all_blocks s' !! b = None.
Proof.
  intros H Hb. apply (f_equal (fun l => l !! b)) in H. unfold shapes in H.
  rewrite !list_lookup_fmap, Hb in H. cbn in H. by apply fmap_None in H.
Qed.

Lemma extent_shapes s s' fuel : shapes s' = shapes s -> forall b, extent fuel s' b = extent fuel s b.
Proof.
  intros H. induction fuel as [|fuel IH]; intros b; [done|]; cbn [extent writable].
  destruct (all_blocks s !! b) as [blk|] eqn:Hb.
  - destruct (shapes_lookup s s' b blk H Hb) as (blk' & -> & [= _ _ _ Ho]). cbn. rewrite Ho.
    destruct (ops blk); [done|]. by rewrite IH.
  - by rewrite (shapes_none s s' b H Hb).
Qed.

Lemma writable_shapes s s' fuel : shapes s' = shapes s -> forall b, writable fuel s' b = writable fuel s b.
Proof.
  intros H. induction fuel as [|fuel IH]; intros b; [done|]; cbn [extent writable].
  destruct (all_blocks s !! b) as [blk|] eqn:Hb.
  - destruct (shapes_lookup s s' b blk H Hb) as (blk' & -> & [= _ -> _ ->]).
    destruct (ops blk); [done|]. by rewrite IH.
  - by rewrite (shapes_none s s' b H Hb).
Qed.

Lemma devices_ok_shapes s s' : devices_ok s -> shapes s' = shapes s ->
  Forall2 (fun d' d => length d' = length d) (disks s') (disks s) -> Forall (Forall sector_ok) (disks s') ->
  devices_ok s'.
Proof.
  intros [Hb Hd] Hs Hl Hok. split; [|done]. intros b blk' Hlk.
  destruct (shapes_lookup s' s b blk') as (blk & Hlk' & [= _ _ Hsz Hops]); [by symmetry|done|].
  destruct (Hb b blk Hlk') as [Hr Ho]. split; [congruence|]. rewrite <- Hops. destruct (ops blk).
  - destruct Ho as (d & Hd1 & Hd2). destruct (Forall2_lookup_r _ _ _ _ _ Hl Hd1) as (d' & Hd1' & Hlen).
    exists d'. split; [done|]. lia.
  - destruct Ho as (Hlt & Hst & parent & Hp & Hfit). split; [done|]. split; [done|].
    destruct (shapes_lookup s s' _ parent Hs Hp) as (parent' & Hp' & [= _ _ Hsp _]). exists parent'. split; [done|]. lia.
Qed.

Lemma extent_ok s fuel : devices_ok s -> forall b blk, all_blocks s !! b = Some blk -> (b < fuel)%nat ->
  exists disk ofs d, extent fuel s b = Some (disk, ofs) /\ disks s !! disk = Some d /\
    0 <= ofs /\ ofs + b_size blk <= Z.of_nat (length d).
Proof.
  intros [Hok _]. induction fuel as [|fuel IH]; intros b blk Hb Hf; [lia|]. cbn [extent]. rewrite Hb.
  destruct (Hok b blk Hb) as [Hr Ho]. cbn. destruct (ops blk) as [disk|p].
  - destruct Ho as (d & Hd & Hlen). exists disk, 0, d. split_and!; [done|done|lia|lia].
  - destruct Ho as (Hlt & Hst & parent & Hp & Hfit).
    destruct (IH (p_block p) parent Hp ltac:(lia)) as (disk & ofs & d & -> & Hd & Ho1 & Ho2).
    exists disk, (ofs + p_start p), d. split_and!; [done|done|lia|lia].
Qed.

Lemma extent_fuel s : devices_ok s -> forall f1 f2 b, (b < f1)%nat -> (b < f2)%nat ->
  extent f1 s b = extent f2 s b.
Proof.
  intros [Hok _]. induction f1 as [|f1 IH]; intros [|f2] b H1 H2; try lia. cbn [extent].
  destruct (all_blocks s !! b) as [blk|] eqn:Hb; cbn; [|done]. destruct (Hok b blk Hb) as [_ Ho].
  destruct (ops blk) as [|p]; [done|]. destruct Ho as (Hlt & _). by rewrite (IH f2) by lia.
Qed.

Lemma count_read_Ret s b blk : all_blocks s !! b = Some blk ->
  exists s', count_read s b = Ret s' /\ quiet s s' /\ disks s' = disks s.
Proof.
  intros Hb. unfold count_read. rewrite Hb. cbn. eexists. split; [done|]. split; [|done].
  split_and!; try done. unfold shapes. cbn. rewrite list_fmap_insert. apply list_insert_id.
  by rewrite list_lookup_fmap, Hb.
Qed.

Lemma count_write_Ret s b blk : all_blocks s !! b = Some blk ->
  exists s', count_write s b = Ret s' /\ quiet s s' /\ disks s' = disks s.
Proof.
  intros Hb. unfold count_write. rewrite Hb. cbn. eexists. split; [done|]. split; [|done].
  split_and!; try done. unfold shapes. cbn. rewrite list_fmap_insert. apply list_insert_id.
  by rewrite list_lookup_fmap, Hb.
Qed.

Lemma block_read_panic fuel s b blk sec : all_blocks s !! b = Some blk -> b_size blk <= sec ->
  block_read (S fuel) s b sec = Panic.
Proof.
  intros Hb H. cbn [block_read]. rewrite Hb. cbn. unfold check_sector.
  by replace (b_size blk <=? sec) with true by lia.
Qed.

Lemma block_write_panic fuel s b blk sec data : all_blocks s !! b = Some blk -> b_size blk <= sec ->
  block_write (S fuel) s b sec data = Panic.
Proof.
  intros Hb H. cbn [block_write]. rewrite Hb. cbn. unfold check_sector.
  by replace (b_size blk <=? sec) with true by lia.
Qed.

Lemma block_read_Ret s fuel : devices_ok s -> forall b blk sec,
  all_blocks s !! b = Some blk -> (b < fuel)%nat -> 0 <= sec < b_size blk ->
  exists disk ofs d data s',
    extent fuel s b = Some (disk, ofs) /\ disks s !! disk = Some d /\ aget d (ofs + sec) = Some data /\
    block_read fuel s b sec = Ret (s', data) /\ quiet s s' /\ disks s' = disks s.
Proof.
  intros Hok. induction fuel as [|fuel IH]; intros b blk sec Hb Hf Hsec; [lia|].
  destruct (extent_ok s (S fuel) Hok b blk Hb Hf) as (disk & ofs & d & He & Hd & Ho1 & Ho2).
  exists disk, ofs, d. destruct (aget_is_Some d (ofs + sec)) as [data Hdata]; [lia|]. exists data.
  pose proof He as He'. cbn [extent] in He'. rewrite Hb in He'. cbn in He'.
  cbn [block_read]. rewrite Hb. cbn [deref obind]. unfold check_sector.
  replace (b_size blk <=? sec) with false by lia. destruct (proj1 Hok b blk Hb) as [Hr Hdrv].
  destruct (ops blk) as [disk0|p].
  - injection He' as <- <-. unfold disk_read. rewrite Hd. cbn [deref obind]. unfold aread.
    rewrite Z.add_0_l in Hdata |- *. rewrite Hdata. cbn [deref obind].
    destruct (count_read_Ret s b blk Hb) as (s' & -> & Hq & Hds). exists s'. by split_and!.
  - destruct Hdrv as (Hlt & Hst & parent & Hp & Hfit). destruct (proj1 Hok _ _ Hp) as [Hpr _].
    unfold partition_read. rewrite u32_small by lia.
    destruct (IH (p_block p) parent (p_start p + sec) Hp ltac:(lia) ltac:(lia))
      as (disk1 & ofs1 & d1 & data1 & s1 & He1 & Hd1 & Hg1 & -> & Hq1 & Hds1).
    rewrite He1 in He'. injection He' as <- <-. rewrite Hd in Hd1. injection Hd1 as <-.
    rewrite Z.add_assoc, Hdata in Hg1. injection Hg1 as <-. cbn [obind].
    destruct (shapes_lookup s s1 b blk (proj1 Hq1) Hb) as (blk1 & Hb1 & _).
    destruct (count_read_Ret s1 b blk1 Hb1) as (s' & -> & Hq & Hds). exists s'.
    split_and!; [done..|by eapply quiet_trans|congruence].
Qed.

Lemma block_write_Ret s fuel data : devices_ok s -> forall b blk sec,
  all_blocks s !! b = Some blk -> (b < fuel)%nat -> 0 <= sec < b_size blk ->
  exists disk ofs d,
    extent fuel s b = Some (disk, ofs) /\ disks s !! disk = Some d /\
    if writable fuel s b then
      exists s', block_write fuel s b sec data = Ret s' /\ quiet s s' /\
        disks s' = <[disk := <[Z.to_nat (ofs + sec) := data]> d]> (disks s)
    else block_write fuel s b sec data = Panic.
Proof.
  intros Hok. induction fuel as [|fuel IH]; intros b blk sec Hb Hf Hsec; [lia|].
  destruct (extent_ok s (S fuel) Hok b blk Hb Hf) as (disk & ofs & d & He & Hd & Ho1 & Ho2).
  exists disk, ofs, d. split; [done|]. split; [done|].
  cbn [extent] in He. rewrite Hb in He. cbn in He.
  cbn [block_write writable]. rewrite Hb. cbn [deref obind]. unfold check_sector.
  replace (b_size blk <=? sec) with false by lia. destruct (proj1 Hok b blk Hb) as [Hr Hdrv].
  destruct (bool_decide (b_type blk = BLOCK_FOREIGN)); cbn [negb andb]; [done|].
  destruct (ops blk) as [disk0|p].
  - injection He as <- <-. unfold disk_write. rewrite Hd. cbn [deref obind]. rewrite Z.add_0_l.
    rewrite (proj2 (aset_Ret d _ sec data)) by (split; [lia|reflexivity]). cbn [obind].
    destruct (count_write_Ret (set_disks s (<[disk0 := <[Z.to_nat sec := data]> d]> (disks s))) b blk Hb)
      as (s' & -> & Hq & Hds). exists s'. by split_and!.
  - destruct Hdrv as (Hlt & Hst & parent & Hp & Hfit). destruct (proj1 Hok _ _ Hp) as [Hpr _].
    unfold partition_write. rewrite u32_small by lia.
    destruct (IH (p_block p) parent (p_start p + sec) Hp ltac:(lia) ltac:(lia))
      as (disk1 & ofs1 & d1 & He1 & Hd1 & Hw).
    rewrite He1 in He. injection He as <- <-. rewrite Hd in Hd1. injection Hd1 as <-.
    destruct (writable fuel s (p_block p)); [|by rewrite Hw].
    destruct Hw as (s1 & -> & Hq1 & Hds1). cbn [obind].
    destruct (shapes_lookup s s1 b blk (proj1 Hq1) Hb) as (blk1 & Hb1 & _).
    destruct (count_write_Ret s1 b blk1 Hb1) as (s' & -> & Hq & Hds). exists s'.
    split; [done|]. split; [by eapply quiet_trans|]. rewrite Hds, Hds1. by rewrite Z.add_assoc.
Qed.

Lemma view_eq s b blk disk ofs d :
  all_blocks s !! b = Some blk -> extent (S b) s b = Some (disk, ofs) -> disks s !! disk = Some d ->
  view s b = take (Z.to_nat (b_size blk)) (drop (Z.to_nat ofs) d).
Proof. intros Hb He Hd. unfold view. by rewrite He, Hb, Hd. Qed.

Lemma view_same_disks s s' b : shapes s' = shapes s -> disks s' = disks s -> view s' b = view s b.
Proof.
  intros Hs Hd. unfold view. rewrite (extent_shapes s s' _ Hs), Hd.
  destruct (extent (S b) s b) as [[disk ofs]|]; [|done].
  destruct (all_blocks s !! b) as [blk|] eqn:Hb.
  - destruct (shapes_lookup s s' b blk Hs Hb) as (blk' & -> & [= _ _ -> _]). done.
  - by rewrite (shapes_none s s' b Hs Hb).
Qed.

Lemma view_length s b blk : devices_ok s -> all_blocks s !! b = Some blk ->
  Z.of_nat (length (view s b)) = b_size blk.
Proof.
  intros Hok Hb. destruct (extent_ok s (S b) Hok b blk Hb ltac:(lia)) as (disk & ofs & d & He & Hd & H1 & H2).
  destruct (proj1 Hok b blk Hb) as [Hr _].
  rewrite (view_eq s b blk disk ofs d Hb He Hd), length_take, length_drop. lia.
Qed.

(** No sector of [b] is a sector of [b']. *)
Definition disjoint_devices (s : devices) (b b' : block_ptr) : Prop :=
  forall disk ofs blk ofs' blk',
    extent (S b) s b = Some (disk, ofs) -> all_blocks s !! b = Some blk ->
    extent (S b') s b' = Some (disk, ofs') -> all_blocks s !! b' = Some blk' ->
    ofs + b_size blk <= ofs' \/ ofs' + b_size blk' <= ofs.

Lemma view_write s s' b blk sec data disk ofs d :
  devices_ok s -> all_blocks s !! b = Some blk -> extent (S b) s b = Some (disk, ofs) ->
  disks s !! disk = Some d -> 0 <= sec < b_size blk -> 0 <= ofs -> ofs + b_size blk <= Z.of_nat (length d) ->
  shapes s' = shapes s -> disks s' = <[disk := <[Z.to_nat (ofs + sec) := data]> d]> (disks s) ->
  view s' b = <[Z.to_nat sec := data]> (view s b) /\
  (forall b', disjoint_devices s b b' -> view s' b' = view s b').
Proof.
  intros Hok Hb He Hd Hsec Ho1 Ho2 Hs Hds.
  assert (Hd' : disks s' !! disk = Some (<[Z.to_nat (ofs + sec) := data]> d)).
  { rewrite Hds. apply list_lookup_insert_eq. by eapply lookup_lt_Some. }
  destruct (shapes_lookup s s' b blk Hs Hb) as (blk' & Hb' & [= _ _ Hsz _]).
  split.
  - rewrite (view_eq s b blk disk ofs d), (view_eq s' b blk' disk ofs _ Hb'
      (eq_trans (extent_shapes s s' _ Hs b) He) Hd') by done.
    rewrite drop_insert_ge, take_insert_lt by lia. do 2 f_equal; [lia|congruence].
  - intros b' Hdis. unfold view. rewrite (extent_shapes s s' _ Hs).
    destruct (extent (S b') s b') as [[disk' ofs']|] eqn:He'; [|done].
    destruct (all_blocks s !! b') as [blk2|] eqn:Hb2.
    2: by rewrite (shapes_none s s' b' Hs Hb2).
    destruct (shapes_lookup s s' b' blk2 Hs Hb2) as (blk2' & -> & [= _ _ -> _]).
    destruct (decide (disk' = disk)) as [->|Hne].
    2: by rewrite Hds, list_lookup_insert_ne by done.
    rewrite Hd', Hd. cbn. destruct (extent_ok s (S b') Hok b' blk2 Hb2 ltac:(lia)) as (? & ? & d2 & E1 & E2 & H1 & H2).
    rewrite He' in E1. injection E1 as <- <-. destruct (Hdis disk ofs blk ofs' blk2 He Hb He' Hb2) as [H|H].
    + by rewrite drop_insert_lt by lia.
    + destruct (proj1 Hok b' blk2 Hb2) as [Hr _].
      rewrite drop_insert_ge, take_insert_ge by lia. done.
Qed.

Lemma view_lookup s b blk disk ofs d sec data :
  all_blocks s !! b = Some blk -> extent (S b) s b = Some (disk, ofs) -> disks s !! disk = Some d ->
  0 <= sec < b_size blk -> 0 <= ofs -> aget d (ofs + sec) = Some data ->
  view s b !! Z.to_nat sec = Some data.
Proof.
  intros Hb He Hd Hsec Ho Hg. rewrite (view_eq s b blk disk ofs d) by done.
  rewrite lookup_take_lt, lookup_drop by lia. unfold aget in Hg. replace (0 <=? ofs + sec) with true in Hg by lia.
  by replace (Z.to_nat ofs + Z.to_nat sec)%nat with (Z.to_nat (ofs + sec)) by lia.
Qed.

Lemma disks_insert_ok (ds : list (list sector)) disk d i data :
  Forall (Forall sector_ok) ds -> ds !! disk = Some d -> sector_ok data ->
  Forall2 (fun d' d => length d' = length d) (<[disk := <[i := data]> d]> ds) ds /\
  Forall (Forall sector_ok) (<[disk := <[i := data]> d]> ds).
Proof.
  intros Hok Hd Hs. split.
  - rewrite <- (list_insert_id ds disk d Hd) at 2. apply Forall2_insert; [|by rewrite length_insert].
    by apply Forall_Forall2_diag, Forall_true.
  - apply Forall_insert; [done|]. apply Forall_insert; [|done]. by eapply Forall_lookup_1 in Hd.
Qed.

Lemma block_access s fuel b blk sec :
  devices_ok s -> all_blocks s !! b = Some blk -> (b < fuel)%nat -> 0 <= sec < b_size blk ->
  (exists s' data, block_read fuel s b sec = Ret (s', data) /\ view s b !! Z.to_nat sec = Some data /\
     sector_ok data /\ devices_ok s' /\ quiet s s' /\ forall b', view s' b' = view s b') /\
  (forall data, writable fuel s b = true -> sector_ok data ->
     exists s', block_write fuel s b sec data = Ret s' /\ devices_ok s' /\ quiet s s' /\
       view s' b = <[Z.to_nat sec := data]> (view s b) /\
       forall b', disjoint_devices s b b' -> view s' b' = view s b') /\
  (forall data, writable fuel s b = false -> block_write fuel s b sec data = Panic).
Proof.
  intros Hok Hb Hf Hsec.
  destruct (extent_ok s fuel Hok b blk Hb ltac:(lia)) as (disk & ofs & d & He & Hd & Ho1 & Ho2).
  assert (He' : extent (S b) s b = Some (disk, ofs)) by (rewrite <- He; apply extent_fuel; [done|lia|lia]).
  split_and!.
  - destruct (block_read_Ret s fuel Hok b blk sec Hb ltac:(lia) Hsec)
      as (disk1 & ofs1 & d1 & data & s' & He1 & Hd1 & Hg & Hr & Hq & Hds).
    rewrite He in He1. injection He1 as <- <-. rewrite Hd in Hd1. injection Hd1 as <-.
    exists s', data. split; [done|]. split; [by eapply view_lookup|]. split_and!.
    + destruct Hok as [_ Hok]. eapply Forall_lookup_1 in Hd; [|exact Hok].
      unfold aget in Hg. destruct (0 <=? _); [|done]. by eapply Forall_lookup_1 in Hg.
    + apply (devices_ok_shapes s s' Hok (proj1 Hq)); rewrite Hds; [|by destruct Hok].
      by apply Forall_Forall2_diag, Forall_true.
    + done.
    + intros b'. by apply view_same_disks; [apply Hq|].
  - intros data Hw Hdata.
    destruct (block_write_Ret s fuel data Hok b blk sec Hb ltac:(lia) Hsec) as (disk1 & ofs1 & d1 & He1 & Hd1 & Hr).
    rewrite He in He1. injection He1 as <- <-. rewrite Hd in Hd1. injection Hd1 as <-. rewrite Hw in Hr.
    destruct Hr as (s' & Hr & Hq & Hds). exists s'. split; [done|].
    destruct (disks_insert_ok (disks s) disk d (Z.to_nat (ofs + sec)) data (proj2 Hok) Hd Hdata) as [H1 H2].
    rewrite <- Hds in H1, H2. split; [by apply (devices_ok_shapes s s' Hok (proj1 Hq))|]. split; [done|].
    by apply (view_write s s' b blk sec data disk ofs d); try done; apply Hq.
  - intros data Hw.
    destruct (block_write_Ret s fuel data Hok b blk sec Hb ltac:(lia) Hsec) as (disk1 & ofs1 & d1 & He1 & Hd1 & Hr).
    by rewrite Hw in Hr.
Qed.

(** ** Registering partitions *)

(** The partition described by a table entry lies inside a device of [bsize] sectors. *)
Definition entry_fits (bsize : Z) (e : partition_table_entry) : bool :=
  (e_offset e <? bsize) && (e_offset e + e_size e <=? bsize).

Definition entry_used (e : partition_table_entry) : bool := negb ((e_size e =? 0) || (e_type e =? 0)).

Definition entry_shape (b : block_ptr) (nm : list Z) (e : partition_table_entry) :=
  (nm, partition_block_type (e_type e), e_size e, partition_operations (mk_partition b (e_offset e))).

Definition entry_ok (e : partition_table_entry) : Prop :=
  0 <= e_type e < 256 /\ in_u32 (e_offset e) /\ in_u32 (e_size e).

Lemma extra_info_Ret t : 0 <= t < 256 -> exists l,
  snprintf_str 128 "%s (%02x)" [ArgStr (Some (chars (partition_type_name t))); Arg32 t] = Ret l.
Proof.
  assert (H : Forall (fun t => match snprintf_str 128 "%s (%02x)"
    [ArgStr (Some (chars (partition_type_name t))); Arg32 t] with Ret _ => true | _ => false end = true)
    (seqZ 0 256)) by by_compute.
  intros Ht. rewrite Forall_forall in H. specialize (H t (proj2 (elem_of_seqZ 0 256 t) ltac:(lia))).
  destruct (snprintf_str _ _ _) as [l| | |]; [by exists l|done..].
Qed.

Lemma print_size_Ret s size : exists s', print_human_readable_size s size = Ret s' /\
  all_blocks s' = all_blocks s /\ block_by_role s' = block_by_role s /\ disks s' = disks s /\
  mallocs s' = mallocs s.
Proof.
  unfold print_human_readable_size. destruct (size =? 1); [by eexists|].
  unfold factors. cbn [human_factor chars String.list_ascii_of_string map].
  repeat (destruct (1024 <=? _); cbn [obind]); by eexists.
Qed.

Lemma block_register_Ret s nm type info size o : mallocs s = [] ->
  exists s', block_register s nm type info size o = Ret (s', length (all_blocks s)) /\
    all_blocks s' = all_blocks s ++ [mk_block (take 15 nm) type size o 0 0] /\
    block_by_role s' = block_by_role s /\ disks s' = disks s /\ mallocs s' = [].
Proof.
  intros Hm. unfold block_register, malloc. rewrite Hm. cbn [negb].
  match goal with |- context [print_human_readable_size ?st ?sz] =>
    destruct (print_size_Ret st sz) as (s1 & -> & Ha & Hr & Hd & Hml) end. cbn [obind].
  eexists. split; [reflexivity|]. destruct info; cbn in *; split_and!; congruence.
Qed.

Lemma devices_ok_app s s' blk : devices_ok s -> all_blocks s' = all_blocks s ++ [blk] ->
  disks s' = disks s -> block_ok s (length (all_blocks s)) blk -> devices_ok s'.
Proof.
  intros [Hb Hd] Ha Hds Hnew.
  assert (Hmono : forall i x, block_ok s i x -> block_ok s' i x).
  { intros i x [Hr Ho]. split; [done|]. destruct (ops x); [by rewrite Hds|].
    destruct Ho as (Hlt & Hst & parent & Hp & Hfit). split_and!; [done..|]. exists parent.
    split; [|done]. rewrite Ha. by apply lookup_app_l_Some. }
  split; [|by rewrite Hds]. intros i x Hx. rewrite Ha in Hx. apply lookup_app_Some in Hx as [Hx|[Hl Hx]].
  - by apply Hmono, Hb.
  - apply list_lookup_singleton_Some in Hx as [Hi <-]. apply Hmono.
    by replace i with (length (all_blocks s)) by lia.
Qed.

Lemma found_partition_Ret s b blk e part_nr : devices_ok s -> mallocs s = [] ->
  all_blocks s !! b = Some blk -> entry_ok e -> in_s32 part_nr -> Z.of_nat (length (name blk)) < 2 ^ 32 ->
  exists s' nm, found_partition s b (e_type e) (e_offset e) (e_size e) part_nr = Ret s' /\
    devices_ok s' /\ mallocs s' = [] /\ disks s' = disks s /\ block_by_role s' = block_by_role s /\
    (length nm <= 15)%nat /\
    shapes s' = shapes s ++ (if entry_fits (b_size blk) e then [entry_shape b nm e] else []).
Proof.
  intros Hok Hm Hb (Ht & Hofs & Hsz) Hnr Hnm. unfold found_partition, block_size, block_name. rewrite Hb. cbn [deref obind].
  destruct (proj1 Hok b blk Hb) as [Hr _]. unfold entry_fits.
  destruct (b_size blk <=? e_offset e) eqn:E1.
  { replace (e_offset e <? b_size blk) with false by lia. eexists _, []. split; [done|]. rewrite app_nil_r.
    split_and!; try done. cbn. lia. }
  replace (e_offset e <? b_size blk) with true by lia. cbn [andb].
  destruct (decide (e_offset e + e_size e <= b_size blk)) as [Hfit|Hfit].
  - rewrite u32_small by lia. replace (e_offset e + e_size e <? e_offset e) with false by lia.
    replace (b_size blk <? e_offset e + e_size e) with false by lia. cbn [orb].
    replace (e_offset e + e_size e <=? b_size blk) with true by lia.
    unfold malloc. rewrite Hm. cbn [negb]. unfold snprintf_str at 1.
    destruct (printf_sd no_double_int no_double_neg no_double_rest (name blk) part_nr Hnr Hnm) as (body & Hpr & _).
    unfold kvprintf. rewrite Hpr. cbn [obind]. destruct (extra_info_Ret (e_type e) Ht) as (info & ->). cbn [obind].
    destruct (block_register_Ret s (take (16 - 1) (name blk ++ sign_of part_nr ++ body)) (partition_block_type (e_type e))
      (Some info) (e_size e) (partition_operations (mk_partition b (e_offset e))) Hm) as (s' & -> & Ha & Hro & Hds & Hml).
    cbn [obind]. exists s', (take 15 (take (16 - 1) (name blk ++ sign_of part_nr ++ body))).
    split; [done|]. split_and!; [|done..| |].
    + apply (devices_ok_app s s' _ Hok Ha Hds). split; [cbn; lia|]. cbn. split.
      * by eapply lookup_lt_Some.
      * split; [lia|]. exists blk. split; [done|]. lia.
    + rewrite length_take. lia.
    + unfold shapes. rewrite Ha, map_app. cbn. reflexivity.
  - replace (e_offset e + e_size e <=? b_size blk) with false by lia.
    assert ((u32 (e_offset e + e_size e) <? e_offset e) || (b_size blk <? u32 (e_offset e + e_size e)) = true) as ->.
    { destruct (decide (e_offset e + e_size e < 2 ^ 32)).
      - rewrite u32_small by lia. lia.
      - unfold u32. replace (e_offset e + e_size e) with (e_offset e + e_size e - 2 ^ 32 + 1 * 2 ^ 32) by lia.
        rewrite Z.mod_add, Z.mod_small by lia. lia. }
    eexists _, []. split; [done|]. rewrite app_nil_r. split_and!; try done. cbn. lia.
Qed.

Lemma parse_partitions_plain rt b bname prim : forall entries s blk n,
  devices_ok s -> mallocs s = [] -> all_blocks s !! b = Some blk ->
  Forall entry_ok entries -> Forall (fun e => is_extended (e_type e) = false \/ entry_used e = false) entries ->
  0 <= n -> n + Z.of_nat (length entries) < 2 ^ 31 -> Z.of_nat (length (name blk)) < 2 ^ 32 ->
  exists s' names,
    parse_partitions rt b bname 0 prim entries s n
      = Ret (s', n + Z.of_nat (length (filter (fun e => entry_used e = true) entries))) /\
    devices_ok s' /\ mallocs s' = [] /\ disks s' = disks s /\ block_by_role s' = block_by_role s /\
    Forall (fun nm => (length nm <= 15)%nat) names /\
    let found := filter (fun e => entry_used e && entry_fits (b_size blk) e = true) entries in
    length names = length found /\ shapes s' = shapes s ++ zip_with (entry_shape b) names found.
Proof.
  induction entries as [|e entries IH]; intros s blk n Hok Hm Hb Hent Hplain Hn Hn2 Hnm.
  { exists s, []. cbn. rewrite Z.add_0_r, app_nil_r. by split_and!. }
  inversion Hent as [|? ? He Hent']; subst. inversion Hplain as [|? ? Hp Hplain']; subst.
  cbn [length] in Hn2. cbn [parse_partitions].
  assert ((e_size e =? 0) || (e_type e =? 0) = negb (entry_used e)) as ->
    by (unfold entry_used; by rewrite negb_involutive).
  destruct (entry_used e) eqn:Eu; cbn [negb].
  2: { cbn [obind]. destruct (IH s blk n Hok Hm Hb Hent' Hplain' Hn ltac:(lia) Hnm) as (s' & names & H).
       exists s', names. cbv zeta in *. rewrite !filter_cons_False by (rewrite Eu; done). exact H. }
  destruct Hp as [-> | ?]; [|done].
  unfold int_, INT_MIN, INT_MAX. replace (_ && _) with true by lia. cbn [obind].
  destruct He as (He1 & He2 & He3). rewrite Z.add_0_r, u32_small by done.
  destruct (found_partition_Ret s b blk e (n + 1) Hok Hm Hb ltac:(done) ltac:(lia) Hnm)
    as (s1 & nm & -> & Hok1 & Hm1 & Hd1 & Hr1 & Hlen & Hs1). cbn [obind].
  assert (exists blk1, all_blocks s1 !! b = Some blk1 /\ shape blk1 = shape blk) as (blk1 & Hb1 & Hsh1).
  { assert (Hl : shapes s1 !! b = Some (shape blk)).
    { rewrite Hs1. apply lookup_app_l_Some. unfold shapes. by rewrite list_lookup_fmap, Hb. }
    unfold shapes in Hl. rewrite list_lookup_fmap in Hl. apply fmap_Some in Hl as (blk1 & ? & ?). eauto. }
  injection Hsh1 as Hn1 _ Hsz1 _.
  destruct (IH s1 blk1 (n + 1) Hok1 Hm1 Hb1 Hent' Hplain' ltac:(lia) ltac:(lia) ltac:(congruence))
    as (s' & names & -> & Hok' & Hm' & Hd' & Hr' & Hnames & Hlen' & Hsh').
  rewrite Hsz1 in Hlen', Hsh'. exists s', (if entry_fits (b_size blk) e then nm :: names else names).
  rewrite (filter_cons_True _ e entries) by done. cbn [length]. split; [do 2 f_equal; lia|]. cbv zeta.
  split_and!; [done|done|congruence|congruence| | |].
  - destruct (entry_fits _ _); [by constructor|done].
  - destruct (entry_fits (b_size blk) e) eqn:Ef.
    + rewrite filter_cons_True by (by rewrite Eu, Ef). cbn. by rewrite Hlen'.
    + by rewrite filter_cons_False by (by rewrite Eu, Ef).
  - rewrite Hsh', Hs1, <- app_assoc. f_equal. destruct (entry_fits (b_size blk) e) eqn:Ef.
    + by rewrite filter_cons_True by (by rewrite Eu, Ef).
    + by rewrite filter_cons_False by (by rewrite Eu, Ef).
Qed.

Lemma le_field_range l ofs n : is_bytes l -> 0 <= le_value (field l ofs n) < 256 ^ Z.of_nat n.
Proof.
  intros H. assert (Hf : is_bytes (field l ofs n)) by (unfold field; auto with bytes).
  pose proof (le_value_range _ Hf) as [H1 H2]. split; [done|]. eapply Z.lt_le_trans; [exact H2|].
  apply Z.pow_le_mono_r; [lia|]. unfold field. rewrite length_take. lia.
Qed.

Lemma pt_partitions_ok pt : sector_ok pt -> Forall entry_ok (pt_partitions pt) /\ length (pt_partitions pt) = 4%nat.
Proof.
  intros [_ Hb]. split; [|done]. unfold pt_partitions. apply Forall_map, Forall_true. intros i.
  assert (Hf : is_bytes (field pt (446 + 16 * i) 16)) by (unfold field; auto with bytes).
  pose proof (le_field_range _ 4 1 Hf). pose proof (le_field_range _ 8 4 Hf). pose proof (le_field_range _ 12 4 Hf).
  change (256 ^ Z.of_nat 1) with 256 in *. change (256 ^ Z.of_nat 4) with 4294967296 in *.
  unfold entry_ok, decode_entry. cbn [e_type e_offset e_size]. split_and!; lia.
Qed.

(** Reading the table of a device whose sector 0 is [pt]. *)
Lemma table_read s depth b blk pt : devices_ok s -> all_blocks s !! b = Some blk -> (b < depth)%nat ->
  view s b !! O = Some pt -> 0 < b_size blk /\ exists s', block_read depth s b 0 = Ret (s', pt) /\ sector_ok pt /\
    devices_ok s' /\ quiet s s' /\ disks s' = disks s /\ view s' b = view s b.
Proof.
  intros Hok Hb Hd Hpt. pose proof (lookup_lt_Some _ _ _ Hpt). pose proof (view_length s b blk Hok Hb).
  split; [lia|]. destruct (block_access s depth b blk 0 Hok Hb Hd ltac:(lia))
    as ((s' & data & Hr & Hv & Hs & Hok' & Hq & Hview) & _).
  destruct (block_read_Ret s depth Hok b blk 0 Hb Hd ltac:(lia))
    as (? & ? & ? & data2 & s2 & _ & _ & _ & Hr2 & _ & Hds). rewrite Hr in Hr2. injection Hr2 as <- <-.
  change (Z.to_nat 0) with O in Hv. rewrite Hpt in Hv. injection Hv as <-.
  exists s'. by split_and!.
Qed.

Lemma partition_scan_plain fuel depth s b blk pt :
  devices_ok s -> mallocs s = [] -> all_blocks s !! b = Some blk -> (b < depth)%nat ->
  Z.of_nat (length (name blk)) < 2 ^ 32 -> view s b !! O = Some pt ->
  Forall (fun e => is_extended (e_type e) = false \/ entry_used e = false) (pt_partitions pt) ->
  let found := if pt_signature pt =? 0xaa55
    then filter (fun e => entry_used e && entry_fits (b_size blk) e = true) (pt_partitions pt) else [] in
  exists s' names, partition_scan (S fuel) depth s b = Ret s' /\ devices_ok s' /\ disks s' = disks s /\
    block_by_role s' = block_by_role s /\ Forall (fun nm => (length nm <= 15)%nat) names /\
    length names = length found /\ shapes s' = shapes s ++ zip_with (entry_shape b) names found.
Proof.
  intros Hok Hm Hb Hd Hnm Hpt Hplain found. unfold partition_scan. cbn [read_partition_table].
  destruct (table_read s depth b blk pt Hok Hb Hd Hpt) as (Hsz & s1 & Hread & Hpok & Hok1 & Hq & Hds & _).
  unfold block_size, block_name. rewrite Hb. cbn [deref obind]. replace (b_size blk <=? 0) with false by lia.
  unfold malloc. rewrite Hm. cbn [negb]. rewrite Hread. cbn [obind].
  destruct Hq as (Hs1 & Hr1 & Hm1 & Hc1). rewrite Hm in Hm1.
  destruct (shapes_lookup s s1 b blk Hs1 Hb) as (blk1 & Hb1 & [= Hn1 _ Hz1 _]).
  unfold found. destruct (pt_signature pt =? 0xaa55) eqn:Es; cbn [negb].
  2: { cbn [obind Z.eqb]. cbn [all_blocks printk]. rewrite Hb1. cbn [deref obind]. eexists _, []. split; [done|].
       rewrite app_nil_r. by split_and!. }
  destruct (pt_partitions_ok pt Hpok) as [Hent Hlen4].
  destruct (parse_partitions_plain (fun s => read_partition_table fuel depth s b) b (name blk) 0 (pt_partitions pt) s1 blk1 0
    Hok1 Hm1 Hb1 Hent Hplain ltac:(lia) ltac:(lia) ltac:(congruence))
    as (s' & names & -> & Hok' & Hm' & Hd' & Hr' & Hnames & Hlen & Hsh). rewrite Hz1 in *. cbn [obind].
  assert (exists blk2, all_blocks s' !! b = Some blk2) as [blk2 Hb2].
  { assert (Hl : shapes s' !! b = Some (shape blk1)).
    { rewrite Hsh. apply lookup_app_l_Some. unfold shapes. by rewrite list_lookup_fmap, Hb1. }
    unfold shapes in Hl. rewrite list_lookup_fmap in Hl. apply fmap_Some in Hl as (blk2 & ? & ?). eauto. }
  rewrite Hb2. cbn [deref obind].
  rewrite Hs1 in Hsh. rewrite Hds in Hd'. rewrite Hr1 in Hr'.
  destruct (_ =? 0); (eexists _, names; split; [done|]; by split_and!).
Qed.

(** * The interface for file systems

    What the file system relies on: a device of a fixed number of sectors with bounds-checked reads and
    writes of whole sectors. *)
Class block_device (D : Type) := {
  bd_ok : D -> Prop;
  bd_view : D -> list sector;
  bd_size : D -> Z;
  bd_read : D -> Z -> outcome (D * sector);
  bd_write : D -> Z -> sector -> outcome D }.

Class block_device_laws (D : Type) `{block_device D} := {
  bd_size_view d : bd_ok d -> bd_size d = Z.of_nat (length (bd_view d)) /\ bd_size d < 2 ^ 32;
  bd_sectors d : bd_ok d -> Forall sector_ok (bd_view d);
  bd_read_ok d sec : bd_ok d -> 0 <= sec < bd_size d ->
    exists d' data, bd_read d sec = Ret (d', data) /\ bd_view d !! Z.to_nat sec = Some data /\
      bd_ok d' /\ bd_view d' = bd_view d;
  bd_write_ok d sec data : bd_ok d -> 0 <= sec < bd_size d -> sector_ok data ->
    exists d', bd_write d sec data = Ret d' /\ bd_ok d' /\ bd_view d' = <[Z.to_nat sec := data]> (bd_view d);
  bd_read_past d sec : bd_ok d -> bd_size d <= sec -> bd_read d sec = Panic;
  bd_write_past d sec data : bd_ok d -> bd_size d <= sec -> bd_write d sec data = Panic }.

(** The reference implementation: sectors in memory. *)
Record ram_disk := mk_ram { ram : list sector }.

#[export] Instance ram_device : block_device ram_disk := {
  bd_ok r := Forall sector_ok (ram r) /\ Z.of_nat (length (ram r)) < 2 ^ 32;
  bd_view := ram;
  bd_size r := Z.of_nat (length (ram r));
  bd_read r sec :=
    if Z.of_nat (length (ram r)) <=? sec then Panic
    else let? data := aread (ram r) sec in Ret (r, data);
  bd_write r sec data :=
    if Z.of_nat (length (ram r)) <=? sec then Panic
    else let? l := aset (ram r) sec data in Ret (mk_ram l) }.

#[export] Instance ram_laws : block_device_laws ram_disk.
Proof.
  split; cbn.
  - by intros d [_ H].
  - by intros d [H _].
  - intros [l] sec [Hl Hs] Hsec. cbn in *. replace (_ <=? sec) with false by lia.
    destruct (aget_is_Some l sec Hsec) as [data Hd]. unfold aread. rewrite Hd. cbn.
    exists (mk_ram l), data. split_and!; try done. unfold aget in Hd. by replace (0 <=? sec) with true in Hd by lia.
  - intros [l] sec data [Hl Hs] Hsec Hd. cbn in *. replace (_ <=? sec) with false by lia.
    rewrite (proj2 (aset_Ret l _ sec data)) by (split; [lia|reflexivity]). cbn. eexists. split; [done|]. cbn.
    rewrite length_insert. split_and!; [by apply Forall_insert|done|done].
  - intros d sec _ H. by replace (_ <=? sec) with true by lia.
  - intros d sec data _ H. by replace (_ <=? sec) with true by lia.
Qed.

(** A registered device, such as the one with the file-system role. *)
Record registered := mk_registered { reg_devices : devices; reg_block : block_ptr }.

#[export] Instance registered_device : block_device registered := {
  bd_ok r := devices_ok (reg_devices r) /\ is_Some (all_blocks (reg_devices r) !! reg_block r) /\
    writable (S (reg_block r)) (reg_devices r) (reg_block r) = true;
  bd_view r := view (reg_devices r) (reg_block r);
  bd_size r := match all_blocks (reg_devices r) !! reg_block r with Some blk => b_size blk | None => 0 end;
  bd_read r sec :=
    let? (s, data) := block_read (S (reg_block r)) (reg_devices r) (reg_block r) sec in
    Ret (mk_registered s (reg_block r), data);
  bd_write r sec data :=
    let? s := block_write (S (reg_block r)) (reg_devices r) (reg_block r) sec data in
    Ret (mk_registered s (reg_block r)) }.

Lemma view_sectors s b : devices_ok s -> Forall sector_ok (view s b).
Proof.
  intros Hok. unfold view. destruct (extent (S b) s b) as [[disk ofs]|]; [|constructor].
  destruct (all_blocks s !! b) as [blk|]; [|constructor]. apply Forall_take, Forall_drop.
  destruct (disks s !! disk) as [d|] eqn:Hd; [|constructor]. cbn. eapply Forall_lookup_1; [apply Hok|done].
Qed.

Lemma registered_kept r s' : shapes s' = shapes (reg_devices r) -> devices_ok s' ->
  is_Some (all_blocks (reg_devices r) !! reg_block r) ->
  writable (S (reg_block r)) (reg_devices r) (reg_block r) = true ->
  bd_ok (mk_registered s' (reg_block r)).
Proof.
  intros Hs Hok [blk Hb] Hw. split_and!; [done| |].
  - cbn. destruct (shapes_lookup _ _ _ _ Hs Hb) as (blk' & -> & _). by eexists.
  - by rewrite <- Hw, <- (writable_shapes _ _ (S (reg_block r)) Hs).
Qed.

#[export] Instance registered_laws : block_device_laws registered.
Proof.
  split.
  - intros [s b] (Hok & [blk Hb] & Hw). cbn in *. rewrite Hb. rewrite (view_length s b blk) by done.
    split; [done|]. apply (proj1 Hok b blk Hb).
  - intros [s b] (Hok & _). by apply view_sectors.
  - intros [s b] sec (Hok & [blk Hb] & Hw) Hsec. cbn [bd_size registered_device reg_devices reg_block] in *. rewrite Hb in Hsec.
    destruct (block_access s (S b) b blk sec Hok Hb ltac:(lia) Hsec) as ((s' & data & Hr & Hv & _ & Hok' & Hq & Hview) & _).
    exists (mk_registered s' b), data. cbn [bd_read registered_device reg_devices reg_block]. rewrite Hr. split; [done|].
    split; [done|]. split; [|apply Hview]. apply (registered_kept (mk_registered s b)); [apply Hq|done|by eexists|done].
  - intros [s b] sec data (Hok & [blk Hb] & Hw) Hsec Hd. cbn [bd_size registered_device reg_devices reg_block] in *. rewrite Hb in Hsec.
    destruct (block_access s (S b) b blk sec Hok Hb ltac:(lia) Hsec) as (_ & Hwr & _).
    destruct (Hwr data Hw Hd) as (s' & Hr & Hok' & Hq & Hview & _).
    exists (mk_registered s' b). cbn [bd_write registered_device reg_devices reg_block]. rewrite Hr. split; [done|].
    split; [|done]. apply (registered_kept (mk_registered s b)); [apply Hq|done|by eexists|done].
  - intros [s b] sec (Hok & [blk Hb] & Hw) Hsec. cbn [bd_size bd_read registered_device reg_devices reg_block] in *. rewrite Hb in Hsec.
    by rewrite (block_read_panic b s b blk sec Hb Hsec).
  - intros [s b] sec data (Hok & [blk Hb] & Hw) Hsec. cbn [bd_size bd_write registered_device reg_devices reg_block] in *. rewrite Hb in Hsec.
    by rewrite (block_write_panic b s b blk sec data Hb Hsec).
Qed.

(** C26. Through any nesting of partitions a block device is an array of sectors: a read returns the
    sector last written and changes no device's contents; a write changes that one sector of the
    device and nothing of any device that shares no sector with it; accesses past the end of the
    device, and writes to a foreign partition, panic. *)
Theorem block_device_array s fuel b blk sec :
  devices_ok s -> all_blocks s !! b = Some blk -> (b < fuel)%nat -> 0 <= sec ->
  (b_size blk <= sec -> block_read fuel s b sec = Panic /\ forall data, block_write fuel s b sec data = Panic) /\
  (sec < b_size blk ->
   (exists s' data, block_read fuel s b sec = Ret (s', data) /\ view s b !! Z.to_nat sec = Some data /\
      devices_ok s' /\ shapes s' = shapes s /\ forall b', view s' b' = view s b') /\
   (forall data, writable fuel s b = true -> sector_ok data ->
      exists s', block_write fuel s b sec data = Ret s' /\ devices_ok s' /\ shapes s' = shapes s /\
        view s' b = <[Z.to_nat sec := data]> (view s b) /\
        forall b', disjoint_devices s b b' -> view s' b' = view s b') /\
   (forall data, writable fuel s b = false -> block_write fuel s b sec data = Panic)).
Proof.
  intros Hok Hb Hf Hsec. split.
  - intros H. destruct fuel as [|fuel]; [lia|]. split; [by eapply block_read_panic|]. intros data.
    by eapply block_write_panic.
  - intros H. destruct (block_access s fuel b blk sec Hok Hb Hf ltac:(lia)) as (H1 & H2 & H3). split_and!.
    + destruct H1 as (s' & data & ? & ? & _ & ? & [? _] & ?). by exists s', data.
    + intros data Hw Hd. destruct (H2 data Hw Hd) as (s' & ? & ? & [? _] & ? & ?). by exists s'.
    + exact H3.
Qed.

(** Scanning a device whose partition table has no extended partition registers, in table order,
    exactly the used entries that lie inside the device, with the type and extent of the entry; the
    device list stays well formed and the disks are not written. *)
Theorem partition_scan_correct fuel depth s b blk pt :
  devices_ok s -> mallocs s = [] -> all_blocks s !! b = Some blk -> (b < depth)%nat ->
  Z.of_nat (length (name blk)) < 2 ^ 32 -> view s b !! O = Some pt ->
  Forall (fun e => is_extended (e_type e) = false \/ entry_used e = false) (pt_partitions pt) ->
  let found := if pt_signature pt =? 0xaa55
    then filter (fun e => entry_used e && entry_fits (b_size blk) e = true) (pt_partitions pt) else [] in
  exists s' names, partition_scan (S fuel) depth s b = Ret s' /\ devices_ok s' /\ disks s' = disks s /\
    block_by_role s' = block_by_role s /\ Forall (fun nm => (length nm <= 15)%nat) names /\
    length names = length found /\ shapes s' = shapes s ++ zip_with (entry_shape b) names found.
Proof. apply partition_scan_plain. Qed.

Lemma devices_ok_same s s' : devices_ok s -> shapes s' = shapes s -> disks s' = disks s -> devices_ok s'.
Proof.
  intros Hok Hs Hd. apply (devices_ok_shapes s s' Hok Hs); rewrite Hd; [|by destruct Hok].
  by apply Forall_Forall2_diag, Forall_true.
Qed.

Lemma read_table_loops depth b pt e rest : pt_signature pt = 0xaa55 -> pt_partitions pt = e :: rest ->
  entry_used e = true -> is_extended (e_type e) = true -> 0 <= e_offset e ->
  forall fuel s blk sec prim n, devices_ok s -> mallocs s = [] -> all_blocks s !! b = Some blk ->
  (b < depth)%nat -> view s b !! O = Some pt -> 2 * e_offset e < b_size blk ->
  sec = 0 \/ (prim = e_offset e /\ (sec = e_offset e \/ sec = 2 * e_offset e)) ->
  read_partition_table fuel depth s b sec prim n = NoFuel.
Proof.
  intros Hsig Hpt Hu Hx Ho. induction fuel as [|fuel IH]; intros s blk sec prim n Hok Hm Hb Hd Hv Hsz Hsec; [done|].
  cbn [read_partition_table]. unfold block_size, block_name. rewrite Hb. cbn [deref obind].
  destruct (table_read s depth b blk pt Hok Hb Hd Hv) as (Hpos & s1 & Hread & _ & Hok1 & Hq & Hds & Hv1).
  destruct (proj1 Hok b blk Hb) as [Hr _]. replace (b_size blk <=? sec) with false by lia.
  unfold malloc. rewrite Hm. cbn [negb]. rewrite Hread. cbn [obind]. rewrite Hsig. cbn [Z.eqb Pos.eqb negb].
  rewrite Hpt. cbn [parse_partitions].
  assert ((e_size e =? 0) || (e_type e =? 0) = false) as ->.
  { unfold entry_used in Hu. by destruct (_ || _). }
  rewrite Hx. destruct Hq as (Hs1 & _ & Hm1 & _). destruct (shapes_lookup s s1 b blk Hs1 Hb) as (blk1 & Hb1 & [= _ _ Hz _]).
  set (s2 := printk s1 _ _).
  assert (Hok2 : devices_ok s2) by (by apply (devices_ok_same s1)).
  assert (Hv2 : view s2 b !! O = Some pt) by (rewrite (view_same_disks s1 s2 b), Hv1 by done; exact Hv).
  assert (Hm2 : mallocs s2 = []) by (cbn; congruence).
  destruct (sec =? 0) eqn:E.
  - rewrite (IH s2 blk1); [done|done|done|exact Hb1|done|done|lia|]. right. split; [done|by left].
  - destruct Hsec as [->|[-> Hsec]]; [done|].
    rewrite (IH s2 blk1); [done|done|done|exact Hb1|done|done|lia|].
    right. split; [done|right]. rewrite u32_small by lia. lia.
Qed.

(** C38. A partition table whose first entry is an extended partition in the first half of the device
    makes the scan recurse without end: every table is read from sector 0. *)
Theorem extended_partition_never_returns fuel depth s b blk pt e rest :
  devices_ok s -> mallocs s = [] -> all_blocks s !! b = Some blk -> (b < depth)%nat ->
  view s b !! O = Some pt -> pt_signature pt = 0xaa55 -> pt_partitions pt = e :: rest ->
  entry_used e = true -> is_extended (e_type e) = true -> 0 <= 2 * e_offset e < b_size blk ->
  partition_scan fuel depth s b = NoFuel.
Proof.
  intros Hok Hm Hb Hd Hv Hsig Hpt Hu Hx Ho. unfold partition_scan.
  rewrite (read_table_loops depth b pt e rest Hsig Hpt Hu Hx ltac:(lia) fuel s blk 0 0 0); try done; [lia|by left].
Qed.

(** * A concrete device tree *)

Definition table_entry (type ofs size : Z) : list Z :=
  [0; 0; 0; 0; type; 0; 0; 0] ++ le_bytes 4 ofs ++ le_bytes 4 size.
Definition table_sector (entries : list (list Z)) : sector :=
  replicate 446 0 ++ concat entries ++ le_bytes 2 0xaa55.
Definition ex_disk (pt : sector) : list sector := pt :: replicate 9 (replicate 512 0).
Definition ex_devices (pt : sector) : devices :=
  mk_devices [mk_block (chars "hda") BLOCK_RAW 10 (ide_operations 0) 0 0] (fun _ => None) [ex_disk pt] [] [].
Definition ex_table : sector :=
  table_sector [table_entry 0x21 2 4; table_entry 0x83 6 3; table_entry 0x20 9 5; table_entry 0 0 0].
Definition ex_extended : sector :=
  table_sector [table_entry 0x05 4 5; table_entry 0 0 0; table_entry 0 0 0; table_entry 0 0 0].

Lemma zero_sector_ok : sector_ok (replicate 512 0).
Proof. split; [by vm_compute|]. by apply is_bytes_replicate. Qed.

Lemma ex_devices_ok pt : sector_ok pt -> devices_ok (ex_devices pt).
Proof.
  intros Hpt. split.
  - intros b blk Hb. destruct b; [|done]. injection Hb as <-. split; [by cbn|]. exists (ex_disk pt). by split.
  - constructor; [|constructor]. constructor; [done|]. apply Forall_replicate, zero_sector_ok.
Qed.

Lemma ex_mbr_table_ok : sector_ok ex_table.
Proof. split; [by vm_compute|]. unfold is_bytes. by_compute. Qed.

Lemma ex_extended_ok : sector_ok ex_extended.
Proof. split; [by vm_compute|]. unfold is_bytes. by_compute. Qed.

(** Scanning the example table finds the file-system and the foreign partition; the kernel partition
    reaches past the end of the device. *)
Definition ex_scanned : outcome devices := partition_scan 1 1 (ex_devices ex_table) 0.
Example ex_scan_names :
  match ex_scanned with
  | Ret s => map (fun b => (name b, b_type b, b_size b)) (all_blocks s)
  | _ => []
  end = [(chars "hda", BLOCK_RAW, 10); (chars "hda1", BLOCK_FILESYS, 4); (chars "hda2", BLOCK_FOREIGN, 3)].
Proof. by_compute. Qed.

Lemma partition_scan_correct_witness :
  exists s' names, partition_scan 1 1 (ex_devices ex_table) 0 = Ret s' /\ devices_ok s' /\
    shapes s' = shapes (ex_devices ex_table) ++ zip_with (entry_shape 0) names
      [mk_pte 0x21 2 4; mk_pte 0x83 6 3].
Proof.
  destruct (partition_scan_correct 0 1 (ex_devices ex_table) 0 (mk_block (chars "hda") BLOCK_RAW 10 (ide_operations 0) 0 0)
    ex_table) as (s' & names & H1 & H2 & _ & _ & _ & _ & H3).
  - apply ex_devices_ok, ex_mbr_table_ok.
  - done.
  - done.
  - lia.
  - by_compute.
  - done.
  - by_compute.
  - exists s', names. split; [exact H1|]. split; [exact H2|]. rewrite H3. f_equal. 
Defined.

Lemma extended_partition_never_returns_witness : partition_scan 1000 1 (ex_devices ex_extended) 0 = NoFuel.
Proof.
  apply (extended_partition_never_returns 1000 1 (ex_devices ex_extended) 0
    (mk_block (chars "hda") BLOCK_RAW 10 (ide_operations 0) 0 0) ex_extended (mk_pte 0x05 4 5)
    [mk_pte 0 0 0; mk_pte 0 0 0; mk_pte 0 0 0]); try done; [apply ex_devices_ok, ex_extended_ok|lia].
Defined.

(** A device with a partition of sectors 2 to 5. *)
Definition ex_part : devices :=
  mk_devices [mk_block (chars "hda") BLOCK_RAW 10 (ide_operations 0) 0 0;
              mk_block (chars "hda1") BLOCK_FILESYS 4 (partition_operations (mk_partition 0 2)) 0 0]
    (fun r => if decide (r = BLOCK_FILESYS) then Some 1%nat else None)
    [ex_disk (replicate 512 0)] [] [].

Lemma ex_part_ok : devices_ok ex_part.
Proof.
  split.
  - intros [|[|b]] blk Hb; [..|done]; injection Hb as <-; (split; [by cbn|]).
    + by exists (ex_disk (replicate 512 0)).
    + split; [cbn; lia|]. split; [by cbn|]. eexists. by split.
  - constructor; [|constructor]. constructor; [apply zero_sector_ok|]. apply Forall_replicate, zero_sector_ok.
Qed.

Lemma block_device_array_witness :
  exists s', block_write 2 ex_part 1 3 (replicate 512 7) = Ret s' /\
    view s' 1 = <[3%nat := replicate 512 7]> (view ex_part 1) /\
    block_read 2 ex_part 1 4 = Panic.
Proof.
  destruct (block_device_array ex_part 2 1 (mk_block (chars "hda1") BLOCK_FILESYS 4
    (partition_operations (mk_partition 0 2)) 0 0) 3 ex_part_ok eq_refl ltac:(lia) ltac:(lia)) as [_ H].
  destruct (block_device_array ex_part 2 1 (mk_block (chars "hda1") BLOCK_FILESYS 4
    (partition_operations (mk_partition 0 2)) 0 0) 4 ex_part_ok eq_refl ltac:(lia) ltac:(lia)) as [Hp _].
  destruct (H ltac:(cbn; lia)) as (_ & Hw & _).
  destruct (Hw (replicate 512 7) eq_refl) as (s' & H1 & _ & _ & H2 & _).
  { split; [done|]. by apply is_bytes_replicate. }
  exists s'. split; [exact H1|]. split; [exact H2|]. apply Hp. cbn. lia.
Defined.
