(* ===== verification/Fs.v ===== *)
(** The Pintos file system (filesys/inode.c, file.c, free-map.c, directory.c, filesys.c and the file
    operations of lib/kernel/bitmap.c): on-disk inodes, open inodes shared by their openers, the free
    map kept in a file, directories of fixed-size entries, and creation, opening and removal of files
    by name.  The device below is any implementation of the [block_device] interface of Block. *)
From S2P Require Import Prelude Palloc KString KStdlib Endian Bitmap Block.

(** * Definitions *)

Definition INODE_MAGIC : Z := 0x494e4f44.
Definition FREE_MAP_SECTOR : Z := 0.
Definition ROOT_DIR_SECTOR : Z := 1.
Definition NAME_MAX : Z := 14.

(** The unused words of the sector are zero. *)
Record inode_disk := mk_inode_disk { i_start : Z; i_length : Z; i_magic : Z }.
Definition encode_inode (d : inode_disk) : sector :=
  le_bytes 4 (i_start d) ++ le_bytes 4 (u32 (i_length d)) ++ le_bytes 4 (i_magic d) ++ replicate 500 0.
Definition decode_inode (l : sector) : inode_disk :=
  mk_inode_disk (le_value (field l 0 4)) (s32 (le_value (field l 4 4))) (le_value (field l 8 4)).

Definition bytes_to_sectors (size : Z) : Z := DIV_ROUND_UP size BLOCK_SECTOR_SIZE.

Record inode := mk_inode {
  i_sector : Z; open_cnt : Z; removed : bool; deny_write_cnt : Z; i_data : inode_disk }.

(** A [struct inode *] is a positive number that names an entry of the heap of open inodes. *)
Abbreviation inode_ptr := Z (only parsing).

Record file := mk_file { f_inode : inode_ptr; f_pos : Z; f_deny_write : bool }.
Record dir := mk_dir { d_inode : inode_ptr; d_pos : Z }.

(** A directory entry of 20 bytes; [e_name] is the whole array of 15 bytes. *)
Record dir_entry := mk_dir_entry { inode_sector : Z; e_name : list Z; in_use : Z }.
Definition dir_entry_size : Z := 20.
Definition encode_dir_entry (e : dir_entry) : list Z := le_bytes 4 (inode_sector e) ++ e_name e ++ [in_use e].
Definition decode_dir_entry (l : list Z) : dir_entry :=
  mk_dir_entry (le_value (field l 0 4)) (field l 4 15) (le_value (field l 19 1)).

(** The state: the device, the answers of the next allocations (success once used up), the heap of
    inodes, the list of open inodes, the next free pointer, the free map and its file. *)
Record fs_state (D : Type) := mk_fs {
  dev : D;
  fs_mallocs : list bool;
  inodes : gmap Z inode;
  open_inodes : list inode_ptr;
  next_inode : inode_ptr;
  free_map : bitmap;
  free_map_file : option file }.
Arguments mk_fs {D}.
Arguments dev {D}.
Arguments fs_mallocs {D}.
Arguments inodes {D}.
Arguments open_inodes {D}.
Arguments next_inode {D}.
Arguments free_map {D}.
Arguments free_map_file {D}.

Definition set_dev {D} (s : fs_state D) (d : D) : fs_state D :=
  mk_fs d (fs_mallocs s) (inodes s) (open_inodes s) (next_inode s) (free_map s) (free_map_file s).
Definition set_inodes {D} (s : fs_state D) (m : gmap Z inode) : fs_state D :=
  mk_fs (dev s) (fs_mallocs s) m (open_inodes s) (next_inode s) (free_map s) (free_map_file s).
Definition set_open {D} (s : fs_state D) (l : list inode_ptr) : fs_state D :=
  mk_fs (dev s) (fs_mallocs s) (inodes s) l (next_inode s) (free_map s) (free_map_file s).
Definition set_free_map {D} (s : fs_state D) (b : bitmap) : fs_state D :=
  mk_fs (dev s) (fs_mallocs s) (inodes s) (open_inodes s) (next_inode s) b (free_map_file s).
Definition set_free_map_file {D} (s : fs_state D) (f : option file) : fs_state D :=
  mk_fs (dev s) (fs_mallocs s) (inodes s) (open_inodes s) (next_inode s) (free_map s) f.

Definition set_i_open (i : inode) (n : Z) : inode :=
  mk_inode (i_sector i) n (removed i) (deny_write_cnt i) (i_data i).
Definition set_i_removed (i : inode) : inode :=
  mk_inode (i_sector i) (open_cnt i) true (deny_write_cnt i) (i_data i).
Definition set_i_deny (i : inode) (n : Z) : inode :=
  mk_inode (i_sector i) (open_cnt i) (removed i) n (i_data i).

(** The operations pass the state along. *)
Abbreviation M D := (ST (fs_state D)) (only parsing).

Section FileSystem.
Context {D : Type} `{!block_device D}.
#[local] Abbreviation M := (ST (fs_state D)) (only parsing).

Definition alloc : M bool := fun s =>
  match fs_mallocs s with
  | [] => Ret (true, s)
  | ok :: l => Ret (ok, mk_fs (dev s) l (inodes s) (open_inodes s) (next_inode s) (free_map s) (free_map_file s))
  end.

Definition read_sector (sec : Z) : M sector := fun s =>
  let? (d, data) := bd_read (dev s) sec in Ret (data, set_dev s d).
Definition write_sector (sec : Z) (data : sector) : M unit := fun s =>
  let? d := bd_write (dev s) sec data in Ret (tt, set_dev s d).

(** ** Open inodes *)

Definition get_inode (p : inode_ptr) : M inode := fun s => let? i := deref (inodes s !! p) in Ret (i, s).
Definition put_inode (p : inode_ptr) (i : inode) : M unit :=
  modify (fun s => set_inodes s (<[p := i]> (inodes s))).

Definition byte_to_sector (i : inode) (pos : Z) : Z :=
  if pos <? i_length (i_data i) then u32 (i_start (i_data i) + Z.quot pos BLOCK_SECTOR_SIZE) else UINT_MAX.

Definition inode_init : M unit := modify (fun s => set_open s []).

Definition inode_reopen (p : option inode_ptr) : M (option inode_ptr) :=
  match p with
  | None => ret None
  | Some q => let! i := get_inode q in
              let! n := lift (int_ (open_cnt i + 1)) in
              let! _ := put_inode q (set_i_open i n) in ret p
  end.

Fixpoint find_open (l : list inode_ptr) (sec : Z) : M (option inode_ptr) :=
  match l with
  | [] => ret None
  | q :: l => let! i := get_inode q in
              if i_sector i =? sec then ret (Some q) else find_open l sec
  end.

(** The sector is read after the new inode is on the list of open inodes. *)
Definition inode_open (sec : Z) : M (option inode_ptr) :=
  let! l := gets open_inodes in
  let! found := find_open l sec in
  match found with
  | Some q => inode_reopen (Some q)
  | None =>
      let! ok := alloc in
      if negb ok then ret None
      else
        let! q := gets next_inode in
        let! _ := modify (fun s => mk_fs (dev s) (fs_mallocs s) (inodes s) (q :: open_inodes s) (q + 1)
                                     (free_map s) (free_map_file s)) in
        let! data := read_sector sec in
        let! _ := put_inode q (mk_inode sec 1 false 0 (decode_inode data)) in
        ret (Some q)
  end.

Definition inode_get_inumber (p : inode_ptr) : M Z := let! i := get_inode p in ret (i_sector i).
Definition inode_length (p : inode_ptr) : M Z := let! i := get_inode p in ret (i_length (i_data i)).

Definition inode_remove (p : inode_ptr) : M unit :=
  let! i := get_inode p in put_inode p (set_i_removed i).

Definition inode_deny_write (p : inode_ptr) : M unit :=
  let! i := get_inode p in
  let! n := lift (int_ (deny_write_cnt i + 1)) in
  let! _ := put_inode p (set_i_deny i n) in
  assert! (n <=? open_cnt i) in ret tt.
Definition inode_allow_write (p : inode_ptr) : M unit :=
  let! i := get_inode p in
  assert! (0 <? deny_write_cnt i) in
  assert! (deny_write_cnt i <=? open_cnt i) in
  put_inode p (set_i_deny i (deny_write_cnt i - 1)).

(** ** Reading and writing

    [bounce] says whether the bounce buffer has been allocated; [buffer] is what has been read so
    far, so that [bytes_read] is its length. *)
Fixpoint read_loop (fuel : nat) (p : inode_ptr) (size offset : Z) (bounce : bool) (buffer : list Z) : M (list Z) :=
  match fuel with
  | O => fun _ => NoFuel
  | S fuel =>
      if 0 <? size then
        let! i := get_inode p in
        let sector_idx := byte_to_sector i offset in
        let sector_ofs := Z.rem offset BLOCK_SECTOR_SIZE in
        let! inode_left := lift (int_ (i_length (i_data i) - offset)) in
        let sector_left := BLOCK_SECTOR_SIZE - sector_ofs in
        let min_left := if inode_left <? sector_left then inode_left else sector_left in
        let chunk_size := if size <? min_left then size else min_left in
        if chunk_size <=? 0 then ret buffer
        else if (sector_ofs =? 0) && (chunk_size =? BLOCK_SECTOR_SIZE) then
          let! data := read_sector sector_idx in
          let! offset := lift (int_ (offset + chunk_size)) in
          read_loop fuel p (size - chunk_size) offset bounce (buffer ++ data)
        else
          let! ok := (if bounce then ret true else alloc) in
          if negb ok then ret buffer
          else
            let! data := read_sector sector_idx in
            let! offset := lift (int_ (offset + chunk_size)) in
            read_loop fuel p (size - chunk_size) offset true
              (buffer ++ take (Z.to_nat chunk_size) (drop (Z.to_nat sector_ofs) data))
      else ret buffer
  end.

(** Each iteration but the first and the last two transfers a whole sector. *)
Definition transfer_fuel (size : Z) : nat := Z.to_nat (size / 512) + 3.

Definition inode_read_at (p : inode_ptr) (size offset : Z) : M (list Z) :=
  read_loop (transfer_fuel size) p size offset false [].

(** [memcpy] of [bytes] into a sector at [ofs]. *)
Definition splice (ofs : nat) (bytes l : list Z) : list Z :=
  take ofs l ++ bytes ++ drop (ofs + length bytes) l.

Fixpoint write_loop (fuel : nat) (p : inode_ptr) (buffer : list Z) (size offset bytes_written : Z)
    (bounce : bool) : M Z :=
  match fuel with
  | O => fun _ => NoFuel
  | S fuel =>
      if 0 <? size then
        let! i := get_inode p in
        let sector_idx := byte_to_sector i offset in
        let sector_ofs := Z.rem offset BLOCK_SECTOR_SIZE in
        let! inode_left := lift (int_ (i_length (i_data i) - offset)) in
        let sector_left := BLOCK_SECTOR_SIZE - sector_ofs in
        let min_left := if inode_left <? sector_left then inode_left else sector_left in
        let chunk_size := if size <? min_left then size else min_left in
        let chunk := take (Z.to_nat chunk_size) (drop (Z.to_nat bytes_written) buffer) in
        if chunk_size <=? 0 then ret bytes_written
        else if (sector_ofs =? 0) && (chunk_size =? BLOCK_SECTOR_SIZE) then
          let! _ := write_sector sector_idx chunk in
          let! offset := lift (int_ (offset + chunk_size)) in
          write_loop fuel p buffer (size - chunk_size) offset (bytes_written + chunk_size) bounce
        else
          let! ok := (if bounce then ret true else alloc) in
          if negb ok then ret bytes_written
          else
            let! old := (if (0 <? sector_ofs) || (chunk_size <? sector_left)
                         then read_sector sector_idx else ret (replicate 512 0)) in
            let! _ := write_sector sector_idx (splice (Z.to_nat sector_ofs) chunk old) in
            let! offset := lift (int_ (offset + chunk_size)) in
            write_loop fuel p buffer (size - chunk_size) offset (bytes_written + chunk_size) true
      else ret bytes_written
  end.

Definition inode_write_at (p : inode_ptr) (buffer : list Z) (size offset : Z) : M Z :=
  let! i := get_inode p in
  if negb (deny_write_cnt i =? 0) then ret 0
  else write_loop (transfer_fuel size) p buffer size offset 0 false.

(** ** Files that are read and written in place *)

Definition file_read_at (f : file) (size file_ofs : Z) : M (list Z) := inode_read_at (f_inode f) size file_ofs.
Definition file_write_at (f : file) (buffer : list Z) (size file_ofs : Z) : M Z :=
  inode_write_at (f_inode f) buffer size file_ofs.
Definition file_read (f : file) (size : Z) : M (list Z * file) :=
  let! bytes := inode_read_at (f_inode f) size (f_pos f) in
  let! pos := lift (int_ (f_pos f + Z.of_nat (length bytes))) in
  ret (bytes, mk_file (f_inode f) pos (f_deny_write f)).
Definition file_write (f : file) (buffer : list Z) (size : Z) : M (Z * file) :=
  let! bytes_written := inode_write_at (f_inode f) buffer size (f_pos f) in
  let! pos := lift (int_ (f_pos f + bytes_written)) in
  ret (bytes_written, mk_file (f_inode f) pos (f_deny_write f)).

Definition file_deny_write (f : file) : M file :=
  if negb (f_deny_write f) then
    let! _ := inode_deny_write (f_inode f) in ret (mk_file (f_inode f) (f_pos f) true)
  else ret f.
Definition file_allow_write (f : file) : M file :=
  if f_deny_write f then
    let! _ := inode_allow_write (f_inode f) in ret (mk_file (f_inode f) (f_pos f) false)
  else ret f.
Definition file_get_inode (f : file) : inode_ptr := f_inode f.
Definition file_length (f : file) : M Z := inode_length (f_inode f).
Definition file_seek (f : file) (new_pos : Z) : M file :=
  assert! (0 <=? new_pos) in ret (mk_file (f_inode f) new_pos (f_deny_write f)).
Definition file_tell (f : file) : Z := f_pos f.

(** ** Bitmaps in files (bitmap.c) *)

Definition bitmap_bytes (b : bitmap) : list Z := concat (map (le_bytes 4) (bits b)).
Fixpoint words_of_bytes (n : nat) (l : list Z) : list Z :=
  match n with
  | O => []
  | S n => le_value (take 4 l) :: words_of_bytes n (drop 4 l)
  end.

Definition bitmap_file_size (b : bitmap) : Z := byte_cnt (bit_cnt b).
Definition bitmap_write (b : bitmap) (f : file) : M bool :=
  let size := byte_cnt (bit_cnt b) in
  let! n := file_write_at f (bitmap_bytes b) size 0 in ret (n =? size).
(** What a short read does not overwrite keeps its value. *)
Definition bitmap_read (b : bitmap) (f : file) : M (bool * bitmap) :=
  if 0 <? bit_cnt b then
    let size := byte_cnt (bit_cnt b) in
    let! bytes := file_read_at f size 0 in
    let words := words_of_bytes (length (bits b)) (splice 0 bytes (bitmap_bytes b)) in
    let last := elem_cnt (bit_cnt b) - 1 in
    let! w := lift (aread words last) in
    let! words := lift (aset words last (Z.land w (last_mask b))) in
    ret (Z.of_nat (length bytes) =? size, mk_bitmap (bit_cnt b) words)
  else ret (true, b).

(** ** The free map (free-map.c) *)

(** [words] is what the memory of the new bitmap holds. *)
Definition free_map_init (words : list Z) : M unit :=
  let! cnt := gets (fun s => bd_size (dev s)) in
  let! ok := alloc in
  let! ok_bits := (if ok then alloc else ret false) in
  let! b := lift (bitmap_create ok (if ok_bits then Some words else None) cnt) in
  match b with
  | None => panic
  | Some b =>
      let! b := lift (bitmap_mark b FREE_MAP_SECTOR) in
      let! b := lift (bitmap_mark b ROOT_DIR_SECTOR) in
      modify (fun s => set_free_map s b)
  end.

Definition free_map_allocate (cnt : Z) : M (option Z) :=
  let! b := gets free_map in
  let! (sec, b) := lift (bitmap_scan_and_flip b 0 cnt false) in
  let! _ := modify (fun s => set_free_map s b) in
  let! fmf := gets free_map_file in
  let! written :=
    match fmf with
    | Some f => if negb (sec =? BITMAP_ERROR) then bitmap_write b f else ret true
    | None => ret true
    end in
  if negb (sec =? BITMAP_ERROR) && negb written then
    let! b := lift (bitmap_set_multiple b sec cnt false) in
    let! _ := modify (fun s => set_free_map s b) in
    ret None
  else ret (if sec =? BITMAP_ERROR then None else Some sec).

Definition free_map_release (sec cnt : Z) : M unit :=
  let! b := gets free_map in
  let! all := lift (bitmap_all b sec cnt) in
  assert! all in
  let! b := lift (bitmap_set_multiple b sec cnt false) in
  let! _ := modify (fun s => set_free_map s b) in
  let! fmf := gets free_map_file in
  let! f := lift (deref fmf) in
  let! _ := bitmap_write b f in
  ret tt.

(** ** Creating and closing inodes *)

Fixpoint zero_sectors (n : nat) (sec : Z) : M unit :=
  match n with
  | O => ret tt
  | S n => let! _ := write_sector (u32 sec) (replicate 512 0) in zero_sectors n (sec + 1)
  end.

Definition inode_create (sec len : Z) : M bool :=
  assert! (0 <=? len) in
  let! ok := alloc in
  if negb ok then ret false
  else
    let sectors := bytes_to_sectors len in
    let! st := free_map_allocate sectors in
    match st with
    | None => ret false
    | Some start =>
        let! _ := write_sector sec (encode_inode (mk_inode_disk start len INODE_MAGIC)) in
        let! _ := zero_sectors (Z.to_nat sectors) start in
        ret true
    end.

Definition inode_close (p : option inode_ptr) : M unit :=
  match p with
  | None => ret tt
  | Some q =>
      let! i := get_inode q in
      let! n := lift (int_ (open_cnt i - 1)) in
      let! _ := put_inode q (set_i_open i n) in
      if n =? 0 then
        let! _ := modify (fun s => set_open s (filter (fun x => x <> q) (open_inodes s))) in
        let! _ := (if removed i then
                     let! _ := free_map_release (i_sector i) 1 in
                     free_map_release (i_start (i_data i)) (bytes_to_sectors (i_length (i_data i)))
                   else ret tt) in
        modify (fun s => set_inodes s (delete q (inodes s)))
      else ret tt
  end.

(** ** Opening and closing files *)

Definition file_open (p : option inode_ptr) : M (option file) :=
  let! ok := alloc in
  match p, ok with
  | Some q, true => ret (Some (mk_file q 0 false))
  | _, _ => let! _ := inode_close p in ret None
  end.
Definition file_reopen (f : file) : M (option file) :=
  let! p := inode_reopen (Some (f_inode f)) in file_open p.
Definition file_close (f : option file) : M unit :=
  match f with
  | None => ret tt
  | Some f => let! f := file_allow_write f in inode_close (Some (f_inode f))
  end.

Definition free_map_open : M unit :=
  let! p := inode_open FREE_MAP_SECTOR in
  let! f := file_open p in
  let! _ := modify (fun s => set_free_map_file s f) in
  match f with
  | None => panic
  | Some f =>
      let! b := gets free_map in
      let! (ok, b) := bitmap_read b f in
      let! _ := modify (fun s => set_free_map s b) in
      assert! ok in ret tt
  end.
Definition free_map_close : M unit := let! f := gets free_map_file in file_close f.
Definition free_map_create : M unit :=
  let! b := gets free_map in
  let! ok := inode_create FREE_MAP_SECTOR (bitmap_file_size b) in
  assert! ok in
  let! p := inode_open FREE_MAP_SECTOR in
  let! f := file_open p in
  let! _ := modify (fun s => set_free_map_file s f) in
  match f with
  | None => panic
  | Some f => let! b := gets free_map in
              let! ok := bitmap_write b f in
              assert! ok in ret tt
  end.

(** ** Directories (directory.c) *)

Definition dir_create (sec entry_cnt : Z) : M bool := inode_create sec (s32 (entry_cnt * dir_entry_size)).
Definition dir_open (p : option inode_ptr) : M (option dir) :=
  let! ok := alloc in
  match p, ok with
  | Some q, true => ret (Some (mk_dir q 0))
  | _, _ => let! _ := inode_close p in ret None
  end.
Definition dir_open_root : M (option dir) := let! p := inode_open ROOT_DIR_SECTOR in dir_open p.
Definition dir_reopen (d : dir) : M (option dir) := let! p := inode_reopen (Some (d_inode d)) in dir_open p.
Definition dir_close (d : option dir) : M unit :=
  match d with
  | None => ret tt
  | Some d => inode_close (Some (d_inode d))
  end.
Definition dir_get_inode (d : dir) : inode_ptr := d_inode d.

(** [!strcmp (name, e.name)], which reads past the array only if all of it matches. *)
Fixpoint name_matches (name arr : list Z) : outcome bool :=
  match arr, name with
  | [], _ => UB
  | c :: _, [] => Ret (c =? 0)
  | c :: arr, c' :: name => if c =? c' then name_matches name arr else Ret false
  end.
(** The string in the name array, copied by [strlcpy]; one without a null byte is read past its end. *)
Definition entry_name (e : dir_entry) : outcome (list Z) :=
  match find_pos (fun c => c =? 0) (e_name e) with
  | Some n => Ret (take n (e_name e))
  | None => UB
  end.
Definition set_name (e : dir_entry) (name : list Z) : dir_entry :=
  mk_dir_entry (inode_sector e) (splice 0 (take 14 name ++ [0]) (e_name e)) (in_use e).

Definition read_entry (p : inode_ptr) (ofs : Z) : M (option dir_entry) :=
  let! bytes := inode_read_at p dir_entry_size ofs in
  ret (if Z.of_nat (length bytes) =? dir_entry_size then Some (decode_dir_entry bytes) else None).

(** Offsets are below the length of the directory, so [length / 20 + 1] iterations suffice. *)
Fixpoint lookup_loop (fuel : nat) (d : dir) (name : list Z) (ofs : Z) : M (option (dir_entry * Z)) :=
  match fuel with
  | O => fun _ => NoFuel
  | S fuel =>
      let! e := read_entry (d_inode d) ofs in
      match e with
      | None => ret None
      | Some e =>
          if negb (in_use e =? 0) then
            let! same := lift (name_matches name (e_name e)) in
            if (same : bool) then ret (Some (e, ofs)) else lookup_loop fuel d name (ofs + dir_entry_size)
          else lookup_loop fuel d name (ofs + dir_entry_size)
      end
  end.
Definition dir_fuel (d : dir) : M nat :=
  let! i := get_inode (d_inode d) in ret (Z.to_nat (i_length (i_data i) / dir_entry_size) + 1)%nat.
Definition lookup (d : dir) (name : list Z) : M (option (dir_entry * Z)) :=
  let! fuel := dir_fuel d in lookup_loop fuel d name 0.

Definition dir_lookup (d : dir) (name : list Z) : M (option inode_ptr) :=
  let! r := lookup d name in
  match r with
  | Some (e, _) => inode_open (inode_sector e)
  | None => ret None
  end.

(** The loop keeps the bytes of the last entry read in the local variable [e]: [bytes] are those
    that the last call of [inode_read_at] stored. *)
Fixpoint free_slot_loop (fuel : nat) (d : dir) (e : list Z) (ofs : Z) : M (list Z * Z) :=
  match fuel with
  | O => fun _ => NoFuel
  | S fuel =>
      let! bytes := inode_read_at (d_inode d) dir_entry_size ofs in
      let e := splice 0 bytes e in
      if Z.of_nat (length bytes) =? dir_entry_size then
        if in_use (decode_dir_entry e) =? 0 then ret (e, ofs)
        else free_slot_loop fuel d e (ofs + dir_entry_size)
      else ret (e, ofs)
  end.

(** [e0] is the initial contents of the local variable [e]. *)
Definition dir_add (e0 : list Z) (d : dir) (name : list Z) (sec : Z) : M bool :=
  if bool_decide (name = []) || (NAME_MAX <? Z.of_nat (length name)) then ret false
  else
    let! found := lookup d name in
    match found with
    | Some _ => ret false
    | None =>
        let! fuel := dir_fuel d in
        let! (e, ofs) := free_slot_loop fuel d e0 0 in
        let e := set_name (decode_dir_entry e) name in
        let e := mk_dir_entry sec (e_name e) 1 in
        let! n := inode_write_at (d_inode d) (encode_dir_entry e) dir_entry_size ofs in
        ret (n =? dir_entry_size)
    end.

Definition dir_remove (d : dir) (name : list Z) : M bool :=
  let! found := lookup d name in
  let! (p, success) :=
    match found with
    | None => ret (None, false)
    | Some (e, ofs) =>
        let! p := inode_open (inode_sector e) in
        match p with
        | None => ret (None, false)
        | Some q =>
            let e := mk_dir_entry (inode_sector e) (e_name e) 0 in
            let! n := inode_write_at (d_inode d) (encode_dir_entry e) dir_entry_size ofs in
            if negb (n =? dir_entry_size) then ret (p, false)
            else let! _ := inode_remove q in ret (p, true)
        end
    end in
  let! _ := inode_close p in
  ret success.

Fixpoint readdir_loop (fuel : nat) (d : dir) : M (option (list Z) * dir) :=
  match fuel with
  | O => fun _ => NoFuel
  | S fuel =>
      let! e := read_entry (d_inode d) (d_pos d) in
      match e with
      | None => ret (None, d)
      | Some e =>
          let! pos := lift (int_ (d_pos d + dir_entry_size)) in
          let d := mk_dir (d_inode d) pos in
          if negb (in_use e =? 0) then let! nm := lift (entry_name e) in ret (Some nm, d)
          else readdir_loop fuel d
      end
  end.
Definition dir_readdir (d : dir) : M (option (list Z) * dir) :=
  let! fuel := dir_fuel d in readdir_loop fuel d.

(** ** The file system (filesys.c) *)

Definition filesys_create (e0 : list Z) (name : list Z) (initial_size : Z) : M bool :=
  let! d := dir_open_root in
  let! (success, sec) :=
    match d with
    | None => ret (false, 0)
    | Some d =>
        let! st := free_map_allocate 1 in
        match st with
        | None => ret (false, 0)
        | Some sec =>
            let! ok := inode_create sec initial_size in
            if negb ok then ret (false, sec)
            else let! ok := dir_add e0 d name sec in ret (ok, sec)
        end
    end in
  let! _ := (if negb success && negb (sec =? 0) then free_map_release sec 1 else ret tt) in
  let! _ := dir_close d in
  ret success.

Definition filesys_open (name : list Z) : M (option file) :=
  let! d := dir_open_root in
  let! p := match d with Some d => dir_lookup d name | None => ret None end in
  let! _ := dir_close d in
  file_open p.

Definition filesys_remove (name : list Z) : M bool :=
  let! d := dir_open_root in
  let! success := match d with Some d => dir_remove d name | None => ret false end in
  let! _ := dir_close d in
  ret success.

Definition do_format : M unit :=
  let! _ := free_map_create in
  let! ok := dir_create ROOT_DIR_SECTOR 16 in
  assert! ok in
  free_map_close.

Definition filesys_init (words : list Z) (format : bool) : M unit :=
  let! _ := inode_init in
  let! _ := free_map_init words in
  let! _ := (if format then do_format else ret tt) in
  free_map_open.
Definition filesys_done : M unit := free_map_close.
End FileSystem.
