(* ===== verification/InodeFacts.v ===== *)
(** Reading and writing inodes: the transfer loops of Fs against the byte contents of a file. *)
From S2P Require Import Prelude Palloc KString KStdlib Endian Bitmap Block Fs.

(** * Lists of sectors *)

Lemma concat_length_512 (l : list sector) : Forall sector_ok l -> length (concat l) = (512 * length l)%nat.
Proof.
  induction 1 as [|x l [Hx _] _ IH]; [done|]. cbn [concat length]. rewrite length_app, Hx, IH. lia.
Qed.

Lemma concat_drop (l : list sector) q data o : Forall sector_ok l -> l !! q = Some data -> (o <= 512)%nat ->
  drop (512 * q + o) (concat l) = drop o data ++ concat (drop (S q) l).
Proof.
  intros Hl Hq Ho. rewrite <- (take_drop_middle l q data Hq) at 1.
  assert (Hlen : length (concat (take q l)) = (512 * q)%nat).
  { rewrite concat_length_512 by (by apply Forall_take). rewrite length_take.
    pose proof (lookup_lt_Some _ _ _ Hq). lia. }
  assert (Hd : length data = 512%nat) by (by apply (Forall_lookup_1 _ _ _ _ Hl) in Hq as [? _]).
  rewrite concat_app. cbn [concat]. rewrite drop_app_ge by lia. rewrite drop_app_le by lia.
  do 2 f_equal. lia.
Qed.

Lemma concat_chunk (l : list sector) q data o c : Forall sector_ok l -> l !! q = Some data -> (o + c <= 512)%nat ->
  take c (drop (512 * q + o) (concat l)) = take c (drop o data).
Proof.
  intros Hl Hq Ho. rewrite (concat_drop l q data) by (done || lia).
  assert (Hd : length data = 512%nat) by (by apply (Forall_lookup_1 _ _ _ _ Hl) in Hq as [? _]).
  rewrite take_app_le; [done|]. rewrite length_drop. lia.
Qed.

Lemma splice_length ofs bytes l : (ofs + length bytes <= length l)%nat -> length (splice ofs bytes l) = length l.
Proof. intros H. unfold splice. rewrite !length_app, length_take, length_drop. lia. Qed.

Lemma splice_nil ofs l : splice ofs [] l = l.
Proof. unfold splice. cbn. by rewrite Nat.add_0_r, take_drop. Qed.

Lemma splice_splice o a b l : (o + length a <= length l)%nat ->
  splice (o + length a) b (splice o a l) = splice o (a ++ b) l.
Proof.
  intros H. unfold splice. rewrite (app_assoc (take o l)), length_app.
  assert (Hl : length (take o l ++ a) = (o + length a)%nat) by (rewrite length_app, length_take; lia).
  rewrite take_app_length' by done. rewrite drop_app_ge by lia. rewrite drop_drop, Hl, <- !app_assoc.
  do 4 f_equal. lia.
Qed.

Lemma splice_bytes o a l : is_bytes a -> is_bytes l -> is_bytes (splice o a l).
Proof. intros. unfold splice. rewrite !is_bytes_app. auto with bytes. Qed.

Lemma splice_app_mid o a l1 l2 l3 : (o + length a <= length l2)%nat ->
  splice (length l1 + o) a (l1 ++ l2 ++ l3) = l1 ++ splice o a l2 ++ l3.
Proof.
  intros H. unfold splice. rewrite take_app_ge, drop_app_ge by lia.
  replace (length l1 + o - length l1)%nat with o by lia.
  replace (length l1 + o + length a - length l1)%nat with (o + length a)%nat by lia.
  rewrite take_app_le, drop_app_le by lia. by rewrite <- !app_assoc.
Qed.

Lemma concat_splice (l : list sector) q data o bytes : Forall sector_ok l -> l !! q = Some data ->
  (o + length bytes <= 512)%nat ->
  concat (<[q := splice o bytes data]> l) = splice (512 * q + o) bytes (concat l).
Proof.
  intros Hl Hq Ho.
  assert (Hd : length data = 512%nat) by (by apply (Forall_lookup_1 _ _ _ _ Hl) in Hq as [? _]).
  pose proof (lookup_lt_Some _ _ _ Hq) as Hlt.
  rewrite insert_take_drop by done. rewrite <- (take_drop_middle l q data Hq) at 3.
  rewrite !concat_app. cbn [concat].
  assert (Hlen : length (concat (take q l)) = (512 * q)%nat).
  { rewrite concat_length_512 by (by apply Forall_take). rewrite length_take. lia. }
  rewrite <- Hlen, splice_app_mid by lia. done.
Qed.

Lemma splice_take n o bytes l : (o + length bytes <= n)%nat -> (o + length bytes <= length l)%nat ->
  take n (splice o bytes l) = splice o bytes (take n l).
Proof.
  intros H1 H2. unfold splice. rewrite take_app_ge, length_take, Nat.min_l by (rewrite ?length_take; lia).
  rewrite take_app_ge by lia. rewrite take_take, Nat.min_l by lia. rewrite take_drop_commute.
  do 4 f_equal. lia.
Qed.

Lemma drop_take_inner {A} n m k (l : list A) : (m + n <= k)%nat -> take n (drop m (take k l)) = take n (drop m l).
Proof. intros H. by rewrite !take_drop_commute, take_take, Nat.min_l by lia. Qed.

(** * Contents *)

Definition data_sectors (v : list sector) (d : inode_disk) : list sector :=
  take (Z.to_nat (bytes_to_sectors (i_length d))) (drop (Z.to_nat (i_start d)) v).

(** The bytes of the file described by an on-disk inode. *)
Definition content (v : list sector) (d : inode_disk) : list Z :=
  take (Z.to_nat (i_length d)) (concat (data_sectors v d)).

Definition data_ok (size : Z) (d : inode_disk) : Prop :=
  0 <= i_length d < 2 ^ 31 /\ 0 <= i_start d /\ i_start d + bytes_to_sectors (i_length d) <= size.

(** The sectors of the extent of [d]. *)
Definition in_extent (d : inode_disk) (x : Z) : Prop :=
  i_start d <= x < i_start d + bytes_to_sectors (i_length d).

Lemma bytes_to_sectors_eq len : 0 <= len < 2 ^ 31 -> bytes_to_sectors len = (len + 511) / 512.
Proof.
  intros H. unfold bytes_to_sectors, DIV_ROUND_UP, BLOCK_SECTOR_SIZE. rewrite u32_small by lia. f_equal. lia.
Qed.

Section Contents.
Variables (v : list sector) (d : inode_disk).
Hypothesis Hv : Forall sector_ok v.
Hypothesis Hd : data_ok (Z.of_nat (length v)) d.

Lemma data_sectors_ok : Forall sector_ok (data_sectors v d) /\
  Z.of_nat (length (data_sectors v d)) = bytes_to_sectors (i_length d).
Proof.
  split; [by apply Forall_take, Forall_drop|]. unfold data_sectors. rewrite length_take, length_drop.
  destruct Hd as (Hl & Hs & Hfit). rewrite bytes_to_sectors_eq in * by done.
  pose proof (Z.div_pos (i_length d + 511) 512). lia.
Qed.

Lemma content_length : Z.of_nat (length (content v d)) = i_length d.
Proof.
  unfold content. destruct data_sectors_ok as [H1 H2]. rewrite length_take, concat_length_512 by done.
  destruct Hd as (Hl & _). rewrite bytes_to_sectors_eq in H2 by done.
  pose proof (Z.div_mod (i_length d + 511) 512). pose proof (Z.mod_pos_bound (i_length d + 511) 512). lia.
Qed.

(** The sector of a byte of the file. *)
Lemma content_sector offset : 0 <= offset < i_length d -> exists data,
  v !! Z.to_nat (i_start d + offset / 512) = Some data /\
  data_sectors v d !! Z.to_nat (offset / 512) = Some data /\ sector_ok data /\
  0 <= i_start d + offset / 512 < Z.of_nat (length v).
Proof.
  intros Ho. destruct data_sectors_ok as [H1 H2]. destruct Hd as (Hl & Hs & Hfit).
  assert (Hq : 0 <= offset / 512 < bytes_to_sectors (i_length d)).
  { rewrite bytes_to_sectors_eq by done. split; [apply Z.div_pos; lia|].
    pose proof (Z.div_mod offset 512). pose proof (Z.mod_pos_bound offset 512).
    pose proof (Z.div_mod (i_length d + 511) 512). pose proof (Z.mod_pos_bound (i_length d + 511) 512). lia. }
  destruct (lookup_lt_is_Some_2 v (Z.to_nat (i_start d + offset / 512))) as [data Hdata]; [lia|].
  exists data. split; [done|]. split.
  - unfold data_sectors. rewrite lookup_take_lt, lookup_drop by lia.
    rewrite <- Hdata. f_equal. lia.
  - split; [by apply (Forall_lookup_1 _ _ _ _ Hv Hdata)|lia].
Qed.

Lemma content_chunk offset data c : 0 <= offset ->
  data_sectors v d !! Z.to_nat (offset / 512) = Some data ->
  0 <= c -> offset + c <= i_length d -> offset mod 512 + c <= 512 ->
  take (Z.to_nat c) (drop (Z.to_nat offset) (content v d)) =
  take (Z.to_nat c) (drop (Z.to_nat (offset mod 512)) data).
Proof.
  intros Ho Hq Hc Hle H512. unfold content.
  rewrite drop_take_inner by lia. pose proof (Z.div_mod offset 512). pose proof (Z.mod_pos_bound offset 512).
  assert (0 <= offset / 512) by (apply Z.div_pos; lia).
  replace (Z.to_nat offset) with (512 * Z.to_nat (offset / 512) + Z.to_nat (offset mod 512))%nat by lia.
  apply concat_chunk; [by apply data_sectors_ok|done|lia].
Qed.

(** Replacing part of one sector replaces part of the file. *)
Lemma content_update offset data bytes : 0 <= offset ->
  data_sectors v d !! Z.to_nat (offset / 512) = Some data ->
  offset + Z.of_nat (length bytes) <= i_length d -> offset mod 512 + Z.of_nat (length bytes) <= 512 ->
  content (<[Z.to_nat (i_start d + offset / 512) := splice (Z.to_nat (offset mod 512)) bytes data]> v) d =
  splice (Z.to_nat offset) bytes (content v d).
Proof.
  intros Ho Hq Hle H512. pose proof (Z.div_mod offset 512). pose proof (Z.mod_pos_bound offset 512).
  assert (0 <= offset / 512) by (apply Z.div_pos; lia). destruct Hd as (Hl & Hs & Hfit).
  unfold content, data_sectors. rewrite drop_insert_ge by lia. pose proof (lookup_lt_Some _ _ _ Hq) as Hlt.
  unfold data_sectors in Hlt. rewrite length_take in Hlt. rewrite take_insert_lt by lia.
  replace (Z.to_nat (i_start d + offset / 512) - Z.to_nat (i_start d))%nat with (Z.to_nat (offset / 512)) by lia.
  fold (data_sectors v d). destruct data_sectors_ok as [Hok Hlen].
  rewrite (concat_splice _ _ _ _ _ Hok Hq) by lia.
  replace (512 * Z.to_nat (offset / 512) + Z.to_nat (offset mod 512))%nat with (Z.to_nat offset) by lia.
  rewrite splice_take; [done|lia|]. rewrite concat_length_512 by done.
  rewrite bytes_to_sectors_eq in Hlen by done.
  pose proof (Z.div_mod (i_length d + 511) 512). pose proof (Z.mod_pos_bound (i_length d + 511) 512). lia.
Qed.

Lemma content_bytes : is_bytes (content v d).
Proof.
  unfold content. apply is_bytes_take. destruct data_sectors_ok as [Hok _].
  induction Hok as [|x l [_ Hx] _ IH]; [constructor|]. cbn. apply is_bytes_app. by split.
Qed.

End Contents.

(** * The transfer loops *)

(** Only the device and the allocation answers change. *)
Definition fs_same {D} (s s' : fs_state D) : Prop :=
  inodes s' = inodes s /\ open_inodes s' = open_inodes s /\ next_inode s' = next_inode s /\
  free_map s' = free_map s /\ free_map_file s' = free_map_file s.

Lemma fs_same_refl {D} (s : fs_state D) : fs_same s s.
Proof. done. Qed.
Lemma fs_same_trans {D} (s1 s2 s3 : fs_state D) : fs_same s1 s2 -> fs_same s2 s3 -> fs_same s1 s3.
Proof. intros (? & ? & ? & ? & ?) (? & ? & ? & ? & ?). unfold fs_same. split_and!; congruence. Qed.

Section Transfer.
Context {D : Type} `{!block_device D} `{!block_device_laws D}.
Implicit Types s : fs_state D.

Lemma alloc_Ret s : exists ok s', alloc s = Ret (ok, s') /\ fs_same s s' /\ dev s' = dev s /\
  (fs_mallocs s = [] -> ok = true /\ fs_mallocs s' = []).
Proof.
  unfold alloc. destruct (fs_mallocs s) as [|ok l] eqn:E.
  - exists true, s. split_and!; done.
  - eexists ok, _. split; [done|]. by split_and!.
Qed.

(** What a sector-by-sector transfer of [size] bytes at [offset] does at its head. *)
Definition chunk_of (len size offset : Z) : Z :=
  Z.min size (Z.min (len - offset) (512 - offset mod 512)).

Lemma chunk_eq len size offset : 0 <= offset ->
  let left := if len - offset <? BLOCK_SECTOR_SIZE - Z.rem offset BLOCK_SECTOR_SIZE then len - offset
              else BLOCK_SECTOR_SIZE - Z.rem offset BLOCK_SECTOR_SIZE in
  (if size <? left then size else left) = chunk_of len size offset.
Proof.
  intros Ho. unfold chunk_of, BLOCK_SECTOR_SIZE. cbv zeta. rewrite Z.rem_mod_nonneg by lia.
  destruct (len - offset <? _) eqn:?; destruct (size <? _) eqn:?; lia.
Qed.

(** The remaining iterations fit the fuel. *)
Definition enough (fuel : nat) (len size offset : Z) : Prop :=
  (0 < fuel)%nat /\
  (size <= 0 \/ len <= offset \/ offset mod 512 + size <= 512 * (Z.of_nat fuel - 1)).

Lemma enough_start len size offset : 0 <= offset -> 0 <= size -> enough (transfer_fuel size) len size offset.
Proof.
  intros. unfold enough, transfer_fuel. split; [lia|]. right; right.
  pose proof (Z.mod_pos_bound offset 512). pose proof (Z.div_mod size 512). pose proof (Z.mod_pos_bound size 512).
  pose proof (Z.div_pos size 512). lia.
Qed.

Lemma enough_step fuel len size offset : 0 <= offset -> 0 < size ->
  let c := chunk_of len size offset in 0 < c ->
  enough (S fuel) len size offset -> enough fuel len (size - c) (offset + c).
Proof.
  intros Ho Hs c Hc [_ He]. unfold c, chunk_of in *. pose proof (Z.mod_pos_bound offset 512).
  destruct He as [?|[?|He]]; [lia|lia|]. unfold enough. split; [lia|].
  destruct (decide (c = size)); [left; unfold c, chunk_of in *; lia|].
  destruct (decide (c = len - offset)); [right; left; unfold c, chunk_of in *; lia|].
  right; right. assert (c = 512 - offset mod 512) as Hc' by (unfold c, chunk_of in *; lia).
  unfold c, chunk_of in Hc'. rewrite Hc'.
  replace (offset + (512 - offset mod 512)) with ((offset / 512 + 1) * 512)
    by (pose proof (Z.div_mod offset 512); lia).
  rewrite Z.mod_mul by lia. lia.
Qed.

(** The sector that holds byte [offset] of the file, as the code computes it. *)
Lemma sector_idx_eq (v : list sector) i offset : data_ok (Z.of_nat (length v)) (i_data i) -> Z.of_nat (length v) < 2 ^ 32 ->
  0 <= offset < i_length (i_data i) -> byte_to_sector i offset = i_start (i_data i) + offset / 512.
Proof.
  intros (Hl & Hs & Hfit) Hv Ho. unfold byte_to_sector, BLOCK_SECTOR_SIZE.
  replace (offset <? i_length (i_data i)) with true by lia. rewrite Z.quot_div_nonneg by lia.
  rewrite bytes_to_sectors_eq in Hfit by done. apply u32_small.
  pose proof (Z.div_pos offset 512). pose proof (Z.div_le_mono offset (i_length (i_data i) + 511) 512). lia.
Qed.

Lemma read_sector_Ret s sec data : bd_ok (dev s) -> 0 <= sec -> bd_view (dev s) !! Z.to_nat sec = Some data ->
  exists s', read_sector sec s = Ret (data, s') /\ bd_ok (dev s') /\ bd_view (dev s') = bd_view (dev s) /\
    fs_same s s' /\ fs_mallocs s' = fs_mallocs s.
Proof.
  intros Hok Hs Hd. destruct (bd_size_view (dev s) Hok) as [Hsz _]. pose proof (lookup_lt_Some _ _ _ Hd).
  destruct (bd_read_ok (dev s) sec Hok) as (d' & data' & Hr & Hd' & Hok' & Hv); [lia|].
  unfold read_sector. rewrite Hr. cbn [obind]. rewrite Hd in Hd'. injection Hd' as <-.
  eexists. split; [done|]. by split_and!.
Qed.

Lemma write_sector_Ret s sec data : bd_ok (dev s) -> 0 <= sec < Z.of_nat (length (bd_view (dev s))) -> sector_ok data ->
  exists s', write_sector sec data s = Ret (tt, s') /\ bd_ok (dev s') /\
    bd_view (dev s') = <[Z.to_nat sec := data]> (bd_view (dev s)) /\
    fs_same s s' /\ fs_mallocs s' = fs_mallocs s.
Proof.
  intros Hok Hs Hd. destruct (bd_size_view (dev s) Hok) as [Hsz _].
  destruct (bd_write_ok (dev s) sec data Hok) as (d' & Hr & Hok' & Hv); [lia|done|].
  unfold write_sector. rewrite Hr. cbn [obind]. eexists. split; [done|]. by split_and!.
Qed.

Lemma read_loop_Ret p i fuel : forall s size offset bounce buffer,
  bd_ok (dev s) -> inodes s !! p = Some i -> data_ok (Z.of_nat (length (bd_view (dev s)))) (i_data i) ->
  0 <= offset -> offset < 2 ^ 31 -> 0 <= size -> enough fuel (i_length (i_data i)) size offset ->
  exists s' k, read_loop fuel p size offset bounce buffer s
      = Ret (buffer ++ take k (drop (Z.to_nat offset) (content (bd_view (dev s)) (i_data i))), s') /\
    bd_ok (dev s') /\ bd_view (dev s') = bd_view (dev s) /\ fs_same s s' /\
    (k <= Z.to_nat size)%nat /\ (fs_mallocs s = [] -> k = Z.to_nat size /\ fs_mallocs s' = []).
Proof.
  induction fuel as [|fuel IH]; intros s size offset bounce buffer Hok Hi Hd Ho Ho' Hsz Hen; [destruct Hen; lia|].
  cbn [read_loop]. destruct (0 <? size) eqn:Es.
  2: { exists s, O. rewrite app_nil_r. split_and!; done || lia || (intros; split; [lia|done]). }
  unfold bind at 1. unfold get_inode. rewrite Hi. cbn [deref obind].
  destruct (bd_size_view (dev s) Hok) as [Hbsz Hb32]. pose proof (bd_sectors (dev s) Hok) as Hsec.
  set (len := i_length (i_data i)) in *. pose proof Hd as (Hl & Hst & Hfit). fold len in Hl.
  rewrite int_Ret by lia. rewrite bind_lift_Ret.
  rewrite (chunk_eq len size offset Ho). set (c := chunk_of len size offset).
  destruct (c <=? 0) eqn:Ec.
  { exists s, (Z.to_nat size). rewrite (drop_ge (content _ _)), take_nil, app_nil_r.
    - split_and!; done || lia.
    - pose proof (content_length (bd_view (dev s)) (i_data i) ltac:(done) ltac:(done)).
      unfold c, chunk_of in Ec. pose proof (Z.mod_pos_bound offset 512). fold len in H. lia. }
  pose proof (Z.mod_pos_bound offset 512 ltac:(lia)) as Hmod.
  assert (Hcb : 0 < c /\ c <= size /\ offset + c <= len /\ offset mod 512 + c <= 512) by (unfold c, chunk_of in *; lia).
  destruct (content_sector _ _ Hsec Hd offset ltac:(fold len; lia)) as (data & Hdata & Hdq & Hdok & Hrange).
  pose proof (content_chunk _ _ Hsec Hd offset data c ltac:(lia) Hdq ltac:(lia) ltac:(fold len; lia) ltac:(lia)) as Hchunk.
  rewrite (sector_idx_eq (bd_view (dev s)) i offset Hd ltac:(lia) ltac:(fold len; lia)).
  change (Z.rem offset BLOCK_SECTOR_SIZE) with (Z.rem offset 512) in *. rewrite Z.rem_mod_nonneg by lia.
  pose proof (enough_step fuel len size offset ltac:(lia) ltac:(lia) ltac:(fold c; lia) Hen) as Hen'. fold c in Hen'.
  (* The step shared by both branches. *)
  assert (Hstep : forall s0 bounce' got, bd_ok (dev s0) -> bd_view (dev s0) = bd_view (dev s) -> fs_same s s0 ->
    (fs_mallocs s = [] -> fs_mallocs s0 = []) -> got = take (Z.to_nat c) (drop (Z.to_nat offset) (content (bd_view (dev s)) (i_data i))) ->
    exists s' k, (let! offset' := lift (int_ (offset + c)) in
       read_loop fuel p (size - c) offset' bounce' (buffer ++ got)) s0
      = Ret (buffer ++ take k (drop (Z.to_nat offset) (content (bd_view (dev s)) (i_data i))), s') /\
    bd_ok (dev s') /\ bd_view (dev s') = bd_view (dev s) /\ fs_same s s' /\
    (k <= Z.to_nat size)%nat /\ (fs_mallocs s = [] -> k = Z.to_nat size /\ fs_mallocs s' = [])).
  { intros s0 bounce' got Hok0 Hv0 Hsame Hm ->. rewrite int_Ret by lia. rewrite bind_lift_Ret.
    destruct (IH s0 (size - c) (offset + c) bounce' (buffer ++ take (Z.to_nat c) (drop (Z.to_nat offset) (content (bd_view (dev s)) (i_data i)))))
      as (s' & k & Hr & Hok' & Hv' & Hsame' & Hk & Hm'); rewrite ?Hv0; [done|by rewrite (proj1 Hsame)|done|lia|lia|lia|done|].
    exists s', (Z.to_nat c + k)%nat. rewrite Hr, Hv0. split.
    - rewrite <- app_assoc. do 3 f_equal. replace (Z.to_nat (offset + c)) with (Z.to_nat offset + Z.to_nat c)%nat by lia.
      rewrite <- drop_drop. apply take_take_drop.
    - split_and!; [done|congruence|by eapply fs_same_trans|lia|].
      intros Hml. destruct (Hm' (Hm Hml)) as [-> ?]. split; [lia|done]. }
  destruct ((offset mod 512 =? 0) && (c =? BLOCK_SECTOR_SIZE)) eqn:Efull.
  - unfold bind at 1. destruct (read_sector_Ret s (i_start (i_data i) + offset / 512) data Hok ltac:(lia) Hdata)
      as (s0 & -> & Hok0 & Hv0 & Hsame0 & Hm0). cbn [obind]. apply Hstep; [done|done|done|congruence|].
    rewrite Hchunk. unfold BLOCK_SECTOR_SIZE in Efull. replace (offset mod 512) with 0 by lia. rewrite drop_0.
    symmetry. apply take_ge. destruct Hdok as [-> _]. lia.
  - assert (exists ok s0, (if bounce then ret true else alloc) s = Ret (ok, s0) /\ fs_same s s0 /\ dev s0 = dev s /\
      (fs_mallocs s = [] -> ok = true /\ fs_mallocs s0 = [])) as (ok & s0 & Hal & Hsame0 & Hdev0 & Hm0).
    { destruct bounce; [by exists true, s|apply alloc_Ret]. }
    unfold bind at 1. rewrite Hal. cbn [obind]. destruct ok; cbn [negb].
    2: { exists s0, O. rewrite app_nil_r, Hdev0. split_and!; try done; [lia|]. intros Hml. by destruct (Hm0 Hml). }
    unfold bind at 1. rewrite <- Hdev0 in Hok, Hdata.
    destruct (read_sector_Ret s0 (i_start (i_data i) + offset / 512) data Hok ltac:(lia) Hdata)
      as (s1 & -> & Hok1 & Hv1 & Hsame1 & Hm1). cbn [obind]. apply Hstep.
    + done.
    + congruence.
    + by eapply fs_same_trans.
    + intros Hml. destruct (Hm0 Hml). congruence.
    + done.
Qed.

(** What writing the first [k] of the bytes [bytes] at [offset] does. *)
Definition written s s' (d : inode_disk) (offset k : Z) (bytes : list Z) : Prop :=
  bd_ok (dev s') /\ length (bd_view (dev s')) = length (bd_view (dev s)) /\
  (forall x, ~ in_extent d (Z.of_nat x) -> bd_view (dev s') !! x = bd_view (dev s) !! x) /\
  content (bd_view (dev s')) d =
    splice (Z.to_nat offset) (take (Z.to_nat k) bytes) (content (bd_view (dev s)) d) /\
  fs_same s s'.

Lemma written_nothing s s' d offset bytes : bd_ok (dev s) -> dev s' = dev s -> fs_same s s' ->
  written s s' d offset 0 bytes.
Proof.
  intros Hok Hd Hs. unfold written. rewrite Hd. change (Z.to_nat 0) with O. rewrite take_0, splice_nil. by split_and!.
Qed.

Lemma written_chunk s s1 s2 d offset c k bytes : Forall sector_ok (bd_view (dev s)) ->
  data_ok (Z.of_nat (length (bd_view (dev s)))) d -> 0 <= offset -> 0 <= c -> 0 <= k -> offset + c <= i_length d ->
  c <= Z.of_nat (length bytes) ->
  written s s1 d offset c (take (Z.to_nat c) bytes) ->
  written s1 s2 d (offset + c) k (drop (Z.to_nat c) bytes) ->
  written s s2 d offset (c + k) bytes.
Proof.
  intros Hsec Hd Ho Hc Hk Hle Hlen (Hok1 & Hl1 & Hf1 & Hc1 & Hs1) (Hok2 & Hl2 & Hf2 & Hc2 & Hs2).
  unfold written. split_and!; [done|congruence|intros x Hx; by rewrite Hf2, Hf1| |by eapply fs_same_trans].
  rewrite Hc2, Hc1, take_take, Nat.min_id.
  assert (Hlc : length (take (Z.to_nat c) bytes) = Z.to_nat c) by (rewrite length_take; lia).
  pose proof (content_length _ _ Hsec Hd).
  replace (Z.to_nat (offset + c)) with (Z.to_nat offset + length (take (Z.to_nat c) bytes))%nat by lia.
  rewrite splice_splice by lia. f_equal. rewrite take_take_drop. f_equal. lia.
Qed.

(** Storing a chunk that lies in one sector. *)
Lemma write_chunk s (d : inode_disk) offset data chunk new :
  bd_ok (dev s) -> data_ok (Z.of_nat (length (bd_view (dev s)))) d -> 0 <= offset ->
  data_sectors (bd_view (dev s)) d !! Z.to_nat (offset / 512) = Some data ->
  0 <= i_start d + offset / 512 < Z.of_nat (length (bd_view (dev s))) -> is_bytes chunk ->
  offset + Z.of_nat (length chunk) <= i_length d -> offset mod 512 + Z.of_nat (length chunk) <= 512 ->
  0 < Z.of_nat (length chunk) -> sector_ok data ->
  new = splice (Z.to_nat (offset mod 512)) chunk data ->
  exists s', write_sector (i_start d + offset / 512) new s = Ret (tt, s') /\
    written s s' d offset (Z.of_nat (length chunk)) chunk /\ fs_mallocs s' = fs_mallocs s.
Proof.
  intros Hok Hd Ho Hq Hr Hb Hle H512 Hpos [Hdl Hdb] ->. pose proof (bd_sectors (dev s) Hok) as Hsec.
  pose proof (Z.mod_pos_bound offset 512 ltac:(lia)).
  destruct (write_sector_Ret s (i_start d + offset / 512) (splice (Z.to_nat (offset mod 512)) chunk data) Hok Hr)
    as (s' & Hw & Hok' & Hv' & Hsame & Hm).
  { split; [rewrite splice_length; [done|lia]|by apply splice_bytes]. }
  exists s'. split; [done|]. split; [|done]. unfold written. rewrite Hv'. split_and!; [done|by rewrite length_insert| | |done].
  - intros x Hx. apply list_lookup_insert_ne. intros E. apply Hx. unfold in_extent. rewrite <- E.
    destruct Hd as (Hl & Hs & Hfit). rewrite bytes_to_sectors_eq in * by done.
    pose proof (Z.div_pos offset 512). pose proof (Z.div_mod offset 512).
    pose proof (Z.div_mod (i_length d + 511) 512). pose proof (Z.mod_pos_bound (i_length d + 511) 512). lia.
  - rewrite (content_update _ _ Hsec Hd offset data chunk) by done. by rewrite Nat2Z.id, take_ge.
Qed.

Lemma splice_whole ofs bytes l l' : ofs = O -> length bytes = length l -> length l' = length l ->
  splice ofs bytes l' = splice ofs bytes l.
Proof. intros -> H H'. unfold splice. cbn. rewrite !drop_ge by lia. done. Qed.

Lemma write_loop_Ret p i buffer fuel : is_bytes buffer -> forall s size offset bw bounce,
  bd_ok (dev s) -> inodes s !! p = Some i -> data_ok (Z.of_nat (length (bd_view (dev s)))) (i_data i) ->
  0 <= offset < 2 ^ 31 -> 0 <= size -> 0 <= bw -> bw + size <= Z.of_nat (length buffer) ->
  enough fuel (i_length (i_data i)) size offset ->
  exists s' k, write_loop fuel p buffer size offset bw bounce s = Ret (bw + k, s') /\
    written s s' (i_data i) offset k (drop (Z.to_nat bw) buffer) /\
    0 <= k <= size /\
    (fs_mallocs s = [] -> k = Z.max 0 (Z.min size (i_length (i_data i) - offset)) /\ fs_mallocs s' = []).
Proof.
  intros Hbuf. induction fuel as [|fuel IH]; intros s size offset bw bounce Hok Hi Hd Ho Hsz Hbw Hfits Hen; [destruct Hen; lia|].
  cbn [write_loop]. destruct (0 <? size) eqn:Es.
  2: { exists s, 0. rewrite Z.add_0_r. split; [done|]. split; [by apply written_nothing|].
       split; [lia|]. intros. split; [lia|done]. }
  unfold bind at 1. unfold get_inode. rewrite Hi. cbn [deref obind].
  destruct (bd_size_view (dev s) Hok) as [Hbsz Hb32]. pose proof (bd_sectors (dev s) Hok) as Hsec.
  set (len := i_length (i_data i)) in *. pose proof Hd as (Hl & Hst & Hfit). fold len in Hl.
  rewrite int_Ret by lia. rewrite bind_lift_Ret.
  rewrite (chunk_eq len size offset ltac:(lia)). set (c := chunk_of len size offset).
  pose proof (Z.mod_pos_bound offset 512 ltac:(lia)) as Hmod.
  destruct (c <=? 0) eqn:Ec.
  { exists s, 0. rewrite Z.add_0_r. split; [done|]. split; [by apply written_nothing|].
    split; [lia|]. intros. split; [unfold c, chunk_of in Ec; lia|done]. }
  assert (Hcb : 0 < c /\ c <= size /\ offset + c <= len /\ offset mod 512 + c <= 512) by (unfold c, chunk_of in *; lia).
  destruct (content_sector _ _ Hsec Hd offset ltac:(fold len; lia)) as (data & Hdata & Hdq & Hdok & Hrange).
  rewrite (sector_idx_eq (bd_view (dev s)) i offset Hd ltac:(lia) ltac:(fold len; lia)).
  change (Z.rem offset BLOCK_SECTOR_SIZE) with (Z.rem offset 512) in *. rewrite Z.rem_mod_nonneg by lia.
  pose proof (enough_step fuel len size offset ltac:(lia) ltac:(lia) ltac:(fold c; lia) Hen) as Hen'. fold c in Hen'.
  set (chunk := take (Z.to_nat c) (drop (Z.to_nat bw) buffer)).
  assert (Hchunk : Z.of_nat (length chunk) = c) by (unfold chunk; rewrite length_take, length_drop; lia).
  assert (Hcb' : is_bytes chunk) by (unfold chunk; auto with bytes).
  (* After the store of the chunk. *)
  assert (Hstep : forall s1 bounce', written s s1 (i_data i) offset c chunk ->
    (fs_mallocs s = [] -> fs_mallocs s1 = []) ->
    exists s' k, (let! offset' := lift (int_ (offset + c)) in
       write_loop fuel p buffer (size - c) offset' (bw + c) bounce') s1 = Ret (bw + k, s') /\
    written s s' (i_data i) offset k (drop (Z.to_nat bw) buffer) /\ 0 <= k <= size /\
    (fs_mallocs s = [] -> k = Z.max 0 (Z.min size (len - offset)) /\ fs_mallocs s' = [])).
  { intros s1 bounce' Hw Hm. rewrite int_Ret by lia. rewrite bind_lift_Ret.
    pose proof Hw as (Hok1 & Hl1 & _ & _ & Hs1).
    destruct (IH s1 (size - c) (offset + c) (bw + c) bounce') as (s' & k & Hr & Hw' & Hk & Hm');
      [done|by rewrite (proj1 Hs1)|by rewrite Hl1|lia|lia|lia|lia|done|].
    exists s', (c + k). rewrite Hr. split; [do 2 f_equal; lia|]. split.
    - apply (written_chunk s s1 s' (i_data i) offset c k);
        [done|done|lia|lia|lia|fold len; lia|rewrite length_drop; lia|exact Hw|].
      rewrite drop_drop. by replace (Z.to_nat bw + Z.to_nat c)%nat with (Z.to_nat (bw + c)) by lia.
    - split; [lia|]. intros Hml. destruct (Hm' (Hm Hml)) as [-> ?]. split; [fold len; lia|done]. }
  destruct ((offset mod 512 =? 0) && (c =? BLOCK_SECTOR_SIZE)) eqn:Efull.
  - unfold BLOCK_SECTOR_SIZE in Efull.
    destruct (write_chunk s (i_data i) offset data chunk chunk Hok Hd ltac:(lia) Hdq Hrange Hcb' ltac:(fold len; lia)
      ltac:(lia) ltac:(lia) Hdok) as (s1 & Hw & Hwr & Hm).
    { replace (Z.to_nat (offset mod 512)) with O by lia. unfold splice. rewrite drop_ge, app_nil_r; [done|].
      destruct Hdok as [-> _]. lia. }
    unfold bind at 1. rewrite Hw. cbn [obind]. rewrite Hchunk in Hwr. apply Hstep; [done|congruence].
  - assert (exists ok s0, (if bounce then ret true else alloc) s = Ret (ok, s0) /\ fs_same s s0 /\ dev s0 = dev s /\
      (fs_mallocs s = [] -> ok = true /\ fs_mallocs s0 = [])) as (ok & s0 & Hal & Hsame0 & Hdev0 & Hm0).
    { destruct bounce; [by exists true, s|apply alloc_Ret]. }
    unfold bind at 1. rewrite Hal. cbn [obind]. destruct ok; cbn [negb].
    2: { exists s0, 0. rewrite Z.add_0_r. split; [done|]. split; [by apply written_nothing|].
         split; [lia|]. intros Hml. by destruct (Hm0 Hml). }
    assert (exists s1 old, (if (0 <? offset mod 512) || (c <? BLOCK_SECTOR_SIZE - offset mod 512)
        then read_sector (i_start (i_data i) + offset / 512) else ret (replicate 512 0)) s0 = Ret (old, s1) /\
        bd_ok (dev s1) /\ bd_view (dev s1) = bd_view (dev s) /\ fs_same s s1 /\ fs_mallocs s1 = fs_mallocs s0 /\
        splice (Z.to_nat (offset mod 512)) chunk old = splice (Z.to_nat (offset mod 512)) chunk data)
      as (s1 & old & Hold & Hok1 & Hv1 & Hs1 & Hm1 & Hsp).
    { destruct ((0 <? offset mod 512) || _) eqn:Eb.
      - rewrite <- Hdev0 in Hok, Hdata.
        destruct (read_sector_Ret s0 (i_start (i_data i) + offset / 512) data Hok ltac:(lia) Hdata)
          as (s1 & -> & Hok1 & Hv1 & Hs1 & Hm1). exists s1, data. rewrite Hdev0 in Hv1.
        split_and!; try done. by eapply fs_same_trans.
      - unfold BLOCK_SECTOR_SIZE in Eb. exists s0, (replicate 512 0). rewrite Hdev0. split_and!; try done.
        destruct Hdok as [Hdl _]. apply splice_whole; rewrite ?Hdl, ?length_replicate; lia. }
    unfold bind at 1. rewrite Hold. cbn [obind]. rewrite Hsp.
    destruct (write_chunk s1 (i_data i) offset data chunk _ Hok1 ltac:(rewrite Hv1; exact Hd) ltac:(lia)
      ltac:(rewrite Hv1; exact Hdq) ltac:(rewrite Hv1; exact Hrange) Hcb' ltac:(fold len; lia) ltac:(lia) ltac:(lia) Hdok eq_refl)
      as (s2 & Hw & Hwr & Hm2).
    unfold bind at 1. rewrite Hw. cbn [obind]. rewrite Hchunk in Hwr. apply Hstep.
    + destruct Hwr as (W1 & W2 & W3 & W4 & W5). rewrite Hv1 in *. unfold written. split_and!; try done. by eapply fs_same_trans.
    + intros Hml. destruct (Hm0 Hml). congruence.
Qed.

Lemma inode_read_at_Ret s p i size offset :
  bd_ok (dev s) -> inodes s !! p = Some i -> data_ok (Z.of_nat (length (bd_view (dev s)))) (i_data i) ->
  0 <= offset < 2 ^ 31 -> 0 <= size ->
  exists s' k, inode_read_at p size offset s
      = Ret (take k (drop (Z.to_nat offset) (content (bd_view (dev s)) (i_data i))), s') /\
    bd_ok (dev s') /\ bd_view (dev s') = bd_view (dev s) /\ fs_same s s' /\
    (k <= Z.to_nat size)%nat /\ (fs_mallocs s = [] -> k = Z.to_nat size /\ fs_mallocs s' = []).
Proof.
  intros Hok Hi Hd Ho Hs. unfold inode_read_at.
  destruct (read_loop_Ret p i (transfer_fuel size) s size offset false [] Hok Hi Hd) as (s' & k & H);
    [lia|lia|done|by apply enough_start; lia|]. by exists s', k.
Qed.

Lemma inode_write_at_Ret s p i buffer size offset :
  bd_ok (dev s) -> inodes s !! p = Some i -> data_ok (Z.of_nat (length (bd_view (dev s)))) (i_data i) ->
  deny_write_cnt i = 0 -> is_bytes buffer -> 0 <= offset < 2 ^ 31 -> 0 <= size <= Z.of_nat (length buffer) ->
  exists s' k, inode_write_at p buffer size offset s = Ret (k, s') /\
    written s s' (i_data i) offset k buffer /\ 0 <= k <= size /\
    (fs_mallocs s = [] -> k = Z.max 0 (Z.min size (i_length (i_data i) - offset)) /\ fs_mallocs s' = []).
Proof.
  intros Hok Hi Hd Hdeny Hb Ho Hs. unfold inode_write_at, bind at 1, get_inode. rewrite Hi. cbn [deref obind].
  rewrite Hdeny. cbn [Z.eqb negb].
  destruct (write_loop_Ret p i buffer (transfer_fuel size) Hb s size offset 0 false Hok Hi Hd) as (s' & k & H);
    [lia|lia|lia|lia|by apply enough_start; lia|]. exists s', k. rewrite Z.add_0_l in H. exact H.
Qed.

(** Two on-disk inodes that share no sector. *)
Definition disjoint_extents (d d' : inode_disk) : Prop := forall x, in_extent d x -> ~ in_extent d' x.

Lemma content_frame (v v' : list sector) (d : inode_disk) : length v' = length v ->
  (forall x, in_extent d (Z.of_nat x) -> v' !! x = v !! x) -> 0 <= i_start d -> content v' d = content v d.
Proof.
  intros Hl Hx Hs. unfold content. do 2 f_equal. unfold data_sectors. apply list_eq. intros j.
  destruct (decide (j < Z.to_nat (bytes_to_sectors (i_length d)))%nat) as [Hj|Hj].
  - rewrite !lookup_take_lt, !lookup_drop by done. apply Hx. unfold in_extent. lia.
  - by rewrite !lookup_take_ge by lia.
Qed.

Lemma written_frame s s' d offset k bytes d' : written s s' d offset k bytes -> 0 <= i_start d' ->
  disjoint_extents d d' -> content (bd_view (dev s')) d' = content (bd_view (dev s)) d'.
Proof.
  intros (_ & Hl & Hf & _) Hs Hdis. apply content_frame; [done| |done]. intros x Hx.
  apply Hf. intros H. by apply (Hdis (Z.of_nat x)).
Qed.
End Transfer.

(** * Theorems *)

Section Theorems.
Context {D : Type} `{!block_device D} `{!block_device_laws D}.
Variables (s : fs_state D) (p : inode_ptr) (i : inode).
Hypothesis Hok : bd_ok (dev s).
Hypothesis Hi : inodes s !! p = Some i.
Hypothesis Hd : data_ok (Z.of_nat (length (bd_view (dev s)))) (i_data i).

(** C23. [inode_read_at] terminates and returns the bytes of the file from [offset] on, at most [size] of
    them and fewer only at the end of the file or when the bounce buffer cannot be allocated; the
    contents of the device and the open inodes do not change. *)
Theorem inode_read_at_correct size offset :
  0 <= offset < 2 ^ 31 -> 0 <= size ->
  exists s' k, inode_read_at p size offset s
      = Ret (take k (drop (Z.to_nat offset) (content (bd_view (dev s)) (i_data i))), s') /\
    (k <= Z.to_nat size)%nat /\ (fs_mallocs s = [] -> k = Z.to_nat size) /\
    bd_ok (dev s') /\ bd_view (dev s') = bd_view (dev s) /\ fs_same s s'.
Proof.
  intros Ho Hs. destruct (inode_read_at_Ret s p i size offset Hok Hi Hd Ho Hs)
    as (s' & k & H1 & H2 & H3 & H4 & H5 & H6). exists s', k. split_and!; try done. intros Hm. by destruct (H6 Hm).
Qed.

(** C18. [inode_write_at] terminates and replaces the bytes of the file from [offset] on by the first
    bytes of the buffer, all [size] of them unless the end of the file comes first or the bounce buffer
    cannot be allocated; it touches no sector outside the file, so every file that shares no sector
    with it keeps its contents; while writes are denied it writes nothing. *)
Theorem inode_write_at_correct buffer size offset :
  is_bytes buffer -> 0 <= offset < 2 ^ 31 -> 0 <= size <= Z.of_nat (length buffer) ->
  (deny_write_cnt i <> 0 -> inode_write_at p buffer size offset s = Ret (0, s)) /\
  (deny_write_cnt i = 0 ->
   exists s' k, inode_write_at p buffer size offset s = Ret (k, s') /\ 0 <= k <= size /\
    (fs_mallocs s = [] -> k = Z.max 0 (Z.min size (i_length (i_data i) - offset))) /\
    content (bd_view (dev s')) (i_data i) =
      splice (Z.to_nat offset) (take (Z.to_nat k) buffer) (content (bd_view (dev s)) (i_data i)) /\
    (forall x, ~ in_extent (i_data i) (Z.of_nat x) -> bd_view (dev s') !! x = bd_view (dev s) !! x) /\
    (forall d', 0 <= i_start d' -> disjoint_extents (i_data i) d' ->
       content (bd_view (dev s')) d' = content (bd_view (dev s)) d') /\
    bd_ok (dev s') /\ fs_same s s').
Proof.
  intros Hb Ho Hs. split.
  - intros Hdeny. unfold inode_write_at, bind at 1, get_inode. rewrite Hi. cbn [deref obind].
    by replace (deny_write_cnt i =? 0) with false by lia.
  - intros Hdeny. destruct (inode_write_at_Ret s p i buffer size offset Hok Hi Hd Hdeny Hb Ho Hs)
      as (s' & k & Hr & Hw & Hk & Hm). exists s', k. split_and!; [done|lia|lia|by intros H; destruct (Hm H)| | | | |].
    + apply Hw.
    + apply Hw.
    + intros d' Hd' Hdis. by eapply written_frame.
    + apply Hw.
    + apply Hw.
Qed.

(** What was written is read back: after a write of [size] bytes that fits in the file, a read of the
    same range returns exactly those bytes. *)
Theorem write_read_roundtrip buffer size offset :
  fs_mallocs s = [] -> deny_write_cnt i = 0 ->
  is_bytes buffer -> 0 <= offset -> 0 <= size <= Z.of_nat (length buffer) -> offset + size <= i_length (i_data i) ->
  exists s' s'', inode_write_at p buffer size offset s = Ret (size, s') /\
    inode_read_at p size offset s' = Ret (take (Z.to_nat size) buffer, s'') /\
    bd_view (dev s'') = bd_view (dev s').
Proof.
  intros Hm Hdeny Hb Ho Hs Hfit. pose proof Hd as (Hl & _).
  destruct (inode_write_at_Ret s p i buffer size offset Hok Hi Hd Hdeny Hb ltac:(lia) Hs)
    as (s' & k & Hr & (Hok' & Hlen & _ & Hc & Hsame) & Hk & Hkm).
  destruct (Hkm Hm) as [-> Hm']. rewrite Z.min_l, Z.max_r in * by lia.
  destruct (inode_read_at_Ret s' p i size offset Hok') as (s'' & k & Hr' & _ & Hv & _ & _ & Hk'');
    [by rewrite (proj1 Hsame)|by rewrite Hlen|lia|lia|].
  destruct (Hk'' Hm') as [-> _]. exists s', s''. split; [done|]. split; [|done]. rewrite Hr', Hc. do 2 f_equal.
  pose proof (content_length _ _ (bd_sectors (dev s) Hok) Hd).
  unfold splice. rewrite drop_app_ge by (rewrite length_take; lia). rewrite length_take, Nat.min_l by lia.
  rewrite Nat.sub_diag, drop_0. apply take_app_length'. rewrite length_take. lia.
Qed.
End Theorems.
