(* ===== verification/DirFacts.v ===== *)
(** Directories as finite sequences of entries: lookup, insertion and listing by name. *)
From S2P Require Import Prelude Palloc KString KStdlib Endian Bitmap Block Fs InodeFacts.

(** * Specification *)

(** The complete entries of a directory file. *)
Definition entries (c : list Z) : list dir_entry :=
  map (fun j => decode_dir_entry (field c (20 * j) 20)) (seq 0 (length c / 20)).

(** The string in the name array of an entry. *)
Definition name_of (e : dir_entry) : list Z :=
  match find_pos (fun c => c =? 0) (e_name e) with Some n => take n (e_name e) | None => e_name e end.

Definition entry_is (name : list Z) (e : dir_entry) : Prop := in_use e <> 0 /\ name_of e = name.
#[export] Instance entry_is_dec name e : Decision (entry_is name e).
Proof. unfold entry_is. solve_decision. Defined.

(** The sector a directory maps a name to. *)
Definition dir_find (c : list Z) (name : list Z) : option Z :=
  inode_sector ∘ snd <$> list_find (entry_is name) (entries c).

(** The names in use are null-terminated. *)
Definition dir_ok (c : list Z) : Prop := Forall (fun e => in_use e <> 0 -> 0 ∈ e_name e) (entries c).

(** Names that the C code can pass: strings of non-null bytes. *)
Definition is_name (name : list Z) : Prop := Forall (fun c => 0 < c < 256) name.

(** * Lemmas *)

Lemma field_length c ofs n : (ofs + n <= length c)%nat -> length (field c ofs n) = n.
Proof. intros H. unfold field. rewrite length_take, length_drop. lia. Qed.

Lemma entries_lookup c j : (20 * j + 20 <= length c)%nat ->
  entries c !! j = Some (decode_dir_entry (field c (20 * j) 20)).
Proof.
  intros H. unfold entries. rewrite list_lookup_fmap, lookup_seq_lt; [done|].
  apply Nat.div_le_lower_bound; lia.
Qed.

Lemma entries_lookup_ge c j : (length c < 20 * j + 20)%nat -> entries c !! j = None.
Proof.
  intros H. apply lookup_ge_None_2. unfold entries. rewrite length_map, length_seq.
  apply Nat.lt_succ_r, Nat.div_lt_upper_bound; lia.
Qed.

Lemma entries_length c : length (entries c) = (length c / 20)%nat.
Proof. unfold entries. by rewrite length_map, length_seq. Qed.

Lemma entries_bound c : (20 * length (entries c) <= length c < 20 * length (entries c) + 20)%nat.
Proof.
  rewrite entries_length. pose proof (Nat.div_mod (length c) 20 ltac:(lia)).
  pose proof (Nat.mod_upper_bound (length c) 20 ltac:(lia)). lia.
Qed.

Definition entry_wf (e : dir_entry) : Prop :=
  0 <= inode_sector e < 2 ^ 32 /\ length (e_name e) = 15%nat /\ is_bytes (e_name e) /\ 0 <= in_use e < 256.

Lemma encode_entry_length e : entry_wf e -> length (encode_dir_entry e) = 20%nat.
Proof. intros (_ & H & _). unfold encode_dir_entry. rewrite !length_app, le_bytes_length, H. done. Qed.

Lemma encode_entry_bytes e : entry_wf e -> is_bytes (encode_dir_entry e).
Proof.
  intros (_ & _ & H & H'). unfold encode_dir_entry. rewrite !is_bytes_app. split; [apply le_bytes_bytes|]. split; [done|].
  by apply Forall_singleton.
Qed.

Lemma decode_encode_entry e : entry_wf e -> decode_dir_entry (encode_dir_entry e) = e.
Proof.
  intros (H1 & H2 & H3 & H4). unfold decode_dir_entry, encode_dir_entry. destruct e as [sec nm u]. cbn [inode_sector e_name in_use] in *. f_equal.
  - rewrite field_app_l by (rewrite le_bytes_length; lia). unfold field. rewrite drop_0, take_ge
      by (rewrite le_bytes_length; lia). apply le_value_bytes. done.
  - unfold field. rewrite drop_app_ge by (rewrite le_bytes_length; lia). rewrite le_bytes_length, Nat.sub_diag, drop_0.
    by apply take_app_length'.
  - unfold field. rewrite drop_app_ge by (rewrite le_bytes_length; lia). rewrite le_bytes_length.
    rewrite drop_app_ge by lia. rewrite H2. cbn. lia.
Qed.

Lemma decode_entry_wf l : is_bytes l -> length l = 20%nat -> entry_wf (decode_dir_entry l).
Proof.
  intros Hb Hl. pose proof (le_field_range l 0 4 Hb). pose proof (le_field_range l 19 1 Hb).
  unfold entry_wf, decode_dir_entry. cbn [inode_sector e_name in_use]. split_and!; try (cbn in *; lia).
  - apply field_length. lia.
  - unfold field. auto with bytes.
Qed.

Lemma field_splice_same c ofs bytes n : (ofs + n <= length c)%nat -> length bytes = n ->
  field (splice ofs bytes c) ofs n = bytes.
Proof.
  intros H Hn. unfold field, splice. rewrite drop_app_ge by (rewrite length_take; lia).
  rewrite length_take, Nat.min_l, Nat.sub_diag, drop_0 by lia. by apply take_app_length'.
Qed.

Lemma field_splice_other c ofs bytes o n : (ofs + length bytes <= length c)%nat ->
  (o + n <= ofs \/ ofs + length bytes <= o)%nat -> field (splice ofs bytes c) o n = field c o n.
Proof.
  intros H [Ho|Ho]; unfold field, splice.
  - rewrite !take_drop_commute. f_equal. rewrite take_app_le by (rewrite length_take; lia).
    rewrite take_take. f_equal. lia.
  - rewrite drop_app_ge by (rewrite length_take; lia). rewrite length_take, Nat.min_l by lia.
    rewrite drop_app_ge by lia. rewrite drop_drop. do 2 f_equal. lia.
Qed.

(** Overwriting one slot. *)
Lemma entries_splice c j e : (20 * j + 20 <= length c)%nat -> entry_wf e ->
  entries (splice (20 * j) (encode_dir_entry e) c) = <[j := e]> (entries c).
Proof.
  intros Hj He. pose proof (encode_entry_length e He) as Hlen. apply list_eq. intros k.
  assert (Hl : length (splice (20 * j) (encode_dir_entry e) c) = length c) by (apply splice_length; lia).
  assert (Hlt : (j < length (entries c))%nat).
  { rewrite entries_length. apply Nat.div_le_lower_bound; lia. }
  destruct (decide (20 * k + 20 <= length c)%nat) as [Hk|Hk].
  - rewrite entries_lookup by lia. destruct (decide (k = j)) as [->|Hne].
    + rewrite list_lookup_insert_eq by done. rewrite field_splice_same by lia. by rewrite decode_encode_entry.
    + rewrite list_lookup_insert_ne, entries_lookup by lia. rewrite field_splice_other by lia. done.
  - rewrite entries_lookup_ge by lia. destruct (decide (k = j)) as [->|Hne]; [lia|].
    rewrite list_lookup_insert_ne by done. by rewrite entries_lookup_ge by lia.
Qed.

Lemma name_matches_Ret name arr : is_name name -> 0 ∈ arr ->
  name_matches name arr =
  Ret (bool_decide (match find_pos (fun c => c =? 0) arr with Some n => take n arr | None => arr end = name)).
Proof.
  intros Hn. revert arr. induction Hn as [|c name Hc _ IH]; intros arr Harr.
  - destruct arr as [|c arr]; [by apply not_elem_of_nil in Harr|]. cbn. destruct (c =? 0) eqn:E; [done|].
    destruct (find_pos _ arr); by rewrite bool_decide_false by done.
  - destruct arr as [|c' arr]; [by apply not_elem_of_nil in Harr|]. cbn [name_matches find_pos].
    destruct (c' =? c) eqn:E.
    + apply Z.eqb_eq in E as ->. replace (c =? 0) with false by lia.
      apply elem_of_cons in Harr as [?|Harr]; [lia|]. rewrite (IH arr Harr).
      destruct (find_pos _ arr); cbn; f_equal; apply bool_decide_ext; naive_solver.
    + destruct (c' =? 0) eqn:E0; [by rewrite bool_decide_false|].
      destruct (find_pos _ arr); cbn; rewrite bool_decide_false; try done; intros [= ? ?]; lia.
Qed.

(** [set_name] stores a valid name. *)
Lemma set_name_wf e name sec : entry_wf e -> is_name name -> Z.of_nat (length name) <= NAME_MAX ->
  0 <= sec < 2 ^ 32 ->
  let e' := mk_dir_entry sec (e_name (set_name e name)) 1 in
  entry_wf e' /\ 0 ∈ e_name e' /\ name_of e' = name.
Proof.
  intros (_ & Hl & Hb & _) Hn Hle Hs e'. unfold NAME_MAX in Hle.
  assert (Hname : e_name e' = name ++ 0 :: drop (S (length name)) (e_name e)).
  { unfold e', set_name, splice. cbn [e_name]. rewrite take_0, take_ge by lia. cbn [app].
    rewrite length_app, <- app_assoc. cbn. do 3 f_equal. lia. }
  split; [|split].
  - unfold entry_wf. rewrite Hname. change (inode_sector e') with sec. change (in_use e') with 1. split; [done|]. split; [|split; [|lia]].
    + rewrite length_app. cbn [length]. rewrite length_drop. lia.
    + apply is_bytes_app. split; [|apply Forall_cons; split; [lia|by apply is_bytes_drop]].
      eapply Forall_impl; [exact Hn|]. cbn. lia.
  - rewrite Hname. apply elem_of_app. right. by left.
  - unfold name_of. rewrite Hname.
    replace (find_pos (fun c => c =? 0) (name ++ 0 :: drop (S (length name)) (e_name e))) with (Some (length name)).
    + by apply take_app_length'.
    + symmetry. apply find_pos_Some. split.
      * exists 0. split; [|done]. rewrite lookup_app_r, Nat.sub_diag by lia. done.
      * rewrite take_app_length' by done. eapply Forall_impl; [exact Hn|]. cbn. lia.
Qed.

(** * Directory operations when memory does not run out *)

Section Directory.
Context {D : Type} `{!block_device D} `{!block_device_laws D}.
Implicit Types s : fs_state D.

Definition calm s s' : Prop :=
  bd_ok (dev s') /\ bd_view (dev s') = bd_view (dev s) /\ fs_same s s' /\ fs_mallocs s' = [].

Lemma calm_refl s : bd_ok (dev s) -> fs_mallocs s = [] -> calm s s.
Proof. intros. by split_and!. Qed.
Lemma calm_trans s1 s2 s3 : calm s1 s2 -> calm s2 s3 -> calm s1 s3.
Proof.
  intros (? & ? & ? & ?) (? & ? & ? & ?). unfold calm. split_and!; [done|congruence|by eapply fs_same_trans|done].
Qed.

(** Directory [d] is open, with contents [c], and no allocation will fail. *)
Record dir_at s (d : dir) (i : inode) (c : list Z) : Prop := {
  da_ok : bd_ok (dev s);
  da_mallocs : fs_mallocs s = [];
  da_inode : inodes s !! d_inode d = Some i;
  da_data : data_ok (Z.of_nat (length (bd_view (dev s)))) (i_data i);
  da_content : content (bd_view (dev s)) (i_data i) = c }.

Lemma dir_at_calm s s' d i c : dir_at s d i c -> calm s s' -> dir_at s' d i c.
Proof.
  intros [H1 H2 H3 H4 H5] (C1 & C2 & C3 & C4). split; [done|done|by rewrite (proj1 C3)|by rewrite C2|by rewrite C2].
Qed.

Lemma dir_at_length s d i c : dir_at s d i c -> Z.of_nat (length c) = i_length (i_data i) /\ is_bytes c.
Proof.
  intros [H1 H2 H3 H4 <-]. pose proof (bd_sectors (dev s) H1). by split; [apply content_length|apply content_bytes].
Qed.

Lemma read_raw_Ret s d i c j : dir_at s d i c -> 20 * Z.of_nat j < 2 ^ 31 ->
  exists s', inode_read_at (d_inode d) dir_entry_size (20 * Z.of_nat j) s = Ret (field c (20 * j) 20, s') /\ calm s s'.
Proof.
  intros [H1 H2 H3 H4 H5] Hj.
  destruct (inode_read_at_Ret s (d_inode d) i dir_entry_size (20 * Z.of_nat j) H1 H3 H4 ltac:(lia) ltac:(done))
    as (s' & k & Hr & Hok & Hv & Hs & _ & Hk). destruct (Hk H2) as [-> Hm]. exists s'. split; [|done].
  rewrite Hr, H5. unfold field. do 3 f_equal. f_equal. lia.
Qed.

Lemma read_entry_Ret s d i c j : dir_at s d i c -> 20 * Z.of_nat j < 2 ^ 31 ->
  exists s', read_entry (d_inode d) (20 * Z.of_nat j) s = Ret (entries c !! j, s') /\ calm s s'.
Proof.
  intros Hd Hj. destruct (read_raw_Ret s d i c j Hd Hj) as (s' & Hr & Hc). exists s'. split; [|done].
  unfold read_entry, bind at 1. rewrite Hr. cbn [obind]. unfold ret. do 2 f_equal.
  unfold dir_entry_size. destruct (decide (20 * j + 20 <= length c)%nat) as [H|H].
  - rewrite field_length, entries_lookup by done. done.
  - rewrite entries_lookup_ge by lia. replace (_ =? 20) with false; [done|].
    unfold field. rewrite length_take, length_drop. lia.
Qed.

Lemma lookup_loop_Ret name : is_name name -> forall fuel s d i c j, dir_at s d i c -> dir_ok c ->
  (length (entries c) < fuel + j)%nat -> (j <= length (entries c))%nat ->
  exists s', lookup_loop fuel d name (20 * Z.of_nat j) s =
      Ret (match list_find (entry_is name) (drop j (entries c)) with
           | Some (k, e) => Some (e, 20 * Z.of_nat (j + k))
           | None => None
           end, s') /\ calm s s'.
Proof.
  intros Hn. induction fuel as [|fuel IH]; intros s d i c j Hd Hok Hf Hj; [lia|]. cbn [lookup_loop].
  assert (Hj' : 20 * Z.of_nat j < 2 ^ 31).
  { destruct (dir_at_length s d i c Hd) as [Hl _]. destruct (da_data _ _ _ _ Hd) as [Hr _].
    pose proof (entries_bound c). lia. }
  destruct (read_entry_Ret s d i c j Hd Hj') as (s1 & Hr & Hc1). unfold bind at 1. rewrite Hr. cbn [obind].
  destruct (entries c !! j) as [e|] eqn:Ee.
  2: { exists s1. apply lookup_ge_None_1 in Ee. by rewrite drop_ge by done. }
  rewrite (drop_S _ _ _ Ee). cbn [list_find]. pose proof (lookup_lt_Some _ _ _ Ee).
  assert (Hrest : exists s', lookup_loop fuel d name (20 * Z.of_nat j + dir_entry_size) s1 =
      Ret (match prod_map S id <$> list_find (entry_is name) (drop (S j) (entries c)) with
           | Some (k, e) => Some (e, 20 * Z.of_nat (j + k)) | None => None end, s') /\ calm s s').
  { destruct (IH s1 d i c (S j) (dir_at_calm _ _ _ _ _ Hd Hc1) Hok ltac:(lia) ltac:(lia)) as (s' & Hl & Hc').
    exists s'. split; [|by eapply calm_trans]. unfold dir_entry_size.
    replace (20 * Z.of_nat j + 20) with (20 * Z.of_nat (S j)) by lia. rewrite Hl.
    destruct (list_find _ _) as [[k e']|]; cbn; [|done]. do 5 f_equal. lia. }
  destruct (decide (in_use e = 0)) as [Hu|Hu].
  - rewrite Hu. cbn [Z.eqb negb]. rewrite decide_False by (intros [? _]; done). exact Hrest.
  - replace (in_use e =? 0) with false by lia. cbn [negb]. unfold dir_ok in Hok.
    assert (H0 : 0 ∈ e_name e) by (apply (Forall_lookup_1 _ _ _ _ Hok Ee); done).
    rewrite (name_matches_Ret name _ Hn H0). rewrite bind_lift_Ret. fold (name_of e).
    case_bool_decide as Hnm.
    + rewrite decide_True by done. exists s1. rewrite Nat.add_0_r. done.
    + rewrite decide_False by (intros [_ ?]; done). exact Hrest.
Qed.

Lemma dir_fuel_Ret s d i c : dir_at s d i c -> dir_fuel d s = Ret (length (entries c) + 1, s)%nat.
Proof.
  intros Hd. destruct (dir_at_length s d i c Hd) as [Hl _]. unfold dir_fuel, bind, get_inode.
  rewrite (da_inode _ _ _ _ Hd). cbn [deref obind]. rewrite <- Hl, entries_length. unfold ret, dir_entry_size.
  change 20 with (Z.of_nat 20). by rewrite <- (Nat2Z.inj_div (length c) 20), Nat2Z.id.
Qed.

Lemma lookup_Ret s d i c name : dir_at s d i c -> dir_ok c -> is_name name ->
  exists s', lookup d name s =
      Ret ((fun '(k, e) => (e, 20 * Z.of_nat k)) <$> list_find (entry_is name) (entries c), s') /\ calm s s'.
Proof.
  intros Hd Hok Hn. unfold lookup, bind at 1. rewrite (dir_fuel_Ret s d i c Hd). cbn [obind].
  destruct (dir_at_length s d i c Hd) as [Hl _]. destruct (da_data _ _ _ _ Hd) as [Hr _].
  destruct (lookup_loop_Ret name Hn (length (entries c) + 1) s d i c 0 Hd Hok ltac:(lia) ltac:(lia))
    as (s' & Hloop & Hc). exists s'. split; [|done]. change (20 * Z.of_nat 0) with 0 in Hloop. rewrite Hloop, drop_0.
  by destruct (list_find _ _) as [[k e]|].
Qed.

(** The first free slot, or the first offset past the entries, with the contents of the local entry. *)
Lemma free_slot_loop_Ret fuel : forall s d i c j e0, dir_at s d i c ->
  (length (entries c) < fuel + j)%nat -> (j <= length (entries c))%nat -> length e0 = 20%nat -> is_bytes e0 ->
  exists s' e k, free_slot_loop fuel d e0 (20 * Z.of_nat j) s = Ret (e, 20 * Z.of_nat (j + k), s') /\ calm s s' /\
    length e = 20%nat /\ is_bytes e /\
    match list_find (fun e => in_use e = 0) (drop j (entries c)) with
    | Some (k', _) => k = k'
    | None => (j + k)%nat = length (entries c)
    end.
Proof.
  induction fuel as [|fuel IH]; intros s d i c j e0 Hd Hf Hj He0 Heb; [lia|]. cbn [free_slot_loop].
  assert (Hj' : 20 * Z.of_nat j < 2 ^ 31).
  { destruct (dir_at_length s d i c Hd) as [Hl _]. destruct (da_data _ _ _ _ Hd) as [Hr _].
    pose proof (entries_bound c). lia. }
  destruct (read_raw_Ret s d i c j Hd Hj') as (s1 & Hr & Hc1). unfold bind at 1. rewrite Hr. cbn [obind].
  destruct (dir_at_length s d i c Hd) as [_ Hcb].
  assert (Hfb : is_bytes (field c (20 * j) 20)) by (unfold field; auto with bytes).
  assert (Hfl : (length (field c (20 * j) 20) <= 20)%nat) by (unfold field; rewrite length_take; lia).
  assert (Hsl : length (splice 0 (field c (20 * j) 20) e0) = 20%nat) by (rewrite splice_length; lia).
  assert (Hsb : is_bytes (splice 0 (field c (20 * j) 20) e0)) by (by apply splice_bytes).
  unfold dir_entry_size. destruct (decide (20 * j + 20 <= length c)%nat) as [Hin|Hout].
  - rewrite field_length in * by done. change (Z.of_nat 20 =? 20) with true. cbn iota.
    assert (Hsame : splice 0 (field c (20 * j) 20) e0 = field c (20 * j) 20).
    { unfold splice. rewrite field_length by done. rewrite drop_ge by lia. by rewrite app_nil_r. }
    rewrite Hsame in *. pose proof (entries_lookup c j Hin) as Ee. rewrite (drop_S _ _ _ Ee). cbn [list_find].
    pose proof (lookup_lt_Some _ _ _ Ee).
    destruct (decide (in_use (decode_dir_entry (field c (20 * j) 20)) = 0)) as [Hu|Hu].
    + rewrite Hu. cbn [Z.eqb]. exists s1, (field c (20 * j) 20), O. rewrite Nat.add_0_r. by split_and!.
    + replace (in_use _ =? 0) with false by lia.
      destruct (IH s1 d i c (S j) (field c (20 * j) 20) (dir_at_calm _ _ _ _ _ Hd Hc1) ltac:(lia) ltac:(lia) Hsl Hsb)
        as (s' & e & k & Hl & Hc' & He & Heb' & Hk). exists s', e, (S k).
      replace (20 * Z.of_nat j + 20) with (20 * Z.of_nat (S j)) by lia. rewrite Hl.
      split; [do 3 f_equal; lia|]. split; [by eapply calm_trans|]. split_and!; [done|done|].
      destruct (list_find _ _) as [[k' e']|]; cbn in *; lia.
  - replace (_ =? 20) with false by (unfold field; rewrite length_take, length_drop; lia).
    exists s1, (splice 0 (field c (20 * j) 20) e0), O. rewrite Nat.add_0_r. split_and!; try done.
    pose proof (entries_bound c). rewrite drop_ge by lia. cbn [list_find]. lia.
Qed.

Lemma list_find_insert_neither {A} (P : A -> Prop) `{!forall x, Decision (P x)} (l : list A) k x y :
  l !! k = Some x -> ~ P x -> ~ P y -> snd <$> list_find P (<[k := y]> l) = snd <$> list_find P l.
Proof.
  revert k. induction l as [|z l IH]; intros [|k] Hk Hx Hy; try done; cbn.
  - injection Hk as ->. by rewrite !decide_False.
  - destruct (decide (P z)); [done|]. specialize (IH k Hk Hx Hy).
    by destruct (list_find P (<[k:=y]> l)) as [[]|], (list_find P l) as [[]|].
Qed.

Lemma list_find_insert_new {A} (P : A -> Prop) `{!forall x, Decision (P x)} (l : list A) k y :
  (k < length l)%nat -> list_find P l = None -> P y -> snd <$> list_find P (<[k := y]> l) = Some y.
Proof.
  revert k. induction l as [|z l IH]; intros [|k] Hk Hn Hy; cbn in *; try lia.
  - by rewrite decide_True.
  - destruct (decide (P z)); [done|]. destruct (list_find P l) as [[]|] eqn:E; [done|].
    specialize (IH k ltac:(lia) eq_refl Hy). by destruct (list_find P (<[k:=y]> l)) as [[]|].
Qed.

Lemma dir_find_snd c name : dir_find c name = inode_sector <$> (snd <$> list_find (entry_is name) (entries c)).
Proof. unfold dir_find. by destruct (list_find _ _) as [[]|]. Qed.

(** The directory after an entry for [name] replaced a free slot. *)
Lemma dir_find_add c c' k old e name sec : entries c' = <[k := e]> (entries c) -> entries c !! k = Some old ->
  in_use old = 0 -> in_use e <> 0 -> name_of e = name -> inode_sector e = sec -> dir_find c name = None ->
  forall name', dir_find c' name' = if decide (name' = name) then Some sec else dir_find c name'.
Proof.
  intros He Hk Hold Hu Hn Hs Hnone name'. rewrite !dir_find_snd, He. case_decide as Hd.
  - subst name'. rewrite list_find_insert_new; [by rewrite <- Hs|by eapply lookup_lt_Some| |done].
    unfold dir_find in Hnone. by destruct (list_find _ _) as [[]|].
  - rewrite (list_find_insert_neither _ _ k old); [done|done|by intros [? _]|]. intros [_ ?]. congruence.
Qed.

(** Writing an entry over slot [k]; past the last entry nothing is stored in the entries. *)
Lemma write_entry_Ret s d i c e k : dir_at s d i c -> deny_write_cnt i = 0 -> entry_wf e -> (k <= length (entries c))%nat ->
  exists s' n c', inode_write_at (d_inode d) (encode_dir_entry e) dir_entry_size (20 * Z.of_nat k) s = Ret (n, s') /\
    dir_at s' d i c' /\ fs_same s s' /\ (n =? dir_entry_size) = bool_decide (k < length (entries c))%nat /\
    entries c' = (if decide (k < length (entries c))%nat then <[k := e]> (entries c) else entries c).
Proof.
  intros Hd Hdeny He Hk. pose proof (encode_entry_length e He) as Hel. pose proof (entries_bound c) as Hb.
  destruct (dir_at_length s d i c Hd) as [Hl Hcb]. destruct Hd as [H1 H2 H3 H4 H5]. pose proof H4 as (Hr & _).
  assert (Hofs : 0 <= 20 * Z.of_nat k < 2 ^ 31) by lia.
  assert (Hsz : 0 <= dir_entry_size <= Z.of_nat (length (encode_dir_entry e))) by (rewrite Hel; unfold dir_entry_size; lia).
  destruct (inode_write_at_Ret s (d_inode d) i (encode_dir_entry e) dir_entry_size (20 * Z.of_nat k) H1 H3 H4 Hdeny
    (encode_entry_bytes e He) Hofs Hsz) as (s' & n & Hw & Hwr & Hn & Hnm).
  destruct (Hnm H2) as [Hn' Hm']. pose proof Hwr as (Hok' & Hlen & _ & Hc & Hs). rewrite H5 in Hc. unfold dir_entry_size in *.
  replace (Z.to_nat (20 * Z.of_nat k)) with (20 * k)%nat in Hc by lia.
  exists s', n, (splice (20 * k) (take (Z.to_nat n) (encode_dir_entry e)) c). split; [done|]. split.
  { split; [done|done|by rewrite (proj1 Hs)|by rewrite Hlen|done]. }
  split; [done|]. destruct (decide (k < length (entries c))%nat) as [Hlt|Hge].
  - rewrite bool_decide_true by done. replace n with 20 by lia. split; [done|]. rewrite take_ge by lia.
    apply entries_splice; [lia|done].
  - rewrite bool_decide_false by done. split; [lia|]. assert (Hkl : k = length (entries c)) by lia.
    assert (Hnl : (length (take (Z.to_nat n) (encode_dir_entry e)) <= length c - 20 * k)%nat) by (rewrite length_take; lia).
    apply list_eq. intros j. destruct (decide (20 * j + 20 <= length c)%nat) as [Hj|Hj].
    + rewrite !entries_lookup by (rewrite ?splice_length; lia). do 2 f_equal. apply field_splice_other; lia.
    + rewrite !entries_lookup_ge by (rewrite ?splice_length; lia). done.
Qed.
End Directory.

(** * Theorems *)

Section Theorems.
Context {D : Type} `{!block_device D} `{!block_device_laws D}.
Variables (s : fs_state D) (d : dir) (i : inode) (c : list Z).
Hypothesis Hd : dir_at s d i c.
Hypothesis Hok : dir_ok c.

(** [lookup] terminates and finds the first entry in use whose name is [name], with its offset, and
    nothing when no entry in use has that name; it changes neither the device nor the open inodes. *)
Theorem lookup_correct name : is_name name ->
  exists s', lookup d name s =
      Ret ((fun '(k, e) => (e, 20 * Z.of_nat k)) <$> list_find (entry_is name) (entries c), s') /\
    bd_view (dev s') = bd_view (dev s) /\ fs_same s s'.
Proof.
  intros Hn. destruct (lookup_Ret s d i c name Hd Hok Hn) as (s' & Hl & _ & Hv & Hs & _). by exists s'.
Qed.

(** C32. As long as memory for the bounce buffers lasts ([dir_at]; [low_memory_duplicates_name] shows what happens
    otherwise), [dir_add] on a directory that may be written maps the new name to its sector and keeps every
    other name; it fails, leaving the entries as they were, when the name is empty or longer than 14 characters, when it is already in
    the directory, or when no entry is free (directories do not grow). *)
Theorem dir_add_correct e0 name sec :
  is_name name -> 0 <= sec < 2 ^ 32 -> length e0 = 20%nat -> is_bytes e0 -> deny_write_cnt i = 0 ->
  let valid := name <> [] /\ Z.of_nat (length name) <= NAME_MAX /\ dir_find c name = None /\
               Exists (fun e => in_use e = 0) (entries c) in
  exists s' c' success, dir_add e0 d name sec s = Ret (success, s') /\ dir_at s' d i c' /\ dir_ok c' /\ fs_same s s' /\
    (success = true <-> valid) /\
    (success = true -> forall name', dir_find c' name' = if decide (name' = name) then Some sec else dir_find c name') /\
    (success = false -> entries c' = entries c).
Proof.
  intros Hn Hs He0 Heb Hdeny valid. unfold dir_add.
  destruct (bool_decide (name = []) || (NAME_MAX <? Z.of_nat (length name))) eqn:Einv.
  { exists s, c, false. split; [done|]. split; [done|]. split; [done|]. split; [done|].
    split; [|done]. split; [done|]. intros (? & ? & _). apply orb_prop in Einv as [E|E]; [by apply bool_decide_eq_true in E|lia]. }
  apply orb_false_iff in Einv as [Ene Elen]. apply bool_decide_eq_false in Ene.
  destruct (lookup_Ret s d i c name Hd Hok Hn) as (s1 & Hl & Hc1). unfold bind at 1. rewrite Hl. cbn [obind].
  pose proof (dir_at_calm _ _ _ _ _ Hd Hc1) as Hd1.
  destruct (list_find (entry_is name) (entries c)) as [[k e]|] eqn:Ef; cbn [fmap option_fmap option_map].
  { exists s1, c, false. split; [done|]. split; [done|]. split; [done|]. split; [apply Hc1|].
    split; [|done]. split; [done|]. intros (_ & _ & Hnone & _). unfold dir_find in Hnone. by rewrite Ef in Hnone. }
  unfold bind at 1. rewrite (dir_fuel_Ret s1 d i c Hd1). cbn [obind].
  destruct (free_slot_loop_Ret (length (entries c) + 1) s1 d i c 0 e0 Hd1 ltac:(lia) ltac:(lia) He0 Heb)
    as (s2 & e & k & Hloop & Hc2 & Hel & Heb' & Hk). change (20 * Z.of_nat 0) with 0 in Hloop.
  unfold bind at 1. rewrite Hloop. cbn [obind]. rewrite drop_0 in Hk. cbn [Nat.add] in *.
  destruct (set_name_wf (decode_dir_entry e) name sec (decode_entry_wf e Heb' Hel) Hn ltac:(lia) Hs) as (Hwf & H0 & Hnm).
  pose proof (dir_at_calm _ _ _ _ _ Hd1 Hc2) as Hd2.
  assert (Hkle : (k <= length (entries c))%nat).
  { destruct (list_find (fun e => in_use e = 0) _) as [[k' e']|] eqn:E; [|lia].
    apply list_find_Some in E as (E & _). apply lookup_lt_Some in E. lia. }
  destruct (write_entry_Ret s2 d i c _ k Hd2 Hdeny Hwf Hkle) as (s3 & n & c' & Hw & Hd3 & Hs3 & Hnb & Hent).
  unfold bind at 1. rewrite Hw. cbn [obind]. unfold ret. rewrite Hnb.
  assert (Hsame : fs_same s s3) by (eapply fs_same_trans; [apply Hc1|eapply fs_same_trans; [apply Hc2|done]]).
  assert (Hnone : dir_find c name = None) by (unfold dir_find; by rewrite Ef).
  exists s3, c', (bool_decide (k < length (entries c))%nat). split; [done|]. split; [done|].
  destruct (list_find (fun e => in_use e = 0) (entries c)) as [[k' old]|] eqn:Efree.
  - subst k'. apply list_find_Some in Efree as (Hlk & Hold & _). pose proof (lookup_lt_Some _ _ _ Hlk).
    rewrite bool_decide_true by done. rewrite decide_True in Hent by done. split_and!; try done.
    + unfold dir_ok. rewrite Hent. apply Forall_insert; done.
    + split; [intros _|done]. split_and!; [done|lia|done|]. apply Exists_exists. exists old. split; [|done].
      by eapply list_elem_of_lookup_2.
    + intros _. by eapply dir_find_add.
  - rewrite bool_decide_false by lia. rewrite decide_False in Hent by lia. split_and!; try done.
    + unfold dir_ok. by rewrite Hent.
    + split; [done|]. intros (_ & _ & _ & Hex). apply list_find_None in Efree.
      apply Exists_exists in Hex as (e' & Hin & He'). rewrite Forall_forall in Efree. by apply Efree in Hin.
Qed.
End Theorems.
