(* ===== verification/FsFacts.v ===== *)
(** The free map on disk, the creation of inodes and the life of open inodes. *)
From S2P Require Import Prelude Palloc KString KStdlib Endian Bitmap Block Fs InodeFacts DirFacts.

(** * Bitmaps as bytes *)

Lemma byte_cnt_eq b : bm_wf b -> byte_cnt (bit_cnt b) = 4 * Z.of_nat (length (bits b)) /\
  byte_cnt (bit_cnt b) < 2 ^ 31.
Proof.
  intros [[H1 H2] H3 _]. unfold byte_cnt, elem_cnt, DIV_ROUND_UP, ELEM_BITS. rewrite (u32_small (_ + 32 - 1)) by lia.
  replace (bit_cnt b + 32 - 1) with (bit_cnt b + 31) by lia. rewrite <- H3.
  pose proof (Z.div_mod (bit_cnt b + 31) 32). pose proof (Z.mod_pos_bound (bit_cnt b + 31) 32).
  rewrite u32_small by lia. lia.
Qed.

Lemma bitmap_bytes_length b : length (bitmap_bytes b) = (4 * length (bits b))%nat.
Proof.
  unfold bitmap_bytes. induction (bits b) as [|w l IH]; [done|]. cbn [map concat]. rewrite length_app, le_bytes_length, IH.
  cbn [length]. lia.
Qed.

Lemma bitmap_bytes_bytes b : is_bytes (bitmap_bytes b).
Proof.
  unfold bitmap_bytes. induction (bits b) as [|w l IH]; [constructor|]. cbn [map concat]. apply is_bytes_app.
  split; [apply le_bytes_bytes|done].
Qed.

Lemma words_of_bytes_bits l : Forall (fun w => in_u32 w) l ->
  words_of_bytes (length l) (concat (map (le_bytes 4) l)) = l.
Proof.
  induction 1 as [|w l Hw _ IH]; [done|]. cbn [length words_of_bytes map concat].
  rewrite take_app_length', drop_app_length' by (by rewrite le_bytes_length). rewrite le_value_bytes by done.
  by f_equal.
Qed.

(** * On-disk inodes *)

Lemma encode_inode_ok d : sector_ok (encode_inode d).
Proof.
  unfold encode_inode. split.
  - rewrite !length_app, !le_bytes_length, length_replicate. done.
  - rewrite !is_bytes_app. split; [apply le_bytes_bytes|]. split; [apply le_bytes_bytes|]. split; [apply le_bytes_bytes|].
    by apply is_bytes_replicate.
Qed.

Lemma decode_encode_inode d : 0 <= i_start d < 2 ^ 32 -> - 2 ^ 31 <= i_length d < 2 ^ 31 -> 0 <= i_magic d < 2 ^ 32 ->
  decode_inode (encode_inode d) = d.
Proof.
  intros H1 H2 H3. destruct d as [st len mg]. cbn [i_start i_length i_magic] in *. unfold decode_inode, encode_inode.
  cbn [i_start i_length i_magic]. f_equal.
  - rewrite field_app_l by (rewrite le_bytes_length; lia). unfold field. rewrite drop_0, take_ge by (by rewrite le_bytes_length).
    by apply le_value_bytes.
  - unfold field. rewrite drop_app_ge by (rewrite le_bytes_length; lia). rewrite le_bytes_length, Nat.sub_diag, drop_0.
    rewrite take_app_length' by (by rewrite le_bytes_length). pose proof (u32_range len). rewrite le_value_bytes by done.
    unfold s32, u32. rewrite Z.add_mod_idemp_l, Z.mod_small by lia. lia.
  - unfold field. rewrite drop_app_ge by (rewrite le_bytes_length; lia). rewrite le_bytes_length.
    rewrite drop_app_ge by (rewrite le_bytes_length; lia). rewrite le_bytes_length. cbn [Nat.sub]. rewrite drop_0.
    rewrite take_app_length' by (by rewrite le_bytes_length). by apply le_value_bytes.
Qed.

Section FreeMap.
Context {D : Type} `{!block_device D} `{!block_device_laws D}.
Implicit Types s : fs_state D.

(** The free map is in memory and its file is open; memory does not run out. *)
Record fm_ok s (f : file) (fi : inode) : Prop := {
  fm_dev : bd_ok (dev s);
  fm_mem : fs_mallocs s = [];
  fm_wf : bm_wf (free_map s);
  fm_cnt : bit_cnt (free_map s) = bd_size (dev s);
  fm_file : free_map_file s = Some f;
  fm_inode : inodes s !! f_inode f = Some fi;
  fm_data : data_ok (Z.of_nat (length (bd_view (dev s)))) (i_data fi);
  fm_deny : deny_write_cnt fi = 0;
  fm_len : byte_cnt (bit_cnt (free_map s)) <= i_length (i_data fi) }.

(** The file of the free map holds the bytes of [b]. *)
Definition on_disk s (fi : inode) (b : bitmap) : Prop :=
  take (length (bitmap_bytes b)) (content (bd_view (dev s)) (i_data fi)) = bitmap_bytes b.

Lemma splice_prefix bytes l : (length bytes <= length l)%nat -> take (length bytes) (splice 0 bytes l) = bytes.
Proof. intros H. unfold splice. rewrite take_0. cbn. by apply take_app_length'. Qed.

Lemma bitmap_write_Ret s f fi b : fm_ok s f fi -> bm_wf b -> bit_cnt b = bit_cnt (free_map s) ->
  exists s', bitmap_write b f s = Ret (true, s') /\
    bd_ok (dev s') /\ length (bd_view (dev s')) = length (bd_view (dev s)) /\ fs_same s s' /\ fs_mallocs s' = [] /\
    (forall x, ~ in_extent (i_data fi) (Z.of_nat x) -> bd_view (dev s') !! x = bd_view (dev s) !! x) /\
    on_disk s' fi b.
Proof.
  intros [H1 H2 H3 H4 H5 H6 H7 H8 H9] Hb Hcnt. destruct (byte_cnt_eq b Hb) as [Hbytes Hlt]. rewrite <- Hcnt in H9.
  pose proof (bitmap_bytes_length b) as Hlen.
  destruct (inode_write_at_Ret s (f_inode f) fi (bitmap_bytes b) (byte_cnt (bit_cnt b)) 0 H1 H6 H7 H8
    (bitmap_bytes_bytes b) ltac:(lia) ltac:(lia)) as (s' & k & Hw & (W1 & W2 & W3 & W4 & W5) & Hk & Hm).
  destruct (Hm H2) as [-> Hm']. rewrite Z.sub_0_r, Z.min_l, Z.max_r in * by lia.
  exists s'. unfold bitmap_write, file_write_at, bind at 1. rewrite Hw. cbn [obind]. rewrite Z.eqb_refl.
  split; [done|]. split_and!; try done. unfold on_disk. rewrite W4. change (Z.to_nat 0) with O.
  rewrite (take_ge (bitmap_bytes b)) by lia. apply splice_prefix.
  pose proof (content_length _ _ (bd_sectors (dev s) H1) H7). lia.
Qed.

Lemma fm_ok_after s s' f fi b : fm_ok s f fi -> bm_wf b -> bit_cnt b = bit_cnt (free_map s) ->
  bd_ok (dev s') -> length (bd_view (dev s')) = length (bd_view (dev s)) -> fs_mallocs s' = [] ->
  inodes s' = inodes s -> free_map_file s' = free_map_file s -> free_map s' = b -> fm_ok s' f fi.
Proof.
  intros [H1 H2 H3 H4 H5 H6 H7 H8 H9] Hb Hcnt Hok Hlen Hm Hi Hf <-. split; rewrite ?Hi, ?Hf, ?Hlen, ?Hcnt; try done.
  destruct (bd_size_view _ Hok) as [-> _]. destruct (bd_size_view _ H1) as [E _]. rewrite Hlen. lia.
Qed.

(** Reading back what was written. *)
Lemma bitmap_read_Ret s f fi b old : fm_ok s f fi -> bm_wf b -> bit_cnt b = bit_cnt (free_map s) ->
  bm_wf old -> bit_cnt old = bit_cnt b -> on_disk s fi b ->
  (forall w, last (bits b) = Some w -> Z.land w (last_mask b) = w) ->
  exists s', bitmap_read old f s = Ret (true, b, s') /\ bd_view (dev s') = bd_view (dev s) /\ fs_same s s'.
Proof.
  intros [H1 H2 H3 H4 H5 H6 H7 H8 H9] Hb Hcnt Hold Hco Hdisk Hlast. rewrite <- Hcnt in H9.
  destruct (byte_cnt_eq b Hb) as [Hbytes Hlt]. pose proof (bitmap_bytes_length b) as Hlen.
  destruct (byte_cnt_eq old Hold) as [Hbo _]. pose proof (bitmap_bytes_length old) as Hleno. rewrite Hco in Hbo.
  unfold bitmap_read. rewrite Hco. destruct (0 <? bit_cnt b) eqn:E0.
  2: { exists s. split; [|done]. assert (Hz : bit_cnt b = 0) by (destruct Hb as [? _ _]; lia).
       pose proof (bm_len b Hb) as Lb. pose proof (bm_len old Hold) as Lo. rewrite Hco in Lo. rewrite Hz in Lb, Lo.
       change ((0 + 31) / 32) with 0 in Lb, Lo.
       assert (old = b) as ->; [|done]. destruct b as [c1 l1], old as [c2 l2]. cbn [bit_cnt bits] in *.
       f_equal; [done|]. rewrite (nil_length_inv l1), (nil_length_inv l2) by lia. done. }
  destruct (inode_read_at_Ret s (f_inode f) fi (byte_cnt (bit_cnt b)) 0 H1 H6 H7 ltac:(lia) ltac:(lia))
    as (s' & k & Hr & _ & Hv & Hs & _ & Hk). destruct (Hk H2) as [-> _]. exists s'. split; [|done].
  unfold file_read_at, bind at 1. rewrite Hr. cbn [obind]. change (Z.to_nat 0) with O. rewrite drop_0.
  replace (Z.to_nat (byte_cnt (bit_cnt b))) with (length (bitmap_bytes b)) by lia. unfold on_disk in Hdisk. rewrite Hdisk.
  replace (Z.of_nat (length (bitmap_bytes b)) =? byte_cnt (bit_cnt b)) with true by lia.
  assert (Hsp : splice 0 (bitmap_bytes b) (bitmap_bytes old) = bitmap_bytes b).
  { unfold splice. rewrite take_0, drop_ge by lia. by rewrite app_nil_r. }
  rewrite Hsp. replace (length (bits old)) with (length (bits b)) by lia.
  unfold bitmap_bytes at 1 2. rewrite words_of_bytes_bits by apply Hb.
  assert (Hel : elem_cnt (bit_cnt b) = Z.of_nat (length (bits b))).
  { destruct Hb as [[? ?] Hb _]. unfold elem_cnt, DIV_ROUND_UP, ELEM_BITS. rewrite u32_small by lia. rewrite Hb. f_equal. lia. }
  rewrite Hel. assert (Hne : (0 < length (bits b))%nat).
  { destruct Hb as [[? ?] Hb _]. assert (1 <= (bit_cnt b + 31) / 32) by (apply Z.div_le_lower_bound; lia). lia. }
  destruct (last (bits b)) as [w|] eqn:El; [|apply last_None in El; rewrite El in Hne; cbn in Hne; lia].
  pose proof El as Elk. rewrite last_lookup in Elk. unfold aread, aget.
  replace (0 <=? Z.of_nat (length (bits b)) - 1) with true by lia.
  replace (Z.to_nat (Z.of_nat (length (bits b)) - 1)) with (pred (length (bits b))) by lia. rewrite Elk. cbn [deref].
  rewrite bind_lift_Ret. assert (Hlm : last_mask old = last_mask b) by (unfold last_mask; by rewrite Hco).
  rewrite Hlm, (Hlast w eq_refl).
  rewrite (proj2 (aset_Ret (bits b) _ _ w)) by (split; [lia|reflexivity]).
  replace (Z.to_nat (Z.of_nat (length (bits b)) - 1)) with (pred (length (bits b))) by lia.
  rewrite list_insert_id by done. rewrite bind_lift_Ret. by destruct b.
Qed.

Lemma free_map_allocate_Ret s f fi cnt : fm_ok s f fi -> 0 <= cnt ->
  (exists sec s', free_map_allocate cnt s = Ret (Some sec, s') /\ first_fit (free_map s) false 0 cnt sec /\
     fm_ok s' f fi /\ on_disk s' fi (free_map s') /\ inodes s' = inodes s /\ open_inodes s' = open_inodes s /\
     next_inode s' = next_inode s /\ length (bd_view (dev s')) = length (bd_view (dev s)) /\
     (forall x, ~ in_extent (i_data fi) (Z.of_nat x) -> bd_view (dev s') !! x = bd_view (dev s) !! x) /\
     forall j, 0 <= j < bit_cnt (free_map s) ->
       bget (free_map s') j = if in_range j sec cnt then true else bget (free_map s) j) \/
  (free_map_allocate cnt s = Ret (None, s) /\ no_fit (free_map s) false 0 cnt).
Proof.
  intros Hf Hc. pose proof Hf as [H1 H2 H3 H4 H5 H6 H7 H8 H9]. destruct H3 as [[? ?] ? ?]. pose proof (fm_wf _ _ _ Hf) as H3.
  destruct (bitmap_scan_and_flip_spec (free_map s) 0 cnt false H3 ltac:(lia) Hc)
    as [(sec & b' & Hsc & Hlt & Hfit & Hwf & Hcn & Hbits)|[Hsc Hno]]; [left|right].
  - unfold free_map_allocate. unfold bind at 1, gets at 1. cbn [obind]. rewrite Hsc, bind_lift_Ret.
    unfold bind at 1, modify at 1. cbn [obind]. unfold bind at 1, gets at 1. cbn [obind free_map_file set_free_map].
    rewrite H5. replace (sec =? BITMAP_ERROR) with false by lia. cbn [negb andb].
    assert (Hf1 : fm_ok (set_free_map s b') f fi) by (by apply (fm_ok_after s (set_free_map s b') f fi b')).
    destruct (bitmap_write_Ret (set_free_map s b') f fi b' Hf1 Hwf eq_refl)
      as (s' & Hw & Hok' & Hlen & Hs & Hm & Hfr & Hdisk).
    unfold bind at 1. rewrite Hw. cbn [obind negb]. exists sec, s'. split; [done|]. split; [done|].
    destruct Hs as (S1 & S2 & S3 & S4 & S5). cbn in S1, S2, S3, S4, S5.
    split; [by apply (fm_ok_after s s' f fi b')|]. rewrite S4. by split_and!.
  - split; [|done]. unfold free_map_allocate. unfold bind at 1, gets at 1. cbn [obind]. rewrite Hsc, bind_lift_Ret.
    unfold bind at 1, modify at 1. cbn [obind]. unfold bind at 1, gets at 1. cbn [obind free_map_file set_free_map].
    rewrite H5. change (BITMAP_ERROR =? BITMAP_ERROR) with true. cbn [negb andb].
    unfold bind, ret. cbn [obind]. by destruct s.
Qed.

Lemma free_map_release_Ret s f fi sec cnt : fm_ok s f fi -> 0 <= sec -> 0 <= cnt ->
  sec + cnt <= bit_cnt (free_map s) -> all_bits (free_map s) true sec cnt ->
  exists s', free_map_release sec cnt s = Ret (tt, s') /\ fm_ok s' f fi /\ on_disk s' fi (free_map s') /\
     inodes s' = inodes s /\ open_inodes s' = open_inodes s /\ next_inode s' = next_inode s /\
     length (bd_view (dev s')) = length (bd_view (dev s)) /\ bit_cnt (free_map s') = bit_cnt (free_map s) /\
     (forall x, ~ in_extent (i_data fi) (Z.of_nat x) -> bd_view (dev s') !! x = bd_view (dev s) !! x) /\
     forall j, 0 <= j < bit_cnt (free_map s) ->
       bget (free_map s') j = if in_range j sec cnt then false else bget (free_map s) j.
Proof.
  intros Hf Hs Hc Hfit Hall. pose proof Hf as [H1 H2 H3 H4 H5 H6 H7 H8 H9].
  unfold free_map_release. unfold bind at 1, gets at 1. cbn [obind].
  destruct (bitmap_all_spec (free_map s) sec cnt H3 Hs Hc Hfit) as (r & -> & Hr). rewrite bind_lift_Ret.
  rewrite (proj2 Hr Hall).
  destruct (bitmap_set_multiple_spec (free_map s) sec cnt false H3 Hs Hc Hfit) as (b' & -> & Hwf & Hcn & Hbits).
  rewrite bind_lift_Ret. unfold bind at 1, modify at 1. cbn [obind]. unfold bind at 1, gets at 1.
  cbn [obind free_map_file set_free_map]. rewrite H5. cbn [deref]. rewrite bind_lift_Ret.
  assert (Hf1 : fm_ok (set_free_map s b') f fi) by (by apply (fm_ok_after s (set_free_map s b') f fi b')).
  destruct (bitmap_write_Ret (set_free_map s b') f fi b' Hf1 Hwf eq_refl)
    as (s' & Hw & Hok' & Hlen & Hsm & Hm & Hfr & Hdisk).
  unfold bind at 1. rewrite Hw. cbn [obind]. exists s'. split; [done|].
  destruct Hsm as (S1 & S2 & S3 & S4 & S5). cbn in S1, S2, S3, S4, S5.
  split; [by apply (fm_ok_after s s' f fi b')|]. rewrite S4. by split_and!.
Qed.

(** ** Creating inodes *)

Lemma zero_sectors_Ret n : forall s sec, bd_ok (dev s) -> 0 <= sec ->
  sec + Z.of_nat n <= Z.of_nat (length (bd_view (dev s))) ->
  exists s', zero_sectors n sec s = Ret (tt, s') /\ bd_ok (dev s') /\
    length (bd_view (dev s')) = length (bd_view (dev s)) /\ fs_same s s' /\ fs_mallocs s' = fs_mallocs s /\
    forall x, bd_view (dev s') !! x =
      if decide (sec <= Z.of_nat x < sec + Z.of_nat n) then Some (replicate 512 0) else bd_view (dev s) !! x.
Proof.
  induction n as [|n IH]; intros s sec Hok Hs Hfit; cbn [zero_sectors].
  - exists s. split; [done|]. split_and!; try done. intros x. by rewrite decide_False by lia.
  - destruct (bd_size_view (dev s) Hok) as [E Hb]. rewrite u32_small by lia.
    destruct (write_sector_Ret s sec (replicate 512 0) Hok ltac:(lia) zero_sector_ok) as (s1 & Hw & Hok1 & Hv1 & Hs1 & Hm1).
    unfold bind at 1. rewrite Hw. cbn [obind].
    destruct (IH s1 (sec + 1) Hok1 ltac:(lia)) as (s' & Hz & Hok' & Hl & Hs' & Hm' & Hx); [rewrite Hv1, length_insert; lia|].
    exists s'. split; [done|]. split; [done|]. rewrite Hl, Hv1, length_insert.
    split; [done|]. split; [by eapply fs_same_trans|]. split; [congruence|]. intros x. rewrite Hx, Hv1.
    destruct (decide (Z.of_nat x = sec)) as [Hxs|Hxs].
    + rewrite decide_False by lia. rewrite decide_True by lia.
      replace (Z.to_nat sec) with x by lia. apply list_lookup_insert_eq. lia.
    + rewrite list_lookup_insert_ne by lia. case_decide; case_decide; lia || done.
Qed.

Lemma content_zero (v : list sector) d : data_ok (Z.of_nat (length v)) d ->
  (forall x, in_extent d (Z.of_nat x) -> v !! x = Some (replicate 512 0)) ->
  content v d = replicate (Z.to_nat (i_length d)) 0.
Proof.
  intros (Hl & Hs & Hfit) Hx. unfold content.
  assert (Hds : data_sectors v d = replicate (Z.to_nat (bytes_to_sectors (i_length d))) (replicate 512 0)).
  { unfold data_sectors. apply list_eq. intros j.
    destruct (decide (j < Z.to_nat (bytes_to_sectors (i_length d)))%nat) as [Hj|Hj].
    - rewrite lookup_take_lt, lookup_drop, lookup_replicate_2 by done. apply Hx. unfold in_extent. lia.
    - rewrite lookup_take_ge by lia. symmetry. apply lookup_replicate_None. lia. }
  rewrite Hds. assert (Hc : forall n, concat (replicate n (replicate 512 0)) = replicate (n * 512) 0).
  { generalize 512%nat. intros k n. induction n as [|n IH]; [done|]. cbn [replicate concat]. by rewrite IH, <- replicate_add. }
  rewrite Hc, take_replicate. f_equal. rewrite bytes_to_sectors_eq in * by done.
  pose proof (Z.div_mod (i_length d + 511) 512). pose proof (Z.mod_pos_bound (i_length d + 511) 512).
  pose proof (Z.div_pos (i_length d + 511) 512). lia.
Qed.

(** Every sector of the extent is marked in use. *)
Definition allocated (b : bitmap) (d : inode_disk) : Prop := forall j, in_extent d j -> bget b j = true.

Lemma fit_disjoint b start cnt len d d' : first_fit b false 0 cnt start -> cnt = bytes_to_sectors len ->
  i_start d = start -> i_length d = len -> allocated b d' -> disjoint_extents d d'.
Proof.
  intros (_ & _ & Hall & _) -> <- <- Ha x Hx Hx'. unfold in_extent in Hx. pose proof (Hall x Hx). pose proof (Ha x Hx'). congruence.
Qed.

Lemma inode_create_Ret s f fi sec len : fm_ok s f fi -> allocated (free_map s) (i_data fi) ->
  0 <= len < 2 ^ 31 -> 0 <= sec < bit_cnt (free_map s) -> bget (free_map s) sec = true -> ~ in_extent (i_data fi) sec ->
  (exists s' start, inode_create sec len s = Ret (true, s') /\
     let d := mk_inode_disk start len INODE_MAGIC in
     first_fit (free_map s) false 0 (bytes_to_sectors len) start /\ fm_ok s' f fi /\ on_disk s' fi (free_map s') /\
     data_ok (Z.of_nat (length (bd_view (dev s')))) d /\
     bd_view (dev s') !! Z.to_nat sec = Some (encode_inode d) /\
     content (bd_view (dev s')) d = replicate (Z.to_nat len) 0 /\
     inodes s' = inodes s /\ open_inodes s' = open_inodes s /\ next_inode s' = next_inode s /\
     length (bd_view (dev s')) = length (bd_view (dev s)) /\
     (forall x, ~ in_extent (i_data fi) (Z.of_nat x) -> ~ in_extent d (Z.of_nat x) -> Z.of_nat x <> sec ->
        bd_view (dev s') !! x = bd_view (dev s) !! x) /\
     forall j, 0 <= j < bit_cnt (free_map s) ->
       bget (free_map s') j = if in_range j start (bytes_to_sectors len) then true else bget (free_map s) j) \/
  (inode_create sec len s = Ret (false, s) /\ no_fit (free_map s) false 0 (bytes_to_sectors len)).
Proof.
  intros Hf Ha Hlen Hsec Hbit Hnot. pose proof Hf as [H1 H2 H3 H4 H5 H6 H7 H8 H9].
  assert (Hn : 0 <= bytes_to_sectors len) by (rewrite bytes_to_sectors_eq by done; apply Z.div_pos; lia).
  assert (Halloc : forall g, (let! ok := alloc in if negb ok then ret false else g) s = g s).
  { intros g. unfold bind, alloc. rewrite H2. done. }
  unfold inode_create. replace (0 <=? len) with true by lia. cbv zeta. rewrite Halloc. clear Halloc.
  destruct (free_map_allocate_Ret s f fi (bytes_to_sectors len) Hf Hn)
    as [(start & s1 & Hal & Hfit & Hf1 & Hdisk & Hi1 & Ho1 & Hn1 & Hl1 & Hfr & Hbits)|[Hal Hno]]; [left|right].
  2: { unfold bind. rewrite Hal. done. }
  set (d := mk_inode_disk start len INODE_MAGIC). unfold bind at 1. rewrite Hal. cbn [obind].
  destruct (bd_size_view (dev s) H1) as [Hv Hv32]. pose proof Hfit as (Hst & Hend & Hall & _).
  assert (Hds : data_ok (Z.of_nat (length (bd_view (dev s)))) d) by (unfold data_ok, d; cbn; lia).
  assert (Hdis : disjoint_extents d (i_data fi)) by (by eapply fit_disjoint).
  assert (Hsd : ~ in_extent d sec).
  { intros Hin. unfold in_extent in Hin. pose proof (Hall sec Hin). congruence. }
  destruct (write_sector_Ret s1 sec (encode_inode d) (fm_dev _ _ _ Hf1) ltac:(rewrite Hl1; lia) (encode_inode_ok d))
    as (s2 & Hw & Hok2 & Hv2 & Hs2 & Hm2).
  fold d. unfold bind at 1. rewrite Hw. cbn [obind].
  destruct (zero_sectors_Ret (Z.to_nat (bytes_to_sectors len)) s2 start Hok2 Hst) as (s3 & Hz & Hok3 & Hl3 & Hs3 & Hm3 & Hx3);
    [rewrite Hv2, length_insert, Hl1; lia|].
  unfold bind at 1. rewrite Hz. cbn [obind]. exists s3, start. split; [done|]. fold d.
  destruct Hs2 as (A1 & A2 & A3 & A4 & A5). destruct Hs3 as (B1 & B2 & B3 & B4 & B5).
  assert (Hl3' : length (bd_view (dev s3)) = length (bd_view (dev s))) by (rewrite Hl3, Hv2, length_insert; done).
  assert (Hin : forall x, in_extent d (Z.of_nat x) <-> start <= Z.of_nat x < start + Z.of_nat (Z.to_nat (bytes_to_sectors len))).
  { intros x. unfold in_extent, d. cbn. lia. }
  assert (Hother : forall x, ~ in_extent d (Z.of_nat x) -> Z.of_nat x <> sec -> bd_view (dev s3) !! x = bd_view (dev s1) !! x).
  { intros x Hx Hxs. rewrite Hx3. rewrite Hin in Hx. rewrite decide_False by done. rewrite Hv2. apply list_lookup_insert_ne. lia. }
  assert (Hf3 : fm_ok s3 f fi).
  { apply (fm_ok_after s1 s3 f fi (free_map s1)); try done; [apply Hf1|congruence|rewrite Hm3, Hm2; apply Hf1|congruence..]. }
  split; [done|]. split; [done|]. split; [|split; [by rewrite Hl3'|]].
  { unfold on_disk in *. rewrite B4, A4. rewrite (content_frame (bd_view (dev s1))); [done|congruence| |apply H7].
    intros x Hx. apply Hother; [intros H; by apply (Hdis _ H)|]. intros <-. done. }
  split.
  { rewrite Hx3, decide_False by (rewrite Z2Nat.id by lia; intros ?; apply Hsd; unfold in_extent, d; cbn; lia).
    rewrite Hv2. apply list_lookup_insert_eq. lia. }
  split; [|split_and!; [congruence..| |]].
  - rewrite (content_zero _ d); [done|by rewrite Hl3'|]. intros x Hx. rewrite Hx3. by rewrite decide_True by (by apply Hin).
  - intros x Hx1 Hx2 Hxs. rewrite Hother by done. by apply Hfr.
  - intros j Hj. rewrite B4, A4. by apply Hbits.
Qed.
End FreeMap.

(** * Open inodes *)

Section OpenInodes.
Context {D : Type} `{!block_device D} `{!block_device_laws D}.
Implicit Types s : fs_state D.

(** The list of open inodes names the heap entries, one for each open sector, each with its openers. *)
Record open_ok s : Prop := {
  oo_nodup : NoDup (open_inodes s);
  oo_heap : forall p, p ∈ open_inodes s <-> is_Some (inodes s !! p);
  oo_count : forall p i, inodes s !! p = Some i -> 1 <= open_cnt i <= INT_MAX;
  oo_unique : forall p q i j, inodes s !! p = Some i -> inodes s !! q = Some j -> i_sector i = i_sector j -> p = q;
  oo_next : forall p, p ∈ open_inodes s -> p < next_inode s }.

(** The open inode of a sector. *)
Definition opened s (sec : Z) (p : inode_ptr) (i : inode) : Prop := inodes s !! p = Some i /\ i_sector i = sec.

Lemma find_open_Ret s sec l : (forall p, p ∈ l -> is_Some (inodes s !! p)) ->
  (exists p i, find_open l sec s = Ret (Some p, s) /\ p ∈ l /\ opened s sec p i) \/
  (find_open l sec s = Ret (None, s) /\ forall p i, p ∈ l -> ~ opened s sec p i).
Proof.
  induction l as [|q l IH]; intros Hall; cbn [find_open].
  - right. split; [done|]. intros p i H. by apply not_elem_of_nil in H.
  - destruct (Hall q) as [i Hi]; [by left|]. unfold bind at 1, get_inode at 1. 
    unfold bind, get_inode. rewrite Hi. cbn [deref obind]. destruct (i_sector i =? sec) eqn:E.
    + left. exists q, i. split; [done|]. split; [by left|]. split; [done|lia].
    + destruct IH as [(p & j & Hr & Hin & Hj)|[Hr Hnone]]; [intros p Hp; apply Hall; by right|left|right].
      * exists p, j. split; [done|]. split; [by right|done].
      * split; [done|]. intros p j Hp [Hj Hs]. apply elem_of_cons in Hp as [->|Hp]; [|by apply (Hnone p j)].
        rewrite Hi in Hj. injection Hj as <-. lia.
Qed.

Lemma open_ok_update s s' p i i' : open_ok s -> inodes s !! p = Some i -> i_sector i' = i_sector i ->
  1 <= open_cnt i' <= INT_MAX -> inodes s' = <[p := i']> (inodes s) -> open_inodes s' = open_inodes s ->
  next_inode s' = next_inode s -> open_ok s'.
Proof.
  intros [H1 H2 H3 H4 H5] Hp Hsec Hc Hi Ho Hn. split; rewrite ?Hi, ?Ho, ?Hn.
  - done.
  - intros q. rewrite H2. destruct (decide (q = p)) as [->|Hne].
    + rewrite lookup_insert_eq, Hp. split; by eexists.
    + by rewrite lookup_insert_ne.
  - intros q j Hq. apply lookup_insert_Some in Hq as [[<- <-]|[_ Hq]]; [done|by eapply H3].
  - assert (Hback : forall q j, <[p:=i']> (inodes s) !! q = Some j -> exists j', inodes s !! q = Some j' /\ i_sector j' = i_sector j).
    { intros q j Hq. apply lookup_insert_Some in Hq as [[<- <-]|[_ Hq]]; eauto. }
    intros q r j k Hq Hr Hs. apply Hback in Hq as (j' & Hq & Ej). apply Hback in Hr as (k' & Hr & Ek).
    apply (H4 q r j' k' Hq Hr). congruence.
  - done.
Qed.

Lemma inode_open_shared s sec p i : open_ok s -> opened s sec p i -> open_cnt i < INT_MAX ->
  exists s', inode_open sec s = Ret (Some p, s') /\ inodes s' = <[p := set_i_open i (open_cnt i + 1)]> (inodes s) /\
    open_inodes s' = open_inodes s /\ next_inode s' = next_inode s /\ dev s' = dev s /\ free_map s' = free_map s /\
    free_map_file s' = free_map_file s /\ fs_mallocs s' = fs_mallocs s /\ open_ok s'.
Proof.
  intros Hok [Hp Hsec] Hc. unfold inode_open. unfold bind at 1, gets at 1. cbn [obind].
  destruct (find_open_Ret s sec (open_inodes s)) as [(q & j & Hf & Hin & Hj & Hjs)|[_ Hnone]].
  { intros q Hq. by apply (oo_heap s Hok). }
  2: { exfalso. apply (Hnone p i); [|by split]. apply (oo_heap s Hok). by eexists. }
  pose proof (oo_unique s Hok p q i j Hp Hj ltac:(congruence)) as <-. rewrite Hp in Hj. injection Hj as <-.
  unfold bind at 1. rewrite Hf. cbn [obind]. unfold inode_reopen, bind at 1, get_inode. rewrite Hp. cbn [deref obind].
  pose proof (oo_count s Hok p i Hp). unfold INT_MAX in *. rewrite int_Ret by lia. rewrite bind_lift_Ret.
  unfold bind, put_inode, modify, ret. cbn [obind]. eexists. split; [done|]. split_and!; try done.
  eapply (open_ok_update s _ p i (set_i_open i (open_cnt i + 1)) Hok Hp); try done. cbn. unfold INT_MAX. lia.
Qed.

Lemma inode_open_fresh s sec data : open_ok s -> bd_ok (dev s) -> 0 <= sec < bd_size (dev s) ->
  (forall p i, ~ opened s sec p i) -> bd_view (dev s) !! Z.to_nat sec = Some data ->
  exists ok s0, alloc s = Ret (ok, s0) /\
  if ok then
    exists s', inode_open sec s = Ret (Some (next_inode s), s') /\
      inodes s' = <[next_inode s := mk_inode sec 1 false 0 (decode_inode data)]> (inodes s) /\
      open_inodes s' = next_inode s :: open_inodes s /\ bd_ok (dev s') /\ bd_view (dev s') = bd_view (dev s) /\
      free_map s' = free_map s /\ free_map_file s' = free_map_file s /\ fs_mallocs s' = fs_mallocs s0 /\ open_ok s'
  else inode_open sec s = Ret (None, s0) /\ fs_same s s0 /\ dev s0 = dev s.
Proof.
  intros Hok Hdev Hsec Hnone Hdata. destruct (alloc_Ret s) as (ok & s0 & Hal & Hsame & Hd0 & _).
  exists ok, s0. split; [done|].
  destruct (find_open_Ret s sec (open_inodes s)) as [(q & j & _ & _ & Hj)|[Hf _]].
  { intros q Hq. by apply (oo_heap s Hok). }
  { by destruct (Hnone q j). }
  destruct Hsame as (S1 & S2 & S3 & S4 & S5).
  destruct ok; unfold inode_open; unfold bind at 1, gets at 1; cbn [obind]; unfold bind at 1; rewrite Hf;
    cbn [obind]; unfold bind at 1; rewrite Hal; cbn [obind negb]; [|by split_and!].
  unfold bind at 1, gets at 1. cbn [obind]. unfold bind at 1, modify at 1. cbn [obind].
  set (s1 := mk_fs _ _ _ _ _ _ _).
  destruct (read_sector_Ret s1 sec data) as (s2 & Hr & Hok2 & Hv2 & (T1 & T2 & T3 & T4 & T5) & Hm2);
    [by rewrite <- Hd0 in Hdev|lia|unfold s1; cbn; by rewrite Hd0|].
  unfold bind at 1. rewrite Hr. cbn [obind]. unfold bind, put_inode, modify, ret. cbn [obind].
  unfold s1 in *. cbn in T1, T2, T3, T4, T5, Hv2, Hm2. rewrite S3. eexists. split; [done|].
  assert (Hfree : inodes s !! next_inode s = None).
  { destruct (inodes s !! next_inode s) eqn:E; [|done].
    assert (next_inode s ∈ open_inodes s) as Hin by (apply (oo_heap s Hok); by eexists).
    apply (oo_next s Hok) in Hin. lia. }
  cbn [inodes set_inodes set_inodes open_inodes dev free_map free_map_file fs_mallocs next_inode].
  rewrite T1, S1, T2, S2, S3, T4, S4, T5, S5. do 3 (split; [done|]).
  split; [congruence|]. do 2 (split; [done|]). split; [exact Hm2|].
  destruct Hok as [H1 H2 H3 H4 H5]. split; cbn [inodes set_inodes open_inodes next_inode].
  - rewrite ?T2, ?S2, ?S3. apply NoDup_cons. split; [|done]. intros Hin. apply H5 in Hin. lia.
  - intros p. rewrite ?T2, ?S2, ?T1, ?S1, ?S3, elem_of_cons, H2. destruct (decide (p = next_inode s)) as [->|Hne].
    + rewrite lookup_insert_eq. split; [by eexists|by left].
    + rewrite lookup_insert_ne by done. naive_solver.
  - intros p i Hp. rewrite ?T1, ?S1, ?S3 in Hp. apply lookup_insert_Some in Hp as [[<- <-]|[_ Hp]]; [cbn; unfold INT_MAX; lia|by eapply H3].
  - intros p q i j. rewrite ?T1, ?S1, ?S3. intros Hp Hq Hs.
    apply lookup_insert_Some in Hp as [[<- <-]|[Hpn Hp]]; apply lookup_insert_Some in Hq as [[<- <-]|[Hqn Hq]]; try done.
    + exfalso. apply (Hnone q j). split; [done|]. cbn in Hs. done.
    + exfalso. apply (Hnone p i). split; [done|]. cbn in Hs. done.
    + by apply (H4 p q i j).
  - intros p. rewrite ?T2, ?S2, ?T3, ?S3. intros Hp. apply elem_of_cons in Hp as [->|Hp]; [lia|]. apply H5 in Hp. lia.
Qed.

Lemma open_ok_delete s s' p : open_ok s -> inodes s' = delete p (inodes s) ->
  open_inodes s' = filter (fun x => x <> p) (open_inodes s) -> next_inode s' = next_inode s -> open_ok s'.
Proof.
  intros [H1 H2 H3 H4 H5] Hi Ho Hn. split; rewrite ?Hi, ?Ho, ?Hn.
  - by apply NoDup_filter.
  - intros q. rewrite list_elem_of_filter, H2. destruct (decide (q = p)) as [->|Hne].
    + rewrite lookup_delete_eq. split; [tauto|]. by intros [? ?].
    + rewrite lookup_delete_ne by done. tauto.
  - intros q j Hq. apply lookup_delete_Some in Hq as [_ Hq]. by eapply H3.
  - intros q r j k Hq Hr Hs. apply lookup_delete_Some in Hq as [_ Hq]. apply lookup_delete_Some in Hr as [_ Hr].
    by apply (H4 q r j k).
  - intros q Hq. apply list_elem_of_filter in Hq as [_ Hq]. by apply H5.
Qed.

Lemma inode_close_shared s p i : open_ok s -> inodes s !! p = Some i -> 1 < open_cnt i ->
  exists s', inode_close (Some p) s = Ret (tt, s') /\ inodes s' = <[p := set_i_open i (open_cnt i - 1)]> (inodes s) /\
    open_inodes s' = open_inodes s /\ dev s' = dev s /\ free_map s' = free_map s /\ open_ok s'.
Proof.
  intros Hok Hp Hc. pose proof (oo_count s Hok p i Hp) as Hcnt. unfold INT_MAX in Hcnt.
  unfold inode_close, bind at 1, get_inode. rewrite Hp. cbn [deref obind].
  rewrite int_Ret by lia. rewrite bind_lift_Ret. unfold bind at 1, put_inode, modify. cbn [obind].
  replace (open_cnt i - 1 =? 0) with false by lia. unfold ret. eexists. split; [done|]. do 4 (split; [done|]).
  eapply (open_ok_update s _ p i (set_i_open i (open_cnt i - 1)) Hok Hp); try done. cbn. unfold INT_MAX. lia.
Qed.

Lemma inode_close_last s p i : open_ok s -> inodes s !! p = Some i -> open_cnt i = 1 -> removed i = false ->
  exists s', inode_close (Some p) s = Ret (tt, s') /\ inodes s' = delete p (inodes s) /\
    open_inodes s' = filter (fun x => x <> p) (open_inodes s) /\ dev s' = dev s /\ free_map s' = free_map s /\ open_ok s'.
Proof.
  intros Hok Hp Hc Hrm. unfold inode_close, bind at 1, get_inode. rewrite Hp. cbn [deref obind]. rewrite Hc.
  rewrite int_Ret by lia. rewrite bind_lift_Ret. unfold bind at 1, put_inode, modify at 1. cbn [obind].
  cbn [Z.sub Z.add Z.opp Z.pos_sub Z.eqb]. unfold bind at 1, modify at 1. cbn [obind]. rewrite Hrm.
  unfold bind, ret, modify. cbn [obind inodes set_inodes set_open open_inodes]. eexists. split; [done|].
  cbn. rewrite delete_insert_eq. do 4 (split; [done|]). by apply (open_ok_delete s _ p Hok).
Qed.

(** The last close of a removed inode frees its sector and its extent. *)
Lemma inode_close_removed s f fi p i : open_ok s -> fm_ok s f fi -> inodes s !! p = Some i -> p <> f_inode f ->
  open_cnt i = 1 -> removed i = true -> data_ok (bit_cnt (free_map s)) (i_data i) ->
  0 <= i_sector i < bit_cnt (free_map s) -> bget (free_map s) (i_sector i) = true ->
  allocated (free_map s) (i_data i) -> ~ in_extent (i_data i) (i_sector i) ->
  exists s', inode_close (Some p) s = Ret (tt, s') /\ inodes s' = delete p (inodes s) /\
    open_inodes s' = filter (fun x => x <> p) (open_inodes s) /\ open_ok s' /\ fm_ok s' f fi /\ on_disk s' fi (free_map s') /\
    (forall x, ~ in_extent (i_data fi) (Z.of_nat x) -> bd_view (dev s') !! x = bd_view (dev s) !! x) /\
    forall j, 0 <= j < bit_cnt (free_map s) ->
      bget (free_map s') j =
        if (j =? i_sector i) || in_range j (i_start (i_data i)) (bytes_to_sectors (i_length (i_data i))) then false
        else bget (free_map s) j.
Proof.
  intros Hok Hf Hp Hne Hc Hrm (Hl & Hst & Hfit) Hsec Hbit Hall Hnot.
  unfold inode_close, bind at 1, get_inode. rewrite Hp. cbn [deref obind]. rewrite Hc.
  rewrite int_Ret by lia. rewrite bind_lift_Ret. unfold bind at 1, put_inode, modify at 1. cbn [obind].
  change (1 - 1) with 0. cbn [Z.eqb]. unfold bind at 1, modify at 1. cbn [obind]. rewrite Hrm.
  match goal with |- context [set_open ?a ?b] => set (s1 := set_open a b) end. assert (Hn : 0 <= bytes_to_sectors (i_length (i_data i))).
  { rewrite bytes_to_sectors_eq by done. apply Z.div_pos; lia. }
  assert (Hf1 : fm_ok s1 f fi).
  { destruct Hf. split; try done. unfold s1. cbn. by rewrite lookup_insert_ne. }
  destruct (free_map_release_Ret s1 f fi (i_sector i) 1 Hf1) as (s2 & Hr2 & Hf2 & _ & I2 & O2 & N2 & L2 & C2 & V2 & B2).
  { lia. } { lia. } { unfold s1; cbn; lia. }
  { intros j Hj. replace j with (i_sector i) by lia. exact Hbit. }
  destruct (free_map_release_Ret s2 f fi (i_start (i_data i)) (bytes_to_sectors (i_length (i_data i))) Hf2)
    as (s3 & Hr3 & Hf3 & Hd3 & I3 & O3 & N3 & L3 & C3 & V3 & B3).
  { done. } { done. } { rewrite C2. exact Hfit. }
  { intros j Hj. rewrite B2 by (unfold s1; cbn; lia). unfold in_range.
    replace ((i_sector i <=? j) && (j <? i_sector i + 1)) with false.
    - apply Hall. exact Hj.
    - destruct (decide (j = i_sector i)) as [->|]; [by destruct Hnot|lia]. }
  unfold bind at 1 2. rewrite Hr2. cbn [obind]. rewrite Hr3. cbn [obind]. unfold modify. eexists. split; [done|].
  cbn [inodes set_inodes open_inodes free_map dev]. rewrite I3, I2, O3, O2. unfold s1. cbn [inodes set_inodes set_open open_inodes].
  rewrite delete_insert_eq. split; [done|]. split; [done|]. split; [|split; [|split; [done|split]]].
  - apply (open_ok_delete s _ p Hok); cbn; rewrite ?I3, ?I2, ?O3, ?O2, ?N3, ?N2; try done.
  - destruct Hf3. split; try done. cbn. rewrite lookup_delete_ne by done. apply Hf.
  - intros x Hx. rewrite V3, V2 by done. done.
  - intros j Hj. rewrite B3 by (rewrite C2; exact Hj). rewrite B2 by exact Hj. unfold in_range.
    destruct (j =? i_sector i) eqn:E; cbn [orb].
    + replace ((i_sector i <=? j) && (j <? i_sector i + 1)) with true by lia. by destruct (_ && _).
    + replace ((i_sector i <=? j) && (j <? i_sector i + 1)) with false by lia. done.
Qed.
End OpenInodes.

(** * Theorems *)

Section Theorems.
Context {D : Type} `{!block_device D} `{!block_device_laws D}.
Implicit Types s : fs_state D.

(** Allocation from the free map is first fit and marks exactly the sectors it returns, or fails and
    changes nothing when no run of free sectors is long enough; release frees exactly the given sectors;
    after either the file of the free map holds the map in memory and no other sector has changed. *)
Theorem free_map_correct s f fi sec cnt : fm_ok s f fi -> 0 <= cnt -> 0 <= sec ->
  ((exists found s', free_map_allocate cnt s = Ret (Some found, s') /\ first_fit (free_map s) false 0 cnt found /\
      fm_ok s' f fi /\ on_disk s' fi (free_map s') /\
      (forall x, ~ in_extent (i_data fi) (Z.of_nat x) -> bd_view (dev s') !! x = bd_view (dev s) !! x) /\
      forall j, 0 <= j < bit_cnt (free_map s) ->
        bget (free_map s') j = if in_range j found cnt then true else bget (free_map s) j) \/
   (free_map_allocate cnt s = Ret (None, s) /\ no_fit (free_map s) false 0 cnt)) /\
  (sec + cnt <= bit_cnt (free_map s) -> all_bits (free_map s) true sec cnt ->
   exists s', free_map_release sec cnt s = Ret (tt, s') /\ fm_ok s' f fi /\ on_disk s' fi (free_map s') /\
      (forall x, ~ in_extent (i_data fi) (Z.of_nat x) -> bd_view (dev s') !! x = bd_view (dev s) !! x) /\
      forall j, 0 <= j < bit_cnt (free_map s) ->
        bget (free_map s') j = if in_range j sec cnt then false else bget (free_map s) j).
Proof.
  intros Hf Hc Hs. split.
  - destruct (free_map_allocate_Ret s f fi cnt Hf Hc) as [(found & s' & H)|H]; [left|by right].
    exists found, s'. tauto.
  - intros Hfit Hall. destruct (free_map_release_Ret s f fi sec cnt Hf Hs Hc Hfit Hall) as (s' & H). exists s'. tauto.
Qed.

(** The free map survives on disk: writing a bitmap to its file and reading the file into any bitmap of
    the same size gives the bitmap back. *)
Theorem bitmap_file_roundtrip s f fi b old : fm_ok s f fi -> bm_wf b -> bit_cnt b = bit_cnt (free_map s) ->
  bm_wf old -> bit_cnt old = bit_cnt b -> (forall w, last (bits b) = Some w -> Z.land w (last_mask b) = w) ->
  exists s' s'', bitmap_write b f s = Ret (true, s') /\ bitmap_read old f s' = Ret (true, b, s'').
Proof.
  intros Hf Hb Hcnt Hold Hco Hlast.
  destruct (bitmap_write_Ret s f fi b Hf Hb Hcnt) as (s' & Hw & Hok & Hl & (S1 & S2 & S3 & S4 & S5) & Hm & _ & Hd).
  assert (Hf' : fm_ok s' f fi) by (apply (fm_ok_after s s' f fi (free_map s)); try done; apply Hf).
  destruct (bitmap_read_Ret s' f fi b old Hf' Hb ltac:(congruence) Hold Hco Hd Hlast) as (s'' & Hr & _).
  by exists s', s''.
Qed.

(** C35. A new inode can be opened at once: [inode_create] either finds no run of free sectors and changes
    nothing, or opening the sector afterwards gives an inode of the requested length whose bytes are all
    zero and whose sectors were free before and are marked in use now. *)
Theorem inode_create_open s f fi sec len : fm_ok s f fi -> open_ok s -> allocated (free_map s) (i_data fi) ->
  0 <= len < 2 ^ 31 -> 0 <= sec < bit_cnt (free_map s) -> bget (free_map s) sec = true -> ~ in_extent (i_data fi) sec ->
  (forall p i, ~ opened s sec p i) ->
  (exists s' s'' p i, inode_create sec len s = Ret (true, s') /\ inode_open sec s' = Ret (Some p, s'') /\
     inodes s'' !! p = Some i /\ i_length (i_data i) = len /\ open_cnt i = 1 /\
     content (bd_view (dev s'')) (i_data i) = replicate (Z.to_nat len) 0 /\
     (forall j, in_extent (i_data i) j -> bget (free_map s) j = false /\ bget (free_map s'') j = true) /\
     open_ok s'' /\ fm_ok s'' f fi) \/
  (inode_create sec len s = Ret (false, s) /\ no_fit (free_map s) false 0 (bytes_to_sectors len)).
Proof.
  intros Hf Hopen Ha Hlen Hsec Hbit Hnot Hno.
  destruct (inode_create_Ret s f fi sec len Hf Ha Hlen Hsec Hbit Hnot)
    as [(s' & start & Hcr & Hfit & Hf' & Hdisk & Hd & Hinode & Hz & I1 & O1 & N1 & L1 & V1 & B1)|H]; [left|by right].
  set (d := mk_inode_disk start len INODE_MAGIC) in *.
  assert (Hopen' : open_ok s').
  { destruct Hopen as [X1 X2 X3 X4 X5]. split; rewrite ?I1, ?O1, ?N1; done. }
  destruct (bd_size_view _ (fm_dev _ _ _ Hf')) as [Hsz Hsz32].
  destruct (inode_open_fresh s' sec (encode_inode d) Hopen' (fm_dev _ _ _ Hf')) as (ok & s0 & Hal & Hres).
  { rewrite <- (fm_cnt _ _ _ Hf'). rewrite <- (fm_cnt _ _ _ Hf') in Hsz. rewrite L1 in Hsz.
    destruct (bd_size_view _ (fm_dev _ _ _ Hf)) as [Hsz' _]. rewrite <- (fm_cnt _ _ _ Hf) in Hsz'. lia. }
  { intros p i [Hp Hs]. rewrite I1 in Hp. by apply (Hno p i). }
  { done. }
  unfold alloc in Hal. rewrite (fm_mem _ _ _ Hf') in Hal. injection Hal as <- <-.
  destruct Hres as (s'' & Ho & I2 & O2 & Hok2 & V2 & M2 & F2 & A2 & Hopen2).
  assert (Hdec : decode_inode (encode_inode d) = d).
  { apply decode_encode_inode; unfold d; cbn; [|lia|unfold INODE_MAGIC; lia]. destruct Hd as (_ & Hs0 & Hfit0). unfold d in *. cbn in *.
    rewrite bytes_to_sectors_eq in Hfit0 by done. pose proof (Z.div_pos (len + 511) 512). lia. }
  rewrite Hdec in I2. exists s', s'', (next_inode s'), (mk_inode sec 1 false 0 d). split; [done|]. split; [done|].
  split; [by rewrite I2, lookup_insert_eq|]. split; [done|]. split; [done|]. cbn [i_data]. rewrite V2, M2. split; [done|].
  split; [|split; [done|]].
  - intros j Hj. unfold in_extent, d in Hj. cbn in Hj. destruct Hfit as (Hf1 & Hf2 & Hf3 & _). split; [by apply Hf3|].
    rewrite B1 by lia. unfold in_range. by replace (_ && _) with true by lia.
  - assert (Hnew : f_inode f <> next_inode s').
    { pose proof (fm_inode _ _ _ Hf') as Hfi. intros E.
      assert (f_inode f ∈ open_inodes s') as Hin by (apply (oo_heap s' Hopen'); by eexists).
      apply (oo_next s' Hopen') in Hin. lia. }
    destruct (bd_size_view _ Hok2) as [Hsz2 _]. destruct Hf' as [G1 G2 G3 G4 G5 G6 G7 G8 G9].
    split; rewrite ?M2, ?F2, ?V2, ?I2, ?A2; try done.
    + rewrite Hsz2, V2. congruence.
    + by rewrite lookup_insert_ne.
Qed.

(** C13. Openers share inodes: opening a sector that is open returns its inode with one more opener and does
    not touch the device; otherwise a fresh inode is read from the sector, or nothing happens when
    memory runs out.  Closing removes one opener; the last close removes the inode and, when the file was
    removed, frees its sector and data.  The table of open inodes stays well formed. *)
Theorem open_inode_lifecycle s sec p i : open_ok s ->
  (opened s sec p i -> open_cnt i < INT_MAX ->
   exists s', inode_open sec s = Ret (Some p, s') /\ dev s' = dev s /\ open_ok s' /\
     inodes s' = <[p := set_i_open i (open_cnt i + 1)]> (inodes s)) /\
  ((forall q j, ~ opened s sec q j) -> bd_ok (dev s) -> 0 <= sec < bd_size (dev s) ->
   exists ok s', inode_open sec s = Ret (if (ok : bool) then Some (next_inode s) else None, s') /\ open_ok s' /\
     (fs_mallocs s = [] -> ok = true) /\
     if ok then exists data, bd_view (dev s) !! Z.to_nat sec = Some data /\
         inodes s' = <[next_inode s := mk_inode sec 1 false 0 (decode_inode data)]> (inodes s)
     else inodes s' = inodes s) /\
  (inodes s !! p = Some i -> 1 < open_cnt i ->
   exists s', inode_close (Some p) s = Ret (tt, s') /\ dev s' = dev s /\ open_ok s' /\
     inodes s' = <[p := set_i_open i (open_cnt i - 1)]> (inodes s)) /\
  (inodes s !! p = Some i -> open_cnt i = 1 -> removed i = false ->
   exists s', inode_close (Some p) s = Ret (tt, s') /\ dev s' = dev s /\ open_ok s' /\
     inodes s' = delete p (inodes s) /\ free_map s' = free_map s) /\
  (forall f fi, fm_ok s f fi -> inodes s !! p = Some i -> p <> f_inode f -> open_cnt i = 1 -> removed i = true ->
   data_ok (bit_cnt (free_map s)) (i_data i) -> 0 <= i_sector i < bit_cnt (free_map s) ->
   bget (free_map s) (i_sector i) = true -> allocated (free_map s) (i_data i) -> ~ in_extent (i_data i) (i_sector i) ->
   exists s', inode_close (Some p) s = Ret (tt, s') /\ open_ok s' /\ inodes s' = delete p (inodes s) /\
     on_disk s' fi (free_map s') /\
     forall j, 0 <= j < bit_cnt (free_map s) ->
       bget (free_map s') j =
         if (j =? i_sector i) || in_range j (i_start (i_data i)) (bytes_to_sectors (i_length (i_data i))) then false
         else bget (free_map s) j).
Proof.
  intros Hok. split_and!.
  - intros Ho Hc. destruct (inode_open_shared s sec p i Hok Ho Hc) as (s' & H). exists s'. tauto.
  - intros Hno Hd Hsec. destruct (bd_size_view _ Hd) as [Hsz _].
    destruct (lookup_lt_is_Some_2 (bd_view (dev s)) (Z.to_nat sec)) as [data Hdata]; [lia|].
    destruct (inode_open_fresh s sec data Hok Hd Hsec Hno Hdata) as (ok & s0 & Hal & H).
    assert (Hm : fs_mallocs s = [] -> ok = true) by (intros Hm; unfold alloc in Hal; rewrite Hm in Hal; congruence).
    destruct ok.
    + destruct H as (s' & Ho & Hi & _ & _ & _ & _ & _ & _ & Hok'). exists true, s'. split_and!; try done. by exists data.
    + destruct H as (Ho & (S1 & S2 & S3 & _) & _). exists false, s0. split; [done|].
      split; [|done]. destruct Hok as [X1 X2 X3 X4 X5]. split; rewrite ?S1, ?S2, ?S3; done.
  - intros Hp Hc. destruct (inode_close_shared s p i Hok Hp Hc) as (s' & H). exists s'. tauto.
  - intros Hp Hc Hrm. destruct (inode_close_last s p i Hok Hp Hc Hrm) as (s' & H). exists s'. tauto.
  - intros f fi Hf Hp Hne Hc Hrm Hd Hsec Hbit Ha Hnot.
    destruct (inode_close_removed s f fi p i Hok Hf Hp Hne Hc Hrm Hd Hsec Hbit Ha Hnot) as (s' & H). exists s'. tauto.
Qed.
End Theorems.
