(* ===== verification/FsExamples.v ===== *)
(** A small formatted file system: runs of the operations, the facts that instantiate the theorems on
    inodes, directories and the free map, and two defects of the code. *)
From S2P Require Import Prelude Palloc KString KStdlib Endian Bitmap Block Fs InodeFacts DirFacts FsFacts.

(** A device of 16 blank sectors, formatted; the bitmap is allocated over a word of garbage. *)
Definition blank : fs_state ram_disk :=
  mk_fs (mk_ram (replicate 16 (replicate 512 0))) [] ∅ [] 1 (mk_bitmap 0 []) None.
Definition after {A} (m : M ram_disk A) (s : fs_state ram_disk) : fs_state ram_disk :=
  match m s with Ret (_, s') => s' | _ => s end.
Definition result {A} (m : M ram_disk A) (s : fs_state ram_disk) : option A :=
  match m s with Ret (a, _) => Some a | _ => None end.

Definition formatted : fs_state ram_disk := after (filesys_init [5] true) blank.
(** The initial contents of the local directory entry of [dir_add]. *)
Definition garbage : list Z := replicate 20 77.
(** A file of 700 bytes, open once, and the root directory, open once. *)
Definition busy : fs_state ram_disk :=
  after (let! _ := filesys_create garbage (chars "hello") 700 in
         let! _ := filesys_open (chars "hello") in dir_open_root) formatted.
Definition hello_data : inode_disk := mk_inode_disk 5 700 INODE_MAGIC.
Definition hello : inode := mk_inode 4 1 false 0 hello_data.
Definition root_inode : inode := mk_inode 1 1 false 0 (mk_inode_disk 3 320 INODE_MAGIC).
Definition map_inode : inode := mk_inode 0 1 false 0 (mk_inode_disk 2 4 INODE_MAGIC).
Definition map_file : file := mk_file 2 0 false.

#[local] Instance sector_ok_dec d : Decision (sector_ok d).
Proof. unfold sector_ok, is_bytes. apply _. Defined.

#[local] Opaque formatted busy.

Lemma busy_ok : bd_ok (dev busy).
Proof. split; [by_compute|by vm_compute]. Qed.
Lemma busy_hello : inodes busy !! 5 = Some hello.
Proof. by vm_compute. Qed.
Lemma busy_root : inodes busy !! 6 = Some root_inode.
Proof. by vm_compute. Qed.
Lemma busy_size : length (bd_view (dev busy)) = 16%nat.
Proof. by vm_compute. Qed.
Lemma busy_mallocs : fs_mallocs busy = [].
Proof. by vm_compute. Qed.
Lemma hello_ok : data_ok (Z.of_nat (length (bd_view (dev busy)))) hello_data.
Proof. rewrite busy_size. by vm_compute. Qed.

Definition busy_dir : dir := mk_dir 6 0.
Definition busy_contents : list Z := content (bd_view (dev busy)) (i_data root_inode).
Lemma busy_dir_at : dir_at busy busy_dir root_inode busy_contents.
Proof. split; [apply busy_ok|apply busy_mallocs|apply busy_root|rewrite busy_size; by vm_compute|done]. Qed.
Lemma busy_dir_ok : dir_ok busy_contents.
Proof. unfold dir_ok. by_compute. Qed.

Lemma busy_map : fm_ok busy map_file map_inode.
Proof.
  split; [apply busy_ok|apply busy_mallocs| | |by vm_compute|by vm_compute|rewrite busy_size; by vm_compute|done|by vm_compute].
  - assert (E : free_map busy = mk_bitmap 16 [127]) by by vm_compute. rewrite E. clear E.
    split; [by vm_compute|done|]. by repeat constructor.
  - by vm_compute.
Qed.

Lemma busy_open : open_inodes busy = [6; 5; 2].
Proof. by vm_compute. Qed.
Lemma busy_next : next_inode busy = 7.
Proof. by vm_compute. Qed.
Lemma busy_inodes : inodes busy = {[6 := root_inode; 5 := hello; 2 := map_inode]}.
Proof. by vm_compute. Qed.
Lemma busy_inodes_cases p i : inodes busy !! p = Some i ->
  (p = 6 /\ i = root_inode) \/ (p = 5 /\ i = hello) \/ (p = 2 /\ i = map_inode).
Proof. rewrite busy_inodes, !lookup_insert_Some, lookup_singleton_Some. naive_solver. Qed.

Lemma busy_open_ok : open_ok busy.
Proof.
  split; rewrite ?busy_open, ?busy_next.
  - by_compute.
  - intros p. rewrite busy_inodes, !elem_of_cons, elem_of_nil. split.
    + intros [->|[->|[->|[]]]]; by eexists.
    + rewrite <- busy_inodes. intros [i Hi]. apply busy_inodes_cases in Hi. tauto.
  - intros p i Hi. apply busy_inodes_cases in Hi. destruct Hi as [[_ ->]|[[_ ->]|[_ ->]]]; by vm_compute.
  - intros p q i j Hi Hj. apply busy_inodes_cases in Hi. apply busy_inodes_cases in Hj.
    destruct Hi as [[-> ->]|[[-> ->]|[-> ->]]], Hj as [[-> ->]|[[-> ->]|[-> ->]]]; done.
  - intros p. rewrite !elem_of_cons, elem_of_nil. lia.
Qed.

(** * The theorems at this state *)

Lemma inode_read_at_correct_witness :
  exists s' k, inode_read_at 5 600 400 busy
    = Ret (take k (drop 400 (content (bd_view (dev busy)) hello_data)), s') /\ k = 600%nat.
Proof.
  destruct (inode_read_at_correct busy 5 hello busy_ok busy_hello hello_ok 600 400) as (s' & k & H & _ & Hk & _); [lia|lia|].
  exists s', k. split; [exact H|apply Hk, busy_mallocs].
Defined.

Lemma inode_write_at_correct_witness :
  exists s' k, inode_write_at 5 (replicate 600 65) 600 400 busy = Ret (k, s') /\ k = 300 /\
    content (bd_view (dev s')) (i_data root_inode) = busy_contents.
Proof.
  destruct (inode_write_at_correct busy 5 hello busy_ok busy_hello hello_ok (replicate 600 65) 600 400)
    as [_ H]; [by apply is_bytes_replicate|lia|by vm_compute|].
  destruct (H eq_refl) as (s' & k & H1 & _ & Hk & _ & _ & H3 & _). exists s', k. split; [exact H1|].
  split; [by rewrite (Hk busy_mallocs)|]. apply H3; [by vm_compute|]. intros x Hx Hx'.
  change (5 <= x < 7) in Hx. change (3 <= x < 4) in Hx'. lia.
Defined.

Lemma write_read_roundtrip_witness :
  exists s' s'', inode_write_at 5 (replicate 600 65) 600 50 busy = Ret (600, s') /\
    inode_read_at 5 600 50 s' = Ret (replicate 600 65, s'').
Proof.
  destruct (write_read_roundtrip busy 5 hello busy_ok busy_hello hello_ok (replicate 600 65) 600 50)
    as (s' & s'' & H1 & H2 & _);
    [apply busy_mallocs|done|by apply is_bytes_replicate|lia|by vm_compute|by vm_compute|].
  exists s', s''. split; [exact H1|exact H2].
Defined.

Lemma hello_name : is_name (chars "hello").
Proof. unfold is_name. by_compute. Qed.
Lemma new_name : is_name (chars "world").
Proof. unfold is_name. by_compute. Qed.

Lemma lookup_correct_witness :
  exists s' e, lookup busy_dir (chars "hello") busy = Ret (Some (e, 0), s') /\ inode_sector e = 4.
Proof.
  destruct (lookup_correct busy busy_dir root_inode busy_contents busy_dir_at busy_dir_ok (chars "hello") hello_name)
    as (s' & H & _).
  exists s', (mk_dir_entry 4 (chars "hello" ++ replicate 10 0) 1). split; [|done]. rewrite H. f_equal.
Defined.

Lemma dir_add_correct_witness :
  exists s' c', dir_add garbage busy_dir (chars "world") 9 busy = Ret (true, s') /\
    dir_find c' (chars "world") = Some 9 /\ dir_find c' (chars "hello") = Some 4.
Proof.
  destruct (dir_add_correct busy busy_dir root_inode busy_contents busy_dir_at busy_dir_ok garbage (chars "world") 9)
    as (s' & c' & ok & H & _ & _ & _ & Hv & Hf & _);
    [apply new_name|lia|by vm_compute|by apply is_bytes_replicate|done|].
  assert (ok = true) as Hok.
  { apply Hv. split; [done|]. split; [by vm_compute|]. split; [by vm_compute|]. by_compute. }
  rewrite Hok in *. exists s', c'. split; [exact H|]. split.
  - rewrite (Hf eq_refl (chars "world")). by rewrite decide_True.
  - rewrite (Hf eq_refl (chars "hello")). rewrite decide_False by done. by vm_compute.
Defined.

Lemma busy_free_map : free_map busy = mk_bitmap 16 [127].
Proof. by vm_compute. Qed.
Lemma busy_cnt : bit_cnt (free_map busy) = 16.
Proof. by rewrite busy_free_map. Qed.
Lemma busy_bit j : bget (free_map busy) j = bget (mk_bitmap 16 [127]) j.
Proof. by rewrite busy_free_map. Qed.

Lemma free_map_correct_witness :
  exists s', free_map_release 5 2 busy = Ret (tt, s') /\ bget (free_map s') 6 = false /\ bget (free_map s') 4 = true.
Proof.
  destruct (free_map_correct busy map_file map_inode 5 2 busy_map) as [_ H]; [lia|lia|].
  destruct H as (s' & H & _ & _ & _ & Hb).
  - rewrite busy_cnt. lia.
  - intros j Hj. rewrite busy_bit. assert (j = 5 \/ j = 6) as [-> | ->] by lia; by vm_compute.
  - exists s'. split; [exact H|]. clear H. split; rewrite Hb by (rewrite busy_cnt; lia); clear Hb.
    + reflexivity.
    + rewrite busy_bit. vm_compute. reflexivity.
Defined.

Lemma bm_wf_16 w : in_u32 w -> bm_wf (mk_bitmap 16 [w]).
Proof. intros Hw. split; [by vm_compute|done|]. by constructor. Qed.

Lemma bitmap_file_roundtrip_witness :
  exists s' s'', bitmap_write (mk_bitmap 16 [0xbeef]) map_file busy = Ret (true, s') /\
    bitmap_read (mk_bitmap 16 [5]) map_file s' = Ret (true, mk_bitmap 16 [0xbeef], s'').
Proof.
  apply (bitmap_file_roundtrip busy map_file map_inode (mk_bitmap 16 [0xbeef]) (mk_bitmap 16 [5]) busy_map);
    [by apply bm_wf_16|by rewrite busy_free_map|by apply bm_wf_16|done|]. intros w [= <-]. done.
Defined.

Lemma inode_create_open_witness :
  exists s' s'' p i, inode_create 6 1500 busy = Ret (true, s') /\ inode_open 6 s' = Ret (Some p, s'') /\
    inodes s'' !! p = Some i /\ content (bd_view (dev s'')) (i_data i) = replicate 1500 0.
Proof.
  destruct (inode_create_open busy map_file map_inode 6 1500 busy_map busy_open_ok)
    as [(s' & s'' & p & i & H1 & H2 & H3 & _ & _ & H4 & _)|[H _]].
  - intros j Hj. change (2 <= j < 3) in Hj. rewrite busy_bit. assert (j = 2) as -> by lia. by vm_compute.
  - lia.
  - rewrite busy_free_map. cbn. lia.
  - rewrite busy_bit. by vm_compute.
  - intros Hj. change (2 <= 6 < 3) in Hj. lia.
  - intros p i [Hp Hs]. apply busy_inodes_cases in Hp. destruct Hp as [[_ ->]|[[_ ->]|[_ ->]]]; done.
  - exists s', s'', p, i. split; [exact H1|]. split; [exact H2|]. split; [exact H3|exact H4].
  - exfalso. assert (E : result (inode_create 6 1500) busy = Some true) by by vm_compute.
    unfold result in E. rewrite H in E. discriminate E.
Defined.

Lemma open_inode_lifecycle_witness :
  exists s', inode_open 4 busy = Ret (Some 5, s') /\ open_ok s' /\ inodes s' !! 5 = Some (set_i_open hello 2).
Proof.
  destruct (open_inode_lifecycle busy 4 5 hello busy_open_ok) as [H _].
  destruct H as (s' & H1 & _ & H2 & H3); [split; [apply busy_hello|done]|by vm_compute|].
  exists s'. split; [exact H1|]. split; [exact H2|]. by rewrite H3, lookup_insert_eq.
Defined.

(** * Defects *)

(** A second file of the same name is refused, but only the sector of its inode is freed again: the
    sectors of its data stay marked in use although no file has them. *)
Example failed_create_leaks_data_sectors :
  match filesys_create garbage (chars "hello") 1000 busy with
  | Ret (ok, s) => negb ok && bool_decide (bits (free_map busy) = [127]) && bool_decide (bits (free_map s) = [127 + 768])
  | _ => false
  end = true.
Proof. by vm_compute. Qed.

(** When the bounce buffer cannot be allocated during the first search, the name is taken to be unused and
    a second entry of the same name is stored. *)
Definition low_memory (s : fs_state ram_disk) : fs_state ram_disk :=
  mk_fs (dev s) [false] (inodes s) (open_inodes s) (next_inode s) (free_map s) (free_map_file s).
Example low_memory_duplicates_name :
  match dir_add garbage busy_dir (chars "hello") 9 (low_memory busy) with
  | Ret (ok, s) =>
      ok && bool_decide (length (filter (entry_is (chars "hello"))
                          (entries (content (bd_view (dev s)) (i_data root_inode)))) = 2%nat)
  | _ => false
  end = true.
Proof. by vm_compute. Qed.

(** * A whole run *)

(** Create, write past the end, share, remove while open, close: the sectors come back. *)
Example session :
  result (let! ok := filesys_create garbage (chars "file") 1000 in
          let! f1 := filesys_open (chars "file") in
          let! f2 := filesys_open (chars "file") in
          match f1, f2 with
          | Some f1, Some f2 =>
              let! (n1, f1) := file_write f1 (replicate 600 65) 600 in
              let! (n2, f1) := file_write f1 (replicate 600 66) 600 in
              let! got := file_read_at f2 4 598 in
              let! gone := filesys_remove (chars "file") in
              let! again := filesys_open (chars "file") in
              let! _ := file_close (Some f1) in
              let! before := gets (fun s => bits (free_map s)) in
              let! _ := file_close (Some f2) in
              let! now := gets (fun s => bits (free_map s)) in
              ret (ok, n1, n2, got, gone, again, before, now)
          | _, _ => panic
          end) formatted
  = Some (true, 600, 400, [65; 65; 66; 66], true, None, [127], [15]).
Proof. by vm_compute. Qed.
