(* ===== verification/Ustar.v ===== *)
(** Archive headers in ustar format (lib/ustar.c): composing the 512-byte header of a file, and parsing
    one that may hold anything.  A header is the list of its bytes, a string the list of its characters
    without the null byte. *)
From S2P Require Import Prelude Palloc KString KStdlib Stdio Endian Block Fs InodeFacts DirFacts.

(** * Definitions *)

Definition USTAR_REGULAR : Z := 48.
Definition USTAR_DIRECTORY : Z := 53.
Definition USTAR_EOF : Z := -1.
Definition USTAR_HEADER_SIZE : nat := 512.

(** The fields of [struct ustar_header]: offset and size. *)
Definition h_name := (0, 100)%nat.
Definition h_mode := (100, 8)%nat.
Definition h_uid := (108, 8)%nat.
Definition h_gid := (116, 8)%nat.
Definition h_size := (124, 12)%nat.
Definition h_mtime := (136, 12)%nat.
Definition h_chksum := (148, 8)%nat.
Definition h_typeflag := (156, 1)%nat.
Definition h_magic := (257, 6)%nat.
Definition h_version := (263, 2)%nat.
Definition h_uname := (265, 32)%nat.
Definition h_gname := (297, 32)%nat.
Definition h_prefix := (345, 155)%nat.

Definition get_field (h : list Z) (f : nat * nat) : list Z := field h (fst f) (snd f).

(** [strlcpy] and [snprintf] into a field. *)
Definition put_string (h : list Z) (f : nat * nat) (s : list Z) : list Z :=
  splice (fst f) (take (snd f - 1) s ++ [0]) h.
Definition put_octal (h : list Z) (f : nat * nat) (format : string) (v : Z) : outcome (list Z) :=
  let? s := snprintf_str (snd f) format [Arg32 v] in Ret (put_string h f s).

(** The loop of [calculate_chksum], from byte [i] on. *)
Fixpoint chksum_loop (header : list Z) (i : nat) (chksum : Z) : Z :=
  match header with
  | [] => chksum
  | b :: header =>
      let in_chksum_field := (fst h_chksum <=? i)%nat && (i <? fst h_chksum + snd h_chksum)%nat in
      chksum_loop header (S i) (u32 (chksum + if in_chksum_field then 32 else b))
  end.
Definition calculate_chksum (h : list Z) : Z := chksum_loop h 0 0.

(** The part of a string after its first slash. *)
Fixpoint after_slash (s : list Z) : list Z :=
  match s with
  | [] => []
  | c :: s => if c =? 47 then s else after_slash s
  end.
Definition antisocial (s : list Z) : bool :=
  bool_decide (take 1 s = chars "/") || bool_decide (take 2 s = chars "./") || bool_decide (take 3 s = chars "../").
Fixpoint strip_loop (fuel : nat) (file_name : list Z) : list Z :=
  match fuel with
  | O => file_name
  | S fuel => if antisocial file_name then strip_loop fuel (after_slash file_name) else file_name
  end.
Definition strip_antisocial_prefixes (file_name : list Z) : list Z :=
  let s := strip_loop (length file_name) file_name in
  if bool_decide (s = []) || bool_decide (s = chars "..") then chars "." else s.

(** The header, or the name that is too long. *)
Definition ustar_make_header (file_name : list Z) (type size : Z) : outcome (list Z + list Z) :=
  assert? (type =? USTAR_REGULAR) || (type =? USTAR_DIRECTORY) in
  let file_name := strip_antisocial_prefixes file_name in
  if 99 <? Z.of_nat (length file_name) then Ret (inr file_name)
  else
    let h := replicate USTAR_HEADER_SIZE 0 in
    let h := put_string h h_name file_name in
    let? h := put_octal h h_mode "%07o" (if type =? USTAR_REGULAR then 420 else 493) in
    let h := put_string h h_uid (chars "0000000") in
    let h := put_string h h_gid (chars "0000000") in
    let? h := put_octal h h_size "%011o" size in
    let? h := put_octal h h_mtime "%011o" 1136102400 in
    let h := splice (fst h_typeflag) [type] h in
    let h := put_string h h_magic (chars "ustar") in
    let h := splice (fst h_version) [48; 48] h in
    let h := put_string h h_gname (chars "root") in
    let h := put_string h h_uname (chars "root") in
    let? h := put_octal h h_chksum "%07o" (calculate_chksum h) in
    Ret (inl h).

(** From character [ofs] of the field on. *)
Fixpoint parse_octal_loop (s : list Z) (ofs value : Z) : option Z :=
  match s with
  | [] => None
  | c :: s =>
      if (48 <=? c) && (c <=? 55) then
        if UINT_MAX / 8 <? value then None
        else parse_octal_loop s (ofs + 1) (u32 (c - 48 + value * 8))
      else if (c =? 32) || (c =? 0) then (if 0 <? ofs then Some value else None)
      else None
  end.
Definition parse_octal_field (s : list Z) : option Z := parse_octal_loop s 0 0.

Fixpoint is_all_zeros (block : list Z) : bool :=
  match block with
  | [] => true
  | b :: block => if b =? 0 then is_all_zeros block else false
  end.

Inductive ustar_error :=
  | NotUstar | BadVersion | CorruptChksum | ChksumMismatch | NameTooLong | BadType | CorruptSize | TooLarge.

(** The string at the start of a field. *)
Fixpoint string_at (l : list Z) : list Z :=
  match l with
  | [] => []
  | c :: l => if c =? 0 then [] else c :: string_at l
  end.

Record ustar_entry := mk_entry { u_name : option (list Z); u_type : Z; u_size : Z }.

Definition ustar_parse_header (header : list Z) : ustar_entry + ustar_error :=
  let byte f := default 0 (hd_error (get_field header f)) in
  if is_all_zeros header then inl (mk_entry None USTAR_EOF 0)
  else if negb (bool_decide (get_field header h_magic = chars "ustar" ++ [0])) then inr NotUstar
  else if negb (bool_decide (get_field header h_version = [48; 48])) then inr BadVersion
  else
    match parse_octal_field (get_field header h_chksum) with
    | None => inr CorruptChksum
    | Some chksum =>
        if negb (chksum =? calculate_chksum header) then inr ChksumMismatch
        else if negb (byte (99, 1)%nat =? 0) || negb (byte h_prefix =? 0) then inr NameTooLong
        else if negb (byte h_typeflag =? USTAR_REGULAR) && negb (byte h_typeflag =? USTAR_DIRECTORY) then inr BadType
        else
          let name := strip_antisocial_prefixes (string_at (get_field header h_name)) in
          if byte h_typeflag =? USTAR_REGULAR then
            match parse_octal_field (get_field header h_size) with
            | None => inr CorruptSize
            | Some size_ul =>
                if INT_MAX <? size_ul then inr TooLarge
                else inl (mk_entry (Some name) (byte h_typeflag) size_ul)
            end
          else inl (mk_entry (Some name) (byte h_typeflag) 0)
    end.

(** * Octal fields *)

(** The digits of [v] in base 8, padded with zeros to [w] characters. *)
Record octal_text (w : Z) (v : Z) (l : list Z) : Prop := {
  ot_length : Z.of_nat (length l) = w;
  ot_value : read_base base_o l 0 = Some v;
  ot_digits : Forall (fun c => 48 <= c < 56) l
}.

Lemma digit_value_o ch : is_Some (digit_value base_o ch) -> 48 <= ch < 56 /\ digit_value base_o ch = Some (ch - 48).
Proof.
  intros [v Hv]. assert (Hch : ch ∈ digits base_o).
  { unfold digit_value in Hv. apply fmap_Some in Hv as (i & Hi & _).
    apply find_pos_Some in Hi as [(d & Hd & Hdc) _]. apply Z.eqb_eq in Hdc as <-.
    by eapply list_elem_of_lookup_2. }
  assert (H : Forall (fun ch => 48 <= ch < 56 /\ digit_value base_o ch = Some (ch - 48)) (digits base_o))
    by by_compute.
  rewrite Forall_forall in H. by apply H.
Qed.

Lemma read_base_octal body : Forall (fun ch => ch <> 44) body -> forall v w,
  read_base base_o body v = Some w -> Forall (fun ch => 48 <= ch < 56) body.
Proof.
  induction 1 as [|ch body Hch _ IH]; intros v w; cbn [read_base]; [done|].
  replace (ch =? 44) with false by lia. destruct (digit_value base_o ch) as [d|] eqn:E; [|done].
  destruct (digit_value_o ch) as [Hd _]; [by rewrite E|]. intros H. constructor; [done|]. by eapply IH.
Qed.

Lemma format_octal v w : 0 <= v < 8 ^ w -> 1 <= w <= 20 -> exists l,
  format_integer v false false base_o (mk_conv ZERO w (-1) INT) = Ret l /\ octal_text w v l.
Proof.
  intros Hv Hw. assert (Hb : base_o ∈ bases) by (right; by left). unfold format_integer. cbv zeta.
  cbn [flags width precision]. change (has_flag ZERO POUND) with false. change (has_flag ZERO GROUP) with false.
  change (has_flag ZERO ZERO) with true. change (has_flag ZERO MINUS) with false. cbn [andb].
  pose proof (Z.pow_le_mono_r 8 w 20 ltac:(lia) ltac:(lia)).
  destruct (digits_loop_Ret base_o false Hb 23 v 0 []) as (ds & -> & Hread & Hlen & Hg & Hnil & Hcnt);
    [lia|change (8 ^ (Z.of_nat 23 - 1)) with (8 ^ 22); lia|lia|lia|cbn; lia|lia|]. cbn [obind app] in *.
  specialize (Hcnt eq_refl w ltac:(lia) (proj2 Hv)). specialize (Hg eq_refl).
  change (if -1 <? 0 then 1 else -1) with 1.
  destruct (zeros_loop_Ret 1 (S BUF_SIZE) ds) as (n & -> & Hn & Hn2 & Hn3); [lia|unfold BUF_SIZE; lia|]. cbn [obind].
  change (Z.land ZERO (Z.lor MINUS ZERO) =? 0) with false. cbn [negb Z.eqb app].
  set (pad := if _ <? 0 then 0 else _). eexists. split; [reflexivity|]. rewrite app_nil_r.
  assert (Forall (fun ch => ch <> 44) (output_dup 48 pad ++ rev (ds ++ replicate n 48))) as NC.
  { apply Forall_app_2; [by apply Forall_replicate|]. apply Forall_rev, Forall_app_2; [done|]. by apply Forall_replicate. }
  assert (read_base base_o (output_dup 48 pad ++ rev (ds ++ replicate n 48)) 0 = Some v) as RB.
  { unfold output_dup. rewrite read_base_zeros, rev_app_distr, rev_replicate, read_base_zeros, Hread by done. done. }
  split; [|exact RB|by eapply read_base_octal].
  rewrite length_app, length_rev. unfold output_dup, pad. rewrite length_replicate.
  assert (Z.of_nat (length (ds ++ replicate n 48)) <= w) by (rewrite length_app, length_replicate; lia).
  destruct (Z.ltb_spec (w - Z.of_nat (length (ds ++ replicate n 48)) - 0 - 0) 0); lia.
Qed.

Lemma printf_o format w v l : head_char format <> 37 -> in_u32 v ->
  parse_conversion Empty_set format [Arg32 v] = Ret ([111], mk_conv ZERO w (-1) INT, [Arg32 v]) ->
  format_integer v false false base_o (mk_conv ZERO w (-1) INT) = Ret l ->
  kvprintf (37 :: format) [Arg32 v] = Ret l.
Proof.
  intros Hh Hv HP HF. unfold kvprintf, vprintf, printf_fuel. cbn [length].
  assert (exists fuel, S (length format) + 24 = S (S fuel))%nat as [fuel ->] by (exists (length format + 23)%nat; lia).
  cbn [__vprintf]. change (negb (37 =? 37)) with false. rewrite (proj2 (Z.eqb_neq _ _) Hh). rewrite HP. cbn [obind].
  change (head_char [111]) with 111. cbn [Z.eqb Pos.eqb orb].
  unfold unsigned_arg. cbn [ctype va_arg32 obind]. rewrite u32_small by done. rewrite HF. cbn [obind advance].
  by rewrite app_nil_r.
Qed.

Lemma printf_octal7 v : 0 <= v < 8 ^ 7 -> exists l, kvprintf (chars "%07o") [Arg32 v] = Ret l /\ octal_text 7 v l.
Proof.
  intros Hv. destruct (format_octal v 7 Hv ltac:(lia)) as (l & E & O). exists l. split; [|done].
  apply (printf_o [48; 55; 111] 7); [done|lia|reflexivity|exact E].
Qed.

Lemma printf_octal11 v : 0 <= v < 2 ^ 31 -> exists l, kvprintf (chars "%011o") [Arg32 v] = Ret l /\ octal_text 11 v l.
Proof.
  intros Hv. destruct (format_octal v 11 ltac:(lia) ltac:(lia)) as (l & E & O). exists l. split; [|done].
  apply (printf_o [48; 49; 49; 111] 11); [done|lia|reflexivity|exact E].
Qed.

Lemma read_octal_cons c l v w : 48 <= c < 56 -> read_base base_o (c :: l) v = Some w ->
  read_base base_o l (8 * v + (c - 48)) = Some w.
Proof.
  intros Hc. cbn [read_base]. replace (c =? 44) with false by lia.
  destruct (digit_value base_o c) as [d|] eqn:E; [|done].
  destruct (digit_value_o c) as [_ E2]; [by rewrite E|]. rewrite E in E2. injection E2 as ->. done.
Qed.

Lemma read_octal_grows l : Forall (fun c => 48 <= c < 56) l -> forall v w,
  0 <= v -> read_base base_o l v = Some w -> v <= w.
Proof.
  induction 1 as [|c l Hc _ IH]; intros v w Hv HR; [injection HR as ->; lia|].
  apply read_octal_cons in HR; [|done]. apply IH in HR; lia.
Qed.

(** Parsing a field that holds such a text and a null byte. *)
Lemma parse_octal_text l : Forall (fun c => 48 <= c < 56) l -> forall ofs v w rest,
  read_base base_o l v = Some w -> 0 <= v -> w < 2 ^ 31 -> 0 <= ofs -> (l = [] -> 0 < ofs) ->
  parse_octal_loop (l ++ 0 :: rest) ofs v = Some w.
Proof.
  induction 1 as [|c l Hc Hl IH]; intros ofs v w rest HR Hv Hw Ho Hne; cbn [app parse_octal_loop].
  - cbn in HR. injection HR as ->. specialize (Hne eq_refl). cbn [Z.leb Z.eqb andb orb Z.compare].
    by replace (0 <? ofs) with true by lia.
  - apply read_octal_cons in HR; [|done]. pose proof (read_octal_grows l Hl (8 * v + (c - 48)) w ltac:(lia) HR) as LE.
    replace ((48 <=? c) && (c <=? 55)) with true by lia.
    change (UINT_MAX / 8) with 536870911. replace (536870911 <? v) with false by lia.
    rewrite u32_small by lia. apply IH; [|lia|lia|lia|lia]. rewrite <- HR. f_equal. lia.
Qed.

Lemma parse_octal_Ret w v l rest : octal_text w v l -> 0 < w -> v < 2 ^ 31 ->
  parse_octal_field (l ++ 0 :: rest) = Some v.
Proof.
  intros [L R D] Hw Hv. apply parse_octal_text; try done. intros ->. cbn in L. lia.
Qed.

(** * The checksum *)

Lemma chksum_ext l : forall l' i c, length l = length l' ->
  (forall k, ~ (148 <= i + k < 156)%nat -> l !! k = l' !! k) -> chksum_loop l i c = chksum_loop l' i c.
Proof.
  induction l as [|b l IH]; intros [|b' l'] i c HL H; cbn in HL; try done.
  cbn [chksum_loop]. rewrite (IH l'); [|lia|].
  - f_equal. f_equal. f_equal. change (fst h_chksum) with 148%nat. change (snd h_chksum) with 8%nat.
    destruct ((148 <=? i)%nat && (i <? 148 + 8)%nat) eqn:E; [done|].
    specialize (H O ltac:(lia)). cbn in H. by injection H.
  - intros k Hk. apply (H (S k)). lia.
Qed.

Lemma chksum_bound l : is_bytes l -> forall i c, 0 <= c -> c + 256 * Z.of_nat (length l) < 2 ^ 32 ->
  0 <= chksum_loop l i c <= c + 255 * Z.of_nat (length l).
Proof.
  induction 1 as [|b l Hb _ IH]; intros i c Hc HL; cbn [chksum_loop length] in *; [lia|].
  set (d := if _ : bool then 32 else b). assert (0 <= d <= 255) as Hd by (unfold d; destruct (_ && _); lia).
  rewrite u32_small by lia. specialize (IH (S i) (c + d)). lia.
Qed.

(** * Names *)

Lemma antisocial_slash s : antisocial s = true -> (length (after_slash s) < length s)%nat.
Proof.
  unfold antisocial. intros H. assert (exists c l, s = c :: l) as (c & l & ->).
  { destruct s as [|c l]; [by vm_compute in H|eauto]. }
  clear H. cbn [after_slash length]. assert (forall l, (length (after_slash l) <= length l)%nat) as LE.
  { clear. induction l as [|b l IH]; cbn [after_slash length]; [lia|]. destruct (b =? 47); lia. }
  specialize (LE l). destruct (c =? 47); lia.
Qed.

Lemma strip_loop_social fuel : forall s, (length s <= fuel)%nat -> antisocial (strip_loop fuel s) = false.
Proof.
  induction fuel as [|fuel IH]; intros s Hs; cbn [strip_loop].
  - destruct s; [done|cbn in Hs; lia].
  - destruct (antisocial s) eqn:E; [|done]. apply IH. apply antisocial_slash in E. lia.
Qed.

Lemma strip_loop_done fuel s : antisocial s = false -> strip_loop fuel s = s.
Proof. intros H. destruct fuel; cbn [strip_loop]; by rewrite ?H. Qed.

Lemma strip_loop_Forall (P : Z -> Prop) fuel : forall s, Forall P s -> Forall P (strip_loop fuel s).
Proof.
  assert (forall s, Forall P s -> Forall P (after_slash s)) as A.
  { induction 1 as [|c s Hc Hs IH]; cbn [after_slash]; [done|]. by destruct (c =? 47). }
  induction fuel as [|fuel IH]; intros s Hs; cbn [strip_loop]; [done|]. destruct (antisocial s); auto.
Qed.

(** What is left of a name is safe to extract. *)
Record safe_name (s : list Z) : Prop := {
  sn_social : antisocial s = false;
  sn_nonempty : s <> [];
  sn_parent : s <> chars ".."
}.

Lemma strip_safe s : safe_name (strip_antisocial_prefixes s).
Proof.
  unfold strip_antisocial_prefixes. pose proof (strip_loop_social (length s) s ltac:(lia)) as H.
  destruct (bool_decide (strip_loop (length s) s = [])) eqn:E1; [by split|].
  destruct (bool_decide (strip_loop (length s) s = chars "..")) eqn:E2; [by split|].
  apply bool_decide_eq_false in E1, E2. by split.
Qed.

Lemma strip_name s : is_name s -> is_name (strip_antisocial_prefixes s).
Proof.
  intros H. unfold strip_antisocial_prefixes. destruct (_ || _); [by repeat constructor|].
  by apply strip_loop_Forall.
Qed.

Lemma strip_id s : safe_name s -> strip_antisocial_prefixes s = s.
Proof.
  intros [H1 H2 H3]. unfold strip_antisocial_prefixes. rewrite strip_loop_done by done.
  by rewrite !bool_decide_false by done.
Qed.

(** * Fields *)

Definition fits (f : nat * nat) : Prop := (0 < snd f /\ fst f + snd f <= 512)%nat.
Definition apart (f g : nat * nat) : Prop := (fst f + snd f <= fst g \/ fst g + snd g <= fst f)%nat.

Section Fields.
Context (h : list Z) (H : length h = 512%nat).

Lemma put_string_length f s : fits f -> length (put_string h f s) = 512%nat.
Proof.
  intros [F1 F2]. unfold put_string. rewrite splice_length; [done|]. rewrite length_app, length_take. cbn. lia.
Qed.

Lemma put_string_other f s g : fits f -> apart f g -> get_field (put_string h f s) g = get_field h g.
Proof.
  intros [F1 F2] A. unfold get_field, put_string, apart in *. apply field_splice_other;
    rewrite length_app, length_take; cbn; lia.
Qed.

Lemma put_string_same f s : fits f -> length s = (snd f - 1)%nat -> get_field (put_string h f s) f = s ++ [0].
Proof.
  intros [F1 F2] L. unfold get_field, put_string. rewrite take_ge by lia.
  apply field_splice_same; rewrite ?length_app, ?L; cbn; lia.
Qed.

Lemma put_bytes_length o l : (o + length l <= 512)%nat -> length (splice o l h) = 512%nat.
Proof. intros. rewrite splice_length; lia. Qed.

Lemma put_bytes_other o l g : (o + length l <= 512)%nat -> apart (o, length l) g ->
  get_field (splice o l h) g = get_field h g.
Proof. intros F A. unfold get_field, apart in *. apply field_splice_other; cbn in *; lia. Qed.

Lemma put_bytes_field o l : (o + length l <= 512)%nat -> get_field (splice o l h) (o, length l) = l.
Proof. intros F. unfold get_field. apply field_splice_same; cbn; lia. Qed.

Lemma put_string_bytes f s : is_bytes h -> is_bytes s -> is_bytes (put_string h f s).
Proof.
  intros B1 B2. unfold put_string. apply splice_bytes; [|done]. apply Forall_app_2; [by apply Forall_take|].
  by repeat constructor.
Qed.

Lemma put_string_chksum s : length s = 7%nat -> calculate_chksum (put_string h h_chksum s) = calculate_chksum h.
Proof.
  intros L. unfold calculate_chksum. apply chksum_ext.
  - rewrite H. apply put_string_length. split; cbn; lia.
  - intros k Hk. unfold put_string, splice. cbn [fst snd h_chksum]. rewrite (take_ge s) by (cbn; lia).
    rewrite length_app, L. cbn [length Nat.add].
    destruct (decide (k < 148)%nat) as [Hl|Hl].
    + rewrite lookup_app_l by (rewrite length_take; lia). by rewrite lookup_take_lt by lia.
    + rewrite lookup_app_r by (rewrite length_take; lia). rewrite length_take, Nat.min_l by lia.
      rewrite lookup_app_r by (rewrite length_app, L; cbn; lia). rewrite length_app, L. cbn [length Nat.add].
      rewrite lookup_drop. f_equal. lia.
Qed.
End Fields.

Lemma put_name s : (length s <= 99)%nat ->
  get_field (put_string (replicate 512 0) h_name s) h_name = s ++ replicate (100 - length s) 0.
Proof.
  intros L. unfold get_field, put_string, field, splice. cbn [fst snd h_name]. rewrite (take_ge s) by lia.
  rewrite drop_0, take_0, length_app. cbn [app length Nat.add]. rewrite drop_replicate, <- app_assoc.
  change ([0] ++ replicate (512 - (length s + 1)) 0) with (replicate (S (512 - (length s + 1))) 0).
  rewrite take_app_ge by lia. f_equal. rewrite take_replicate. f_equal. lia.
Qed.

Lemma put_octal7 h f v : snd f = 8%nat -> 0 <= v < 8 ^ 7 -> exists l, octal_text 7 v l /\
  put_octal h f "%07o" v = Ret (put_string h f l).
Proof.
  intros Hf Hv. destruct (printf_octal7 v Hv) as (l & E & O). exists l. split; [done|].
  unfold put_octal, snprintf_str. rewrite E. cbn [obind]. rewrite take_ge; [done|]. destruct O. lia.
Qed.

Lemma put_octal11 h f v : snd f = 12%nat -> 0 <= v < 2 ^ 31 -> exists l, octal_text 11 v l /\
  put_octal h f "%011o" v = Ret (put_string h f l).
Proof.
  intros Hf Hv. destruct (printf_octal11 v Hv) as (l & E & O). exists l. split; [done|].
  unfold put_octal, snprintf_str. rewrite E. cbn [obind]. rewrite take_ge; [done|]. destruct O. lia.
Qed.

Lemma octal_text_length w v l : octal_text w v l -> length l = Z.to_nat w.
Proof. intros [L _ _]. lia. Qed.
Lemma octal_text_bytes w v l : octal_text w v l -> is_bytes l.
Proof. intros [_ _ D]. eapply Forall_impl; [exact D|]. cbn. lia. Qed.

Lemma all_zeros_field h f : is_all_zeros h = true -> Forall (fun b => b = 0) (get_field h f).
Proof.
  intros H. unfold get_field, field. apply Forall_take, Forall_drop.
  induction h as [|b h IH]; [constructor|]. cbn [is_all_zeros] in H. destruct (Z.eqb_spec b 0); [|done].
  constructor; auto.
Qed.

Lemma string_at_name s n : is_name s -> string_at (s ++ replicate n 0) = s.
Proof.
  induction 1 as [|c s Hc _ IH]; cbn [app string_at]; [by destruct n|].
  replace (c =? 0) with false by lia. by rewrite IH.
Qed.

(** The parts of a composed header that the parser looks at. *)
Record composed (h name : list Z) (type size : Z) : Prop := {
  co_length : length h = 512%nat;
  co_bytes : is_bytes h;
  co_name : get_field h h_name = name ++ replicate (100 - length name) 0;
  co_size : exists l, octal_text 11 size l /\ get_field h h_size = l ++ [0];
  co_chksum : exists l, octal_text 7 (calculate_chksum h) l /\ get_field h h_chksum = l ++ [0];
  co_type : get_field h h_typeflag = [type];
  co_magic : get_field h h_magic = chars "ustar" ++ [0];
  co_version : get_field h h_version = [48; 48];
  co_prefix : exists l, get_field h h_prefix = 0 :: l
}.

Lemma parse_composed h name type size : composed h name type size -> safe_name name -> is_name name ->
  (length name <= 99)%nat -> type = USTAR_REGULAR \/ type = USTAR_DIRECTORY -> 0 <= size < 2 ^ 31 ->
  ustar_parse_header h = inl (mk_entry (Some name) type (if type =? USTAR_REGULAR then size else 0)).
Proof.
  intros [C1 C2 C3 (ls & S1 & S2) (lc & K1 & K2) C4 C5 C6 (lp & C7)] SN N L T Hs. unfold ustar_parse_header.
  cbv zeta. destruct (is_all_zeros h) eqn:Z0.
  { apply (all_zeros_field h h_typeflag) in Z0. rewrite C4 in Z0. apply Forall_cons in Z0 as [Z0 _].
    unfold USTAR_REGULAR, USTAR_DIRECTORY in T. lia. }
  rewrite C5, bool_decide_true by done. rewrite C6, bool_decide_true by done. cbn [negb].
  assert (calculate_chksum h < 2 ^ 31) as CB.
  { unfold calculate_chksum. pose proof (chksum_bound h C2 0 0 ltac:(lia) ltac:(rewrite C1; lia)) as B.
    rewrite C1 in B. lia. }
  rewrite K2, (parse_octal_Ret 7 (calculate_chksum h)) by (done || lia). rewrite Z.eqb_refl. cbn [negb].
  assert (get_field h (99, 1)%nat = [0]) as ->.
  { unfold get_field, field in *. cbn [fst snd h_name] in *. rewrite drop_0 in C3.
    rewrite take_drop_commute. change (99 + 1)%nat with 100%nat. rewrite C3.
    rewrite drop_app_ge, drop_replicate by lia. by replace (100 - length name - (99 - length name))%nat with 1%nat by lia. }
  rewrite C7, C4. cbn [hd_error default Z.eqb negb orb]. rewrite C3, string_at_name, strip_id by done.
  rewrite S2, (parse_octal_Ret 11 size) by (done || lia).
  unfold INT_MAX. replace (2 ^ 31 - 1 <? size) with false by lia.
  destruct T as [-> | ->]; reflexivity.
Qed.

(** One step of the composition keeps the length and the other fields. *)
Record kept_but (h h' : list Z) (f : nat * nat) : Prop := {
  kb_length : length h' = 512%nat;
  kb_other : forall g, apart f g -> get_field h' g = get_field h g
}.

Lemma put_string_kept h f s : length h = 512%nat -> fits f -> kept_but h (put_string h f s) f.
Proof. intros H F. split; [by apply put_string_length|]. intros g A. by apply put_string_other. Qed.
Lemma put_bytes_kept h o l : length h = 512%nat -> (o + length l <= 512)%nat -> kept_but h (splice o l h) (o, length l).
Proof. intros H F. split; [by apply put_bytes_length|]. intros g A. by apply put_bytes_other. Qed.

Ltac kept := first [apply put_string_kept | apply put_bytes_kept];
  [first [eapply kb_length; eassumption | apply length_replicate] | first [split; cbn; lia | cbn; lia]].
(** The field of a header, at the step that wrote it. *)
Ltac other_step := erewrite kb_other by first [eassumption | (unfold apart; cbn; lia)].
Ltac other := repeat other_step.

Lemma make_composed name type size : is_name name -> type = USTAR_REGULAR \/ type = USTAR_DIRECTORY ->
  0 <= size < 2 ^ 31 -> (length (strip_antisocial_prefixes name) <= 99)%nat ->
  exists h, ustar_make_header name type size = Ret (inl h) /\ composed h (strip_antisocial_prefixes name) type size.
Proof.
  intros N T Hs L. apply strip_name in N. unfold ustar_make_header.
  replace ((type =? USTAR_REGULAR) || (type =? USTAR_DIRECTORY)) with true by lia.
  set (s := strip_antisocial_prefixes name) in *. replace (99 <? Z.of_nat (length s)) with false by lia.
  assert (is_bytes s) as Bs by (eapply Forall_impl; [exact N|]; cbn; lia).
  set (h1 := put_string (replicate USTAR_HEADER_SIZE 0) h_name s).
  destruct (put_octal7 h1 h_mode (if type =? USTAR_REGULAR then 420 else 493) eq_refl ltac:(destruct (type =? _); lia))
    as (l2 & O2 & ->). cbn [obind]. set (h2 := put_string h1 h_mode l2).
  set (h3 := put_string h2 h_uid (chars "0000000")). set (h4 := put_string h3 h_gid (chars "0000000")).
  destruct (put_octal11 h4 h_size size eq_refl Hs) as (l5 & O5 & ->). cbn [obind]. set (h5 := put_string h4 h_size l5).
  destruct (put_octal11 h5 h_mtime 1136102400 eq_refl ltac:(lia)) as (l6 & O6 & ->). cbn [obind].
  set (h6 := put_string h5 h_mtime l6). set (h7 := splice (fst h_typeflag) [type] h6).
  set (h8 := put_string h7 h_magic (chars "ustar")). set (h9 := splice (fst h_version) [48; 48] h8).
  set (h10 := put_string h9 h_gname (chars "root")). set (h11 := put_string h10 h_uname (chars "root")).
  assert (kept_but (replicate 512 0) h1 h_name) as K1 by kept.
  assert (kept_but h1 h2 h_mode) as K2 by kept. assert (kept_but h2 h3 h_uid) as K3 by kept.
  assert (kept_but h3 h4 h_gid) as K4 by kept. assert (kept_but h4 h5 h_size) as K5 by kept.
  assert (kept_but h5 h6 h_mtime) as K6 by kept. assert (kept_but h6 h7 (156, 1)%nat) as K7 by kept.
  assert (kept_but h7 h8 h_magic) as K8 by kept. assert (kept_but h8 h9 (263, 2)%nat) as K9 by kept.
  assert (kept_but h9 h10 h_gname) as K10 by kept. assert (kept_but h10 h11 h_uname) as K11 by kept.
  assert (is_bytes h11) as B11.
  { pose proof (octal_text_bytes _ _ _ O2). pose proof (octal_text_bytes _ _ _ O5).
    pose proof (octal_text_bytes _ _ _ O6). unfold USTAR_REGULAR, USTAR_DIRECTORY in T.
    unfold h11, h10, h9, h8, h7, h6, h5, h4, h3, h2, h1.
    repeat first [apply put_string_bytes | apply splice_bytes]; try assumption; try (by repeat constructor); try (by apply is_bytes_replicate).
    repeat constructor; lia. }
  destruct (put_octal7 h11 h_chksum (calculate_chksum h11) eq_refl) as (lc & Oc & ->).
  { unfold calculate_chksum. pose proof (chksum_bound h11 B11 0 0) as B. rewrite (kb_length _ _ _ K11) in B. lia. }
  cbn [obind]. set (h12 := put_string h11 h_chksum lc). assert (kept_but h11 h12 h_chksum) as K12 by kept.
  exists h12. split; [done|]. split.
  - apply K12.
  - apply put_string_bytes; [done|]. by eapply octal_text_bytes.
  - other. by apply put_name.
  - exists l5. split; [done|]. other. apply put_string_same; [by eapply kb_length|split; cbn; lia|].
    by rewrite (octal_text_length _ _ _ O5).
  - exists lc. unfold h12 at 1. rewrite put_string_chksum; [|by eapply kb_length|by rewrite (octal_text_length _ _ _ Oc)].
    split; [done|]. apply put_string_same; [by eapply kb_length|split; cbn; lia|].
    by rewrite (octal_text_length _ _ _ Oc).
  - other. apply (put_bytes_field h6 (kb_length _ _ _ K6) 156 [type]). cbn. lia.
  - other. apply put_string_same; [by eapply kb_length|split; cbn; lia|done].
  - other. apply (put_bytes_field h8 (kb_length _ _ _ K8) 263 [48; 48]). cbn. lia.
  - exists (replicate 154 0). do 12 other_step. reflexivity.
Qed.

(** * Properties *)

(** C37. A header composed for a regular file or a directory is 512 bytes that parse back to the file's
    name without its dangerous prefixes, its type and, for a file, its size; composing fails exactly
    when that name has more than 99 characters. *)
Theorem ustar_roundtrip (name : list Z) (type size : Z) (N : is_name name)
    (T : type = USTAR_REGULAR \/ type = USTAR_DIRECTORY) (Hs : 0 <= size < 2 ^ 31) :
  let s := strip_antisocial_prefixes name in
  if 99 <? Z.of_nat (length s) then ustar_make_header name type size = Ret (inr s)
  else exists h, ustar_make_header name type size = Ret (inl h) /\ length h = 512%nat /\ is_bytes h /\
    ustar_parse_header h = inl (mk_entry (Some s) type (if type =? USTAR_REGULAR then size else 0)).
Proof.
  intros s. destruct (Z.ltb_spec 99 (Z.of_nat (length s))) as [H|H].
  - unfold ustar_make_header. replace ((type =? USTAR_REGULAR) || (type =? USTAR_DIRECTORY)) with true by lia.
    fold s. by replace (99 <? Z.of_nat (length s)) with true by lia.
  - destruct (make_composed name type size N T Hs ltac:(fold s; lia)) as (h & E & C). exists h.
    split; [done|]. split; [apply C|]. split; [apply C|].
    apply parse_composed; [done|apply strip_safe|by apply strip_name|fold s; lia|done|done].
Qed.

Lemma ustar_roundtrip_witness : exists h,
  ustar_make_header (chars "../../bin/echo") USTAR_REGULAR 12345 = Ret (inl h) /\
  ustar_parse_header h = inl (mk_entry (Some (chars "bin/echo")) USTAR_REGULAR 12345).
Proof.
  destruct (ustar_roundtrip (chars "../../bin/echo") USTAR_REGULAR 12345) as (h & E & _ & _ & P);
    [by repeat constructor|by left|lia|]. exists h. split; [exact E|]. rewrite P. reflexivity.
Defined.

Lemma parse_octal_range s : forall ofs value v, 0 <= value -> parse_octal_loop s ofs value = Some v -> 0 <= v.
Proof.
  induction s as [|c s IH]; intros ofs value v Hv; cbn [parse_octal_loop]; [done|].
  destruct ((48 <=? c) && (c <=? 55)).
  - destruct (UINT_MAX / 8 <? value); [done|]. apply IH. pose proof (u32_range (c - 48 + value * 8)). lia.
  - destruct (_ || _); [|done]. destruct (0 <? ofs); [|done]. intros [= <-]. done.
Qed.

(** C40. Whatever its bytes, a header is either refused or describes the end of an archive, or a regular
    file or directory with a size an [int] can hold and a name that is not empty, not [..], and does not
    begin with [/], [./] or [../] (components [..] further in are kept, see [inner_parents_kept]); its
    checksum matched. *)
Theorem ustar_parse_safe (h : list Z) :
  match ustar_parse_header h with
  | inr _ => True
  | inl e =>
      (u_type e = USTAR_EOF /\ u_name e = None /\ u_size e = 0 /\ Forall (fun b => b = 0) h) \/
      ((u_type e = USTAR_REGULAR \/ u_type e = USTAR_DIRECTORY) /\ 0 <= u_size e <= INT_MAX /\
       (exists s, u_name e = Some s /\ safe_name s) /\
       parse_octal_field (get_field h h_chksum) = Some (calculate_chksum h))
  end.
Proof.
  unfold ustar_parse_header. cbv zeta. destruct (is_all_zeros h) eqn:Z0.
  { left. split_and!; try done. induction h as [|b h IH]; [constructor|]. cbn [is_all_zeros] in Z0.
    destruct (Z.eqb_spec b 0); [|done]. constructor; auto. }
  destruct (negb (bool_decide _)); [done|]. destruct (negb (bool_decide _)); [done|].
  destruct (parse_octal_field (get_field h h_chksum)) as [ck|] eqn:EC; [|done].
  destruct (Z.eqb_spec ck (calculate_chksum h)) as [->|]; [cbn [negb]|done].
  destruct (_ || _); [done|]. set (ty := default 0 (hd_error (get_field h h_typeflag))).
  destruct (Z.eqb_spec ty USTAR_REGULAR) as [ER|ER].
  - cbn [negb andb]. destruct (parse_octal_field (get_field h h_size)) as [sz|] eqn:ES; [|done].
    destruct (Z.ltb_spec INT_MAX sz); [done|]. right. pose proof (parse_octal_range _ 0 0 sz ltac:(lia) ES).
    split_and!; [by left|done|done| |done]. eexists. split; [reflexivity|]. apply strip_safe.
  - cbn [negb andb]. destruct (Z.eqb_spec ty USTAR_DIRECTORY) as [ED|]; [cbn [negb]|done]. right.
    split_and!; [by right|done|done| |done]. eexists. split; [reflexivity|]. apply strip_safe.
Qed.

(** Only prefixes are dropped: this name leads out of the current directory. *)
Example inner_parents_kept : strip_antisocial_prefixes (chars "a/../../etc/passwd") = chars "a/../../etc/passwd".
Proof. reflexivity. Qed.
