(* ===== verification/Rtc.v ===== *)
(** The real-time clock (devices/rtc.c): reading the date from the CMOS registers and turning it into
    seconds since 1970, compared with the calendar. *)
From S2P Require Import Prelude KStdlib.

(** * Definitions *)

Definition RTC_REG_SEC : Z := 0.
Definition RTC_REG_MIN : Z := 2.
Definition RTC_REG_HOUR : Z := 4.
Definition RTC_REG_MDAY : Z := 7.
Definition RTC_REG_MON : Z := 8.
Definition RTC_REG_YEAR : Z := 9.

Definition bcd_to_bin (x : Z) : Z := Z.land x 0x0f + Z.shiftr x 4 * 10.

Definition days_per_month : list Z := [31; 28; 31; 30; 31; 30; 31; 31; 30; 31; 30; 31].

Record rtc_date := mk_date { sec : Z; min : Z; hour : Z; mday : Z; mon : Z; year : Z }.

(** [cmos n index] is the byte that the [n]-th read of a register finds in register [index]. *)
Section Rtc.
Context (cmos : nat -> Z -> Z).

Definition cmos_read (n : nat) (index : Z) : Z := cmos n index.

(** The loop that repeats until the seconds have not changed, from read [n] on. *)
Fixpoint read_date (fuel : nat) (n : nat) : outcome rtc_date :=
  match fuel with
  | O => NoFuel
  | S fuel =>
      let sec := bcd_to_bin (cmos_read n RTC_REG_SEC) in
      let min := bcd_to_bin (cmos_read (n + 1) RTC_REG_MIN) in
      let hour := bcd_to_bin (cmos_read (n + 2) RTC_REG_HOUR) in
      let mday := bcd_to_bin (cmos_read (n + 3) RTC_REG_MDAY) in
      let mon := bcd_to_bin (cmos_read (n + 4) RTC_REG_MON) in
      let year := bcd_to_bin (cmos_read (n + 5) RTC_REG_YEAR) in
      if negb (sec =? bcd_to_bin (cmos_read (n + 6) RTC_REG_SEC)) then read_date fuel (n + 7)
      else Ret (mk_date sec min hour mday mon year)
  end.

Definition seconds (days : Z) : outcome Z :=
  let? h := int_ (days * 24) in let? m := int_ (h * 60) in int_ (m * 60).

(** The loop over the months up to [mon], [n] of them from month [i] on; [time] is unsigned. *)
Fixpoint months_loop (n : nat) (i time : Z) : outcome Z :=
  match n with
  | O => Ret time
  | S n =>
      let? days := aread days_per_month (i - 1) in
      let? s := seconds days in
      months_loop n (i + 1) (u32 (time + s))
  end.

Definition time_of (d : rtc_date) : outcome Z :=
  let year := if year d <? 70 then year d + 100 else year d in
  let year := year - 70 in
  let? time := seconds (year * 365 + Z.quot (year - 1) 4) in
  let? time := months_loop (Z.to_nat (mon d)) 1 (u32 time) in
  let? time := (if (2 <? mon d) && (Z.rem year 4 =? 0) then Ret (u32 (time + 86400)) else Ret time) in
  let? s := seconds (mday d - 1) in
  let time := u32 (time + s) in
  let time := u32 (time + hour d * 60 * 60) in
  let time := u32 (time + min d * 60) in
  Ret (u32 (time + sec d)).

Definition rtc_get_time (fuel : nat) : outcome Z :=
  let? d := read_date fuel 0 in time_of d.
End Rtc.

(** * The calendar *)

Definition leap (y : Z) : bool := (y mod 4 =? 0) && (negb (y mod 100 =? 0) || (y mod 400 =? 0)).
Definition days_in_year (y : Z) : Z := if leap y then 366 else 365.
Definition days_in_month (y m : Z) : Z := if (m =? 2) && leap y then 29 else nth (Z.to_nat (m - 1)) days_per_month 0.

(** Days from 1970-01-01 to [y]-[m]-[d]. *)
Definition days_since_epoch (y m d : Z) : Z :=
  foldr Z.add 0 (map days_in_year (seqZ 1970 (y - 1970))) +
  foldr Z.add 0 (map (days_in_month y) (seqZ 1 (m - 1))) + (d - 1).

Definition to_bcd (v : Z) : Z := 16 * (v / 10) + v mod 10.

(** A date and time of day that two digits of the year can tell. *)
Record valid_time (y m d h mi s : Z) : Prop := {
  vt_year : 1970 <= y < 2070;
  vt_month : 1 <= m <= 12;
  vt_day : 1 <= d <= days_in_month y m;
  vt_hour : 0 <= h < 24;
  vt_min : 0 <= mi < 60;
  vt_sec : 0 <= s < 60
}.

(** The registers at that time. *)
Definition registers (y m d h mi s : Z) (index : Z) : Z :=
  if index =? RTC_REG_SEC then to_bcd s else if index =? RTC_REG_MIN then to_bcd mi
  else if index =? RTC_REG_HOUR then to_bcd h else if index =? RTC_REG_MDAY then to_bcd d
  else if index =? RTC_REG_MON then to_bcd m else if index =? RTC_REG_YEAR then to_bcd (y mod 100) else 0.

(** The days by which [rtc_get_time] is ahead of the calendar: the whole current month is counted, and
    leap days are counted for the years two after the leap years. *)
Definition days_ahead (y m : Z) : Z :=
  nth (Z.to_nat (m - 1)) days_per_month 0 + Z.quot (y - 1971) 4 - (y - 1969) / 4
  + (if 2 <? m then (if (y - 1970) mod 4 =? 0 then 1 else 0) - (if y mod 4 =? 0 then 1 else 0) else 0).

(** * Lemmas *)

Lemma bcd_roundtrip v : 0 <= v < 100 -> bcd_to_bin (to_bcd v) = v.
Proof.
  assert (H : Forall (fun v => bcd_to_bin (to_bcd v) = v) (seqZ 0 100)) by by_compute.
  intros Hv. rewrite Forall_forall in H. apply H, elem_of_seqZ. lia.
Qed.

Definition date_of (y m d h mi s : Z) : rtc_date := mk_date s mi h d m (y mod 100).

Lemma month_length y m : 1 <= m <= 12 -> 28 <= days_in_month y m <= 31.
Proof.
  assert (H : Forall (fun m => 28 <= nth (Z.to_nat (m - 1)) days_per_month 0 <= 31) (seqZ 1 12)) by by_compute.
  intros Hm. rewrite Forall_forall in H. specialize (H m (proj2 (elem_of_seqZ 1 12 m) ltac:(lia))).
  unfold days_in_month. destruct ((m =? 2) && leap y); [lia|exact H].
Qed.

Lemma read_date_Ret y m d h mi s fuel n : valid_time y m d h mi s ->
  read_date (fun _ => registers y m d h mi s) (S fuel) n = Ret (date_of y m d h mi s).
Proof.
  intros [V1 V2 V3 V4 V5 V6]. pose proof (month_length y m V2). pose proof (Z.mod_pos_bound y 100 ltac:(lia)).
  cbn [read_date]. unfold cmos_read, registers. cbn [Z.eqb Pos.eqb RTC_REG_SEC RTC_REG_MIN RTC_REG_HOUR RTC_REG_MDAY RTC_REG_MON RTC_REG_YEAR].
  rewrite !bcd_roundtrip by lia. rewrite Z.eqb_refl. done.
Qed.

(** Seconds up to the start of the month, as the code counts them. *)
Definition month_start (year mon : Z) : outcome Z :=
  let y := (if year <? 70 then year + 100 else year) - 70 in
  let? time := seconds (y * 365 + Z.quot (y - 1) 4) in
  let? time := months_loop (Z.to_nat mon) 1 (u32 time) in
  if (2 <? mon) && (Z.rem y 4 =? 0) then Ret (u32 (time + 86400)) else Ret time.

Lemma time_of_month_start d : time_of d =
  let? time := month_start (year d) (mon d) in
  let? s := seconds (mday d - 1) in
  let time := u32 (time + s) in
  let time := u32 (time + hour d * 60 * 60) in
  let time := u32 (time + min d * 60) in
  Ret (u32 (time + sec d)).
Proof.
  unfold time_of, month_start. cbv zeta. destruct (seconds _) as [t0| | |]; [cbn [obind]|done..].
  destruct (months_loop _ _ _) as [t1| | |]; [cbn [obind]|done..]. done.
Qed.

Definition month_check (y m : Z) : bool :=
  match month_start (y mod 100) m with
  | Ret v => v =? 86400 * (days_since_epoch y m 1 + days_ahead y m)
  | _ => false
  end && (27 <=? days_ahead y m) && (days_ahead y m <=? 32)
  && (0 <=? days_since_epoch y m 1) && (days_since_epoch y m 1 <=? 25201).

Lemma month_start_early y m : 1970 <= y < 2039 -> 1 <= m <= 12 ->
  month_start (y mod 100) m = Ret (86400 * (days_since_epoch y m 1 + days_ahead y m)) /\
  27 <= days_ahead y m <= 32 /\ 0 <= days_since_epoch y m 1 <= 25201.
Proof.
  assert (H : forallb (fun y => forallb (month_check y) (seqZ 1 12)) (seqZ 1970 69) = true) by (vm_compute; reflexivity).
  intros Hy Hm. rewrite forallb_forall in H.
  specialize (H y (proj1 (list_elem_of_In _ _) (proj2 (elem_of_seqZ 1970 69 y) ltac:(lia)))).
  rewrite forallb_forall in H.
  specialize (H m (proj1 (list_elem_of_In _ _) (proj2 (elem_of_seqZ 1 12 m) ltac:(lia)))).
  unfold month_check in H. destruct (month_start (y mod 100) m) as [v| | |]; [|done..].
  rewrite !andb_true_iff in H. split; [f_equal; lia|lia].
Qed.

Lemma month_start_late y m : 2039 <= y < 2070 -> month_start (y mod 100) m = UB.
Proof.
  assert (H : forallb (fun y => let y := (if y mod 100 <? 70 then y mod 100 + 100 else y mod 100) - 70 in
      match seconds (y * 365 + Z.quot (y - 1) 4) with UB => true | _ => false end) (seqZ 2039 31) = true)
    by (vm_compute; reflexivity).
  intros Hy. rewrite forallb_forall in H.
  specialize (H y (proj1 (list_elem_of_In _ _) (proj2 (elem_of_seqZ 2039 31 y) ltac:(lia)))).
  unfold month_start. cbv zeta in *. by destruct (seconds _).
Qed.

(** * Properties *)

(** C39. At a valid date and time up to 2038, [rtc_get_time] reads the clock once and answers with the
    seconds since 1970 of a date [days_ahead] days, that is 27 to 32 days, after the current one; from
    2039 on the computation overflows. *)
Theorem rtc_get_time_ahead (y m d h mi s : Z) (fuel : nat) (V : valid_time y m d h mi s) :
  rtc_get_time (fun _ => registers y m d h mi s) (S fuel) =
    (if y <? 2039
     then Ret (86400 * (days_since_epoch y m d + days_ahead y m) + 3600 * h + 60 * mi + s)
     else UB) /\
  (y < 2039 -> 27 <= days_ahead y m <= 32).
Proof.
  unfold rtc_get_time. rewrite (read_date_Ret y m d h mi s fuel 0 V). cbn [obind].
  rewrite time_of_month_start. unfold date_of. cbn [year mon mday hour min sec].
  destruct V as [V1 V2 V3 V4 V5 V6]. pose proof (month_length y m V2).
  destruct (Z.ltb_spec y 2039) as [E|E]; [|split; [|lia]; by rewrite month_start_late by lia].
  destruct (month_start_early y m ltac:(lia) V2) as (-> & A & B). split; [|done]. cbn [obind].
  unfold seconds. rewrite !int_Ret by lia. cbn [obind]. rewrite !int_Ret by lia. cbn [obind].
  rewrite !int_Ret by lia. cbn [obind].
  assert (days_since_epoch y m d = days_since_epoch y m 1 + (d - 1)) as -> by (unfold days_since_epoch; lia).
  set (t := 86400 * (days_since_epoch y m 1 + days_ahead y m)). assert (0 <= t < 2 ^ 32 - 31 * 86400) as T by lia.
  rewrite (u32_small (t + _)) by lia. rewrite (u32_small (t + _ + _)) by lia.
  rewrite (u32_small (t + _ + _ + _)) by lia. rewrite u32_small by lia. f_equal. lia.
Qed.

Lemma rtc_get_time_ahead_witness :
  rtc_get_time (fun _ => registers 2024 2 29 12 30 15) 1 = Ret (86400 * (19782 + 28) + 45015) /\
  rtc_get_time (fun _ => registers 2040 1 1 0 0 0) 1 = UB.
Proof.
  split.
  - destruct (rtc_get_time_ahead 2024 2 29 12 30 15 0) as [E _]; [split; vm_compute; intuition discriminate|].
    exact E.
  - destruct (rtc_get_time_ahead 2040 1 1 0 0 0 0) as [E _]; [split; vm_compute; intuition discriminate|]. exact E.
Defined.
