(* ===== verification/Vga.v ===== *)
(** The text display (devices/vga.c): the framebuffer and the hardware cursor, refined from an endless
    sheet of paper of which the screen shows the last rows. *)
From S2P Require Import Prelude KStdlib.

(** * Definitions *)

Definition COL_CNT : Z := 80.
Definition ROW_CNT : Z := 25.
Definition GRAY_ON_BLACK : Z := 0x07.

(** A character and its attribute, and the rows of the screen. *)
Definition cell : Type := Z * Z.
Definition space_cell : cell := (32, GRAY_ON_BLACK).
Definition row : Type := list cell.

(** The driver and the display: the cursor, the framebuffer, whether [init] has run, the registers of the
    CRT controller with the index that selects one, and the beeps of the speaker. *)
Record vga := mk_vga {
  cx : Z;
  cy : Z;
  fb : list row;
  inited : bool;
  crtc_index : Z;
  crtc : gmap Z Z;
  beeps : nat
}.

Definition set_cursor (s : vga) (x y : Z) : vga := mk_vga x y (fb s) (inited s) (crtc_index s) (crtc s) (beeps s).
Definition set_fb (s : vga) (f : list row) : vga := mk_vga (cx s) (cy s) f (inited s) (crtc_index s) (crtc s) (beeps s).
Definition set_inited (s : vga) : vga := mk_vga (cx s) (cy s) (fb s) true (crtc_index s) (crtc s) (beeps s).
Definition set_crtc (s : vga) (i : Z) (r : gmap Z Z) : vga := mk_vga (cx s) (cy s) (fb s) (inited s) i r (beeps s).
Definition set_beeps (s : vga) (n : nat) : vga := mk_vga (cx s) (cy s) (fb s) (inited s) (crtc_index s) (crtc s) n.

Abbreviation VGA := (ST vga).

(** A word written to port 0x3d4 selects a register with its low byte and stores its high byte. *)
Definition outw_crtc (w : Z) : VGA unit :=
  modify (fun s => set_crtc s (u8 w) (<[u8 w := u8 (Z.shiftr (u16 w) 8)]> (crtc s))).
Definition outb_crtc (i : Z) : VGA unit := modify (fun s => set_crtc s (u8 i) (crtc s)).
Definition inb_crtc : VGA Z := gets (fun s => default 0 (crtc s !! crtc_index s)).

Definition move_cursor : VGA unit :=
  let! cp := gets (fun s => u16 (cx s + COL_CNT * cy s)) in
  let! _ := outw_crtc (Z.lor 0x0e (Z.land cp 0xff00)) in
  outw_crtc (u16 (Z.lor 0x0f (Z.shiftl cp 8))).

Definition find_cursor : VGA (Z * Z) :=
  let! _ := outb_crtc 0x0e in
  let! hi := inb_crtc in
  let cp := u16 (Z.shiftl hi 8) in
  let! _ := outb_crtc 0x0f in
  let! lo := inb_crtc in
  let cp := Z.lor cp lo in
  ret (cp mod COL_CNT, cp / COL_CNT).

(** Stores outside the framebuffer are undefined behaviour. *)
Definition store_row (y : Z) (r : row) : VGA unit :=
  let! s := gets (fun s => s) in
  if (0 <=? y) && (y <? Z.of_nat (length (fb s))) then modify (fun s => set_fb s (<[Z.to_nat y := r]> (fb s)))
  else fun _ => UB.
Definition store_cell (x y : Z) (c : cell) : VGA unit :=
  let! s := gets (fun s => s) in
  let! r := lift (deref (aget (fb s) y)) in
  if (0 <=? x) && (x <? Z.of_nat (length r)) then store_row y (<[Z.to_nat x := c]> r) else fun _ => UB.

Definition clear_row (y : Z) : VGA unit := store_row y (replicate (Z.to_nat COL_CNT) space_cell).

(** The loop of [cls], [n] rows from row [y] on. *)
Fixpoint cls_loop (n : nat) (y : Z) : VGA unit :=
  match n with
  | O => ret tt
  | S n => let! _ := clear_row y in cls_loop n (y + 1)
  end.
Definition cls : VGA unit :=
  let! _ := cls_loop (Z.to_nat ROW_CNT) 0 in
  let! _ := modify (fun s => set_cursor s 0 0) in
  move_cursor.

(** The [memmove] of all rows but the last, one row up. *)
Definition scroll (f : list row) : list row :=
  take (Z.to_nat ROW_CNT - 1) (drop 1 f) ++ drop (Z.to_nat ROW_CNT - 1) f.

Definition newline : VGA unit :=
  let! _ := modify (fun s => set_cursor s 0 (cy s + 1)) in
  let! s := gets (fun s => s) in
  if ROW_CNT <=? cy s then
    let! _ := modify (fun s => set_cursor s (cx s) (ROW_CNT - 1)) in
    let! _ := modify (fun s => set_fb s (scroll (fb s))) in
    clear_row (ROW_CNT - 1)
  else ret tt.

Definition init : VGA unit :=
  let! s := gets (fun s => s) in
  if negb (inited s) then
    let! (x, y) := find_cursor in
    modify (fun s => set_inited (set_cursor s x y))
  else ret tt.

Definition round_up (x step : Z) : Z := (x + step - 1) / step * step.

Definition vga_putc (c : Z) : VGA unit :=
  let! _ := init in
  let! _ :=
    (if c =? 10 then newline
     else if c =? 12 then cls
     else if c =? 8 then modify (fun s => if 0 <? cx s then set_cursor s (cx s - 1) (cy s) else s)
     else if c =? 13 then modify (fun s => set_cursor s 0 (cy s))
     else if c =? 9 then
       let! _ := modify (fun s => set_cursor s (round_up (cx s + 1) 8) (cy s)) in
       let! s := gets (fun s => s) in
       if COL_CNT <=? cx s then newline else ret tt
     else if c =? 7 then modify (fun s => set_beeps s (S (beeps s)))
     else
       let! s := gets (fun s => s) in
       let! _ := store_cell (cx s) (cy s) (u8 c, GRAY_ON_BLACK) in
       let! _ := modify (fun s => set_cursor s (cx s + 1) (cy s)) in
       let! s := gets (fun s => s) in
       if COL_CNT <=? cx s then newline else ret tt) in
  move_cursor.

Fixpoint vga_puts (l : list Z) : VGA unit :=
  match l with
  | [] => ret tt
  | c :: l => let! _ := vga_putc c in vga_puts l
  end.

(** * Paper *)

(** Endless paper: the rows above the current one, the current row and the column on it. *)
Record paper := mk_paper { above : list row; current : row; col : Z }.
Definition blank_row : row := replicate (Z.to_nat COL_CNT) space_cell.
Definition next_row (p : paper) : paper := mk_paper (above p ++ [current p]) blank_row 0.
Definition set_col (p : paper) (x : Z) : paper :=
  if COL_CNT <=? x then next_row p else mk_paper (above p) (current p) x.
Definition paper_putc (c : Z) (p : paper) : paper :=
  if c =? 10 then next_row p
  else if c =? 12 then mk_paper [] blank_row 0
  else if c =? 8 then mk_paper (above p) (current p) (Z.max 0 (col p - 1))
  else if c =? 13 then mk_paper (above p) (current p) 0
  else if c =? 9 then set_col p (8 * (col p / 8 + 1))
  else if c =? 7 then p
  else set_col (mk_paper (above p) (<[Z.to_nat (col p) := (u8 c, GRAY_ON_BLACK)]> (current p)) (col p)) (col p + 1).

(** The last 25 rows; the screen below them is blank. *)
Definition hidden (p : paper) : nat := length (above p) - 24.
Definition screen_of (p : paper) : list row :=
  drop (hidden p) (above p) ++ current p :: replicate (24 - length (above p)) blank_row.
Definition cursor_row (p : paper) : Z := Z.min 24 (Z.of_nat (length (above p))).

Record paper_ok (p : paper) : Prop := {
  pp_above : Forall (fun r => length r = 80%nat) (above p);
  pp_current : length (current p) = 80%nat;
  pp_col : 0 <= col p < 80
}.

(** The hardware cursor is at position [cp]. *)
Definition cursor_at (s : vga) (cp : Z) : Prop :=
  crtc s !! 0x0e = Some (cp / 256) /\ crtc s !! 0x0f = Some (cp mod 256).

(** The screen shows the end of the paper.  Until [init] has run, only the hardware knows the cursor. *)
Record shows (s : vga) (p : paper) : Prop := {
  sh_fb : fb s = screen_of p;
  sh_cursor : cursor_at s (col p + 80 * cursor_row p);
  sh_inited : inited s = true -> cx s = col p /\ cy s = cursor_row p
}.

(** * Lemmas *)

Lemma screen_rows p : length (screen_of p) = 25%nat.
Proof. unfold screen_of, hidden. rewrite length_app, length_drop. cbn [length]. rewrite length_replicate. lia. Qed.

Lemma screen_current p : aget (screen_of p) (cursor_row p) = Some (current p) /\
  forall r, <[Z.to_nat (cursor_row p) := r]> (screen_of p) = screen_of (mk_paper (above p) r (col p)).
Proof.
  unfold screen_of, cursor_row, hidden. cbn [above current].
  assert (Z.to_nat (Z.min 24 (Z.of_nat (length (above p)))) = length (drop (length (above p) - 24) (above p))) as E
    by (rewrite length_drop; lia).
  split; [|intros r; rewrite E].
  - unfold aget. replace (0 <=? Z.min 24 (Z.of_nat (length (above p)))) with true by lia. rewrite E. by rewrite list_lookup_middle.
  - rewrite insert_app_r_alt by lia. by rewrite Nat.sub_diag.
Qed.

Lemma screen_next p : (length (above p) < 24)%nat -> screen_of (next_row p) = screen_of p.
Proof.
  intros H. unfold screen_of, hidden, next_row. cbn [above current]. rewrite length_app. cbn [length].
  replace (length (above p) + 1 - 24)%nat with O by lia. replace (length (above p) - 24)%nat with O by lia.
  rewrite !drop_0, <- app_assoc. cbn [app]. do 2 f_equal.
  by replace (24 - length (above p))%nat with (S (24 - (length (above p) + 1)))%nat by lia.
Qed.

Lemma screen_scroll p : (24 <= length (above p))%nat ->
  <[24%nat := blank_row]> (scroll (screen_of p)) = screen_of (next_row p).
Proof.
  intros H. unfold screen_of, hidden, next_row, scroll. cbn [above current]. rewrite length_app. cbn [length].
  replace (24 - length (above p))%nat with O by lia. replace (24 - (length (above p) + 1))%nat with O by lia.
  cbn [replicate]. change (Z.to_nat ROW_CNT - 1)%nat with 24%nat.
  set (U := drop (length (above p) - 24) (above p)).
  assert (length U = 24%nat) as LU by (unfold U; rewrite length_drop; lia).
  rewrite drop_app_le by lia.
  assert (drop (length (above p) + 1 - 24) (above p ++ [current p]) = drop 1 U ++ [current p]) as ->.
  { rewrite drop_app_le by lia. unfold U. rewrite drop_drop. do 2 f_equal. lia. }
  rewrite (drop_app_ge U) by lia. rewrite LU. cbn [drop Nat.sub]. rewrite take_ge by (rewrite length_app, length_drop, LU; cbn; lia).
  rewrite insert_app_r_alt by (rewrite length_app, length_drop, LU; cbn; lia).
  rewrite length_app, length_drop, LU. cbn [length Nat.sub Nat.add]. reflexivity.
Qed.

Lemma store_row_Ret s y r : 0 <= y < Z.of_nat (length (fb s)) ->
  store_row y r s = Ret (tt, set_fb s (<[Z.to_nat y := r]> (fb s))).
Proof.
  intros H. unfold store_row, bind, gets. cbn [obind].
  by replace ((0 <=? y) && (y <? Z.of_nat (length (fb s)))) with true by lia.
Qed.

Lemma store_cell_Ret s x y c r : aget (fb s) y = Some r -> 0 <= x < Z.of_nat (length r) ->
  store_cell x y c s = Ret (tt, set_fb s (<[Z.to_nat y := <[Z.to_nat x := c]> r]> (fb s))).
Proof.
  intros H Hx. unfold store_cell, bind, gets, lift. cbn [obind]. rewrite H. cbn [deref obind].
  replace ((0 <=? x) && (x <? Z.of_nat (length r))) with true by lia. apply store_row_Ret.
  unfold aget in H. destruct (Z.leb_spec 0 y); [|done]. apply lookup_lt_Some in H. lia.
Qed.

(** The two words that [move_cursor] writes, and the position that [find_cursor] puts together. *)
Definition cursor_words (cp : Z) : bool :=
  let hi := Z.lor 0x0e (Z.land (u16 cp) 0xff00) in let lo := u16 (Z.lor 0x0f (Z.shiftl (u16 cp) 8)) in
  (u8 hi =? 0x0e) && (u8 (Z.shiftr (u16 hi) 8) =? cp / 256) && (u8 lo =? 0x0f) && (u8 (Z.shiftr (u16 lo) 8) =? cp mod 256)
  && (Z.lor (u16 (Z.shiftl (cp / 256) 8)) (cp mod 256) =? cp).
Lemma cursor_words_ok cp : 0 <= cp < 2000 -> cursor_words cp = true.
Proof.
  assert (H : forallb cursor_words (seqZ 0 2000) = true) by (vm_compute; reflexivity).
  intros Hc. rewrite forallb_forall in H. apply H, list_elem_of_In, elem_of_seqZ. lia.
Qed.

Lemma move_cursor_Ret s : 0 <= cx s + 80 * cy s < 2000 -> exists i r,
  move_cursor s = Ret (tt, set_crtc s i r) /\ cursor_at (set_crtc s i r) (cx s + 80 * cy s).
Proof.
  intros H. pose proof (cursor_words_ok _ H) as W. unfold cursor_words in W. cbv zeta in W.
  rewrite !andb_true_iff, !Z.eqb_eq in W. destruct W as [[[[W1 W2] W3] W4] _].
  unfold move_cursor, bind, gets. cbn [obind]. unfold outw_crtc, modify. cbn [obind]. unfold COL_CNT.
  rewrite W1, W2. cbn [crtc set_crtc]. rewrite W3, W4. eexists _, _. split; [reflexivity|].
  unfold cursor_at. cbn [crtc set_crtc]. rewrite lookup_insert_ne, !lookup_insert_eq by done. done.
Qed.

Lemma find_cursor_Ret s cp : cursor_at s cp -> 0 <= cp < 2000 ->
  find_cursor s = Ret ((cp mod 80, cp / 80), set_crtc s 0x0f (crtc s)).
Proof.
  intros [C1 C2] H. pose proof (cursor_words_ok _ H) as W. unfold cursor_words in W. cbv zeta in W.
  rewrite !andb_true_iff, !Z.eqb_eq in W. destruct W as [_ W].
  unfold find_cursor, bind, outb_crtc, inb_crtc, modify, gets. cbn [obind set_crtc crtc crtc_index].
  change (u8 0x0e) with 0x0e. change (u8 0x0f) with 0x0f. rewrite C1, C2. cbn [from_option id]. by rewrite W.
Qed.

Section Paper.
Context (p : paper) (OK : paper_ok p).

Lemma cursor_bounds : 0 <= cursor_row p <= 24 /\ 0 <= col p + 80 * cursor_row p < 2000.
Proof. destruct OK as [_ _ C]. unfold cursor_row. lia. Qed.

Lemma blank_length : length blank_row = 80%nat.
Proof. reflexivity. Qed.

Lemma next_row_ok : paper_ok (next_row p).
Proof.
  destruct OK as [A C B]. split; cbn [next_row above current col].
  - apply Forall_app_2; [done|]. by repeat constructor.
  - apply blank_length.
  - lia.
Qed.

Lemma set_col_ok x : 0 <= x <= 80 -> paper_ok (set_col p x).
Proof.
  intros H. unfold set_col, COL_CNT. destruct (Z.leb_spec 80 x); [apply next_row_ok|].
  destruct OK as [A C B]. split; cbn [above current col]; [done|done|lia].
Qed.

(** [s] has the screen and the cursor of [p] in the driver's variables; the column may be past the end. *)
Record displays (s : vga) (x : Z) : Prop := {
  di_fb : fb s = screen_of p;
  di_cx : cx s = x;
  di_cy : cy s = cursor_row p;
  di_inited : inited s = true
}.
End Paper.

(** What the helpers leave alone: everything but the cursor and the framebuffer. *)
Definition same_display (s s' : vga) : Prop :=
  inited s' = inited s /\ beeps s' = beeps s /\ crtc s' = crtc s /\ crtc_index s' = crtc_index s.

Lemma newline_Ret s p x : displays p s x -> exists s', newline s = Ret (tt, s') /\
  displays (next_row p) s' 0 /\ same_display s s'.
Proof.
  intros [D1 D2 D3 D4]. unfold newline, bind, modify, gets. cbn [obind set_cursor cy cx fb].
  unfold cursor_row in D3. rewrite D3. unfold ROW_CNT.
  destruct (Z.leb_spec 25 (Z.min 24 (Z.of_nat (length (above p))) + 1)) as [H|H].
  - unfold clear_row. rewrite store_row_Ret.
    + eexists. split; [reflexivity|]. split; [|done]. split; try done; cbn [set_fb set_cursor fb cx cy].
      * rewrite D1. change (Z.to_nat (25 - 1)) with 24%nat. apply screen_scroll. lia.
      * unfold cursor_row, next_row. cbn [above]. rewrite length_app. cbn [length]. lia.
    + cbn [set_fb set_cursor fb]. rewrite D1. unfold scroll. rewrite length_app, length_take, !length_drop, screen_rows.
      unfold ROW_CNT. lia.
  - unfold ret. eexists. split; [reflexivity|]. split; [|done]. split; try done; cbn [set_fb set_cursor fb cx cy].
    + rewrite screen_next by lia. done.
    + unfold cursor_row, next_row. cbn [above]. rewrite length_app. cbn [length]. lia.
Qed.

Lemma cls_loop_Ret n : forall s y, 0 <= y -> y + Z.of_nat n = 25 -> length (fb s) = 25%nat ->
  (forall i, 0 <= i < y -> fb s !! Z.to_nat i = Some blank_row) -> exists s',
  cls_loop n y s = Ret (tt, s') /\ fb s' = replicate 25 blank_row /\ same_display s s' /\ cx s' = cx s /\ cy s' = cy s.
Proof.
  induction n as [|n IH]; intros s y Hy Hn HL HB; cbn [cls_loop].
  - exists s. split; [done|]. split; [|done]. apply list_eq. intros i.
    destruct (decide (i < 25)%nat) as [Hi|Hi].
    + rewrite lookup_replicate_2 by done. specialize (HB (Z.of_nat i) ltac:(lia)). by rewrite Nat2Z.id in HB.
    + rewrite !lookup_ge_None_2; [done|by rewrite length_replicate; lia|lia].
  - unfold bind at 1, clear_row. rewrite store_row_Ret by lia. cbn [obind].
    destruct (IH (set_fb s (<[Z.to_nat y := replicate (Z.to_nat COL_CNT) space_cell]> (fb s))) (y + 1))
      as (s' & E & F & S & C); [lia|lia|by cbn; rewrite length_insert| |exists s'; done].
    intros i Hi. cbn [set_fb fb]. destruct (decide (i = y)) as [->|Ne].
    + by rewrite list_lookup_insert_eq by lia.
    + rewrite list_lookup_insert_ne by lia. apply HB. lia.
Qed.

Lemma init_Ret s p : paper_ok p -> shows s p -> exists s', init s = Ret (tt, s') /\ displays p s' (col p) /\
  beeps s' = beeps s.
Proof.
  intros OK [F C I]. destruct (cursor_bounds p OK) as [B1 B2]. pose proof (pp_col p OK) as B3.
  unfold init, bind at 1, gets. cbn [obind]. destruct (inited s) eqn:E; cbn [negb].
  - destruct (I eq_refl). exists s. by split.
  - unfold bind. rewrite (find_cursor_Ret _ _ C B2). cbn [obind]. unfold modify. eexists. split; [reflexivity|].
    split; [|done]. split; try done; cbn [set_inited set_cursor cx cy].
    + rewrite (Z.mul_comm 80), Z.mod_add by lia. apply Z.mod_small. lia.
    + rewrite (Z.mul_comm 80), Z.div_add by lia. rewrite Z.div_small; lia.
Qed.

Lemma cls_Ret s p x : displays p s x -> exists s', cls s = Ret (tt, s') /\
  displays (mk_paper [] blank_row 0) s' 0 /\ beeps s' = beeps s.
Proof.
  intros [D1 D2 D3 D4].
  destruct (cls_loop_Ret 25 s 0) as (s1 & E & F & (S1 & S2 & S3 & S4) & _); [lia|lia|by rewrite D1, screen_rows|lia|].
  unfold cls. change (Z.to_nat ROW_CNT) with 25%nat. unfold bind. rewrite E. cbn [obind]. unfold modify at 1. cbn [obind].
  destruct (move_cursor_Ret (set_cursor s1 0 0)) as (i & r & EM & _); [cbn; lia|]. rewrite EM.
  eexists. split; [reflexivity|]. split; [|done]. split; try done; cbn [set_crtc set_cursor fb inited]; congruence.
Qed.

(** The column after a character or a tab, with the new row it may start. *)
Lemma advance_Ret s p x y : displays p s x -> exists s',
  (let! _ := modify (fun s => set_cursor s y (cy s)) in
   let! s := gets (fun s => s) in if COL_CNT <=? cx s then newline else ret tt) s = Ret (tt, s') /\
  displays (set_col p y) s' (col (set_col p y)) /\ beeps s' = beeps s.
Proof.
  intros [D1 D2 D3 D4]. unfold bind, modify, gets. cbn [obind]. change (cx (set_cursor s y (cy s))) with y. unfold set_col.
  destruct (COL_CNT <=? y).
  - destruct (newline_Ret (set_cursor s y (cy s)) p y) as (s' & E & D & (_ & S & _)); [by split|].
    exists s'. by rewrite E.
  - unfold ret. eexists. split; [reflexivity|]. by split.
Qed.

Lemma putc_body s p c : paper_ok p -> displays p s (col p) -> exists s',
  (if c =? 10 then newline
   else if c =? 12 then cls
   else if c =? 8 then modify (fun s => if 0 <? cx s then set_cursor s (cx s - 1) (cy s) else s)
   else if c =? 13 then modify (fun s => set_cursor s 0 (cy s))
   else if c =? 9 then
     let! _ := modify (fun s => set_cursor s (round_up (cx s + 1) 8) (cy s)) in
     let! s := gets (fun s => s) in
     if COL_CNT <=? cx s then newline else ret tt
   else if c =? 7 then modify (fun s => set_beeps s (S (beeps s)))
   else
     let! s := gets (fun s => s) in
     let! _ := store_cell (cx s) (cy s) (u8 c, GRAY_ON_BLACK) in
     let! _ := modify (fun s => set_cursor s (cx s + 1) (cy s)) in
     let! s := gets (fun s => s) in
     if COL_CNT <=? cx s then newline else ret tt) s = Ret (tt, s') /\
  displays (paper_putc c p) s' (col (paper_putc c p)) /\ paper_ok (paper_putc c p) /\
  beeps s' = (if c =? 7 then S (beeps s) else beeps s).
Proof.
  intros OK D. pose proof (pp_col p OK) as B. pose proof (cursor_bounds p OK) as [B1 B2]. unfold paper_putc.
  destruct (Z.eqb_spec c 10) as [->|].
  { destruct (newline_Ret s p _ D) as (s' & E & D' & (_ & S & _)). exists s'. split_and!; [done|done|by apply next_row_ok|done]. }
  destruct (Z.eqb_spec c 12) as [->|].
  { destruct (cls_Ret s p _ D) as (s' & E & D' & S). exists s'. split_and!; [done|done| |done].
    split; [constructor|apply blank_length|cbn; lia]. }
  destruct D as [D1 D2 D3 D4].
  destruct (Z.eqb_spec c 8) as [->|].
  { eexists. split; [reflexivity|]. rewrite D2. destruct OK as [A C _]. split_and!; [| |by destruct (0 <? col p)].
    - destruct (Z.ltb_spec 0 (col p)); split; cbn [set_cursor fb cx cy inited col]; try done; lia.
    - split; cbn [above current col]; [done|done|lia]. }
  destruct (Z.eqb_spec c 13) as [->|].
  { eexists. split; [reflexivity|]. destruct OK as [A C _]. split_and!; [by split| |done]. split; cbn [above current col]; [done|done|lia]. }
  destruct (Z.eqb_spec c 9) as [->|].
  { assert (round_up (cx s + 1) 8 = 8 * (col p / 8 + 1)) as E.
    { unfold round_up. rewrite D2. clear. Z.to_euclidean_division_equations. lia. }
    destruct (advance_Ret s p (col p) (round_up (cx s + 1) 8)) as (s' & E' & D' & S); [by split|].
    exists s'. split; [exact E'|]. rewrite E in D'. split; [done|]. split; [|done]. apply set_col_ok; [done|].
    clear -B. Z.to_euclidean_division_equations. lia. }
  destruct (Z.eqb_spec c 7) as [->|].
  { eexists. split; [reflexivity|]. split_and!; [by split|done|done]. }
  unfold bind at 1, gets at 1. cbn [obind]. unfold bind at 1.
  destruct (screen_current p) as [SC SI]. rewrite D2, D3. rewrite (store_cell_Ret s (col p) (cursor_row p) _ (current p));
    [|by rewrite D1|rewrite (pp_current p OK); lia]. cbn [obind].
  set (p1 := mk_paper (above p) (<[Z.to_nat (col p) := (u8 c, GRAY_ON_BLACK)]> (current p)) (col p)).
  assert (paper_ok p1) as OK1.
  { destruct OK as [A C _]. split; unfold p1; cbn [above current col]; [done| |done]. rewrite <- C. apply length_insert. }
  match goal with |- context [set_fb s ?f] => set (s1 := set_fb s f) end.
  assert (displays p1 s1 (col p)) as D1'.
  { split; try done. cbn [s1 set_fb fb]. rewrite D1. apply SI. }
  destruct (advance_Ret s1 p1 (col p) (col p + 1) D1') as (s' & E & D' & S). exists s'.
  split; [|split; [exact D'|split; [apply set_col_ok; [done|lia]|exact S]]].
  rewrite <- E. unfold bind, modify, gets. cbn [obind]. by rewrite (di_cx _ _ _ D1').
Qed.

Lemma vga_putc_Ret s p c : paper_ok p -> shows s p -> exists s', vga_putc c s = Ret (tt, s') /\
  shows s' (paper_putc c p) /\ paper_ok (paper_putc c p) /\ beeps s' = (if c =? 7 then S (beeps s) else beeps s) /\
  inited s' = true.
Proof.
  intros OK SH. destruct (init_Ret s p OK SH) as (s1 & E1 & D1 & S1).
  destruct (putc_body s1 p c OK D1) as (s2 & E2 & [F X Y I] & OK2 & S2).
  destruct (cursor_bounds _ OK2) as [_ CB].
  destruct (move_cursor_Ret s2) as (i & r & E3 & C3); [by rewrite X, Y|].
  exists (set_crtc s2 i r). split.
  - unfold vga_putc, bind at 1. rewrite E1. cbn [obind]. unfold bind at 1. rewrite E2. cbn [obind]. exact E3.
  - split_and!; [|done|by rewrite <- S1|done]. split; [done|by rewrite X, Y in C3|done].
Qed.

Definition bells (l : list Z) : nat := length (filter (fun c => c = 7) l).

Lemma screen_width p : paper_ok p -> Forall (fun r => length r = 80%nat) (screen_of p).
Proof.
  intros [A C _]. unfold screen_of. apply Forall_app_2; [by apply Forall_drop|]. constructor; [done|].
  apply Forall_replicate, blank_length.
Qed.

Lemma vga_puts_Ret l : forall s p, paper_ok p -> shows s p -> (l = [] -> inited s = true) -> exists s', vga_puts l s = Ret (tt, s') /\
  shows s' (fold_left (fun p c => paper_putc c p) l p) /\ paper_ok (fold_left (fun p c => paper_putc c p) l p) /\
  beeps s' = (beeps s + bells l)%nat /\ inited s' = true.
Proof.
  induction l as [|c l IH]; intros s p OK SH HI; cbn [vga_puts fold_left].
  - exists s. rewrite Nat.add_0_r. specialize (HI eq_refl). done.
  - destruct (vga_putc_Ret s p c OK SH) as (s1 & E & SH1 & OK1 & B & I). unfold bind. rewrite E. cbn [obind].
    destruct (IH s1 _ OK1 SH1 (fun _ => I)) as (s2 & E2 & SH2 & OK2 & B2 & I2). exists s2. split_and!; try done.
    rewrite B2, B. unfold bells. rewrite filter_cons. destruct (Z.eqb_spec c 7), (decide (c = 7)); try done. cbn [length]. lia.
Qed.

(** * Properties *)

(** C31. Whatever is printed on a display that shows the end of a sheet of paper, control characters
    included, no store leaves the framebuffer, and the display shows the end of the paper on which the
    same was written: the last 25 rows, wrapped at 80 columns, with the cursor of the driver and of the
    hardware at the paper's; the first character finds the cursor where the hardware had it; and the
    speaker has beeped once for every bell. *)
Theorem vga_refines_paper (s : vga) (p : paper) (l : list Z) (OK : paper_ok p) (SH : shows s p) (N : l <> []) :
  let p' := fold_left (fun p c => paper_putc c p) l p in
  exists s', vga_puts l s = Ret (tt, s') /\
    fb s' = screen_of p' /\ length (fb s') = 25%nat /\ Forall (fun r => length r = 80%nat) (fb s') /\
    cx s' = col p' /\ 0 <= cx s' < COL_CNT /\ cy s' = cursor_row p' /\ 0 <= cy s' < ROW_CNT /\
    cursor_at s' (cx s' + COL_CNT * cy s') /\
    beeps s' = (beeps s + bells l)%nat.
Proof.
  intros p'. destruct (vga_puts_Ret l s p OK SH) as (s' & E & [F C I] & OK' & B & IN); [done|].
  fold p' in F, C, I, OK'. destruct (I IN) as [X Y]. pose proof (cursor_bounds p' OK') as [B1 B2].
  pose proof (pp_col _ OK') as B3. exists s'. rewrite X, Y, F.
  split_and!; try done; try (unfold COL_CNT, ROW_CNT; lia); [apply screen_rows|by apply screen_width].
Qed.

Definition ex_screen : vga := mk_vga 0 0 (replicate 25 blank_row) false 0 {[0x0e := 0; 0x0f := 0]} 0.

Lemma vga_refines_paper_witness : exists s', vga_puts [72; 105; 10; 7; 9; 33] ex_screen = Ret (tt, s') /\
  aget (fb s') 0 = Some ((72, 7) :: (105, 7) :: replicate 78 space_cell) /\ cx s' = 9 /\ cy s' = 1 /\ beeps s' = 1%nat.
Proof.
  destruct (vga_refines_paper ex_screen (mk_paper [] blank_row 0) [72; 105; 10; 7; 9; 33])
    as (s' & E & F & _ & _ & X & _ & Y & _ & _ & B).
  - split; [constructor|reflexivity|cbn; lia].
  - split; [reflexivity|split; reflexivity|discriminate].
  - discriminate.
  - exists s'. split; [exact E|]. rewrite F, X, Y, B. vm_compute. auto.
Defined.
