(* ===== verification/Tokenizer.v ===== *)
(** The shell's tokenizer (hw-shell/tokenizer.c): splitting a command line into words, with quotes and
    backslashes.  The words live on the C library's heap, so the model keeps the heap: what is
    allocated, and that [tokens_destroy] frees all of it. *)
From S2P Require Import Prelude Palloc KStdlib.

(** * Definitions *)

(** Addresses of blocks; the lengths are those of the arrays that follow them. *)
Record tokens := mk_tokens { tokens_length : Z; tokens_tokens : Z; buffers_length : Z; buffers : Z }.
Inductive block :=
  | Chars (l : list Z)
  | Pointers (l : list Z)
  | Tokens (t : tokens).

(** The heap, the number of allocations so far, and the static array [token]. *)
Record lib := mk_lib { blocks : gmap Z block; mallocs : nat; token : list Z }.
Definition set_blocks (s : lib) (b : gmap Z block) : lib := mk_lib b (mallocs s) (token s).
Definition set_token (s : lib) (t : list Z) : lib := mk_lib (blocks s) (mallocs s) t.
Abbreviation LIB := (ST lib).

Inductive mode := MODE_NORMAL | MODE_SQUOTE | MODE_DQUOTE.
#[global] Instance mode_eq_dec : EqDecision mode.
Proof. solve_decision. Defined.

Definition n_max : Z := 4096.
Definition new_address (s : lib) : Z := 16 * (Z.of_nat (mallocs s) + 1).

(** [fails k] says that the [k]-th allocation finds no memory. *)
Section Tokenizer.
Context (fails : nat -> bool).

(** The block that [malloc] returns, with contents of the right kind and size.  The C library is simplified: the
    addresses are never used again, and the contents are given here although they are indeterminate in C. *)
Definition malloc (b : block) : LIB Z := fun s =>
  if fails (mallocs s) then Ret (NULL, mk_lib (blocks s) (S (mallocs s)) (token s))
  else Ret (new_address s, mk_lib (<[new_address s := b]> (blocks s)) (S (mallocs s)) (token s)).
Definition free (p : Z) : LIB unit := fun s =>
  if p =? NULL then Ret (tt, s)
  else let? _ := deref (blocks s !! p) in Ret (tt, set_blocks s (delete p (blocks s))).

(** An array of [n] pointers with the elements of the one at [p], which is freed. *)
Definition realloc (p : Z) (n : nat) : LIB Z :=
  let! s := gets (fun s => s) in
  let! old := lift (if p =? NULL then Ret []
                    else match blocks s !! p with Some (Pointers l) => Ret l | _ => UB end) in
  let! q := malloc (Pointers (take n old ++ replicate (n - length old) NULL)) in
  if q =? NULL then ret NULL else let! _ := free p in ret q.

(** Accesses through a pointer. *)
Definition load_tokens (p : Z) : LIB tokens := fun s =>
  match blocks s !! p with Some (Tokens t) => Ret (t, s) | _ => UB end.
Definition store_tokens (p : Z) (t : tokens) : LIB unit := fun s =>
  match blocks s !! p with Some (Tokens _) => Ret (tt, set_blocks s (<[p := Tokens t]> (blocks s))) | _ => UB end.
Definition load_pointer (p i : Z) : LIB Z := fun s =>
  match blocks s !! p with Some (Pointers l) => let? q := aread l i in Ret (q, s) | _ => UB end.
Definition store_pointer (p i q : Z) : LIB unit := fun s =>
  match blocks s !! p with
  | Some (Pointers l) => let? l := aset l i q in Ret (tt, set_blocks s (<[p := Pointers l]> (blocks s)))
  | _ => UB
  end.
Definition store_chars (p : Z) (c : list Z) : LIB unit := fun s =>
  match blocks s !! p with
  | Some (Chars l) =>
      if (length c <=? length l)%nat
      then Ret (tt, set_blocks s (<[p := Chars (c ++ drop (length c) l)]> (blocks s))) else UB
  | _ => UB
  end.
(** [token[n] = c;] *)
Definition store_token (n c : Z) : LIB unit := fun s =>
  let? t := aset (token s) n c in Ret (tt, set_token s t).

(** [vector_push] on the words of [tokens]. *)
Definition vector_push (p elem : Z) : LIB Z :=
  let! t := load_tokens p in
  let size := tokens_length t in
  let! q := realloc (tokens_tokens t) (Z.to_nat (size + 1)) in
  let! _ := store_tokens p (mk_tokens size q (buffers_length t) (buffers t)) in
  let! _ := store_pointer q size elem in
  let! _ := store_tokens p (mk_tokens (size + 1) q (buffers_length t) (buffers t)) in
  ret elem.

(** The [n] characters that [strncpy] writes. *)
Fixpoint strncpy (source : list Z) (n : nat) : list Z :=
  match n, source with
  | S n', c :: source => if c =? 0 then replicate n 0 else c :: strncpy source n'
  | _, _ => replicate n 0
  end.

Definition copy_word (n : Z) : LIB Z :=
  let! _ := store_token n 0 in
  let! word := malloc (Chars (replicate (Z.to_nat (n + 1)) 0)) in
  let! source := gets token in
  let! _ := store_chars word (strncpy source (Z.to_nat (n + 1))) in
  ret word.

(** The body of the loop, on the rest of the line: what is left, the mode, and the length of [token]. *)
Definition put_token (n c : Z) : LIB Z := let! _ := store_token n c in ret (n + 1).
Definition escaped (rest : list Z) (m : mode) (n : Z) : LIB (list Z * mode * Z) :=
  match rest with
  | e :: rest => let! n := put_token n e in ret (rest, m, n)
  | [] => ret ([], m, n)
  end.
Definition push_word (n p : Z) : LIB unit :=
  let! word := copy_word n in let! _ := vector_push p word in ret tt.

Definition tokenize_step (p c : Z) (rest : list Z) (m : mode) (n : Z) : LIB (list Z * mode * Z) :=
  match m with
  | MODE_NORMAL =>
      if c =? 39 then ret (rest, MODE_SQUOTE, n)
      else if c =? 34 then ret (rest, MODE_DQUOTE, n)
      else if c =? 92 then escaped rest m n
      else if isspace c then
        if 0 <? n then let! _ := push_word n p in ret (rest, m, 0)
        else ret (rest, m, n)
      else let! n := put_token n c in ret (rest, m, n)
  | MODE_SQUOTE =>
      if c =? 39 then ret (rest, MODE_NORMAL, n)
      else if c =? 92 then escaped rest m n
      else let! n := put_token n c in ret (rest, m, n)
  | MODE_DQUOTE =>
      if c =? 34 then ret (rest, MODE_NORMAL, n)
      else if c =? 92 then escaped rest m n
      else let! n := put_token n c in ret (rest, m, n)
  end.

Fixpoint tokenize_loop (fuel : nat) (p : Z) (line : list Z) (m : mode) (n : Z) : LIB Z :=
  match line, fuel with
  | [], _ => ret n
  | _, O => fun _ => NoFuel
  | c :: rest, S fuel =>
      let! (r, n) := tokenize_step p c rest m n in
      let (line, m) := r : list Z * mode in
      if n_max <=? n + 1 then panic else tokenize_loop fuel p line m n
  end.

(** [None] is a null pointer. *)
Definition tokenize (line : option (list Z)) : LIB Z :=
  match line with
  | None => ret NULL
  | Some line =>
      let! p := malloc (Tokens (mk_tokens 0 NULL 0 NULL)) in
      let! _ := store_tokens p (mk_tokens 0 NULL 0 NULL) in
      let! n := tokenize_loop (length line) p line MODE_NORMAL 0 in
      let! _ := if 0 <? n then push_word n p else ret tt in
      ret p
  end.

Definition tokens_get_length (p : Z) : LIB Z :=
  if p =? NULL then ret 0 else let! t := load_tokens p in ret (tokens_length t).

Definition tokens_get_token (p n : Z) : LIB Z :=
  if p =? NULL then ret NULL
  else
    let! t := load_tokens p in
    if tokens_length t <=? n then ret NULL else load_pointer (tokens_tokens t) n.

(** The two loops of [tokens_destroy], from element [i] on. *)
Fixpoint destroy_loop (fuel : nat) (p : Z) (len ptr : tokens -> Z) (i : Z) : LIB unit :=
  match fuel with
  | O => fun _ => NoFuel
  | S fuel =>
      let! t := load_tokens p in
      if i <? len t then
        let! q := load_pointer (ptr t) i in
        let! _ := free q in
        destroy_loop fuel p len ptr (i + 1)
      else ret tt
  end.

Definition tokens_destroy (p : Z) : LIB unit :=
  if p =? NULL then ret tt
  else
    let! t := load_tokens p in
    let! _ := destroy_loop (S (Z.to_nat (tokens_length t))) p tokens_length tokens_tokens 0 in
    let! _ := destroy_loop (S (Z.to_nat (buffers_length t))) p buffers_length buffers 0 in
    let! t := load_tokens p in
    let! _ := if negb (tokens_tokens t =? NULL) then free (tokens_tokens t) else ret tt in
    free p.
End Tokenizer.

(** * The words of a line *)

(** A quote that opens or closes in mode [m]. *)
Definition toggles (m : mode) (c : Z) : option mode :=
  match m with
  | MODE_NORMAL => if c =? 39 then Some MODE_SQUOTE else if c =? 34 then Some MODE_DQUOTE else None
  | MODE_SQUOTE => if c =? 39 then Some MODE_NORMAL else None
  | MODE_DQUOTE => if c =? 34 then Some MODE_NORMAL else None
  end.

(** The characters that belong to words, and [None] for the spaces that separate them. *)
Fixpoint lex (m : mode) (line : list Z) : list (option Z) :=
  match line with
  | [] => []
  | c :: rest =>
      if c =? 92 then match rest with e :: rest => Some e :: lex m rest | [] => [] end
      else
        match toggles m c with
        | Some m => lex m rest
        | None => (if bool_decide (m = MODE_NORMAL) && isspace c then None else Some c) :: lex m rest
        end
  end.

Definition nonempty (w : list Z) : list (list Z) := match w with [] => [] | _ => [w] end.
Fixpoint split_words (cur : list Z) (l : list (option Z)) : list (list Z) :=
  match l with
  | [] => nonempty cur
  | None :: l => nonempty cur ++ split_words [] l
  | Some c :: l => split_words (cur ++ [c]) l
  end.
Definition words (line : list Z) : list (list Z) := split_words [] (lex MODE_NORMAL line).
Definition fits (ws : list (list Z)) : bool := forallb (fun w => length w <=? 4094)%nat ws.

Example words_example : words (chars "cp 'my file' a\ b  it\'s") =
  [chars "cp"; chars "my file"; chars "a b"; chars "it's"].
Proof. reflexivity. Qed.

(** * Lemmas *)

(** Everything on the heap: [base] and the words [ws] of the object [p]. *)
Record owned (s : lib) (base : gmap Z block) (p : Z) (ws : list (list Z)) (arr : Z) (addrs : list Z) : Prop := {
  ow_tokens : blocks s !! p = Some (Tokens (mk_tokens (Z.of_nat (length ws)) arr 0 NULL));
  ow_array : if bool_decide (ws = []) then arr = NULL /\ addrs = [] else blocks s !! arr = Some (Pointers addrs);
  ow_words : Forall2 (fun a w => blocks s !! a = Some (Chars (w ++ [0]))) addrs ws;
  ow_nodup : NoDup (p :: arr :: addrs);
  ow_base : forall a, a ∈ p :: arr :: addrs -> base !! a = None;
  ow_others : forall a, a ∉ p :: arr :: addrs -> blocks s !! a = base !! a;
  ow_positive : Forall (fun a => 0 < a) (p :: addrs) /\ (ws <> [] -> 0 < arr);
  ow_fresh : forall a, a <= 0 \/ new_address s <= a -> blocks s !! a = None /\ base !! a = None
}.

(** The static array holds [cur] at its start. *)
Record current (s : lib) (cur : list Z) : Prop := {
  cu_length : length (token s) = 4096%nat;
  cu_token : take (length cur) (token s) = cur
}.

Lemma aset_at {A} (l : list A) i x : 0 <= i < Z.of_nat (length l) -> aset l i x = Ret (<[Z.to_nat i := x]> l).
Proof. intros H. by apply aset_Ret. Qed.

Lemma store_token_Ret s cur c : current s cur -> (length cur < 4096)%nat ->
  exists t, store_token (Z.of_nat (length cur)) c s = Ret (tt, set_token s t) /\ length t = 4096%nat /\
    take (S (length cur)) t = cur ++ [c].
Proof.
  intros [L T] H. unfold store_token. rewrite aset_at by lia. cbn [obind]. rewrite Nat2Z.id. eexists. split; [reflexivity|].
  split; [by rewrite length_insert|].
  rewrite (take_S_r _ _ c) by (apply list_lookup_insert_eq; lia). f_equal. by rewrite take_insert_ge by lia.
Qed.

Lemma put_token_Ret s cur c : current s cur -> (length cur < 4096)%nat ->
  exists t, put_token (Z.of_nat (length cur)) c s = Ret (Z.of_nat (length (cur ++ [c])), set_token s t) /\
    current (set_token s t) (cur ++ [c]).
Proof.
  intros C H. destruct (store_token_Ret s cur c C H) as (t & E & L & T). exists t. unfold put_token, bind. rewrite E. cbn [obind].
  rewrite length_app. cbn [length]. split; [unfold ret; do 2 f_equal; lia|]. split; [exact L|].
  rewrite length_app. cbn [length set_token token]. by rewrite Nat.add_1_r.
Qed.

Lemma owned_token s base p ws arr addrs t : owned s base p ws arr addrs -> owned (set_token s t) base p ws arr addrs.
Proof. by intros [? ? ? ? ? ? ? ?]; split. Qed.

Lemma strncpy_word cur rest : Forall (fun c => 0 < c < 256) cur -> strncpy (cur ++ 0 :: rest) (S (length cur)) = cur ++ [0].
Proof.
  induction 1 as [|c cur Hc _ IH]; cbn [app strncpy length]; [done|].
  replace (c =? 0) with false by lia. f_equal. exact IH.
Qed.

Lemma Forall2_and_in {A B} (P : A -> B -> Prop) l k : Forall2 P l k -> Forall2 (fun a b => a ∈ l /\ P a b) l k.
Proof.
  induction 1 as [|a b l k H _ IH]; constructor; [split; [by left|done]|].
  eapply Forall2_impl; [exact IH|]. intros x y [? ?]. split; [by right|done].
Qed.

Section Allocated.
Context (fails : nat -> bool) (NF : forall k, fails k = false).

Lemma copy_word_Ret s cur : current s cur -> (length cur < 4096)%nat -> Forall (fun c => 0 < c < 256) cur ->
  (forall a, new_address s <= a -> blocks s !! a = None) ->
  exists t, copy_word fails (Z.of_nat (length cur)) s =
    Ret (new_address s, mk_lib (<[new_address s := Chars (cur ++ [0])]> (blocks s)) (S (mallocs s)) t) /\ length t = 4096%nat.
Proof.
  intros C H F Fr. destruct (store_token_Ret s cur 0 C H) as (t & E & L & T). exists t. split; [|exact L].
  unfold copy_word. unfold bind at 1. rewrite E. cbn [obind]. unfold bind at 1, malloc. rewrite NF. cbn [obind].
  unfold bind at 1, gets. cbn [obind]. unfold bind, store_chars. cbn [blocks token set_token mallocs].
  change (new_address (set_token s t)) with (new_address s). rewrite lookup_insert_eq, length_replicate.
  replace (Z.to_nat (Z.of_nat (length cur) + 1)) with (S (length cur)) by lia.
  assert (t = cur ++ 0 :: drop (S (length cur)) t) as Et.
  { rewrite <- (take_drop (S (length cur)) t) at 1. rewrite T, <- app_assoc. done. }
  rewrite Et, strncpy_word by done. rewrite <- Et, length_app. cbn [length]. rewrite Nat.add_1_r, Nat.leb_refl. cbn [obind].
  rewrite drop_replicate, Nat.sub_diag, app_nil_r. unfold ret, set_blocks. cbn [blocks mallocs token].
  by rewrite insert_insert_eq.
Qed.
Lemma realloc_Ret s arr addrs : blocks s !! NULL = None ->
  (arr = NULL /\ addrs = [] \/ 0 < arr < new_address s /\ blocks s !! arr = Some (Pointers addrs)) ->
  realloc fails arr (S (length addrs)) s = Ret (new_address s,
    mk_lib (delete arr (<[new_address s := Pointers (addrs ++ [NULL])]> (blocks s))) (S (mallocs s)) (token s)).
Proof.
  intros Hn H. assert (new_address s <> 0) by (unfold new_address; lia).
  assert ((if arr =? NULL then Ret []
           else match blocks s !! arr with Some (Pointers l) => Ret l | _ => UB end) = Ret addrs) as E.
  { destruct H as [[-> ->]|[H ->]]; [done|]. by replace (arr =? NULL) with false by (unfold NULL; lia). }
  unfold realloc, bind at 1, gets. cbn [obind]. unfold bind at 1, lift. rewrite E. cbn [obind].
  unfold bind at 1, malloc. rewrite NF. cbn [obind]. rewrite (proj2 (Z.eqb_neq (new_address s) NULL)) by (unfold NULL; lia).
  rewrite take_ge, Nat.sub_succ_l, Nat.sub_diag by lia. cbn [replicate]. unfold bind, free. cbn [blocks].
  destruct H as [[-> ->]|[H HL]].
  - cbn [Z.eqb NULL obind app]. unfold ret. rewrite delete_id; [done|]. rewrite lookup_insert_ne by (unfold NULL; lia). exact Hn.
  - replace (arr =? NULL) with false by (unfold NULL; lia). rewrite lookup_insert_ne, HL by lia. done.
Qed.

Lemma owned_array s base p ws arr addrs : owned s base p ws arr addrs -> length addrs = length ws /\
  (arr = NULL /\ addrs = [] \/ 0 < arr < new_address s /\ blocks s !! arr = Some (Pointers addrs)).
Proof.
  intros [O1 O2 O3 O4 O5 O6 [O7 O8] O9]. split; [by eapply Forall2_length|]. case_bool_decide as D; [by left|]. right.
  split; [|done]. split; [auto|]. destruct (Z.ltb_spec arr (new_address s)); [done|].
  destruct (O9 arr) as [X _]; [by right|congruence].
Qed.

(** The keys of the object are below the next address. *)
Lemma owned_below s base p ws arr addrs a : owned s base p ws arr addrs -> a ∈ p :: addrs -> 0 < a < new_address s.
Proof.
  intros [O1 O2 O3 O4 O5 O6 [O7 O8] O9] Ha. rewrite Forall_forall in O7. split; [by apply O7|].
  destruct (Z.ltb_spec a (new_address s)) as [|H]; [done|]. destruct (O9 a (or_intror H)) as [X _].
  apply elem_of_cons in Ha as [->|Ha]; [congruence|]. apply list_elem_of_lookup in Ha as [k Hk].
  destruct (Forall2_lookup_l _ _ _ _ _ O3 Hk) as (w & _ & E). congruence.
Qed.

Lemma vector_push_Ret s p (ws : list (list Z)) arr addrs w b : blocks s !! NULL = None -> 0 < p < new_address s -> p <> arr ->
  blocks s !! p = Some (Tokens (mk_tokens (Z.of_nat (length ws)) arr 0 NULL)) -> length addrs = length ws ->
  (arr = NULL /\ addrs = [] \/ 0 < arr < new_address s /\ blocks s !! arr = Some (Pointers addrs)) ->
  blocks s = b -> exists s', vector_push fails p w s = Ret (w, s') /\
    blocks s' = <[p := Tokens (mk_tokens (Z.of_nat (length ws) + 1) (new_address s) 0 NULL)]>
      (<[new_address s := Pointers (addrs ++ [w])]> (delete arr b)) /\
    mallocs s' = S (mallocs s) /\ token s' = token s.
Proof.
  intros Hn Hp Hpa HT HL HA <-. unfold vector_push, bind at 1, load_tokens. rewrite HT. cbn [obind tokens_length tokens_tokens].
  unfold bind at 1. replace (Z.to_nat (Z.of_nat (length ws) + 1)) with (S (length addrs)) by lia.
  rewrite (realloc_Ret s arr addrs Hn HA). cbn [obind buffers_length buffers].
  assert (arr <> new_address s) as Na by (destruct HA as [[-> _]|[? _]]; unfold new_address, NULL in *; lia).
  set (q := new_address s) in *. unfold bind at 1, store_tokens. cbn [blocks].
  rewrite lookup_delete_ne, lookup_insert_ne, HT by lia. cbn [obind]. unfold bind at 1, store_pointer. cbn [blocks set_blocks].
  rewrite lookup_insert_ne, lookup_delete_ne, lookup_insert_eq by lia.
  rewrite aset_at by (rewrite length_app; cbn [length]; lia). cbn [obind]. unfold bind, store_tokens. cbn [blocks set_blocks].
  rewrite lookup_insert_ne, lookup_insert_eq by lia. cbn [obind]. eexists. split; [reflexivity|]. cbn [blocks set_blocks mallocs token].
  split; [|done]. rewrite <- HL, Nat2Z.id, insert_app_r_alt, Nat.sub_diag by lia. cbn.
  apply map_eq. intros a. rewrite HL.
  destruct (decide (a = p)) as [->|N1]; [by rewrite !lookup_insert_eq|]. rewrite !(lookup_insert_ne _ p) by done.
  destruct (decide (a = q)) as [->|N2]; [by rewrite !lookup_insert_eq|]. rewrite !(lookup_insert_ne _ q) by done.
  rewrite lookup_insert_ne by done. destruct (decide (a = arr)) as [->|N3]; [by rewrite !lookup_delete_eq|].
  by rewrite !lookup_delete_ne, lookup_insert_ne by done.
Qed.

Lemma push_word_Ret s base p ws arr addrs cur : owned s base p ws arr addrs -> current s cur ->
  (length cur < 4096)%nat -> Forall (fun c => 0 < c < 256) cur -> exists s' arr' addrs',
  push_word fails (Z.of_nat (length cur)) p s = Ret (tt, s') /\ owned s' base p (ws ++ [cur]) arr' addrs' /\
  length (token s') = 4096%nat.
Proof.
  intros O C H F. pose proof (owned_array _ _ _ _ _ _ O) as [AL AA].
  pose proof (fun a => owned_below _ _ _ _ _ _ a O) as BL.
  destruct O as [O1 O2 O3 O4 O5 O6 [O7 O8] O9]. destruct (copy_word_Ret s cur C H F) as (t & E & L); [intros a Ha; by apply O9; right|].
  set (w := new_address s) in *. set (s1 := mk_lib (<[w := Chars (cur ++ [0])]> (blocks s)) (S (mallocs s)) t).
  assert (0 < w) by (unfold w, new_address; lia). assert (new_address s1 = w + 16) as W1 by (unfold w, new_address, s1; cbn [mallocs]; lia).
  assert (0 < p < w) as Pp by (apply BL; by left).
  assert (arr <> w) as Naw by (destruct AA as [[-> _]|[? _]]; unfold NULL; lia).
  assert (p <> arr) as Npa by (apply NoDup_cons in O4 as [O4 _]; set_solver).
  destruct (vector_push_Ret s1 p ws arr addrs w (blocks s1)) as (s' & EP & B & M & T); try done.
  { cbn [s1 blocks]. rewrite lookup_insert_ne by (unfold NULL; lia). apply O9. left. unfold NULL. lia. }
  { lia. }
  { cbn [s1 blocks]. rewrite lookup_insert_ne by lia. exact O1. }
  { destruct AA as [?|[? ?]]; [by left|right]. split; [lia|]. cbn [s1 blocks]. by rewrite lookup_insert_ne by lia. }
  exists s', (w + 16), (addrs ++ [w]). split.
  { unfold push_word, bind. rewrite E. cbn [obind]. fold s1. by rewrite EP. }
  split; [|by rewrite T]. rewrite W1 in B. cbn [s1 blocks] in B.
  assert (forall a, a ∈ addrs -> 0 < a < w /\ a <> p /\ a <> arr) as HAD.
  { intros a Ha. split; [apply BL; by right|]. apply NoDup_cons in O4 as [N1 [N2 _]%NoDup_cons]. set_solver. }
  assert (new_address s' = w + 32) as W2 by (unfold w, new_address; rewrite M; cbn [s1 mallocs]; lia).
  split.
  - rewrite B, lookup_insert_eq, length_app. cbn [length]. repeat f_equal. lia.
  - rewrite bool_decide_false by (by destruct ws). by rewrite B, lookup_insert_ne, lookup_insert_eq by lia.
  - apply Forall2_app.
    + eapply Forall2_impl; [apply (Forall2_and_in _ _ _ O3)|]. cbn. intros a x [Ha E'].
      specialize (HAD a Ha). rewrite B, !lookup_insert_ne, lookup_delete_ne, lookup_insert_ne by lia. exact E'.
    + constructor; [|constructor]. rewrite B, !lookup_insert_ne, lookup_delete_ne, lookup_insert_eq by lia. done.
  - apply NoDup_cons. split.
    + rewrite elem_of_cons, elem_of_app, list_elem_of_singleton. intros [?|[Ha|?]]; [lia| |lia]. destruct (HAD p Ha) as (_ & N & _). by apply N.
    + apply NoDup_cons. split.
      * rewrite elem_of_app, list_elem_of_singleton. intros [Ha|?]; [|lia]. apply HAD in Ha. lia.
      * apply NoDup_app. split_and!; [by apply NoDup_cons in O4 as [_ [_ ?]%NoDup_cons]| |apply NoDup_singleton].
        intros a Ha ->%list_elem_of_singleton. apply HAD in Ha. lia.
  - intros a. rewrite !elem_of_cons, elem_of_app, list_elem_of_singleton.
    intros [->|[->|[Ha| ->]]]; [apply O5; by left|apply O9; right; lia|apply O5; set_solver|apply O9; right; lia].
  - intros a Ha. rewrite !not_elem_of_cons, not_elem_of_app, not_elem_of_cons in Ha. destruct Ha as (N1 & N2 & N3 & N4 & _).
    rewrite B, !lookup_insert_ne by lia. destruct (decide (a = arr)) as [->|Nar].
    + rewrite lookup_delete_eq. symmetry. apply O5. set_solver.
    + rewrite lookup_delete_ne, lookup_insert_ne by lia. apply O6. set_solver.
  - split; [|lia]. inversion O7. constructor; [lia|]. apply Forall_app_2; [done|]. constructor; [lia|constructor].
  - intros a Ha. rewrite W2 in Ha. destruct (O9 a) as [X1 X2]; [lia|]. split; [|done].
    rewrite B, !lookup_insert_ne by lia. destruct (decide (a = arr)) as [->|Nar]; [by rewrite lookup_delete_eq|].
    rewrite lookup_delete_ne, lookup_insert_ne by lia. exact X1.
Qed.
End Allocated.

Abbreviation is_text := (Forall (fun c => 0 < c < 256)).

(** The object [p] holds [ws] and the static array [cur]. *)
Definition lexed (s : lib) (base : gmap Z block) (p : Z) (ws : list (list Z)) (cur : list Z) : Prop :=
  (exists arr addrs, owned s base p ws arr addrs) /\ current s cur /\ is_text cur.

(** One step of the loop took [ws] out of the line. *)
Definition stepped (fails : nat -> bool) (base : gmap Z block) (p c : Z) (rest : list Z) (m : mode) (s : lib)
    (ws : list (list Z)) (cur : list Z) : Prop :=
  exists rest' m' cur' ws' s', tokenize_step fails p c rest m (Z.of_nat (length cur)) s = Ret ((rest', m', Z.of_nat (length cur')), s') /\
    lexed s' base p (ws ++ ws') cur' /\ is_text rest' /\ (length rest' <= length rest)%nat /\ (length cur' <= 4095)%nat /\
    split_words cur (lex m (c :: rest)) = ws' ++ split_words cur' (lex m' rest') /\ fits ws' = true.

Section Loop.
Context (fails : nat -> bool) (NF : forall k, fails k = false).

Lemma lexed_put s base p ws cur c : lexed s base p ws cur -> (length cur <= 4094)%nat -> 0 < c < 256 ->
  exists s', put_token (Z.of_nat (length cur)) c s = Ret (Z.of_nat (length (cur ++ [c])), s') /\
    lexed s' base p ws (cur ++ [c]).
Proof.
  intros ((arr & addrs & O) & C & T) H Hc. destruct (put_token_Ret s cur c C ltac:(lia)) as (t & E & C').
  eexists. split; [exact E|]. split; [|split; [done|]].
  - exists arr, addrs. by apply owned_token.
  - apply Forall_app_2; [done|]. by constructor.
Qed.

Lemma step_skip base p c rest m m' s ws cur : lexed s base p ws cur -> (length cur <= 4094)%nat -> is_text rest ->
  tokenize_step fails p c rest m (Z.of_nat (length cur)) = ret (rest, m', Z.of_nat (length cur)) ->
  lex m (c :: rest) = lex m' rest -> stepped fails base p c rest m s ws cur.
Proof.
  intros L H R E X. exists rest, m', cur, [], s. rewrite E, X, app_nil_r. unfold ret. split_and!; (done || lia).
Qed.

Lemma step_put base p c rest m e rest' s ws cur : lexed s base p ws cur -> (length cur <= 4094)%nat -> is_text rest' ->
  0 < e < 256 -> (length rest' <= length rest)%nat ->
  tokenize_step fails p c rest m (Z.of_nat (length cur)) =
    (let! n := put_token (Z.of_nat (length cur)) e in ret (rest', m, n)) ->
  lex m (c :: rest) = Some e :: lex m rest' -> stepped fails base p c rest m s ws cur.
Proof.
  intros L H R He HL E X. destruct (lexed_put s base p ws cur e L H He) as (s' & EP & L').
  exists rest', m, (cur ++ [e]), [], s'. rewrite E, X, app_nil_r. unfold bind. rewrite EP. cbn [obind].
  rewrite length_app. cbn [length]. split_and!; (done || lia).
Qed.

Lemma step_escaped base p rest m s ws cur : lexed s base p ws cur -> (length cur <= 4094)%nat -> is_text rest ->
  tokenize_step fails p 92 rest m (Z.of_nat (length cur)) = escaped rest m (Z.of_nat (length cur)) ->
  stepped fails base p 92 rest m s ws cur.
Proof.
  intros L H R E. destruct rest as [|e rest].
  - by apply (step_skip _ _ _ _ _ m).
  - inversion R. apply (step_put _ _ _ _ _ e rest); try done. cbn [length]. lia.
Qed.

Lemma step_space base p c rest s ws cur : lexed s base p ws cur -> (length cur <= 4094)%nat -> is_text rest ->
  c <> 39 -> c <> 34 -> c <> 92 -> isspace c = true -> stepped fails base p c rest MODE_NORMAL s ws cur.
Proof.
  intros L H R N1 N2 N3 S. assert (lex MODE_NORMAL (c :: rest) = None :: lex MODE_NORMAL rest) as X.
  { cbn [lex toggles]. rewrite !(proj2 (Z.eqb_neq _ _)) by done. by rewrite S. }
  assert (forall n, tokenize_step fails p c rest MODE_NORMAL n =
    if 0 <? n then let! _ := push_word fails n p in ret (rest, MODE_NORMAL, 0) else ret (rest, MODE_NORMAL, n)) as E.
  { intros n. unfold tokenize_step. by rewrite !(proj2 (Z.eqb_neq _ _)), S by done. }
  destruct cur as [|c0 cur].
  - exists rest, MODE_NORMAL, [], [], s. rewrite E, X, app_nil_r. cbn. split_and!; (done || lia).
  - destruct L as ((arr & addrs & O) & C & T).
    destruct (push_word_Ret fails NF s base p ws arr addrs (c0 :: cur) O C ltac:(lia) T) as (s' & arr' & addrs' & EP & O' & LT).
    exists rest, MODE_NORMAL, [], [c0 :: cur], s'. rewrite E, X. replace (0 <? Z.of_nat (length (c0 :: cur))) with true by (cbn [length]; lia).
    unfold bind. rewrite EP. cbn [obind split_words nonempty]. split_and!; try (done || lia).
    + split; [by exists arr', addrs'|]. split; [|constructor]. by split.
    + cbn [length]. lia.
    + unfold fits. cbn [forallb]. rewrite andb_true_r. by apply Nat.leb_le.
Qed.

Lemma step_Ret base p c rest m s ws cur : lexed s base p ws cur -> (length cur <= 4094)%nat -> is_text (c :: rest) ->
  stepped fails base p c rest m s ws cur.
Proof.
  intros L H [Hc R]%Forall_cons. destruct (Z.eq_dec c 92) as [->|N3].
  { apply step_escaped; try done. by destruct m. }
  pose proof (proj2 (Z.eqb_neq _ _) N3) as E3. destruct (toggles m c) as [m'|] eqn:T.
  { apply (step_skip _ _ _ _ _ m'); try done.
    - unfold tokenize_step, toggles in *. rewrite E3. destruct m;
        repeat match goal with H : context [c =? ?k] |- _ => destruct (Z.eqb_spec c k); try done end; by injection T as <-.
    - cbn [lex]. by rewrite E3, T. }
  destruct (bool_decide (m = MODE_NORMAL) && isspace c) eqn:S.
  - apply andb_true_iff in S as [->%bool_decide_eq_true S]. unfold toggles in T.
    destruct (Z.eqb_spec c 39); [done|]. destruct (Z.eqb_spec c 34); [done|]. by apply step_space.
  - apply (step_put _ _ _ _ _ c rest); try done.
    + unfold tokenize_step, toggles in *. rewrite E3. destruct m; cbn [andb] in S;
        repeat match goal with H : context [c =? ?k] |- _ => destruct (Z.eqb_spec c k); try done end.
      by rewrite bool_decide_true in S by done; cbn [andb] in S; rewrite S.
    + cbn [lex]. by rewrite E3, T, S.
Qed.

Lemma split_long cur l : (4095 <= length cur)%nat -> fits (split_words cur l) = false.
Proof.
  revert cur. induction l as [|[c|] l IH]; intros cur H; cbn [split_words].
  - destruct cur; [cbn in H; lia|]. unfold fits. cbn [nonempty forallb]. apply andb_false_iff. left. apply Nat.leb_gt. exact H.
  - apply IH. rewrite length_app. lia.
  - destruct cur; [cbn in H; lia|]. unfold fits. cbn [nonempty app forallb]. apply andb_false_iff. left. apply Nat.leb_gt. exact H.
Qed.

Lemma fits_app l k : fits (l ++ k) = fits l && fits k.
Proof. apply forallb_app. Qed.

(** The loop, with the last word pushed after it. *)
Definition finish (p : Z) (loop : LIB Z) : LIB unit :=
  let! n := loop in if 0 <? n then push_word fails n p else ret tt.

Lemma loop_Ret fuel : forall base p line m s ws cur, (length line <= fuel)%nat -> is_text line ->
  lexed s base p ws cur -> (length cur <= 4094)%nat ->
  let r := finish p (tokenize_loop fails fuel p line m (Z.of_nat (length cur))) s in
  if fits (split_words cur (lex m line)) then
    exists s', r = Ret (tt, s') /\ exists arr addrs, owned s' base p (ws ++ split_words cur (lex m line)) arr addrs
  else r = Panic.
Proof.
  induction fuel as [|fuel IH]; intros base p line m s ws cur HF R L H r; (destruct line as [|c rest]; [|try (cbn in HF; lia)]).
  1,2: subst r; unfold finish; cbn [tokenize_loop lex split_words]; unfold bind, ret; cbn [obind];
    destruct L as ((arr & addrs & O) & C & T); destruct cur as [|c0 cur];
    [exists s; split; [done|]; rewrite app_nil_r; by exists arr, addrs|];
    unfold fits; cbn [nonempty forallb]; rewrite andb_true_r, (proj2 (Nat.leb_le _ _) H);
    replace (0 <? Z.of_nat (length (c0 :: cur))) with true by (cbn [length]; lia);
    destruct (push_word_Ret fails NF s base p ws arr addrs (c0 :: cur) O C ltac:(lia) T) as (s' & arr' & addrs' & EP & O' & _);
    exists s'; split; [exact EP|]; by exists arr', addrs'.
  destruct (step_Ret base p c rest m s ws cur L H R) as (rest' & m' & cur' & ws' & s' & E & L' & R' & HL & HC & X & FW).
  rewrite X, fits_app, FW. cbn [andb].
  assert (r = finish p (if n_max <=? Z.of_nat (length cur') + 1 then panic
                        else tokenize_loop fails fuel p rest' m' (Z.of_nat (length cur'))) s') as ->.
  { unfold r, finish. cbn [tokenize_loop]. unfold bind at 1 2. rewrite E. reflexivity. }
  unfold n_max. destruct (Z.leb_spec 4096 (Z.of_nat (length cur') + 1)) as [G|G].
  - rewrite split_long by lia. reflexivity.
  - specialize (IH base p rest' m' s' (ws ++ ws') cur' ltac:(cbn in HF; lia) R' L' ltac:(lia)). rewrite <- app_assoc in IH. exact IH.
Qed.
End Loop.

Lemma free_block_Ret s a b : 0 < a -> blocks s !! a = Some b -> free a s = Ret (tt, set_blocks s (delete a (blocks s))).
Proof. intros H E. unfold free. replace (a =? NULL) with false by (unfold NULL; lia). by rewrite E. Qed.

Lemma destroy_words p t addrs : tokens_length t = Z.of_nat (length addrs) -> forall l pre s fuel, addrs = pre ++ l ->
  blocks s !! p = Some (Tokens t) -> (l <> [] -> blocks s !! tokens_tokens t = Some (Pointers addrs)) ->
  NoDup (p :: tokens_tokens t :: l) -> Forall (fun a => 0 < a /\ is_Some (blocks s !! a)) l -> (length l < fuel)%nat ->
  exists s', destroy_loop fuel p tokens_length tokens_tokens (Z.of_nat (length pre)) s = Ret (tt, s') /\
    forall a, blocks s' !! a = if bool_decide (a ∈ l) then None else blocks s !! a.
Proof.
  intros HT. induction l as [|q l IH]; intros pre s fuel HA HP HR ND HL HF; (destruct fuel as [|fuel]; [cbn in HF; lia|]);
    cbn [destroy_loop]; unfold bind at 1, load_tokens; rewrite HP; cbn [obind]; rewrite HT, HA, length_app.
  - replace (Z.of_nat (length pre) <? _) with false by (cbn [length]; lia). exists s. split; [done|]. intros a.
    by rewrite bool_decide_false by apply not_elem_of_nil.
  - replace (Z.of_nat (length pre) <? _) with true by (cbn [length]; lia). unfold bind at 1, load_pointer. rewrite HR by done.
    unfold aread, aget. replace (0 <=? Z.of_nat (length pre)) with true by lia. rewrite Nat2Z.id, HA, list_lookup_middle by done.
    cbn [deref obind]. inversion HL as [|? ? [Q1 [b Q2]] HL']. unfold bind at 1. rewrite (free_block_Ret s q b Q1 Q2). cbn [obind].
    apply NoDup_cons in ND as [N1 ND]. apply NoDup_cons in ND as [N2 ND]. apply NoDup_cons in ND as [N3 ND].
    rewrite !not_elem_of_cons in N1. rewrite !not_elem_of_cons in N2. destruct N1 as (N11 & N12 & N13), N2 as [N21 N22].
    destruct (IH (pre ++ [q]) (set_blocks s (delete q (blocks s))) fuel) as (s' & E & B).
    + by rewrite <- app_assoc.
    + cbn [set_blocks blocks]. by rewrite lookup_delete_ne.
    + intros _. cbn [set_blocks blocks]. rewrite lookup_delete_ne by done. by apply HR.
    + apply NoDup_cons. split; [by rewrite not_elem_of_cons|]. by apply NoDup_cons.
    + apply Forall_forall. intros a Ha. rewrite Forall_forall in HL'. destruct (HL' a Ha) as [A1 A2]. split; [done|].
      cbn [set_blocks blocks]. rewrite lookup_delete_ne; [done|]. by intros ->.
    + cbn in HF. lia.
    + rewrite length_app in E. cbn [length] in E. rewrite Nat2Z.inj_add in E. exists s'. split; [exact E|].
      intros a. rewrite B. cbn [set_blocks blocks]. destruct (decide (a = q)) as [->|Nq].
      * rewrite (bool_decide_true (q ∈ q :: l)) by (by left). rewrite lookup_delete_eq. by destruct (bool_decide _).
      * rewrite lookup_delete_ne by done. rewrite (bool_decide_ext (a ∈ q :: l) (a ∈ l)); [done|]. rewrite elem_of_cons. tauto.
Qed.

Lemma tokens_destroy_Ret s base p ws arr addrs : owned s base p ws arr addrs ->
  exists s', tokens_destroy p s = Ret (tt, s') /\ blocks s' = base.
Proof.
  intros O. pose proof (owned_array _ _ _ _ _ _ O) as [AL AA]. destruct O as [O1 O2 O3 O4 O5 O6 [O7 O8] O9].
  assert (0 < p) as Pp by (by inversion O7). assert (Forall (fun a => 0 < a) addrs) as PA by (by inversion O7).
  set (t := mk_tokens (Z.of_nat (length ws)) arr 0 NULL) in *. unfold tokens_destroy.
  replace (p =? NULL) with false by (unfold NULL; lia). unfold bind at 1, load_tokens. rewrite O1. cbn [obind].
  destruct (destroy_words p t addrs ltac:(cbn; lia) addrs [] s (S (Z.to_nat (tokens_length t)))) as (s1 & E1 & B1); try done.
  { intros H. destruct AA as [[_ EA]|[_ EA]]; [by rewrite EA in H|exact EA]. }
  { apply Forall_forall. intros a Ha. rewrite Forall_forall in PA. split; [by apply PA|].
    apply list_elem_of_lookup in Ha as [k Hk]. destruct (Forall2_lookup_l _ _ _ _ _ O3 Hk) as (w & _ & ->). by eexists. }
  { cbn. lia. }
  change (Z.of_nat (length [])) with 0 in E1. unfold bind at 1. rewrite E1. cbn [obind].
  apply NoDup_cons in O4 as [N1 [N2 _]%NoDup_cons]. rewrite not_elem_of_cons in N1. destruct N1 as [N1 N3].
  assert (blocks s1 !! p = Some (Tokens t)) as T1 by (by rewrite B1, bool_decide_false).
  change (buffers_length t) with 0. unfold bind at 1. cbn [Z.to_nat destroy_loop].
  unfold bind at 1, load_tokens. rewrite T1. cbn [obind t buffers_length Z.ltb Z.compare ret].
  unfold bind at 1, load_tokens. unfold ret at 1. cbn [obind]. rewrite T1. cbn [obind t tokens_tokens]. unfold bind.
  assert (exists s2, (if negb (arr =? NULL) then free arr else ret tt) s1 = Ret (tt, s2) /\
    forall a, blocks s2 !! a = if bool_decide (a = arr) then None else blocks s1 !! a) as (s2 & E2 & B2).
  { destruct AA as [[-> ->]|[AA HA]].
    - exists s1. split; [done|]. intros a. destruct (decide (a = NULL)) as [->|D]; [rewrite bool_decide_true by done|by rewrite bool_decide_false].
      rewrite B1, bool_decide_false by set_solver.
      apply O9. left. unfold NULL. lia.
    - replace (arr =? NULL) with false by (unfold NULL; lia). eexists. split.
      { apply (free_block_Ret s1 arr (Pointers addrs)); [lia|]. by rewrite B1, bool_decide_false. }
      intros a. cbn [set_blocks blocks]. destruct (decide (a = arr)) as [->|D];
        [rewrite bool_decide_true by done; apply lookup_delete_eq|rewrite bool_decide_false by done; by apply lookup_delete_ne]. }
  unfold ret in E2. rewrite E2. cbn [obind]. rewrite (free_block_Ret s2 p (Tokens t) Pp) by (by rewrite B2, bool_decide_false).
  eexists. split; [reflexivity|]. cbn [set_blocks blocks]. apply map_eq. intros a.
  destruct (decide (a = p)) as [->|Np]; [rewrite lookup_delete_eq; symmetry; apply O5; by left|]. rewrite lookup_delete_ne, B2, B1 by done.
  destruct (decide (a = arr)) as [->|D]; [rewrite bool_decide_true by done; symmetry; apply O5; set_solver|].
  rewrite (bool_decide_false (a = arr)) by done.
  destruct (decide (a ∈ addrs)) as [D2|D2]; [rewrite bool_decide_true by done; symmetry; apply O5; set_solver|].
  rewrite bool_decide_false by done. apply O6. set_solver.
Qed.

(** A heap whose next address is free, and the static array. *)
Record lib_ok (s : lib) : Prop := {
  lo_token : length (token s) = 4096%nat;
  lo_fresh : forall a, a <= 0 \/ new_address s <= a -> blocks s !! a = None
}.

Lemma owned_start s : lib_ok s -> let p := new_address s in
  owned (mk_lib (<[p := Tokens (mk_tokens 0 NULL 0 NULL)]> (blocks s)) (S (mallocs s)) (token s)) (blocks s) p [] NULL [].
Proof.
  intros [L F] p. assert (0 < p) by (unfold p, new_address; lia).
  split; cbn [blocks].
  - by rewrite lookup_insert_eq.
  - by rewrite bool_decide_true.
  - constructor.
  - repeat constructor; rewrite ?list_elem_of_singleton; (unfold NULL; lia) || apply not_elem_of_nil.
  - intros a [->|[->|Ha]%elem_of_cons]%elem_of_cons; [apply F; right; lia|apply F; left; unfold NULL; lia|by apply not_elem_of_nil in Ha].
  - intros a Ha. rewrite !not_elem_of_cons in Ha. by rewrite lookup_insert_ne by (intros E; by apply (proj1 Ha)).
  - split; [by constructor|done].
  - intros a Ha. unfold new_address in Ha. cbn [mallocs] in Ha. unfold p, new_address in *.
    rewrite lookup_insert_ne by lia. split; apply F; unfold new_address; lia.
Qed.

Lemma tokenize_Ret fails line s : (forall k, fails k = false) -> is_text line -> lib_ok s ->
  if fits (words line) then exists p s' arr addrs, tokenize fails (Some line) s = Ret (p, s') /\
    owned s' (blocks s) p (words line) arr addrs
  else tokenize fails (Some line) s = Panic.
Proof.
  intros NF T W. pose proof (owned_start s W) as O. cbv zeta in O. destruct W as [L F].
  set (p := new_address s) in *. set (s1 := mk_lib _ _ _) in O.
  assert (tokenize fails (Some line) s = (let? (_, s') := finish fails p (tokenize_loop fails (length line) p line MODE_NORMAL 0) s1 in Ret (p, s'))) as ->.
  { unfold tokenize, bind at 1, malloc. rewrite NF. cbn [obind]. unfold bind at 1, store_tokens. cbn [blocks].
    fold p. rewrite lookup_insert_eq. cbn [obind]. unfold set_blocks. cbn [blocks mallocs token]. rewrite insert_insert_eq. fold s1.
    unfold finish, bind. destruct (tokenize_loop _ _ _ _ _ _ s1) as [[n s2]| | |]; reflexivity. }
  pose proof (loop_Ret fails NF (length line) (blocks s) p line MODE_NORMAL s1 [] [] ltac:(lia) T) as H.
  cbv zeta in H. change (Z.of_nat (length [])) with 0 in H. unfold words.
  specialize (H ltac:(split; [by exists NULL, []|]; split; [by split|constructor]) ltac:(cbn; lia)).
  destruct (fits _).
  - destruct H as (s' & E & arr & addrs & O'). exists p, s', arr, addrs. by rewrite E.
  - by rewrite H.
Qed.

(** What the accessors say of the object [p]. *)
Definition reads_as (p : Z) (ws : list (list Z)) (s : lib) : Prop :=
  tokens_get_length p s = Ret (Z.of_nat (length ws), s) /\
  forall i, 0 <= i ->
    match ws !! Z.to_nat i with
    | Some w => exists q, tokens_get_token p i s = Ret (q, s) /\ blocks s !! q = Some (Chars (w ++ [0]))
    | None => tokens_get_token p i s = Ret (NULL, s)
    end.

Lemma owned_reads s base p ws arr addrs : owned s base p ws arr addrs -> reads_as p ws s.
Proof.
  intros O. pose proof (owned_array _ _ _ _ _ _ O) as [AL AA]. destruct O as [O1 _ O3 _ _ _ [O7 _] _].
  assert (0 < p) by (by inversion O7). unfold reads_as, tokens_get_length, tokens_get_token.
  replace (p =? NULL) with false by (unfold NULL; lia). unfold bind, load_tokens. rewrite O1. cbn [obind tokens_length tokens_tokens].
  split; [done|]. intros i Hi. destruct (ws !! Z.to_nat i) as [w|] eqn:E.
  - pose proof (lookup_lt_Some _ _ _ E). replace (Z.of_nat (length ws) <=? i) with false by lia.
    destruct (Forall2_lookup_r _ _ _ _ _ O3 E) as (q & Eq & B). exists q. split; [|done]. unfold load_pointer.
    destruct AA as [[_ ->]|[_ ->]]; [done|]. unfold aread, aget. replace (0 <=? i) with true by lia. by rewrite Eq.
  - apply lookup_ge_None in E. by replace (Z.of_nat (length ws) <=? i) with true by lia.
Qed.

Lemma owned_keeps s base p ws arr addrs a b : owned s base p ws arr addrs -> base !! a = Some b -> blocks s !! a = Some b.
Proof.
  intros [_ _ _ _ O5 O6 _ _] H. destruct (decide (a ∈ p :: arr :: addrs)) as [D|D]; [by rewrite O5 in H|by rewrite O6].
Qed.

(** * Quoting *)

(** A word between single quotes, with a backslash before quotes and backslashes. *)
Definition quote_char (c : Z) : list Z := if (c =? 39) || (c =? 92) then [92; c] else [c].
Definition quote_word (w : list Z) : list Z := 39 :: flat_map quote_char w ++ [39].
Definition command_line (ws : list (list Z)) : list Z := flat_map (fun w => quote_word w ++ [32]) ws.

Lemma lex_quoted w rest : lex MODE_SQUOTE (flat_map quote_char w ++ 39 :: rest) = map Some w ++ lex MODE_NORMAL rest.
Proof.
  induction w as [|c w IH]; [done|]. cbn [flat_map map app]. unfold quote_char at 1. rewrite <- app_assoc.
  destruct ((c =? 39) || (c =? 92)) eqn:E; cbn [app lex].
  - cbn [Z.eqb Pos.eqb]. by rewrite IH.
  - replace (c =? 92) with false by lia. cbn [toggles]. replace (c =? 39) with false by lia. rewrite IH. done.
Qed.

Lemma split_some w : forall cur l, split_words cur (map Some w ++ l) = split_words (cur ++ w) l.
Proof.
  induction w as [|c w IH]; intros cur l; cbn [map app split_words]; [by rewrite app_nil_r|]. by rewrite IH, <- app_assoc.
Qed.

Lemma words_command_line ws : Forall (fun w => w <> []) ws -> words (command_line ws) = ws.
Proof.
  unfold words. induction 1 as [|w ws Hw _ IH]; [done|]. unfold command_line in *. cbn [flat_map]. unfold quote_word at 1.
  cbn [app lex toggles Z.eqb Pos.eqb]. rewrite <- !app_assoc. cbn [app]. rewrite lex_quoted, split_some. cbn [app lex Z.eqb Pos.eqb toggles].
  change (bool_decide (MODE_NORMAL = MODE_NORMAL) && isspace 32) with true. cbn [split_words]. rewrite IH. by destruct w.
Qed.

Lemma text_command_line ws : Forall is_text ws -> is_text (command_line ws).
Proof.
  induction 1 as [|w ws Hw _ IH]; [constructor|]. unfold command_line. cbn [flat_map]. apply Forall_app_2; [|exact IH].
  unfold quote_word. apply Forall_app_2; [|by repeat constructor]. constructor; [lia|]. apply Forall_app_2; [|by repeat constructor].
  clear -Hw. induction Hw as [|c w Hc _ IH]; [constructor|]. cbn [flat_map]. apply Forall_app_2; [|exact IH].
  unfold quote_char. destruct (_ || _); repeat constructor; lia.
Qed.

(** * Properties *)

(** C28. As long as memory lasts, tokenizing a line gives an object whose length and tokens are the words
    of the line, each a copy of its own; no other block of the heap changes, and destroying the object
    frees each block once and leaves the heap as it was before.  A word of 4095 characters or more
    aborts the shell.  No access leaves the static array. *)
Theorem tokenize_correct (fails : nat -> bool) (line : list Z) (s : lib) (NF : forall k, fails k = false)
    (T : is_text line) (W : lib_ok s) :
  if fits (words line) then
    exists p s', tokenize fails (Some line) s = Ret (p, s') /\ reads_as p (words line) s' /\
      (forall a b, blocks s !! a = Some b -> blocks s' !! a = Some b) /\
      exists s'', tokens_destroy p s' = Ret (tt, s'') /\ blocks s'' = blocks s
  else tokenize fails (Some line) s = Panic.
Proof.
  pose proof (tokenize_Ret fails line s NF T W) as H. destruct (fits _); [|exact H].
  destruct H as (p & s' & arr & addrs & E & O). exists p, s'. split; [exact E|]. split; [by eapply owned_reads|].
  split; [intros a b; by eapply owned_keeps|by eapply tokens_destroy_Ret].
Qed.

(** Any nonempty words of less than 4095 characters, each put between single quotes with a backslash
    before every quote and backslash, are the tokens of the line that lists them, whatever spaces and
    double quotes they hold. *)
Theorem tokenize_quoted (fails : nat -> bool) (ws : list (list Z)) (s : lib) (NF : forall k, fails k = false)
    (T : Forall is_text ws) (N : Forall (fun w => w <> []) ws) (F : Forall (fun w => length w < 4095)%nat ws) (W : lib_ok s) :
  exists p s', tokenize fails (Some (command_line ws)) s = Ret (p, s') /\ reads_as p ws s'.
Proof.
  pose proof (tokenize_Ret fails (command_line ws) s NF (text_command_line ws T) W) as H. rewrite (words_command_line ws N) in H.
  assert (fits ws = true) as E.
  { apply forallb_forall. intros w Hw%list_elem_of_In. rewrite Forall_forall in F. specialize (F w Hw). apply Nat.leb_le. lia. }
  rewrite E in H. destruct H as (p & s' & arr & addrs & ET & O). exists p, s'. split; [exact ET|by eapply owned_reads].
Qed.

(** When [malloc] finds no memory the null pointer it returns is used. *)
Example tokenize_no_memory : tokenize (fun k => Nat.eqb k 0) (Some (chars "ls")) (mk_lib ∅ 0 (replicate 4096 0)) = UB.
Proof. vm_compute. reflexivity. Qed.

Definition ex_lib : lib := mk_lib ∅ 0 (replicate 4096 0).
Lemma ex_lib_ok : lib_ok ex_lib.
Proof. split; [reflexivity|]. intros a _. apply lookup_empty. Qed.

Lemma tokenize_correct_witness : exists p s', tokenize (fun _ => false) (Some (chars "cat 'a b' | wc")) ex_lib = Ret (p, s') /\
  reads_as p [chars "cat"; chars "a b"; chars "|"; chars "wc"] s' /\
  exists s'', tokens_destroy p s' = Ret (tt, s'') /\ blocks s'' = ∅.
Proof.
  assert (is_text (chars "cat 'a b' | wc")) as T by (repeat constructor).
  destruct (tokenize_correct (fun _ => false) (chars "cat 'a b' | wc") ex_lib (fun _ => eq_refl) T ex_lib_ok)
    as (p & s' & E & R & _ & D). exists p, s'. split; [exact E|]. split; [exact R|exact D].
Defined.

Lemma tokenize_quoted_witness : exists p s',
  tokenize (fun _ => false) (Some (command_line [chars "echo"; chars "it's"])) ex_lib = Ret (p, s') /\
  reads_as p [chars "echo"; chars "it's"] s'.
Proof.
  apply (tokenize_quoted (fun _ => false) [chars "echo"; chars "it's"] ex_lib (fun _ => eq_refl));
    [repeat constructor|repeat constructor; discriminate|repeat constructor|exact ex_lib_ok].
Defined.
