(* ===== verification/MmAlloc.v ===== *)
(** The user-level allocator over sbrk (hw-memory/mm_alloc/mm_alloc.c): first fit with splitting, freeing
    with coalescing, on the bytes of the heap, and the list of chunks those bytes represent. *)
From S2P Require Import Prelude Palloc Pagedir PagedirFacts.

(** * Definitions *)

(** The memory, the static [header], and the break. *)
Record mm := mk_mm { m_mem : memory; header : Z; m_break : Z }.
Definition set_mem (s : mm) (m : memory) : mm := mk_mm m (header s) (m_break s).
Abbreviation MM := (ST mm).

(** [sizeof (struct metadata)] with the 4-byte pointers and [size_t] of the 32-bit kernel of this homework; a
    build for a 64-bit host has 8-byte pointers and a struct of 24 bytes, which the model does not describe. *)
Definition metasize : Z := 16.

Definition set_byte (m : memory) (a v : Z) : memory := fun x => if x =? a then v else m x.

(** The heap starts at [lo]; [grants b n] says whether sbrk moves the break from [b] by [n]. *)
Section Allocator.
Context (lo : Z) (grants : Z -> Z -> bool).

(** Accesses outside the heap are undefined. *)
Definition in_heap (s : mm) (a n : Z) : bool := (lo <=? a) && (a + n <=? m_break s).
Definition load (a : Z) : MM Z := fun s => if in_heap s a 4 then Ret (mem_word (m_mem s) a, s) else UB.
Definition store (a w : Z) : MM unit := fun s =>
  if in_heap s a 4 then Ret (tt, set_mem s (set_word (m_mem s) a w)) else UB.

(** The fields of the metadata at [p]; [free] is one byte. *)
Definition get_prev (p : Z) : MM Z := load p.
Definition get_next (p : Z) : MM Z := load (p + 4).
Definition get_free (p : Z) : MM bool := fun s =>
  if in_heap s (p + 8) 1 then Ret (negb (m_mem s (p + 8) =? 0), s) else UB.
Definition get_size (p : Z) : MM Z := load (p + 12).
Definition set_prev (p v : Z) : MM unit := store p v.
Definition set_next (p v : Z) : MM unit := store (p + 4) v.
Definition set_free (p : Z) (b : bool) : MM unit := fun s =>
  if in_heap s (p + 8) 1
  then Ret (tt, set_mem s (set_byte (m_mem s) (p + 8) (Z.b2z b))) else UB.
Definition set_size (p v : Z) : MM unit := store (p + 12) v.
Definition contents (p : Z) : Z := p + 16.

Definition clear (p n : Z) : MM unit := fun s =>
  if in_heap s p n then Ret (tt, set_mem s (memset (m_mem s) p 0 n)) else UB.

(** The old break, or the pointer -1. *)
Definition sbrk (n : Z) : MM Z := fun s =>
  if grants (m_break s) (s32 n) then Ret (m_break s, mk_mm (m_mem s) (header s) (m_break s + s32 n))
  else Ret (u32 (-1), s).

(** Turning the free block [cur] into an allocated one. *)
Definition take_block (cur size : Z) : MM Z :=
  let! cur_size := get_size cur in
  let extra_space := s32 (cur_size - size) in
  let! _ :=
    if metasize <=? u32 extra_space then
      let! _ := set_size cur size in
      let extra := contents cur + size in
      let! _ := set_prev extra cur in
      let! next := get_next cur in
      let! _ := set_next extra next in
      let! _ := set_next cur extra in
      let! next := get_next extra in
      let! _ := if negb (next =? NULL) then set_prev next extra else ret tt in
      let! _ := set_free extra true in
      set_size extra (u32 (extra_space - metasize))
    else ret tt in
  let! _ := set_free cur false in
  let! n := get_size cur in
  let! _ := clear (contents cur) n in
  ret (contents cur).

(** The search from [cur] on: the contents of the block found, or the last block. *)
Fixpoint find_loop (fuel : nat) (cur prev size : Z) : MM (option Z * Z) :=
  match fuel with
  | O => fun _ => NoFuel
  | S fuel =>
      if cur =? NULL then ret (None, prev)
      else
        let! free := get_free cur in
        let! cur_size := get_size cur in
        if free && (size <=? cur_size) then let! p := take_block cur size in ret (Some p, prev)
        else let! next := get_next cur in find_loop fuel next cur size
  end.

(** One step per block of the heap, and one to see the end. *)
Definition heap_fuel (s : mm) : nat := S (S (Z.to_nat ((m_break s - lo) / metasize))).

Definition mm_malloc (size : Z) : MM Z :=
  if size =? 0 then ret NULL
  else
    let! s := gets (fun s => s) in
    let! (found, prev) := find_loop (heap_fuel s) (header s) NULL size in
    match found with
    | Some p => ret p
    | None =>
        let! cur := sbrk (u32 (metasize + size)) in
        if cur =? u32 (-1) then ret NULL
        else
          let! _ := if prev =? NULL then modify (fun s => mk_mm (m_mem s) cur (m_break s)) else set_next prev cur in
          let! _ := set_prev cur prev in
          let! _ := set_next cur NULL in
          let! _ := set_free cur false in
          let! _ := set_size cur size in
          let! _ := clear (contents cur) size in
          ret (contents cur)
    end.

(** The two loops that coalesce: over the free blocks from [m] on, and before [m]. *)
Fixpoint forward_loop (fuel : nat) (cur m : Z) : MM Z :=
  match fuel with
  | O => fun _ => NoFuel
  | S fuel =>
      let! go := if m =? NULL then ret false else get_free m in
      if go then
        let! cs := get_size cur in
        let! ms := get_size m in
        let! _ := set_size cur (u32 (cs + metasize + ms)) in
        let! next := get_next m in
        forward_loop fuel cur next
      else ret m
  end.

Fixpoint backward_loop (fuel : nat) (cur m : Z) : MM Z :=
  match fuel with
  | O => fun _ => NoFuel
  | S fuel =>
      let! prev := get_prev m in
      let! go := if prev =? NULL then ret false else get_free prev in
      if go then
        let! cs := get_size cur in
        let! prev := get_prev m in
        let! ms := get_size prev in
        let! _ := set_size cur (u32 (cs + metasize + ms)) in
        let! prev := get_prev m in
        backward_loop fuel cur prev
      else ret m
  end.

Definition coalesce (fuel : nat) (cur : Z) : MM unit :=
  let! next := get_next cur in
  let! m := forward_loop fuel cur next in
  let! _ := set_next cur m in
  let! m := backward_loop fuel cur cur in
  let! n := get_size cur in
  let! _ := set_size m n in
  let! next := get_next cur in
  set_next m next.

(** The search for the block of [ptr], from [cur] on. *)
Fixpoint free_loop (fuel fuel' : nat) (cur ptr : Z) : MM unit :=
  match fuel with
  | O => fun _ => NoFuel
  | S fuel =>
      if cur =? NULL then ret tt
      else
        let! free := get_free cur in
        if negb free && (contents cur =? ptr) then
          let! _ := set_free cur true in
          coalesce fuel' cur
        else let! next := get_next cur in free_loop fuel fuel' next ptr
  end.

Definition mm_free (ptr : Z) : MM unit :=
  if ptr =? NULL then ret tt
  else
    let! s := gets (fun s => s) in
    free_loop (heap_fuel s) (heap_fuel s) (header s) ptr.

(** The copy to a buffer on the stack and back. *)
Definition mm_realloc (ptr size : Z) : MM Z :=
  if ptr =? NULL then mm_malloc size
  else
    let! _ := mm_free ptr in
    if size =? 0 then ret NULL
    else
      let! s := gets (fun s => s) in
      if in_heap s ptr size then
        let tempstr := m_mem s in
        let! nptr := mm_malloc size in
        let! s := gets (fun s => s) in
        if in_heap s nptr size then
          let! _ := modify (fun s => set_mem s (fun a =>
            if (nptr <=? a) && (a <? nptr + size) then tempstr (ptr + (a - nptr)) else m_mem s a)) in
          ret nptr
        else fun _ => UB
      else fun _ => UB.
End Allocator.

(** * The chunks of a heap *)

Record chunk := mk_chunk { c_size : Z; c_free : bool }.
Definition span (c : chunk) : Z := 16 + c_size c.
Fixpoint spans (l : list chunk) : Z := match l with [] => 0 | c :: l => span c + spans l end.

(** The list [l] of chunks lies at [a], linked forwards, the last to [nx]. *)
Record block_at (m : memory) (a : Z) (c : chunk) (nx : Z) : Prop := {
  ba_next : mem_word m (a + 4) = nx;
  ba_free : negb (m (a + 8) =? 0) = c_free c;
  ba_size : mem_word m (a + 12) = c_size c
}.
Definition head_of (a nx : Z) (l : list chunk) : Z := match l with [] => nx | _ => a end.
Fixpoint seg (m : memory) (a : Z) (l : list chunk) (nx : Z) : Prop :=
  match l with
  | [] => True
  | c :: l => block_at m a c (head_of (a + span c) nx l) /\ seg m (a + span c) l nx
  end.

(** The links backwards, the first to [pv]. *)
Fixpoint prevs (m : memory) (a : Z) (l : list chunk) (pv : Z) : Prop :=
  match l with
  | [] => True
  | c :: l => mem_word m a = pv /\ prevs m (a + span c) l a
  end.
Fixpoint last_of (a : Z) (l : list chunk) (pv : Z) : Z :=
  match l with [] => pv | c :: l => last_of (a + span c) l a end.

(** The bytes of the metadata, and of the contents of allocated chunks. *)
Fixpoint in_links (a : Z) (l : list chunk) (x : Z) : Prop :=
  match l with [] => False | c :: l => a + 4 <= x < a + 16 \/ in_links (a + span c) l x end.
Fixpoint in_prevs (a : Z) (l : list chunk) (x : Z) : Prop :=
  match l with [] => False | c :: l => a <= x < a + 4 \/ in_prevs (a + span c) l x end.
Fixpoint in_data (a : Z) (l : list chunk) (x : Z) : Prop :=
  match l with
  | [] => False
  | c :: l => c_free c = false /\ a + 16 <= x < a + span c \/ in_data (a + span c) l x
  end.
Abbreviation sizes_ok := (Forall (fun c => 0 <= c_size c)).

(** The heap holds the chunks [l]; the links backwards are another matter. *)
Record heap_at (lo : Z) (s : mm) (l : list chunk) : Prop := {
  ha_lo : 0 < lo;
  ha_header : header s = head_of lo NULL l;
  ha_seg : seg (m_mem s) lo l NULL;
  ha_sizes : sizes_ok l;
  ha_break : m_break s = lo + spans l;
  ha_top : m_break s < 2 ^ 31
}.

(** * Lemmas *)

Lemma spans_app l k : spans (l ++ k) = spans l + spans k.
Proof. induction l as [|c l IH]; cbn [app spans]; lia. Qed.
Lemma spans_nonneg l : sizes_ok l -> 16 * Z.of_nat (length l) <= spans l.
Proof. induction 1 as [|c l Hc _ IH]; cbn [spans length]; [lia|]. unfold span in *. lia. Qed.

Lemma seg_app m l : forall a k nx, seg m a (l ++ k) nx <->
  seg m a l (head_of (a + spans l) nx k) /\ seg m (a + spans l) k nx.
Proof.
  induction l as [|c l IH]; intros a k nx; cbn [app seg spans].
  - rewrite Z.add_0_r. tauto.
  - rewrite IH. replace (a + (span c + spans l)) with (a + span c + spans l) by lia.
    destruct l as [|d l]; cbn [app head_of spans]; [|tauto]. rewrite Z.add_0_r. tauto.
Qed.

Lemma prevs_app m l : forall a k pv, prevs m a (l ++ k) pv <-> prevs m a l pv /\ prevs m (a + spans l) k (last_of a l pv).
Proof.
  induction l as [|c l IH]; intros a k pv; cbn [app prevs spans last_of].
  - rewrite Z.add_0_r. tauto.
  - rewrite IH. replace (a + (span c + spans l)) with (a + span c + spans l) by lia. tauto.
Qed.

Lemma in_data_app l : forall a k x, in_data a (l ++ k) x <-> in_data a l x \/ in_data (a + spans l) k x.
Proof.
  induction l as [|c l IH]; intros a k x; cbn [app in_data spans].
  - rewrite Z.add_0_r. tauto.
  - rewrite IH. replace (a + (span c + spans l)) with (a + span c + spans l) by lia. tauto.
Qed.

Lemma links_range l : sizes_ok l -> forall a x, in_links a l x \/ in_prevs a l x \/ in_data a l x -> a <= x < a + spans l.
Proof.
  induction 1 as [|c l Hc Hl IH]; intros a x; cbn [in_links in_prevs in_data spans]; [tauto|].
  pose proof (spans_nonneg l Hl). unfold span in *. specialize (IH (a + (16 + c_size c)) x).
  intros [[?|?]|[[?|?]|[[_ ?]|?]]]; try lia; specialize (IH ltac:(tauto)); lia.
Qed.

Lemma links_apart l : sizes_ok l -> forall a x, in_links a l x -> ~ in_prevs a l x /\ ~ in_data a l x.
Proof.
  induction 1 as [|c l Hc Hl IH]; intros a x; cbn [in_links in_prevs in_data]; [tauto|].
  specialize (IH (a + span c) x). pose proof (links_range l Hl (a + span c) x) as R. unfold span in *.
  intros [H|H].
  - split; intros [?|?]; try lia; specialize (R ltac:(tauto)); lia.
  - destruct (IH H) as [I1 I2]. specialize (R ltac:(tauto)). split; intros [?|?]; (lia || tauto).
Qed.

Lemma prevs_apart l : sizes_ok l -> forall a x, in_prevs a l x -> ~ in_data a l x.
Proof.
  induction 1 as [|c l Hc Hl IH]; intros a x; cbn [in_prevs in_data]; [tauto|].
  specialize (IH (a + span c) x). pose proof (links_range l Hl (a + span c) x) as R. unfold span in *.
  intros [H|H] [?|?]; try lia; [specialize (R ltac:(tauto)); lia|specialize (R ltac:(tauto)); lia|tauto].
Qed.

Lemma seg_ext m m' l : forall a nx, (forall x, in_links a l x -> m' x = m x) -> seg m a l nx -> seg m' a l nx.
Proof.
  induction l as [|c l IH]; intros a nx H; cbn [seg in_links] in *; [done|]. intros [[B1 B2 B3] S]. split.
  - split; [rewrite <- B1|rewrite <- B2|rewrite <- B3]; [|by rewrite H by lia|];
      apply mem_word_ext; intros i Hi; apply H; lia.
  - apply IH; [|done]. intros x Hx. apply H. by right.
Qed.

Lemma prevs_ext m m' l : forall a pv, (forall x, in_prevs a l x -> m' x = m x) -> prevs m a l pv -> prevs m' a l pv.
Proof.
  induction l as [|c l IH]; intros a pv H; cbn [prevs in_prevs] in *; [done|]. intros [B S]. split.
  - rewrite <- B. apply mem_word_ext. intros i Hi. apply H. lia.
  - apply IH; [|done]. intros x Hx. apply H. by right.
Qed.

Lemma mem_word_set_byte m a v b : a < b \/ b + 4 <= a -> mem_word (set_byte m a v) b = mem_word m b.
Proof. intros H. apply mem_word_ext. intros i Hi. unfold set_byte. by replace (b + i =? a) with false by lia. Qed.
Lemma mem_word_memset m d v n a : a + 4 <= d \/ d + n <= a -> mem_word (memset m d v n) a = mem_word m a.
Proof.
  intros H. apply mem_word_ext. intros i Hi. unfold memset. by replace ((d <=? a + i) && (a + i <? d + n)) with false by lia.
Qed.
Lemma set_byte_same m a v : set_byte m a v a = v.
Proof. unfold set_byte. by rewrite Z.eqb_refl. Qed.
Lemma set_byte_other m a v x : x <> a -> set_byte m a v x = m x.
Proof. intros H. unfold set_byte. by replace (x =? a) with false by lia. Qed.
Lemma set_word_other m a w x : ~ (a <= x < a + 4) -> set_word m a w x = m x.
Proof. intros H. unfold set_word. by replace ((a <=? x) && (x <? a + 4)) with false by lia. Qed.
Lemma memset_other m d v n x : ~ (d <= x < d + n) -> memset m d v n x = m x.
Proof. intros H. unfold memset. by replace ((d <=? x) && (x <? d + n)) with false by lia. Qed.

(** Reading after writes: each rewrite skips a write elsewhere or finds the one it reads. *)
Ltac read_memory :=
  repeat first
    [ rewrite mem_word_set_same | rewrite mem_word_set_other by lia | rewrite mem_word_set_byte by lia
    | rewrite mem_word_memset by lia | rewrite set_byte_same | rewrite set_byte_other by lia
    | rewrite set_word_other by lia | rewrite memset_other by lia | rewrite u32_small by lia ].

Section Accesses.
Context (lo : Z).

Lemma load_Ret s a : lo <= a -> a + 4 <= m_break s -> load lo a s = Ret (mem_word (m_mem s) a, s).
Proof. intros H1 H2. unfold load, in_heap. by replace ((lo <=? a) && (a + 4 <=? m_break s)) with true by lia. Qed.
Lemma store_Ret s a w : lo <= a -> a + 4 <= m_break s -> store lo a w s = Ret (tt, set_mem s (set_word (m_mem s) a w)).
Proof. intros H1 H2. unfold store, in_heap. by replace ((lo <=? a) && (a + 4 <=? m_break s)) with true by lia. Qed.
Lemma get_free_Ret s p : lo <= p -> p + 16 <= m_break s -> get_free lo p s = Ret (negb (m_mem s (p + 8) =? 0), s).
Proof. intros H1 H2. unfold get_free, in_heap. by replace ((lo <=? p + 8) && (p + 8 + 1 <=? m_break s)) with true by lia. Qed.
Lemma set_free_Ret s p b : lo <= p -> p + 16 <= m_break s ->
  set_free lo p b s = Ret (tt, set_mem s (set_byte (m_mem s) (p + 8) (Z.b2z b))).
Proof. intros H1 H2. unfold set_free, in_heap. by replace ((lo <=? p + 8) && (p + 8 + 1 <=? m_break s)) with true by lia. Qed.
Lemma clear_Ret s p n : lo <= p -> p + n <= m_break s -> clear lo p n s = Ret (tt, set_mem s (memset (m_mem s) p 0 n)).
Proof. intros H1 H2. unfold clear, in_heap. by replace ((lo <=? p) && (p + n <=? m_break s)) with true by lia. Qed.

End Accesses.

(** One statement at the front of the program. *)
Ltac mm_step :=
  unfold bind at 1;
  first [ rewrite load_Ret by (cbn [set_mem m_break]; lia) | rewrite store_Ret by (cbn [set_mem m_break]; lia)
        | rewrite get_free_Ret by (cbn [set_mem m_break]; lia) | rewrite set_free_Ret by (cbn [set_mem m_break]; lia)
        | rewrite clear_Ret by (cbn [set_mem m_break]; lia) ];
  cbn [obind set_mem m_mem header m_break].

Section Steps.
Context (lo : Z).

Definition split_chunk (c : chunk) (size : Z) : list chunk :=
  if 16 <=? c_size c - size then [mk_chunk size false; mk_chunk (c_size c - size - 16) true]
  else [mk_chunk (c_size c) false].

Lemma split_chunk_ok c size : 0 <= size <= c_size c -> spans (split_chunk c size) = span c /\ sizes_ok (split_chunk c size).
Proof.
  intros H. unfold split_chunk, span. destruct (Z.leb_spec 16 (c_size c - size)); cbn [spans span c_size]; unfold span; cbn [c_size];
    (split; [lia|repeat constructor; cbn [c_size]; lia]).
Qed.

(** The chunk [c] at [p], free and large enough, followed by [post] up to the break. *)
Record fits_at (s : mm) (p : Z) (c : chunk) (post : list chunk) (size : Z) : Prop := {
  fa_lo : 0 < lo <= p;
  fa_sizes : sizes_ok (c :: post);
  fa_break : p + spans (c :: post) = m_break s /\ m_break s < 2 ^ 31;
  fa_seg : seg (m_mem s) p (c :: post) NULL;
  fa_size : 0 < size <= c_size c
}.

(** What [take_block] did. *)
Record taken (m m' : memory) (p : Z) (c : chunk) (post : list chunk) (size : Z) : Prop := {
  tk_seg : seg m' p (split_chunk c size ++ post) NULL;
  tk_prevs : forall pv, prevs m p (c :: post) pv -> prevs m' p (split_chunk c size ++ post) pv;
  tk_zero : forall x, p + 16 <= x < p + 16 + size -> m' x = 0;
  tk_others : forall x, x < p + 4 \/ (p + span c <= x /\ ~ in_prevs (p + span c) post x) -> m' x = m x
}.

Lemma take_whole s p c post size : fits_at s p c post size -> c_size c - size < 16 ->
  exists m', take_block lo p size s = Ret (p + 16, set_mem s m') /\ taken (m_mem s) m' p c post size.
Proof.
  intros [L [S1 S2]%Forall_cons [B1 B2] G F] H. pose proof (spans_nonneg post S2). cbn [spans] in B1. unfold span in B1.
  cbn [seg] in G. destruct G as [[G1 G2 G3] G4].
  unfold take_block, get_size. mm_step. rewrite G3. rewrite s32_small by lia. rewrite u32_small by lia.
  unfold metasize. replace (16 <=? c_size c - size) with false by lia. unfold bind at 1, ret at 1. cbn [obind].
  mm_step. mm_step. rewrite (mem_word_set_byte _ _ _ (p + 12)) by lia. rewrite G3. unfold contents. mm_step.
  unfold ret, set_mem. cbn [header m_break m_mem]. eexists. split; [reflexivity|].
  assert (split_chunk c size = [mk_chunk (c_size c) false]) as ES
    by (unfold split_chunk; by replace (16 <=? c_size c - size) with false by lia).
  split; rewrite ?ES; cbn [app].
  - cbn [seg]. unfold span. cbn [c_size]. split; [split|].
    + read_memory. exact G1.
    + cbn [c_free Z.b2z]. read_memory. done.
    + cbn [c_size]. read_memory. exact G3.
    + revert G4. apply seg_ext. intros x Hx. pose proof (links_range post S2 (p + span c) x ltac:(tauto)) as R. unfold span in R.
      by read_memory.
  - intros pv [P1 P2]. cbn [app prevs]. unfold span. cbn [c_size]. split; [read_memory; exact P1|].
    revert P2. apply prevs_ext. intros x Hx. pose proof (links_range post S2 (p + span c) x ltac:(tauto)) as R. unfold span in R.
    by read_memory.
  - intros x Hx. unfold memset. by replace ((p + 16 <=? x) && (x <? p + 16 + c_size c)) with true by lia.
  - intros x Hx. unfold span in Hx. by read_memory.
Qed.

Lemma head_post p (c : chunk) post : 0 < p -> sizes_ok (c :: post) ->
  (head_of (p + span c) NULL post =? NULL) = match post with [] => true | _ => false end.
Proof.
  intros H [S1 S2]%Forall_cons. unfold span. destruct post; cbn [head_of]; [done|]. unfold NULL. lia.
Qed.

(** The link back of the next block, if there is one. *)
Lemma relink_Ret s m N e : 0 < e < 2 ^ 31 -> (N = 0 \/ lo <= N /\ N + 4 <= m_break s) -> 0 < lo ->
  exists m', (if negb (N =? NULL) then store lo N e else ret tt) (set_mem s m) = Ret (tt, set_mem s m') /\
    (N <> 0 -> mem_word m' N = e) /\ (forall x, N = 0 \/ ~ (N <= x < N + 4) -> m' x = m x).
Proof.
  intros He [->|HN] Hl.
  - exists m. done.
  - replace (negb (N =? NULL)) with true by (unfold NULL; lia). rewrite store_Ret by (cbn [set_mem m_break]; lia).
    exists (set_word m N e). split; [done|]. split; [intros _; read_memory; done|]. intros x Hx. apply set_word_other. lia.
Qed.

Lemma take_split s p c post size : fits_at s p c post size -> 16 <= c_size c - size ->
  exists m', take_block lo p size s = Ret (p + 16, set_mem s m') /\ taken (m_mem s) m' p c post size.
Proof.
  intros [L S [B1 B2] G F] H. pose proof (head_post p c post ltac:(lia) S) as HN. apply Forall_cons in S as [S1 S2].
  pose proof (spans_nonneg post S2). cbn [spans] in B1. unfold span in B1.
  cbn [seg] in G. destruct G as [[G1 G2 G3] G4].
  unfold take_block, get_size, set_size, get_next, set_next, set_prev. mm_step. rewrite G3. rewrite s32_small by lia. rewrite (u32_small (c_size c - size)) by lia.
  unfold metasize. replace (16 <=? c_size c - size) with true by lia. unfold contents.
  set (e := p + 16 + size). set (N := head_of (p + span c) NULL post) in *.
  assert (N = 0 \/ N = p + 16 + c_size c /\ N + 16 <= m_break s) as HNb.
  { unfold N. destruct post as [|d post]; [by left|right]. cbn [head_of spans] in *. unfold span in *.
    apply Forall_cons in S2 as [S2 S3]. pose proof (spans_nonneg post S3). lia. }
  unfold bind at 1. mm_step. mm_step. mm_step. replace (mem_word _ (p + 4)) with N by (by read_memory).
  mm_step. mm_step. mm_step. replace (mem_word _ (e + 4)) with N by (read_memory; (done || lia)).
  match goal with |- context [obind (?b (set_mem ?s1 ?m4)) _] => set (m := m4); change (set_mem s1 m) with (set_mem s m) end.
  destruct (relink_Ret s m N e) as (m5 & E5 & W5 & O5); [unfold e; lia|lia|lia|]. unfold bind at 1. rewrite E5. cbn [obind].
  mm_step. rewrite store_Ret by (cbn [set_mem m_break]; lia). cbn [obind set_mem m_mem header m_break].
  mm_step. mm_step. replace (mem_word _ (p + 12)) with size.
  2:{ read_memory. rewrite (mem_word_ext m m5) by (intros i Hi; apply O5; lia). unfold m. by read_memory. }
  mm_step. unfold ret, set_mem. cbn [header m_break m_mem]. eexists. split; [reflexivity|].
  assert (split_chunk c size = [mk_chunk size false; mk_chunk (c_size c - size - 16) true]) as ES
    by (unfold split_chunk; by replace (16 <=? c_size c - size) with true by lia).
  match goal with |- taken _ ?m6 _ _ _ _ => set (m' := m6) end.
  assert (forall x, x < p + 4 \/ (p + span c <= x /\ ~ (N <= x < N + 4)) -> m' x = m_mem s x) as OT.
  { intros x Hx. unfold span in Hx. unfold m'. read_memory. rewrite O5 by lia. unfold m. by read_memory. }
  assert (forall b, p + 4 <= b -> b + 4 <= e + 8 -> b + 4 <= p + 8 \/ e <= b -> mem_word m' b = mem_word m b) as OM.
  { intros b Hb1 Hb2 Hb3. unfold m'. read_memory. apply mem_word_ext. intros i Hi. apply O5. lia. }
  assert (0 < e < 2 ^ 31 /\ e + 16 <= p + span c) as He by (unfold e, span; lia).
  split; rewrite ?ES; cbn [app].
  - cbn [seg]. unfold span. cbn [c_size]. replace (p + (16 + size)) with e by (unfold e; lia).
    replace (e + (16 + (c_size c - size - 16))) with (p + span c) by (unfold e, span; lia). fold N.
    split; [split|split; [split|]].
    + rewrite OM by lia. unfold m. read_memory. done.
    + cbn [c_free]. unfold m'. read_memory. done.
    + cbn [c_size]. unfold m'. read_memory. rewrite (mem_word_ext m m5) by (intros i Hi; apply O5; lia). unfold m. by read_memory.
    + rewrite OM by lia. unfold m. read_memory. done.
    + cbn [c_free]. unfold m'. read_memory. done.
    + cbn [c_size]. unfold m'. read_memory. rewrite (u32_small (c_size c - size - 16)), u32_small by lia. done.
    + revert G4. apply seg_ext. intros x Hx. apply OT. right.
      pose proof (links_range post S2 (p + span c) x ltac:(tauto)). split; [lia|].
      destruct post as [|d post]; [done|]. unfold N. cbn [head_of]. apply links_apart in Hx as [Hx _]; [|done].
      cbn [in_prevs] in Hx. tauto.
  - intros pv [P1 P2]. cbn [prevs]. unfold span. cbn [c_size]. replace (p + (16 + size)) with e by (unfold e; lia).
    replace (e + (16 + (c_size c - size - 16))) with (p + span c) by (unfold e, span; lia).
    split; [|split].
    + rewrite <- P1. apply mem_word_ext. intros i Hi. apply OT. lia.
    + rewrite OM by lia. unfold m. read_memory. done.
    + destruct post as [|d post]; [done|]. cbn [prevs] in *. destruct P2 as [_ P2]. cbn [head_of] in N. split.
      * unfold m'. read_memory. apply W5. unfold N. lia.
      * revert P2. apply prevs_ext. intros x Hx. apply OT. right. apply Forall_cons in S2 as [S2 S3].
        pose proof (links_range post S3 (p + span c + span d) x ltac:(tauto)). unfold N, span in *. lia.
  - intros x Hx. unfold m', memset. by replace ((p + 16 <=? x) && (x <? p + 16 + size)) with true by lia.
  - intros x Hx. apply OT. destruct Hx as [Hx|[Hx Hp]]; [by left|right; split; [done|]].
    destruct post as [|d post]; [unfold N; cbn [head_of]; unfold NULL; lia|]. cbn [in_prevs] in Hp. unfold N. cbn [head_of]. tauto.
Qed.
End Steps.

(** * Allocation *)

(** The first chunk that is free and large enough, with the chunks before and after it. *)
Fixpoint first_fit (l : list chunk) (size : Z) : option (list chunk * chunk * list chunk) :=
  match l with
  | [] => None
  | c :: l =>
      if c_free c && (size <=? c_size c) then Some ([], c, l)
      else
        match first_fit l size with
        | Some (pre, d, post) => Some (c :: pre, d, post)
        | None => None
        end
  end.

Lemma first_fit_Some l size : forall pre c post, first_fit l size = Some (pre, c, post) ->
  l = pre ++ c :: post /\ c_free c = true /\ size <= c_size c.
Proof.
  induction l as [|d l IH]; intros pre c post; cbn [first_fit]; [done|]. destruct (c_free d && (size <=? c_size d)) eqn:E.
  - intros [= <- <- <-]. apply andb_true_iff in E as [E1 E2]. split_and!; [done|done|lia].
  - destruct (first_fit l size) as [[[pre' c'] post']|]; [|done]. intros [= <- <- <-].
    destruct (IH pre' c' post' eq_refl) as (-> & H). done.
Qed.

(** [s'] is [s] with [size] zero bytes at [r] allocated. *)
Record malloced (lo : Z) (s s' : mm) (l l' : list chunk) (r size : Z) : Prop := {
  ml_heap : heap_at lo s' l';
  ml_prevs : prevs (m_mem s) lo l NULL -> prevs (m_mem s') lo l' NULL;
  ml_zero : forall x, r <= x < r + size -> m_mem s' x = 0 /\ in_data lo l' x /\ ~ in_data lo l x;
  ml_keeps : forall x, in_data lo l x -> m_mem s' x = m_mem s x /\ in_data lo l' x
}.

Section Malloc.
Context (lo : Z) (grants : Z -> Z -> bool).

Lemma take_block_Ret s p c post size : fits_at lo s p c post size ->
  exists m', take_block lo p size s = Ret (p + 16, set_mem s m') /\ taken (m_mem s) m' p c post size.
Proof. intros F. destruct (Z.leb_spec 16 (c_size c - size)); [by apply take_split|by apply take_whole]. Qed.

Lemma heap_suffix s pre c suf : heap_at lo s (pre ++ c :: suf) -> let p := lo + spans pre in
  0 < lo <= p /\ sizes_ok (c :: suf) /\ p + spans (c :: suf) = m_break s /\ m_break s < 2 ^ 31 /\
  seg (m_mem s) p (c :: suf) NULL /\ p + 16 <= m_break s.
Proof.
  intros [H1 H2 H3 H4 H5 H6] p. apply Forall_app in H4 as [H4 H7]. apply seg_app in H3 as [_ H3].
  rewrite spans_app in H5. pose proof (spans_nonneg pre H4). pose proof (spans_nonneg (c :: suf) H7). cbn [length] in *.
  split_and!; try done; unfold p; lia.
Qed.

Lemma find_loop_S s pre c suf pv fuel size : heap_at lo s (pre ++ c :: suf) -> let a := lo + spans pre in
  find_loop lo (S fuel) a pv size s =
    if c_free c && (size <=? c_size c) then (let! p := take_block lo a size in ret (Some p, pv)) s
    else find_loop lo fuel (head_of (a + span c) NULL suf) a size s.
Proof.
  intros H a. destruct (heap_suffix s pre c suf H) as (L & S & B & T & G & B2). fold a in L, B, G, B2.
  destruct G as [[G1 G2 G3] G4]. cbn [find_loop]. replace (a =? NULL) with false by (unfold NULL; lia).
  unfold bind at 1. rewrite get_free_Ret by lia. cbn [obind]. unfold bind at 1, get_size. rewrite load_Ret by lia. cbn [obind].
  rewrite G2, G3. destruct (c_free c && (size <=? c_size c)); [done|].
  unfold bind at 1, get_next. rewrite load_Ret by lia. cbn [obind]. by rewrite G1.
Qed.

Lemma find_loop_Ret size (Hs : 0 < size) suf : forall s pre pv fuel, heap_at lo s (pre ++ suf) -> (length suf < fuel)%nat ->
  let a := lo + spans pre in
  match first_fit suf size with
  | Some (p2, c, post) => exists m',
      find_loop lo fuel (head_of a NULL suf) pv size s = Ret ((Some (a + spans p2 + 16), last_of a p2 pv), set_mem s m') /\
      taken (m_mem s) m' (a + spans p2) c post size
  | None => find_loop lo fuel (head_of a NULL suf) pv size s = Ret ((None, last_of a suf pv), s)
  end.
Proof.
  induction suf as [|c suf IH]; intros s pre pv fuel H HF a; (destruct fuel as [|fuel]; [cbn in HF; lia|]);
    cbn [first_fit head_of last_of]; [done|].
  pose proof (find_loop_S s pre c suf pv fuel size H) as EF. cbv zeta in EF. fold a in EF. rewrite EF. destruct (heap_suffix s pre c suf H) as (L & S & B & T & G & B2).
  fold a in L, B, G, B2. destruct (c_free c && (size <=? c_size c)) eqn:E.
  - apply andb_true_iff in E as [_ E]. destruct (take_block_Ret s a c suf size) as (m' & ET & TK).
    { split; [done|done|done|done|lia]. }
    exists m'. unfold bind. rewrite ET. cbn [obind spans last_of]. rewrite Z.add_0_r. done.
  - assert (a + span c = lo + spans (pre ++ [c])) as EA by (rewrite spans_app; cbn [spans]; unfold a; lia).
    specialize (IH s (pre ++ [c]) a fuel). rewrite <- app_assoc in IH. specialize (IH H ltac:(cbn in HF; lia)).
    cbv zeta in IH. rewrite <- EA in IH. destruct (first_fit suf size) as [[[p2 d] post]|]; [|exact IH].
    destruct IH as (m' & E1 & TK). exists m'. cbn [spans last_of]. rewrite !(Z.add_assoc a). done.
Qed.

Lemma taken_malloced s m' pre c post size : heap_at lo s (pre ++ c :: post) -> c_free c = true -> 0 < size <= c_size c ->
  taken (m_mem s) m' (lo + spans pre) c post size ->
  malloced lo s (set_mem s m') (pre ++ c :: post) (pre ++ split_chunk c size ++ post) (lo + spans pre + 16) size.
Proof.
  intros H CF Hz [T1 T2 T3 T4]. destruct (heap_suffix s pre c post H) as (L & S & B & T & G & B2).
  destruct H as [H1 H2 H3 H4 H5 H6]. set (p := lo + spans pre) in *. apply Forall_app in H4 as [H4 H7].
  apply Forall_cons in H7 as [H7 H8]. destruct (split_chunk_ok c size ltac:(lia)) as [P1 P2].
  pose proof (links_range pre H4 lo) as RP. pose proof (links_range post H8 (p + span c)) as RQ. fold p in RP.
  assert (exists d k, split_chunk c size = mk_chunk d false :: k /\ size <= d) as (d & k & ES & Hd).
  { unfold split_chunk. destruct (16 <=? c_size c - size); eexists _, _; (split; [reflexivity|lia]). }
  assert (forall x, in_data (p + span c) post x -> in_data p (split_chunk c size ++ post) x) as DP.
  { intros x Hx. apply in_data_app. right. by rewrite P1. }
  split.
  - split; cbn [set_mem m_mem header m_break].
    + done.
    + rewrite H2. destruct pre; [by rewrite ES|done].
    + apply seg_app. fold p. split; [|exact T1]. apply seg_app in H3 as [H3 _]. rewrite ES. revert H3. apply seg_ext.
      intros x Hx. apply T4. left. specialize (RP x ltac:(tauto)). lia.
    + apply Forall_app_2; [done|]. by apply Forall_app_2.
    + rewrite H5, !spans_app, P1. cbn [spans]. lia.
    + done.
  - rewrite (prevs_app _ pre lo (c :: post)), (prevs_app _ pre lo (split_chunk c size ++ post)). fold p. intros [Q1 Q2]. split; [|by apply T2]. revert Q1. apply prevs_ext.
    intros x Hx. apply T4. left. specialize (RP x ltac:(tauto)). lia.
  - intros x Hx. split; [by apply T3|]. rewrite (in_data_app pre lo (c :: post)), (in_data_app pre lo (split_chunk c size ++ post)). fold p. split.
    + right. rewrite ES. cbn [app in_data c_free]. left. split; [done|]. unfold span. cbn [c_size]. lia.
    + cbn [in_data]. rewrite CF. unfold span in *. intros [Hx'|[[? _]|Hx']]; [specialize (RP x ltac:(tauto)); lia|done|].
      specialize (RQ x ltac:(tauto)). lia.
  - intros x. rewrite in_data_app. fold p. cbn [in_data]. rewrite CF. intros [Hx|[[? _]|Hx]]; [|done|].
    + split; [|apply in_data_app; by left]. apply T4. left. specialize (RP x ltac:(tauto)). lia.
    + split; [|apply in_data_app; right; by apply DP]. apply T4. right. specialize (RQ x ltac:(tauto)). split; [lia|].
      intros Hp. by apply (prevs_apart post H8 (p + span c) x Hp).
Qed.
End Malloc.

(** Linking the last chunk to [nx']. *)
Lemma seg_relink m l : forall a pv nx nx', l <> [] -> sizes_ok l -> in_u32 nx' -> seg m a l nx ->
  let q := last_of a l pv in
  seg (set_word m (q + 4) nx') a l nx' /\ a <= q /\ q + 16 <= a + spans l /\
  forall x, q + 4 <= x < q + 8 -> in_links a l x.
Proof.
  induction l as [|c l IH]; intros a pv nx nx' N S U G q; [done|]. apply Forall_cons in S as [S1 S2].
  destruct G as [[G1 G2 G3] G4]. pose proof (spans_nonneg l S2). unfold q. cbn [last_of spans seg in_links].
  destruct l as [|d l].
  - cbn [last_of head_of spans seg in_links]. unfold span. split; [|split; [lia|split; [lia|left; lia]]]. split; [|done].
    split; [by read_memory|read_memory; exact G2|read_memory; exact G3].
  - destruct (IH (a + span c) a nx nx') as (I1 & I2 & I3 & I4); [done|done|done|done|]. unfold span in *.
    split; [|split; [lia|split; [lia|intros x Hx; right; by apply I4]]]. split; [|exact I1].
    split; [read_memory; exact G1|read_memory; exact G2|read_memory; exact G3].
Qed.

Lemma last_of_zero l : forall a pv, 0 < a -> sizes_ok l -> l <> [] -> (last_of a l pv =? NULL) = false.
Proof.
  induction l as [|c l IH]; intros a pv Ha S N; [done|]. apply Forall_cons in S as [S1 S2]. cbn [last_of].
  destruct l as [|d l]; [cbn [last_of]; unfold NULL; lia|]. apply IH; [unfold span; lia|done|done].
Qed.

Section Extend.
Context (lo : Z) (s : mm) (l : list chunk) (size : Z) (H : heap_at lo s l) (Hs : 0 < size).
Context (Hb : m_break s + 16 + size < 2 ^ 31).
Let cur := m_break s.
Let prev := last_of lo l NULL.
Let s1 := mk_mm (m_mem s) (header s) (m_break s + (16 + size)).

(** The new chunk is linked after the last one. *)
Lemma link_last : exists m' h, h = lo /\
  (if prev =? NULL then modify (fun s => mk_mm (m_mem s) cur (m_break s)) else set_next lo prev cur) s1 =
    Ret (tt, mk_mm m' h (m_break s1)) /\ seg m' lo l (head_of cur NULL [mk_chunk size false]) /\
  (forall x, (lo <= x < cur /\ ~ in_links lo l x) \/ cur <= x -> m' x = m_mem s x).
Proof.
  destruct H as [H1 H2 H3 H4 H5 H6]. pose proof (spans_nonneg l H4). unfold prev, cur in *. destruct l as [|c k].
  - exists (m_mem s), lo. cbn [last_of Z.eqb NULL spans] in *. unfold modify. split; [done|]. split; [|split; [exact I|done]].
    by rewrite H5, Z.add_0_r.
  - rewrite last_of_zero by (lia || done).
    destruct (seg_relink (m_mem s) (c :: k) lo NULL NULL (m_break s)) as (R1 & R2 & R3 & R4); [done|done|lia|done|].
    set (q := last_of lo (c :: k) NULL) in *. exists (set_word (m_mem s) (q + 4) (m_break s)), lo. split; [done|].
    split; [|split; [exact R1|]].
    + unfold set_next. rewrite store_Ret by (cbn [s1 m_break]; lia). cbn [head_of] in H2. rewrite <- H2. done.
    + intros x Hx. apply set_word_other. intros Hq. destruct Hx as [[_ Hx]|Hx]; [by apply Hx, R4; lia|lia].
Qed.

Lemma extend_Ret : exists s', (let! _ := if prev =? NULL then modify (fun s => mk_mm (m_mem s) cur (m_break s)) else set_next lo prev cur in
    let! _ := set_prev lo cur prev in
    let! _ := set_next lo cur NULL in
    let! _ := set_free lo cur false in
    let! _ := set_size lo cur size in
    let! _ := clear lo (contents cur) size in
    ret (contents cur)) s1 = Ret (cur + 16, s') /\
  malloced lo s s' l (l ++ [mk_chunk size false]) (cur + 16) size.
Proof.
  destruct link_last as (m1 & h & -> & E1 & G & O). unfold bind at 1. rewrite E1. cbn [obind].
  destruct H as [H1 H2 H3 H4 H5 H6]. pose proof (spans_nonneg l H4) as SN. pose proof (links_range l H4 lo) as RL.
  assert (prev = 0 \/ 0 < prev < 2 ^ 31) as Hp.
  { unfold prev. destruct l as [|c k]; [by left|right].
    destruct (seg_relink (m_mem s) (c :: k) lo NULL NULL 0) as (_ & R2 & R3 & _); [done|done|lia|done|]. lia. }
  assert (cur = lo + spans l) as Ec by done. unfold set_prev, set_next, set_size, contents. unfold s1 in *. cbn [m_break] in *.
  mm_step. mm_step. mm_step. mm_step. mm_step.
  unfold ret. eexists. split; [reflexivity|]. match goal with |- malloced _ _ (set_mem _ ?m) _ _ _ _ => set (m' := m) end.
  assert (forall x, x < cur -> m' x = m1 x) as OT by (intros x Hx; unfold m'; by read_memory).
  split; cbn [set_mem m_mem].
  - split; cbn [set_mem m_mem header m_break].
    + done.
    + by destruct l.
    + apply seg_app. split.
      * rewrite <- Ec. revert G. apply seg_ext. intros x Hx. apply OT. specialize (RL x ltac:(tauto)). lia.
      * rewrite <- Ec. cbn [seg head_of]. split; [|done].
        split; [unfold m'; by read_memory|unfold m'; by read_memory|unfold m'; by read_memory].
    + apply Forall_app_2; [done|]. repeat constructor. cbn [c_size]. lia.
    + rewrite spans_app. cbn [spans]. unfold span. cbn [c_size]. fold cur. lia.
    + fold cur in Hb. lia.
  - rewrite prevs_app. intros P. split.
    + revert P. apply prevs_ext. intros x Hx. specialize (RL x ltac:(tauto)). rewrite OT by lia. apply O. left.
      split; [lia|]. intros Hl. by apply (proj1 (links_apart l H4 lo x Hl)).
    + rewrite <- Ec. cbn [prevs]. split; [|done]. unfold m'. read_memory. done.
  - intros x Hx. split; [unfold m', memset; by replace ((cur + 16 <=? x) && (x <? cur + 16 + size)) with true by lia|].
    split; [|intros Hd; specialize (RL x ltac:(tauto)); lia].
    apply in_data_app. right. rewrite <- Ec. cbn [in_data c_free]. unfold span. cbn [c_size]. left. split; [done|lia].
  - intros x Hx. pose proof (RL x ltac:(tauto)). split; [|apply in_data_app; by left]. rewrite OT by lia. apply O. left.
    split; [lia|]. intros Hl. by apply (proj2 (links_apart l H4 lo x Hl)).
Qed.
End Extend.

Lemma heap_fuel_enough lo s l : heap_at lo s l -> (length l < heap_fuel lo s)%nat.
Proof.
  intros [H1 H2 H3 H4 H5 H6]. pose proof (spans_nonneg l H4). unfold heap_fuel, metasize.
  assert (Z.of_nat (length l) <= (m_break s - lo) / 16) by (apply Z.div_le_lower_bound; lia). lia.
Qed.

Lemma mm_malloc_Ret lo grants s l size : heap_at lo s l -> 0 < size -> size + 16 < 2 ^ 31 ->
  (forall b n, grants b n = true -> b + n < 2 ^ 31) ->
  match first_fit l size with
  | Some (pre, c, post) => exists s', mm_malloc lo grants size s = Ret (lo + spans pre + 16, s') /\
      malloced lo s s' l (pre ++ split_chunk c size ++ post) (lo + spans pre + 16) size
  | None =>
      if grants (m_break s) (16 + size) then exists s', mm_malloc lo grants size s = Ret (m_break s + 16, s') /\
        malloced lo s s' l (l ++ [mk_chunk size false]) (m_break s + 16) size
      else mm_malloc lo grants size s = Ret (NULL, s)
  end.
Proof.
  intros H Hs Hb GR. pose proof (find_loop_Ret lo size Hs l s [] NULL (heap_fuel lo s) H (heap_fuel_enough lo s l H)) as FL.
  cbv zeta in FL. cbn [spans] in FL. rewrite Z.add_0_r in FL. pose proof H as [H1 H2 H3 H4 H5 H6].
  pose proof (spans_nonneg l H4) as SN. remember (mm_malloc lo grants size s) as r eqn:Er.
  unfold mm_malloc in Er. replace (size =? 0) with false in Er by lia. unfold bind at 1, gets in Er. cbn [obind] in Er.
  rewrite H2 in Er. destruct (first_fit l size) as [[[pre c] post]|] eqn:FF.
  - destruct FL as (m' & E & T). unfold bind in Er. rewrite E in Er. cbn [obind] in Er. rewrite Er.
    destruct (first_fit_Some l size pre c post FF) as (-> & CF & CS). eexists. split; [reflexivity|].
    apply taken_malloced; try done; lia.
  - unfold bind at 1 in Er. rewrite FL in Er. cbn [obind] in Er. unfold bind at 1, sbrk in Er. unfold metasize in Er.
    rewrite u32_small, s32_small in Er by lia. destruct (grants (m_break s) (16 + size)) eqn:EG; cbn [obind] in Er.
    + specialize (GR _ _ EG). rewrite (proj2 (Z.eqb_neq (m_break s) (u32 (-1)))) in Er by (change (u32 (-1)) with 4294967295; lia).
      destruct (extend_Ret lo s l size H Hs ltac:(lia)) as (s' & E & M). exists s'. split; [|exact M]. rewrite Er. exact E.
    + rewrite Z.eqb_refl in Er. exact Er.
Qed.

(** * Freeing *)

Abbreviation all_free := (Forall (fun c => c_free c = true)).
Definition starts_used (l : list chunk) : Prop := match l with [] => True | c :: _ => c_free c = false end.
Definition ends_used (l : list chunk) : Prop := forall k c, l = k ++ [c] -> c_free c = false.

Section Free.
Context (lo : Z) (s : mm) (Hlo : 0 < lo).

(** The forward loop, [n] being the size that the block at [p] has by now. *)
Lemma forward_Ret p fr : forall m n q fuel rest, lo <= p -> q = p + 16 + n -> 0 <= n -> sizes_ok (fr ++ rest) ->
  q + spans (fr ++ rest) = m_break s -> m_break s < 2 ^ 31 -> all_free fr -> starts_used rest ->
  seg m q (fr ++ rest) NULL -> mem_word m (p + 12) = n -> (length fr < fuel)%nat ->
  exists m', forward_loop lo fuel p (head_of q NULL (fr ++ rest)) (set_mem s m) =
    Ret (head_of (q + spans fr) NULL rest, set_mem s m') /\
    mem_word m' (p + 12) = n + spans fr /\ forall x, ~ (p + 12 <= x < p + 16) -> m' x = m x.
Proof.
  induction fr as [|c fr IH]; intros m n q fuel rest Hp Hq Hn S B T F U G W HF; (destruct fuel as [|fuel]; [cbn in HF; lia|]);
    cbn [forward_loop spans].
  - cbn [app spans] in *. rewrite !Z.add_0_r. exists m. split; [|done]. destruct rest as [|d rest]; [done|].
    apply Forall_cons in S as [S1 S2]. pose proof (spans_nonneg rest S2). destruct G as [[G1 G2 G3] G4].
    cbn [head_of spans] in *. unfold span in *. replace (q =? NULL) with false by (unfold NULL; lia).
    unfold bind at 1. rewrite get_free_Ret by (cbn [set_mem m_break]; lia). cbn [obind set_mem m_mem]. rewrite G2, U. done.
  - change ((c :: fr) ++ rest) with (c :: (fr ++ rest)) in *. apply Forall_cons in S as [S1 S2]. apply Forall_cons in F as [F1 F2].
    pose proof (spans_nonneg _ S2). cbn [seg spans] in *. destruct G as [[G1 G2 G3] G4]. cbn [head_of]. unfold span in *. replace (q =? NULL) with false by (unfold NULL; lia).
    unfold bind at 1. rewrite get_free_Ret by (cbn [set_mem m_break]; lia). cbn [obind set_mem m_mem]. rewrite G2, F1.
    unfold get_size, set_size, get_next. mm_step. rewrite W. mm_step. rewrite G3. mm_step. rewrite u32_small by (unfold metasize; lia).
    mm_step. replace (mem_word _ (q + 4)) with (head_of (q + (16 + c_size c)) NULL (fr ++ rest)) by (by read_memory).
    unfold metasize. set (m1 := set_word m (p + 12) (n + 16 + c_size c)).
    destruct (IH m1 (n + 16 + c_size c) (q + (16 + c_size c)) fuel rest) as (m' & E & W' & O); try (done || lia).
    + revert G4. apply seg_ext. intros x Hx. pose proof (links_range _ S2 (q + (16 + c_size c)) x ltac:(tauto)). unfold m1. by read_memory.
    + unfold m1. by read_memory.
    + cbn in HF. lia.
    + exists m'. change (set_mem (set_mem s m) m1) with (set_mem s m1). rewrite E. split; [do 2 f_equal; f_equal; lia|].
      split; [rewrite W'; lia|]. intros x Hx. rewrite O by done. unfold m1. by read_memory.
Qed.

Lemma last_of_snoc l : forall a d pv, last_of a (l ++ [d]) pv = a + spans l.
Proof. induction l as [|c l IH]; intros a d pv; cbn [app last_of spans]; [lia|]. rewrite IH. lia. Qed.

(** The last chunk of [k ++ [d]]. *)
Lemma last_chunk m k d nx : sizes_ok (k ++ [d]) -> seg m lo (k ++ [d]) nx -> prevs m lo (k ++ [d]) NULL ->
  let b := lo + spans k in sizes_ok k /\ 0 <= c_size d /\ 0 <= spans k /\ negb (m (b + 8) =? 0) = c_free d /\
  mem_word m (b + 12) = c_size d /\ mem_word m b = last_of lo k NULL /\ seg m lo k b /\ prevs m lo k NULL.
Proof.
  intros S G P b. apply Forall_app in S as [S1 S2]. apply Forall_cons in S2 as [S2 _]. apply seg_app in G as [G1 [[G2 G3 G4] _]].
  apply prevs_app in P as [P1 [P2 _]]. pose proof (spans_nonneg k S1). fold b in G2, G3, G4, P2. split_and!; (done || lia).
Qed.

Lemma backward_stops m p bk nx fuel : sizes_ok bk -> ends_used bk -> seg m lo bk nx -> prevs m lo bk NULL ->
  let a := lo + spans bk in a + 16 <= m_break s -> mem_word m a = last_of lo bk NULL ->
  backward_loop lo (S fuel) p a (set_mem s m) = Ret (a, set_mem s m).
Proof.
  intros S U G P a B W. pose proof (spans_nonneg bk S). cbn [backward_loop]. unfold get_prev. mm_step. rewrite W.
  destruct bk as [|d k _] using rev_ind; [done|]. destruct (last_chunk m k d nx S G P) as (S1 & S2 & S3 & F & _).
  rewrite last_of_snoc. assert (a = lo + spans k + 16 + c_size d) as Ea by (unfold a; rewrite spans_app; cbn [spans]; unfold span; lia).
  replace (lo + spans k =? NULL) with false by (unfold NULL; lia). unfold bind at 1.
  rewrite get_free_Ret by (cbn [set_mem m_break]; lia). cbn [obind set_mem m_mem]. by rewrite F, (U k d eq_refl).
Qed.

Lemma backward_Ret p bk (U : ends_used bk) br : forall m n fuel nx, sizes_ok (bk ++ br) -> let a := lo + spans (bk ++ br) in
  a <= p -> p + 16 <= m_break s -> all_free br -> seg m lo (bk ++ br) nx -> prevs m lo (bk ++ br) NULL ->
  mem_word m a = last_of lo (bk ++ br) NULL -> mem_word m (p + 12) = n -> 0 <= n -> n + spans br < 2 ^ 31 ->
  (length br < fuel)%nat ->
  exists m', backward_loop lo fuel p a (set_mem s m) = Ret (lo + spans bk, set_mem s m') /\
    mem_word m' (p + 12) = n + spans br /\ forall x, ~ (p + 12 <= x < p + 16) -> m' x = m x.
Proof.
  induction br as [|d br IH] using rev_ind; intros m n fuel nx S a Ha Hp F G P W Wn Hn Hb HF; (destruct fuel as [|fuel]; [cbn in HF; lia|]).
  - subst a. rewrite app_nil_r in *. exists m. cbn [spans]. rewrite Z.add_0_r. split; [|done].
    apply (backward_stops m p bk nx fuel); (done || lia).
  - rewrite app_assoc in S, G, P, W. destruct (last_chunk m (bk ++ br) d nx S G P) as (S1 & S2 & S3 & Fd & Sd & Pd & Gk & Pk).
    set (b := lo + spans (bk ++ br)) in *. assert (a = b + span d) as Ea.
    { unfold a, b. rewrite app_assoc, spans_app. cbn [spans]. lia. }
    apply Forall_app in F as [F1 F2]. apply Forall_cons in F2 as [F2 _]. rewrite spans_app in Hb |- *. cbn [spans] in Hb |- *. unfold span in *.
    apply Forall_app in S1 as [S4 S5]. pose proof (spans_nonneg br S5). rewrite last_of_snoc in W. fold b in W. cbn [backward_loop].
    unfold get_prev, get_size, set_size. mm_step. rewrite W. replace (b =? NULL) with false by (unfold NULL, b; lia).
    unfold bind at 1. rewrite get_free_Ret by (cbn [set_mem m_break]; unfold b in *; lia). cbn [obind set_mem m_mem]. rewrite Fd, F2.
    mm_step. rewrite Wn. mm_step. rewrite W. mm_step. rewrite Sd. mm_step. rewrite u32_small by (unfold metasize; lia).
    mm_step. replace (mem_word _ a) with b by (by read_memory). unfold metasize. set (m1 := set_word m (p + 12) (n + 16 + c_size d)).
    assert (forall x, x < p + 12 -> m1 x = m x) as O1 by (intros x Hx; unfold m1; by read_memory).
    assert (sizes_ok (bk ++ br)) as S6 by (by apply Forall_app_2).
    pose proof (links_range (bk ++ br) S6 lo) as R. fold b in R.
    destruct (IH m1 (n + 16 + c_size d) fuel b S6) as (m' & E & W' & O); fold b; try (done || lia).
    + revert Gk. apply seg_ext. intros x Hx. apply O1. specialize (R x ltac:(tauto)). lia.
    + revert Pk. apply prevs_ext. intros x Hx. apply O1. specialize (R x ltac:(tauto)). lia.
    + rewrite <- Pd. apply mem_word_ext. intros i Hi. apply O1. lia.
    + unfold m1. by read_memory.
    + rewrite length_app in HF. cbn in HF. lia.
    + exists m'. change (set_mem (set_mem s m) m1) with (set_mem s m1). fold b in E. rewrite E. split; [done|].
      split; [rewrite W'; lia|]. intros x Hx. rewrite O by done. unfold m1. by read_memory.
Qed.
End Free.

Section Coalesce.
Context (lo : Z) (s : mm) (bk br : list chunk) (c : chunk) (fr rest : list chunk).
Context (H : heap_at lo s (bk ++ br ++ c :: fr ++ rest)) (PV : prevs (m_mem s) lo (bk ++ br ++ c :: fr ++ rest) NULL).
Context (Fc : c_free c = true) (Fb : all_free br) (Ff : all_free fr) (Ub : ends_used bk) (Ur : starts_used rest).
Let b := lo + spans bk.
Let p := lo + spans (bk ++ br).

(** The chunk that replaces [br], [c] and [fr]. *)
Definition merged : chunk := mk_chunk (spans br + c_size c + spans fr) true.

Lemma coalesce_sizes : sizes_ok bk /\ sizes_ok br /\ 0 <= c_size c /\ sizes_ok fr /\ sizes_ok rest.
Proof. pose proof (ha_sizes _ _ _ H) as S. rewrite !Forall_app, Forall_cons, Forall_app in S. tauto. Qed.

Lemma coalesce_places : 0 < lo <= b /\ p = b + spans br /\ 0 <= spans br /\ 0 <= spans fr /\ 0 <= spans rest /\
  p + span c + spans (fr ++ rest) = m_break s /\ m_break s < 2 ^ 31.
Proof.
  destruct coalesce_sizes as (S1 & S2 & S3 & S4 & S5). destruct H as [H1 _ _ _ H5 H6].
  pose proof (spans_nonneg bk S1). pose proof (spans_nonneg br S2). pose proof (spans_nonneg fr S4). pose proof (spans_nonneg rest S5).
  rewrite !spans_app in H5. cbn [spans] in H5. rewrite spans_app in H5. unfold p, b. rewrite !spans_app. split_and!; lia.
Qed.

Lemma coalesce_words : seg (m_mem s) lo (bk ++ br) p /\ block_at (m_mem s) p c (head_of (p + span c) NULL (fr ++ rest)) /\
  seg (m_mem s) (p + span c) (fr ++ rest) NULL /\ prevs (m_mem s) lo (bk ++ br) NULL /\
  mem_word (m_mem s) p = last_of lo (bk ++ br) NULL /\ prevs (m_mem s) (p + span c) (fr ++ rest) p.
Proof.
  pose proof (ha_seg _ _ _ H) as G. rewrite app_assoc, seg_app in G. destruct G as [G1 [G2 G3]].
  pose proof PV as P. rewrite app_assoc, prevs_app in P. destruct P as [P1 [P2 P3]]. done.
Qed.

(** The memory after both loops. *)
Lemma coalesce_loops fuel : (length fr < fuel)%nat -> (length br < fuel)%nat -> exists m',
  coalesce lo fuel p s = (let! _ := set_size lo b (spans br + c_size c + spans fr) in
    let! next := get_next lo p in set_next lo b next) (set_mem s m') /\
  mem_word m' (p + 4) = head_of (p + span c + spans fr) NULL rest /\
  mem_word m' (p + 12) = spans br + c_size c + spans fr /\
  forall x, ~ (p + 4 <= x < p + 8) -> ~ (p + 12 <= x < p + 16) -> m' x = m_mem s x.
Proof.
  intros Hf Hb. destruct coalesce_sizes as (S1 & S2 & S3 & S4 & S5). destruct coalesce_places as (L & Ep & B1 & B2 & B3 & B & T).
  destruct coalesce_words as (G1 & [W1 W2 W3] & G3 & P1 & P2 & P3). assert (sizes_ok (fr ++ rest)) as S6 by (by apply Forall_app_2).
  assert (sizes_ok (bk ++ br)) as S7 by (by apply Forall_app_2). rewrite spans_app in B. unfold span in *.
  unfold coalesce. unfold bind at 1, get_next at 1. rewrite load_Ret by lia. cbn [obind]. rewrite W1.
  destruct (forward_Ret lo s ltac:(lia) p fr (m_mem s) (c_size c) (p + (16 + c_size c)) fuel rest) as (m1 & E1 & N1 & O1);
    try (done || lia); [rewrite spans_app; lia|].
  assert (set_mem s (m_mem s) = s) as Es by (by destruct s). rewrite Es in E1. unfold bind at 1. rewrite E1. cbn [obind].
  set (N := head_of (p + (16 + c_size c) + spans fr) NULL rest) in *.
  assert (0 <= N < 2 ^ 31) as HN by (unfold N; destruct rest; cbn [head_of]; unfold NULL; lia).
  unfold set_next at 1. mm_step. set (m2 := set_word m1 (p + 4) N).
  assert (forall x, x < p + 4 -> m2 x = m_mem s x) as O2.
  { intros x Hx. unfold m2. read_memory. apply O1. lia. }
  pose proof (links_range (bk ++ br) S7 lo) as R. fold p in R.
  destruct (backward_Ret lo s ltac:(lia) p bk Ub br m2 (c_size c + spans fr) fuel p S7) as (m3 & E3 & N3 & O3); fold p; try (done || lia).
  { revert G1. apply seg_ext. intros x Hx. apply O2. specialize (R x ltac:(tauto)). lia. }
  { revert P1. apply prevs_ext. intros x Hx. apply O2. specialize (R x ltac:(tauto)). lia. }
  { rewrite <- P2. apply mem_word_ext. intros i Hi. apply O2. lia. }
  { unfold m2. read_memory. lia. }
  change (set_mem (set_mem s m1) m2) with (set_mem s m2). fold p in E3. unfold bind at 1. rewrite E3. cbn [obind]. fold b.
  assert (mem_word m3 (p + 12) = spans br + c_size c + spans fr) as N4 by lia. unfold get_size. mm_step. rewrite N4.
  exists m3. split; [done|]. split; [|split; [done|]].
  - rewrite (mem_word_ext m2 m3) by (intros i Hi; apply O3; lia). unfold m2. read_memory. done.
  - intros x Hx1 Hx2. rewrite O3 by done. unfold m2. read_memory. by apply O1.
Qed.

Lemma spans_zero l : sizes_ok l -> l = [] \/ 16 <= spans l.
Proof. intros S. pose proof (spans_nonneg l S). destruct l; [by left|right]. cbn [length] in *. lia. Qed.

Lemma first_free : negb (m_mem s (b + 8) =? 0) = true.
Proof.
  pose proof (ha_seg _ _ _ H) as G. apply seg_app in G as [_ G]. fold b in G. destruct br as [|d k].
  - cbn [app seg] in G. destruct G as [[_ G _] _]. by rewrite G.
  - cbn [app seg] in G. destruct G as [[_ G _] _]. apply Forall_cons in Fb as [Fd _]. by rewrite G.
Qed.

Lemma coalesce_Ret fuel : (length fr < fuel)%nat -> (length br < fuel)%nat -> exists m',
  coalesce lo fuel p s = Ret (tt, set_mem s m') /\
  heap_at lo (set_mem s m') (bk ++ merged :: rest) /\
  ((fr = [] /\ br = []) \/ rest = [] -> prevs m' lo (bk ++ merged :: rest) NULL) /\
  forall x, ~ (p + 4 <= x < p + 16) -> ~ (b + 4 <= x < b + 8) -> ~ (b + 12 <= x < b + 16) -> m' x = m_mem s x.
Proof.
  intros Hf Hb. destruct (coalesce_loops fuel Hf Hb) as (m1 & E & N1 & Z1 & O1).
  destruct coalesce_sizes as (S1 & S2 & S3 & S4 & S5). destruct coalesce_places as (L & Ep & B1 & B2 & B3 & B & T).
  destruct coalesce_words as (G1 & [W1 W2 W3] & G3 & P1 & P2 & P3). pose proof (spans_zero br S2) as SZ.
  rewrite spans_app in B. set (N := head_of (p + span c + spans fr) NULL rest) in *.
  assert (0 <= N < 2 ^ 31) as HN by (unfold N, span in *; destruct rest; cbn [head_of]; unfold NULL; lia).
  assert (b = p \/ b + 16 <= p) as Hbp by (destruct SZ as [->|?]; [left; cbn in Ep|right]; lia).
  unfold set_size, get_next, set_next in E. unfold span in *.
  unfold bind at 1 in E. rewrite store_Ret in E by (cbn [set_mem m_break]; lia). cbn [obind set_mem m_mem] in E.
  unfold bind at 1 in E. rewrite load_Ret in E by (cbn [set_mem m_break]; lia). cbn [obind set_mem m_mem] in E.
  rewrite (mem_word_set_other m1 (b + 12) (p + 4)), N1 in E by lia.
  rewrite store_Ret in E by (cbn [set_mem m_break]; lia). cbn [set_mem m_mem] in E.
  set (sz := spans br + c_size c + spans fr) in *. set (m' := set_word (set_word m1 (b + 12) sz) (b + 4) N) in *.
  assert (forall x, ~ (p + 4 <= x < p + 16) -> ~ (b + 4 <= x < b + 8) -> ~ (b + 12 <= x < b + 16) -> m' x = m_mem s x) as O.
  { intros x X1 X2 X3. unfold m'. read_memory. apply O1; lia. }
  exists m'. split; [exact E|]. assert (p + (16 + c_size c) + spans fr = b + span merged) as Em by (unfold span, merged; cbn [c_size]; lia).
  pose proof (links_range bk S1 lo) as R1. fold b in R1. pose proof (links_range rest S5 (b + span merged)) as R2.
  assert (b + span merged = b + 16 + sz) as Em2 by (unfold span, merged, sz; cbn [c_size]; lia).
  split; [|split; [|exact O]].
  - split; cbn [set_mem m_mem header m_break].
    + lia.
    + rewrite (ha_header _ _ _ H). destruct bk; [|done]. by destruct br.
    + apply seg_app. fold b. split; [|cbn [seg]; split; [split|]].
      * apply seg_app in G1 as [G1 _]. fold b in G1. replace (head_of b p br) with b in G1 by (destruct br; [cbn in *; lia|done]).
        cbn [head_of]. revert G1. apply seg_ext. intros x Hx. specialize (R1 x ltac:(tauto)). apply O; lia.
      * rewrite <- Em. fold N. unfold m'. by read_memory.
      * change (c_free merged) with true. rewrite <- first_free. unfold m'. read_memory. rewrite O1 by lia. done.
      * unfold m'. read_memory. done.
      * rewrite seg_app in G3. destruct G3 as [_ G3]. rewrite Em in G3. revert G3. apply seg_ext.
        intros x Hx. specialize (R2 x ltac:(tauto)). apply O; lia.
    + apply Forall_app_2; [done|]. apply Forall_cons. split; [cbn [merged c_size]; lia|done].
    + rewrite (ha_break _ _ _ H), !spans_app. cbn [spans]. rewrite spans_app. unfold span, merged. cbn [c_size]. lia.
    + done.
  - intros Hc. apply prevs_app. fold b. pose proof PV as Q. apply prevs_app in Q as [Q1 Q2]. fold b in Q2. split; [|split].
    + revert Q1. apply prevs_ext. intros x Hx. specialize (R1 x ltac:(tauto)). apply O; lia.
    + transitivity (mem_word (m_mem s) b).
      * apply mem_word_ext. intros i Hi. apply O; lia.
      * destruct br; cbn [app prevs] in Q2; apply Q2.
    + destruct Hc as [[Efr Ebr]| ->]; [|done]. rewrite Efr, Ebr in *. cbn [app spans] in *.
      replace (b + span merged) with (p + (16 + c_size c)) by lia. replace b with p by lia. revert P3. apply prevs_ext.
      intros x Hx. rewrite <- Em in R2. specialize (R2 x). rewrite Z.add_0_r in R2. specialize (R2 ltac:(tauto)). apply O; lia.
Qed.
End Coalesce.

(** The search for the block whose contents are at [ptr]. *)
Lemma free_loop_Ret lo s c suf fuel' d2 : forall d1 fuel, heap_at lo s ((d1 ++ d2) ++ c :: suf) -> c_free c = false ->
  (length d2 < fuel)%nat -> let p := lo + spans (d1 ++ d2) in
  free_loop lo fuel fuel' (lo + spans d1) (p + 16) s = (let! _ := set_free lo p true in coalesce lo fuel' p) s.
Proof.
  induction d2 as [|d d2 IH]; intros d1 fuel H Fc HF p; (destruct fuel as [|fuel]; [cbn in HF; lia|]); cbn [free_loop].
  - subst p. rewrite !app_nil_r in *. destruct (heap_suffix lo s d1 c suf H) as (L & S & B & T & [[G1 G2 G3] _] & B2).
    set (p := lo + spans d1) in *. replace (p =? NULL) with false by (unfold NULL; lia). unfold bind at 1.
    rewrite get_free_Ret by lia. cbn [obind]. unfold contents. rewrite G2, Fc, Z.eqb_refl. done.
  - rewrite <- app_assoc in H. cbn [app] in H. destruct (heap_suffix lo s d1 d (d2 ++ c :: suf) H) as (L & S & B & T & [[G1 G2 G3] _] & B2).
    set (q := lo + spans d1) in *. replace (q =? NULL) with false by (unfold NULL; lia). unfold bind at 1.
    rewrite get_free_Ret by lia. cbn [obind]. unfold contents. apply Forall_cons in S as [S1 S2]. apply Forall_app in S2 as [S2 _].
    pose proof (spans_nonneg d2 S2). assert (p = q + span d + spans d2) as Ep by (unfold p, q; rewrite spans_app; cbn [spans]; lia).
    unfold span in *. replace (q + 16 =? p + 16) with false by lia. rewrite andb_false_r. unfold bind at 1, get_next.
    rewrite load_Ret by lia. cbn [obind]. rewrite G1. unfold p. replace (d1 ++ d :: d2) with ((d1 ++ [d]) ++ d2) by (by rewrite <- app_assoc).
    rewrite <- (IH (d1 ++ [d]) fuel); [|by rewrite <- !app_assoc|done|cbn in HF; lia].
    rewrite (spans_app d1 [d]). cbn [spans]. replace (q + (16 + c_size d)) with (lo + (spans d1 + (span d + 0))) by (unfold q, span; lia).
    by destruct d2.
Qed.

(** Marking the chunk as free. *)
Lemma marked_free lo s pre c suf : heap_at lo s (pre ++ c :: suf) -> let p := lo + spans pre in
  let s' := set_mem s (set_byte (m_mem s) (p + 8) 1) in
  set_free lo p true s = Ret (tt, s') /\ heap_at lo s' (pre ++ mk_chunk (c_size c) true :: suf) /\
  (prevs (m_mem s) lo (pre ++ c :: suf) NULL -> prevs (m_mem s') lo (pre ++ mk_chunk (c_size c) true :: suf) NULL).
Proof.
  intros H p s'. destruct (heap_suffix lo s pre c suf H) as (L & S & B & T & G & B2). fold p in L, B, G, B2.
  split; [by rewrite set_free_Ret by lia|]. destruct H as [H1 H2 H3 H4 H5 H6]. apply Forall_app in H4 as [H4 _].
  apply Forall_cons in S as [S1 S2]. pose proof (links_range pre H4 lo) as R1. fold p in R1. pose proof (links_range suf S2 (p + span c)) as R2.
  unfold span in *. split.
  - split; unfold s'; cbn [set_mem m_mem header m_break]; try done.
    + rewrite H2. by destruct pre.
    + apply seg_app. apply seg_app in H3 as [H3 _]. fold p in H3 |- *. split.
      * revert H3. apply seg_ext. intros x Hx. specialize (R1 x ltac:(tauto)). by read_memory.
      * destruct G as [[G1 G2 G3] G4]. cbn [seg]. unfold span. cbn [c_size]. split; [split|].
        -- by read_memory.
        -- by read_memory.
        -- by read_memory.
        -- revert G4. apply seg_ext. intros x Hx. specialize (R2 x ltac:(tauto)). by read_memory.
    + apply Forall_app_2; [done|]. by apply Forall_cons.
    + rewrite H5, !spans_app. done.
  - intros P. apply prevs_app in P as [P1 P2]. apply prevs_app. fold p in P2 |- *. unfold s'. cbn [set_mem m_mem]. split.
    + revert P1. apply prevs_ext. intros x Hx. specialize (R1 x ltac:(tauto)). by read_memory.
    + cbn [prevs] in *. destruct P2 as [P2 P3]. unfold span in *. cbn [c_size]. split; [by read_memory|].
      revert P3. apply prevs_ext. intros x Hx. specialize (R2 x ltac:(tauto)). by read_memory.
Qed.

Lemma mm_free_Ret lo s bk br c fr rest : heap_at lo s (bk ++ br ++ c :: fr ++ rest) ->
  prevs (m_mem s) lo (bk ++ br ++ c :: fr ++ rest) NULL -> c_free c = false -> all_free br -> all_free fr ->
  ends_used bk -> starts_used rest ->
  let b := lo + spans bk in let p := lo + spans (bk ++ br) in let l' := bk ++ merged br c fr :: rest in
  exists m', mm_free lo (p + 16) s = Ret (tt, set_mem s m') /\ heap_at lo (set_mem s m') l' /\
    ((fr = [] /\ br = []) \/ rest = [] -> prevs m' lo l' NULL) /\
    forall x, ~ (p + 4 <= x < p + 16) -> ~ (b + 4 <= x < b + 8) -> ~ (b + 12 <= x < b + 16) -> m' x = m_mem s x.
Proof.
  intros H PV Fc Fb Ff Ub Ur b p l'. pose proof (heap_fuel_enough lo s _ H) as HF. rewrite !length_app in HF. cbn [length] in HF. rewrite length_app in HF.
  rewrite app_assoc in H, PV. destruct (marked_free lo s (bk ++ br) c (fr ++ rest) H) as (E1 & H' & PV'). fold p in E1, H', PV'.
  specialize (PV' PV). set (s1 := set_mem s (set_byte (m_mem s) (p + 8) 1)) in *. rewrite <- app_assoc in H', PV'.
  destruct (coalesce_Ret lo s1 bk br (mk_chunk (c_size c) true) fr rest H' PV' eq_refl Fb Ff Ub Ur (heap_fuel lo s))
    as (m' & E & HA & HP & O); [lia|lia|]. exists m'. split; [|split; [exact HA|split; [exact HP|]]].
  - unfold mm_free. destruct (heap_suffix lo s (bk ++ br) c (fr ++ rest) H) as (L & _). fold p in L.
    replace (p + 16 =? NULL) with false by (unfold NULL; lia). unfold bind at 1, gets. cbn [obind].
    pose proof (free_loop_Ret lo s c (fr ++ rest) (heap_fuel lo s) (bk ++ br) [] (heap_fuel lo s) H Fc) as FL.
    cbv zeta in FL. cbn [spans app] in FL. fold p in FL. rewrite Z.add_0_r in FL. rewrite length_app in FL. specialize (FL ltac:(lia)).
    replace (header s) with lo by (rewrite (ha_header _ _ _ H); by destruct (bk ++ br)). rewrite FL. unfold bind. rewrite E1. exact E.
  - intros x X1 X2 X3. rewrite O by done. unfold s1. cbn [set_mem m_mem]. by read_memory.
Qed.

(** Writing to the contents of allocated chunks does not harm the heap. *)
Lemma heap_write lo s l m' : heap_at lo s l -> (forall x, ~ in_data lo l x -> m' x = m_mem s x) ->
  heap_at lo (set_mem s m') l /\ (prevs (m_mem s) lo l NULL -> prevs m' lo l NULL).
Proof.
  intros [H1 H2 H3 H4 H5 H6] O. split.
  - split; cbn [set_mem m_mem header m_break]; try done. revert H3. apply seg_ext. intros x Hx. apply O. by apply (links_apart l H4 lo x Hx).
  - apply prevs_ext. intros x Hx. apply O. by apply (prevs_apart l H4 lo x Hx).
Qed.

(** The place where a request is met: the new chunks and the address, if there is one. *)
Definition allocation (lo : Z) (grants : Z -> Z -> bool) (s : mm) (l : list chunk) (size : Z) : option (list chunk * Z) :=
  match first_fit l size with
  | Some (pre, c, post) => Some (pre ++ split_chunk c size ++ post, lo + spans pre + 16)
  | None =>
      if grants (m_break s) (16 + size) then Some (l ++ [mk_chunk size false], m_break s + 16) else None
  end.

Lemma mm_malloc_allocation lo grants s l size : heap_at lo s l -> 0 < size -> size + 16 < 2 ^ 31 ->
  (forall b n, grants b n = true -> b + n < 2 ^ 31) ->
  match allocation lo grants s l size with
  | Some (l', r) => exists s', mm_malloc lo grants size s = Ret (r, s') /\ malloced lo s s' l l' r size
  | None => mm_malloc lo grants size s = Ret (NULL, s)
  end.
Proof.
  intros H Hs Hb GR. pose proof (mm_malloc_Ret lo grants s l size H Hs Hb GR) as M. unfold allocation.
  destruct (first_fit l size) as [[[pre c] post]|]; [exact M|]. by destruct (grants _ _).
Qed.

Lemma data_merged lo bk br c fr rest x : sizes_ok (bk ++ br ++ c :: fr ++ rest) -> in_data lo (bk ++ merged br c fr :: rest) x ->
  let b := lo + spans bk in let p := lo + spans (bk ++ br) in
  ~ (p + 4 <= x < p + 16) /\ ~ (b + 4 <= x < b + 8) /\ ~ (b + 12 <= x < b + 16).
Proof.
  rewrite !Forall_app, Forall_cons, Forall_app. intros (S1 & S2 & S3 & S4 & S5) Hx b p. apply in_data_app in Hx.
  pose proof (links_range bk S1 lo x) as R1. pose proof (links_range rest S5 (b + span (merged br c fr)) x) as R2. fold b in R1, Hx.
  pose proof (spans_nonneg br S2). pose proof (spans_nonneg fr S4). assert (p = b + spans br) by (unfold p, b; rewrite spans_app; lia).
  unfold span in R2. cbn [merged c_size] in R2. cbn [in_data merged c_free c_size] in Hx.
  destruct Hx as [Hx|[[? _]|Hx]]; [specialize (R1 ltac:(tauto)); lia|done|specialize (R2 ltac:(tauto)); lia].
Qed.

(** * Properties *)

(** C11. On a heap of linked chunks, a request of less than 2^31 - 16 bytes, where sbrk keeps the break below
    2 GB, is met from the first free chunk that is large enough, the
    rest of which becomes a chunk of its own when there is room for its metadata, or else from fresh
    memory; it fails, with nothing changed, for size 0 and when sbrk refuses.  The bytes returned are
    zero, belong to an allocated chunk and were part of none before; the contents of all allocated
    chunks stay, and the links backwards stay right if they were. *)
Theorem mm_malloc_correct (lo : Z) (grants : Z -> Z -> bool) (s : mm) (l : list chunk) (size : Z) (H : heap_at lo s l)
    (Hs : 0 <= size) (Hb : size + 16 < 2 ^ 31) (GR : forall b n, grants b n = true -> b + n < 2 ^ 31) :
  if size =? 0 then mm_malloc lo grants size s = Ret (NULL, s)
  else
    match allocation lo grants s l size with
    | Some (l', r) => exists s', mm_malloc lo grants size s = Ret (r, s') /\ malloced lo s s' l l' r size
    | None => mm_malloc lo grants size s = Ret (NULL, s)
    end.
Proof.
  destruct (Z.eqb_spec size 0) as [->|N]; [done|]. apply mm_malloc_allocation; [exact H|lia|exact Hb|exact GR].
Qed.

(** C15. Freeing an allocated chunk of a heap whose links are right in both directions merges it with all
    the free chunks around it; the contents of the other allocated chunks, and its own, stay.  The links
    backwards stay right when nothing was merged, or nothing follows. *)
Theorem mm_free_correct (lo : Z) (s : mm) (bk br : list chunk) (c : chunk) (fr rest : list chunk)
    (H : heap_at lo s (bk ++ br ++ c :: fr ++ rest)) (PV : prevs (m_mem s) lo (bk ++ br ++ c :: fr ++ rest) NULL)
    (Fc : c_free c = false) (Fb : all_free br) (Ff : all_free fr) (Ub : ends_used bk) (Ur : starts_used rest) :
  let p := lo + spans (bk ++ br) in let l' := bk ++ merged br c fr :: rest in
  exists s', mm_free lo (p + 16) s = Ret (tt, s') /\ heap_at lo s' l' /\
    ((fr = [] /\ br = []) \/ rest = [] -> prevs (m_mem s') lo l' NULL) /\
    (forall x, in_data lo l' x -> m_mem s' x = m_mem s x) /\
    forall x, p + 16 <= x < p + span c -> m_mem s' x = m_mem s x.
Proof.
  intros p l'. destruct (mm_free_Ret lo s bk br c fr rest H PV Fc Fb Ff Ub Ur) as (m' & E & HA & HP & O).
  exists (set_mem s m'). split; [exact E|]. split; [exact HA|]. split; [exact HP|]. cbn [set_mem m_mem].
  pose proof (ha_sizes _ _ _ H) as S. split.
  - intros x Hx. by apply O; apply (data_merged lo bk br c fr rest x S Hx).
  - intros x Hx. rewrite !Forall_app in S. destruct S as (_ & S & _). pose proof (spans_nonneg br S).
    fold p in O. assert (p = lo + spans bk + spans br) by (unfold p; rewrite spans_app; lia). apply O; lia.
Qed.

(** C27. On a heap whose links are right in both directions (which frees can destroy, see
    [mm_realloc_overruns]), for a new size from 1 to below 2^31 - 16 and where sbrk keeps the break below 2 GB,
    resizing an allocated chunk copies what fits of its contents to the new chunk and leaves a well-formed heap in
    which the other allocated chunks keep their contents; but when the new size reaches past the break
    from the old contents, or there is no room for the new chunk, memory outside the heap is accessed. *)
Theorem mm_realloc_correct (lo : Z) (grants : Z -> Z -> bool) (s : mm) (bk br : list chunk) (c : chunk) (fr rest : list chunk)
    (size : Z) (H : heap_at lo s (bk ++ br ++ c :: fr ++ rest)) (PV : prevs (m_mem s) lo (bk ++ br ++ c :: fr ++ rest) NULL)
    (Fc : c_free c = false) (Fb : all_free br) (Ff : all_free fr) (Ub : ends_used bk) (Ur : starts_used rest)
    (Hs : 0 < size) (Hb : size + 16 < 2 ^ 31) (GR : forall b n, grants b n = true -> b + n < 2 ^ 31) :
  let p := lo + spans (bk ++ br) in let l' := bk ++ merged br c fr :: rest in
  if p + 16 + size <=? m_break s then
    match allocation lo grants s l' size with
    | Some (l2, r) => exists s', mm_realloc lo grants (p + 16) size s = Ret (r, s') /\ heap_at lo s' l2 /\
        (forall i, 0 <= i < Z.min size (c_size c) -> m_mem s' (r + i) = m_mem s (p + 16 + i)) /\
        (forall x, in_data lo l' x -> m_mem s' x = m_mem s x /\ in_data lo l2 x)
    | None => mm_realloc lo grants (p + 16) size s = UB
    end
  else mm_realloc lo grants (p + 16) size s = UB.
Proof.
  intros p l'. destruct (mm_free_Ret lo s bk br c fr rest H PV Fc Fb Ff Ub Ur) as (m' & E & HA & _ & O). fold p l' in E, HA, O.
  destruct (heap_suffix lo s (bk ++ br) c (fr ++ rest) ltac:(by rewrite <- app_assoc)) as (L & _). fold p in L.
  assert (lo <= p) as Lp by lia. set (s1 := set_mem s m') in *.
  assert (mm_realloc lo grants (p + 16) size s = if p + 16 + size <=? m_break s then
    (let! nptr := mm_malloc lo grants size in
     let! s := gets (fun s => s) in
     if in_heap lo s nptr size then
       let! _ := modify (fun s => set_mem s (fun a =>
         if (nptr <=? a) && (a <? nptr + size) then m' (p + 16 + (a - nptr)) else m_mem s a)) in
       ret nptr
     else fun _ => UB) s1 else UB) as ER.
  { unfold mm_realloc. replace (p + 16 =? NULL) with false by (unfold NULL; lia). unfold bind at 1. rewrite E. cbn [obind].
    replace (size =? 0) with false by lia. unfold bind at 1, gets at 1. cbn [obind]. unfold in_heap at 1. cbn [s1 set_mem m_break].
    replace (lo <=? p + 16) with true by lia. cbn [andb]. by destruct (p + 16 + size <=? m_break s). }
  destruct (p + 16 + size <=? m_break s); [|exact ER]. change (allocation lo grants s l' size) with (allocation lo grants s1 l' size).
  pose proof (mm_malloc_allocation lo grants s1 l' size HA Hs Hb GR) as M. destruct (allocation lo grants s1 l' size) as [[l2 r]|].
  - destruct M as (s2 & E2 & [M1 M2 M3 M4]). unfold bind at 1 in ER. rewrite E2 in ER. cbn [obind] in ER.
    unfold bind at 1, gets at 1 in ER. cbn [obind] in ER.
    assert (in_heap lo s2 r size = true) as EI.
    { destruct (M3 r ltac:(lia)) as (_ & I1 & _). destruct (M3 (r + size - 1) ltac:(lia)) as (_ & I2 & _).
      pose proof (links_range l2 (ha_sizes _ _ _ M1) lo) as R. pose proof (R r ltac:(tauto)). pose proof (R (r + size - 1) ltac:(tauto)).
      unfold in_heap. rewrite (ha_break _ _ _ M1). lia. }
    rewrite EI in ER. unfold bind, modify in ER. cbn [obind] in ER. unfold ret in ER.
    set (m2 := fun a => if (r <=? a) && (a <? r + size) then m' (p + 16 + (a - r)) else m_mem s2 a) in ER.
    assert (forall x, ~ (r <= x < r + size) -> m2 x = m_mem s2 x) as O2.
    { intros x Hx. unfold m2. by replace ((r <=? x) && (x <? r + size)) with false by lia. }
    exists (set_mem s2 m2). split; [exact ER|]. split; [|split].
    + apply heap_write; [exact M1|]. intros x Hx. apply O2. intros Hr. by apply Hx, M3.
    + intros i Hi. cbn [set_mem m_mem]. unfold m2. replace ((r <=? r + i) && (r + i <? r + size)) with true by lia.
      replace (p + 16 + (r + i - r)) with (p + 16 + i) by lia. pose proof (ha_sizes _ _ _ H) as S. rewrite !Forall_app in S.
      destruct S as (_ & S & _). pose proof (spans_nonneg br S). assert (p = lo + spans bk + spans br) by (unfold p; rewrite spans_app; lia).
      apply O; lia.
    + intros x Hx. destruct (M4 x Hx) as [K1 K2]. split; [|exact K2]. cbn [set_mem m_mem]. rewrite O2.
      * rewrite K1. cbn [s1 set_mem m_mem]. by apply O; apply (data_merged lo bk br c fr rest x (ha_sizes _ _ _ H) Hx).
      * intros Hr. by apply (M3 x Hr).
  - rewrite ER. unfold bind. rewrite M. cbn [obind]. unfold gets. cbn [obind]. unfold in_heap, NULL.
    by replace (lo <=? 0) with false by lia.
Qed.

(** * Examples *)

(** All requests below 2^31 are granted. *)
Definition ex_grants (b n : Z) : bool := (0 <=? n) && (b + n <? 2 ^ 31).
Lemma ex_grants_ok b n : ex_grants b n = true -> b + n < 2 ^ 31.
Proof. unfold ex_grants. lia. Qed.

Definition run_mm {A} (m : MM A) (s : mm) : mm := match m s with Ret (_, s) => s | _ => s end.
Definition ex_empty : mm := mk_mm (fun _ => 0) 0 0x1000.
Definition ex_blocks : mm :=
  run_mm (let! _ := mm_malloc 0x1000 ex_grants 20 in let! _ := mm_malloc 0x1000 ex_grants 20 in mm_malloc 0x1000 ex_grants 20) ex_empty.
Definition ex_block : chunk := mk_chunk 20 false.

Lemma ex_empty_ok : heap_at 0x1000 ex_empty [].
Proof. split; (reflexivity || done). Qed.

Lemma ex_blocks_ok : heap_at 0x1000 ex_blocks [ex_block; ex_block; ex_block] /\
  prevs (m_mem ex_blocks) 0x1000 [ex_block; ex_block; ex_block] NULL.
Proof.
  split; [split|].
  - lia.
  - vm_compute. reflexivity.
  - cbn [seg]. split; [split; vm_compute; reflexivity|]. split; [split; vm_compute; reflexivity|].
    split; [split; vm_compute; reflexivity|]. exact I.
  - repeat constructor; cbn; lia.
  - vm_compute. reflexivity.
  - vm_compute. reflexivity.
  - cbn [prevs]. split; [vm_compute; reflexivity|]. split; [vm_compute; reflexivity|]. split; [vm_compute; reflexivity|exact I].
Qed.

Lemma mm_malloc_correct_witness : exists s', mm_malloc 0x1000 ex_grants 20 ex_empty = Ret (0x1010, s') /\
  malloced 0x1000 ex_empty s' [] [ex_block] 0x1010 20.
Proof. exact (mm_malloc_correct 0x1000 ex_grants ex_empty [] 20 ex_empty_ok ltac:(lia) ltac:(lia) ex_grants_ok). Defined.

Lemma ends_used_nil : ends_used [].
Proof. intros [|d k] e E; discriminate E. Qed.
Lemma ends_used_block : ends_used [ex_block].
Proof. intros [|d k] e E; [by injection E as <-|]. destruct k; discriminate E. Qed.

Lemma mm_free_correct_witness : exists s', mm_free 0x1000 0x1034 ex_blocks = Ret (tt, s') /\
  heap_at 0x1000 s' [ex_block; mk_chunk 20 true; ex_block] /\ prevs (m_mem s') 0x1000 [ex_block; mk_chunk 20 true; ex_block] NULL.
Proof.
  destruct (mm_free_correct 0x1000 ex_blocks [ex_block] [] ex_block [] [ex_block] (proj1 ex_blocks_ok) (proj2 ex_blocks_ok)
    eq_refl (Forall_nil_2 _) (Forall_nil_2 _) ends_used_block eq_refl) as (s' & E & HA & HP & _).
  exists s'. split; [exact E|]. split; [exact HA|]. apply HP. left. split; reflexivity.
Defined.

Lemma ex_blocks_break : m_break ex_blocks = 0x106c.
Proof. vm_compute. reflexivity. Qed.

Lemma mm_realloc_correct_witness : exists s', mm_realloc 0x1000 ex_grants 0x1034 30 ex_blocks = Ret (0x107c, s') /\
  forall i, 0 <= i < 20 -> m_mem s' (0x107c + i) = m_mem ex_blocks (0x1034 + i).
Proof.
  destruct ex_blocks_ok as [H P]. pose proof ex_blocks_break as B. revert H P B. generalize ex_blocks. intros s H P B.
  pose proof (mm_realloc_correct 0x1000 ex_grants s [ex_block] [] ex_block [] [ex_block] 30 H P
    eq_refl (Forall_nil_2 _) (Forall_nil_2 _) ends_used_block eq_refl ltac:(lia) ltac:(lia) ex_grants_ok) as M.
  cbv zeta in M. unfold allocation in M. rewrite B in M. cbn in M. destruct M as (s' & E & _ & K & _).
  exists s'. split; [exact E|exact K].
Defined.

(** Three blocks allocated and freed in order: the last free follows a link backwards that was not
    corrected and counts the first two blocks twice, so the heap of 108 bytes seems to have a free block of 164;
    the next request for as much writes beyond the break. *)
Example mm_free_overruns :
  (let! a := mm_malloc 0x1000 ex_grants 20 in
   let! b := mm_malloc 0x1000 ex_grants 20 in
   let! c := mm_malloc 0x1000 ex_grants 20 in
   let! _ := mm_free 0x1000 a in
   let! _ := mm_free 0x1000 b in
   let! _ := mm_free 0x1000 c in
   let! n := get_size 0x1000 0x1000 in
   let! s := gets (fun s => s) in
   ret (n, m_break s - 0x1000)) ex_empty = Ret ((164, 108), run_mm (mm_free 0x1000 0x1058)
     (run_mm (mm_free 0x1000 0x1034) (run_mm (mm_free 0x1000 0x1010) ex_blocks))) /\
  mm_malloc 0x1000 ex_grants 160 (run_mm (mm_free 0x1000 0x1058)
     (run_mm (mm_free 0x1000 0x1034) (run_mm (mm_free 0x1000 0x1010) ex_blocks))) = UB.
Proof. split; vm_compute; reflexivity. Qed.

(** On a heap whose links backwards are wrong after two frees, resizing the third block goes through and leaves
    a chunk that ends beyond the break. *)
Example mm_realloc_overruns :
  match (let! a := mm_malloc 0x1000 ex_grants 20 in
         let! b := mm_malloc 0x1000 ex_grants 20 in
         let! c := mm_malloc 0x1000 ex_grants 20 in
         let! _ := mm_free 0x1000 a in
         let! _ := mm_free 0x1000 b in
         let! p := mm_realloc 0x1000 ex_grants c 10 in
         let! next := get_next 0x1000 0x1000 in
         let! n := get_size 0x1000 next in
         let! s := gets (fun s => s) in
         ret (next + 16 + n, m_break s)) ex_empty with
  | Ret ((last_end, break), _) => last_end = 4276 /\ break = 4204
  | _ => False
  end.
Proof. vm_compute. done. Qed.

(** Near 4 GB the size of the chunk wraps around, and its metadata is written beyond the break. *)
Example mm_malloc_overflows : mm_malloc 0x1000 ex_grants 4294967288 ex_empty = UB.
Proof. vm_compute. reflexivity. Qed.
