(* ===== verification/WorkQueue.v ===== *)
(** The work queue of the HTTP server's thread pool (hw-http/wq.c, with the list macros of utlist.h):
    threads that push and pop connections under a mutex and a condition variable, in any interleaving. *)
From S2P Require Import Prelude Palloc KStdlib.

(** * Definitions *)

Record wq_item := mk_item { client_socket_fd : Z; next : Z; prev : Z }.
Definition set_next (i : wq_item) (v : Z) : wq_item := mk_item (client_socket_fd i) v (prev i).
Definition set_prev (i : wq_item) (v : Z) : wq_item := mk_item (client_socket_fd i) (next i) v.

(** The allocated items by address; [p->f = ...]. *)
Abbreviation items_t := (gmap Z wq_item).
Definition update (h : items_t) (p : Z) (f : wq_item -> wq_item) : outcome items_t :=
  let? i := deref (h !! p) in Ret (<[p := f i]> h).

Definition DL_APPEND (h : items_t) (head add : Z) : outcome (items_t * Z) :=
  if negb (head =? NULL) then
    let? hd := deref (h !! head) in
    let? h := update h add (fun i => set_prev i (prev hd)) in
    let? hd := deref (h !! head) in
    let? h := update h (prev hd) (fun i => set_next i add) in
    let? h := update h head (fun i => set_prev i add) in
    let? h := update h add (fun i => set_next i NULL) in
    Ret (h, head)
  else
    let head := add in
    let? h := update h head (fun i => set_prev i head) in
    let? h := update h head (fun i => set_next i NULL) in
    Ret (h, head).

Definition DL_DELETE (h : items_t) (head del : Z) : outcome (items_t * Z) :=
  let? d := deref (h !! del) in
  assert? negb (prev d =? NULL) in
  if prev d =? del then Ret (h, NULL)
  else if del =? head then
    let? h := update h (next d) (fun i => set_prev i (prev d)) in
    Ret (h, next d)
  else
    let? h := update h (prev d) (fun i => set_next i (next d)) in
    if negb (next d =? NULL) then
      let? h := update h (next d) (fun i => set_prev i (prev d)) in Ret (h, head)
    else
      let? h := update h head (fun i => set_prev i (prev d)) in Ret (h, head).

(** Where a thread is in [wq_pop] or [wq_push]: before taking the mutex, at the test of the loop, waiting
    on the condition variable, woken, and before each of the statements that follow. *)
Inductive pc :=
  | PopLock
  | PopTest
  | PopWait
  | PopRelock
  | PopUnlock (wq_item fd : Z)
  | PopFree (wq_item fd : Z)
  | PopDone (fd : Z)
  | PushLock (fd : Z)
  | PushItem (fd : Z)
  | PushBroadcast
  | PushUnlock
  | PushDone.

(** The queue, the heap and the threads; [pushed] and [popped] record the connections in the order in
    which they enter and leave the queue. *)
Record wq := mk_wq {
  size : Z;
  head : Z;
  mutex : option nat;
  items : items_t;
  allocs : nat;
  threads : gmap nat pc;
  pushed : list Z;
  popped : list Z
}.
Definition wq_init : wq := mk_wq 0 NULL None ∅ 0 ∅ [] [].

Definition set_thread (s : wq) (t : nat) (p : pc) : wq :=
  mk_wq (size s) (head s) (mutex s) (items s) (allocs s) (<[t := p]> (threads s)) (pushed s) (popped s).
Definition set_mutex (s : wq) (m : option nat) : wq :=
  mk_wq (size s) (head s) m (items s) (allocs s) (threads s) (pushed s) (popped s).
Definition set_queue (s : wq) (n hd : Z) (h : items_t) : wq :=
  mk_wq n hd (mutex s) h (allocs s) (threads s) (pushed s) (popped s).

Definition wake (p : pc) : pc := match p with PopWait => PopRelock | p => p end.
Definition broadcast (s : wq) : wq :=
  mk_wq (size s) (head s) (mutex s) (items s) (allocs s) (wake <$> threads s) (pushed s) (popped s).

(** Taking the mutex blocks while a thread has it. *)
Definition lock (s : wq) (t : nat) (p : pc) : outcome (option wq) :=
  match mutex s with
  | None => Ret (Some (set_thread (set_mutex s (Some t)) t p))
  | Some _ => Ret None
  end.
Definition unlock (s : wq) (t : nat) (p : pc) : outcome (option wq) := Ret (Some (set_thread (set_mutex s None) t p)).

Section WorkQueue.
(** [calloc]: the address it gives the [n]-th request, on a heap of live objects; [None] for [NULL]. *)
Context (calloc : nat -> items_t -> option Z).

(** The removal in [wq_pop]. *)
Definition pop_item (s : wq) (t : nat) : outcome wq :=
  let wq_item := head s in
  let? i := deref (items s !! head s) in
  let? n := int_ (size s - 1) in
  let? (h, hd) := DL_DELETE (items s) (head s) (head s) in
  let s := set_thread (set_queue s n hd h) t (PopUnlock wq_item (client_socket_fd i)) in
  Ret (mk_wq (size s) (head s) (mutex s) (items s) (allocs s) (threads s) (pushed s)
         (popped s ++ [client_socket_fd i])).

(** The allocation and insertion in [wq_push]. *)
Definition push_item (s : wq) (t : nat) (fd : Z) : outcome wq :=
  let? wq_item := deref (calloc (allocs s) (items s)) in
  let? (h, hd) := DL_APPEND (<[wq_item := mk_item fd NULL NULL]> (items s)) (head s) wq_item in
  let? n := int_ (size s + 1) in
  let s := set_thread (set_queue s n hd h) t PushBroadcast in
  Ret (mk_wq (size s) (head s) (mutex s) (items s) (S (allocs s)) (threads s) (pushed s ++ [fd]) (popped s)).

(** One step of thread [t]; [None] when it is blocked or has returned. *)
Definition step (t : nat) (s : wq) : outcome (option wq) :=
  match threads s !! t with
  | None => Ret None
  | Some PopLock => lock s t PopTest
  | Some PopTest =>
      if size s =? 0 then unlock s t PopWait
      else let? s := pop_item s t in Ret (Some s)
  | Some PopWait => Ret None
  | Some PopRelock => lock s t PopTest
  | Some (PopUnlock i fd) => unlock s t (PopFree i fd)
  | Some (PopFree i fd) =>
      let? _ := deref (items s !! i) in
      Ret (Some (set_thread (set_queue s (size s) (head s) (delete i (items s))) t (PopDone fd)))
  | Some (PopDone fd) => Ret None
  | Some (PushLock fd) => lock s t (PushItem fd)
  | Some (PushItem fd) => let? s := push_item s t fd in Ret (Some s)
  | Some PushBroadcast => Ret (Some (set_thread (broadcast s) t PushUnlock))
  | Some PushUnlock => unlock s t PushDone
  | Some PushDone => Ret None
  end.

(** A thread runs, wakes up without a signal, or begins a call. *)
Inductive wq_step (s : wq) : wq -> Prop :=
  | step_thread t s' : step t s = Ret (Some s') -> wq_step s s'
  | step_spurious t : threads s !! t = Some PopWait -> wq_step s (set_thread s t PopRelock)
  | step_pop t : threads s !! t = None -> wq_step s (set_thread s t PopLock)
  | step_push t fd : threads s !! t = None -> wq_step s (set_thread s t (PushLock fd)).
End WorkQueue.

(** * The list *)

(** [h] holds the doubly linked list of the addresses [l] with the connections [fds]; the head's link
    backwards goes to the last item. *)
Record dlist (h : items_t) (head : Z) (l : list Z) (fds : list Z) : Prop := {
  dl_head : head = default NULL (l !! 0%nat);
  dl_length : length fds = length l;
  dl_nodup : NoDup l;
  dl_positive : Forall (fun a => 0 < a) l;
  dl_items : forall i a, l !! i = Some a -> exists fd, fds !! i = Some fd /\
    h !! a = Some (mk_item fd (default NULL (l !! S i))
      (match i with O => default NULL (last l) | S j => default NULL (l !! j) end))
}.

(** * Lemmas *)

Lemma update_Ret h p i f : h !! p = Some i -> update h p f = Ret (<[p := f i]> h).
Proof. intros H. unfold update. by rewrite H. Qed.

Lemma dlist_other h h' head l fds : (forall a, a ∈ l -> h' !! a = h !! a) -> dlist h head l fds -> dlist h' head l fds.
Proof.
  intros O [D1 D2 D3 D4 D5]. split; try done. intros i a Hi. destruct (D5 i a Hi) as (fd & E1 & E2). exists fd. split; [done|].
  rewrite O; [done|]. by eapply list_elem_of_lookup_2.
Qed.

Lemma DL_DELETE_Ret h a l fd fds : dlist h a (a :: l) (fd :: fds) ->
  exists h' hd, DL_DELETE h a a = Ret (h', hd) /\ dlist h' hd l fds /\ h' !! a = h !! a /\
    forall x, x ∉ l -> h' !! x = h !! x.
Proof.
  intros [D1 D2 D3 D4 D5]. destruct (D5 0%nat a eq_refl) as (fd0 & [= <-] & E0). unfold DL_DELETE. rewrite E0.
  cbn [deref obind prev next]. apply NoDup_cons in D3 as [N1 N2]. apply Forall_cons in D4 as [P1 P2].
  destruct l as [|b l].
  - change (default NULL (last [a])) with a. replace (a =? NULL) with false by (unfold NULL; lia). cbn [negb]. rewrite Z.eqb_refl.
    exists h, NULL. split; [done|]. split; [|split; [done|intros; done]]. destruct fds; [|discriminate D2]. split; (done || constructor).
  - assert (exists z, last (a :: b :: l) = Some z /\ z ∈ b :: l) as (z & EL & Hz).
    { change (last (a :: b :: l)) with (last (b :: l)). destruct (last (b :: l)) as [z|] eqn:E; [|by apply last_None in E].
      exists z. split; [done|]. by eapply last_Some_elem_of. }
    rewrite EL. change (default NULL (Some z)) with z. rewrite Forall_forall in P2. pose proof (P2 z Hz). replace (z =? NULL) with false by (unfold NULL; lia).
    cbn [negb]. replace (z =? a) with false by (symmetry; apply Z.eqb_neq; intros ->; done). rewrite Z.eqb_refl.
    change ((a :: b :: l) !! 1%nat) with (Some b). change (default NULL (Some b)) with b.
    destruct (D5 1%nat b eq_refl) as (fb & Ef & Eb). rewrite (update_Ret _ _ _ _ Eb). cbn [obind].
    exists (<[b := set_prev (mk_item fb (default NULL ((a :: b :: l) !! 2%nat)) (default NULL ((a :: b :: l) !! 0%nat))) z]> h), b.
    split; [done|]. assert (a <> b) as Nab by (intros ->; apply N1; by left). split; [|split].
    + split; [done|by injection D2|done|by apply Forall_forall|]. intros i x Hx. destruct (D5 (S i) x Hx) as (f & Ef' & Ex).
      exists f. split; [done|]. destruct i as [|i].
      * injection Hx as <-. rewrite lookup_insert_eq. cbn in Ef, Ef'. rewrite Ef in Ef'. injection Ef' as <-.
        change (last (b :: l)) with (last (a :: b :: l)). by rewrite EL.
      * rewrite lookup_insert_ne; [exact Ex|]. intros ->. apply NoDup_cons in N2 as [N2 _]. apply N2. by eapply list_elem_of_lookup_2.
    + rewrite lookup_insert_ne by congruence. by rewrite E0, EL.
    + intros x Hx. rewrite lookup_insert_ne; [done|]. intros ->. apply Hx. by left.
Qed.

Lemma update_alter h p f : is_Some (h !! p) -> update h p f = Ret (alter f p h).
Proof. intros [i H]. rewrite (update_Ret _ _ _ _ H). f_equal. apply map_eq. intros x. rewrite lookup_alter, lookup_insert.
  case_decide; [|done]. subst. by rewrite H. 
Qed.

(** Appending to a list of two or more items changes the last one, the head and the new one. *)
Lemma DL_APPEND_nil h a fd : dlist h NULL [] [] -> 0 < a -> h !! a = None ->
  exists h', DL_APPEND (<[a := mk_item fd NULL NULL]> h) NULL a = Ret (h', a) /\ dlist h' a [a] [fd] /\
    forall x, x <> a -> h' !! x = h !! x.
Proof.
  intros D P F. unfold DL_APPEND. cbn [negb Z.eqb NULL]. unfold NULL. cbn [Z.eqb negb].
  rewrite (update_Ret _ _ (mk_item fd 0 0)) by apply lookup_insert_eq. cbn [obind].
  rewrite (update_Ret _ _ (mk_item fd 0 a)) by apply lookup_insert_eq. cbn [obind].
  eexists. split; [done|]. split.
  - split; [done|done|by apply NoDup_singleton|by constructor|]. intros [|i] x Hx; [|done]. injection Hx as <-. exists fd. split; [done|].
    by rewrite lookup_insert_eq.
  - intros x Hx. by rewrite !lookup_insert_ne by congruence.
Qed.

Lemma dlist_lookup h a l fds x : dlist h a l fds -> x ∈ l -> is_Some (h !! x) /\ 0 < x.
Proof.
  intros [_ _ _ P D] H. rewrite Forall_forall in P. split; [|by apply P]. apply list_elem_of_lookup_1 in H as [i Hi]. destruct (D i x Hi) as (? & _ & ->).
  by eexists.
Qed.

(** The heap after appending [a], whose fields are those of the new item, to a list ending with [z]. *)
Definition appended (h : items_t) (hd z a fd x : Z) : option wq_item :=
  if decide (x = a) then Some (mk_item fd NULL z)
  else (fun i => mk_item (client_socket_fd i) (if decide (x = z) then a else next i) (if decide (x = hd) then a else prev i)) <$> h !! x.

Lemma DL_APPEND_cons h a hd l z fds fd : dlist h hd (hd :: l) fds -> last (hd :: l) = Some z -> h !! a = None ->
  exists h', DL_APPEND (<[a := mk_item fd NULL NULL]> h) hd a = Ret (h', hd) /\ forall x, h' !! x = appended h hd z a fd x.
Proof.
  intros D EL F. assert (z ∈ hd :: l) as Hz by by eapply last_Some_elem_of.
  destruct (dlist_lookup _ _ _ _ _ D Hz) as [Sz Pz]. destruct (dlist_lookup _ _ _ _ hd D ltac:(left)) as [Shd Phd].
  assert (a <> z /\ a <> hd) as [Naz Nah] by (split; intros ->; rewrite F in *; by apply is_Some_None in Sz || by apply is_Some_None in Shd).
  destruct (dl_items _ _ _ _ D 0%nat hd eq_refl) as (f & _ & Eh). rewrite EL in Eh. cbn in Eh. unfold DL_APPEND.
  replace (hd =? NULL) with false by (unfold NULL; lia). cbn [negb]. rewrite lookup_insert_ne, Eh by done. cbn [deref obind prev].
  set (h0 := <[a := _]> h). assert (is_Some (h0 !! a)) as Ea by (unfold h0; rewrite lookup_insert_eq; by eexists).
  assert (forall x, is_Some (h !! x) -> is_Some (h0 !! x)) as E0.
  { intros x Hx. unfold h0. destruct (decide (a = x)) as [<-|]; [by rewrite lookup_insert_eq|by rewrite lookup_insert_ne]. }
  rewrite update_alter by done. cbn [obind].
  rewrite lookup_alter_ne by done. unfold h0 at 1. rewrite lookup_insert_ne, Eh by done. cbn [deref obind prev].
  rewrite update_alter by (rewrite lookup_alter_is_Some; auto). cbn [obind].
  rewrite update_alter by (rewrite !lookup_alter_is_Some; auto). cbn [obind].
  rewrite update_alter by (rewrite !lookup_alter_is_Some; auto). cbn [obind].
  eexists. split; [done|]. intros x. unfold appended. rewrite !lookup_alter. unfold h0. rewrite lookup_insert. repeat case_decide; subst; try done.
  all: rewrite lookup_insert_ne by done; by destruct (h !! x) as [[]|].
Qed.

Lemma appended_dlist h h' hd l z fds a fd : dlist h hd (hd :: l) fds -> last (hd :: l) = Some z -> h !! a = None -> 0 < a ->
  (forall x, h' !! x = appended h hd z a fd x) -> dlist h' hd ((hd :: l) ++ [a]) (fds ++ [fd]).
Proof.
  intros D EL F P A. assert (a ∉ hd :: l) as Na.
  { intros H. destruct (dlist_lookup _ _ _ _ a D H) as [[? E] _]. congruence. }
  destruct D as [D1 D2 D3 D4 D5]. set (w := hd :: l) in *. split; [done|by rewrite !length_app, D2|..].
  - apply NoDup_app. split; [done|]. split; [|by apply NoDup_singleton]. intros x Hx ->%list_elem_of_singleton. done.
  - apply Forall_app. split; [done|by constructor].
  - intros i x Hx. rewrite A. unfold appended. destruct (decide (i < length w)%nat) as [Hi|Hi].
    + rewrite lookup_app_l in Hx by done. destruct (D5 i x Hx) as (f & Ef & Ex). exists f. split; [by apply lookup_app_l_Some|].
      rewrite decide_False by (intros ->; apply Na; by eapply list_elem_of_lookup_2). rewrite Ex. cbn [fmap option_fmap option_map client_socket_fd next prev].
      rewrite last_lookup in EL. f_equal. f_equal.
      * destruct (decide (x = z)) as [->|Nz].
        { pose proof (NoDup_lookup _ _ _ _ D3 Hx EL) as ->. replace (S (Nat.pred (length w))) with (length w) by lia. by rewrite list_lookup_middle. }
        destruct (decide (S i < length w)%nat); [by rewrite lookup_app_l|]. contradict Nz. replace i with (Nat.pred (length w)) in Hx by lia. congruence.
      * destruct i as [|j].
        { cbn in Hx. injection Hx as <-. rewrite decide_True by done. by rewrite last_snoc. }
        rewrite decide_False; [by rewrite lookup_app_l by lia|]. intros ->. by pose proof (NoDup_lookup w (S j) 0 hd D3 Hx eq_refl).
    + assert (i = length w /\ x = a) as [-> ->].
      { apply lookup_app_Some in Hx as [Hx|[Hl Hx]]; [by apply lookup_lt_Some in Hx|]. apply list_lookup_singleton_Some in Hx as [? <-]. split; [lia|done]. }
      exists fd. split; [by rewrite <-D2, list_lookup_middle|]. rewrite decide_True by done. f_equal. f_equal.
      * by rewrite lookup_ge_None_2 by (rewrite length_app; cbn; lia).
      * rewrite last_lookup in EL. destruct (length w) as [|n] eqn:EN; [done|]. change (Nat.pred (S n)) with n in EL.
        by rewrite lookup_app_l, EL by lia.
Qed.

(** Appending adds the item at the end and does not touch the items that are not in the list. *)
Lemma DL_APPEND_Ret h hd l fds a fd : dlist h hd l fds -> h !! a = None -> 0 < a ->
  exists h' hd', DL_APPEND (<[a := mk_item fd NULL NULL]> h) hd a = Ret (h', hd') /\
    dlist h' hd' (l ++ [a]) (fds ++ [fd]) /\ forall x, x ∉ l -> x <> a -> h' !! x = h !! x.
Proof.
  intros D F P. destruct l as [|b l].
  - pose proof (dl_length _ _ _ _ D) as L. destruct fds; [|done]. pose proof (dl_head _ _ _ _ D) as ->.
    destruct (DL_APPEND_nil h a fd D P F) as (h' & E & D' & O). exists h', a. by split_and!; [| |intros; apply O].
  - pose proof (dl_head _ _ _ _ D) as EH. cbn in EH. subst b. destruct (last (hd :: l)) as [z|] eqn:EL; [|by apply last_None in EL].
    destruct (DL_APPEND_cons h a hd l z fds fd D EL F) as (h' & E & A). exists h', hd. split; [done|]. split; [by eapply appended_dlist|].
    intros x Hx Nx. rewrite A. unfold appended. rewrite decide_False by done.
    destruct (h !! x) as [[]|]; [cbn|done].
    rewrite (decide_False (P := x = z)) by (intros ->; apply Hx; by eapply last_Some_elem_of).
    by rewrite decide_False by (intros ->; apply Hx; by left).
Qed.

(** * The invariant *)

(** The calls between taking and releasing the mutex, the item a call has removed and not yet freed, and
    the connection it returns. *)
Definition holds (p : pc) : bool :=
  match p with PopTest | PopUnlock _ _ | PushItem _ | PushBroadcast | PushUnlock => true | _ => false end.
Definition owns (p : pc) : option Z := match p with PopUnlock i _ | PopFree i _ => Some i | _ => None end.
Definition result (p : pc) : option Z :=
  match p with PopUnlock _ fd | PopFree _ fd | PopDone fd => Some fd | _ => None end.

Definition holding (ths : gmap nat pc) (t : nat) : bool := default false (holds <$> ths !! t).
Definition owner (ths : gmap nat pc) (t : nat) : option Z := ths !! t ≫= owns.
Definition results (ths : gmap nat pc) : list Z := omap result (map_to_list ths).*2.

Record wq_inv (s : wq) (l fds : list Z) : Prop := {
  inv_list : dlist (items s) (head s) l fds;
  inv_size : size s = Z.of_nat (length l);
  inv_bound : size s <= INT_MAX;
  inv_fifo : pushed s = popped s ++ fds;
  inv_mutex : forall t, mutex s = Some t <-> holding (threads s) t = true;
  inv_items : forall a, is_Some (items s !! a) <-> a ∈ l \/ exists t, owner (threads s) t = Some a;
  inv_owned : forall t a, owner (threads s) t = Some a -> a ∉ l;
  inv_owner : forall t u a, owner (threads s) t = Some a -> owner (threads s) u = Some a -> t = u;
  inv_wait : forall t, threads s !! t = Some PopWait -> l = [] \/ exists u, threads s !! u = Some PushBroadcast;
  inv_results : popped s ≡ₚ results (threads s)
}.

Lemma holding_insert ths t q u : holding (<[t:=q]> ths) u = if decide (t = u) then holds q else holding ths u.
Proof. unfold holding. rewrite lookup_insert. by case_decide. Qed.
Lemma owner_insert ths t q u : owner (<[t:=q]> ths) u = if decide (t = u) then owns q else owner ths u.
Proof. unfold owner. rewrite lookup_insert. by case_decide. Qed.
Lemma owner_keep ths t q : owns q = owner ths t -> forall u, owner (<[t:=q]> ths) u = owner ths u.
Proof. intros H u. rewrite owner_insert. case_decide; [by subst|done]. Qed.

Lemma results_insert ths t q : ths !! t = None -> results (<[t:=q]> ths) ≡ₚ option_list (result q) ++ results ths.
Proof.
  intros H. unfold results. rewrite (map_to_list_insert _ _ q H). cbn. by destruct (result q).
Qed.
Lemma results_delete ths t : results ths ≡ₚ option_list (ths !! t ≫= result) ++ results (delete t ths).
Proof.
  destruct (ths !! t) as [p|] eqn:E; [|by rewrite delete_id]. cbn. rewrite <-(insert_delete_id ths t p E) at 1.
  apply results_insert. by rewrite lookup_delete_eq.
Qed.
Lemma results_set ths t q : results (<[t:=q]> ths) ≡ₚ option_list (result q) ++ results (delete t ths).
Proof. rewrite <-insert_delete_eq. apply results_insert. by rewrite lookup_delete_eq. Qed.
Lemma results_keep ths t q : result q = ths !! t ≫= result -> results (<[t:=q]> ths) ≡ₚ results ths.
Proof. intros H. rewrite results_set, (results_delete ths t). by rewrite H. Qed.
Lemma results_wake ths : results (wake <$> ths) ≡ₚ results ths.
Proof.
  unfold results. rewrite map_to_list_fmap. generalize (map_to_list ths) as l. induction l as [|[t p] l IH]; [done|]. cbn.
  destruct p; cbn; by rewrite IH.
Qed.

(** * The steps keep the invariant *)

(** A step of call [t] that leaves the queue alone: it takes the mutex, releases it or neither. *)
Definition moves (s : wq) (t : nat) (m : option nat) (q : pc) : Prop :=
  (m = mutex s /\ holds q = holding (threads s) t) \/
  (mutex s = None /\ m = Some t /\ holds q = true) \/
  (mutex s = Some t /\ m = None /\ holds q = false).

Lemma moves_mutex s l fds t m q : wq_inv s l fds -> moves s t m q ->
  forall u, m = Some u <-> holding (<[t:=q]> (threads s)) u = true.
Proof.
  intros I M u. pose proof (inv_mutex _ _ _ I) as IM. rewrite holding_insert.
  destruct M as [[-> E]|[(E & -> & H)|(E & -> & H)]].
  - case_decide; [subst; rewrite E; apply IM|apply IM].
  - case_decide; [by subst|]. rewrite <-IM, E. split; congruence.
  - case_decide; [by rewrite H|]. rewrite <-IM, E. split; congruence.
Qed.

Lemma wait_insert (ths : gmap nat pc) t q (P : Prop) :
  (forall u, ths !! u = Some PopWait -> P \/ exists v, ths !! v = Some PushBroadcast) ->
  ths !! t <> Some PushBroadcast -> (q = PopWait -> P) ->
  forall u, <[t:=q]> ths !! u = Some PopWait -> P \/ exists v, <[t:=q]> ths !! v = Some PushBroadcast.
Proof.
  intros W N Q u. rewrite lookup_insert. case_decide as D.
  - intros [= ->]. left. auto.
  - intros H. destruct (W u H) as [|[v Hv]]; [by left|]. right. exists v. rewrite lookup_insert_ne; [done|]. congruence.
Qed.

Lemma inv_move s l fds t m q : wq_inv s l fds -> moves s t m q -> owns q = owner (threads s) t ->
  result q = threads s !! t ≫= result -> threads s !! t <> Some PushBroadcast -> (q = PopWait -> l = []) ->
  wq_inv (set_thread (set_mutex s m) t q) l fds.
Proof.
  intros I M O R B W. pose proof (moves_mutex _ _ _ _ _ _ I M) as IM. destruct I as [I1 I2 IB I3 I4 I5 I6 I7 I8 I9].
  pose proof (owner_keep _ _ _ O) as OK. split; cbn [threads mutex items head size pushed popped set_thread set_mutex]; try done.
  - intros a. rewrite I5. by setoid_rewrite OK.
  - intros u a. rewrite OK. apply I6.
  - intros u v a. rewrite !OK. apply I7.
  - by apply wait_insert.
  - by rewrite results_keep.
Qed.

(** The freed item is not in the list and no other call has it. *)
Lemma inv_free s l fds t i fd : wq_inv s l fds -> threads s !! t = Some (PopFree i fd) ->
  is_Some (items s !! i) /\
  wq_inv (set_thread (set_queue s (size s) (head s) (delete i (items s))) t (PopDone fd)) l fds.
Proof.
  intros I Ht. assert (owner (threads s) t = Some i) as Ho by (unfold owner; by rewrite Ht).
  assert (moves s t (mutex s) (PopDone fd)) as M by (left; split; [done|]; unfold holding; by rewrite Ht).
  pose proof (moves_mutex _ _ _ _ _ _ I M) as IM. destruct I as [I1 I2 IB I3 I4 I5 I6 I7 I8 I9].
  split; [apply I5; right; by exists t|].
  assert (forall u a, owner (<[t:=PopDone fd]> (threads s)) u = Some a <-> owner (threads s) u = Some a /\ a <> i) as OW.
  { intros u a. rewrite owner_insert. case_decide as D.
    - subst u. rewrite Ho. split; [done|]. intros [[= ->] ?]. done.
    - split; [|by intros []]. intros E. split; [done|]. intros ->. apply D. by eapply I7. }
  split; cbn [threads mutex items head size pushed popped set_thread set_queue]; try done.
  - eapply dlist_other; [|exact I1]. intros a Ha. rewrite lookup_delete_ne; [done|]. intros ->. by apply (I6 t a).
  - intros a. setoid_rewrite OW. rewrite lookup_delete. case_decide as D.
    + subst a. split; [by intros [? ?]|]. intros [H|(u & _ & ?)]; [by destruct (I6 t i Ho)|done].
    + rewrite I5. split; (intros [|[u Hu]]; [by left|right; exists u]); [by split|by destruct Hu].
  - intros u a H%OW. by eapply I6, H.
  - intros u v a H%OW H'%OW. eapply I7; [apply H|apply H'].
  - apply wait_insert; [done|by rewrite Ht|done].
  - rewrite results_keep; [done|]. by rewrite Ht.
Qed.

Lemma holding_broadcast ths t : holding (wake <$> ths) t = holding ths t.
Proof. unfold holding. rewrite lookup_fmap. by destruct (ths !! t) as [[]|]. Qed.
Lemma owner_broadcast ths t : owner (wake <$> ths) t = owner ths t.
Proof. unfold owner. rewrite lookup_fmap. by destruct (ths !! t) as [[]|]. Qed.
Lemma no_wait_broadcast (ths : gmap nat pc) (t : nat) : (wake <$> ths) !! t <> Some PopWait.
Proof. rewrite lookup_fmap. by destruct (ths !! t) as [[]|]. Qed.

Lemma inv_broadcast s l fds t : wq_inv s l fds -> threads s !! t = Some PushBroadcast ->
  wq_inv (set_thread (broadcast s) t PushUnlock) l fds.
Proof.
  intros I Ht. assert (owns PushUnlock = owner (wake <$> threads s) t) as O by (rewrite owner_broadcast; unfold owner; by rewrite Ht).
  pose proof (owner_keep _ _ _ O) as OK. destruct I as [I1 I2 IB I3 I4 I5 I6 I7 I8 I9].
  split; cbn [threads mutex items head size pushed popped set_thread broadcast]; try done.
  - intros u. rewrite holding_insert, holding_broadcast, I4. case_decide; [|done]. subst. unfold holding. by rewrite Ht.
  - intros a. rewrite I5. setoid_rewrite OK. by setoid_rewrite owner_broadcast.
  - intros u a. rewrite OK, owner_broadcast. apply I6.
  - intros u v a. rewrite !OK, !owner_broadcast. apply I7.
  - intros u. rewrite lookup_insert. case_decide; [done|]. intros W. by apply no_wait_broadcast in W.
  - rewrite results_keep; [by rewrite results_wake|]. by rewrite lookup_fmap, Ht.
Qed.

(** Removing from a queue that is not empty returns the oldest connection. *)
Lemma inv_pop s l fds t : wq_inv s l fds -> threads s !! t = Some PopTest -> size s <> 0 -> in_s32 (size s - 1) ->
  exists s' l' fds', pop_item s t = Ret s' /\ wq_inv s' l' fds'.
Proof.
  intros [I1 I2 IB I3 I4 I5 I6 I7 I8 I9] Ht Hs HR. destruct l as [|a l]; [cbn in I2; lia|].
  destruct fds as [|fd fds]; [by destruct I1|]. pose proof (dl_head _ _ _ _ I1) as EH. cbn in EH. rewrite EH in I1.
  destruct (dl_items _ _ _ _ I1 0%nat a eq_refl) as (? & [= <-] & Ea). pose proof (dl_nodup _ _ _ _ I1) as [Na _]%NoDup_cons.
  destruct (DL_DELETE_Ret _ _ _ _ _ I1) as (h' & hd & ED & D' & Ea' & O).
  unfold pop_item. rewrite EH, Ea. cbn [deref obind]. rewrite int_Ret, ED by done. cbn [obind client_socket_fd].
  eexists _, l, fds. split; [done|].
  assert (forall x, is_Some (h' !! x) <-> is_Some (items s !! x)) as SH.
  { intros x. destruct (decide (x ∈ l)) as [Hx|Hx]; [|by rewrite O]. split; intros _; [|by eapply dlist_lookup].
    eapply dlist_lookup; [exact I1|by right]. }
  assert (forall u, owner (threads s) u = Some a -> False) as NO by (intros u Hu; apply (I6 u a Hu); left).
  assert (owner (threads s) t = None) as OT by (unfold owner; by rewrite Ht).
  split; cbn [threads mutex items head size pushed popped set_thread set_queue]; [done|cbn in I2; lia|lia|by rewrite I3, <-app_assoc|..].
  - intros u. rewrite holding_insert, I4. case_decide; [|done]. subst. unfold holding. by rewrite Ht.
  - intros x. rewrite SH, I5, elem_of_cons. setoid_rewrite owner_insert. split.
    + intros [[->|Hx]|[u Hu]]; [right; exists t; by rewrite decide_True|by left|]. right. exists u. rewrite decide_False; [done|]. intros <-. congruence.
    + intros [Hx|[u Hu]]; [by left; right|]. case_decide; [injection Hu as <-; by left; left|]. right. by exists u.
  - intros u x. rewrite owner_insert. case_decide; [by intros [= <-]|]. intros Hu Hx. apply (I6 u x Hu). by right.
  - intros u v x. rewrite !owner_insert. repeat case_decide; try congruence.
    + intros [= <-] Hv. by apply NO in Hv.
    + intros Hu [= <-]. by apply NO in Hu.
    + apply I7.
  - apply wait_insert; [|by rewrite Ht|done]. intros u Hu. destruct (I8 u Hu) as [?|?]; [done|by right].
  - rewrite results_set. rewrite (results_delete _ t), Ht in I9. cbn in I9 |- *. rewrite I9. by rewrite Permutation_app_comm.
Qed.

Section Push.
Context (calloc : nat -> items_t -> option Z).
(** [calloc] gives an address at which no object lives. *)
Hypothesis calloc_fresh : forall n h a, calloc n h = Some a -> 0 < a /\ h !! a = None.

Lemma inv_push s l fds t fd a : wq_inv s l fds -> threads s !! t = Some (PushItem fd) -> calloc (allocs s) (items s) = Some a ->
  exists h' hd', DL_APPEND (<[a := mk_item fd NULL NULL]> (items s)) (head s) a = Ret (h', hd') /\
    (in_s32 (size s + 1) -> exists s', push_item calloc s t fd = Ret s' /\ wq_inv s' (l ++ [a]) (fds ++ [fd])).
Proof.
  intros [I1 I2 IB I3 I4 I5 I6 I7 I8 I9] Ht EC. destruct (calloc_fresh _ _ _ EC) as [Pa Fa].
  destruct (DL_APPEND_Ret _ _ _ _ _ fd I1 Fa Pa) as (h' & hd' & EA & D' & O). exists h', hd'. split; [done|]. intros HR.
  unfold push_item. rewrite EC. cbn [deref obind]. rewrite EA. cbn [obind]. rewrite int_Ret by done. cbn [obind].
  eexists. split; [done|].
  assert (owns PushBroadcast = owner (threads s) t) as OT by (unfold owner; by rewrite Ht). pose proof (owner_keep _ _ _ OT) as OK.
  assert (forall u, owner (threads s) u = Some a -> False) as NO.
  { intros u Hu. assert (is_Some (items s !! a)) as Ha by (apply I5; right; by exists u). rewrite Fa in Ha. by apply is_Some_None in Ha. }
  split; cbn [threads mutex items head size pushed popped set_thread set_queue]; [done|rewrite length_app; cbn; lia|unfold INT_MAX; lia|by rewrite I3, app_assoc|..].
  - intros u. rewrite holding_insert, I4. case_decide; [|done]. subst. unfold holding. by rewrite Ht.
  - intros x. setoid_rewrite OK. rewrite elem_of_app, list_elem_of_singleton. destruct (decide (x ∈ l ++ [a])) as [Hx|Hx].
    + split; [|intros _; by eapply dlist_lookup]. intros _. left. by rewrite elem_of_app, list_elem_of_singleton in Hx.
    + rewrite elem_of_app, list_elem_of_singleton in Hx. rewrite O, I5; naive_solver.
  - intros u x. rewrite OK, elem_of_app, list_elem_of_singleton. intros Hu [Hx| ->]; [by eapply I6|by eapply NO].
  - intros u v x. rewrite !OK. apply I7.
  - intros u _. right. exists t. by rewrite lookup_insert_eq.
  - rewrite results_keep; [done|]. by rewrite Ht.
Qed.

(** A push that finds no memory, or whose counter would overflow. *)
Definition push_fails (s : wq) (t : nat) : Prop :=
  exists fd, threads s !! t = Some (PushItem fd) /\ (calloc (allocs s) (items s) = None \/ size s = INT_MAX).

Lemma inv_lock s l fds t q : wq_inv s l fds -> holds q = true -> owns q = owner (threads s) t ->
  result q = threads s !! t ≫= result -> threads s !! t <> Some PushBroadcast -> q <> PopWait ->
  exists o, lock s t q = Ret o /\ match o with None => mutex s <> None | Some s' => wq_inv s' l fds end.
Proof.
  intros I H O R B W. unfold lock. destruct (mutex s) eqn:E; [by exists None|]. eexists. split; [done|].
  apply inv_move; try done. right. left. by rewrite E.
Qed.

Lemma inv_unlock s l fds t q : wq_inv s l fds -> holding (threads s) t = true -> holds q = false -> owns q = owner (threads s) t ->
  result q = threads s !! t ≫= result -> threads s !! t <> Some PushBroadcast -> (q = PopWait -> l = []) ->
  exists s', unlock s t q = Ret (Some s') /\ wq_inv s' l fds.
Proof.
  intros I H N O R B W. eexists. split; [done|]. apply inv_move; try done. right. right. split_and!; try done. by apply (inv_mutex _ _ _ I).
Qed.

(** The calls that have returned or wait, and those that have no step to make. *)
Definition quiet (p : pc) : bool := match p with PopWait | PopDone _ | PushDone => true | _ => false end.
Definition stuck (s : wq) (t : nat) : Prop :=
  match threads s !! t with
  | None | Some (PopDone _) | Some PushDone | Some PopWait => True
  | Some PopLock | Some PopRelock | Some (PushLock _) => mutex s <> None
  | Some _ => False
  end.

Lemma step_inv s l fds t : wq_inv s l fds ->
  (step calloc t s = UB /\ push_fails s t) \/ (step calloc t s = Ret None /\ stuck s t) \/
  exists s' l' fds', step calloc t s = Ret (Some s') /\ wq_inv s' l' fds'.
Proof.
  intros I. pose proof (inv_bound _ _ _ I) as IB. pose proof (inv_size _ _ _ I) as IS.
  unfold step, stuck. destruct (threads s !! t) as [p|] eqn:Ht; [|by right; left].
  assert (owner (threads s) t = owns p /\ holding (threads s) t = holds p) as [EO EH] by (unfold owner, holding; by rewrite Ht).
  assert (forall q, holds q = true -> owns q = owns p -> result q = result p -> p <> PushBroadcast -> q <> PopWait ->
    (lock s t q = Ret None /\ mutex s <> None) \/ exists s' l' fds', lock s t q = Ret (Some s') /\ wq_inv s' l' fds') as LOCK.
  { intros q Q1 Q2 Q3 Q4 Q5. destruct (inv_lock s l fds t q I) as ([s'|] & -> & H); rewrite ?EO, ?Ht; try done; try congruence;
      [right; by exists s', l, fds|by left]. }
  assert (forall q, holds p = true -> holds q = false -> owns q = owns p -> result q = result p -> p <> PushBroadcast ->
    (q = PopWait -> l = []) -> exists s' l' fds', unlock s t q = Ret (Some s') /\ wq_inv s' l' fds') as UNLOCK.
  { intros q P Q1 Q2 Q3 Q4 Q5. destruct (inv_unlock s l fds t q I) as (s' & -> & H); rewrite ?EO, ?EH, ?Ht; try done; try congruence.
    by exists s', l, fds. }
  destruct p; try (by right; left); try (right; by apply LOCK); try (right; right; by apply UNLOCK).
  - destruct (size s =? 0) eqn:E0.
    + right. right. apply UNLOCK; try done. intros _. destruct l; [done|cbn in IS; lia].
    + right. right. destruct (inv_pop s l fds t I Ht) as (s' & l' & fds' & -> & H); [lia|unfold INT_MAX in IB; lia|].
      by exists s', l', fds'.
  - destruct (inv_free _ _ _ _ _ _ I Ht) as [[x Hx] H]. right. right. rewrite Hx. cbn [deref obind]. by eexists _, l, fds.
  - destruct (calloc (allocs s) (items s)) as [a|] eqn:EC.
    + destruct (inv_push s l fds t fd a I Ht EC) as (h' & hd' & EA & H). destruct (decide (size s = INT_MAX)) as [EM|NM].
      * left. split; [|exists fd; by auto]. unfold push_item. rewrite EC. cbn [deref obind]. rewrite EA. cbn [obind]. by rewrite EM.
      * right. right. destruct H as (s' & -> & H); [unfold INT_MAX in *; lia|]. by eexists _, _, _.
    + left. split; [|exists fd; by auto]. unfold push_item. by rewrite EC.
  - right. right. eexists _, l, fds. split; [done|]. by apply inv_broadcast.
Qed.

Lemma inv_init : wq_inv wq_init [] [].
Proof.
  split; try done.
  - split; try done. by constructor.
  - intros a. split; [by intros [? ?]|]. intros [H|[t H]]; [by apply not_elem_of_nil in H|done].
Qed.

Lemma wq_step_inv s s' l fds : wq_inv s l fds -> wq_step calloc s s' -> exists l' fds', wq_inv s' l' fds'.
Proof.
  intros I H. assert (forall t q, holds q = false -> owns q = None -> result q = None -> q <> PopWait ->
    threads s !! t = None \/ threads s !! t = Some PopWait -> wq_inv (set_thread s t q) l fds) as NEW.
  { intros t q Q1 Q2 Q3 Q4 Ht. change (set_thread s t q) with (set_thread (set_mutex s (mutex s)) t q).
    apply inv_move; try done; [left; split; [done|]; unfold holding|unfold owner|..]; by destruct Ht as [-> | ->]. }
  destruct H as [t s' E|t Ht|t Ht|t fd Ht].
  - destruct (step_inv s l fds t I) as [[E' _]|[[E' _]|(s'' & l' & fds' & E' & H)]]; rewrite E in E'; try done.
    injection E' as <-. by eexists _, _.
  - exists l, fds. apply NEW; by auto.
  - exists l, fds. apply NEW; by auto.
  - exists l, fds. apply NEW; by auto.
Qed.

Definition reachable (s : wq) : Prop := rtc (wq_step calloc) wq_init s.

Lemma reachable_inv s : reachable s -> exists l fds, wq_inv s l fds.
Proof.
  revert s. apply (rtc_ind_r (fun s => exists l fds, wq_inv s l fds)); [exists [], []; apply inv_init|].
  intros s s' _ S (l & fds & I). by eapply wq_step_inv.
Qed.

(** C10. In every state that pushing and popping threads can reach, in any interleaving: the queue holds
    exactly the connections pushed and not yet popped, in the order of the pushes; [size] is their number;
    at most one call is between taking and releasing the mutex; every connection popped is the result
    of exactly one call; the live items are those of the list and those that a pop is about to free; and
    no step dereferences a dangling pointer or frees twice: a step is undefined only if it is a push for which
    [calloc] found no memory or whose counter would overflow. *)
Theorem wq_safe s : reachable s -> exists l fds,
  dlist (items s) (head s) l fds /\ pushed s = popped s ++ fds /\ size s = Z.of_nat (length fds) /\
  (forall t u, holding (threads s) t = true -> holding (threads s) u = true -> t = u) /\
  popped s ≡ₚ results (threads s) /\
  (forall a, is_Some (items s !! a) <-> a ∈ l \/ exists t, owner (threads s) t = Some a) /\
  forall t, (exists r, step calloc t s = Ret r) \/ (step calloc t s = UB /\ push_fails s t).
Proof.
  intros (l & fds & I)%reachable_inv. exists l, fds. split_and!; try apply I.
  - rewrite (inv_size _ _ _ I). by rewrite (dl_length _ _ _ _ (inv_list _ _ _ I)).
  - intros t u Ht Hu. apply (inv_mutex _ _ _ I) in Ht, Hu. congruence.
  - intros t. destruct (step_inv s l fds t I) as [?|[[E _]|(s' & _ & _ & E & _)]]; [by right|left..]; by eexists.
Qed.

(** C14. No wake-up is lost and no call is stuck: in a reachable state some call can make a step, unless
    every call has returned or waits, with the mutex free, for a connection while the queue is empty (or a
    push is at the point of failing). *)
Theorem wq_progress s : reachable s -> (forall t, ~ push_fails s t) ->
  (exists t s', step calloc t s = Ret (Some s')) \/
  (mutex s = None /\ forall t p, threads s !! t = Some p ->
    match p with PopDone _ | PushDone => True | PopWait => head s = NULL /\ pushed s = popped s | _ => False end).
Proof.
  intros (l & fds & I)%reachable_inv NF.
  assert (forall t, (exists s', step calloc t s = Ret (Some s')) \/ stuck s t) as ST.
  { intros t. destruct (step_inv s l fds t I) as [[_ H]|[[_ H]|(s' & _ & _ & E & _)]]; [by apply NF in H|by right|left; by eexists]. }
  destruct (mutex s) as [m|] eqn:EM.
  - left. exists m. destruct (ST m) as [?|H]; [done|]. apply (inv_mutex _ _ _ I) in EM. unfold holding, stuck in *.
    by destruct (threads s !! m) as [[]|].
  - destruct (decide (map_Forall (fun _ p => quiet p = true) (threads s))) as [Q|Q].
    + right. split; [done|]. intros t p Ht. pose proof (Q t p Ht) as Qt. destruct p; try done.
      destruct (inv_wait _ _ _ I t Ht) as [->|[u Hu]]; [|by specialize (Q u _ Hu)].
      destruct (inv_list _ _ _ I) as [-> L _ _ _]. destruct fds; [|done]. split; [done|]. by rewrite (inv_fifo _ _ _ I), app_nil_r.
    + assert (forall (i : nat) p, Decision ((fun _ p => quiet p = true) i p)) as DQ by (intros i p; cbn; apply _).
      apply (map_not_Forall (fun (_ : nat) p => quiet p = true) (threads s)) in Q as (t & p & Ht & Q).
      left. exists t. destruct (ST t) as [?|H]; [done|]. unfold stuck in H. rewrite Ht, EM in H. by destruct p.
Qed.
End Push.

(** * A run *)

(** Addresses that are never reused. *)
Definition bump (n : nat) (h : items_t) : option Z :=
  let a := 32 * (Z.of_nat n + 1) in match h !! a with None => Some a | Some _ => None end.

Lemma bump_fresh n h a : bump n h = Some a -> 0 < a /\ h !! a = None.
Proof. unfold bump. destruct (h !! (32 * (Z.of_nat n + 1))) eqn:E; [done|]. intros [= <-]. split; [lia|done]. Qed.

Inductive event := Run (t : nat) | Pop (t : nat) | Push (t : nat) (fd : Z).
Fixpoint run (es : list event) (s : wq) : option wq :=
  match es with
  | [] => Some s
  | Run t :: es => match step bump t s with Ret (Some s') => run es s' | _ => None end
  | Pop t :: es => match threads s !! t with None => run es (set_thread s t PopLock) | Some _ => None end
  | Push t fd :: es => match threads s !! t with None => run es (set_thread s t (PushLock fd)) | Some _ => None end
  end.

Lemma run_reachable es s s' : run es s = Some s' -> rtc (wq_step bump) s s'.
Proof.
  revert s. induction es as [|[t|t|t fd] es IH]; cbn; intros s; [intros [= ->]; done|..].
  - destruct (step bump t s) as [[s1|]| | |] eqn:E; try done. intros H%IH. eapply rtc_l; [by eapply step_thread|done].
  - destruct (threads s !! t) eqn:E; [done|]. intros H%IH. eapply rtc_l; [by eapply step_pop|done].
  - destruct (threads s !! t) eqn:E; [done|]. intros H%IH. eapply rtc_l; [by eapply step_push|done].
Qed.

(** Two poppers wait; one push wakes both; one of them gets the connection and the other waits again. *)
Definition two_poppers : list event :=
  [Pop 1; Pop 2; Run 1; Run 1; Run 2; Run 2; Push 3 7; Run 3; Run 3; Run 3; Run 3; Run 2; Run 2; Run 2; Run 2; Run 1; Run 1]%nat.

Lemma wq_safe_witness : exists s, run two_poppers wq_init = Some s /\ threads s !! 2%nat = Some (PopDone 7) /\ threads s !! 1%nat = Some PopWait /\
  popped s ≡ₚ results (threads s).
Proof.
  eexists. split; [vm_compute; reflexivity|]. split; [vm_compute; reflexivity|]. split; [vm_compute; reflexivity|].
  destruct (wq_safe bump bump_fresh (default wq_init (run two_poppers wq_init))) as (l & fds & _ & _ & _ & _ & H & _).
  - apply (run_reachable two_poppers). vm_compute. reflexivity.
  - exact H.
Defined.

Definition pushing (p : pc) : bool := match p with PushItem _ => true | _ => false end.
Lemma no_push_fails s : bool_decide (map_Forall (fun _ p => pushing p = false) (threads s)) = true ->
  forall t, ~ push_fails bump s t.
Proof. intros H%bool_decide_eq_true t (fd & Ht & _). by specialize (H t _ Ht). Qed.

(** One call has pushed, the poppers wait and are not yet woken. *)
Lemma wq_progress_witness : exists s, run (take 9 two_poppers) wq_init = Some s /\ exists t s', step bump t s = Ret (Some s').
Proof.
  eexists. split; [vm_compute; reflexivity|].
  destruct (wq_progress bump bump_fresh) with (s := default wq_init (run (take 9 two_poppers) wq_init)) as [H|[_ H]].
  - apply (run_reachable (take 9 two_poppers)). vm_compute. reflexivity.
  - apply no_push_fails. vm_compute. reflexivity.
  - revert H. vm_compute. done.
  - by specialize (H 3%nat PushBroadcast eq_refl).
Defined.
