(* ===== verification/Words.v ===== *)
(** The word counter of the first homework (hw-intro/words): the list of words with their counts
    (word_count.c) and the functions that read a file into it (main.c), on the C library's heap. *)
From S2P Require Import Prelude Palloc KString KStdlib.

(** * Definitions *)

(** [struct word_count]; [word] and [next] are addresses. *)
Record WordCount := mk_wc { word : Z; count : Z; next : Z }.
Definition set_word (n : WordCount) (v : Z) : WordCount := mk_wc v (count n) (next n).
Definition set_count (n : WordCount) (v : Z) : WordCount := mk_wc (word n) v (next n).
Definition set_next (n : WordCount) (v : Z) : WordCount := mk_wc (word n) (count n) v.

Inductive block := Chars (l : list Z) | Node (n : WordCount).

(** The heap, the number of allocations so far and the global [word_counts], to which [wclist] points. *)
Record lib := mk_lib { blocks : gmap Z block; mallocs : nat; word_counts : Z }.
Definition set_blocks (s : lib) (b : gmap Z block) : lib := mk_lib b (mallocs s) (word_counts s).
Definition set_head (p : Z) : ST lib unit := modify (fun s => mk_lib (blocks s) (mallocs s) p).
Abbreviation LIB := (ST lib).

Definition EOF : Z := -1.
Definition MAX_WORD_LEN : nat := 64.
Definition new_address (s : lib) : Z := 16 * (Z.of_nat (mallocs s) + 1).

(** ** The C library

    [fails k] says that the [k]-th allocation finds no memory.  The library is simplified: addresses are never
    used again, and a new block has the contents given here although they are indeterminate in C. *)
Section Words.
Context (fails : nat -> bool).

Definition malloc (b : block) : LIB Z := fun s =>
  if fails (mallocs s) then Ret (NULL, mk_lib (blocks s) (S (mallocs s)) (word_counts s))
  else Ret (new_address s, mk_lib (<[new_address s := b]> (blocks s)) (S (mallocs s)) (word_counts s)).
Definition free (p : Z) : LIB unit := fun s =>
  let? _ := deref (blocks s !! p) in Ret (tt, set_blocks s (delete p (blocks s))).

Definition load_node (p : Z) : LIB WordCount := fun s =>
  match blocks s !! p with Some (Node n) => Ret (n, s) | _ => UB end.
Definition update_node (p : Z) (f : WordCount -> WordCount) : LIB unit := fun s =>
  match blocks s !! p with Some (Node n) => Ret (tt, set_blocks s (<[p := Node (f n)]> (blocks s))) | _ => UB end.
Definition load_chars (p : Z) : LIB (list Z) := fun s =>
  match blocks s !! p with Some (Chars l) => Ret (l, s) | _ => UB end.
Definition store_chars (p : Z) (c : list Z) : LIB unit := fun s =>
  match blocks s !! p with
  | Some (Chars l) =>
      if (length c <=? length l)%nat
      then Ret (tt, set_blocks s (<[p := Chars (c ++ drop (length c) l)]> (blocks s))) else UB
  | _ => UB
  end.
(** [str[i] = c;] *)
Definition store_char (p i c : Z) : LIB unit := fun s =>
  match blocks s !! p with
  | Some (Chars l) => let? l := aset l i c in Ret (tt, set_blocks s (<[p := Chars l]> (blocks s)))
  | _ => UB
  end.

(** Reading past the end of a block is undefined. *)
Fixpoint strlen (l : list Z) : outcome nat :=
  match l with
  | [] => UB
  | c :: l => if c =? 0 then Ret O else let? n := strlen l in Ret (S n)
  end.
Fixpoint strcmp (a b : list Z) : outcome Z :=
  match a, b with
  | x :: a, y :: b =>
      if x =? y then if x =? 0 then Ret 0 else strcmp a b
      else Ret (if x <? y then -1 else 1)
  | _, _ => UB
  end.

(** A list has fewer items than the heap has blocks. *)
Definition list_fuel (s : lib) : nat := S (size (blocks s)).

(** ** word_count.c *)

Definition new_string (str : Z) : LIB Z :=
  let! l := load_chars str in
  let! n := lift (strlen l) in
  let! new_str := malloc (Chars (replicate (S n) 0)) in
  if new_str =? NULL then ret NULL
  else let! _ := store_chars new_str (take (S n) l) in ret new_str.

Definition init_words : LIB Z := let! _ := set_head NULL in ret 0.

Fixpoint len_loop (fuel : nat) (wc len : Z) : LIB Z :=
  match fuel with
  | O => fun _ => NoFuel
  | S fuel =>
      if wc =? NULL then ret len
      else let! n := load_node wc in len_loop fuel (next n) (u64 (len + 1))
  end.
Definition len_words (wchead : Z) : LIB Z :=
  if wchead =? NULL then ret 0 else let! fuel := gets list_fuel in len_loop fuel wchead 0.

Fixpoint find_loop (fuel : nat) (wc w : Z) : LIB Z :=
  match fuel with
  | O => fun _ => NoFuel
  | S fuel =>
      if wc =? NULL then ret NULL
      else
        let! n := load_node wc in
        let! a := load_chars (word n) in
        let! b := load_chars w in
        let! r := lift (strcmp a b) in
        if r =? 0 then ret wc else find_loop fuel (next n) w
  end.
Definition find_word (wchead w : Z) : LIB Z := let! fuel := gets list_fuel in find_loop fuel wchead w.

(** [while (head->next) head = head->next;] *)
Fixpoint tail_loop (fuel : nat) (head : Z) : LIB Z :=
  match fuel with
  | O => fun _ => NoFuel
  | S fuel => let! n := load_node head in if next n =? NULL then ret head else tail_loop fuel (next n)
  end.

(** The three assignments to the fields of a new node. *)
Definition fill_node (p w : Z) : LIB unit :=
  let! _ := update_node p (fun n => set_count n 1) in
  let! str := new_string w in
  let! _ := update_node p (fun n => set_word n str) in
  update_node p (fun n => set_next n NULL).

Definition add_word (w : Z) : LIB Z :=
  let! hd := gets word_counts in
  if hd =? NULL then
    let! p := malloc (Node (mk_wc 0 0 0)) in
    let! _ := set_head p in
    if p =? NULL then ret 1
    else
      let! _ := fill_node p w in
      ret 0
  else
    let! wc := find_word hd w in
    if wc =? NULL then
      let! new_wc := malloc (Node (mk_wc 0 0 0)) in
      if new_wc =? NULL then ret 1
      else
        let! _ := update_node new_wc (fun _ => mk_wc 0 0 0) in
        let! _ := fill_node new_wc w in
        let! n := load_node new_wc in
        if word n =? NULL then ret 1
        else
          let! hd := gets word_counts in
          let! fuel := gets list_fuel in
          let! tail := tail_loop fuel hd in
          let! _ := update_node tail (fun n => set_next n new_wc) in
          ret 0
    else
      let! n := load_node wc in
      let! c := lift (int_ (count n + 1)) in
      let! _ := update_node wc (fun n => set_count n c) in
      ret 0.

(** ** main.c *)

Definition next_letter (n : Z) : outcome Z :=
  if n =? 0 then Ret 1 else if 0 <? n then int_ (n + 1) else Ret n.

(** The loop of [num_words], over the characters that [fgetc] returns, which are stored in a [char]. *)
Fixpoint num_loop (l : list Z) (is_new_word num_words : Z) : outcome (Z * Z) :=
  match l with
  | [] => Ret (is_new_word, num_words)
  | c :: l =>
      let ch := schar c in
      if ch =? EOF then Ret (is_new_word, num_words)
      else if isalpha ch then
        let? n := next_letter is_new_word in num_loop l n num_words
      else
        let? m := if 1 <? is_new_word then int_ (num_words + 1) else Ret num_words in
        num_loop l 0 m
  end.

(** [fclose] must not be given a null pointer. *)
Definition num_words (infile : option (list Z)) : outcome Z :=
  match infile with
  | None => UB
  | Some l =>
      let? (n, m) := num_loop l 0 0 in
      if 1 <? n then int_ (m + 1) else Ret m
  end.

(** [malloc] and [memset] of the buffer for one word. *)
Definition new_buffer : LIB Z :=
  let! str := malloc (Chars (replicate MAX_WORD_LEN 0)) in
  if str =? NULL then ret NULL
  else let! _ := store_chars str (replicate MAX_WORD_LEN 0) in ret str.

(** [None]: the function has returned 1. *)
Fixpoint count_loop (l : list Z) (str is_new_word : Z) : LIB (option (Z * Z)) :=
  match l with
  | [] => ret (Some (str, is_new_word))
  | c :: l =>
      let ch := schar c in
      if ch =? EOF then ret (Some (str, is_new_word))
      else if isalpha ch then
        let! n := lift (next_letter is_new_word) in
        let! _ := store_char str (n - 1) (tolower ch) in
        count_loop l str n
      else
        let! e := if 1 <? is_new_word then add_word str else ret 0 in
        if e =? 1 then ret None
        else
          let! _ := free str in
          let! str := new_buffer in
          if str =? NULL then ret None else count_loop l str 0
  end.

Definition count_words (wclist_null : bool) (infile : option (list Z)) : LIB Z :=
  match wclist_null, infile with
  | false, Some l =>
      let! str := new_buffer in
      if str =? NULL then ret 1
      else
        let! r := count_loop l str 0 in
        match r with
        | None => ret 1
        | Some (str, n) =>
            let! e := if 1 <? n then add_word str else ret 0 in
            if e =? 1 then ret 1 else ret 0
        end
  | _, _ => ret 1
  end.

Definition wordcount_less (wc1 wc2 : Z) : LIB bool :=
  let! a := load_node wc1 in
  let! b := load_node wc2 in
  if count a =? count b then
    let! x := load_chars (word a) in
    let! y := load_chars (word b) in
    let! r := lift (strcmp x y) in
    ret (r <? 0)
  else ret (count a <? count b).
End Words.

(** * The words of a text *)

(** Runs of two or more letters, in lower case; the byte 255 ends the text. *)
Definition flush (cur : list Z) : list (list Z) := if (2 <=? length cur)%nat then [cur] else [].
Fixpoint words_from (cur l : list Z) : list (list Z) :=
  match l with
  | [] => flush cur
  | c :: l =>
      if schar c =? EOF then flush cur
      else if isalpha (schar c) then words_from (cur ++ [tolower (schar c)]) l
      else flush cur ++ words_from [] l
  end.
Definition words (l : list Z) : list (list Z) := words_from [] l.

(** Words with their numbers of occurrences, in the order of the first ones. *)
Fixpoint add (w : list Z) (al : list (list Z * Z)) : list (list Z * Z) :=
  match al with
  | [] => [(w, 1)]
  | (v, n) :: al => if bool_decide (v = w) then (v, n + 1) :: al else (v, n) :: add w al
  end.
Definition tally (ws : list (list Z)) (al : list (list Z * Z)) : list (list Z * Z) := foldl (fun al w => add w al) al ws.

Example homework_words_example : words (chars "To be, or not to be: a Q.") =
  [chars "to"; chars "be"; chars "or"; chars "not"; chars "to"; chars "be"].
Proof. reflexivity. Qed.
Example tally_example : tally (words (chars "To be, or not to be: a Q.")) [] =
  [(chars "to", 2); (chars "be", 2); (chars "or", 1); (chars "not", 1)].
Proof. reflexivity. Qed.


(** * Lemmas *)


Lemma strcmp_Ret a b x y : Forall (fun c => 0 < c) a -> Forall (fun c => 0 < c) b ->
  strcmp (a ++ 0 :: x) (b ++ 0 :: y) = Ret (cmp_sign (lex a b)).
Proof.
  intros H. revert b. induction H as [|c a Hc _ IH]; intros b; destruct 1 as [|d b Hd Hb]; cbn [app strcmp lex].
  - done.
  - by replace (0 =? d) with false by lia; replace (0 <? d) with true by lia.
  - by replace (c =? 0) with false by lia; replace (c <? 0) with false by lia.
  - destruct (Z.compare_spec c d) as [<-|L|L].
    + rewrite Z.eqb_refl. replace (c =? 0) with false by lia. by apply IH.
    + by replace (c =? d) with false by lia; replace (c <? d) with true by lia.
    + by replace (c =? d) with false by lia; replace (c <? d) with false by lia.
Qed.





(** ** The list on the heap *)


Definition addrs (L : list (Z * Z)) : list Z := L.*1 ++ L.*2.




Lemma addrs_app L1 L2 : addrs (L1 ++ L2) ≡ₚ addrs L1 ++ addrs L2.
Proof. unfold addrs. rewrite !fmap_app. solve_Permutation. Qed.



Section Found.
Context (fails : nat -> bool).





End Found.

Lemma load_node_Ret p s n : blocks s !! p = Some (Node n) -> load_node p s = Ret (n, s).
Proof. intros H. unfold load_node. by rewrite H. Qed.
Lemma load_chars_Ret p s l : blocks s !! p = Some (Chars l) -> load_chars p s = Ret (l, s).
Proof. intros H. unfold load_chars. by rewrite H. Qed.





Section Allocated.
Context (fails : nat -> bool) (NF : forall k, fails k = false).









(** ** The buffer *)












End Allocated.

(** ** Counting *)



(** The order of the sort: by count, then alphabetically. *)
Lemma wordcount_less_Ret s p q a b u v n m x y r t : blocks s !! p = Some (Node (mk_wc a n x)) -> blocks s !! q = Some (Node (mk_wc b m y)) ->
  blocks s !! a = Some (Chars (u ++ 0 :: r)) -> blocks s !! b = Some (Chars (v ++ 0 :: t)) ->
  Forall (fun c => 0 < c) u -> Forall (fun c => 0 < c) v ->
  wordcount_less p q s = Ret (if n =? m then bool_decide (lex u v = Lt) else n <? m, s).
Proof.
  intros Ep Eq Ea Eb Pu Pv. unfold wordcount_less.
  rewrite (bind_Ret _ _ _ _ _ (load_node_Ret _ _ _ Ep)), (bind_Ret _ _ _ _ _ (load_node_Ret _ _ _ Eq)). cbn [count word].
  destruct (n =? m); [|done]. rewrite (bind_Ret _ _ _ _ _ (load_chars_Ret _ _ _ Ea)), (bind_Ret _ _ _ _ _ (load_chars_Ret _ _ _ Eb)).
  rewrite strcmp_Ret, bind_lift_Ret by done. by destruct (lex u v).
Qed.


Definition empty_lib : lib := mk_lib ∅ 0 NULL.


(** A word as long as the buffer. *)
Example long_word : count_words (fun _ => false) false (Some (replicate 64 97)) empty_lib = UB.
Proof. vm_compute. reflexivity. Qed.

(** When no memory is found for the letters of the first word, [add_word] reports success and the next word
    is compared with a null pointer. *)
Example first_word_lost :
  match count_words (fun k => (k =? 2)%nat) false (Some (chars "be ")) empty_lib with Ret (r, _) => r = 0 | _ => False end /\
  count_words (fun k => (k =? 2)%nat) false (Some (chars "be be")) empty_lib = UB.
Proof. vm_compute. done. Qed.

Example count_example :
  match count_words (fun _ => false) false (Some (chars "To be, or not to be: a Q.")) (mk_lib ∅ 0 NULL) with
  | Ret (r, s) => match len_words (word_counts s) s with Ret (n, _) => (r, n, size (blocks s)) = (0, 4, 9%nat) | _ => False end
  | _ => False
  end.
Proof. vm_compute. reflexivity. Qed.
