(* ===== verification/Process.v ===== *)
(** User processes (userprog/process.c, with tss_update of tss.c, exception.c and syscall.c): loading
    an ELF executable from the file system into a new address space, starting, leaving and killing
    the process that runs in it. *)
From S2P Require Import Prelude KStdlib Bitmap Vaddr Palloc Pagedir Endian Block Fs.

(** * Definitions *)

Record process := mk_process { pagedir : Z; process_name : list Z; main_thread : Z }.

(** Lines printed, by what they say. *)
Inductive message :=
  | MsgOpenFailed (name : list Z)
  | MsgLoadError (name : list Z)
  | MsgExit (name : list Z) (status : Z)
  | MsgDying (name : list Z) (vec_no : Z)
  | MsgPageFault (fault_addr : Z) (not_present write user : bool).

(** The current thread is named by the address of its [struct thread]. *)
Record ps (D : Type) := mk_ps {
  p_vm : vm;
  p_fs : fs_state D;
  cur_thread : Z;
  cur_name : list Z;
  pcb : option process;
  temporary : Z;
  tss_esp0 : Z;
  page_fault_cnt : Z;
  p_console : list message
}.
Arguments mk_ps {D}.
Arguments p_vm {D}.
Arguments p_fs {D}.
Arguments cur_thread {D}.
Arguments cur_name {D}.
Arguments pcb {D}.
Arguments temporary {D}.
Arguments tss_esp0 {D}.
Arguments page_fault_cnt {D}.
Arguments p_console {D}.

Definition with_vm {D} (s : ps D) (v : vm) : ps D :=
  mk_ps v (p_fs s) (cur_thread s) (cur_name s) (pcb s) (temporary s) (tss_esp0 s) (page_fault_cnt s) (p_console s).
Definition with_fs {D} (s : ps D) (f : fs_state D) : ps D :=
  mk_ps (p_vm s) f (cur_thread s) (cur_name s) (pcb s) (temporary s) (tss_esp0 s) (page_fault_cnt s) (p_console s).
Definition with_pcb {D} (s : ps D) (p : option process) : ps D :=
  mk_ps (p_vm s) (p_fs s) (cur_thread s) (cur_name s) p (temporary s) (tss_esp0 s) (page_fault_cnt s) (p_console s).
Definition with_temporary {D} (s : ps D) (n : Z) : ps D :=
  mk_ps (p_vm s) (p_fs s) (cur_thread s) (cur_name s) (pcb s) n (tss_esp0 s) (page_fault_cnt s) (p_console s).
Definition with_esp0 {D} (s : ps D) (a : Z) : ps D :=
  mk_ps (p_vm s) (p_fs s) (cur_thread s) (cur_name s) (pcb s) (temporary s) a (page_fault_cnt s) (p_console s).
Definition with_faults {D} (s : ps D) (n : Z) : ps D :=
  mk_ps (p_vm s) (p_fs s) (cur_thread s) (cur_name s) (pcb s) (temporary s) (tss_esp0 s) n (p_console s).
Definition with_console {D} (s : ps D) (l : list message) : ps D :=
  mk_ps (p_vm s) (p_fs s) (cur_thread s) (cur_name s) (pcb s) (temporary s) (tss_esp0 s) (page_fault_cnt s) l.

(** ** ELF headers *)

Record Elf32_Ehdr := mk_Ehdr {
  e_ident : list Z; e_type : Z; e_machine : Z; e_version : Z; e_entry : Z; e_phoff : Z;
  e_phentsize : Z; e_phnum : Z }.
Definition sizeof_Ehdr : Z := 52.
Definition decode_Ehdr (l : list Z) : Elf32_Ehdr :=
  mk_Ehdr (field l 0 16) (le_value (field l 16 2)) (le_value (field l 18 2)) (le_value (field l 20 4))
    (le_value (field l 24 4)) (le_value (field l 28 4)) (le_value (field l 42 2)) (le_value (field l 44 2)).

Record Elf32_Phdr := mk_Phdr {
  p_type : Z; p_offset : Z; p_vaddr : Z; p_filesz : Z; p_memsz : Z; p_flags : Z }.
Definition sizeof_Phdr : Z := 32.
Definition decode_Phdr (l : list Z) : Elf32_Phdr :=
  mk_Phdr (le_value (field l 0 4)) (le_value (field l 4 4)) (le_value (field l 8 4))
    (le_value (field l 16 4)) (le_value (field l 20 4)) (le_value (field l 24 4)).

Definition PT_NULL : Z := 0.
Definition PT_LOAD : Z := 1.
Definition PT_DYNAMIC : Z := 2.
Definition PT_INTERP : Z := 3.
Definition PT_NOTE : Z := 4.
Definition PT_SHLIB : Z := 5.
Definition PT_PHDR : Z := 6.
Definition PT_STACK : Z := 0x6474e551.
Definition PF_W : Z := 2.

Definition ROUND_UP (x step : Z) : Z := u32 (u32 (x + step - 1) / step * step).

(** The checks on the file header that follow a complete read. *)
Definition header_ok (h : Elf32_Ehdr) : bool :=
  bool_decide (take 7 (e_ident h) = [127; 69; 76; 70; 1; 1; 1]) && (e_type h =? 2) &&
  (e_machine h =? 3) && (e_version h =? 1) && (e_phentsize h =? sizeof_Phdr) && (e_phnum h <=? 1024).

Definition validate_segment (phdr : Elf32_Phdr) (file_length : Z) : bool :=
  if negb (Z.land (p_offset phdr) PGMASK =? Z.land (p_vaddr phdr) PGMASK) then false
  else if u32 file_length <? p_offset phdr then false
  else if p_memsz phdr <? p_filesz phdr then false
  else if p_memsz phdr =? 0 then false
  else if negb (is_user_vaddr (p_vaddr phdr)) then false
  else if negb (is_user_vaddr (u32 (p_vaddr phdr + p_memsz phdr))) then false
  else if u32 (p_vaddr phdr + p_memsz phdr) <? p_vaddr phdr then false
  else if p_vaddr phdr <? PGSIZE then false
  else true.

(** The arguments of [load_segment] for a segment. *)
Record segment := mk_segment {
  sg_file_page : Z; sg_mem_page : Z; sg_read_bytes : Z; sg_zero_bytes : Z; sg_writable : bool }.
Definition segment_of (phdr : Elf32_Phdr) : segment :=
  let writable := negb (Z.land (p_flags phdr) PF_W =? 0) in
  let file_page := Z.land (p_offset phdr) (u32 (Z.lnot PGMASK)) in
  let mem_page := Z.land (p_vaddr phdr) (u32 (Z.lnot PGMASK)) in
  let page_offset := Z.land (p_vaddr phdr) PGMASK in
  if 0 <? p_filesz phdr then
    let read_bytes := u32 (page_offset + p_filesz phdr) in
    mk_segment file_page mem_page read_bytes
      (u32 (ROUND_UP (u32 (page_offset + p_memsz phdr)) PGSIZE - read_bytes)) writable
  else mk_segment file_page mem_page 0 (ROUND_UP (u32 (page_offset + p_memsz phdr)) PGSIZE) writable.

(** Storing bytes in kernel memory. *)
Definition put_bytes (m : memory) (a : Z) (l : list Z) : memory :=
  fun b => if (a <=? b) && (b <? a + Z.of_nat (length l)) then nth (Z.to_nat (b - a)) l 0 else m b.

(** What becomes of a new process: it runs from its entry point, or its thread exits. *)
Inductive fate := Runs (eip esp : Z) | Exits.

Section Process.
Context {D : Type} `{!block_device D}.
#[local] Abbreviation P := (ST (ps D)) (only parsing).

Definition in_vm {A} (m : ST vm A) : P A := fun s => let? (a, v) := m (p_vm s) in Ret (a, with_vm s v).
Definition in_fs {A} (m : ST (fs_state D) A) : P A :=
  fun s => let? (a, f) := m (p_fs s) in Ret (a, with_fs s f).
Definition print (m : message) : P unit := modify (fun s => with_console s (m :: p_console s)).
Definition write_memory (f : memory -> memory) : P unit :=
  in_vm (modify (fun v => set_pages v (update_mem (pages v) (f (mem (pages v)))))).

Definition cur_pcb : P process := let! p := gets pcb in lift (deref p).

(** [tss_update] and [process_activate]. *)
Definition tss_update : P unit := modify (fun s => with_esp0 s (cur_thread s + PGSIZE)).
Definition process_activate : P unit :=
  let! p := gets pcb in
  let! _ := (match p with
             | Some p => if negb (pagedir p =? NULL) then in_vm (pagedir_activate (pagedir p))
                         else in_vm (pagedir_activate NULL)
             | None => in_vm (pagedir_activate NULL)
             end) in
  tss_update.

Definition install_page (upage kpage : Z) (writable : bool) : P bool :=
  let! p := cur_pcb in
  let! mapped := in_vm (pagedir_get_page (pagedir p) upage) in
  if mapped =? NULL then in_vm (pagedir_set_page (pagedir p) upage kpage writable) else ret false.

Definition setup_stack : P (option Z) :=
  let! kpage := in_vm (get_page (Z.lor PAL_USER PAL_ZERO)) in
  if negb (kpage =? NULL) then
    let! success := install_page (PHYS_BASE - PGSIZE) kpage true in
    if success then ret (Some (PHYS_BASE - 20))
    else let! _ := in_vm (free_page kpage) in ret None
  else ret None.

(** The loop of [load_segment], with the file position passed along in [file]. *)
Fixpoint load_pages (fuel : nat) (f : file) (upage read_bytes zero_bytes : Z) (writable : bool)
    : P (file * bool) :=
  match fuel with
  | O => fun _ => NoFuel
  | S fuel =>
      if (0 <? read_bytes) || (0 <? zero_bytes) then
        let page_read_bytes := if read_bytes <? PGSIZE then read_bytes else PGSIZE in
        let page_zero_bytes := PGSIZE - page_read_bytes in
        let! kpage := in_vm (get_page PAL_USER) in
        if kpage =? NULL then ret (f, false)
        else
          let! (bytes, f) := in_fs (file_read f page_read_bytes) in
          let! _ := write_memory (fun m => put_bytes m kpage bytes) in
          if negb (Z.of_nat (length bytes) =? page_read_bytes) then
            let! _ := in_vm (free_page kpage) in ret (f, false)
          else
            let! _ := write_memory (fun m => memset m (kpage + page_read_bytes) 0 page_zero_bytes) in
            let! ok := install_page upage kpage writable in
            if negb ok then
              let! _ := in_vm (free_page kpage) in ret (f, false)
            else
              load_pages fuel f (u32 (upage + PGSIZE)) (u32 (read_bytes - page_read_bytes))
                (u32 (zero_bytes - page_zero_bytes)) writable
      else ret (f, true)
  end.

(** One more iteration than there are pages. *)
Definition load_fuel (read_bytes zero_bytes : Z) : nat := Z.to_nat ((read_bytes + zero_bytes) / PGSIZE) + 1.

Definition load_segment (f : file) (ofs upage read_bytes zero_bytes : Z) (writable : bool)
    : P (file * bool) :=
  assert! u32 (read_bytes + zero_bytes) mod PGSIZE =? 0 in
  assert! pg_ofs upage =? 0 in
  assert! Z.rem ofs PGSIZE =? 0 in
  let! f := in_fs (file_seek f ofs) in
  load_pages (load_fuel read_bytes zero_bytes) f upage read_bytes zero_bytes writable.

(** The loop of [load] over [n] program headers; [false] stands for [goto done]. *)
Fixpoint load_headers (n : nat) (f : file) (file_ofs : Z) : P (file * bool) :=
  match n with
  | O => ret (f, true)
  | S n =>
      let! len := in_fs (file_length f) in
      if (file_ofs <? 0) || (len <? file_ofs) then ret (f, false)
      else
        let! f := in_fs (file_seek f file_ofs) in
        let! (bytes, f) := in_fs (file_read f sizeof_Phdr) in
        if negb (Z.of_nat (length bytes) =? sizeof_Phdr) then ret (f, false)
        else
          let! file_ofs := lift (int_ (file_ofs + sizeof_Phdr)) in
          let phdr := decode_Phdr bytes in
          if (p_type phdr =? PT_DYNAMIC) || (p_type phdr =? PT_INTERP) || (p_type phdr =? PT_SHLIB)
          then ret (f, false)
          else if p_type phdr =? PT_LOAD then
            let! len := in_fs (file_length f) in
            if validate_segment phdr len then
              let g := segment_of phdr in
              let! (f, ok) := load_segment f (s32 (sg_file_page g)) (sg_mem_page g) (sg_read_bytes g)
                                (sg_zero_bytes g) (sg_writable g) in
              if negb ok then ret (f, false) else load_headers n f file_ofs
            else ret (f, false)
          else load_headers n f file_ofs
  end.

(** [load] between the opening and the closing of the file: the entry point and the stack pointer. *)
Definition load_file (file_name : list Z) (f : file) : P (file * option (Z * Z)) :=
  let! (bytes, f) := in_fs (file_read f sizeof_Ehdr) in
  let ehdr := decode_Ehdr bytes in
  if negb (Z.of_nat (length bytes) =? sizeof_Ehdr) || negb (header_ok ehdr) then
    let! _ := print (MsgLoadError file_name) in ret (f, None)
  else
    let! (f, ok) := load_headers (Z.to_nat (e_phnum ehdr)) f (s32 (e_phoff ehdr)) in
    if negb ok then ret (f, None)
    else
      let! esp := setup_stack in
      match esp with
      | Some esp => ret (f, Some (e_entry ehdr, esp))
      | None => ret (f, None)
      end.

Definition load (file_name : list Z) : P (option (Z * Z)) :=
  let! p := cur_pcb in
  let! pd := in_vm pagedir_create in
  let! _ := modify (fun s => with_pcb s (Some (mk_process pd (process_name p) (main_thread p)))) in
  if pd =? NULL then
    let! _ := in_fs (file_close None) in ret None
  else
    let! _ := process_activate in
    let! f := in_fs (filesys_open file_name) in
    match f with
    | None =>
        let! _ := print (MsgOpenFailed file_name) in
        let! _ := in_fs (file_close None) in ret None
    | Some f =>
        let! (f, r) := load_file file_name f in
        let! _ := in_fs (file_close (Some f)) in ret r
    end.

(** The string at [a] in kernel memory, of fewer than [n] characters. *)
Fixpoint page_string (n : nat) (m : memory) (a : Z) : list Z :=
  match n with
  | O => []
  | S n => if m a =? 0 then [] else m a :: page_string n m (a + 1)
  end.

Definition sema_up_temporary : P unit := modify (fun s => with_temporary s (temporary s + 1)).

(** [file_name_] is the page [process_execute] filled; the thread's exit ends the process. *)
Definition start_process (file_name_ : Z) : P fate :=
  let! m := gets (fun s => mem (pages (p_vm s))) in
  let file_name := page_string (Z.to_nat PGSIZE) m file_name_ in
  let! ok := in_fs alloc in
  let! r := (if ok then
               let! _ := modify (fun s => with_pcb s (Some (mk_process NULL (take 15 (cur_name s)) (cur_thread s)))) in
               let! r := load file_name in
               let! _ := (match r with
                          | None => modify (fun s => with_pcb s None)
                          | Some _ => ret tt
                          end) in
               ret r
             else ret None) in
  let! _ := in_vm (free_page file_name_) in
  match r with
  | None => let! _ := sema_up_temporary in ret Exits
  | Some (eip, esp) => ret (Runs eip esp)
  end.

(** [created] is what [thread_create] returns for the new thread. *)
Definition process_execute (file_name : list Z) (created : Z) : P Z :=
  let! _ := modify (fun s => with_temporary s 0) in
  let! fn_copy := in_vm (get_page 0) in
  if fn_copy =? NULL then ret (-1)
  else
    let name := take (Z.to_nat (PGSIZE - 1)) file_name in
    let! _ := write_memory (fun m => put_bytes m fn_copy (name ++ [0])) in
    let! _ := (if created =? -1 then in_vm (free_page fn_copy) else ret tt) in
    ret created.

(** [None]: the caller sleeps until [temporary] is raised. *)
Definition process_wait : P (option Z) :=
  let! n := gets temporary in
  if 0 <? n then let! _ := modify (fun s => with_temporary s (n - 1)) in ret (Some 0) else ret None.

Definition process_exit : P unit :=
  let! p := gets pcb in
  match p with
  | None => ret tt
  | Some p =>
      let! _ := (if negb (pagedir p =? NULL) then
                   let! _ := modify (fun s => with_pcb s (Some (mk_process NULL (process_name p) (main_thread p)))) in
                   let! _ := in_vm (pagedir_activate NULL) in
                   in_vm (pagedir_destroy (pagedir p))
                 else ret tt) in
      let! _ := modify (fun s => with_pcb s None) in
      sema_up_temporary
  end.

(** The minimal process of the initial thread, from [calloc]. *)
Definition userprog_init : P unit :=
  let! ok := in_fs alloc in
  let! _ := modify (fun s => with_pcb s (if ok then Some (mk_process NULL [] NULL) else None)) in
  assert! ok in ret tt.

(** User threads are not implemented: creating and joining them fail. *)
Definition setup_thread : bool := false.
Definition pthread_execute : Z := -1.
Definition pthread_join : Z := -1.

(** ** Exceptions and system calls *)

Definition SEL_KCSEG : Z := 0x08.
Definition SEL_UCSEG : Z := 0x1b.
Definition SYS_EXIT : Z := 1.

Definition kill (cs vec_no : Z) : P unit :=
  if cs =? SEL_UCSEG then
    let! name := gets cur_name in
    let! _ := print (MsgDying name vec_no) in process_exit
  else panic.

Definition page_fault (fault_addr error_code cs : Z) : P unit :=
  let! _ := modify (fun s => with_faults s (page_fault_cnt s + 1)) in
  let not_present := Z.land error_code 1 =? 0 in
  let write := negb (Z.land error_code 2 =? 0) in
  let user := negb (Z.land error_code 4 =? 0) in
  let! _ := print (MsgPageFault fault_addr not_present write user) in
  kill cs 14.

(** A read by the kernel through the active page directory: kernel addresses are mapped 1:1, user
    addresses by the process's tables; anything else faults in kernel mode, with [error_code] 0. *)
Definition kernel_read (va : Z) : P Z :=
  let! pd := in_vm active_pd in
  let! page := in_vm (if is_user_vaddr va then pagedir_get_page pd va
                      else gets (fun v => if va <? PHYS_BASE + PGSIZE * init_ram_pages v then va else NULL)) in
  if page =? NULL then let! _ := page_fault va 0 SEL_KCSEG in ret 0
  else gets (fun s => mem (pages (p_vm s)) page).
Definition kernel_read_word (va : Z) : P Z :=
  let! b0 := kernel_read (u32 va) in
  let! b1 := kernel_read (u32 (va + 1)) in
  let! b2 := kernel_read (u32 (va + 2)) in
  let! b3 := kernel_read (u32 (va + 3)) in
  ret (u32 (b0 + 256 * b1 + 65536 * b2 + 16777216 * b3)).

(** [Some eax]: the process made the exit call and is gone. *)
Definition syscall_handler (esp : Z) : P (option Z) :=
  let! nr := kernel_read_word esp in
  if nr =? SYS_EXIT then
    let! status := kernel_read_word (esp + 4) in
    let! p := cur_pcb in
    let! _ := print (MsgExit (process_name p) (s32 status)) in
    let! _ := process_exit in
    ret (Some status)
  else ret None.

Definition is_main_thread (t : Z) (p : process) : bool := main_thread p =? t.
End Process.
