(* ===== verification/LoadFacts.v ===== *)
(** Loading pages into an address space: what one page of [load_segment] does to memory and tables,
    the loop over all pages, and the stack. *)
From S2P Require Import Prelude KStdlib Bitmap Vaddr Palloc Pagedir PagedirFacts PagedirProps AddressSpaces.
From S2P Require Import Endian Block Fs InodeFacts DirFacts Process.

(** * An address space that grows *)

(** [s'] is [s] after the directory [pd] took over the fresh pages [new]. *)
Record space_grows (s s' : vm) (pd : Z) (new : list Z) : Prop := {
  sg_grown : grown s s' (node s pd) new;
  sg_pd : pd_ok s' pd;
  sg_nodes : forall q, node s' pd q -> node s pd q \/ q ∈ new;
  sg_pages : pd_pages s' pd ≡ₚ new ++ pd_pages s pd;
  sg_kernel : same_kernel_half s s' pd
}.

Lemma sg_ok s s' pd new : space_grows s s' pd new -> vm_ok s'.
Proof. intros G. apply (gr_ok _ _ _ _ (sg_grown _ _ _ _ G)). Qed.

Lemma grown_refl s own : vm_ok s -> grown s s own [].
Proof. intros V. by split. Qed.

Lemma space_grows_refl s pd : vm_ok s -> pd_ok s pd -> space_grows s s pd [].
Proof. intros V OK. split; try done. intros q N. by left. Qed.

Lemma space_grows_trans s1 s2 s3 pd new1 new2 : space_grows s1 s2 pd new1 ->
  space_grows s2 s3 pd new2 -> space_grows s1 s3 pd (new2 ++ new1).
Proof.
  intros [[A1 A2 A3 A4 A5] B1 C1 D1 E1] [[F1 F2 F3 F4 F5] B2 C2 D2 E2].
  rewrite Forall_forall in A4, F4.
  assert (forall q, q ∈ pd_pages s1 pd \/ q ∈ new1 -> q mod 4096 = 0) as AL.
  { intros q Hq. pose proof (pd_live s2 pd B1) as L. rewrite Forall_forall in L. apply (L q).
    rewrite D1. apply elem_of_app. tauto. }
  split.
  - split; [done|by eapply same_cpu_trans| | |].
    + apply (keeps_trans s1 s2 s3 (node s1 pd) (node s2 pd)); [done|done|].
      intros q [Hm Hu] N. destruct (C1 q N) as [|Hn]; [done|]. exfalso. by rewrite (A4 q Hn) in Hu.
    + apply Forall_forall. intros q [Hq|Hq]%elem_of_app; [|auto].
      pose proof (F4 q Hq) as Fq. destruct (page_used (pages s1) q) eqn:U; [|done]. exfalso.
      assert (q mod 4096 = 0) as Hm.
      { pose proof (pd_live s3 pd B2) as L. rewrite Forall_forall in L. apply (L q).
        rewrite D2. apply elem_of_app. by left. }
      rewrite A5, U, orb_true_r in Fq by done. done.
    + intros q Hq. rewrite F5, A5 by done. rewrite orb_assoc. f_equal.
      destruct (decide (q ∈ new2)), (decide (q ∈ new1));
        rewrite ?(bool_decide_true (q ∈ new1)), ?(bool_decide_false (q ∈ new1)),
          ?(bool_decide_true (q ∈ new2)), ?(bool_decide_false (q ∈ new2)) by done; symmetry;
        (apply bool_decide_true, elem_of_app; tauto) ||
        (apply bool_decide_false; rewrite elem_of_app; tauto).
  - done.
  - intros q Hq. rewrite elem_of_app. destruct (C2 q Hq) as [Hq'|]; [|tauto]. destruct (C1 q Hq'); tauto.
  - by rewrite D2, D1, app_assoc.
  - intros k Hk. by rewrite E2, E1.
Qed.

(** The byte a user program sees at an address. *)
Definition user_byte (s : vm) (pd va : Z) : option Z :=
  match mapping s pd va with Some (f, _) => Some (mem (pages s) (f + pg_ofs va)) | None => None end.

(** Mapped pages stay as they are while the space grows. *)
Lemma user_byte_grows s s' pd new va : pd_ok s pd -> space_grows s s' pd new ->
  0 <= va -> is_user_vaddr va = true -> mapping s pd va <> None ->
  mapping s' pd va = mapping s pd va -> user_byte s' pd va = user_byte s pd va.
Proof.
  intros OK G H1 H2 N M. unfold user_byte. rewrite M. destruct (mapping s pd va) as [[f w]|] eqn:E; [|done].
  destruct (frame_apart s pd va f w OK H1 H2 E) as (_ & L & Nn).
  destruct (gr_keeps _ _ _ _ (sg_grown _ _ _ _ G) f L Nn) as [_ SP].
  f_equal. apply SP. rewrite pg_ofs_mod. pose proof (Z.mod_pos_bound va 4096). lia.
Qed.

(** No page is left for the contents of a page, or then for a page table. *)
Definition no_page_left (v : vm) : Prop :=
  pool_exhausted (user_pool (pages v)) 1 \/
  exists v1 q, got_page v v1 q /\ pool_exhausted (kernel_pool (pages v1)) 1.

Lemma memset_outside m d v n a : ~ (d <= a < d + n) -> memset m d v n a = m a.
Proof. intros H. unfold memset. by replace ((d <=? a) && (a <? d + n)) with false by lia. Qed.
Lemma memset_inside m d v n a : d <= a < d + n -> memset m d v n a = u8 v.
Proof. intros H. unfold memset. by replace ((d <=? a) && (a <? d + n)) with true by lia. Qed.

(** * A page that is filled, and then installed or given back *)

Section Filled.
Context (s s1 : vm) (pd q : Z) (m : memory).
Context (V : vm_ok s) (OK : pd_ok s pd) (G : got_page s s1 q).
Context (Hm1 : forall q', live_page s q' -> same_page (mem (pages s)) (mem (pages s1)) q').
Context (Hm : forall a, ~ (q <= a < q + 4096) -> m a = mem (pages s1) a).
Let s2 := change_mem s1 m.

Lemma filled_other r : live_page s r -> r <> q /\ live_page s2 r /\
  same_page (mem (pages s)) (mem (pages s2)) r.
Proof.
  intros [Lm Lu]. assert (r <> q) as N by (intros ->; by rewrite (gp_new _ _ _ G) in Lu).
  split; [done|]. split.
  - split; [done|]. change (page_used (pages s1) r = true). rewrite (gp_used _ _ _ G), Lu by done.
    by case_decide.
  - intros x Hx. change (m x = mem (pages s) x). rewrite Hm; [by apply (Hm1 r); [split|]|].
    destruct (gp_live _ _ _ G) as [Lq _]. destruct (page_disjoint r q Lm Lq N); lia.
Qed.

Lemma filled_frame : pd_pages s2 pd = pd_pages s pd /\
  (forall k, 0 <= k < 1024 -> pde s2 pd k = pde s pd k) /\
  (forall va, 0 <= va -> is_user_vaddr va = true -> pte s2 pd va = pte s pd va).
Proof. apply pd_frame. intros r Hr. apply filled_other. by apply (node_live s pd). Qed.

Lemma filled_mapping va : 0 <= va -> is_user_vaddr va = true -> mapping s2 pd va = mapping s pd va.
Proof. intros H1 H2. rewrite !mapping_pte. by rewrite (proj2 (proj2 filled_frame)). Qed.

Lemma filled_ok : vm_ok s2 /\ pd_ok s2 pd /\ live_page s2 q /\ q ∉ pd_pages s2 pd.
Proof.
  split; [apply vm_ok_change_mem, G|]. split.
  - apply (pd_ok_frame s); [done| |].
    + intros r Hr. apply filled_other. by apply (node_live s pd).
    + intros r Hr. apply filled_other. pose proof (pd_live s pd OK) as L. rewrite Forall_forall in L. auto.
  - split; [apply G|]. rewrite (proj1 filled_frame). intros H.
    pose proof (pd_live s pd OK) as L. rewrite Forall_forall in L. by apply (filled_other q (L q H)).
Qed.

Lemma filled_node r : node s2 pd r <-> node s pd r.
Proof.
  unfold node. split; (intros [->|(k & Hk & T)]; [by left|right; exists k; split; [done|]]);
    rewrite <- T; unfold table; by rewrite (proj1 (proj2 filled_frame)) by lia.
Qed.

(** Given back: nothing has changed but the contents of a free page. *)
Lemma filled_freed : exists s3, free_page q s2 = Ret (tt, s3) /\ space_grows s s3 pd [] /\
  forall va, 0 <= va -> is_user_vaddr va = true -> mapping s3 pd va = mapping s pd va.
Proof.
  destruct filled_ok as (V2 & OK2 & L2 & N2).
  destruct (free_page_freed s2 q V2 L2) as (s3 & E & F). exists s3. split; [done|].
  pose proof (fr_cpu _ _ _ F) as C.
  assert (forall r, live_page s r -> live_page s3 r /\ same_page (mem (pages s)) (mem (pages s3)) r) as K.
  { intros r Lr. destruct (filled_other r Lr) as (N & L2r & SP).
    assert (r ∉ [q]) as Nq by (intros H%list_elem_of_singleton; done).
    split; [by apply (freed_live s2 s3 [q])|]. eapply same_page_trans; [exact SP|].
    by apply (fr_same _ _ _ F). }
  assert (forall r, node s pd r -> same_page (mem (pages s)) (mem (pages s3)) r) as KN.
  { intros r Hr. apply K. by apply (node_live s pd). }
  destruct (pd_frame s s3 pd KN) as (P3 & D3 & T3). split.
  - split.
    + split.
      * apply F.
      * eapply same_cpu_trans; [apply (gp_cpu _ _ _ G)|exact C].
      * intros r Lr _. auto.
      * done.
      * intros r Hr. rewrite (fr_used _ _ _ F) by done.
        change (page_used (pages s2) r) with (page_used (pages s1) r).
        rewrite (gp_used _ _ _ G) by done. rewrite (bool_decide_false (r ∈ [])) by apply not_elem_of_nil.
        destruct (decide (r = q)) as [->|N].
        -- rewrite bool_decide_true by (by apply list_elem_of_singleton). by rewrite (gp_new _ _ _ G).
        -- rewrite bool_decide_false by (by rewrite list_elem_of_singleton). by rewrite andb_true_r.
    + apply (pd_ok_frame s); [done|done|]. intros r Hr. apply K.
      pose proof (pd_live s pd OK) as L. rewrite Forall_forall in L. auto.
    + intros r [->|(k & Hk & T)]; left; [by left|right]. exists k. split; [done|].
      rewrite <- T. unfold table. by rewrite D3 by lia.
    + by rewrite P3.
    + intros k Hk. apply D3. lia.
  - intros va H1 H2. rewrite !mapping_pte. by rewrite T3.
Qed.

Context (upage : Z) (writable : bool) (Npd : pd <> init_page_dir s).
Context (Hu0 : 0 <= upage) (Hua : upage mod 4096 = 0) (Huu : is_user_vaddr upage = true).

(** Installed at an unmapped page, unless no page is left for a table. *)
Lemma filled_installed : mapping s pd upage = None ->
  (exists s3 new, pagedir_set_page pd upage q writable s2 = Ret (true, s3) /\
     space_grows s s3 pd new /\ maps_page s s3 pd upage (Some (q, writable)) /\
     same_page m (mem (pages s3)) q) \/
  (pool_exhausted (kernel_pool (pages s2)) 1 /\ pagedir_set_page pd upage q writable s2 = Ret (false, s2)).
Proof.
  intros M. destruct filled_ok as (V2 & OK2 & L2 & N2).
  pose proof (gp_cpu _ _ _ G) as C1.
  assert (pd <> init_page_dir s2) as Npd2.
  { change (init_page_dir s2) with (init_page_dir s1). by rewrite (proj1 (proj2 (proj2 C1))). }
  rewrite <- filled_mapping in M by done.
  destruct (set_page_spec s2 pd V2 OK2 Npd2 upage q writable Hu0 Hua Huu L2 N2 M)
    as [(s3 & new & E & [A1 A2 A3 A4 A5] & OK3 & K3 & P3 & M3 & ND & SQ & _)|(_ & X & E)]; [left|right; done].
  exists s3, (q :: new). split; [done|]. rewrite Forall_forall in A4.
  assert (forall r, page_used (pages s2) r = page_used (pages s1) r) as U2 by done.
  split; [split|split].
  - split.
    + done.
    + by eapply same_cpu_trans; [|exact A2].
    + intros r Lr Nr. destruct (filled_other r Lr) as (N & L2r & SP).
      destruct (A3 r L2r) as [L3 SP3]; [by rewrite filled_node|]. split; [done|].
      by eapply same_page_trans.
    + constructor; [apply G|]. apply Forall_forall. intros r Hr. pose proof (A4 r Hr) as F.
      assert (r mod 4096 = 0) as Hrm.
      { pose proof (pd_live s3 pd OK3) as L. rewrite Forall_forall in L. apply (L r). rewrite P3.
        right. apply elem_of_app. by left. }
      rewrite U2, (gp_used _ _ _ G) in F by done. by destruct (decide (r = q)).
    + intros r Hr. rewrite A5, U2, (gp_used _ _ _ G) by done.
      destruct (decide (r = q)) as [->|N].
      * rewrite orb_true_r, bool_decide_true by (by left). done.
      * f_equal. apply bool_decide_ext. rewrite elem_of_cons. tauto.
  - done.
  - intros r Hr. destruct (ND r Hr) as [Nr|Hr']; [left; by apply filled_node|right; by right].
  - rewrite P3, (proj1 filled_frame). done.
  - intros k Hk. rewrite K3 by done. apply filled_frame. lia.
  - intros u U1 U2'. rewrite M3 by done. by rewrite filled_mapping.
  - exact SQ.
Qed.
End Filled.
