(* ===== verification/Sbrk.v ===== *)
(** The heap of a user process (sbrk in hw-memory's userprog/syscall.c, over the same pagedir.c and
    palloc.c): growing and shrinking the region between the heap's start and its break. *)
From S2P Require Import Prelude KStdlib Bitmap Vaddr Palloc Pagedir PagedirFacts PagedirProps AddressSpaces AddressProps LoadFacts.

(** * Definitions *)

(** The fields of the current thread that describe its address space. *)
Record heap := mk_heap { h_pagedir : Z; heap_start : Z; heap_break : Z }.

(** The loop of [unallocate] from page [i] on. *)
Fixpoint unallocate_loop (fuel : nat) (pd start end_ i : Z) : VM unit :=
  match fuel with
  | O => fun _ => NoFuel
  | S fuel =>
      if PGSIZE * i <=? end_ - start then
        let upage := start + PGSIZE * i in
        let! kpage := pagedir_get_page pd upage in
        let! _ := free_page kpage in
        let! _ := pagedir_clear_page pd upage in
        unallocate_loop fuel pd start end_ (i + 1)
      else ret tt
  end.

(** One more iteration than there are pages. *)
Definition range_fuel (start end_ : Z) : nat := Z.to_nat ((end_ - start) / PGSIZE + 2).
Definition unallocate (pd start end_ : Z) : VM unit := unallocate_loop (range_fuel start end_) pd start end_ 0.

(** The loop of [allocate]; 1 reports failure. *)
Fixpoint allocate_loop (fuel : nat) (pd start end_ i : Z) : VM Z :=
  match fuel with
  | O => fun _ => NoFuel
  | S fuel =>
      if PGSIZE * i <=? end_ - start then
        let upage := start + PGSIZE * i in
        let! kpage := get_page (Z.lor PAL_USER PAL_ZERO) in
        if kpage =? NULL then
          let! _ := unallocate pd start end_ in ret 1
        else
          let! ok := pagedir_set_page pd upage kpage true in
          if negb ok then
            let! _ := free_page kpage in
            let! _ := unallocate pd start end_ in ret 1
          else allocate_loop fuel pd start end_ (i + 1)
      else ret 0
  end.
Definition allocate (pd start end_ : Z) : VM Z := allocate_loop (range_fuel start end_) pd start end_ 0.

(** The pointer returned, and the heap; the sum of the break and the increment is a signed one. *)
Definition syscall_sbrk (h : heap) (increment : Z) : VM (Z * heap) :=
  let prev := heap_break h in
  let! new := lift (int_ (s32 (heap_break h) + increment)) in
  if new <? s32 (heap_start h) then ret (u32 (-1), h)
  else
    let new := u32 new in
    let prev_page := pg_round_down (u32 (prev - 1)) in
    let new_page := pg_round_down (u32 (new - 1)) in
    let moved := (prev, mk_heap (h_pagedir h) (heap_start h) new) in
    if increment =? 0 then ret (prev, h)
    else if 0 <? increment then
      if (prev =? heap_start h) || negb (prev_page =? new_page) then
        let! failed := allocate (h_pagedir h) (u32 (prev_page + PGSIZE)) new_page in
        if negb (failed =? 0) then ret (u32 (-1), h) else ret moved
      else ret moved
    else
      if (new =? heap_start h) || negb (prev_page =? new_page) then
        let! _ := unallocate (h_pagedir h) (u32 (new_page + PGSIZE)) prev_page in
        ret moved
      else ret moved.

(** * Resized address spaces *)

(** [s'] is [s] after the directory [pd] gained or lost pages: the pages in use that do not belong to it
    are as before, and every page it gained was free and every page it lost is free. *)
Record resized (s s' : vm) (pd : Z) : Prop := {
  rz_ok : vm_ok s';
  rz_pd : pd_ok s' pd;
  rz_kernel : same_kernel_half s s' pd;
  rz_cpu : cr3 s' = cr3 s /\ init_page_dir s' = init_page_dir s /\ init_ram_pages s' = init_ram_pages s;
  rz_keeps : forall q, live_page s q -> q ∉ pd_pages s pd ->
    live_page s' q /\ q ∉ pd_pages s' pd /\ same_page (mem (pages s)) (mem (pages s')) q;
  rz_used : forall q, q mod 4096 = 0 ->
    page_used (pages s') q = bool_decide (q ∈ pd_pages s' pd) || (page_used (pages s) q && negb (bool_decide (q ∈ pd_pages s pd)))
}.

Lemma resized_refl s pd : vm_ok s -> pd_ok s pd -> resized s s pd.
Proof.
  intros V OK. split; try done. intros q Hq. destruct (bool_decide (q ∈ pd_pages s pd)) eqn:B; cbn [negb orb].
  - apply bool_decide_eq_true in B. pose proof (pd_live s pd OK) as L. rewrite Forall_forall in L. apply (L q B).
  - by rewrite andb_true_r.
Qed.

Lemma resized_trans s1 s2 s3 pd : resized s1 s2 pd -> resized s2 s3 pd -> resized s1 s3 pd.
Proof.
  intros [A1 A2 A3 (A4 & A5 & A6) A7 A8] [B1 B2 B3 (B4 & B5 & B6) B7 B8]. split; try done.
  - intros k Hk. by rewrite B3, A3.
  - split_and!; congruence.
  - intros q L N. destruct (A7 q L N) as (L2 & N2 & S2). destruct (B7 q L2 N2) as (L3 & N3 & S3).
    split_and!; [done|done|]. by eapply same_page_trans.
  - intros q Hq. rewrite B8, A8 by done. f_equal.
    destruct (bool_decide (q ∈ pd_pages s2 pd)) eqn:B; cbn [negb orb andb]; [|by rewrite andb_true_r].
    destruct (page_used (pages s1) q) eqn:U; [|done]. cbn [andb].
    destruct (bool_decide (q ∈ pd_pages s1 pd)) eqn:B1'; [done|]. apply bool_decide_eq_false in B1'.
    destruct (A7 q (conj Hq U) B1') as (_ & N2 & _). by apply bool_decide_eq_true in B.
Qed.

(** Growth is a special case. *)
Lemma grows_resized s s' pd new : pd_ok s pd -> space_grows s s' pd new -> resized s s' pd.
Proof.
  intros OK [[G1 (C1 & C2 & C3 & C4) G3 G4 G5] P N PP K]. rewrite Forall_forall in G4.
  assert (forall q, q ∈ pd_pages s' pd <-> q ∈ new \/ q ∈ pd_pages s pd) as IN by (intros q; by rewrite PP, elem_of_app).
  split; try done.
  - intros q L NN. destruct (G3 q L) as [L' S]; [intros H; by apply NN, node_in_pages|].
    split_and!; [done| |done]. rewrite IN. intros [H|H]; [|done]. specialize (G4 q H).
    destruct L as [Lm Lu]. congruence.
  - intros q Hq. rewrite G5 by done. destruct (decide (q ∈ new)) as [Hn|Hn].
    { rewrite !bool_decide_true by (try apply IN; tauto). done. }
    rewrite (bool_decide_false (q ∈ new)) by done. cbn [orb].
    destruct (decide (q ∈ pd_pages s pd)) as [Ho|Ho].
    + rewrite (bool_decide_true (q ∈ pd_pages s' pd)) by (apply IN; tauto). cbn [orb].
      pose proof (pd_live s pd OK) as L. rewrite Forall_forall in L. apply (L q Ho).
    + rewrite !bool_decide_false by (rewrite ?IN; tauto). cbn [negb orb]. by rewrite andb_true_r.
Qed.

(** * Operations that do not look at the allocator *)

(** [s] with the pools of [p]. *)
Definition with_pools (s : vm) (p : palloc_state) : vm :=
  set_pages s (mk_palloc (kernel_pool p) (user_pool p) (mem (pages s))).
Definition mem_only {A} (m : VM A) : Prop := forall s p,
  m (with_pools s p) = let? (a, s') := m s in Ret (a, with_pools s' p).

Section MemOnly.
Context {A B : Type}.

Lemma mem_only_ret (a : A) : mem_only (ret a).
Proof. by intros s p. Qed.
Lemma mem_only_panic : mem_only (A := A) panic.
Proof. by intros s p. Qed.
Lemma mem_only_lift (o : outcome A) : mem_only (lift o).
Proof. intros s p. unfold lift. by destruct o. Qed.
Lemma mem_only_bind (m : VM A) (f : A -> VM B) : mem_only m -> (forall a, mem_only (f a)) -> mem_only (bind m f).
Proof.
  intros Hm Hf s p. unfold bind. rewrite Hm. destruct (m s) as [[a s']| | |]; cbn [obind]; [apply Hf|done..].
Qed.
Lemma mem_only_if (b : bool) (m n : VM A) : mem_only m -> mem_only n -> mem_only (if b then m else n).
Proof. by destruct b. Qed.
End MemOnly.

Lemma mem_only_load a : mem_only (load_word a).
Proof. intros s p. unfold load_word. change (in_ram (with_pools s p) a) with (in_ram s a). by destruct (in_ram s a). Qed.
Lemma mem_only_store a w : mem_only (store_word a w).
Proof. intros s p. unfold store_word. change (in_ram (with_pools s p) a) with (in_ram s a). by destruct (in_ram s a). Qed.
Lemma mem_only_cr3 : mem_only (gets cr3).
Proof. by intros s p. Qed.
Lemma mem_only_ipd : mem_only (gets init_page_dir).
Proof. by intros s p. Qed.
Lemma mem_only_movl a : mem_only (movl_cr3 a).
Proof. by intros s p. Qed.

Create HintDb mem_only.
#[export] Hint Resolve mem_only_ret mem_only_panic mem_only_lift mem_only_bind mem_only_if mem_only_load
  mem_only_store mem_only_cr3 mem_only_ipd mem_only_movl : mem_only.

Lemma mem_only_lookup pd va : mem_only (lookup_page pd va false).
Proof. unfold lookup_page. cbn [negb orb]. repeat (intros; (apply mem_only_bind || apply mem_only_if || auto with mem_only)). Qed.
#[export] Hint Resolve mem_only_lookup : mem_only.

Lemma mem_only_invalidate pd : mem_only (invalidate_pagedir pd).
Proof.
  unfold invalidate_pagedir, pagedir_activate, active_pd.
  repeat (intros; (apply mem_only_bind || apply mem_only_if || auto with mem_only)).
Qed.
#[export] Hint Resolve mem_only_invalidate : mem_only.

Lemma mem_only_clear pd va : mem_only (pagedir_clear_page pd va).
Proof.
  unfold pagedir_clear_page.
  repeat (intros; (apply mem_only_bind || apply mem_only_if || auto with mem_only)).
Qed.

(** * One page *)

(** The body of the loop of [unallocate]. *)
Definition unmap_page (pd upage : Z) : VM unit :=
  let! kpage := pagedir_get_page pd upage in
  let! _ := free_page kpage in
  pagedir_clear_page pd upage.

(** An address that reads the same in both. *)
Definition same_view (s s' : vm) (pd va : Z) : Prop :=
  mapping s' pd va = mapping s pd va /\ user_byte s' pd va = user_byte s pd va.

Section Unmap.
Context (s : vm) (pd a : Z) (V : vm_ok s) (OK : pd_ok s pd) (A : active s a).
Context (va : Z) (H0 : 0 <= va) (Hu : is_user_vaddr va = true) (Ha : va mod 4096 = 0).

Lemma unmap_absent : mapping s pd va = None -> unmap_page pd va s = Ret (tt, s).
Proof.
  intros M. unfold unmap_page, bind at 1. rewrite (pagedir_get_page_spec s pd V OK va H0 Hu), M. cbn [obind].
  assert (free_page NULL s = Ret (tt, s)) as E by (unfold free_page; by destruct s).
  unfold bind at 1. rewrite E. cbn [obind].
  pose proof (pagedir_clear_page_spec s pd a V OK A va H0 Hu Ha) as C. by rewrite M in C.
Qed.

Lemma free_ghost f : live_page s f -> exists s1 g, free_page f s = Ret (tt, s1) /\ s1 = with_pools g (pages s1) /\
  g = change_mem s (mem (pages s1)) /\ freed s s1 [f].
Proof.
  intros L. destruct (free_page_freed s f V L) as (s1 & E & F). exists s1, (change_mem s (mem (pages s1))).
  split_and!; [done| |done|done]. destruct (fr_cpu _ _ _ F) as (C1 & C2 & C3 & C4).
  destruct s1 as [[] ? ? ? ?]. cbn in *. by subst.
Qed.

Lemma unmap_mapped f w : mapping s pd va = Some (f, w) -> exists s', unmap_page pd va s = Ret (tt, s') /\
  resized s s' pd /\ maps_page s s' pd va None /\
  forall u, 0 <= u -> is_user_vaddr u = true -> pg_no u <> pg_no va -> same_view s s' pd u.
Proof.
  intros M. destruct (frame_apart s pd va f w OK H0 Hu M) as (Hin & L & NN).
  destruct (free_ghost f L) as (s1 & g & EF & ES & EG & F).
  assert (forall q, node s pd q -> same_page (mem (pages s)) (mem (pages g)) q) as KN.
  { intros q Hq. rewrite EG. apply (fr_same _ _ _ F); [by apply (node_live s pd)|].
    intros ->%list_elem_of_singleton. done. }
  destruct (pd_frame s g pd KN) as (PG & DG & TG).
  assert (vm_ok g) as VG by (rewrite EG; by apply vm_ok_change_mem).
  assert (pd_ok g pd) as OKG.
  { apply (pd_ok_frame s); [done|done|]. intros q Hq. rewrite EG.
    pose proof (pd_live s pd OK) as LV. rewrite Forall_forall in LV. apply (LV q Hq). }
  assert (active g a) as AG by (by rewrite EG).
  assert (mapping g pd va = Some (f, w)) as MG by (rewrite mapping_pte, TG, <- mapping_pte; done).
  pose proof (pagedir_clear_page_spec g pd a VG OKG AG va H0 Hu Ha) as C. rewrite MG in C.
  destruct C as (g' & e & e' & EC & _ & BT & [CV CD CK CP CU CC] & PP).
  set (s' := with_pools g' (pages s1)).
  assert (unmap_page pd va s = Ret (tt, s')) as EU.
  { unfold unmap_page, bind at 1. rewrite (pagedir_get_page_spec s pd V OK va H0 Hu), M. cbn [obind].
    rewrite pg_ofs_mod, Ha, Z.add_0_r. unfold bind at 1. rewrite EF. cbn [obind]. rewrite ES at 1.
    rewrite mem_only_clear, EC. reflexivity. }
  assert (cr3 g' = cr3 s /\ init_page_dir g' = init_page_dir s /\ init_ram_pages g' = init_ram_pages s) as CPU.
  { destruct CC as (C1 & _ & C3 & C4). rewrite EG in C1, C3, C4.
    destruct (true && bool_decide (a = pd)); cbn in C1, C3, C4; done. }
  assert (pd_pages s' pd = pd_pages g' pd) as PS by (apply pd_frame; intros q _ x _; reflexivity).
  rewrite PG in PP. pose proof (pd_nodup s pd OK) as ND. rewrite PP in ND. apply NoDup_cons in ND as [NF ND].
  assert (forall q, q ∈ pd_pages g' pd -> q ∈ pd_pages s pd /\ q <> f) as SUB.
  { intros q Hq. split; [rewrite PP; apply elem_of_cons; by right|]. intros ->. exact (NF Hq). }
  assert (forall q, page_used (pages s') q = page_used (pages s1) q) as US by (intros q; reflexivity).
  assert (forall q, live_page s q -> q <> f -> live_page s' q) as LS.
  { intros q Lq Nq. split; [apply Lq|]. rewrite US. apply (freed_live s s1 [f] q F Lq).
    intros E1%list_elem_of_singleton. exact (Nq E1). }
  assert (resized s s' pd) as RZ.
  { split.
    - destruct (fr_ok _ _ _ F) as [[K1 U1 D1] R1]. destruct (fr_cpu _ _ _ F) as (_ & _ & _ & C4).
      split; [split; [exact K1|exact U1|exact D1]|]. destruct CPU as (_ & _ & CR).
      change (init_ram_pages s') with (init_ram_pages g'). rewrite CR, <- C4. exact R1.
    - apply (pd_ok_intro s); [exact OK| | |].
      + intros k Hk. change (pde s' pd k) with (pde g' pd k). rewrite CD by exact Hk. apply DG. exact Hk.
      + rewrite PS. exact ND.
      + rewrite PS. apply Forall_forall. intros q Hq. destruct (SUB q Hq) as [Hs Nq].
        apply LS; [|exact Nq]. pose proof (pd_live s pd OK) as LV. rewrite Forall_forall in LV. exact (LV q Hs).
    - intros k Hk. change (pde s' pd k) with (pde g' pd k). rewrite CD by lia. apply DG. lia.
    - exact CPU.
    - intros q Lq Nq. assert (q <> f) as Nqf by (intros ->; exact (Nq Hin)).
      split; [exact (LS q Lq Nqf)|]. split; [rewrite PS; intros Hq; exact (Nq (proj1 (SUB q Hq)))|].
      assert (live_page g q) as Lg by (rewrite EG; exact Lq).
      assert (~ node g pd q) as NNq.
      { intros Hn. apply node_in_pages in Hn. rewrite PG in Hn. exact (Nq Hn). }
      destruct (CK q Lg NNq) as [_ SP]. eapply same_page_trans; [|exact SP]. rewrite EG.
      apply (fr_same _ _ _ F q Lq). intros E1%list_elem_of_singleton. exact (Nqf E1).
    - intros q Hq. rewrite US, (fr_used _ _ _ F), PS by exact Hq.
      destruct (decide (q = f)) as [->|Nq].
      + rewrite (bool_decide_true (f ∈ [f])) by (by apply list_elem_of_singleton).
        rewrite (bool_decide_false (f ∈ pd_pages g' pd)) by exact NF.
        rewrite (bool_decide_true (f ∈ pd_pages s pd)) by exact Hin. cbn [negb]. by rewrite andb_false_r.
      + rewrite (bool_decide_false (q ∈ [f])) by (by rewrite list_elem_of_singleton). cbn [negb]. rewrite andb_true_r.
        destruct (decide (q ∈ pd_pages g' pd)) as [Hg|Hg].
        * rewrite (bool_decide_true (q ∈ pd_pages g' pd)) by exact Hg. cbn [orb].
          pose proof (pd_live s pd OK) as LV. rewrite Forall_forall in LV. apply (LV q), SUB, Hg.
        * rewrite (bool_decide_false (q ∈ pd_pages g' pd)) by exact Hg.
          rewrite (bool_decide_false (q ∈ pd_pages s pd)); [cbn [negb orb]; by rewrite andb_true_r|].
          rewrite PP, elem_of_cons. intros [E1|H1]; [exact (Nq E1)|exact (Hg H1)]. }
  assert (maps_page s s' pd va None) as MP.
  { intros u U1 U2. change (mapping s' pd u) with (mapping g' pd u). rewrite !mapping_pte, CP by assumption.
    destruct (decide (pg_no u = pg_no va)).
    - cbn [mbind option_bind]. unfold mapping_of. by rewrite present_bit, BT.
    - by rewrite TG. }
  exists s'. split; [exact EU|]. split; [exact RZ|]. split; [exact MP|].
  intros u U1 U2 Nu. pose proof (MP u U1 U2) as MU. rewrite decide_False in MU by exact Nu.
  split; [exact MU|]. unfold user_byte. rewrite MU. destruct (mapping s pd u) as [[f' w']|] eqn:Mu; [|reflexivity].
  f_equal. destruct (frame_apart s pd u f' w' OK U1 U2 Mu) as (_ & L' & NN').
  destruct (frame_apart s' pd u f' w' (rz_pd _ _ _ RZ) U1 U2 MU) as (Hin' & _ & _).
  rewrite PS in Hin'. assert (f' <> f) as Nf by (intros E1; rewrite E1 in Hin'; exact (NF Hin')).
  assert (live_page g f') as Lg by (rewrite EG; exact L').
  assert (~ node g pd f') as NNg.
  { assert (mapping g pd u = Some (f', w')) as Mg by (rewrite mapping_pte, TG, <- mapping_pte by assumption; exact Mu).
    apply (frame_apart g pd u f' w' OKG U1 U2 Mg). }
  destruct (CK f' Lg NNg) as [_ SP].
  change (mem (pages s')) with (mem (pages g')). rewrite pg_ofs_mod. pose proof (Z.mod_pos_bound u 4096 ltac:(lia)).
  rewrite SP by lia. rewrite EG. apply (fr_same _ _ _ F f' L'); [|lia].
  intros E1%list_elem_of_singleton. exact (Nf E1).
Qed.
End Unmap.

(** * Ranges of pages *)

(** [pd] is the directory of a process, not the kernel's; [a] is the one the CPU uses. *)
Record owner (s : vm) (pd a : Z) : Prop := {
  ow_ok : vm_ok s;
  ow_pd : pd_ok s pd;
  ow_own : pd <> init_page_dir s;
  ow_active : active s a
}.

Lemma owner_resized s s' pd a : owner s pd a -> resized s s' pd -> owner s' pd a.
Proof.
  intros [O1 O2 O3 [O4 O5]] [R1 R2 _ (R4 & R5 & _) _ _]. split; [done|done|by rewrite R5|].
  split; [done|by rewrite R4].
Qed.

Lemma mapping_same_page s pd u v : pg_no u = pg_no v -> mapping s pd u = mapping s pd v.
Proof. intros E. rewrite !mapping_pte. unfold pte. by destruct (proj2 (same_vpage u v) E) as [-> ->]. Qed.

Lemma same_view_refl s pd va : same_view s s pd va.
Proof. done. Qed.
Lemma same_view_trans s1 s2 s3 pd va : same_view s1 s2 pd va -> same_view s2 s3 pd va -> same_view s1 s3 pd va.
Proof. intros [A1 A2] [B1 B2]. split; congruence. Qed.

Lemma page_number_same u va : u mod 4096 = 0 -> pg_no va = pg_no u <-> u <= va < u + 4096.
Proof. intros H. rewrite !pg_no_div. Z.to_euclidean_division_equations. lia. Qed.

Lemma page_aligned start i : start mod 4096 = 0 -> (start + 4096 * i) mod 4096 = 0.
Proof. intros H. rewrite (Z.mul_comm 4096 i), Z.mod_add by lia. exact H. Qed.

(** The addresses of [va] to [va + 4096] become unmapped, all others read as before. *)
Definition range_unmapped (s s' : vm) (pd lo hi : Z) : Prop :=
  (forall va, lo <= va < hi -> mapping s' pd va = None) /\
  forall va, 0 <= va -> is_user_vaddr va = true -> ~ (lo <= va < hi) -> same_view s s' pd va.

Section Range.
Context (pd a start n : Z) (Hs : 0 <= start) (Ha : start mod 4096 = 0) (Hn : start + 4096 * n <= PHYS_BASE).
Let end_ := start + 4096 * (n - 1).

Lemma range_address i : 0 <= i < n -> 0 <= start + 4096 * i /\ is_user_vaddr (start + 4096 * i) = true /\
  (start + 4096 * i) mod 4096 = 0.
Proof.
  intros Hi. split; [lia|]. split; [|by apply page_aligned]. unfold is_user_vaddr, PHYS_BASE in *. lia.
Qed.

Lemma unmap_page_Ret s i : owner s pd a -> 0 <= i < n -> exists s', unmap_page pd (start + 4096 * i) s = Ret (tt, s') /\
  resized s s' pd /\ range_unmapped s s' pd (start + 4096 * i) (start + 4096 * (i + 1)).
Proof.
  intros [V OK N A] Hi. destruct (range_address i Hi) as (H0 & Hu & Hm). set (va := start + 4096 * i) in *.
  replace (start + 4096 * (i + 1)) with (va + 4096) by (unfold va; lia).
  destruct (mapping s pd va) as [[f w]|] eqn:M.
  - destruct (unmap_mapped s pd a V OK A va H0 Hu Hm f w M) as (s' & E & R & MP & SV).
    exists s'. split; [done|]. split; [done|]. split.
    + intros u Hu'. rewrite MP; [|lia|].
      * by rewrite decide_True by (by apply page_number_same).
      * unfold is_user_vaddr, va, PHYS_BASE in *. lia.
    + intros u U1 U2 Nu. apply SV; [done|done|]. by rewrite page_number_same.
  - exists s. split; [by apply (unmap_absent s pd a)|]. split; [by apply resized_refl|]. split; [|done].
    intros u Hu'. rewrite <- M. apply mapping_same_page. by apply page_number_same.
Qed.

Lemma unallocate_loop_Ret k : forall s i fuel, owner s pd a -> 0 <= i -> Z.of_nat k = Z.max 0 (n - i) -> (k < fuel)%nat ->
  exists s', unallocate_loop fuel pd start end_ i s = Ret (tt, s') /\ resized s s' pd /\
    range_unmapped s s' pd (start + 4096 * i) (start + 4096 * n).
Proof.
  induction k as [|k IH]; intros s i fuel O Hi Hk Hf; destruct fuel as [|fuel]; try lia; cbn [unallocate_loop]; change PGSIZE with 4096.
  - unfold end_. replace (4096 * i <=? start + 4096 * (n - 1) - start) with false by lia.
    exists s. split; [done|]. destruct O. split; [by apply resized_refl|]. split; [lia|done].
  - unfold end_. replace (4096 * i <=? start + 4096 * (n - 1) - start) with true by lia. cbv zeta. fold end_.
    destruct (unmap_page_Ret s i O ltac:(lia)) as (s1 & E1 & R1 & U1 & V1).
    destruct (IH s1 (i + 1) fuel) as (s2 & E2 & R2 & U2 & V2); [by eapply owner_resized|lia|lia|lia|].
    exists s2. split.
    { rewrite <- E2. revert E1. unfold unmap_page, bind.
      destruct (pagedir_get_page pd (start + 4096 * i) s) as [[kp t1]| | |]; cbn [obind]; try done.
      destruct (free_page kp t1) as [[? t2]| | |]; cbn [obind]; try done. by intros ->. }
    split; [by eapply resized_trans|]. unfold PHYS_BASE in Hn. split.
    + intros va Hv. destruct (decide (start + 4096 * (i + 1) <= va)) as [Hl|Hl]; [apply U2; lia|].
      destruct (V2 va) as [-> _]; [lia|unfold is_user_vaddr, PHYS_BASE; lia|lia|]. apply U1. lia.
    + intros va W1 W2 W3. eapply same_view_trans; [apply V1|apply V2]; (done || lia).
Qed.

Lemma range_fuel_enough : 0 <= n -> (Z.to_nat n < range_fuel start end_)%nat.
Proof.
  intros H. unfold range_fuel, end_. change PGSIZE with 4096.
  replace (start + 4096 * (n - 1) - start) with ((n - 1) * 4096) by lia. rewrite Z.div_mul by lia. lia.
Qed.

Lemma unallocate_Ret s : owner s pd a -> 0 <= n -> exists s', unallocate pd start end_ s = Ret (tt, s') /\
  resized s s' pd /\ range_unmapped s s' pd start (start + 4096 * n).
Proof.
  intros O H. destruct (unallocate_loop_Ret (Z.to_nat n) s 0 (range_fuel start end_) O) as (s' & E & R & U);
    [lia|lia|by apply range_fuel_enough|]. exists s'. replace (start + 4096 * 0) with start in U by lia. done.
Qed.
End Range.

(** * Growing *)

(** The addresses of [lo] to [hi] become mapped, writable, to zeros; all others read as before. *)
Definition range_allocated (s s' : vm) (pd lo hi : Z) : Prop :=
  (forall va, lo <= va < hi -> (exists f, mapping s' pd va = Some (f, true)) /\ user_byte s' pd va = Some 0) /\
  forall va, 0 <= va -> is_user_vaddr va = true -> ~ (lo <= va < hi) -> same_view s s' pd va.

(** The body of the loop of [allocate], without giving back the pages before. *)
Definition alloc_page (pd upage : Z) : VM bool :=
  let! kpage := get_page (Z.lor PAL_USER PAL_ZERO) in
  if kpage =? NULL then ret false
  else
    let! ok := pagedir_set_page pd upage kpage true in
    if negb ok then let! _ := free_page kpage in ret false else ret true.

Lemma allocate_loop_S fuel pd start end_ i s :
  allocate_loop (S fuel) pd start end_ i s =
  if PGSIZE * i <=? end_ - start then
    let? (ok, s') := alloc_page pd (start + PGSIZE * i) s in
    if ok : bool then allocate_loop fuel pd start end_ (i + 1) s'
    else (let! _ := unallocate pd start end_ in ret 1) s'
  else Ret (0, s).
Proof.
  cbn [allocate_loop]. destruct (_ <=? _); [|done]. unfold alloc_page. unfold bind.
  destruct (get_page _ s) as [[q s1]| | |]; cbn [obind]; try done. destruct (q =? NULL); [done|].
  destruct (pagedir_set_page _ _ _ _ s1) as [[[] s2]| | |]; cbn [obind negb]; try done.
  by destruct (free_page q s2) as [[? s3]| | |].
Qed.

Lemma page_user va u : is_user_vaddr va = true -> va mod 4096 = 0 -> va <= u < va + 4096 -> is_user_vaddr u = true.
Proof. unfold is_user_vaddr, PHYS_BASE. intros H1 H2 H3. Z.to_euclidean_division_equations. lia. Qed.

Lemma change_mem_id s : change_mem s (mem (pages s)) = s.
Proof. by destruct s as [[] ? ? ? ?]. Qed.

Section Alloc.
Context (s : vm) (pd a : Z) (O : owner s pd a).
Context (va : Z) (H0 : 0 <= va) (Hu : is_user_vaddr va = true) (Ha : va mod 4096 = 0) (M : mapping s pd va = None).

Lemma same_view_grows s' new u : space_grows s s' pd new -> 0 <= u -> is_user_vaddr u = true ->
  mapping s' pd u = mapping s pd u -> same_view s s' pd u.
Proof.
  intros G U1 U2 E. split; [done|]. destruct (mapping s pd u) as [p|] eqn:MU; [|unfold user_byte; by rewrite E, MU].
  apply (user_byte_grows s s' pd new); try done; [apply O|by rewrite MU|by rewrite MU].
Qed.

Lemma alloc_page_Ret : exists ok s', alloc_page pd va s = Ret (ok, s') /\ resized s s' pd /\
  if ok : bool then range_allocated s s' pd va (va + 4096)
  else no_page_left s /\ forall u, 0 <= u -> is_user_vaddr u = true -> same_view s s' pd u.
Proof.
  destruct O as [V OK N A]. unfold alloc_page.
  destruct (get_page_spec s (Z.lor PAL_USER PAL_ZERO) V) as [(s1 & q & E & Nq & G & ME)|[X E]].
  2:{ exists false, s. unfold bind. rewrite E. change (has_flag _ PAL_ASSERT) with false. cbn [obind].
      split; [done|]. split; [by apply resized_refl|]. split; [by left|done]. }
  change (has_flag _ PAL_ZERO) with true in ME. cbv iota in ME.
  assert (forall r, live_page s r -> same_page (mem (pages s)) (mem (pages s1)) r) as HM1.
  { intros r [Lm Lu]. rewrite ME. apply same_page_memset; [apply (gp_live _ _ _ G)|done|].
    intros ->. by rewrite (gp_new _ _ _ G) in Lu. }
  set (m := mem (pages s1)). assert (change_mem s1 m = s1) as CM by apply change_mem_id.
  unfold bind at 1. rewrite E. cbn [obind]. rewrite (proj2 (Z.eqb_neq _ _) Nq). unfold bind at 1.
  destruct (filled_installed s s1 pd q m OK G HM1 (fun _ _ => eq_refl) va true N H0 Ha Hu M)
    as [(s3 & new & E3 & SG & MP & SP)|[X E3]]; rewrite CM in E3; rewrite E3; cbn [obind negb].
  - exists true, s3. split; [done|]. split; [by eapply grows_resized|]. split.
    + intros u Hu'. pose proof (page_user va u Hu Ha Hu') as Uu.
      assert (mapping s3 pd u = Some (q, true)) as MU.
      { rewrite MP by (lia || done). by rewrite decide_True by (by apply page_number_same). }
      split; [by exists q|]. unfold user_byte. rewrite MU. f_equal.
      rewrite pg_ofs_mod. pose proof (Z.mod_pos_bound u 4096 ltac:(lia)). rewrite SP by lia. unfold m. rewrite ME.
      rewrite memset_inside by lia. done.
    + intros u U1 U2 Nu. apply (same_view_grows s3 new u SG U1 U2). rewrite MP by done.
      rewrite decide_False; [done|]. by rewrite page_number_same.
  - destruct (filled_freed s s1 pd q m OK G HM1 (fun _ _ => eq_refl)) as (s3 & E4 & SG & MS).
    rewrite CM in E4. exists false, s3. unfold bind. rewrite E4. cbn [obind]. split; [done|].
    split; [by eapply grows_resized|]. split.
    + right. exists s1, q. rewrite CM in X. done.
    + intros u U1 U2. apply (same_view_grows s3 [] u SG U1 U2). by apply MS.
Qed.
End Alloc.

Section Growing.
Context (pd a start n : Z) (Hs : 0 <= start) (Ha : start mod 4096 = 0) (Hn : start + 4096 * n <= PHYS_BASE).
Let end_ := start + 4096 * (n - 1).

(** Why [allocate] fails in state [s]: some of the pages were mapped when no page was left. *)
Definition allocation_fails (s : vm) : Prop := exists t i, 0 <= i < n /\ resized s t pd /\
  range_allocated s t pd start (start + 4096 * i) /\ no_page_left t.

Lemma range_allocated_step s1 s2 s3 i : 0 <= i < n ->
  range_allocated s1 s2 pd start (start + 4096 * i) ->
  range_allocated s2 s3 pd (start + 4096 * i) (start + 4096 * i + 4096) ->
  range_allocated s1 s3 pd start (start + 4096 * (i + 1)).
Proof.
  unfold PHYS_BASE in Hn. intros Hi [A1 A2] [B1 B2]. split.
  - intros va Hv. destruct (decide (start + 4096 * i <= va)); [apply B1; lia|].
    destruct (B2 va) as [-> ->]; [lia|unfold is_user_vaddr, PHYS_BASE; lia|lia|]. apply A1. lia.
  - intros va V1 V2 V3. eapply same_view_trans; [apply A2|apply B2]; (done || lia).
Qed.

Lemma range_undone s t s' i : 0 <= i <= n -> (forall va, start <= va < start + 4096 * n -> mapping s pd va = None) ->
  range_allocated s t pd start (start + 4096 * i) -> range_unmapped t s' pd start (start + 4096 * n) ->
  forall va, 0 <= va -> is_user_vaddr va = true -> same_view s s' pd va.
Proof.
  intros Hi HM [A1 A2] [U1 U2] va V1 V2. destruct (decide (start <= va < start + 4096 * n)) as [Hv|Hv].
  - split; [by rewrite U1, HM|]. unfold user_byte. by rewrite U1, HM.
  - eapply same_view_trans; [apply A2|apply U2]; (done || lia).
Qed.

(** From page [i] on, [s] having the pages before. *)
Lemma allocate_loop_Ret k : forall s0 s i fuel, owner s pd a -> resized s0 s pd -> 0 <= i <= n ->
  (forall va, start <= va < start + 4096 * n -> mapping s0 pd va = None) ->
  range_allocated s0 s pd start (start + 4096 * i) ->
  Z.of_nat k = n - i -> (k < fuel)%nat ->
  exists r s', allocate_loop fuel pd start end_ i s = Ret (r, s') /\ resized s0 s' pd /\
    ((r = 0 /\ range_allocated s0 s' pd start (start + 4096 * n)) \/
     (r = 1 /\ allocation_fails s0 /\ forall va, 0 <= va -> is_user_vaddr va = true -> same_view s0 s' pd va)).
Proof.
  induction k as [|k IH]; intros s0 s i fuel O R Hi HM RA Hk Hf; (destruct fuel as [|fuel]; [lia|]);
    rewrite allocate_loop_S; change PGSIZE with 4096.
  - replace (4096 * i <=? end_ - start) with false by (unfold end_; lia). exists 0, s.
    split; [done|]. split; [done|]. left. assert (i = n) as <- by lia. done.
  - replace (4096 * i <=? end_ - start) with true by (unfold end_; lia).
    destruct (range_address start n Hs Ha Hn i ltac:(lia)) as (H0 & Hu & Hm).
    destruct (alloc_page_Ret s pd a O (start + 4096 * i) H0 Hu Hm) as (ok & s1 & E & R1 & P).
    { destruct RA as [_ RA]. destruct (RA (start + 4096 * i)) as [-> _]; [done|done|lia|]. apply HM. lia. }
    rewrite E. cbn [obind]. pose proof (owner_resized s s1 pd a O R1) as O1.
    assert (resized s0 s1 pd) as R01 by (by eapply resized_trans). destruct ok.
    + apply IH; [exact O1|exact R01|lia|exact HM| |lia|lia].
      apply (range_allocated_step s0 s s1 i ltac:(lia) RA P).
    + destruct P as [NP SV].
      destruct (unallocate_Ret pd a start n Hs Ha Hn s1 O1 ltac:(lia)) as (s' & EU & R2 & U).
      exists 1, s'. split; [unfold bind, end_; by rewrite EU|]. split; [by eapply resized_trans|]. right. split; [done|].
      split; [exists s, i; split_and!; (done || lia)|].
      apply (range_undone s0 s1 s' i); [lia|exact HM| |exact U]. destruct RA as [A1 A2]. unfold PHYS_BASE in Hn. split.
      * intros va Hv. destruct (SV va) as [-> ->]; [lia|unfold is_user_vaddr, PHYS_BASE; lia|]. by apply A1.
      * intros va V1 V2 V3. eapply same_view_trans; [by apply A2|by apply SV].
Qed.

Lemma allocate_Ret s : owner s pd a -> 0 <= n -> (forall va, start <= va < start + 4096 * n -> mapping s pd va = None) ->
  exists r s', allocate pd start end_ s = Ret (r, s') /\ resized s s' pd /\
    ((r = 0 /\ range_allocated s s' pd start (start + 4096 * n)) \/
     (r = 1 /\ allocation_fails s /\ forall va, 0 <= va -> is_user_vaddr va = true -> same_view s s' pd va)).
Proof.
  intros O H HM. apply (allocate_loop_Ret (Z.to_nat n)); [done|destruct O; by apply resized_refl|lia|done| |lia|].
  - split; [lia|]. intros. done.
  - by apply range_fuel_enough.
Qed.
End Growing.

(** * The heap *)

(** The end of the last page of the heap. *)
Definition heap_top (h : heap) : Z := 4096 * ((heap_break h - 1) / 4096) + 4096.

(** From the heap's start up, exactly the pages with an address below the break are mapped. *)
Record heap_ok (s : vm) (h : heap) : Prop := {
  ho_start : heap_start h mod 4096 = 0;
  ho_range : 4096 <= heap_start h <= heap_break h /\ heap_break h < 2 ^ 31;
  ho_mapped : forall va, heap_start h <= va < heap_top h -> exists f, mapping s (h_pagedir h) va = Some (f, true);
  ho_unmapped : forall va, heap_start h <= va < 2 ^ 31 -> heap_top h <= va -> mapping s (h_pagedir h) va = None
}.

Lemma heap_top_page h : 4096 <= heap_break h < 2 ^ 31 ->
  pg_round_down (u32 (heap_break h - 1)) = heap_top h - 4096.
Proof. intros H. rewrite u32_small, pg_round_down_div by (rewrite ?u32_small; lia). unfold heap_top. lia. Qed.

Lemma heap_top_bounds h : 4096 <= heap_break h < 2 ^ 31 ->
  heap_break h <= heap_top h < heap_break h + 4096 /\ heap_top h <= 2 ^ 31 /\ heap_top h mod 4096 = 0.
Proof.
  intros H. unfold heap_top. split; [|split].
  - Z.to_euclidean_division_equations. lia.
  - Z.to_euclidean_division_equations. lia.
  - replace (4096 * ((heap_break h - 1) / 4096) + 4096) with (((heap_break h - 1) / 4096 + 1) * 4096) by lia.
    apply Z.mod_mul. lia.
Qed.

(** The heap with its break moved. *)
Definition with_break (h : heap) (b : Z) : heap := mk_heap (h_pagedir h) (heap_start h) b.

Lemma heap_top_mono h b : heap_break h <= b -> heap_top h <= heap_top (with_break h b).
Proof. intros H. unfold heap_top. cbn [with_break heap_break]. Z.to_euclidean_division_equations. lia. Qed.

(** The pages between two breaks. *)
Definition break_pages (b1 b2 : Z) : Z := (b2 - 1) / 4096 - (b1 - 1) / 4096.
Lemma heap_top_pages h b : heap_top (with_break h b) = heap_top h + 4096 * break_pages (heap_break h) b.
Proof. unfold heap_top, break_pages. cbn [with_break heap_break]. lia. Qed.

Section Sbrk.
Context (s : vm) (h : heap) (a : Z) (O : owner s (h_pagedir h) a) (HO : heap_ok s h).
Let pd := h_pagedir h.
Context (b : Z) (Hb : heap_start h <= b < 2 ^ 31).
Let h' := with_break h b.

Lemma sbrk_enter : syscall_sbrk h (b - heap_break h) s =
  (let moved := (heap_break h, h') in
   if b - heap_break h =? 0 then ret (heap_break h, h)
   else if 0 <? b - heap_break h then
     if (heap_break h =? heap_start h) || negb (heap_top h - 4096 =? heap_top h' - 4096) then
       let! failed := allocate pd (heap_top h) (heap_top h' - 4096) in
       if negb (failed =? 0) then ret (u32 (-1), h) else ret moved
     else ret moved
   else
     if (b =? heap_start h) || negb (heap_top h - 4096 =? heap_top h' - 4096) then
       let! _ := unallocate pd (heap_top h') (heap_top h - 4096) in ret moved
     else ret moved) s.
Proof.
  destruct HO as [_ [R1 R2] _ _]. unfold syscall_sbrk. rewrite s32_small, int_Ret by lia.
  replace (heap_break h + (b - heap_break h)) with b by lia. unfold bind at 1, lift. cbn [obind].
  rewrite s32_small by lia. replace (b <? heap_start h) with false by lia. rewrite (u32_small b) by lia.
  rewrite (heap_top_page h) by lia. pose proof (heap_top_page h' ltac:(cbn; lia)) as E. cbn [h' with_break heap_break] in E.
  rewrite E. fold h'. destruct (heap_top_bounds h ltac:(lia)) as (T1 & T2 & _).
  destruct (heap_top_bounds h' ltac:(cbn; lia)) as (T3 & T4 & _). cbn [h' with_break heap_break] in T3. fold h' in T3.
  change PGSIZE with 4096. rewrite (u32_small (heap_top h - 4096 + 4096)), (u32_small (heap_top h' - 4096 + 4096)) by lia.
  replace (heap_top h - 4096 + 4096) with (heap_top h) by lia.
  replace (heap_top h' - 4096 + 4096) with (heap_top h') by lia. reflexivity.
Qed.

(** The heap's pages after its break has moved. *)
Lemma heap_ok_moved s' : heap_break h <= b -> range_allocated s s' pd (heap_top h) (heap_top h') -> heap_ok s' h'.
Proof.
  intros Hlt [A1 A2]. destruct HO as [R0 [R1 R2] R3 R4]. destruct (heap_top_bounds h ltac:(lia)) as (T1 & T2 & _).
  destruct (heap_top_bounds h' ltac:(cbn; lia)) as (T3 & T4 & _). cbn [h' with_break heap_break] in T3. fold h' in T3.
  split; cbn [h' with_break heap_start heap_break h_pagedir]; fold h'.
  - done.
  - lia.
  - intros va Hv. destruct (decide (heap_top h <= va)); [apply A1; lia|].
    destruct (A2 va) as [E _]; [lia|unfold is_user_vaddr, PHYS_BASE; lia|lia|]. fold pd. rewrite E. apply R3. lia.
  - intros va V1 V2. pose proof (heap_top_mono h b Hlt) as L. fold h' in L. destruct (A2 va) as [E _];
      [lia|unfold is_user_vaddr, PHYS_BASE; lia|lia|]. fold pd. rewrite E. apply R4; lia.
Qed.

Lemma heap_ok_shrunk s' : b <= heap_break h -> range_unmapped s s' pd (heap_top h') (heap_top h) -> heap_ok s' h'.
Proof.
  clear O a. intros Hle [A1 A2]. destruct HO as [R0 [R1 R2] R3 R4]. destruct (heap_top_bounds h ltac:(lia)) as (T1 & T2 & _).
  destruct (heap_top_bounds h' ltac:(cbn; lia)) as (T3 & T4 & _). cbn [h' with_break heap_break] in T3. fold h' in T3.
  pose proof (heap_top_mono h' (heap_break h) Hle) as L. assert (with_break h' (heap_break h) = h) as Eh by (by destruct h).
  rewrite Eh in L. split; cbn [h' with_break heap_start heap_break h_pagedir]; fold h'.
  - done.
  - lia.
  - intros va Hv. destruct (A2 va) as [E _]; [lia|unfold is_user_vaddr, PHYS_BASE; lia|lia|]. fold pd. rewrite E. apply R3. lia.
  - intros va V1 V2. destruct (decide (va < heap_top h)); [apply A1; lia|].
    destruct (A2 va) as [E _]; [lia|unfold is_user_vaddr, PHYS_BASE; lia|lia|]. fold pd. rewrite E. apply R4; lia.
Qed.

Lemma heap_ok_same s' : (forall va, 0 <= va -> is_user_vaddr va = true -> same_view s s' pd va) -> heap_ok s' h.
Proof.
  intros SV. destruct HO as [R0 [R1 R2] R3 R4]. destruct (heap_top_bounds h ltac:(lia)) as (T1 & T2 & _).
  assert (forall va, heap_start h <= va < 2 ^ 31 -> mapping s' pd va = mapping s pd va) as E.
  { intros va Hv. apply SV; [lia|]. unfold is_user_vaddr, PHYS_BASE. lia. }
  split; [done|done| |]; intros va Hv; [|intros Hv2]; fold pd; rewrite E by lia; [by apply R3|by apply R4].
Qed.

Lemma sbrk_grow : heap_break h < b -> exists r h2 s', syscall_sbrk h (b - heap_break h) s = Ret ((r, h2), s') /\
  resized s s' pd /\
  ((r = heap_break h /\ h2 = h' /\ range_allocated s s' pd (heap_top h) (heap_top h')) \/
   (r = u32 (-1) /\ h2 = h /\ allocation_fails pd (heap_top h) (break_pages (heap_break h) b) s /\
    forall va, 0 <= va -> is_user_vaddr va = true -> same_view s s' pd va)).
Proof.
  intros Hlt. rewrite sbrk_enter. cbv zeta. replace (b - heap_break h =? 0) with false by lia.
  replace (0 <? b - heap_break h) with true by lia. pose proof HO as [R0 [R1 R2] R3 R4].
  destruct (heap_top_bounds h ltac:(lia)) as (T1 & T2 & T5).
  destruct (heap_top_bounds h' ltac:(cbn; lia)) as (T3 & T4 & _). cbn [h' with_break heap_break] in T3. fold h' in T3.
  pose proof (heap_top_pages h b) as TP. pose proof (heap_top_mono h b ltac:(lia)) as L. fold h' in TP, L.
  set (n := break_pages (heap_break h) b) in *.
  destruct (_ || _) eqn:C.
  - destruct (allocate_Ret pd a (heap_top h) n ltac:(lia) T5 ltac:(unfold PHYS_BASE; lia) s O ltac:(lia))
      as (r & s' & E & R & D).
    { intros va Hv. apply R4; lia. }
    replace (heap_top h' - 4096) with (heap_top h + 4096 * (n - 1)) by lia. unfold bind. rewrite E. cbn [obind].
    destruct D as [[-> A]|(-> & AF & SV)]; eexists _, _, s'; (split; [reflexivity|]); (split; [exact R|]).
    + left. rewrite TP. done.
    + right. done.
  - assert (heap_top h' = heap_top h) as -> by lia. eexists _, _, s. split; [reflexivity|].
    split; [destruct O; by apply resized_refl|]. left. split; [done|]. split; [done|]. split; [lia|]. intros. done.
Qed.

Lemma sbrk_shrink : b <= heap_break h -> exists s', syscall_sbrk h (b - heap_break h) s = Ret ((heap_break h, h'), s') /\
  resized s s' pd /\ range_unmapped s s' pd (heap_top h') (heap_top h).
Proof.
  intros Hle. rewrite sbrk_enter. cbv zeta. pose proof HO as [R0 [R1 R2] R3 R4].
  destruct (Z.eqb_spec (b - heap_break h) 0) as [E0|N0].
  { assert (b = heap_break h) as Eb by lia. assert (h' = h) as -> by (unfold h'; rewrite Eb; by destruct h).
    exists s. split; [done|]. split; [destruct O; by apply resized_refl|]. split; [lia|]. intros. done. }
  replace (0 <? b - heap_break h) with false by lia.
  destruct (heap_top_bounds h ltac:(lia)) as (T1 & T2 & _).
  destruct (heap_top_bounds h' ltac:(cbn; lia)) as (T3 & T4 & T5). cbn [h' with_break heap_break] in T3. fold h' in T3.
  pose proof (heap_top_pages h b) as TP. fold h' in TP. set (n := break_pages (heap_break h) b) in *.
  pose proof (heap_top_mono h' (heap_break h) Hle) as L. assert (with_break h' (heap_break h) = h) as Eh by (by destruct h).
  rewrite Eh in L. destruct (_ || _) eqn:C.
  - destruct (unallocate_Ret pd a (heap_top h') (- n) ltac:(lia) T5 ltac:(unfold PHYS_BASE; lia) s O ltac:(lia))
      as (s' & E & R & U).
    replace (heap_top h' + 4096 * - n) with (heap_top h) in U by lia.
    replace (heap_top h' + 4096 * (- n - 1)) with (heap_top h - 4096) in E by lia.
    exists s'. unfold bind. by rewrite E.
  - assert (heap_top h' = heap_top h) as -> by lia. exists s. split; [done|].
    split; [destruct O; by apply resized_refl|]. split; [lia|]. intros. done.
Qed.
End Sbrk.

(** * Properties *)

(** C16. For a process that owns its address space, with a well-formed heap: [sbrk] of an increment that
    takes the break below the heap's start changes nothing and fails, one that takes it past 2^31
    overflows; any other returns the old break and moves it.  The heap stays well formed: exactly its
    pages are mapped, pages it gains are writable and zero, pages it loses are free, and no other byte
    of the process, and no page in use that is not its own, changes.  When the pages run out, the call
    fails with everything as it was, the pages it had got free again. *)
Theorem syscall_sbrk_correct (s : vm) (h : heap) (a increment : Z) (O : owner s (h_pagedir h) a)
    (HO : heap_ok s h) (I : in_s32 increment) :
  let b := heap_break h + increment in
  if 2 ^ 31 <=? b then syscall_sbrk h increment s = UB
  else if b <? heap_start h then syscall_sbrk h increment s = Ret ((u32 (-1), h), s)
  else exists r h' s', syscall_sbrk h increment s = Ret ((r, h'), s') /\
    owner s' (h_pagedir h) a /\ heap_ok s' h' /\ resized s s' (h_pagedir h) /\
    ((r = heap_break h /\ h' = with_break h b /\
      if heap_break h <=? b then range_allocated s s' (h_pagedir h) (heap_top h) (heap_top h')
      else range_unmapped s s' (h_pagedir h) (heap_top h') (heap_top h)) \/
     (r = u32 (-1) /\ h' = h /\ heap_break h < b /\
      allocation_fails (h_pagedir h) (heap_top h) (break_pages (heap_break h) b) s /\
      forall va, 0 <= va -> is_user_vaddr va = true -> same_view s s' (h_pagedir h) va)).
Proof.
  intros b. pose proof (ho_range s h HO) as [R1 R2]. destruct (Z.leb_spec (2 ^ 31) b).
  { unfold syscall_sbrk. rewrite s32_small, int_UB by lia. done. }
  destruct (Z.ltb_spec b (heap_start h)).
  { unfold syscall_sbrk. rewrite s32_small, int_Ret by lia. unfold bind, lift. cbn [obind].
    rewrite s32_small by lia. by replace (heap_break h + increment <? heap_start h) with true by lia. }
  replace increment with (b - heap_break h) by lia.
  destruct (decide (heap_break h < b)) as [Hlt|Hle].
  - replace (heap_break h <=? b) with true by lia.
    destruct (sbrk_grow s h a O HO b ltac:(lia) Hlt) as (r & h' & s' & E & R & [(-> & -> & A)|(-> & -> & AF & SV)]);
      eexists _, _, s'; (split; [exact E|]); (split; [by eapply owner_resized|]).
    + split; [apply (heap_ok_moved s h HO b ltac:(lia) s' ltac:(lia) A)|]. split; [exact R|]. by left.
    + split; [by apply (heap_ok_same s h HO)|]. split; [exact R|]. by right.
  - destruct (sbrk_shrink s h a O HO b ltac:(lia) ltac:(lia)) as (s' & E & R & U).
    eexists _, _, s'. split; [exact E|]. split; [by eapply owner_resized|].
    split; [apply (heap_ok_shrunk s h HO b ltac:(lia) s' ltac:(lia) U)|]. split; [exact R|]. left.
    split; [done|]. split; [done|]. destruct (Z.leb_spec (heap_break h) b); [|done].
    assert (b = heap_break h) as -> by lia. assert (with_break h (heap_break h) = h) as Eh by (by destruct h).
    rewrite Eh in *. split; [lia|]. apply U.
Qed.

(** The empty heap of a new process. *)
Definition ex_heap : heap := mk_heap 0xc0102000 0x8050000 0x8050000.

Lemma ex_heap_ok : heap_ok ex_created ex_heap.
Proof.
  split; cbn [ex_heap heap_start heap_break h_pagedir]; [done|lia| |].
  - intros va H. exfalso. change (heap_top ex_heap) with 0x8050000 in H. lia.
  - intros va H _. assert (forallb (fun k => bool_decide (table ex_created 0xc0102000 k = None)) (seqZ 0 512) = true) as T
      by (vm_compute; reflexivity).
    rewrite forallb_forall in T. assert (0 <= va / 2 ^ 22 < 512) by (revert H; clear; Z.to_euclidean_division_equations; lia).
    specialize (T (pd_no va)). rewrite pd_no_div in T by lia.
    specialize (T ltac:(apply list_elem_of_In, elem_of_seqZ; lia)). apply bool_decide_eq_true in T.
    unfold mapping, pte. rewrite pd_no_div, T by lia. reflexivity.
Qed.

Lemma ex_heap_owner : owner ex_created 0xc0102000 0xc0101000.
Proof.
  pose proof (create_step ex_vm ex_created [] 0xc0101000 0xc0102000 ex_kernel_ok ex_create) as [[V P _ _ _ _] A _ _].
  split; [exact V|apply P; by left|vm_compute; discriminate|exact A].
Qed.

Lemma ex_sbrk : match syscall_sbrk ex_heap 5000 ex_created with Ret ((r, h), _) => r = 0x8050000 /\ heap_break h = 0x8051388 | _ => False end.
Proof. vm_compute. split; reflexivity. Qed.

Lemma syscall_sbrk_correct_witness : exists h s', syscall_sbrk ex_heap 5000 ex_created = Ret ((0x8050000, h), s') /\
  heap_ok s' h /\ user_byte s' 0xc0102000 0x8051387 = Some 0.
Proof.
  destruct (syscall_sbrk_correct ex_created ex_heap 0xc0101000 5000 ex_heap_owner ex_heap_ok ltac:(lia))
    as (r & h & s' & E & _ & HO & _ & D).
  pose proof ex_sbrk as X. rewrite E in X. destruct X as [-> B]. exists h, s'. split; [exact E|]. split; [exact HO|].
  destruct D as [(_ & -> & A)|(F & _)]; [|discriminate F]. apply A. vm_compute. split; [discriminate|reflexivity].
Defined.
