(* ===== verification/LoadProps.v ===== *)
(** Loading an executable: a segment that is loaded reads as its part of the file followed by zeros,
    and no file, however malformed, makes [load] crash or corrupts the address space. *)
From S2P Require Import Prelude KStdlib Bitmap Vaddr Palloc Pagedir PagedirFacts PagedirProps AddressSpaces.
From S2P Require Import Endian Block Fs InodeFacts DirFacts Process LoadFacts.

Section Load.
Context {D : Type} `{!block_device D} `{!block_device_laws D}.
Implicit Types s : ps D.

(** * Reading the executable *)

(** The open inode [p] has contents [c], and the kernel heap does not run out. *)
Record file_at (s : fs_state D) (p : inode_ptr) (c : list Z) : Prop := {
  fa_ok : bd_ok (dev s);
  fa_mallocs : fs_mallocs s = [];
  fa_inode : exists i, inodes s !! p = Some i /\ data_ok (Z.of_nat (length (bd_view (dev s)))) (i_data i) /\
    content (bd_view (dev s)) (i_data i) = c
}.

Lemma file_at_calm (s s' : fs_state D) p c : file_at s p c -> calm s s' -> file_at s' p c.
Proof.
  intros [H1 H2 (i & I1 & I2 & I3)] (C1 & C2 & C3 & C4). split; [done|done|].
  exists i. rewrite (proj1 C3), C2. done.
Qed.

Lemma file_at_length (s : fs_state D) p c : file_at s p c ->
  Z.of_nat (length c) < 2 ^ 31 /\ is_bytes c.
Proof.
  intros [H1 H2 (i & I1 & I2 & <-)]. pose proof (bd_sectors (dev s) H1) as Hs.
  pose proof (content_length _ _ Hs I2). split; [|by apply content_bytes].
  destruct I2 as [[_ L] _]. lia.
Qed.

Lemma file_length_Ret (s : fs_state D) f c : file_at s (f_inode f) c ->
  file_length f s = Ret (Z.of_nat (length c), s).
Proof.
  intros [H1 H2 (i & I1 & I2 & <-)]. unfold file_length, inode_length, bind, get_inode. rewrite I1.
  cbn [deref obind]. rewrite content_length; [done| |done]. by apply bd_sectors.
Qed.

Definition at_pos (f : file) (pos : Z) : file := mk_file (f_inode f) pos (f_deny_write f).

Lemma file_read_Ret (s : fs_state D) f c size : file_at s (f_inode f) c -> 0 <= f_pos f < 2 ^ 31 ->
  0 <= size -> exists s' : fs_state D, let bytes := take (Z.to_nat size) (drop (Z.to_nat (f_pos f)) c) in
    file_read f size s = Ret ((bytes, at_pos f (f_pos f + Z.of_nat (length bytes))), s') /\ calm s s' /\
    f_pos f + Z.of_nat (length bytes) < 2 ^ 31.
Proof.
  intros FA Hp Hs. destruct (file_at_length _ _ _ FA) as [Hl _].
  destruct FA as [H1 H2 (i & I1 & I2 & I3)].
  destruct (inode_read_at_Ret s (f_inode f) i size (f_pos f) H1 I1 I2 Hp Hs)
    as (s' & k & Hr & Hok & Hv & Hsm & _ & Hk). destruct (Hk H2) as [-> Hm]. exists s'. cbv zeta.
  set (bytes := take _ (drop _ c)).
  assert (f_pos f + Z.of_nat (length bytes) < 2 ^ 31) as Hb.
  { unfold bytes. rewrite length_take, length_drop. lia. }
  split; [|done]. unfold file_read, bind at 1. rewrite Hr, I3. cbn [obind]. fold bytes.
  rewrite int_Ret by lia. by rewrite bind_lift_Ret.
Qed.

(** * One page *)

(** [s'] is [s] after the address space grew by [new] and the file system at most read. *)
Record loaded (s s' : ps D) (pd : Z) (new : list Z) : Prop := {
  ld_space : space_grows (p_vm s) (p_vm s') pd new;
  ld_calm : calm (p_fs s) (p_fs s');
  ld_rest : s' = with_fs (with_vm s (p_vm s')) (p_fs s')
}.

Lemma loaded_trans s1 s2 s3 pd new1 new2 : loaded s1 s2 pd new1 -> loaded s2 s3 pd new2 ->
  loaded s1 s3 pd (new2 ++ new1).
Proof.
  intros [A1 A2 A3] [B1 B2 B3]. split.
  - by eapply space_grows_trans.
  - by eapply calm_trans.
  - rewrite B3, A3. reflexivity.
Qed.

(** One iteration of the loop of [load_segment]. *)
Definition load_page (f : file) (upage page_read_bytes : Z) (writable : bool) : ST (ps D) (file * bool) :=
  let! kpage := in_vm (get_page PAL_USER) in
  if kpage =? NULL then ret (f, false)
  else
    let! (bytes, f) := in_fs (file_read f page_read_bytes) in
    let! _ := write_memory (fun m => put_bytes m kpage bytes) in
    if negb (Z.of_nat (length bytes) =? page_read_bytes) then
      let! _ := in_vm (free_page kpage) in ret (f, false)
    else
      let! _ := write_memory (fun m => memset m (kpage + page_read_bytes) 0 (PGSIZE - page_read_bytes)) in
      let! ok := install_page upage kpage writable in
      if negb ok then let! _ := in_vm (free_page kpage) in ret (f, false) else ret (f, true).

Lemma load_pages_step fuel f upage rb zb writable s : 0 < rb \/ 0 < zb ->
  load_pages (S fuel) f upage rb zb writable s =
  (let prb := if rb <? PGSIZE then rb else PGSIZE in
   let! (f, ok) := load_page f upage prb writable in
   if negb ok then ret (f, false)
   else load_pages fuel f (u32 (upage + PGSIZE)) (u32 (rb - prb)) (u32 (zb - (PGSIZE - prb))) writable) s.
Proof.
  intros H. cbn [load_pages]. replace ((0 <? rb) || (0 <? zb)) with true by lia. cbv zeta.
  set (prb := if rb <? PGSIZE then rb else PGSIZE). unfold load_page, bind.
  destruct (in_vm (get_page PAL_USER) s) as [[kpage s1]| | |]; [|done..]. cbn [obind].
  destruct (kpage =? NULL); [done|].
  destruct (in_fs (file_read f prb) s1) as [[[bytes f1] s2]| | |]; [|done..]. cbn [obind].
  destruct (write_memory _ s2) as [[? s3]| | |]; [|done..]. cbn [obind].
  destruct (negb (Z.of_nat (length bytes) =? prb)).
  { destruct (in_vm (free_page kpage) s3) as [[? s4]| | |]; done. }
  destruct (write_memory _ s3) as [[? s4]| | |]; [|done..]. cbn [obind].
  destruct (install_page upage kpage writable s4) as [[ok s5]| | |]; [|done..]. cbn [obind].
  destruct ok; cbn [negb]; [done|].
  destruct (in_vm (free_page kpage) s5) as [[? s6]| | |]; done.
Qed.

Lemma put_bytes_same m a l x : ~ (a <= x < a + Z.of_nat (length l)) -> put_bytes m a l x = m x.
Proof.
  intros H. unfold put_bytes. by replace ((a <=? x) && (x <? a + Z.of_nat (length l))) with false by lia.
Qed.

Lemma put_bytes_at m a l i : 0 <= i < Z.of_nat (length l) -> put_bytes m a l (a + i) = nth (Z.to_nat i) l 0.
Proof.
  intros H. unfold put_bytes. replace ((a <=? a + i) && (a + i <? a + Z.of_nat (length l))) with true by lia.
  f_equal. lia.
Qed.

Lemma nth_take_drop (c : list Z) n p i : (i < n)%nat -> nth i (take n (drop p c)) 0 = nth (p + i) c 0.
Proof.
  intros H. rewrite !nth_lookup. by rewrite lookup_take_lt, lookup_drop by lia.
Qed.

(** A process whose directory is [pd] may load from the open inode [ino] with contents [c]. *)
Record ready (s : ps D) (pd : Z) (ino : inode_ptr) (c : list Z) : Prop := {
  rd_vm : vm_ok (p_vm s);
  rd_pd : pd_ok (p_vm s) pd;
  rd_own : pd <> init_page_dir (p_vm s);
  rd_pcb : exists p, pcb s = Some p /\ pagedir p = pd;
  rd_file : file_at (p_fs s) ino c
}.

Lemma ready_loaded s s' pd ino c new : ready s pd ino c -> loaded s s' pd new -> ready s' pd ino c.
Proof.
  intros [R1 R2 R3 R4 R5] [L1 L2 L3]. split.
  - by eapply sg_ok.
  - apply L1.
  - pose proof (gr_cpu _ _ _ _ (sg_grown _ _ _ _ L1)) as C. by rewrite (proj1 (proj2 (proj2 C))).
  - by rewrite L3.
  - by eapply file_at_calm.
Qed.

Lemma loaded_refl s pd ino c : ready s pd ino c -> loaded s s pd [].
Proof.
  intros [R1 R2 R3 R4 R5]. split.
  - by apply space_grows_refl.
  - apply calm_refl; apply R5.
  - by destruct s.
Qed.

(** Mapping a page that was just filled. *)
Section Install.
Context (s : ps D) (pd q : Z) (ino : inode_ptr) (c : list Z) (v1 : vm) (m : memory) (fs' : fs_state D).
Context (R : ready s pd ino c) (G : got_page (p_vm s) v1 q) (F : calm (p_fs s) fs').
Context (Hm1 : forall q', live_page (p_vm s) q' -> same_page (mem (pages (p_vm s))) (mem (pages v1)) q').
Context (Hm : forall a, ~ (q <= a < q + 4096) -> m a = mem (pages v1) a).
Let t := with_fs (with_vm s (change_mem v1 m)) fs'.

Lemma loaded_filled v3 new : space_grows (p_vm s) v3 pd new -> loaded s (with_vm t v3) pd new.
Proof. intros SG. by split. Qed.

Lemma free_filled : exists v3, in_vm (free_page q) t = Ret (tt, with_vm t v3) /\
  space_grows (p_vm s) v3 pd [] /\
  forall va, 0 <= va -> is_user_vaddr va = true -> mapping v3 pd va = mapping (p_vm s) pd va.
Proof.
  destruct R as [R1 R2 R3 R4 R5].
  destruct (filled_freed (p_vm s) v1 pd q m R2 G Hm1 Hm) as (v3 & E & SG & M).
  exists v3. split; [|done]. unfold in_vm. change (p_vm t) with (change_mem v1 m). by rewrite E.
Qed.

Lemma install_filled upage writable : 0 <= upage -> upage mod 4096 = 0 -> is_user_vaddr upage = true ->
  (exists v3 new, install_page upage q writable t = Ret (true, with_vm t v3) /\
     mapping (p_vm s) pd upage = None /\ space_grows (p_vm s) v3 pd new /\
     maps_page (p_vm s) v3 pd upage (Some (q, writable)) /\ same_page m (mem (pages v3)) q) \/
  (install_page upage q writable t = Ret (false, t) /\
   (mapping (p_vm s) pd upage <> None \/ pool_exhausted (kernel_pool (pages v1)) 1)).
Proof.
  intros H0 Ha Hu. destruct R as [R1 R2 R3 (p & Rp & Rpd) R5].
  destruct (filled_ok (p_vm s) v1 pd q m R2 G Hm1 Hm) as (V2 & OK2 & _ & _).
  pose proof (filled_mapping (p_vm s) v1 pd q m R2 G Hm1 Hm upage H0 Hu) as ME.
  pose proof (pagedir_get_page_spec _ pd V2 OK2 upage H0 Hu) as PG. rewrite ME in PG.
  assert (install_page upage q writable t =
    (if match mapping (p_vm s) pd upage with Some (page, _) => page + pg_ofs upage | None => NULL end =? NULL
     then in_vm (pagedir_set_page pd upage q writable) else ret false) t) as ->.
  { unfold install_page, cur_pcb, bind at 1 2, gets, lift. change (pcb t) with (pcb s). rewrite Rp. cbn [obind deref].
    unfold bind, in_vm. change (p_vm t) with (change_mem v1 m). rewrite Rpd, PG. cbn [obind]. done. }
  destruct (mapping (p_vm s) pd upage) as [[page w]|] eqn:M.
  - right. destruct (frame_apart (p_vm s) pd upage page w R2 H0 Hu M) as (_ & L & _).
    pose proof (live_kernel_page _ _ R1 L) as [[K _] _]. unfold PHYS_BASE in K.
    rewrite pg_ofs_mod. pose proof (Z.mod_pos_bound upage 4096 ltac:(lia)).
    rewrite (proj2 (Z.eqb_neq _ NULL)) by (unfold NULL; lia). split; [done|]. by left.
  - destruct (filled_installed (p_vm s) v1 pd q m R2 G Hm1 Hm upage writable R3 H0 Ha Hu M)
      as [(v3 & new & E & SG & MP & SP)|[X E]]; cbn [Z.eqb NULL];
      unfold in_vm; change (p_vm t) with (change_mem v1 m); rewrite E; cbn [obind].
    + left. by exists v3, new.
    + right. split; [done|]. by right.
Qed.
End Install.

(** The byte a page receives at offset [i]: the file's from [pos] on, then zeros. *)
Definition page_byte (c : list Z) (pos prb i : Z) : Z := if i <? prb then nth (Z.to_nat (pos + i)) c 0 else 0.

Definition filled_memory (m : memory) (q : Z) (bytes : list Z) (prb : Z) : memory :=
  memset (put_bytes m q bytes) (q + prb) 0 (PGSIZE - prb).

Lemma filled_memory_other m q bytes prb a : 0 <= prb <= PGSIZE -> Z.of_nat (length bytes) <= PGSIZE ->
  ~ (q <= a < q + 4096) -> filled_memory m q bytes prb a = m a.
Proof.
  change PGSIZE with 4096. intros H1 H2 H3. unfold filled_memory. change PGSIZE with 4096. rewrite memset_outside by lia.
  apply put_bytes_same. lia.
Qed.

Lemma filled_memory_at m q c pos prb i : 0 <= pos -> 0 <= prb <= PGSIZE ->
  prb <= Z.max 0 (Z.of_nat (length c) - pos) -> 0 <= i < 4096 ->
  filled_memory m q (take (Z.to_nat prb) (drop (Z.to_nat pos) c)) prb (q + i) = page_byte c pos prb i.
Proof.
  change PGSIZE with 4096. intros Hp H1 H2 Hi. unfold filled_memory, page_byte. change PGSIZE with 4096.
  destruct (Z.ltb_spec i prb).
  - rewrite memset_outside by lia.
    rewrite put_bytes_at by (rewrite length_take, length_drop; lia).
    rewrite nth_take_drop by lia. f_equal. lia.
  - by rewrite memset_inside by lia.
Qed.

Record page_loaded (s s' : ps D) (pd : Z) (c : list Z) (f f' : file) (upage prb : Z) (w : bool) (new : list Z)
    : Prop := {
  pl_loaded : loaded s s' pd new;
  pl_file : f' = at_pos f (f_pos f + prb);
  pl_enough : prb <= Z.max 0 (Z.of_nat (length c) - f_pos f);
  pl_new : mapping (p_vm s) pd upage = None;
  pl_frame : exists q, maps_page (p_vm s) (p_vm s') pd upage (Some (q, w)) /\
    forall i, 0 <= i < 4096 -> mem (pages (p_vm s')) (q + i) = page_byte c (f_pos f) prb i
}.

(** Why a page cannot be loaded: the file is too short, the page is mapped, or memory has run out. *)
Definition page_refused (s : ps D) (pd : Z) (c : list Z) (pos upage prb : Z) : Prop :=
  Z.max 0 (Z.of_nat (length c) - pos) < prb \/ mapping (p_vm s) pd upage <> None \/ no_page_left (p_vm s).

Lemma load_page_spec s pd c f upage prb w : ready s pd (f_inode f) c -> 0 <= f_pos f < 2 ^ 31 ->
  0 <= upage -> upage mod 4096 = 0 -> is_user_vaddr upage = true -> 0 <= prb <= PGSIZE ->
  (exists s' f' new, load_page f upage prb w s = Ret ((f', true), s') /\
     page_loaded s s' pd c f f' upage prb w new) \/
  (exists s' f', load_page f upage prb w s = Ret ((f', false), s') /\ f_inode f' = f_inode f /\
     loaded s s' pd [] /\ f_pos f <= f_pos f' < 2 ^ 31 /\
     (forall va, 0 <= va -> is_user_vaddr va = true -> mapping (p_vm s') pd va = mapping (p_vm s) pd va) /\
     page_refused s pd c (f_pos f) upage prb).
Proof.
  intros R Hp H0 Ha Hu Hb. pose proof (rd_vm _ _ _ _ R) as V.
  remember (load_page f upage prb w s) as r eqn:Er. unfold load_page, bind at 1, in_vm at 1 in Er.
  destruct (get_page_spec (p_vm s) PAL_USER V) as [(v1 & q & E & N & G & M)|[X E]]; rewrite E in Er; cbn [obind] in Er.
  2:{ right. change (has_flag PAL_USER PAL_ASSERT) with false in Er. cbn [obind] in Er. cbn [Z.eqb NULL] in Er. replace (with_vm s (p_vm s)) with s in Er by (by destruct s).
      exists s, f. split_and!; [exact Er|done|by eapply loaded_refl|lia|lia|done|]. right. right. by left. }
  change (has_flag PAL_USER PAL_ZERO) with false in M. rewrite (proj2 (Z.eqb_neq q NULL) N) in Er.
  unfold bind at 1, in_fs at 1 in Er. change (p_fs (with_vm s v1)) with (p_fs s) in Er.
  destruct (file_read_Ret (p_fs s) f c prb (rd_file _ _ _ _ R) Hp ltac:(lia)) as (fs' & ER & CF & PB).
  cbv zeta in ER. rewrite ER in Er. cbn [obind] in Er.
  set (bytes := take (Z.to_nat prb) (drop (Z.to_nat (f_pos f)) c)) in *.
  assert (Z.of_nat (length bytes) = Z.min prb (Z.max 0 (Z.of_nat (length c) - f_pos f))) as LB.
  { unfold bytes. rewrite length_take, length_drop. lia. }
  set (m0 := put_bytes (mem (pages v1)) q bytes).
  assert (forall q', live_page (p_vm s) q' -> same_page (mem (pages (p_vm s))) (mem (pages v1)) q') as HM1.
  { intros q' _. rewrite M. apply same_page_refl. }
  unfold bind at 1 in Er.
  change (write_memory _ (with_fs (with_vm s v1) fs'))
    with (Ret (tt, with_fs (with_vm s (change_mem v1 m0)) fs')) in Er. cbn [obind] in Er.
  destruct (Z.eqb_spec (Z.of_nat (length bytes)) prb) as [LE|LE]; cbn [negb] in Er.
  2:{ right. destruct (free_filled s pd q _ c v1 m0 fs' R G HM1) as (v3 & EF & SG & MM).
      { intros a Hn. apply put_bytes_same. change PGSIZE with 4096 in Hb. lia. }
      unfold bind at 1 in Er. rewrite EF in Er. cbn [obind] in Er. eexists _, _. split; [exact Er|].
      split_and!; try done; cbn [at_pos f_pos f_inode]; try lia; left; lia. }
  unfold bind at 1 in Er. set (m := filled_memory (mem (pages v1)) q bytes prb).
  change (write_memory _ (with_fs (with_vm s (change_mem v1 m0)) fs'))
    with (Ret (tt, with_fs (with_vm s (change_mem v1 m)) fs')) in Er. cbn [obind] in Er.
  assert (forall a, ~ (q <= a < q + 4096) -> m a = mem (pages v1) a) as Hm.
  { intros a. apply filled_memory_other; lia. }
  unfold bind at 1 in Er.
  destruct (install_filled s pd q _ c v1 m fs' R G HM1 Hm upage w H0 Ha Hu)
    as [(v3 & new & EI & MN & SG & MP & SP)|[EI WHY]]; rewrite EI in Er; cbn [obind negb] in Er.
  - left. eexists _, _, new. split; [exact Er|]. split; [by apply loaded_filled| |lia|done|].
    + by rewrite LE.
    + exists q. split; [done|]. intros i Hi. change (p_vm (with_vm _ v3)) with v3.
      rewrite SP by lia. apply filled_memory_at; [lia|done|lia|done].
  - right. destruct (free_filled s pd q _ c v1 m fs' R G HM1 Hm) as (v3 & EF & SG & MM).
    unfold bind at 1 in Er. rewrite EF in Er. cbn [obind] in Er. eexists _, _. split; [exact Er|].
    split_and!; try done; cbn [at_pos f_pos f_inode]; try lia.
    right. destruct WHY as [|WHY]; [by left|]. right. right. by exists v1, q.
Qed.

(** * The pages of a segment *)

(** The [n] pages from [u] on, absent before, now hold the file from [pos] on for [rb] bytes and then
    zeros; nothing else of the address space has changed. *)
Record segment_loaded (s s' : ps D) (pd : Z) (c : list Z) (pos u n rb : Z) (w : bool) (new : list Z) : Prop := {
  sl_loaded : loaded s s' pd new;
  sl_enough : rb <= Z.max 0 (Z.of_nat (length c) - pos);
  sl_bytes : forall i, 0 <= i < 4096 * n -> mapping (p_vm s) pd (u + i) = None /\
    (exists q, mapping (p_vm s') pd (u + i) = Some (q, w)) /\
    user_byte (p_vm s') pd (u + i) = Some (page_byte c pos rb i);
  sl_frame : forall va, 0 <= va -> is_user_vaddr va = true -> ~ (u <= va < u + 4096 * n) ->
    mapping (p_vm s') pd va = mapping (p_vm s) pd va
}.

Definition segment_refused (s : ps D) (pd : Z) (c : list Z) (pos u n rb : Z) : Prop :=
  Z.max 0 (Z.of_nat (length c) - pos) < rb \/
  (exists i, 0 <= i < 4096 * n /\ mapping (p_vm s) pd (u + i) <> None) \/
  exists v new, space_grows (p_vm s) v pd new /\ no_page_left v.

Lemma pg_no_same u va : u mod 4096 = 0 -> pg_no va = pg_no u <-> u <= va < u + 4096.
Proof. intros H. rewrite !pg_no_div. Z.to_euclidean_division_equations. lia. Qed.

(** What follows the first page of a segment, and the whole. *)
Lemma segment_cons s s1 s2 pd c f f1 u n rb prb w new1 new2 : pd_ok (p_vm s1) pd ->
  0 <= f_pos f -> 0 <= u -> u mod 4096 = 0 -> 0 <= n -> u + 4096 * (n + 1) <= PHYS_BASE ->
  0 <= prb -> (prb = rb /\ rb <= 4096 \/ prb = 4096 /\ 4096 <= rb) ->
  page_loaded s s1 pd c f f1 u prb w new1 ->
  segment_loaded s1 s2 pd c (f_pos f + prb) (u + 4096) n (rb - prb) w new2 ->
  segment_loaded s s2 pd c (f_pos f) u (n + 1) rb w (new2 ++ new1).
Proof.
  intros OK1 Hp Hu Ha Hn He Hb Hc [L1 F1 E1 N1 (q & M1 & B1)] [L2 E2 B2 M2]. unfold PHYS_BASE in He.
  assert (forall va, va < u + 4096 * (n + 1) -> is_user_vaddr va = true) as US
    by (intros va H; unfold is_user_vaddr, PHYS_BASE; lia).
  assert (forall va, u <= va < u + 4096 -> pg_no va = pg_no u) as PGN.
  { intros va H. by apply pg_no_same. }
  assert (forall va, ~ (u <= va < u + 4096) -> pg_no va <> pg_no u) as PGO.
  { intros va H E. by apply pg_no_same in E. }
  split.
  - by eapply loaded_trans.
  - destruct Hc as [[-> _]|[-> _]]; lia.
  - intros i Hi. pose proof (US (u + i) ltac:(lia)) as UI. destruct (decide (i < 4096)) as [Hl|Hl].
    + assert (mapping (p_vm s1) pd (u + i) = Some (q, w)) as MI.
      { rewrite (M1 (u + i)) by (lia || done). apply decide_True. apply PGN. lia. }
      assert (mapping (p_vm s2) pd (u + i) = Some (q, w)) as MI2 by (rewrite M2 by (lia || done); exact MI).
      split; [|split; [by exists q|]].
      { rewrite mapping_pte. rewrite mapping_pte in N1. rewrite <- N1. unfold pte.
        destruct (proj2 (same_vpage (u + i) u) (PGN (u + i) ltac:(lia))) as [-> ->]. done. }
      rewrite (user_byte_grows (p_vm s1) (p_vm s2) pd new2 (u + i));
        [|done|apply L2|lia|done|by rewrite MI|by rewrite MI].
      unfold user_byte. rewrite MI. f_equal. rewrite pg_ofs_mod.
      rewrite (proj2 (aligned_offset u i Ha ltac:(lia))), B1 by lia. unfold page_byte.
      destruct (Z.ltb_spec i prb), (Z.ltb_spec i rb); (done || lia).
    + destruct (B2 (i - 4096) ltac:(lia)) as (A1 & (q' & A2) & A3).
      replace (u + 4096 + (i - 4096)) with (u + i) in * by lia.
      rewrite (M1 (u + i)), decide_False in A1 by (lia || done || apply PGO; lia).
      split; [done|]. split; [by exists q'|]. rewrite A3. f_equal. unfold page_byte.
      destruct (Z.ltb_spec (i - 4096) (rb - prb)), (Z.ltb_spec i rb); try lia.
      f_equal. lia.
  - intros va H1 H2 H3. rewrite M2 by (done || lia). rewrite M1 by done. rewrite decide_False; [done|].
    apply PGO. lia.
Qed.

Lemma refused_page s pd c pos u n rb prb : 0 <= n -> prb <= rb ->
  page_refused s pd c pos u prb -> vm_ok (p_vm s) -> pd_ok (p_vm s) pd -> segment_refused s pd c pos u (n + 1) rb.
Proof.
  intros Hn Hb [H|[H|H]] V OK; [left; lia|right; left|right; right].
  - exists 0. split; [lia|]. by rewrite Z.add_0_r.
  - exists (p_vm s), []. split; [by apply space_grows_refl|done].
Qed.

Lemma refused_cons s s1 pd c f f1 u n rb prb w new :
  0 <= f_pos f -> 0 <= u -> u mod 4096 = 0 -> 0 <= n -> u + 4096 * (n + 1) <= PHYS_BASE ->
  0 <= prb -> (prb = rb /\ rb <= 4096 \/ prb = 4096 /\ 4096 <= rb) ->
  page_loaded s s1 pd c f f1 u prb w new ->
  segment_refused s1 pd c (f_pos f + prb) (u + 4096) n (rb - prb) ->
  segment_refused s pd c (f_pos f) u (n + 1) rb.
Proof.
  intros Hp Hu Ha Hn He Hb Hc [L1 F1 E1 N1 (q & M1 & B1)] [H|[(i & Hi & H)|(v & new' & G & H)]].
  - left. lia.
  - right. left. exists (4096 + i). split; [lia|]. rewrite Z.add_assoc.
    rewrite M1, decide_False in H; [done| |lia|].
    + rewrite pg_no_same by done. lia.
    + unfold is_user_vaddr. lia.
  - right. right. exists v, (new' ++ new). split; [|done]. by eapply space_grows_trans; [apply L1|].
Qed.

Lemma segment_nil s pd c pos u w ino : ready s pd ino c -> segment_loaded s s pd c pos u 0 0 w [].
Proof.
  intros R. split; [by eapply loaded_refl|lia| |done]. intros i Hi. lia.
Qed.

Lemma load_pages_spec n pd c w : forall fuel s f u rb zb, ready s pd (f_inode f) c -> 0 <= f_pos f < 2 ^ 31 ->
  0 <= u -> u mod 4096 = 0 -> 0 <= rb -> 0 <= zb -> rb + zb = 4096 * Z.of_nat n ->
  u + 4096 * Z.of_nat n <= PHYS_BASE -> (n < fuel)%nat ->
  exists s' f' ok new, load_pages fuel f u rb zb w s = Ret ((f', ok), s') /\
    f_inode f' = f_inode f /\ 0 <= f_pos f' < 2 ^ 31 /\ loaded s s' pd new /\
    if (ok : bool) then segment_loaded s s' pd c (f_pos f) u (Z.of_nat n) rb w new
    else segment_refused s pd c (f_pos f) u (Z.of_nat n) rb.
Proof.
  induction n as [|n IH]; intros fuel s f u rb zb R Hp Hu Ha Hr Hz Hn He Hf;
    destruct fuel as [|fuel]; try lia.
  - assert (rb = 0) as -> by lia. assert (zb = 0) as -> by lia. exists s, f, true, [].
    split; [done|]. split_and!; try lia; [by eapply loaded_refl|by eapply segment_nil].
  - rewrite load_pages_step by lia. cbv zeta. change PGSIZE with 4096.
    set (prb := if rb <? 4096 then rb else 4096).
    assert (prb = rb /\ rb <= 4096 \/ prb = 4096 /\ 4096 <= rb) as Hc.
    { unfold prb. destruct (Z.ltb_spec rb 4096); lia. }
    pose proof He as He'. unfold PHYS_BASE in He'.
    assert (is_user_vaddr u = true) as Us by (unfold is_user_vaddr, PHYS_BASE; lia).
    unfold bind at 1.
    destruct (load_page_spec s pd c f u prb w R Hp Hu Ha Us ltac:(change PGSIZE with 4096; lia))
      as [(s1 & f1 & new1 & E & PL)|(s1 & f1 & E & Ei & L & Hp1 & M & WHY)]; rewrite E; cbn [obind negb].
    2:{ exists s1, f1, false, []. split; [done|]. split_and!; try lia; try done.
        rewrite Nat2Z.inj_succ. apply (refused_page s pd c (f_pos f) u _ rb prb); [lia|lia|done|apply R|apply R]. }
    pose proof (pl_file _ _ _ _ _ _ _ _ _ _ PL) as ->. pose proof (pl_enough _ _ _ _ _ _ _ _ _ _ PL) as PE.
    pose proof (proj1 (file_at_length _ _ _ (rd_file _ _ _ _ R))) as HL.
    pose proof (ready_loaded _ _ _ _ _ _ R (pl_loaded _ _ _ _ _ _ _ _ _ _ PL)) as R1.
    destruct (IH fuel s1 (at_pos f (f_pos f + prb)) (u + 4096) (rb - prb) (zb - (4096 - prb)))
      as (s2 & f2 & ok & new2 & E2 & Ei & Hp2 & L2 & H2);
      [done|cbn [at_pos f_pos]; lia|lia| |lia|lia|lia|lia|lia|].
    { rewrite Z.add_mod, Ha by lia. done. }
    rewrite !u32_small by lia.
    rewrite E2. exists s2, f2, ok, (new2 ++ new1). split; [done|]. split; [done|]. split; [done|].
    split; [eapply loaded_trans; [apply PL|done]|]. rewrite Nat2Z.inj_succ, <- Z.add_1_r.
    destruct ok.
    + eapply (segment_cons s s1 s2 pd c f); [..|exact PL|exact H2]; try done; try lia. apply R1.
    + by eapply refused_cons; [..|exact PL|exact H2]; try lia.
Qed.
End Load.
