(* ===== verification/Executables.v ===== *)
(** Executables: a segment that passes [validate_segment] reads in memory as the program header says,
    and [load] answers on every file, however malformed, without damage to the address space. *)
From S2P Require Import Prelude KStdlib Bitmap Vaddr Palloc Pagedir PagedirFacts PagedirProps AddressSpaces.
From S2P Require Import Endian Block Fs InodeFacts DirFacts Process LoadFacts LoadProps.

(** * Program headers *)

Record phdr_ok (h : Elf32_Phdr) : Prop := {
  ph_offset : in_u32 (p_offset h);
  ph_vaddr : in_u32 (p_vaddr h);
  ph_filesz : in_u32 (p_filesz h);
  ph_memsz : in_u32 (p_memsz h)
}.

Lemma field_value l a : is_bytes l -> in_u32 (le_value (field l a 4)).
Proof.
  intros H. pose proof (le_value_range (field l a 4)) as R.
  assert (is_bytes (field l a 4)) as B by (unfold field; by apply Forall_take, Forall_drop).
  specialize (R B). assert (length (field l a 4) <= 4)%nat as L by (unfold field; rewrite length_take; lia).
  split; [lia|]. eapply Z.lt_le_trans; [apply R|].
  apply (Z.pow_le_mono_r 256 _ 4); lia.
Qed.

Lemma decode_Phdr_ok l : is_bytes l -> phdr_ok (decode_Phdr l).
Proof. intros H. split; by apply field_value. Qed.

(** What the arguments of [load_segment] are for a valid segment: [n] whole pages below [PHYS_BASE]
    around the segment, the first of them at the page of the file that holds the segment's start. *)
Record segment_fits (h : Elf32_Phdr) (len n : Z) : Prop := {
  sf_n : 0 < n;
  sf_mem : sg_mem_page (segment_of h) = p_vaddr h - p_vaddr h mod 4096;
  sf_low : 4096 <= sg_mem_page (segment_of h);
  sf_high : sg_mem_page (segment_of h) + 4096 * n <= PHYS_BASE;
  sf_file : sg_file_page (segment_of h) = p_offset h - p_vaddr h mod 4096;
  sf_in_file : 0 <= sg_file_page (segment_of h) <= len;
  sf_aligned : sg_mem_page (segment_of h) mod 4096 = 0 /\ sg_file_page (segment_of h) mod 4096 = 0;
  sf_read : sg_read_bytes (segment_of h) = if 0 <? p_filesz h then p_vaddr h mod 4096 + p_filesz h else 0;
  sf_sum : sg_read_bytes (segment_of h) + sg_zero_bytes (segment_of h) = 4096 * n;
  sf_zero : 0 <= sg_zero_bytes (segment_of h);
  sf_pages : p_vaddr h mod 4096 + p_memsz h <= 4096 * n < p_vaddr h mod 4096 + p_memsz h + 4096;
  sf_sizes : p_filesz h <= p_memsz h
}.

Lemma round_up_pages x : 0 <= x -> x + 4095 < 2 ^ 32 -> exists n, ROUND_UP x PGSIZE = 4096 * n /\
  x <= 4096 * n < x + 4096.
Proof.
  intros H1 H2. exists ((x + 4095) / 4096). unfold ROUND_UP. change PGSIZE with 4096.
  rewrite (u32_small (x + 4096 - 1)) by lia. replace (x + 4096 - 1) with (x + 4095) by lia.
  pose proof (Z.div_mod (x + 4095) 4096 ltac:(lia)). pose proof (Z.mod_pos_bound (x + 4095) 4096 ltac:(lia)).
  rewrite u32_small by lia. lia.
Qed.

Lemma round_up_below x y b : x <= 4096 * y < x + 4096 -> x <= b -> b mod 4096 = 0 -> 4096 * y <= b.
Proof. intros. Z.to_euclidean_division_equations. lia. Qed.

Lemma page_start x : 4096 * (x / 4096) = x - x mod 4096 /\ (x - x mod 4096) mod 4096 = 0.
Proof. Z.to_euclidean_division_equations. lia. Qed.

Record valid_phdr (h : Elf32_Phdr) (len : Z) : Prop := {
  vp_offsets : p_offset h mod 4096 = p_vaddr h mod 4096;
  vp_in_file : p_offset h <= len;
  vp_sizes : p_filesz h <= p_memsz h;
  vp_memsz : 0 < p_memsz h;
  vp_end : p_vaddr h + p_memsz h < PHYS_BASE;
  vp_low : 4096 <= p_vaddr h
}.

Lemma validate_segment_spec h len : phdr_ok h -> 0 <= len < 2 ^ 31 ->
  validate_segment h len = true -> valid_phdr h len.
Proof.
  intros [H1 H2 H3 H4] Hl. unfold validate_segment, is_user_vaddr.
  change (Z.land (p_offset h) PGMASK) with (pg_ofs (p_offset h)).
  change (Z.land (p_vaddr h) PGMASK) with (pg_ofs (p_vaddr h)). rewrite !pg_ofs_mod.
  rewrite (u32_small len) by lia. change PGSIZE with 4096. unfold PHYS_BASE.
  destruct (Z.eqb_spec (p_offset h mod 4096) (p_vaddr h mod 4096)); [|done]. cbn [negb].
  destruct (Z.ltb_spec len (p_offset h)); [done|].
  destruct (Z.ltb_spec (p_memsz h) (p_filesz h)); [done|].
  destruct (Z.eqb_spec (p_memsz h) 0); [done|].
  destruct (Z.ltb_spec (p_vaddr h) 0xc0000000); [|done]. cbn [negb].
  destruct (Z.ltb_spec (u32 (p_vaddr h + p_memsz h)) 0xc0000000); [|done]. cbn [negb].
  destruct (Z.ltb_spec (u32 (p_vaddr h + p_memsz h)) (p_vaddr h)) as [|W]; [done|].
  destruct (Z.ltb_spec (p_vaddr h) 4096); [done|]. intros _.
  assert (u32 (p_vaddr h + p_memsz h) = p_vaddr h + p_memsz h) as E.
  { destruct (decide (p_vaddr h + p_memsz h < 2 ^ 32)); [apply u32_small; lia|]. exfalso.
    unfold u32 in W. rewrite <- (Z.mod_unique (p_vaddr h + p_memsz h) (2 ^ 32) 1 (p_vaddr h + p_memsz h - 2 ^ 32)) in W; lia. }
  split; unfold PHYS_BASE; lia.
Qed.

Lemma segment_of_fits h len : phdr_ok h -> 0 <= len < 2 ^ 31 -> valid_phdr h len -> exists n, segment_fits h len n.
Proof.
  intros [H1 H2 H3 H4] Hl [V1 V2 V3 V4 V5 V6]. unfold PHYS_BASE in V5.
  pose proof (Z.mod_pos_bound (p_vaddr h) 4096 ltac:(lia)) as B.
  destruct (page_start (p_vaddr h)) as [A1 A2]. destruct (page_start (p_offset h)) as [A3 A4]. rewrite V1 in A3, A4.
  set (po := p_vaddr h mod 4096) in *.
  destruct (round_up_pages (po + p_memsz h)) as (n & RE & RB); [lia..|]. exists n.
  pose proof (Z.mod_le (p_offset h) 4096). pose proof (Z.mod_le (p_vaddr h) 4096). fold po in H0.
  assert (4096 <= p_vaddr h - po) as LO.
  { unfold po. clear -V6. Z.to_euclidean_division_equations. lia. }
  assert (p_vaddr h - po + 4096 * n <= 0xc0000000) as HI.
  { enough (4096 * n <= 0xc0000000 - (p_vaddr h - po)) by lia.
    apply (round_up_below (po + p_memsz h)); [done|lia|].
    rewrite Zminus_mod, A2. done. }
  assert (segment_of h = mk_segment (p_offset h - po) (p_vaddr h - po)
            (if 0 <? p_filesz h then po + p_filesz h else 0)
            (if 0 <? p_filesz h then 4096 * n - (po + p_filesz h) else 4096 * n)
            (negb (Z.land (p_flags h) PF_W =? 0))) as E.
  { unfold segment_of. change (u32 (Z.lnot PGMASK)) with 0xfffff000.
    rewrite !land_high_mask, A1, A3 by lia.
    change (Z.land (p_vaddr h) PGMASK) with (pg_ofs (p_vaddr h)). rewrite pg_ofs_mod. fold po.
    rewrite (u32_small (po + p_memsz h)), RE by lia. destruct (Z.ltb_spec 0 (p_filesz h)); [|done].
    rewrite (u32_small (po + p_filesz h)) by lia. by rewrite u32_small by lia. }
  rewrite V1 in H. split; rewrite ?E; cbn [sg_mem_page sg_file_page sg_read_bytes sg_zero_bytes];
    unfold PHYS_BASE; fold po; try lia; try done.
  - destruct (0 <? p_filesz h); lia.
  - destruct (Z.ltb_spec 0 (p_filesz h)); lia.
Qed.

Section Exec.
Context {D : Type} `{!block_device D} `{!block_device_laws D}.
Implicit Types s : ps D.

(** * Segments *)

Lemma load_segment_spec s pd c f h : ready s pd (f_inode f) c -> phdr_ok h ->
  validate_segment h (Z.of_nat (length c)) = true ->
  let g := segment_of h in
  exists s' f' ok new n, load_segment f (s32 (sg_file_page g)) (sg_mem_page g) (sg_read_bytes g)
      (sg_zero_bytes g) (sg_writable g) s = Ret ((f', ok), s') /\
    f_inode f' = f_inode f /\ 0 <= f_pos f' < 2 ^ 31 /\ loaded s s' pd new /\
    segment_fits h (Z.of_nat (length c)) n /\
    if (ok : bool)
    then segment_loaded s s' pd c (sg_file_page g) (sg_mem_page g) n (sg_read_bytes g) (sg_writable g) new
    else segment_refused s pd c (sg_file_page g) (sg_mem_page g) n (sg_read_bytes g).
Proof.
  intros R PH VS g. pose proof (proj1 (file_at_length _ _ _ (rd_file _ _ _ _ R))) as HL.
  apply validate_segment_spec in VS as VP; [|done|lia].
  destruct (segment_of_fits h (Z.of_nat (length c)) PH ltac:(lia) VP) as (n & F). pose proof F as FF. destruct F as [F1 F2 F3 F4 F5 F6 F7 F8 F9 F10 F11 F12].
  fold g in F2, F3, F4, F5, F6, F7, F8, F9, F10. destruct PH as [P1 P2 P3 P4].
  pose proof (Z.mod_pos_bound (p_vaddr h) 4096 ltac:(lia)) as B. destruct F7 as [A1 A2].
  assert (0 <= sg_read_bytes g) as F13 by (rewrite F8; destruct (0 <? p_filesz h); lia).
  rewrite (s32_small (sg_file_page g)) by lia. pose proof F4 as F4'. unfold PHYS_BASE in F4'.
  unfold load_segment. rewrite (u32_small (sg_read_bytes g + sg_zero_bytes g)) by lia. rewrite F9.
  change PGSIZE with 4096. rewrite (Z.mul_comm 4096 n), Z.mod_mul by lia. cbn [Z.eqb].
  rewrite pg_ofs_mod, A1. cbn [Z.eqb]. rewrite Z.rem_mod_nonneg, A2 by lia. cbn [Z.eqb].
  assert (forall r : outcome (file * bool * ps D), load_pages (load_fuel (sg_read_bytes g) (sg_zero_bytes g)) (at_pos f (sg_file_page g))
            (sg_mem_page g) (sg_read_bytes g) (sg_zero_bytes g) (sg_writable g) s = r ->
          (let! f := in_fs (file_seek f (sg_file_page g)) in
           load_pages (load_fuel (sg_read_bytes g) (sg_zero_bytes g)) f (sg_mem_page g) (sg_read_bytes g)
             (sg_zero_bytes g) (sg_writable g)) s = r) as SEEK.
  { intros r <-. unfold bind at 1, in_fs, file_seek. replace (0 <=? sg_file_page g) with true by lia.
    cbn [obind]. unfold ret. cbn [obind]. replace (with_fs s (p_fs s)) with s by (by destruct s). done. }
  destruct (load_pages_spec (Z.to_nat n) pd c (sg_writable g) (load_fuel (sg_read_bytes g) (sg_zero_bytes g)) s
              (at_pos f (sg_file_page g)) (sg_mem_page g) (sg_read_bytes g) (sg_zero_bytes g))
    as (s' & f' & ok & new & E & Ei & Hp & L & H); [done|cbn [at_pos f_pos]; lia|lia|done|done|done|lia|lia| |].
  { unfold load_fuel. rewrite F9. change PGSIZE with 4096. rewrite (Z.mul_comm 4096 n), Z.div_mul by lia. lia. }
  exists s', f', ok, new, n. rewrite Z2Nat.id in H by lia.
  split_and!; [by apply SEEK|done|lia|lia|done|exact FF|done].
Qed.

(** The segment of [h] in memory: its part of the file, then zeros, writable as the flags say. *)
Definition segment_in_memory (v : vm) (pd : Z) (c : list Z) (h : Elf32_Phdr) : Prop :=
  forall i, 0 <= i < p_memsz h ->
    user_byte v pd (p_vaddr h + i) = Some (if i <? p_filesz h then nth (Z.to_nat (p_offset h + i)) c 0 else 0) /\
    exists q, mapping v pd (p_vaddr h + i) = Some (q, negb (Z.land (p_flags h) PF_W =? 0)).

(** [loaded], with every page that was mapped still mapped to the same frame. *)
Record extended (s s' : ps D) (pd : Z) (new : list Z) : Prop := {
  xt_loaded : loaded s s' pd new;
  xt_mapped : forall va, 0 <= va -> is_user_vaddr va = true -> mapping (p_vm s) pd va <> None ->
    mapping (p_vm s') pd va = mapping (p_vm s) pd va
}.

Lemma extended_trans s1 s2 s3 pd new1 new2 : extended s1 s2 pd new1 -> extended s2 s3 pd new2 ->
  extended s1 s3 pd (new2 ++ new1).
Proof.
  intros [L1 M1] [L2 M2]. split; [by eapply loaded_trans|]. intros va H1 H2 H3.
  rewrite M2, M1 by (done || by rewrite M1). done.
Qed.

Lemma segment_extended s s' pd c pos u n rb w new : segment_loaded s s' pd c pos u n rb w new ->
  extended s s' pd new.
Proof.
  intros [L1 E1 B1 M1]. split; [done|]. intros va H1 H2 H3.
  destruct (decide (u <= va < u + 4096 * n)) as [Hi|]; [|by apply M1].
  destruct (B1 (va - u) ltac:(lia)) as [B2 _]. by replace (u + (va - u)) with va in B2 by lia.
Qed.

Lemma segment_stays s s' pd c h new : phdr_ok h -> valid_phdr h (Z.of_nat (length c)) ->
  pd_ok (p_vm s) pd -> extended s s' pd new ->
  segment_in_memory (p_vm s) pd c h -> segment_in_memory (p_vm s') pd c h.
Proof.
  intros [P1 P2 P3 P4] [V1 V2 V3 V4 V5 V6] OK [L M] S i Hi. destruct (S i Hi) as (B & q & Mq).
  assert (0 <= p_vaddr h + i) as H1 by lia.
  assert (is_user_vaddr (p_vaddr h + i) = true) as H2 by (unfold is_user_vaddr; lia).
  assert (mapping (p_vm s) pd (p_vaddr h + i) <> None) as H3 by (by rewrite Mq).
  pose proof (M _ H1 H2 H3) as ME. split; [|exists q; by rewrite ME].
  rewrite <- B. by apply (user_byte_grows (p_vm s) (p_vm s') pd new); [|apply L|..].
Qed.

Lemma segment_present s s' pd c h n new : phdr_ok h -> valid_phdr h (Z.of_nat (length c)) ->
  segment_fits h (Z.of_nat (length c)) n -> let g := segment_of h in
  segment_loaded s s' pd c (sg_file_page g) (sg_mem_page g) n (sg_read_bytes g) (sg_writable g) new ->
  segment_in_memory (p_vm s') pd c h /\ (p_filesz h = 0 \/ p_offset h + p_filesz h <= Z.of_nat (length c)).
Proof.
  intros [P1 P2 P3 P4] [V1 V2 V3 V4 V5 V6] [F1 F2 F3 F4 F5 F6 F7 F8 F9 F10 F11 F12] g [L1 E1 B1 M1].
  fold g in F2, F3, F4, F5, F6, F7, F8, F9, F10. pose proof (Z.mod_pos_bound (p_vaddr h) 4096 ltac:(lia)) as B.
  pose proof (Z.mod_le (p_offset h) 4096 ltac:(lia) ltac:(lia)) as Bo. rewrite V1 in Bo.
  set (po := p_vaddr h mod 4096) in *. split.
  - intros i Hi. destruct (B1 (po + i) ltac:(lia)) as (_ & (q & Mq) & Bq).
    replace (sg_mem_page g + (po + i)) with (p_vaddr h + i) in * by lia. split.
    + rewrite Bq. f_equal. unfold page_byte. rewrite F8.
      destruct (Z.ltb_spec 0 (p_filesz h)).
      * destruct (Z.ltb_spec (po + i) (po + p_filesz h)), (Z.ltb_spec i (p_filesz h)); try lia.
        f_equal. lia.
      * destruct (Z.ltb_spec (po + i) 0), (Z.ltb_spec i (p_filesz h)); (done || lia).
    + exists q. rewrite Mq. do 2 f_equal. unfold g, segment_of. by destruct (0 <? p_filesz h).
  - rewrite F8 in E1. destruct (Z.ltb_spec 0 (p_filesz h)); lia.
Qed.

(** * The loop over the program headers *)

Lemma in_fs_Ret {A} (m : ST (fs_state D) A) s a f : m (p_fs s) = Ret (a, f) -> in_fs m s = Ret (a, with_fs s f).
Proof. intros E. unfold in_fs. by rewrite E. Qed.

Lemma loaded_fs s fs' pd ino c : ready s pd ino c -> calm (p_fs s) fs' -> loaded s (with_fs s fs') pd [].
Proof. intros R C. split; [apply space_grows_refl; apply R|done|by destruct s]. Qed.

Lemma take_drop_bytes (c : list Z) n p : is_bytes c -> is_bytes (take n (drop p c)).
Proof. intros H. by apply Forall_take, Forall_drop. Qed.

Definition phdr_at (c : list Z) (ofs : Z) : Elf32_Phdr :=
  decode_Phdr (take (Z.to_nat sizeof_Phdr) (drop (Z.to_nat ofs) c)).

(** The program header at [ofs] is in the file and acceptable, and its segment, if it has one, in memory. *)
Record header_loaded (v : vm) (pd : Z) (c : list Z) (ofs : Z) : Prop := {
  hl_in_file : 0 <= ofs /\ ofs + sizeof_Phdr <= Z.of_nat (length c);
  hl_type : p_type (phdr_at c ofs) ∉ [PT_DYNAMIC; PT_INTERP; PT_SHLIB];
  hl_load : p_type (phdr_at c ofs) = PT_LOAD ->
    validate_segment (phdr_at c ofs) (Z.of_nat (length c)) = true /\
    segment_in_memory v pd c (phdr_at c ofs) /\
    (p_filesz (phdr_at c ofs) = 0 \/
     p_offset (phdr_at c ofs) + p_filesz (phdr_at c ofs) <= Z.of_nat (length c))
}.

Lemma phdr_at_ok c ofs : is_bytes c -> phdr_ok (phdr_at c ofs).
Proof. intros H. by apply decode_Phdr_ok, take_drop_bytes. Qed.

Lemma header_stays s s' pd ino c ofs new : ready s pd ino c -> extended s s' pd new ->
  header_loaded (p_vm s) pd c ofs -> header_loaded (p_vm s') pd c ofs.
Proof.
  intros R X [H1 H2 H3]. destruct (file_at_length _ _ _ (rd_file _ _ _ _ R)) as [HL HB].
  split; [done|done|]. intros T. destruct (H3 T) as (V & S & E). split; [done|]. split; [|done].
  eapply segment_stays; [by apply phdr_at_ok| |apply R|exact X|exact S].
  apply validate_segment_spec; [by apply phdr_at_ok|lia|done].
Qed.

Lemma extended_refl s pd ino c : ready s pd ino c -> extended s s pd [].
Proof. intros R. split; [by eapply loaded_refl|done]. Qed.

(** What the loop promises, from header [ofs] on. *)
Definition headers_outcome (n : nat) (pd : Z) (c : list Z) (ofs : Z) (f : file) (s : ps D)
    (r : outcome (file * bool * ps D)) : Prop :=
  exists s' f' ok new, r = Ret ((f', ok), s') /\ f_inode f' = f_inode f /\ 0 <= f_pos f' < 2 ^ 31 /\
    loaded s s' pd new /\
    if (ok : bool)
    then extended s s' pd new /\
         forall k, 0 <= k < Z.of_nat n -> header_loaded (p_vm s') pd c (ofs + sizeof_Phdr * k)
    else True.

Lemma headers_stop n pd c ofs f f1 s s1 new : loaded s s1 pd new -> f_inode f1 = f_inode f ->
  0 <= f_pos f1 < 2 ^ 31 -> headers_outcome n pd c ofs f s (ret (f1, false) s1).
Proof. intros. exists s1, f1, false, new. split_and!; (done || lia). Qed.

Lemma headers_cons n pd c ofs f f1 s s1 new r : ready s1 pd (f_inode f) c ->
  extended s s1 pd new -> f_inode f1 = f_inode f ->
  header_loaded (p_vm s1) pd c ofs ->
  headers_outcome n pd c (ofs + sizeof_Phdr) f1 s1 r -> headers_outcome (S n) pd c ofs f s r.
Proof.
  intros R X Ef H (s' & f' & ok & new' & E & Ei & Hp & L & O). exists s', f', ok, (new' ++ new).
  split; [done|]. split; [by rewrite Ei|]. split; [done|]. split; [eapply loaded_trans; [apply X|done]|].
  destruct ok; [|done]. destruct O as [X' O]. split; [by eapply extended_trans|]. intros k Hk.
  destruct (decide (k = 0)) as [->|].
  - rewrite Z.mul_0_r, Z.add_0_r. by eapply header_stays.
  - replace (ofs + sizeof_Phdr * k) with (ofs + sizeof_Phdr + sizeof_Phdr * (k - 1)) by lia.
    apply O. lia.
Qed.

Lemma load_headers_spec n pd c : forall s f ofs, ready s pd (f_inode f) c -> 0 <= f_pos f < 2 ^ 31 ->
  headers_outcome n pd c ofs f s (load_headers n f ofs s).
Proof.
  induction n as [|n IH]; intros s f ofs R Hp.
  { exists s, f, true, []. split_and!; [done|done|lia|lia|by eapply loaded_refl|by eapply extended_refl|lia]. }
  destruct (file_at_length _ _ _ (rd_file _ _ _ _ R)) as [HL HB].
  assert (forall f', f_inode f' = f_inode f -> forall s, file_at (p_fs s) (f_inode f) c ->
            in_fs (file_length f') s = Ret (Z.of_nat (length c), s)) as LEN.
  { intros f' Ef s1 FA. rewrite <- Ef in FA. rewrite (in_fs_Ret _ _ _ _ (file_length_Ret (p_fs s1) f' c FA)).
    by destruct s1. }
  cbn [load_headers]. unfold bind at 1. rewrite LEN by (done || apply R). cbn [obind].
  destruct ((ofs <? 0) || (Z.of_nat (length c) <? ofs)) eqn:EO.
  { eapply headers_stop; [by eapply loaded_refl|done|done]. }
  unfold bind at 1, in_fs at 1, file_seek. replace (0 <=? ofs) with true by lia. unfold ret at 1. cbn [obind].
  replace (with_fs s (p_fs s)) with s by (by destruct s).
  destruct (file_read_Ret (p_fs s) (at_pos f ofs) c sizeof_Phdr (rd_file _ _ _ _ R)) as (fs1 & ER & C1 & PB);
    [cbn [at_pos f_pos]; lia|done|]. cbv zeta in ER.
  change (mk_file (f_inode f) ofs (f_deny_write f)) with (at_pos f ofs).
  unfold bind at 1. rewrite (in_fs_Ret _ _ _ _ ER). cbn [obind].
  set (bytes := take _ (drop _ c)) in *. change (f_pos (at_pos f ofs)) with ofs in *.
  change (at_pos (at_pos f ofs) (ofs + Z.of_nat (length bytes))) with (at_pos f (ofs + Z.of_nat (length bytes))).
  pose proof (loaded_fs s fs1 pd _ c R C1) as L1. pose proof (ready_loaded _ _ _ _ _ _ R L1) as R1.
  set (f1 := at_pos f (ofs + Z.of_nat (length bytes))) in *. set (s1 := with_fs s fs1) in *.
  assert (extended s s1 pd []) as X1 by (by split).
  assert (0 <= f_pos f1 < 2 ^ 31) as Hp1 by (cbn [f1 at_pos f_pos]; lia).
  assert (headers_outcome (S n) pd c ofs f s (ret (f1, false) s1)) as STOP by (by eapply headers_stop).
  destruct (Z.eqb_spec (Z.of_nat (length bytes)) sizeof_Phdr) as [LB|LB]; cbn [negb]; [|exact STOP].
  assert (ofs + sizeof_Phdr <= Z.of_nat (length c)) as HO.
  { unfold bytes in LB. rewrite length_take, length_drop in LB. unfold sizeof_Phdr in *. lia. }
  rewrite int_Ret by (unfold sizeof_Phdr in *; lia). rewrite bind_lift_Ret.
  change (decode_Phdr bytes) with (phdr_at c ofs). pose proof (phdr_at_ok c ofs HB) as PO.
  destruct (_ || _ || _) eqn:T; [exact STOP|].
  assert (p_type (phdr_at c ofs) ∉ [PT_DYNAMIC; PT_INTERP; PT_SHLIB]) as NT.
  { rewrite !not_elem_of_cons. split_and!; [lia..|apply not_elem_of_nil]. }
  destruct (Z.eqb_spec (p_type (phdr_at c ofs)) PT_LOAD) as [TL|TL].
  2:{ eapply headers_cons; [exact R1|exact X1|done| |exact (IH s1 f1 _ R1 Hp1)]. split; [lia|done|done]. }
  unfold bind at 1. rewrite LEN by (done || apply R1). cbn [obind].
  destruct (validate_segment (phdr_at c ofs) (Z.of_nat (length c))) eqn:VS; [|exact STOP].
  destruct (load_segment_spec s1 pd c f1 (phdr_at c ofs) R1 PO VS) as (s2 & f2 & ok & new & k & E & Ei & Hp2 & L2 & SF & H2).
  unfold bind at 1. rewrite E. cbn [obind].
  destruct ok; cbn [negb]; [|eapply headers_stop; [exact (loaded_trans _ _ _ _ _ _ L1 L2)|done|done]].
  pose proof (validate_segment_spec _ (Z.of_nat (length c)) PO ltac:(lia) VS) as VP.
  destruct (segment_present s1 s2 pd c _ k new PO VP SF H2) as [SM SE].
  pose proof (extended_trans _ _ _ _ _ _ X1 (segment_extended _ _ _ _ _ _ _ _ _ _ H2)) as X2.
  assert (ready s2 pd (f_inode f2) c) as R2 by (rewrite Ei; by eapply ready_loaded).
  eapply headers_cons; [|exact X2|exact Ei| |exact (IH s2 f2 _ R2 Hp2)].
  - by rewrite Ei in R2.
  - split; [lia|done|done].
Qed.

(** * The stack *)

(** The top page of user memory is a writable page of zeros. *)
Definition stack_in_memory (v : vm) (pd : Z) : Prop :=
  forall i, 0 <= i < 4096 -> user_byte v pd (PHYS_BASE - PGSIZE + i) = Some 0 /\
    exists q, mapping v pd (PHYS_BASE - PGSIZE + i) = Some (q, true).

Lemma setup_stack_spec s pd ino c : ready s pd ino c -> exists s' r new, setup_stack s = Ret (r, s') /\
  loaded s s' pd new /\
  match r with
  | Some esp => esp = PHYS_BASE - 20 /\ extended s s' pd new /\ stack_in_memory (p_vm s') pd
  | None => mapping (p_vm s) pd (PHYS_BASE - PGSIZE) <> None \/ no_page_left (p_vm s)
  end.
Proof.
  intros R. pose proof (rd_vm _ _ _ _ R) as V.
  remember (setup_stack s) as r eqn:Er. unfold setup_stack, bind at 1, in_vm at 1 in Er.
  destruct (get_page_spec (p_vm s) (Z.lor PAL_USER PAL_ZERO) V) as [(v1 & q & E & N & G & M)|[X E]];
    rewrite E in Er; cbn [obind] in Er.
  2:{ change (has_flag _ PAL_ASSERT) with false in Er. cbn [obind negb Z.eqb NULL] in Er.
      replace (with_vm s (p_vm s)) with s in Er by (by destruct s).
      exists s, None, []. split; [exact Er|]. split; [by eapply loaded_refl|]. right. by left. }
  change (has_flag _ PAL_ZERO) with true in M. rewrite (proj2 (Z.eqb_neq q NULL) N) in Er. cbn [negb] in Er.
  assert (forall q', live_page (p_vm s) q' -> same_page (mem (pages (p_vm s))) (mem (pages v1)) q') as HM1.
  { intros q' [Lm Lu]. rewrite M. apply same_page_memset; [apply (gp_live _ _ _ G)|done|].
    intros ->. by rewrite (gp_new _ _ _ G) in Lu. }
  assert (with_vm s v1 = with_fs (with_vm s (change_mem v1 (mem (pages v1)))) (p_fs s)) as EV.
  { destruct v1 as [[]]. reflexivity. }
  rewrite EV in Er. unfold bind at 1 in Er.
  pose proof (calm_refl (p_fs s) (fa_ok _ _ _ (rd_file _ _ _ _ R)) (fa_mallocs _ _ _ (rd_file _ _ _ _ R))) as CF.
  set (u := PHYS_BASE - PGSIZE) in *.
  destruct (install_filled s pd q ino c v1 (mem (pages v1)) (p_fs s) R G HM1 ltac:(done) u true)
    as [(v3 & new & EI & MN & SG & MP & SP)|[EI WHY]]; [done|done|done| |]; rewrite EI in Er; cbn [obind] in Er.
  - eexists _, _, new. split; [exact Er|]. pose proof (loaded_filled s pd v1 (mem (pages v1)) (p_fs s) CF v3 new SG) as L.
    split; [done|]. split; [done|]. change (p_vm (with_vm _ v3)) with v3. split.
    + split; [done|]. change (p_vm (with_vm _ v3)) with v3. intros va H1 H2 H3. rewrite MP by done. case_decide as Hd; [|done]. exfalso.
      apply H3. rewrite mapping_pte. rewrite mapping_pte in MN. unfold pte in *.
      by destruct (proj2 (same_vpage va u) Hd) as [-> ->].
    + unfold stack_in_memory. fold u. intros i Hi. assert (u mod 4096 = 0) as Ha by done.
      assert (mapping v3 pd (u + i) = Some (q, true)) as ME.
      { rewrite MP; [|unfold u, PHYS_BASE; change PGSIZE with 4096; lia|
          unfold is_user_vaddr, u, PHYS_BASE; change PGSIZE with 4096; lia].
        apply decide_True. apply pg_no_same; [done|lia]. }
      split; [|by exists q]. unfold user_byte. rewrite ME. f_equal.
      rewrite pg_ofs_mod, (proj2 (aligned_offset u i Ha Hi)), SP, M by lia.
      by rewrite memset_inside by lia.
  - destruct (free_filled s pd q ino c v1 (mem (pages v1)) (p_fs s) R G HM1 ltac:(done)) as (v3 & EF & SG & MM).
    unfold bind at 1 in Er. rewrite EF in Er. cbn [obind] in Er. eexists _, _, []. split; [exact Er|].
    split; [by apply (loaded_filled s pd v1 (mem (pages v1)) (p_fs s))|].
    destruct WHY as [|WHY]; [by left|right; right]. by exists v1, q.
Qed.
End Exec.
