(* ===== verification/ExecProps.v ===== *)
(** What [load] promises of an executable, on a small one; and what the kernel does with a process
    that it could not load or that hands it a bad stack pointer. *)
From S2P Require Import Prelude KStdlib Bitmap Vaddr Palloc Pagedir PagedirFacts PagedirProps AddressSpaces AddressProps.
From S2P Require Import Endian Block Fs InodeFacts DirFacts Process LoadFacts LoadProps Executables.

Section ExecProps.
Context {D : Type} `{!block_device D} `{!block_device_laws D}.
Implicit Types s : ps D.

Definition ehdr_at_start (c : list Z) : Elf32_Ehdr := decode_Ehdr (take (Z.to_nat sizeof_Ehdr) c).
Definition ehdr_ok (c : list Z) : bool := (sizeof_Ehdr <=? Z.of_nat (length c)) && header_ok (ehdr_at_start c).

Lemma load_file_Ret s pd (f : file) (c name : list Z) (R : ready s pd (f_inode f) c)
    (Hp : f_pos f = 0) :
  exists s' f' r new, load_file name f s = Ret ((f', r), s') /\
    p_console s' = (if ehdr_ok c then p_console s else MsgLoadError name :: p_console s) /\
    s' = with_console (with_fs (with_vm s (p_vm s')) (p_fs s')) (p_console s') /\
    calm (p_fs s) (p_fs s') /\
    space_grows (p_vm s) (p_vm s') pd new /\
    match r with
    | Some (eip, esp) =>
        ehdr_ok c = true /\ eip = e_entry (ehdr_at_start c) /\ esp = PHYS_BASE - 20 /\
        stack_in_memory (p_vm s') pd /\
        forall k, 0 <= k < e_phnum (ehdr_at_start c) ->
          header_loaded (p_vm s') pd c (s32 (e_phoff (ehdr_at_start c)) + sizeof_Phdr * k)
    | None => True
    end.
Proof.
  destruct (file_at_length _ _ _ (rd_file _ _ _ _ R)) as [HL HB].
  destruct (file_read_Ret (p_fs s) f c sizeof_Ehdr (rd_file _ _ _ _ R)) as (fs1 & ER & C1 & PB); [lia|done|].
  cbv zeta in ER. rewrite Hp in ER, PB. rewrite drop_0 in ER, PB.
  unfold load_file, bind at 1. rewrite (in_fs_Ret _ _ _ _ ER). cbn [obind].
  set (bytes := take (Z.to_nat sizeof_Ehdr) c) in *. change (decode_Ehdr bytes) with (ehdr_at_start c).
  pose proof (loaded_fs s fs1 pd _ c R C1) as L1. pose proof (ready_loaded _ _ _ _ _ _ R L1) as R1.
  assert (negb (Z.of_nat (length bytes) =? sizeof_Ehdr) || negb (header_ok (ehdr_at_start c)) = negb (ehdr_ok c)) as ->.
  { unfold ehdr_ok. rewrite negb_andb. f_equal. unfold bytes. rewrite length_take.
    destruct (Z.leb_spec sizeof_Ehdr (Z.of_nat (length c))) as [H|H]; cbn [negb]; unfold sizeof_Ehdr in *; lia. }
  destruct (ehdr_ok c) eqn:EO; cbn [negb].
  2:{ eexists _, _, None, []. split; [reflexivity|]. split; [done|]. split; [by destruct s|]. split; [done|]. split; [apply L1|done]. }
  set (f1 := at_pos f (0 + Z.of_nat (length bytes))).
  destruct (load_headers_spec (Z.to_nat (e_phnum (ehdr_at_start c))) pd c (with_fs s fs1) f1 (s32 (e_phoff (ehdr_at_start c))) R1)
    as (s2 & f2 & ok & new & E2 & Ei & Hp2 & L2 & H2); [cbn [f1 at_pos f_pos]; lia|].
  unfold bind at 1. change (mk_file (f_inode f) _ _) with f1. rewrite E2. cbn [obind].
  pose proof (loaded_trans _ _ _ _ _ _ L1 L2) as L12. rewrite app_nil_r in L12.
  destruct ok; cbn [negb].
  2:{ exists s2, f2, None, new. split; [done|]. rewrite (ld_rest _ _ _ _ L12). split_and!; try done; by apply L12. }
  destruct H2 as [X2 H2]. assert (ready s2 pd (f_inode f) c) as R2 by (by eapply ready_loaded).
  destruct (setup_stack_spec s2 pd _ c R2) as (s3 & r & new3 & E3 & L3 & H3).
  unfold bind at 1. rewrite E3. cbn [obind]. pose proof (loaded_trans _ _ _ _ _ _ L12 L3) as L13.
  destruct r as [esp|].
  - exists s3, f2, (Some (e_entry (ehdr_at_start c), esp)), (new3 ++ new). destruct H3 as (-> & X3 & ST).
    split; [done|]. split; [by rewrite (ld_rest _ _ _ _ L13)|]. split; [by rewrite (ld_rest _ _ _ _ L13)|].
    split; [apply L13|]. split; [apply L13|]. split_and!; try done. intros k Hk.
    eapply header_stays; [exact R2|exact X3|]. apply H2. lia.
  - exists s3, f2, None, (new3 ++ new). rewrite (ld_rest _ _ _ _ L13). split_and!; try done; by apply L13.
Qed.

(** C8. [load], from the opened file on, answers on every file whatever its contents, and leaves the
    address space well formed: the pages it takes are exactly the ones the directory has gained.  It
    prints an error when the ELF header is bad.  When it succeeds the header was good, every program
    header was complete and acceptable, every loadable segment is in memory byte for byte as the file
    and its header say, writable or not as its flags say, the stack page is mapped and zero, and the
    entry point and the stack pointer are the ones returned. *)
Theorem load_file_correct s pd (f : file) (c name : list Z) (R : ready s pd (f_inode f) c)
    (Hp : f_pos f = 0) :
  exists s' f' r new, load_file name f s = Ret ((f', r), s') /\
    p_console s' = (if ehdr_ok c then p_console s else MsgLoadError name :: p_console s) /\
    s' = with_console (with_fs (with_vm s (p_vm s')) (p_fs s')) (p_console s') /\
    calm (p_fs s) (p_fs s') /\
    space_grows (p_vm s) (p_vm s') pd new /\
    match r with
    | Some (eip, esp) =>
        ehdr_ok c = true /\ eip = e_entry (ehdr_at_start c) /\ esp = PHYS_BASE - 20 /\
        stack_in_memory (p_vm s') pd /\
        forall k, 0 <= k < e_phnum (ehdr_at_start c) ->
          header_loaded (p_vm s') pd c (s32 (e_phoff (ehdr_at_start c)) + sizeof_Phdr * k)
    | None => True
    end.
Proof. exact (load_file_Ret s pd f c name R Hp). Qed.

(** * Leaving *)

(** The end of a process: its directory and everything in it are free again, the kernel's directory is
    active, and nothing else in memory has changed. *)
Record exited (s s' : ps D) (pd : Z) : Prop := {
  ext_ok : vm_ok (p_vm s');
  ext_used : forall q, q mod 4096 = 0 ->
    page_used (pages (p_vm s')) q = page_used (pages (p_vm s)) q && negb (bool_decide (q ∈ pd_pages (p_vm s) pd));
  ext_same : forall q, live_page (p_vm s) q -> q ∉ pd_pages (p_vm s) pd ->
    same_page (mem (pages (p_vm s))) (mem (pages (p_vm s'))) q;
  ext_active : active (p_vm s') (init_page_dir (p_vm s)) /\ init_page_dir (p_vm s') = init_page_dir (p_vm s);
  ext_rest : s' = with_temporary (with_pcb (with_vm s (p_vm s')) None) (temporary s + 1)
}.

Lemma process_exit_spec s pd p : vm_ok (p_vm s) -> pd_ok (p_vm s) pd -> kernel_page (init_page_dir (p_vm s)) ->
  pd <> init_page_dir (p_vm s) -> pcb s = Some p -> pagedir p = pd ->
  exists s', process_exit s = Ret (tt, s') /\ exited s s' pd.
Proof.
  intros V OK K N Hp Hd. unfold process_exit, bind at 1, gets. cbn [obind]. rewrite Hp, Hd.
  rewrite (proj2 (Z.eqb_neq pd NULL) (pd_not_null _ _ V OK)). cbn [negb].
  set (v1 := mk_vm (pages (p_vm s)) (init_page_dir (p_vm s) - PHYS_BASE) ∅ (init_page_dir (p_vm s)) (init_ram_pages (p_vm s))).
  destruct (same_pages_view (p_vm s) v1 pd eq_refl) as (PP & _ & _).
  assert (vm_ok v1) as V1 by (destruct V; by split).
  assert (pd_ok v1 pd) as OK1.
  { apply (pd_ok_frame (p_vm s)); [exact OK|intros q _ x _; reflexivity|].
    intros q Hq. pose proof (pd_live _ _ OK) as L. rewrite Forall_forall in L. exact (L q Hq). }
  destruct (pagedir_destroy_spec v1 pd V1 OK1 N) as (v2 & ED & [F1 (C1 & _ & C3 & _) F3 F4]). rewrite PP in F3, F4.
  exists (with_temporary (with_pcb (with_vm s v2) None) (temporary s + 1)). split.
  - unfold bind, modify, in_vm. cbn [obind p_vm with_pcb]. rewrite (pagedir_activate_null _ K). cbn [obind].
    fold v1. change (p_vm (with_vm _ v1)) with v1. rewrite ED. reflexivity.
  - split; [exact F1|exact F3|exact F4| |reflexivity]. split; [|exact C3]. split; [exact K|exact C1].
Qed.

(** C20. A process takes no page with it: of the pages in use after [pagedir_create] and [load] (from the
    opened file on, whether it succeeded or gave up half way through a segment), [process_exit] frees
    exactly those that creating and loading took, so that the allocator is back where it was, the pages
    it had are unchanged, and the kernel's own page directory is active. *)
Theorem process_life_no_leak (s s1 : ps D) (pds : list Z) (pd : Z) (f : file) (c name : list Z) (p : process)
    (SO : spaces_ok (p_vm s) pds)
    (Hcreate : pagedir_create (p_vm s) = Ret (pd, p_vm s1)) (Hnull : pd <> NULL)
    (Hpcb : pcb s1 = Some p) (Hpd : pagedir p = pd)
    (FA : file_at (p_fs s1) (f_inode f) c) (Hp : f_pos f = 0) :
  exists s2 s3 f' r, load_file name f s1 = Ret ((f', r), s2) /\ process_exit s2 = Ret (tt, s3) /\
    (forall q, q mod 4096 = 0 -> page_used (pages (p_vm s3)) q = page_used (pages (p_vm s)) q) /\
    (forall q, live_page (p_vm s) q -> same_page (mem (pages (p_vm s))) (mem (pages (p_vm s3))) q) /\
    vm_ok (p_vm s3) /\ active (p_vm s3) (init_page_dir (p_vm s)) /\ pcb s3 = None /\
    temporary s3 = temporary s1 + 1.
Proof.
  destruct (pagedir_create_spec (p_vm s) pds SO) as [(v & pd' & E & _ & _ & N & G & SO1 & PP & _)|[_ E]];
    rewrite E in Hcreate; [injection Hcreate as -> ->|injection Hcreate as <- _; by destruct Hnull].
  assert (ready s1 pd (f_inode f) c) as R.
  { split; [apply SO1|apply (so_pds _ _ SO1); by left| |by exists p|done].
    pose proof (gr_cpu _ _ _ _ G) as C. by rewrite (proj1 (proj2 (proj2 C))). }
  destruct (load_file_Ret s1 pd f c name R Hp) as (s2 & f' & r & new & EL & _ & ER & _ & SG & _). pose proof R as [_ _ N1 _ _].
  assert (init_page_dir (p_vm s1) = init_page_dir (p_vm s)) as EI by apply G.
  assert (init_page_dir (p_vm s2) = init_page_dir (p_vm s1)) as EI2 by apply SG.
  assert (kernel_page (init_page_dir (p_vm s))) as K.
  { apply (live_kernel_page (p_vm s)); [apply SO|]. apply (owned_live (p_vm s) pds); [done|].
    apply owned_kernel. by left. }
  destruct (process_exit_spec s2 pd p) as (s3 & EX & [X1 X2 X3 X4 X5]);
    [by eapply sg_ok|apply SG|by rewrite EI2, EI|by rewrite EI2|by rewrite ER|done|].
  exists s2, s3, f', r. split; [done|]. split; [done|]. rewrite EI2, EI in X4.
  assert (forall q, live_page (p_vm s) q -> q <> pd /\ q ∉ new) as FRESH.
  { intros q [Hm Hu]. pose proof (gr_new _ _ _ _ G) as F. rewrite Forall_cons in F. destruct F as [F _].
    assert (q <> pd) as Nq by (intros ->; congruence). split; [done|]. intros Hq.
    pose proof (gr_new _ _ _ _ (sg_grown _ _ _ _ SG)) as F2. rewrite Forall_forall in F2. specialize (F2 q Hq).
    rewrite (gr_used _ _ _ _ G), Hu, orb_true_r in F2 by done. done. }
  assert (forall q, q ∈ pd_pages (p_vm s2) pd <-> q = pd \/ q ∈ new) as IN.
  { intros q. rewrite (sg_pages _ _ _ _ SG), PP, elem_of_app, list_elem_of_singleton. tauto. }
  split; [|split; [|split; [done|split; [apply X4|by rewrite X5, ER]]]].
  - intros q Hq. rewrite X2 by done. rewrite (gr_used _ _ _ _ (sg_grown _ _ _ _ SG)), (gr_used _ _ _ _ G) by done.
    destruct (decide (q = pd \/ q ∈ new)) as [Hn|Hn].
    + rewrite (bool_decide_true (q ∈ pd_pages _ _)) by (by apply IN). rewrite andb_false_r.
      destruct (page_used (pages (p_vm s)) q) eqn:U; [|done]. exfalso. destruct (FRESH q (conj Hq U)). tauto.
    + rewrite (bool_decide_false (q ∈ pd_pages _ _)) by (by rewrite IN). rewrite andb_true_r.
      rewrite bool_decide_false, (bool_decide_false (q ∈ [pd])); [done| |tauto].
      intros Hq'%list_elem_of_singleton. tauto.
  - intros q Lq. destruct (FRESH q Lq) as [N2 N3].
    destruct (gr_keeps _ _ _ _ G q Lq (fun H => H)) as [L1 S1].
    assert (~ node (p_vm s1) pd q) as NN.
    { intros Hn. apply node_in_pages in Hn. rewrite PP in Hn. apply list_elem_of_singleton in Hn. done. }
    destruct (gr_keeps _ _ _ _ (sg_grown _ _ _ _ SG) q L1 NN) as [L2 S2].
    eapply same_page_trans; [exact S1|]. eapply same_page_trans; [exact S2|]. apply X3; [exact L2|].
    rewrite IN. tauto.
Qed.

(** * System calls *)

(** The word a user program sees at an address, when all of it is mapped. *)
Definition user_word (v : vm) (pd va : Z) : option Z :=
  match user_byte v pd va, user_byte v pd (va + 1), user_byte v pd (va + 2), user_byte v pd (va + 3) with
  | Some b0, Some b1, Some b2, Some b3 => Some (u32 (b0 + 256 * b1 + 65536 * b2 + 16777216 * b3))
  | _, _, _, _ => None
  end.

(** A user process runs in the directory [pd]. *)
Record in_process (s : ps D) (pd : Z) (p : process) : Prop := {
  ip_ok : vm_ok (p_vm s);
  ip_pd : pd_ok (p_vm s) pd;
  ip_own : pd <> init_page_dir (p_vm s);
  ip_kernel : kernel_page (init_page_dir (p_vm s));
  ip_active : active (p_vm s) pd;
  ip_pcb : pcb s = Some p /\ pagedir p = pd
}.

Lemma kernel_read_user s pd p va : in_process s pd p -> 0 <= va -> is_user_vaddr va = true ->
  kernel_read va s = match user_byte (p_vm s) pd va with Some b => Ret (b, s) | None => Panic end.
Proof.
  intros [V OK N K A [P1 P2]] H1 H2. unfold kernel_read, bind at 1, in_vm at 1. rewrite (active_pd_spec _ _ A). cbn [obind].
  replace (with_vm s (p_vm s)) with s by (by destruct s). unfold bind at 1, in_vm at 1. rewrite H2.
  rewrite (pagedir_get_page_spec _ pd V OK va H1 H2). cbn [obind].
  replace (with_vm s (p_vm s)) with s by (by destruct s). unfold user_byte.
  destruct (mapping (p_vm s) pd va) as [[page w]|] eqn:M.
  - destruct (frame_apart (p_vm s) pd va page w OK H1 H2 M) as (_ & L & _).
    pose proof (live_kernel_page _ _ V L) as [[KP _] _]. unfold PHYS_BASE in KP. rewrite pg_ofs_mod.
    pose proof (Z.mod_pos_bound va 4096 ltac:(lia)). rewrite (proj2 (Z.eqb_neq _ NULL)) by (unfold NULL; lia). done.
  - cbn [Z.eqb NULL]. reflexivity.
Qed.

Lemma kernel_read_word_user s pd p va w : in_process s pd p -> 0 <= va -> va + 4 <= PHYS_BASE ->
  user_word (p_vm s) pd va = Some w -> kernel_read_word va s = Ret (w, s).
Proof.
  intros P H1 H2. unfold user_word. unfold PHYS_BASE in H2.
  assert (forall k, 0 <= k < 4 -> is_user_vaddr (va + k) = true) as US by (intros k Hk; unfold is_user_vaddr, PHYS_BASE; lia).
  destruct (user_byte _ _ va) as [b0|] eqn:B0; [|done]. destruct (user_byte _ _ (va + 1)) as [b1|] eqn:B1; [|done].
  destruct (user_byte _ _ (va + 2)) as [b2|] eqn:B2; [|done]. destruct (user_byte _ _ (va + 3)) as [b3|] eqn:B3; [|done].
  intros [= <-]. unfold kernel_read_word. rewrite !u32_small by lia. unfold bind.
  pose proof (US 0 ltac:(lia)) as U0. rewrite Z.add_0_r in U0.
  rewrite (kernel_read_user s pd p va P), B0 by done. cbn [obind].
  rewrite (kernel_read_user s pd p (va + 1) P), B1 by (lia || apply US; lia). cbn [obind].
  rewrite (kernel_read_user s pd p (va + 2) P), B2 by (lia || apply US; lia). cbn [obind].
  rewrite (kernel_read_user s pd p (va + 3) P), B3 by (lia || apply US; lia). done.
Qed.

(** C36. The system call handler, entered with a user stack pointer: if the word there is the exit call's
    number, the exit status that follows is printed under the process's name and returned, and the process
    is gone with all its pages; any other number is ignored; and a stack pointer that is not mapped
    panics the kernel. *)
Theorem syscall_handler_correct (s : ps D) (pd esp : Z) (p : process) (P : in_process s pd p)
    (H1 : 0 <= esp) (H2 : esp + 8 <= PHYS_BASE) :
  match user_word (p_vm s) pd esp with
  | Some nr =>
      if nr =? SYS_EXIT then
        forall status, user_word (p_vm s) pd (esp + 4) = Some status ->
          exists s', syscall_handler esp s = Ret (Some status, s') /\
            exited (with_console s (MsgExit (process_name p) (s32 status) :: p_console s)) s' pd
      else syscall_handler esp s = Ret (None, s)
  | None => user_byte (p_vm s) pd esp = None -> syscall_handler esp s = Panic
  end.
Proof.
  assert (is_user_vaddr esp = true) as U by (unfold is_user_vaddr, PHYS_BASE in *; lia).
  assert (u32 esp = esp) as EU by (unfold PHYS_BASE in H2; apply u32_small; lia).
  destruct (user_word (p_vm s) pd esp) as [nr|] eqn:W.
  - assert (forall r, (if nr =? SYS_EXIT then
              let! status := kernel_read_word (esp + 4) in
              let! p := cur_pcb in
              let! _ := print (MsgExit (process_name p) (s32 status)) in
              let! _ := process_exit in ret (Some status)
            else ret None) s = r -> syscall_handler esp s = r) as ENTER.
    { intros r <-. unfold syscall_handler, bind at 1.
      by rewrite (kernel_read_word_user s pd p esp nr P) by (done || lia). }
    destruct (nr =? SYS_EXIT); [|by apply ENTER]. intros status WS. unfold bind at 1 in ENTER.
    rewrite (kernel_read_word_user s pd p (esp + 4) status P) in ENTER by (done || lia). cbn [obind] in ENTER.
    pose proof P as [V OK N K A [P1 P2]]. unfold cur_pcb, bind at 1 2, gets, lift in ENTER. cbn [obind] in ENTER.
    rewrite P1 in ENTER. cbn [deref obind] in ENTER. unfold bind at 1, print, modify in ENTER. cbn [obind] in ENTER.
    destruct (process_exit_spec (with_console s (MsgExit (process_name p) (s32 status) :: p_console s)) pd p V OK K N P1 P2)
      as (s' & E & X).
    exists s'. split; [|done]. apply ENTER. unfold bind. by rewrite E.
  - intros B. unfold syscall_handler, bind at 1, kernel_read_word, bind at 1. rewrite EU.
    rewrite (kernel_read_user s pd p esp P H1 U), B. done.
Qed.
End ExecProps.
