(* ===== verification/ExecExamples.v ===== *)
(** A small executable on a small machine: the theorems on loading, leaving and system calls at work,
    and two defects of the code. *)
From S2P Require Import Prelude KString KStdlib Bitmap Vaddr Palloc Pagedir PagedirFacts PagedirProps AddressSpaces AddressProps.
From S2P Require Import Endian Block Fs InodeFacts DirFacts FsExamples Process LoadFacts LoadProps Executables ExecProps.

(** An ELF file of 104 bytes with one writable segment: bytes 84 to 103 at 0x8048054, then 80 zeros. *)
Definition ex_elf : list Z :=
  [127; 69; 76; 70; 1; 1; 1] ++ replicate 9 0 ++ [2; 0; 3; 0; 1; 0; 0; 0] ++ le_bytes 4 0x8048060 ++ le_bytes 4 52
    ++ replicate 8 0 ++ [52; 0; 32; 0; 1; 0] ++ replicate 6 0
    ++ le_bytes 4 1 ++ le_bytes 4 84 ++ le_bytes 4 0x8048054 ++ le_bytes 4 0 ++ le_bytes 4 20 ++ le_bytes 4 100
    ++ le_bytes 4 6 ++ le_bytes 4 4096 ++ seqZ 1 20.
Definition ex_elf_inode : inode := mk_inode 3 1 false 0 (mk_inode_disk 1 104 INODE_MAGIC).
Definition ex_elf_fs : fs_state ram_disk :=
  mk_fs (mk_ram [replicate 512 0; ex_elf ++ replicate 408 0; replicate 512 0; encode_inode (i_data ex_elf_inode)])
    [] {[5 := ex_elf_inode]} [5] 6 (mk_bitmap 0 []) None.
Definition ex_elf_file : file := mk_file 5 0 false.

(** A thread whose new, empty address space is [ex_created]. *)
Definition ex_process : process := mk_process 0xc0102000 (chars "exe") 0xc0110000.
Definition ex_ps (v : vm) (p : option process) : ps ram_disk :=
  mk_ps v ex_elf_fs 0xc0110000 (chars "exe") p 0 0 0 [].

#[local] Instance sector_ok_dec d : Decision (sector_ok d).
Proof. unfold sector_ok, is_bytes. apply _. Defined.

Lemma ex_elf_at : file_at ex_elf_fs 5 ex_elf.
Proof.
  split; [split; [by_compute|by vm_compute]|done|]. exists ex_elf_inode. split; [done|]. split; by vm_compute.
Qed.

Lemma ex_created_ok : kernel_ok ex_created [0xc0102000] 0xc0101000.
Proof. exact (create_step ex_vm ex_created [] 0xc0101000 0xc0102000 ex_kernel_ok ex_create). Qed.

Lemma ex_ready : ready (ex_ps ex_created (Some ex_process)) 0xc0102000 5 ex_elf.
Proof.
  destruct (ko_spaces _ _ _ ex_created_ok) as [V P _ _ _ _].
  split; [exact V|apply P; by left|done|by eexists|exact ex_elf_at].
Qed.

Definition outcome_of {A S} (r : outcome (A * S)) : option A := match r with Ret (a, _) => Some a | _ => None end.

Lemma ex_load : snd <$> outcome_of (load_file (chars "exe") ex_elf_file (ex_ps ex_created (Some ex_process)))
  = Some (Some (0x8048060, 0xbfffffec)).
Proof. vm_compute. reflexivity. Qed.

Lemma ex_header : e_phnum (ehdr_at_start ex_elf) = 1 /\
  phdr_at ex_elf 52 = mk_Phdr 1 84 0x8048054 20 100 6.
Proof. split; vm_compute; reflexivity. Qed.
Lemma ex_offset : s32 (e_phoff (ehdr_at_start ex_elf)) + sizeof_Phdr * 0 = 52.
Proof. vm_compute. reflexivity. Qed.

Lemma load_file_correct_witness : exists s' f',
  load_file (chars "exe") ex_elf_file (ex_ps ex_created (Some ex_process)) = Ret ((f', Some (0x8048060, 0xbfffffec)), s') /\
  (forall i, 0 <= i < 100 -> user_byte (p_vm s') 0xc0102000 (0x8048054 + i) =
     Some (if i <? 20 then nth (Z.to_nat (84 + i)) ex_elf 0 else 0)) /\
  user_byte (p_vm s') 0xc0102000 0xbfffffff = Some 0.
Proof.
  destruct (load_file_correct (ex_ps ex_created (Some ex_process)) 0xc0102000 ex_elf_file ex_elf (chars "exe") ex_ready eq_refl)
    as (s' & f' & r & new & E & _ & _ & _ & _ & H).
  pose proof ex_load as L. rewrite E in L. cbn in L. injection L as ->.
  destruct H as (_ & _ & _ & ST & HL). exists s', f'. split; [exact E|]. split.
  - intros i Hi. destruct ex_header as [E1 E2]. specialize (HL 0). rewrite E1 in HL.
    destruct (HL ltac:(lia)) as [_ _ HT]. rewrite ex_offset in HT. rewrite E2 in HT.
    destruct (HT eq_refl) as (_ & S & _). exact (proj1 (S i Hi)).
  - exact (proj1 (ST 4095 ltac:(lia))).
Defined.

Lemma process_life_no_leak_witness : exists s2 s3 f' r,
  load_file (chars "exe") ex_elf_file (ex_ps ex_created (Some ex_process)) = Ret ((f', r), s2) /\
  process_exit s2 = Ret (tt, s3) /\
  forall q, q mod 4096 = 0 -> page_used (pages (p_vm s3)) q = page_used (pages ex_vm) q.
Proof.
  destruct (process_life_no_leak (ex_ps ex_vm None) (ex_ps ex_created (Some ex_process)) [] 0xc0102000 ex_elf_file
              ex_elf (chars "exe") ex_process (ko_spaces _ _ _ ex_kernel_ok) ex_create ltac:(done) eq_refl eq_refl
              ex_elf_at eq_refl) as (s2 & s3 & f' & r & E1 & E2 & U & _).
  exists s2, s3, f', r. split; [exact E1|]. split; [exact E2|exact U].
Defined.

(** The exit call: the word 1 and the status 42 at 0x8048000, in the address space of [ex_mapped]. *)
Definition ex_call : vm :=
  run_vm (pagedir_activate 0xc0102000)
    (change_mem ex_mapped (put_bytes (mem (pages ex_mapped)) 0xc0202000 [1; 0; 0; 0; 42; 0; 0; 0])).

Lemma ex_frame_apart : live_page ex_mapped 0xc0202000 /\ 0xc0202000 ∉ kernel_nodes ex_mapped /\
  forall pd, pd ∈ [0xc0102000] -> ~ node ex_mapped pd 0xc0202000.
Proof.
  apply (frame_not_node ex_mapped [0xc0102000] (ko_spaces _ _ _ ex_mapped_ok) 0xc0102000 0x8048000 _ true);
    [by left|discriminate|reflexivity|vm_compute; reflexivity].
Qed.

Lemma ex_call_ok : kernel_ok ex_call [0xc0102000] 0xc0102000.
Proof.
  destruct ex_frame_apart as (L & K & N).
  apply (activate_step (change_mem ex_mapped (put_bytes (mem (pages ex_mapped)) 0xc0202000 [1; 0; 0; 0; 42; 0; 0; 0]))
           _ _ 0xc0101000 0xc0102000); [|right; by left|reflexivity].
  apply (write_step ex_mapped _ _ 0xc0202000); [exact ex_mapped_ok|exact L|exact K|exact N|].
  intros a H. apply put_bytes_same. cbn [length]. lia.
Qed.

Lemma ex_in_process : in_process (ex_ps ex_call (Some ex_process)) 0xc0102000 ex_process.
Proof.
  destruct ex_call_ok as [SO A _ _]. pose proof (so_vm _ _ SO) as V.
  assert (init_page_dir ex_call = 0xc0101000) as EI by (vm_compute; reflexivity).
  split; change (p_vm (ex_ps ex_call (Some ex_process))) with ex_call.
  - exact V.
  - apply (so_pds _ _ SO). by left.
  - rewrite EI. discriminate.
  - apply (live_kernel_page ex_call); [exact V|]. apply (owned_live ex_call [0xc0102000]); [exact SO|].
    apply owned_kernel. left.
  - exact A.
  - split; reflexivity.
Qed.

Lemma ex_words : user_word ex_call 0xc0102000 0x8048000 = Some 1 /\ user_word ex_call 0xc0102000 0x8048004 = Some 42 /\
  user_word ex_call 0xc0102000 0x9000000 = None /\ user_byte ex_call 0xc0102000 0x9000000 = None.
Proof. split_and!; vm_compute; reflexivity. Qed.

Lemma syscall_handler_correct_witness :
  (exists s', syscall_handler 0x8048000 (ex_ps ex_call (Some ex_process)) = Ret (Some 42, s') /\
     page_used (pages (p_vm s')) 0xc0202000 = false) /\
  syscall_handler 0x9000000 (ex_ps ex_call (Some ex_process)) = Panic.
Proof.
  destruct ex_words as (W1 & W2 & W3 & W4). split.
  - pose proof (syscall_handler_correct (ex_ps ex_call (Some ex_process)) 0xc0102000 0x8048000 ex_process
                  ex_in_process ltac:(discriminate) ltac:(discriminate)) as H.
    change (p_vm (ex_ps ex_call (Some ex_process))) with ex_call in H. rewrite W1 in H.
    destruct (H 42 W2) as (s' & E & X). exists s'. split; [exact E|].
    rewrite (ext_used _ _ _ X) by done. change (p_vm (with_console _ _)) with ex_call.
    rewrite bool_decide_true; [apply andb_false_r|].
    assert (pd_pages ex_call 0xc0102000 = [0xc0202000; 0xc0103000; 0xc0102000]) as -> by (vm_compute; reflexivity).
    by left.
  - pose proof (syscall_handler_correct (ex_ps ex_call (Some ex_process)) 0xc0102000 0x9000000 ex_process
                  ex_in_process ltac:(discriminate) ltac:(discriminate)) as H.
    change (p_vm (ex_ps ex_call (Some ex_process))) with ex_call in H. rewrite W3 in H. exact (H W4).
Defined.

(** * A defect *)

(** The initial thread runs a program that is not on the disk: the new thread ends without a process,
    but the page directory that [load] made is neither freed nor referred to by anything but CR3. *)
Definition ex_boot : ps ram_disk :=
  mk_ps ex_vm formatted 0xc0110000 (chars "none") None 0 0 0 [].
Definition ex_run {A} (m : ST (ps ram_disk) A) (s : ps ram_disk) : option (A * ps ram_disk) :=
  match m s with Ret r => Some r | _ => None end.
Definition failed_run : option (fate * ps ram_disk) :=
  match ex_run (process_execute (chars "none") 3) ex_boot with
  | Some (3, s) => ex_run (start_process 0xc0102000) s
  | _ => None
  end.

Example failed_load_leaks_directory :
  (fun r => let s := snd r in (fst r, pcb s, p_console s, temporary s, page_used (pages (p_vm s)) 0xc0103000, cr3 (p_vm s)))
    <$> failed_run = Some (Exits, None, [MsgOpenFailed (chars "none")], 1, true, 0x103000) /\
  page_used (pages ex_vm) 0xc0103000 = false.
Proof. split; vm_compute; reflexivity. Qed.
