(* ===== verification/MrLib.v ===== *)
(** Shared code of the MapReduce cluster (hw-map-reduce/lib/lib.c and codec/codec.c): byte buffers,
    the hash that partitions keys, the order that groups them, and length-delimited streams. *)
From stdpp Require Import pretty.
From S2P Require Import Prelude KStdlib Endian.

(** * Definitions

    Bytes are numbers from 0 to 255.  A [sized_buffer] is the list of its [length] bytes; the pair
    [{-1, NULL}] by which the C code signals failure is [None].  A C string is the list of the bytes
    before its terminator. *)
Abbreviation sized_buffer := (list Z) (only parsing).
Abbreviation cstr := (list Z) (only parsing).
Abbreviation path := (list Z) (only parsing).

Record key_value := mk_kv { kv_key : sized_buffer; kv_value : sized_buffer }.
Abbreviation key_value_array := (list key_value) (only parsing).

#[export] Instance key_value_eq_dec : EqDecision key_value.
Proof. solve_decision. Defined.

(** [*buf.buffer] has the signed type [char] and is converted to [unsigned int]. *)
Definition fnv_prime : Z := 0x811C9DC5.
Definition ihash_step (hash b : Z) : Z := Z.lxor (u32 (hash * fnv_prime)) (u32 (schar b)).
Definition ihash (buf : sized_buffer) : Z := Z.land (fold_left ihash_step buf 0) 0x7fffffff.

(** The sign of [strncmp]: bytes are compared as unsigned, up to a NUL in both.  The callers pass
    at least [n] bytes on both sides. *)
Fixpoint strncmp (a b : list Z) (n : nat) : Z :=
  match n, a, b with
  | S n, x :: a, y :: b => if x =? y then (if x =? 0 then 0 else strncmp a b n) else x - y
  | _, _, _ => 0
  end.

Definition by_key (kv1 kv2 : key_value) : Z :=
  let key1 := kv_key kv1 in let key2 := kv_key kv2 in
  let n := if (length key1 <? length key2)%nat then length key1 else length key2 in
  let r := strncmp key1 key2 n in
  if r =? 0 then s32 (Z.of_nat (length key1) - Z.of_nat (length key2)) else r.

(** A NUL byte inside the buffer ends the string. *)
Fixpoint cstr_of (l : list Z) : cstr :=
  match l with
  | [] => []
  | b :: l => if b =? 0 then [] else b :: cstr_of l
  end.

(** [mkdirp dir]: the directories on which [mkdir] is called, in order; its errors are ignored.
    The path is copied to an array of [PATH_MAX + 1] bytes, and [tmp[len - 1]] of an empty path is
    outside of it. *)
Definition PATH_MAX : nat := 4096.
Definition slash : Z := 47.
Fixpoint mkdirp_loop (n k : nat) (tmp : list Z) : list path :=
  match n with
  | O => []
  | S n =>
      match tmp !! k with
      | None => []
      | Some b => (if b =? slash then [take k tmp] else []) ++ mkdirp_loop n (S k) tmp
      end
  end.
Definition mkdirp (dir : cstr) : outcome (list path) :=
  let tmp := take PATH_MAX dir in
  match last tmp with
  | None => UB
  | Some c =>
      let tmp := if c =? slash then take (length tmp - 1) tmp else tmp in
      Ret (mkdirp_loop (length tmp) 1 tmp ++ [tmp])
  end.

(** ** Files

    The file system: the contents of the existing files.  [can_write] says which paths [fopen] can
    create or truncate. *)
Abbreviation files := (gmap (list Z) (list Z)) (only parsing).

(** [%d] of a non-negative [int]. *)
Definition decimal_digits (n : Z) : list Z := chars (pretty n).
Definition TMP_FILE_FORMAT_STR (dir : cstr) (i j : Z) : path :=
  dir ++ chars "/mr-" ++ decimal_digits i ++ chars "-" ++ decimal_digits j.
Definition OUTPUT_FILE_FORMAT_STR (dir : cstr) (i : Z) : path :=
  dir ++ chars "/mr-out-" ++ decimal_digits i.

(** ** Messages (rpc/rpc.x)

    A string of a reply is a pointer, [None] when null.  [r_args_len] bytes of [r_args_val] are
    transmitted. *)
Record get_task_reply := mk_reply {
  r_job_id : Z; r_task : Z; r_file : option cstr; r_output_dir : option cstr; r_app : option cstr;
  r_n_reduce : Z; r_n_map : Z; r_reduce : bool; r_wait : bool; r_args_len : Z; r_args_val : option (list Z) }.

Record finish_task_request := mk_finish { ft_job_id : Z; ft_task : Z; ft_reduce : bool; ft_success : bool }.

Section Codec.
Context (can_write : path -> bool) (malloc_ok : Z -> bool).

Definition read_all (fs : files) (filename : path) : option sized_buffer :=
  match fs !! filename with
  | None => None
  | Some contents => if malloc_ok (Z.of_nat (length contents)) then Some contents else None
  end.

(** [ldw_init] truncates the file; 0 is success. *)
Definition ldw_init (fs : files) (filename : path) : Z * files :=
  if can_write filename then (0, <[filename := []]> fs) else (1, fs).

(** [fwrite] of the 8 bytes of the length and of the bytes. *)
Definition record_bytes (buf : sized_buffer) : list Z := le_bytes 8 (Z.of_nat (length buf)) ++ buf.
Definition ldw_write (fs : files) (ldw : path) (buf : sized_buffer) : files :=
  <[ldw := default [] (fs !! ldw) ++ record_bytes buf]> fs.

(** A reader is the rest of the file.  A short [fread] consumes what is left. *)
Definition ldr_init (fs : files) (filename : path) : option (list Z) := fs !! filename.

Definition ldr_next (ldr : list Z) : option sized_buffer * list Z :=
  if (length ldr <? 8)%nat then (None, [])
  else
    let len := le_value (take 8 ldr) in
    let ldr := drop 8 ldr in
    if len =? 0 then (Some [], ldr)
    else if negb (malloc_ok len) then (None, ldr)
    else if Z.of_nat (length ldr) <? len then (None, [])
    else (Some (take (Z.to_nat len) ldr), drop (Z.to_nat len) ldr).

Fixpoint ldr_count_loop (fuel : nat) (next : option sized_buffer * list Z) (count : Z) : outcome (Z * list Z) :=
  match fuel with
  | O => NoFuel
  | S fuel =>
      match next with
      | (None, ldr) => Ret (count, ldr)
      | (Some _, ldr) => ldr_count_loop fuel (ldr_next ldr) (count + 1)
      end
  end.
(** Every record takes 8 bytes or more, so the length of the file bounds the loop. *)
Definition ldr_count (ldr : list Z) : outcome (Z * list Z) :=
  ldr_count_loop (S (length ldr)) (ldr_next ldr) 0.

End Codec.
