(* ===== verification/MrApps.v ===== *)
(** The MapReduce applications (hw-map-reduce/app): word count, grep and vertex degree, each a map
    function, a reduce function and a printer of the results, and their table [get_app]. *)
From stdpp Require Import pretty.
From S2P Require Import Prelude KStdlib Endian MrLib.

(** * Definitions

    Allocation is taken to succeed here: the applications do not test it.  [qsort] is the C
    library's, whose treatment of equal elements is unspecified: a parameter.  An [int] is stored in a
    buffer as its four bytes. *)
Definition int_bytes (v : Z) : sized_buffer := le_bytes 4 (u32 v).
Definition int_at (buf : sized_buffer) : outcome Z :=
  if (length buf <? 4)%nat then UB else Ret (s32 (le_value (take 4 buf))).

(** [%i] of an [int]. *)
Definition print_int (v : Z) : list Z := chars (pretty v).

(** ** Word count *)

Fixpoint num_words_loop (l : list Z) (num_words counter : Z) : Z :=
  match l with
  | [] => if counter >? 1 then num_words + 1 else num_words
  | b :: l =>
      if isalpha (schar b) then num_words_loop l num_words (counter + 1)
      else num_words_loop l (if counter >? 1 then num_words + 1 else num_words) 0
  end.
Definition num_words (buf : sized_buffer) : Z := num_words_loop buf 0 0.

(** [kva] holds the entries written so far; an entry beyond the array of [n] is out of bounds. *)
Definition lower (b : Z) : Z := u8 (tolower (schar b)).
Fixpoint wc_map_loop (fuel : nat) (buf : sized_buffer) (n p1 p2 : Z) (kva : list key_value)
    : outcome (list key_value) :=
  match fuel with
  | O => NoFuel
  | S fuel =>
      if p1 <? Z.of_nat (length buf) then
        let? word_ends := (if Z.of_nat (length buf) <=? p2 then Ret true
                           else let? b := aread buf p2 in Ret (negb (isalpha (schar b)))) in
        if (word_ends : bool) then
          if p1 + 1 <? p2 then
            if Z.of_nat (length kva) <? n then
              let word := map lower (take (Z.to_nat (p2 - p1)) (drop (Z.to_nat p1) buf)) in
              wc_map_loop fuel buf n (p2 + 1) (p2 + 1) (kva ++ [mk_kv word (int_bytes 1)])
            else UB
          else wc_map_loop fuel buf n (p2 + 1) (p2 + 1) kva
        else wc_map_loop fuel buf n p1 (p2 + 1) kva
      else Ret kva
  end.
(** The caller reads all [n] entries of the array. *)
Definition wc_map (input : key_value) (aux : sized_buffer) : outcome (list key_value) :=
  let buf := kv_value input in
  let n := num_words buf in
  let? kva := wc_map_loop (length buf + 2) buf n 0 0 [] in
  if Z.of_nat (length kva) =? n then Ret kva else UB.

Fixpoint sum_values (input : list key_value) (count : Z) : outcome Z :=
  match input with
  | [] => Ret count
  | kv :: input => let? v := int_at (kv_value kv) in
                   let? count := int_ (count + v) in sum_values input count
  end.
Definition wc_reduce (key : sized_buffer) (input : list key_value) (aux : sized_buffer) : outcome key_value :=
  let? count := sum_values input 0 in Ret (mk_kv key (int_bytes count)).

(** [int_at] of a value of four bytes or more. *)
Definition int_of (buf : sized_buffer) : Z := s32 (le_value (take 4 buf)).
Definition wc_compare_fn (kv1 kv2 : key_value) : Z :=
  let key1 := kv_key kv1 in let key2 := kv_key kv2 in
  let value1 := int_of (kv_value kv1) in let value2 := int_of (kv_value kv2) in
  if value1 =? value2 then
    let n := if (length key1 <? length key2)%nat then length key1 else length key2 in
    let r := strncmp key1 key2 n in
    if r =? 0 then s32 (Z.of_nat (length key1) - Z.of_nat (length key2)) else r
  else value1 - value2.

(** ** Grep *)

Fixpoint is_prefix (needle hay : list Z) : bool :=
  match needle, hay with
  | [], _ => true
  | a :: needle, b :: hay => (a =? b) && is_prefix needle hay
  | _, [] => false
  end.
(** [strstr (hay, needle) != NULL]. *)
Fixpoint occurs_in (needle hay : cstr) : bool :=
  is_prefix needle hay || match hay with [] => false | _ :: hay => occurs_in needle hay end.

(** [cur] is the line read so far.  A line is one that a newline ends. *)
Definition newline : Z := 10.
Fixpoint find_occurrences_loop (rest cur : cstr) (line_num : Z) (search : cstr) : list (Z * cstr) :=
  match rest with
  | [] => []
  | b :: rest =>
      if b =? newline then
        (if occurs_in search cur then [(line_num, cur)] else []) ++
        find_occurrences_loop rest [] (line_num + 1) search
      else find_occurrences_loop rest (cur ++ [b]) line_num search
  end.
Definition find_occurrences (contents search : cstr) : list (Z * cstr) :=
  find_occurrences_loop contents [] 1 search.

Definition grep_map (input : key_value) (aux : sized_buffer) : outcome (list key_value) :=
  Ret (map (fun '(line_num, line) =>
              mk_kv (kv_key input) ([9] ++ print_int line_num ++ chars ": " ++ line))
           (find_occurrences (cstr_of (kv_value input)) (cstr_of aux))).

(** The C library's [atoi] and [strtol] in base 10, which skip white space and read a sign. *)
Fixpoint skip_spaces (l : cstr) : cstr :=
  match l with
  | b :: l' => if isspace (schar b) then skip_spaces l' else l
  | [] => []
  end.
Fixpoint digits (l : cstr) (v : Z) : Z * cstr :=
  match l with
  | b :: l' => if isdigit (schar b) then digits l' (10 * v + (b - 48)) else (v, l)
  | [] => (v, [])
  end.
Definition LONG_MAX : Z := 2 ^ 63 - 1.
Definition LONG_MIN : Z := - 2 ^ 63.
(** [None] when no digit was found, which leaves [next] equal to [contents]. *)
Definition strtol (contents : cstr) : option (Z * cstr) :=
  let l := skip_spaces contents in
  let '(neg, l) := match l with
                   | b :: l' => if b =? 45 then (true, l') else if b =? 43 then (false, l') else (false, l)
                   | [] => (false, l)
                   end in
  match l with
  | b :: _ =>
      if isdigit (schar b) then
        let '(v, rest) := digits l 0 in
        Some (Z.max LONG_MIN (Z.min LONG_MAX (if neg : bool then - v else v)), rest)
      else None
  | [] => None
  end.
Definition c_atoi (s : cstr) : Z := match strtol s with Some (v, _) => s32 v | None => 0 end.

Definition grep_line_num_compare_fn (kv1 kv2 : key_value) : Z :=
  c_atoi (cstr_of (kv_value kv1)) - c_atoi (cstr_of (kv_value kv2)).

Definition strcmp_chars (a b : cstr) : Z := strncmp (a ++ [0]) (b ++ [0]) (S (min (length a) (length b))).
Definition grep_file_name_compare_fn (kv1 kv2 : key_value) : Z :=
  strcmp_chars (cstr_of (kv_key kv1)) (cstr_of (kv_key kv2)).

(** The C library's [basename]. *)
Fixpoint drop_slashes (l : list Z) : list Z :=
  match l with
  | b :: l' => if b =? slash then drop_slashes l' else l
  | [] => []
  end.
Fixpoint until_slash (l : list Z) : list Z :=
  match l with
  | b :: l' => if b =? slash then [] else b :: until_slash l'
  | [] => []
  end.
Definition basename (p : cstr) : cstr :=
  match p with
  | [] => chars "."
  | _ => match drop_slashes (rev p) with [] => [slash] | l => rev (until_slash l) end
  end.

(** ** Vertex degree *)

Definition get_pair (contents : cstr) : option (Z * Z * cstr) :=
  match strtol contents with
  | None => None
  | Some (a, contents) =>
      match strtol contents with
      | None => None
      | Some (b, next) => Some (s32 a, s32 b, next)
      end
  end.
(** Every pair takes two characters or more. *)
Fixpoint get_pairs_loop (fuel : nat) (contents : cstr) : outcome (list (Z * Z)) :=
  match fuel with
  | O => NoFuel
  | S fuel =>
      match get_pair contents with
      | None => Ret []
      | Some (a, b, contents) => let? pairs := get_pairs_loop fuel contents in Ret ((a, b) :: pairs)
      end
  end.
Definition get_pairs (contents : cstr) : outcome (list (Z * Z)) :=
  get_pairs_loop (S (length contents)) contents.

Definition vertex_degree_map (input : key_value) (aux : sized_buffer) : outcome (list key_value) :=
  let? pairs := get_pairs (cstr_of (kv_value input)) in
  Ret (flat_map (fun '(a, b) => [mk_kv (int_bytes a) (int_bytes 1); mk_kv (int_bytes b) (int_bytes 1)]) pairs).

Definition vertex_degree_reduce (key : sized_buffer) (input : list key_value) (aux : sized_buffer)
    : outcome key_value :=
  let? count := sum_values input 0 in Ret (mk_kv key (int_bytes count)).

Definition vertex_degree_compare_fn (kv1 kv2 : key_value) : Z := int_of (kv_key kv1) - int_of (kv_key kv2).

(** ** The operations that sort, and the table of applications *)

Record app := mk_app {
  name : cstr;
  app_map : key_value -> sized_buffer -> outcome (list key_value);
  app_reduce : sized_buffer -> list key_value -> sized_buffer -> outcome key_value;
  process_output : list key_value -> outcome (list Z) }.

Section Apps.
Context (qsort : (key_value -> key_value -> Z) -> list key_value -> list key_value).

(** [fprintf] of one entry after the other; a value shorter than an [int] is read out of bounds. *)
Fixpoint print_all (line : key_value -> outcome (list Z)) (l : list key_value) : outcome (list Z) :=
  match l with
  | [] => Ret []
  | kv :: l => let? a := line kv in let? b := print_all line l in Ret (a ++ b)
  end.

Definition wc_process_output (input : list key_value) : outcome (list Z) :=
  print_all (fun kv => let? v := int_at (kv_value kv) in
                       Ret (print_int v ++ [9] ++ cstr_of (kv_key kv) ++ [newline]))
            (qsort wc_compare_fn input).

(** The value is the first [total_length - 1] bytes of the buffer; bytes that no [sprintf] wrote
    are uninitialised, and of no entries the length is -1. *)
Definition grep_reduce (key : sized_buffer) (input : list key_value) (aux : sized_buffer) : outcome key_value :=
  let input := qsort grep_line_num_compare_fn input in
  let total_length := fold_left (fun n kv => n + Z.of_nat (length (kv_value kv)) + 1) input 0 in
  let value_buffer := concat (map (fun kv => cstr_of (kv_value kv) ++ [newline]) input) in
  if (0 <? total_length) && (total_length - 1 <=? Z.of_nat (length value_buffer))
  then Ret (mk_kv key (take (Z.to_nat (total_length - 1)) value_buffer))
  else UB.

Definition grep_process_output (input : list key_value) : outcome (list Z) :=
  print_all (fun kv => Ret (basename (cstr_of (kv_key kv)) ++ chars ":" ++ [newline] ++
                            cstr_of (kv_value kv) ++ [newline]))
            (qsort grep_file_name_compare_fn input).

Definition vertex_degree_process_output (input : list key_value) : outcome (list Z) :=
  print_all (fun kv => let? k := int_at (kv_key kv) in
                       let? v := int_at (kv_value kv) in
                       Ret (print_int k ++ [9] ++ print_int v ++ [newline]))
            (qsort vertex_degree_compare_fn input).

Definition apps : list app :=
  [mk_app (chars "wc") wc_map wc_reduce wc_process_output;
   mk_app (chars "grep") grep_map grep_reduce grep_process_output;
   mk_app (chars "vertex-degree") vertex_degree_map vertex_degree_reduce vertex_degree_process_output].

Fixpoint find_app (l : list app) (app_name : cstr) : option app :=
  match l with
  | [] => None
  | a :: l => if strcmp_chars app_name (name a) =? 0 then Some a else find_app l app_name
  end.
(** The structure of null pointers is [None]. *)
Definition get_app (app_name : cstr) : option app := find_app apps app_name.

End Apps.
