(* ===== verification/Worker.v ===== *)
(** The MapReduce worker (hw-map-reduce/worker/task_handler.c): a map task partitions the pairs of one
    input file over the intermediate files of the reduce tasks, a reduce task sorts and groups the
    pairs of its intermediate files and writes one pair per key. *)
From S2P Require Import Prelude KStdlib Endian MrLib MrApps.

(** * Definitions

    The state is the file system.  A variable-length array of no or fewer elements is undefined
    behaviour, as is the division by [n_reduce] when it is 0. *)
Section Worker.
Context (can_write : path -> bool) (malloc_ok : Z -> bool).
Context (qsort : (key_value -> key_value -> Z) -> list key_value -> list key_value).
#[local] Abbreviation W := (ST files) (only parsing).

Definition aux_of (reply : get_task_reply) : sized_buffer :=
  take (Z.to_nat (r_args_len reply)) (default [] (r_args_val reply)).

(** A writer is the path of its file. *)
Definition init_writer (filename : path) : W Z := fun fs => let '(r, fs) := ldw_init can_write fs filename in Ret (r, fs).
Definition write_record (ldw : path) (buf : sized_buffer) : W unit := modify (fun fs => ldw_write fs ldw buf).

(** ** Map tasks *)

Fixpoint open_map_writers (n : nat) (i : Z) (dir : cstr) (task : Z) (writers : list path) : W (option (list path)) :=
  match n with
  | O => ret (Some writers)
  | S n =>
      let filename := TMP_FILE_FORMAT_STR dir task i in
      let! r := init_writer filename in
      if r =? 0 then open_map_writers n (i + 1) dir task (writers ++ [filename]) else ret None
  end.

Definition map_file (filename : cstr) (contents : sized_buffer)
    (map : key_value -> sized_buffer -> outcome (list key_value)) (aux : sized_buffer) : outcome (list key_value) :=
  map (mk_kv filename contents) aux.

Definition reduce_task_of (key : sized_buffer) (n_reduce : Z) : Z := ihash key mod u32 n_reduce.

Fixpoint write_map_kvs (writers : list path) (kva : list key_value) (n_reduce : Z) : W unit :=
  match kva with
  | [] => ret tt
  | kv :: kva =>
      let! writer := lift (aread writers (reduce_task_of (kv_key kv) n_reduce)) in
      let! _ := write_record writer (kv_key kv) in
      let! _ := write_record writer (kv_value kv) in
      write_map_kvs writers kva n_reduce
  end.

Definition handle_map_task (reply : get_task_reply) : W Z :=
  let! app_name := lift (deref (r_app reply)) in
  match get_app qsort app_name with
  | None => ret 1
  | Some current_app =>
      if r_n_reduce reply <=? 0 then lift UB
      else
        let! dir := lift (deref (r_output_dir reply)) in
        let! writers := open_map_writers (Z.to_nat (r_n_reduce reply)) 0 dir (r_task reply) [] in
        match writers with
        | None => ret 1
        | Some writers =>
            let! filename := lift (deref (r_file reply)) in
            let! contents := gets (fun fs => read_all malloc_ok fs filename) in
            match contents with
            | None => ret 1
            | Some contents =>
                let! kva := lift (map_file filename contents (app_map current_app) (aux_of reply)) in
                let! _ := write_map_kvs writers kva (r_n_reduce reply) in
                ret 0
            end
        end
  end.

(** ** Reduce tasks *)

(** [None] is the result -1; the entries are counted in a [size_t], and the readers are rewound. *)
Fixpoint open_reduce_readers (n : nat) (i : Z) (dir : cstr) (task : Z) (readers : list (list Z)) (entries : Z)
    : W (option (list (list Z) * Z)) :=
  match n with
  | O => ret (Some (readers, entries))
  | S n =>
      let! reader := gets (fun fs => ldr_init fs (TMP_FILE_FORMAT_STR dir i task)) in
      match reader with
      | None => ret None
      | Some infile =>
          let! (count, _) := lift (ldr_count malloc_ok infile) in
          open_reduce_readers n (i + 1) dir task (readers ++ [infile]) (entries + count)
      end
  end.

(** The pairs of one reader, while there is room for [room] more. *)
Fixpoint read_pairs (room : nat) (reader : list Z) : list key_value :=
  let '(key, reader) := ldr_next malloc_ok reader in
  let '(value, reader) := ldr_next malloc_ok reader in
  match room, key, value with
  | S room, Some key, Some value => mk_kv key value :: read_pairs room reader
  | _, _, _ => []
  end.
Fixpoint read_readers (room : nat) (readers : list (list Z)) : list key_value :=
  match readers with
  | [] => []
  | reader :: readers =>
      let kvs := read_pairs room reader in kvs ++ read_readers (room - length kvs) readers
  end.
(** [sizeof (key_value)] is 32. *)
Definition read_map_kvs (readers : list (list Z)) (len : Z) : option (list key_value) :=
  if malloc_ok (32 * len) then Some (read_readers (Z.to_nat len) readers) else None.

Fixpoint reduce_loop (fuel : nat) (writer : path) (kvs : list key_value) (p1 p2 : Z)
    (reduce : sized_buffer -> list key_value -> sized_buffer -> outcome key_value) (aux : sized_buffer) : W unit :=
  match fuel with
  | O => lift NoFuel
  | S fuel =>
      if p1 <? Z.of_nat (length kvs) then
        let! first := lift (aread kvs p1) in
        let! last_of_key := (if Z.of_nat (length kvs) <=? p2 then ret true
                             else let! second := lift (aread kvs p2) in ret (negb (by_key first second =? 0))) in
        if (last_of_key : bool) then
          let! _ := (if p1 <? p2 then
                       let per_key_array := take (Z.to_nat (p2 - p1)) (drop (Z.to_nat p1) kvs) in
                       let! kv := lift (reduce (kv_key first) per_key_array aux) in
                       let! _ := write_record writer (kv_key kv) in
                       write_record writer (kv_value kv)
                     else ret tt) in
          reduce_loop fuel writer kvs p2 (p2 + 1) reduce aux
        else reduce_loop fuel writer kvs p1 (p2 + 1) reduce aux
      else ret tt
  end.
Definition reduce_kvs (writer : path) (kva : list key_value)
    (reduce : sized_buffer -> list key_value -> sized_buffer -> outcome key_value) (aux : sized_buffer) : W unit :=
  let kvs := qsort by_key kva in
  reduce_loop (S (length kvs)) writer kvs 0 1 reduce aux.

Definition open_reduce_writer (dir : cstr) (task : Z) : W (option path) :=
  let filename := OUTPUT_FILE_FORMAT_STR dir task in
  let! r := init_writer filename in
  ret (if r =? 0 then Some filename else None).

(** The name of the application is not tested here: calling the null [reduce] of an unknown one is
    undefined behaviour. *)
Definition handle_reduce_task (reply : get_task_reply) : W Z :=
  let! app_name := lift (deref (r_app reply)) in
  let current_app := get_app qsort app_name in
  if r_n_map reply <=? 0 then lift UB
  else
    let! dir := lift (deref (r_output_dir reply)) in
    let! readers := open_reduce_readers (Z.to_nat (r_n_map reply)) 0 dir (r_task reply) [] 0 in
    match readers with
    | None => ret 1
    | Some (readers, entries) =>
        if entries mod 2 =? 1 then ret 1
        else
          let! writer := open_reduce_writer dir (r_task reply) in
          match writer with
          | None => ret 1
          | Some output_writer =>
              let len := entries / 2 in
              if 0 <? len then
                match read_map_kvs readers len with
                | None => ret 1
                | Some kva =>
                    let! reduce := lift (deref (option_map app_reduce current_app)) in
                    let! _ := reduce_kvs output_writer kva reduce (aux_of reply) in ret 0
                end
              else ret 0
          end
    end.
End Worker.
