(* ===== verification/MrFacts.v ===== *)
(** The streams and paths of the MapReduce cluster: records written are records read, and the
    intermediate and output files of different tasks are different files. *)
From stdpp Require Import pretty.
From S2P Require Import Prelude KStdlib Endian MrLib MrApps Worker.

(** * Paths *)

Definition is_digit (b : Z) : Prop := 48 <= b <= 57.

Lemma chars_app s t : chars (s +:+ t) = chars s ++ chars t.
Proof.
  induction s as [|c s IH]; [done|]. change (chars (String c s +:+ t)) with (Z.of_nat (Ascii.nat_of_ascii c) :: chars (s +:+ t)).
  by rewrite IH.
Qed.

Lemma chars_inj s t : chars s = chars t -> s = t.
Proof.
  revert t. induction s as [|c s IH]; intros [|d t]; try done. intros [= Hc Hl].
  apply Nat2Z.inj in Hc. f_equal; [|by apply IH].
  by rewrite <- (Ascii.ascii_nat_embedding c), <- (Ascii.ascii_nat_embedding d), Hc.
Qed.

Lemma pretty_N_char_digit x : is_digit (Z.of_nat (Ascii.nat_of_ascii (pretty_N_char x))).
Proof.
  unfold pretty_N_char, is_digit. repeat case_match; vm_compute; split; congruence.
Qed.

Lemma pretty_N_go_digits x : forall s, Forall is_digit (chars s) -> s <> ""%string \/ (0 < x)%N ->
  Forall is_digit (chars (pretty_N_go x s)) /\ pretty_N_go x s <> ""%string.
Proof.
  induction (N.lt_wf_0 x) as [x _ IH]; intros s Hs Hne.
  assert (x = 0 \/ 0 < x)%N as [->|Hx] by lia.
  - rewrite pretty_N_go_0. destruct Hne; [done|lia].
  - rewrite pretty_N_go_step by done. apply IH; [by apply N.div_lt| |by left].
    constructor; [apply pretty_N_char_digit|done].
Qed.

Lemma decimal_digits_ok n : 0 <= n -> Forall is_digit (decimal_digits n) /\ decimal_digits n <> [].
Proof.
  intros Hn. unfold decimal_digits, pretty, pretty_Z.
  assert (H : forall x : N, Forall is_digit (chars (pretty x)) /\ chars (pretty x) <> []).
  { intros x. unfold pretty, pretty_N. case_decide as Hx.
    - split; [|done]. repeat constructor; vm_compute; congruence.
    - destruct (pretty_N_go_digits x "") as [H1 H2]; [constructor|right; lia|].
      split; [done|]. by destruct (pretty_N_go x ""). }
  destruct n; [|apply (H (Npos p))|lia]. apply (H 0%N).
Qed.

Lemma decimal_digits_inj i j : decimal_digits i = decimal_digits j -> i = j.
Proof. intros H. apply chars_inj in H. by apply (inj pretty) in H. Qed.

(** Splitting at a separator that occurs in neither prefix. *)
Lemma app_sep_inj (l1 l2 r1 r2 : list Z) c : c ∉ l1 -> c ∉ l2 -> l1 ++ c :: r1 = l2 ++ c :: r2 -> l1 = l2 /\ r1 = r2.
Proof.
  revert l2. induction l1 as [|x l1 IH]; intros [|y l2] H1 H2 H; cbn in H.
  - by injection H as ->.
  - injection H as Hx H. subst. destruct H2. by left.
  - injection H as Hx H. subst. destruct H1. by left.
  - injection H as Hx H. subst. destruct (IH l2) as [-> ->]; [|..|done|done]; set_solver.
Qed.

Lemma digits_no_dash l : Forall is_digit l -> 45 ∉ l.
Proof. intros H Hin. eapply Forall_forall in H; [|exact Hin]. unfold is_digit in H. lia. Qed.

Lemma tmp_path_inj dir i j i' j' : 0 <= i -> 0 <= i' ->
  TMP_FILE_FORMAT_STR dir i j = TMP_FILE_FORMAT_STR dir i' j' -> i = i' /\ j = j'.
Proof.
  intros Hi Hi' H. unfold TMP_FILE_FORMAT_STR in H. do 2 apply app_inv_head in H.
  apply app_sep_inj in H as [H1 H2].
  - split; by apply decimal_digits_inj.
  - apply digits_no_dash, decimal_digits_ok, Hi.
  - apply digits_no_dash, decimal_digits_ok, Hi'.
Qed.

Lemma tmp_output_ne dir i j k : 0 <= i -> TMP_FILE_FORMAT_STR dir i j <> OUTPUT_FILE_FORMAT_STR dir k.
Proof.
  intros Hi H. unfold TMP_FILE_FORMAT_STR, OUTPUT_FILE_FORMAT_STR in H. apply app_inv_head in H.
  destruct (decimal_digits_ok i Hi) as [Hd Hne]. destruct (decimal_digits i) as [|x l]; [done|].
  injection H as Hx _. apply Forall_cons in Hd as [Hd _]. unfold is_digit in Hd. vm_compute in Hx. lia.
Qed.

Lemma output_path_inj dir i j : OUTPUT_FILE_FORMAT_STR dir i = OUTPUT_FILE_FORMAT_STR dir j -> i = j.
Proof. intros H. unfold OUTPUT_FILE_FORMAT_STR in H. do 2 apply app_inv_head in H. by apply decimal_digits_inj. Qed.

(** * Streams *)

Section Streams.
Context (malloc_ok : Z -> bool).

(** A buffer that the reader has memory for. *)
Definition readable (buf : sized_buffer) : Prop :=
  Z.of_nat (length buf) < 2 ^ 63 /\ malloc_ok (Z.of_nat (length buf)) = true.

Lemma record_bytes_length buf : length (record_bytes buf) = (8 + length buf)%nat.
Proof. unfold record_bytes. by rewrite length_app, le_bytes_length. Qed.

Lemma ldr_next_record buf rest : readable buf -> ldr_next malloc_ok (record_bytes buf ++ rest) = (Some buf, rest).
Proof.
  intros [Hl Hm]. unfold ldr_next. rewrite length_app, record_bytes_length.
  replace ((_ <? 8)%nat) with false by (symmetry; apply Nat.ltb_ge; lia).
  unfold record_bytes. rewrite <- app_assoc.
  rewrite take_app_length' by (by rewrite le_bytes_length). rewrite drop_app_length' by (by rewrite le_bytes_length).
  rewrite le_value_bytes by (change (256 ^ Z.of_nat 8) with (2 ^ 64); lia). cbv zeta.
  destruct (Z.of_nat (length buf) =? 0) eqn:E.
  - destruct buf; [done|cbn in E; lia].
  - rewrite Hm. cbn [negb]. rewrite length_app. replace (_ <? _) with false by lia.
    rewrite Nat2Z.id, take_app_length, drop_app_length. done.
Qed.

Lemma ldr_next_end : ldr_next malloc_ok [] = (None, []).
Proof. done. Qed.

(** The file of a list of records. *)
Definition stream (l : list sized_buffer) : list Z := concat (map record_bytes l).

Lemma stream_app l1 l2 : stream (l1 ++ l2) = stream l1 ++ stream l2.
Proof. unfold stream. by rewrite map_app, concat_app. Qed.

Lemma stream_length l : (length l <= length (stream l))%nat.
Proof.
  induction l as [|b l IH]; [done|]. unfold stream in *. cbn [map concat]. rewrite length_app, record_bytes_length. cbn [length]. lia.
Qed.

Lemma ldr_count_loop_Ret l : Forall readable l -> forall fuel count, (length l < fuel)%nat ->
  ldr_count_loop malloc_ok fuel (ldr_next malloc_ok (stream l)) count = Ret (count + Z.of_nat (length l), []).
Proof.
  induction 1 as [|b l Hb _ IH]; intros [|fuel] count Hf; cbn [length] in *; try lia.
  - cbn. by rewrite Z.add_0_r.
  - unfold stream. cbn [map concat]. rewrite ldr_next_record by done. cbn [ldr_count_loop].
    change (concat (map record_bytes l)) with (stream l). rewrite IH by lia. do 2 f_equal. lia.
Qed.

Lemma ldr_count_Ret l : Forall readable l -> ldr_count malloc_ok (stream l) = Ret (Z.of_nat (length l), []).
Proof.
  intros H. unfold ldr_count. rewrite ldr_count_loop_Ret; [done|done|]. pose proof (stream_length l). lia.
Qed.

(** Whatever the file holds, counting its records terminates. *)
Lemma ldr_next_shorter ldr b rest : ldr_next malloc_ok ldr = (Some b, rest) -> (length rest < length ldr)%nat.
Proof.
  unfold ldr_next. destruct (length ldr <? 8)%nat eqn:E; [done|]. apply Nat.ltb_ge in E. cbv zeta.
  repeat case_match; intros [= _ <-]; rewrite ?length_drop; lia.
Qed.
Lemma ldr_count_loop_total fuel : forall ldr count, (length ldr < fuel)%nat ->
  exists n ldr', ldr_count_loop malloc_ok fuel (ldr_next malloc_ok ldr) count = Ret (n, ldr').
Proof.
  induction fuel as [|fuel IH]; intros ldr count Hf; [lia|]. cbn [ldr_count_loop].
  destruct (ldr_next malloc_ok ldr) as [[b|] rest] eqn:E; [|eauto].
  apply ldr_next_shorter in E. apply IH. lia.
Qed.

(** The pairs of a file. *)
Definition kv_records (kv : key_value) : list sized_buffer := [kv_key kv; kv_value kv].
Definition kv_stream (kvs : list key_value) : list Z := stream (flat_map kv_records kvs).
Definition kv_readable (kv : key_value) : Prop := readable (kv_key kv) /\ readable (kv_value kv).

Lemma kv_stream_cons kv kvs : kv_stream (kv :: kvs) = record_bytes (kv_key kv) ++ record_bytes (kv_value kv) ++ kv_stream kvs.
Proof. done. Qed.
Lemma kv_stream_app l1 l2 : kv_stream (l1 ++ l2) = kv_stream l1 ++ kv_stream l2.
Proof. unfold kv_stream. by rewrite flat_map_app, stream_app. Qed.

Lemma kv_records_readable kvs : Forall kv_readable kvs -> Forall readable (flat_map kv_records kvs).
Proof.
  induction 1 as [|kv kvs [? ?] _ IH]; [constructor|]. cbn. constructor; [done|]. by constructor.
Qed.
Lemma length_kv_records kvs : length (flat_map kv_records kvs) = (2 * length kvs)%nat.
Proof. induction kvs as [|kv kvs IH]; [done|]. cbn. cbn in IH. rewrite IH. lia. Qed.

Lemma read_pairs_Ret kvs : Forall kv_readable kvs -> forall room, (length kvs <= room)%nat ->
  read_pairs malloc_ok room (kv_stream kvs) = kvs.
Proof.
  induction 1 as [|[key value] kvs [Hk Hv] _ IH]; intros room Hr.
  - by destruct room.
  - rewrite kv_stream_cons. cbn [kv_key kv_value] in *. cbn [length] in Hr. destruct room as [|room]; [lia|]. cbn [read_pairs].
    rewrite ldr_next_record by done. rewrite ldr_next_record by done. f_equal. apply IH. lia.
Qed.

Lemma read_readers_Ret kvss : Forall (Forall kv_readable) kvss -> forall room, (length (concat kvss) <= room)%nat ->
  read_readers malloc_ok room (map kv_stream kvss) = concat kvss.
Proof.
  induction 1 as [|kvs kvss Hk _ IH]; intros room Hr; [done|]. cbn [map concat read_readers] in *.
  rewrite length_app in Hr. rewrite read_pairs_Ret by (done || lia). f_equal. apply IH. lia.
Qed.

(** Buffers written to a file one after the other are read back one after the other; the count of
    records is their number; and counting the records of any file terminates. *)
Theorem codec_roundtrip (can_write : list Z -> bool) (fs : gmap (list Z) (list Z)) (filename : list Z) (bufs : list (list Z)) :
  can_write filename = true -> Forall readable bufs ->
  let fs' := fold_left (fun fs buf => ldw_write fs filename buf) bufs (ldw_init can_write fs filename).2 in
  ldr_init fs' filename = Some (stream bufs) /\
  (forall buf rest, readable buf -> ldr_next malloc_ok (stream (buf :: rest)) = (Some buf, stream rest)) /\
  ldr_next malloc_ok (stream []) = (None, []) /\
  ldr_count malloc_ok (stream bufs) = Ret (Z.of_nat (length bufs), []) /\
  forall ldr, exists count ldr', ldr_count malloc_ok ldr = Ret (count, ldr').
Proof.
  intros Hw Hb fs'. split; [|split; [|split; [done|split]]].
  - unfold fs', ldw_init, ldr_init. rewrite Hw. cbn [snd].
    assert (H : forall l fs0 c, fs0 !! filename = Some c ->
      fold_left (fun fs buf => ldw_write fs filename buf) l fs0 !! filename = Some (c ++ stream l)).
    { induction l as [|b l IH]; intros fs0 c Hc; cbn [fold_left]; [by rewrite app_nil_r|].
      rewrite (IH _ (c ++ record_bytes b)).
      - by rewrite <- app_assoc.
      - unfold ldw_write. by rewrite Hc, lookup_insert_eq. }
    rewrite (H bufs _ []); [done|]. apply lookup_insert_eq.
  - intros buf rest Hbuf. unfold stream. cbn [map concat]. by apply ldr_next_record.
  - by apply ldr_count_Ret.
  - intros ldr. apply ldr_count_loop_total. lia.
Qed.
End Streams.

Example codec_roundtrip_witness :
  let fs := fold_left (fun fs buf => ldw_write fs [1] buf) [[7; 8]; []; [9]] (ldw_init (fun _ => true) ∅ [1]).2 in
  ldr_init fs [1] = Some (stream [[7; 8]; []; [9]]) /\ ldr_count (fun _ => true) (stream [[7; 8]; []; [9]]) = Ret (3, []).
Proof.
  destruct (codec_roundtrip (fun _ => true) (fun _ => true) ∅ [1] [[7; 8]; []; [9]]) as (H & _ & _ & Hc & _).
  - reflexivity.
  - repeat constructor.
  - split; [exact H|exact Hc].
Defined.
