(* ===== verification/WorkerFacts.v ===== *)
(** The tasks of the MapReduce worker: a map task partitions its pairs over the intermediate files by
    the hash of the key; a reduce task writes one result per distinct key of its partition. *)
From S2P Require Import Prelude KString KStdlib Endian MrLib MrApps Worker MrFacts.

(** * The C library's [qsort]

    A permutation of the array, in order when the comparison is a total preorder of its elements. *)
Definition preorder_on {A} (c : A -> A -> Z) (l : list A) : Prop :=
  (forall x y, x ∈ l -> y ∈ l -> c x y <= 0 \/ c y x <= 0) /\
  (forall x y z, x ∈ l -> y ∈ l -> z ∈ l -> c x y <= 0 -> c y z <= 0 -> c x z <= 0).

Class qsort_laws (qsort : (key_value -> key_value -> Z) -> list key_value -> list key_value) : Prop := {
  qsort_perm c l : qsort c l ≡ₚ l;
  qsort_sorted c l : preorder_on c l -> StronglySorted (fun a b => c a b <= 0) (qsort c l) }.

(** An insertion sort is one. *)
Fixpoint insert_kv (c : key_value -> key_value -> Z) (x : key_value) (l : list key_value) : list key_value :=
  match l with
  | [] => [x]
  | y :: l => if c x y <=? 0 then x :: y :: l else y :: insert_kv c x l
  end.
Definition insertion_sort (c : key_value -> key_value -> Z) (l : list key_value) : list key_value :=
  foldr (insert_kv c) [] l.

Lemma insert_kv_perm c x l : insert_kv c x l ≡ₚ x :: l.
Proof.
  induction l as [|y l IH]; cbn; [done|]. destruct (c x y <=? 0); [done|]. rewrite IH. by constructor.
Qed.
Lemma insertion_sort_perm c l : insertion_sort c l ≡ₚ l.
Proof. induction l as [|x l IH]; [done|]. cbn. by rewrite insert_kv_perm, IH. Qed.

Lemma insert_kv_sorted c x l : preorder_on c (x :: l) -> StronglySorted (fun a b => c a b <= 0) l ->
  StronglySorted (fun a b => c a b <= 0) (insert_kv c x l).
Proof.
  intros Hc Hs. induction Hs as [|y l Hs IH Hy]; cbn; [by repeat constructor|].
  destruct (c x y <=? 0) eqn:E.
  - constructor; [by constructor|]. constructor; [lia|]. rewrite Forall_forall in Hy |- *.
    intros z Hz. apply (proj2 Hc x y z); [set_solver..|lia|auto].
  - constructor.
    + apply IH. destruct Hc as [H1 H2]. split; intros; [apply H1|eapply (H2 x0 y0 z)]; set_solver.
    + rewrite insert_kv_perm. constructor; [|done].
      destruct (proj1 Hc x y) as [|H]; [set_solver..|lia|exact H].
Qed.

#[export] Instance insertion_sort_laws : qsort_laws insertion_sort.
Proof.
  split; [apply insertion_sort_perm|]. intros c l Hc. induction l as [|x l IH]; [constructor|]. cbn.
  assert (Hperm : foldr (insert_kv c) [] l ≡ₚ l) by apply insertion_sort_perm.
  apply insert_kv_sorted.
  - destruct Hc as [H1 H2]. split; intros *; rewrite Hperm; [apply H1|apply H2].
  - apply IH. destruct Hc as [H1 H2]. split; intros; [apply H1|eapply (H2 x0 y z)]; set_solver.
Qed.

(** * The order of the keys *)

(** Keys without NUL bytes. *)
Definition ordinary (key : list Z) : Prop :=
  Forall (fun b => 0 < b < 256) key /\ Z.of_nat (length key) < 2 ^ 31.

Lemma strncmp_lex a : forall b, Forall (fun c => 0 < c < 256) a -> Forall (fun c => 0 < c < 256) b ->
  let r := strncmp a b (min (length a) (length b)) in
  lex a b = if r =? 0 then Z.of_nat (length a) ?= Z.of_nat (length b) else (r ?= 0).
Proof.
  induction a as [|x a IH]; intros [|y b] Ha Hb; try done.
  apply Forall_cons in Ha as [Hx Ha], Hb as [Hy Hb]. cbn [length Nat.min strncmp lex].
  destruct (Z.compare_spec x y) as [->|H|H].
  - rewrite Z.eqb_refl. replace (y =? 0) with false by lia. rewrite IH by done. cbv zeta.
    destruct (_ =? 0); [|done]. rewrite !Nat2Z.inj_succ, <- !Z.add_1_l. by rewrite Z.add_compare_mono_l.
  - replace (x =? y) with false by lia. cbv zeta. replace (x - y =? 0) with false by lia. symmetry. apply Z.compare_lt_iff. lia.
  - replace (x =? y) with false by lia. cbv zeta. replace (x - y =? 0) with false by lia. symmetry. apply Z.compare_gt_iff. lia.
Qed.

Lemma by_key_lex a b : ordinary (kv_key a) -> ordinary (kv_key b) -> (by_key a b ?= 0) = lex (kv_key a) (kv_key b).
Proof.
  intros [Ha La] [Hb Lb]. rewrite strncmp_lex by done. unfold by_key. cbv zeta.
  replace (if (_ <? _)%nat then _ else _) with (min (length (kv_key a)) (length (kv_key b))).
  2: { destruct (Nat.ltb_spec (length (kv_key a)) (length (kv_key b))); lia. }
  destruct (strncmp _ _ _ =? 0); [|done]. rewrite s32_small by lia.
  destruct (Z.compare_spec (Z.of_nat (length (kv_key a))) (Z.of_nat (length (kv_key b)))) as [H|H|H].
  - apply Z.compare_eq_iff. lia.
  - apply Z.compare_lt_iff. lia.
  - apply Z.compare_gt_iff. lia.
Qed.

Lemma lex_sym a : forall b, lex b a = CompOpp (lex a b).
Proof.
  induction a as [|x a IH]; intros [|y b]; cbn; try done. rewrite Z.compare_antisym.
  destruct (x ?= y); cbn; [apply IH|done|done].
Qed.
Lemma lex_trans a : forall b c, lex a b <> Gt -> lex b c <> Gt -> lex a c <> Gt.
Proof.
  induction a as [|x a IH]; intros [|y b] [|z c]; cbn; try done.
  destruct (Z.compare_spec x y) as [->|H|H]; [|intros _|done].
  - destruct (Z.compare_spec y z); [apply IH|done|done].
  - destruct (Z.compare_spec y z) as [->|H'|H']; intros Hc; [by rewrite (proj2 (Z.compare_lt_iff x z) H)| |done].
    by rewrite (proj2 (Z.compare_lt_iff x z)) by lia.
Qed.

Lemma by_key_le a b : ordinary (kv_key a) -> ordinary (kv_key b) -> by_key a b <= 0 <-> lex (kv_key a) (kv_key b) <> Gt.
Proof. intros. by rewrite <- by_key_lex, Z.compare_gt_iff, Z.nlt_ge. Qed.
Lemma by_key_eq a b : ordinary (kv_key a) -> ordinary (kv_key b) -> by_key a b = 0 <-> kv_key a = kv_key b.
Proof. intros. by rewrite <- lex_Eq, <- by_key_lex, Z.compare_eq_iff. Qed.

Lemma by_key_preorder l : Forall (fun kv => ordinary (kv_key kv)) l -> preorder_on by_key l.
Proof.
  rewrite Forall_forall. intros H. split.
  - intros x y Hx Hy. rewrite !by_key_le by auto. rewrite (lex_sym (kv_key x) (kv_key y)).
    destruct (lex _ _); cbn; auto; left; done.
  - intros x y z Hx Hy Hz. rewrite !by_key_le by auto. apply lex_trans.
Qed.

(** * Map tasks *)

(** The pairs that belong to reduce task [r]. *)
Definition partition (n_reduce r : Z) (kvs : list key_value) : list key_value :=
  filter (fun kv => reduce_task_of (kv_key kv) n_reduce = r) kvs.

Lemma reduce_task_of_range key n_reduce : 0 < n_reduce < 2 ^ 31 -> 0 <= reduce_task_of key n_reduce < n_reduce.
Proof. intros H. unfold reduce_task_of. rewrite u32_small by lia. apply Z.mod_pos_bound. lia. Qed.

Lemma aread_map_seqZ {A} (f : Z -> A) n r : 0 <= r < n -> aread (map f (seqZ 0 n)) r = Ret (f r).
Proof.
  intros H. unfold aread, aget. replace (0 <=? r) with true by lia.
  change (map f (seqZ 0 n)) with (f <$> seqZ 0 n). rewrite list_lookup_fmap, lookup_seqZ_lt by lia. cbn. do 2 f_equal. lia.
Qed.

Lemma elem_of_map_seqZ {A} (f : Z -> A) n p : p ∈ map f (seqZ 0 n) <-> exists r, 0 <= r < n /\ p = f r.
Proof.
  change (map f (seqZ 0 n)) with (f <$> seqZ 0 n). rewrite list_elem_of_fmap. setoid_rewrite elem_of_seqZ.
  split; intros (r & H1 & H2); exists r; split; (done || lia).
Qed.

(** [fopen] for writing truncates the files. *)
Definition truncated (ps : list (list Z)) (fs : gmap (list Z) (list Z)) : gmap (list Z) (list Z) :=
  fold_left (fun fs p => <[p := []]> fs) ps fs.
Lemma truncated_lookup ps p : forall fs, truncated ps fs !! p = if decide (p ∈ ps) then Some [] else fs !! p.
Proof.
  induction ps as [|q ps IH]; intros fs; cbn.
  - case_decide; [set_solver|done].
  - rewrite IH. destruct (decide (q = p)) as [->|Hne].
    + rewrite lookup_insert_eq, (decide_True (P := p ∈ p :: ps)) by (by left). by case_decide.
    + rewrite lookup_insert_ne by done. repeat case_decide; done || set_solver.
Qed.

(** The pairs of a key. *)
Abbreviation has_key k := (fun kv => kv_key kv = k) (only parsing).

Section Tasks.
Context (can_write : list Z -> bool) (malloc_ok : Z -> bool).
Context (qsort : (key_value -> key_value -> Z) -> list key_value -> list key_value) `{!qsort_laws qsort}.

Lemma open_map_writers_Ret dir task n : forall i writers fs,
  (forall k, i <= k < i + Z.of_nat n -> can_write (TMP_FILE_FORMAT_STR dir task k) = true) ->
  let new := map (TMP_FILE_FORMAT_STR dir task) (seqZ i (Z.of_nat n)) in
  open_map_writers can_write n i dir task writers fs = Ret (Some (writers ++ new), truncated new fs).
Proof.
  induction n as [|n IH]; intros i writers fs Hw; cbv zeta.
  - by rewrite app_nil_r.
  - rewrite seqZ_cons by lia. replace (Z.pred (Z.of_nat (S n))) with (Z.of_nat n) by lia.
    cbn [open_map_writers map]. unfold bind at 1, init_writer, ldw_init. rewrite Hw by lia. cbn [obind].
    rewrite Z.eqb_refl. rewrite IH by (intros; apply Hw; lia). by rewrite <- app_assoc.
Qed.

(** Two records are appended to the file of the pair's partition. *)
Lemma write_map_kvs_Ret (w : Z -> list Z) n_reduce : 0 < n_reduce < 2 ^ 31 ->
  (forall r r', 0 <= r -> 0 <= r' -> w r = w r' -> r = r') -> forall kvs fs,
  (forall r, 0 <= r < n_reduce -> is_Some (fs !! w r)) ->
  exists fs', write_map_kvs (map w (seqZ 0 n_reduce)) kvs n_reduce fs = Ret (tt, fs') /\
    (forall r c, 0 <= r < n_reduce -> fs !! w r = Some c -> fs' !! w r = Some (c ++ kv_stream (partition n_reduce r kvs))) /\
    (forall p, p ∉ map w (seqZ 0 n_reduce) -> fs' !! p = fs !! p).
Proof.
  intros HR Hinj kvs. induction kvs as [|kv kvs IH]; intros fs Hfs.
  - exists fs. split; [done|]. split; [|done]. intros r c _ ->. by rewrite app_nil_r.
  - pose proof (reduce_task_of_range (kv_key kv) n_reduce HR) as Hr. set (r0 := reduce_task_of (kv_key kv) n_reduce) in *.
    destruct (Hfs r0 Hr) as [c0 Hc0]. cbn [write_map_kvs]. fold r0.
    rewrite aread_map_seqZ by done. rewrite bind_lift_Ret.
    set (fs1 := <[w r0 := c0 ++ record_bytes (kv_key kv) ++ record_bytes (kv_value kv)]> fs).
    destruct (IH fs1) as (fs' & Hrun & Hin & Hout).
    { intros r H. unfold fs1. destruct (decide (w r0 = w r)) as [->|]; [by rewrite lookup_insert_eq|].
      rewrite lookup_insert_ne by done. by apply Hfs. }
    exists fs'. split; [|split].
    + unfold bind, write_record, modify. cbn [obind].
      assert (ldw_write (ldw_write fs (w r0) (kv_key kv)) (w r0) (kv_value kv) = fs1) as ->; [|done].
      unfold ldw_write, fs1. rewrite Hc0, lookup_insert_eq, insert_insert_eq. by rewrite app_assoc.
    + intros r c H Hc. unfold partition. rewrite filter_cons. fold r0. destruct (decide (r0 = r)) as [<-|Hne].
      * rewrite (Hin r0 (c0 ++ record_bytes (kv_key kv) ++ record_bytes (kv_value kv)))
          by (done || by (unfold fs1; rewrite lookup_insert_eq)).
        rewrite Hc0 in Hc. injection Hc as ->. rewrite kv_stream_cons. by rewrite <- !app_assoc.
      * apply Hin; [done|]. unfold fs1. rewrite lookup_insert_ne; [done|].
        intros Hw. apply Hne, Hinj; [lia..|done].
    + intros p Hp. rewrite Hout by done. unfold fs1. rewrite lookup_insert_ne; [done|]. intros <-. apply Hp.
      rewrite elem_of_map_seqZ. eauto.
Qed.

(** ** Whole map tasks *)

Section MapTask.
Context (reply : get_task_reply) (app_name dir filename : list Z) (current_app : app).
Hypothesis Happ : r_app reply = Some app_name.
Hypothesis Hget : get_app qsort app_name = Some current_app.
Hypothesis Hdir : r_output_dir reply = Some dir.
Hypothesis Htask : 0 <= r_task reply.
Hypothesis HR : 0 < r_n_reduce reply < 2 ^ 31.
#[local] Abbreviation tmp := (TMP_FILE_FORMAT_STR dir (r_task reply)).

Lemma handle_map_task_Ret contents kvs fs : r_file reply = Some filename ->
  (forall r, 0 <= r < r_n_reduce reply -> can_write (tmp r) = true) ->
  (forall r, filename <> tmp r) -> fs !! filename = Some contents -> malloc_ok (Z.of_nat (length contents)) = true ->
  app_map current_app (mk_kv filename contents) (aux_of reply) = Ret kvs ->
  exists fs', handle_map_task can_write malloc_ok qsort reply fs = Ret (0, fs') /\
    (forall r, 0 <= r < r_n_reduce reply -> fs' !! tmp r = Some (kv_stream (partition (r_n_reduce reply) r kvs))) /\
    (forall p, (forall r, 0 <= r < r_n_reduce reply -> p <> tmp r) -> fs' !! p = fs !! p).
Proof.
  intros Hfile Hw Hne Hfs Hm Hmap. set (R := r_n_reduce reply) in *.
  set (new := map tmp (seqZ 0 R)).
  destruct (write_map_kvs_Ret tmp R HR) with (kvs := kvs) (fs := truncated new fs) as (fs' & Hrun & Hin & Hout).
  { intros r r' _ _ H. by apply tmp_path_inj in H as [_ ->]. }
  { intros r Hr. rewrite truncated_lookup, decide_True; [eauto|]. unfold new. rewrite elem_of_map_seqZ. eauto. }
  exists fs'. split; [|split].
  - unfold handle_map_task. rewrite Happ. cbn [deref]. rewrite bind_lift_Ret, Hget. fold R.
    replace (R <=? 0) with false by lia. rewrite Hdir. cbn [deref]. rewrite bind_lift_Ret. unfold bind at 1.
    rewrite (open_map_writers_Ret dir (r_task reply) (Z.to_nat R)) by (intros; apply Hw; lia).
    cbn [obind]. rewrite app_nil_l, Z2Nat.id by lia. rewrite Hfile. cbn [deref]. rewrite bind_lift_Ret. unfold bind at 1, gets. cbn [obind].
    fold new. unfold read_all. rewrite truncated_lookup, decide_False, Hfs, Hm.
    2: { unfold new. rewrite elem_of_map_seqZ. intros (r & _ & H). by apply (Hne r). }
    unfold map_file. rewrite Hmap, bind_lift_Ret. unfold bind at 1. fold new in Hrun. by rewrite Hrun.
  - intros r Hr. rewrite (Hin r []); [done|done|]. rewrite truncated_lookup, decide_True; [done|].
    unfold new. rewrite elem_of_map_seqZ. eauto.
  - intros p Hp. assert (p ∉ new).
    { unfold new. rewrite elem_of_map_seqZ. intros (r & Hr & ->). by apply (Hp r). }
    by rewrite Hout, truncated_lookup, decide_False.
Qed.
End MapTask.

(** * Reduce tasks *)

Lemma open_reduce_readers_Ret dir task kvss : forall i readers entries fs,
  (forall k kvs, kvss !! k = Some kvs ->
     fs !! TMP_FILE_FORMAT_STR dir (i + Z.of_nat k) task = Some (kv_stream kvs) /\ Forall (kv_readable malloc_ok) kvs) ->
  open_reduce_readers malloc_ok (length kvss) i dir task readers entries fs =
  Ret (Some (readers ++ map kv_stream kvss, entries + 2 * Z.of_nat (length (concat kvss))), fs).
Proof.
  induction kvss as [|kvs kvss IH]; intros i readers entries fs H.
  - cbn. by rewrite app_nil_r, Z.add_0_r.
  - destruct (H 0%nat kvs eq_refl) as [Hfs Hk]. rewrite Z.add_0_r in Hfs.
    cbn [length open_reduce_readers]. unfold bind at 1, gets. cbn [obind]. unfold ldr_init. rewrite Hfs.
    unfold kv_stream at 1. rewrite ldr_count_Ret by (by apply kv_records_readable). rewrite bind_lift_Ret.
    rewrite IH.
    + cbn [map concat]. rewrite length_app, length_kv_records, <- app_assoc. cbn. do 4 f_equal. lia.
    + intros k kvs' Hk'. replace (i + 1 + Z.of_nat k) with (i + Z.of_nat (S k)) by lia. by apply H.
Qed.

(** The runs of entries that [by_key] does not distinguish from their first. *)
Fixpoint same_key (kv : key_value) (l : list key_value) : nat :=
  match l with
  | [] => O
  | x :: l => if by_key kv x =? 0 then S (same_key kv l) else O
  end.
Fixpoint groups (fuel : nat) (l : list key_value) : list (list key_value) :=
  match fuel, l with
  | S fuel, kv :: l => (kv :: take (same_key kv l) l) :: groups fuel (drop (same_key kv l) l)
  | _, _ => []
  end.

Lemma same_key_le kv l : (same_key kv l <= length l)%nat.
Proof. induction l as [|x l IH]; cbn; [lia|]. destruct (_ =? 0); lia. Qed.
Lemma same_key_take kv l : Forall (fun x => by_key kv x = 0) (take (same_key kv l) l).
Proof.
  induction l as [|x l IH]; cbn; [constructor|]. destruct (by_key kv x =? 0) eqn:E; [|constructor].
  constructor; [lia|done].
Qed.
Lemma same_key_next kv l x rest : drop (same_key kv l) l = x :: rest -> by_key kv x <> 0.
Proof.
  induction l as [|y l IH]; cbn; [done|]. destruct (by_key kv y =? 0) eqn:E; [apply IH|]. intros [= -> _]. lia.
Qed.

Section Groups.
Context (reduce : list Z -> list key_value -> list Z -> outcome key_value) (aux writer : list Z).

(** One result per group. *)
Definition reduced (g : list key_value) (out : key_value) : Prop :=
  exists kv rest, g = kv :: rest /\ reduce (kv_key kv) g aux = Ret out.

Lemma aread_app {A} (pre l : list A) x i : l !! i = Some x -> aread (pre ++ l) (Z.of_nat (length pre + i)) = Ret x.
Proof.
  intros H. unfold aread, aget. replace (0 <=? _) with true by lia.
  rewrite Nat2Z.id, lookup_app_r by lia. by replace (_ - _)%nat with i by lia; rewrite H.
Qed.

Lemma reduce_loop_skip pre kv l n fuel fs : (n <= same_key kv l)%nat ->
  reduce_loop (n + fuel) writer (pre ++ kv :: l) (Z.of_nat (length pre)) (Z.of_nat (length pre) + 1) reduce aux fs =
  reduce_loop fuel writer (pre ++ kv :: l) (Z.of_nat (length pre)) (Z.of_nat (length pre) + 1 + Z.of_nat n) reduce aux fs.
Proof.
  revert fuel. induction n as [|n IH]; intros fuel Hn; [by rewrite Z.add_0_r|].
  replace (S n + fuel)%nat with (n + S fuel)%nat by lia. rewrite IH by lia. cbn [reduce_loop].
  destruct (lookup_lt_is_Some_2 l n) as [x Hx]; [pose proof (same_key_le kv l); lia|].
  assert (Hzero : by_key kv x = 0).
  { pose proof (same_key_take kv l) as H. rewrite Forall_lookup in H. apply (H n x). rewrite lookup_take_lt by lia. done. }
  rewrite length_app. cbn [length]. pose proof (lookup_lt_Some _ _ _ Hx).
  replace (_ <? _) with true by lia. replace (Z.of_nat (length pre)) with (Z.of_nat (length pre + 0)) at 1 by lia.
  rewrite (aread_app pre (kv :: l) kv 0 eq_refl), bind_lift_Ret. replace (_ <=? _) with false by lia.
  replace (Z.of_nat (length pre) + 1 + Z.of_nat n) with (Z.of_nat (length pre + S n)) at 1 by lia.
  rewrite (aread_app pre (kv :: l) x (S n) Hx). unfold bind at 1. rewrite bind_lift_Ret. unfold ret at 1. cbn [obind].
  rewrite Hzero. cbn [Z.eqb negb]. f_equal. lia.
Qed.

Lemma write_two fs c kv : fs !! writer = Some c ->
  ldw_write (ldw_write fs writer (kv_key kv)) writer (kv_value kv) =
  <[writer := c ++ record_bytes (kv_key kv) ++ record_bytes (kv_value kv)]> fs.
Proof. intros Hc. unfold ldw_write. rewrite Hc, lookup_insert_eq, insert_insert_eq. by rewrite app_assoc. Qed.

(** The head of the loop at the end of a run. *)
Lemma reduce_loop_emit pre kv l fuel fs c out : let n := same_key kv l in
  reduce (kv_key kv) (kv :: take n l) aux = Ret out -> fs !! writer = Some c ->
  reduce_loop (S fuel) writer (pre ++ kv :: l) (Z.of_nat (length pre)) (Z.of_nat (length pre) + 1 + Z.of_nat n) reduce aux fs =
  reduce_loop fuel writer (pre ++ kv :: l) (Z.of_nat (length pre) + 1 + Z.of_nat n)
    (Z.of_nat (length pre) + 1 + Z.of_nat n + 1) reduce aux
    (<[writer := c ++ record_bytes (kv_key out) ++ record_bytes (kv_value out)]> fs).
Proof.
  intros n Hr Hc. cbn [reduce_loop]. rewrite length_app. cbn [length]. replace (_ <? _) with true by lia.
  replace (Z.of_nat (length pre)) with (Z.of_nat (length pre + 0)) at 1 by lia.
  rewrite (aread_app pre (kv :: l) kv 0 eq_refl), bind_lift_Ret.
  assert (Hend : forall k : bool -> ST (gmap (list Z) (list Z)) unit,
    bind (if Z.of_nat (length pre + S (length l)) <=? Z.of_nat (length pre) + 1 + Z.of_nat n then ret true
          else let! second := lift (aread (pre ++ kv :: l) (Z.of_nat (length pre) + 1 + Z.of_nat n)) in
               ret (negb (by_key kv second =? 0))) k fs = k true fs).
  { intros k. destruct (_ <=? _) eqn:E; [done|].
    destruct (drop n l) as [|x rest] eqn:Hd.
    { apply (f_equal length) in Hd. rewrite length_drop in Hd. cbn in Hd. lia. }
    assert (Hx : l !! n = Some x) by (rewrite <- (Nat.add_0_r n), <- lookup_drop, Hd; done).
    replace (Z.of_nat (length pre) + 1 + Z.of_nat n) with (Z.of_nat (length pre + S n)) by lia.
    rewrite (aread_app pre (kv :: l) x (S n) Hx). unfold bind at 1. rewrite bind_lift_Ret. unfold ret. cbn [obind].
    apply same_key_next in Hd. by replace (by_key kv x =? 0) with false by lia. }
  rewrite Hend. replace (_ <? _) with true by lia.
  replace (Z.to_nat (_ - _)) with (S n) by lia. rewrite Nat2Z.id, drop_app_length. cbn [take]. fold n.
  rewrite Hr. unfold bind at 1. rewrite bind_lift_Ret. unfold bind at 1, write_record, modify. cbn [obind].
  by rewrite write_two with (c := c).
Qed.

Lemma reduce_loop_Ret m : forall l pre outs fs c fuel, (length l <= m)%nat ->
  Forall2 reduced (groups m l) outs -> fs !! writer = Some c -> (length l < fuel)%nat ->
  reduce_loop fuel writer (pre ++ l) (Z.of_nat (length pre)) (Z.of_nat (length pre) + 1) reduce aux fs =
  Ret (tt, <[writer := c ++ kv_stream outs]> fs).
Proof.
  induction m as [|m IH]; intros [|kv l] pre outs fs c fuel Hm H2 Hc Hf; cbn [length] in *; try lia.
  1, 2: destruct fuel; [lia|]; inversion H2; subst; cbn [reduce_loop]; rewrite app_nil_r, Z.ltb_irrefl;
        unfold ret; by rewrite app_nil_r, insert_id.
  cbn [groups] in H2. apply Forall2_cons_inv_l in H2 as (out & outs' & (kv' & rest & Heq & Hr) & H2 & ->).
  injection Heq as <- <-. set (n := same_key kv l) in *. pose proof (same_key_le kv l) as Hn. fold n in Hn.
  replace fuel with (n + S (fuel - S n))%nat by lia. rewrite reduce_loop_skip by done.
  unfold n. rewrite (reduce_loop_emit pre kv l _ fs c out) by done. fold n.
  replace (pre ++ kv :: l) with ((pre ++ kv :: take n l) ++ drop n l) by (rewrite <- app_assoc; cbn; by rewrite take_drop).
  replace (Z.of_nat (length pre) + 1 + Z.of_nat n) with (Z.of_nat (length (pre ++ kv :: take n l)))
    by (rewrite length_app; cbn [length]; rewrite length_take; lia).
  rewrite (IH (drop n l) (pre ++ kv :: take n l) outs' _ (c ++ record_bytes (kv_key out) ++ record_bytes (kv_value out)));
    [|rewrite length_drop; lia|done|by rewrite lookup_insert_eq|rewrite length_drop; lia].
  rewrite insert_insert_eq, kv_stream_cons. by rewrite <- !app_assoc.
Qed.
End Groups.

(** ** Groups of a sorted list *)

Lemma groups_sorted m : forall l, (length l <= m)%nat -> Forall (fun kv => ordinary (kv_key kv)) l ->
  StronglySorted (fun a b => by_key a b <= 0) l ->
  exists ks, NoDup ks /\ (forall k, k ∈ ks <-> k ∈ map kv_key l) /\
    Forall2 (fun k g => g = filter (has_key k) l /\ exists kv rest, g = kv :: rest /\ kv_key kv = k) ks (groups m l).
Proof.
  induction m as [|m IH]; intros [|kv l] Hm Ho Hs; cbn [length] in *; try lia.
  1, 2: exists []; split; [constructor|]; split; [done|constructor].
  cbn [groups]. set (n := same_key kv l). apply Forall_cons in Ho as [Hkv Ho].
  apply StronglySorted_inv in Hs as [Hs Hle].
  pose proof (take_drop n l) as Hl. pose proof (same_key_take kv l) as Hsame. fold n in Hsame.
  assert (Hot : Forall (fun kv => ordinary (kv_key kv)) (take n l)) by by apply Forall_take.
  assert (Hod : Forall (fun kv => ordinary (kv_key kv)) (drop n l)) by by apply Forall_drop.
  assert (Hin : forall x, x ∈ take n l -> kv_key x = kv_key kv).
  { intros x Hx. rewrite Forall_forall in Hsame, Hot. symmetry. apply by_key_eq; auto. }
  assert (Hsd : StronglySorted (fun a b => by_key a b <= 0) (drop n l)).
  { rewrite <- Hl in Hs. by apply StronglySorted_app_1_r in Hs. }
  assert (Hout : forall x, x ∈ drop n l -> kv_key x <> kv_key kv).
  { intros x Hx Heq. destruct (drop n l) as [|y rest] eqn:Hd; [set_solver|].
    pose proof (same_key_next kv l y rest Hd) as Hy. rewrite Forall_forall in Hod, Hle.
    assert (Hyl : y ∈ l) by (rewrite <- Hl; set_solver). pose proof (Hle y Hyl) as Hky.
    assert (Hyx : by_key y x <= 0).
    { apply StronglySorted_inv in Hsd as [_ Hall]. rewrite Forall_forall in Hall.
      apply elem_of_cons in Hx as [->|Hx]; [|by apply Hall]. apply Z.eq_le_incl, by_key_eq; auto; set_solver. }
    apply Hy, by_key_eq; [done|apply Hod; set_solver|].
    rewrite by_key_le in Hky, Hyx by (auto; apply Hod; set_solver). rewrite Heq, lex_sym in Hyx.
    destruct (lex (kv_key kv) (kv_key y)) eqn:E; [by apply lex_Eq|done|done]. }
  destruct (IH (drop n l)) as (ks & Hnd & Hks & Hgs); [rewrite length_drop; lia|done|done|].
  exists (kv_key kv :: ks). split; [|split].
  - constructor; [|done]. rewrite Hks. rewrite list_elem_of_fmap. intros (x & Hx & Hx'). by apply (Hout x).
  - intros k. cbn [map]. rewrite !elem_of_cons, Hks. rewrite <- Hl at 2. rewrite map_app, elem_of_app.
    split; [tauto|]. intros [->|[H|H]]; [by left| |by right].
    apply list_elem_of_fmap in H as (x & -> & Hx). left. by apply Hin.
  - constructor.
    + split; [|eauto]. rewrite filter_cons_True by done. f_equal. rewrite <- Hl at 2. rewrite filter_app.
      rewrite list_filter_all by (intros; by apply Hin).
      rewrite (list_filter_none (has_key (kv_key kv)) (drop n l)) by (intros; by apply Hout). by rewrite app_nil_r.
    + eapply Forall2_impl; [exact Hgs|].
      intros k g (-> & kv' & rest & Hg & Hk). split; [|eauto].
      assert (Hne : kv_key kv <> k).
      { intros <-. assert (Hx : kv' ∈ filter (has_key (kv_key kv)) (drop n l)) by (rewrite Hg; by left).
        apply list_elem_of_filter in Hx as [_ Hx]. by apply (Hout kv'). }
      rewrite filter_cons_False by done. rewrite <- Hl at 2. rewrite filter_app.
      rewrite (list_filter_none (has_key k) (take n l)); [done|].
      intros x Hx Hx'. apply Hne. rewrite <- Hx'. symmetry. by apply Hin.
Qed.

(** ** Whole reduce tasks *)

(** [out] is the result for key [k] of the pairs [all]. *)
Definition result_of (reduce : list Z -> list key_value -> list Z -> outcome key_value) (aux : list Z)
    (all : list key_value) (k : list Z) (out : key_value) : Prop :=
  exists vs, vs ≡ₚ filter (has_key k) all /\ reduce k vs aux = Ret out.

Lemma qsort_ordinary all : Forall (fun kv => ordinary (kv_key kv)) all ->
  Forall (fun kv => ordinary (kv_key kv)) (qsort by_key all) /\
  StronglySorted (fun a b => by_key a b <= 0) (qsort by_key all).
Proof. intros H. split; [by rewrite qsort_perm|]. by apply qsort_sorted, by_key_preorder. Qed.

Lemma reduce_groups reduce aux all : Forall (fun kv => ordinary (kv_key kv)) all ->
  (forall k vs, vs <> [] -> vs ≡ₚ filter (has_key k) all -> exists out, reduce k vs aux = Ret out) ->
  let gs := groups (length (qsort by_key all)) (qsort by_key all) in
  exists ks outs, NoDup ks /\ (forall k, k ∈ ks <-> k ∈ map kv_key all) /\
    Forall2 (reduced reduce aux) gs outs /\ Forall2 (result_of reduce aux all) ks outs.
Proof.
  intros Ho Hred. cbv zeta. destruct (qsort_ordinary all Ho) as [Hq Hs].
  destruct (groups_sorted _ _ (le_n _) Hq Hs) as (ks & Hnd & Hks & Hgs).
  exists ks.
  assert (Houts : exists outs, Forall2 (reduced reduce aux) (groups (length (qsort by_key all)) (qsort by_key all)) outs /\
    Forall2 (result_of reduce aux all) ks outs).
  { clear Hnd Hks. revert Hgs. generalize (groups (length (qsort by_key all)) (qsort by_key all)).
    intros gs H. induction H as [|k g ks gs (Hg & kv & rest & Heq & Hk) _ (outs & H1 & H2)].
    - exists []. by split.
    - assert (Hp : g ≡ₚ filter (has_key k) all) by (rewrite Hg; by rewrite qsort_perm).
      destruct (Hred k g) as [out Hout]; [by rewrite Heq|done|].
      exists (out :: outs). split; constructor; [|done| |done].
      + exists kv, rest. subst k. by split.
      + by exists g. }
  destruct Houts as (outs & H1 & H2). exists outs. split_and!; [done| |done|done].
  intros k. rewrite Hks. by rewrite qsort_perm.
Qed.

Section ReduceTask.
Context (reply : get_task_reply) (app_name dir : list Z) (current_app : app).
Hypothesis Happ : r_app reply = Some app_name.
Hypothesis Hget : get_app qsort app_name = Some current_app.
Hypothesis Hdir : r_output_dir reply = Some dir.
#[local] Abbreviation output := (OUTPUT_FILE_FORMAT_STR dir (r_task reply)).

Lemma handle_reduce_task_Ret kvss fs : r_n_map reply = Z.of_nat (length kvss) -> kvss <> [] ->
  (forall i kvs, kvss !! i = Some kvs ->
     fs !! TMP_FILE_FORMAT_STR dir (Z.of_nat i) (r_task reply) = Some (kv_stream kvs) /\ Forall (kv_readable malloc_ok) kvs) ->
  can_write output = true -> malloc_ok (32 * Z.of_nat (length (concat kvss))) = true ->
  Forall (fun kv => ordinary (kv_key kv)) (concat kvss) ->
  (forall k vs, vs <> [] -> vs ≡ₚ filter (has_key k) (concat kvss) ->
     exists out, app_reduce current_app k vs (aux_of reply) = Ret out) ->
  exists ks outs, handle_reduce_task can_write malloc_ok qsort reply fs = Ret (0, <[output := kv_stream outs]> fs) /\
    NoDup ks /\ (forall k, k ∈ ks <-> k ∈ map kv_key (concat kvss)) /\
    Forall2 (result_of (app_reduce current_app) (aux_of reply) (concat kvss)) ks outs.
Proof.
  intros Hn Hne Hfs Hw Hm Ho Hred. set (all := concat kvss) in *.
  destruct (reduce_groups (app_reduce current_app) (aux_of reply) all Ho Hred) as (ks & outs & Hnd & Hks & Hg & Hres).
  exists ks, outs. split; [|done]. unfold handle_reduce_task. rewrite Happ. cbn [deref]. rewrite bind_lift_Ret. cbv zeta.
  assert (0 < r_n_map reply) by (destruct kvss; [done|cbn in Hn; lia]).
  replace (r_n_map reply <=? 0) with false by lia. rewrite Hdir. cbn [deref]. rewrite bind_lift_Ret.
  unfold bind at 1. rewrite Hn, Nat2Z.id, open_reduce_readers_Ret by done.
  cbn [obind]. rewrite app_nil_l, Z.add_0_l. fold all. rewrite (Z.mul_comm 2), Z.mod_mul by lia. cbn [Z.eqb].
  unfold bind at 1, open_reduce_writer, bind at 1, init_writer, ldw_init. rewrite Hw. cbn [obind]. unfold ret at 1. cbn [obind].
  rewrite Z.eqb_refl, Z.div_mul by lia. destruct (0 <? Z.of_nat (length all)) eqn:E.
  - unfold read_map_kvs. rewrite Hm, Nat2Z.id.
    rewrite read_readers_Ret; [|apply Forall_lookup; intros i kvs Hi; by apply (Hfs i)|done]. fold all.
    rewrite Hget. cbn [option_map deref]. rewrite bind_lift_Ret. unfold bind at 1, reduce_kvs.
    pose proof (reduce_loop_Ret (app_reduce current_app) (aux_of reply) output (length (qsort by_key all)) (qsort by_key all)
      [] outs (<[output := []]> fs) [] (S (length (qsort by_key all))) (le_n _) Hg) as Hloop.
    change (Z.of_nat (length (@nil key_value))) with 0 in Hloop. change (0 + 1) with 1 in Hloop. rewrite !app_nil_l in Hloop.
    rewrite Hloop by (done || lia || by rewrite lookup_insert_eq). cbn [obind]. by rewrite insert_insert_eq.
  - assert (all = []) as Hall by (destruct all; [done|cbn in E; lia]).
    assert (outs = []) as ->; [|done].
    apply Forall2_length in Hres. destruct ks as [|k ks]; [by destruct outs|].
    assert (k ∈ map kv_key all) by (apply Hks; by left). rewrite Hall in *. set_solver.
Qed.
End ReduceTask.
End Tasks.
