(* ===== verification/Coordinator.v ===== *)
(** The MapReduce coordinator (hw-map-reduce/coordinator/coordinator.c): jobs, the queue of
    unfinished jobs, and the four remote procedures by which clients submit and poll jobs and workers
    fetch and finish tasks. *)
From S2P Require Import Prelude KStdlib MrLib MrApps.

(** * Definitions

    A [malloc]ed array is null, freed, or live with its contents; an access to anything but a live
    array, or outside of it, is undefined behaviour, and so is freeing twice. *)
Inductive ptr (A : Type) := Null | Freed | Live (a : A).
Arguments Null {A}.
Arguments Freed {A}.
Arguments Live {A} a.

Definition deref_ptr {A} (p : ptr A) : outcome A := match p with Live a => Ret a | _ => UB end.
Definition pread {A} (p : ptr (list A)) (i : Z) : outcome A := let? l := deref_ptr p in aread l i.
Definition pwrite {A} (p : ptr (list A)) (i : Z) (x : A) : outcome (ptr (list A)) :=
  let? l := deref_ptr p in let? l := aset l i x in Ret (Live l).
Definition c_free {A} (p : ptr A) : outcome (ptr A) :=
  match p with Null => Ret Null | Freed => UB | Live _ => Ret Freed end.

Record job := mk_job {
  job_id : Z;
  map_time : ptr (list Z);
  n_reduce : Z;
  j_files : ptr (list cstr);
  map_finished : Z;
  map_success : ptr (list bool);
  reduce_finished : Z;
  reduce_success : ptr (list bool);
  reduce_time : ptr (list Z);
  j_args : option cstr;
  j_output_dir : option cstr;
  j_app : option cstr;
  n_map : Z;
  done : bool;
  failed : bool }.

Record poll_job_reply := mk_poll { p_done : bool; p_failed : bool; p_invalid_job_id : bool }.

(** [s_args] is the array [args_val], null when no bytes were sent. *)
Record submit_job_request := mk_submit {
  s_files : list cstr; s_output_dir : cstr; s_app : cstr; s_n_reduce : Z; s_args : option (list Z) }.

(** The globals [state] and [all_job], the static replies of the procedures, the clock, and the
    answers of the next allocations (success once used up).  [later] holds by how much the clock
    advances at each of its next readings. *)
Record coordinator := mk_coord {
  next_id : Z;
  waiting_queue : list Z;
  all_job : gmap Z job;
  poll_result : poll_job_reply;
  task_result : get_task_reply;
  now : Z;
  later : list Z;
  c_mallocs : list bool;
  made_dirs : list path }.

Definition set_next_id (s : coordinator) (n : Z) : coordinator :=
  mk_coord n (waiting_queue s) (all_job s) (poll_result s) (task_result s) (now s) (later s) (c_mallocs s) (made_dirs s).
Definition set_queue (s : coordinator) (q : list Z) : coordinator :=
  mk_coord (next_id s) q (all_job s) (poll_result s) (task_result s) (now s) (later s) (c_mallocs s) (made_dirs s).
Definition set_jobs (s : coordinator) (m : gmap Z job) : coordinator :=
  mk_coord (next_id s) (waiting_queue s) m (poll_result s) (task_result s) (now s) (later s) (c_mallocs s) (made_dirs s).
Definition set_poll (s : coordinator) (r : poll_job_reply) : coordinator :=
  mk_coord (next_id s) (waiting_queue s) (all_job s) r (task_result s) (now s) (later s) (c_mallocs s) (made_dirs s).
Definition set_task (s : coordinator) (r : get_task_reply) : coordinator :=
  mk_coord (next_id s) (waiting_queue s) (all_job s) (poll_result s) r (now s) (later s) (c_mallocs s) (made_dirs s).
Definition set_clock (s : coordinator) (t : Z) (l : list Z) : coordinator :=
  mk_coord (next_id s) (waiting_queue s) (all_job s) (poll_result s) (task_result s) t l (c_mallocs s) (made_dirs s).
Definition set_mallocs (s : coordinator) (l : list bool) : coordinator :=
  mk_coord (next_id s) (waiting_queue s) (all_job s) (poll_result s) (task_result s) (now s) (later s) l (made_dirs s).
Definition set_made (s : coordinator) (l : list path) : coordinator :=
  mk_coord (next_id s) (waiting_queue s) (all_job s) (poll_result s) (task_result s) (now s) (later s) (c_mallocs s) l.

Abbreviation C := (ST coordinator) (only parsing).

Definition time_NULL : C Z := fun s =>
  match later s with
  | [] => Ret (now s, s)
  | d :: l => Ret (now s + d, set_clock s (now s + d) l)
  end.

(** A negative size is a huge [size_t], which no allocation satisfies. *)
Definition c_malloc (size : Z) : C bool := fun s =>
  if size <? 0 then Ret (false, s)
  else match c_mallocs s with
       | [] => Ret (true, s)
       | ok :: l => Ret (ok, set_mallocs s l)
       end.
Definition strdup (str : option cstr) : C (option cstr) :=
  let! str := lift (deref str) in
  let! ok := c_malloc (Z.of_nat (length str) + 1) in
  ret (if ok : bool then Some str else None).

Definition get_job (id : Z) : C job := fun s => let? j := deref (all_job s !! id) in Ret (j, s).
Definition put_job (id : Z) (j : job) : C unit := modify (fun s => set_jobs s (<[id := j]> (all_job s))).

(** ** Helpers *)

Fixpoint duplicate_files_loop (files_val : list cstr) (files : list cstr) : C (option (list cstr)) :=
  match files_val with
  | [] => ret (Some files)
  | f :: files_val =>
      let! dup := strdup (Some f) in
      match dup with
      | None => ret None
      | Some f => duplicate_files_loop files_val (files ++ [f])
      end
  end.
Definition duplicate_files (files_val : list cstr) : C (option (list cstr)) :=
  let! ok := c_malloc (8 * Z.of_nat (length files_val)) in
  if negb ok then ret None else duplicate_files_loop files_val [].

Definition allocate_bool_array (len : Z) (init_value : bool) : C (ptr (list bool)) :=
  let! ok := c_malloc len in
  ret (if ok : bool then Live (replicate (Z.to_nat len) init_value) else Null).
Definition allocate_time_t_array (len : Z) : C (ptr (list Z)) :=
  let! ok := c_malloc (8 * len) in
  ret (if ok : bool then Live (replicate (Z.to_nat len) 0) else Null).

Definition get_job_by_id (job_id : Z) : C (option job) :=
  gets (fun s => if (size (all_job s) =? 0)%nat then None else all_job s !! job_id).

Definition TASK_TIMEOUT_SECS : Z := 10.

(** [reply->args.args_val] keeps its old value when the job has no arguments, and [reply->file] when
    the task is a reduce task. *)
Definition init_task_reply (reply : get_task_reply) (job : job) (task : Z) (reduce : bool) : C get_task_reply :=
  let! file := (if reduce then ret (r_file reply)
                else let! f := lift (pread (j_files job) task) in strdup (Some f)) in
  let! output_dir := strdup (j_output_dir job) in
  let! app := strdup (j_app job) in
  let! (args_len, args_val) :=
    match j_args job with
    | None => ret (0, r_args_val reply)
    | Some args => let! dup := strdup (Some args) in ret (Z.of_nat (length args), dup)
    end in
  ret (mk_reply (job_id job) task file output_dir app (n_reduce job) (n_map job) reduce false args_len args_val).

(** The scan of one array of tasks for one that timed out. *)
Fixpoint expired_loop (n : nat) (i : Z) (times : ptr (list Z)) (success : ptr (list bool)) : C (option Z) :=
  match n with
  | O => ret None
  | S n =>
      let! t := lift (pread times i) in
      if t =? 0 then expired_loop n (i + 1) times success
      else
        let! clock := time_NULL in
        if TASK_TIMEOUT_SECS <=? clock - t then
          let! ok := lift (pread success i) in
          if negb ok then ret (Some i) else expired_loop n (i + 1) times success
        else expired_loop n (i + 1) times success
  end.

Definition set_map_time (j : job) (p : ptr (list Z)) : job :=
  mk_job (job_id j) p (n_reduce j) (j_files j) (map_finished j) (map_success j) (reduce_finished j) (reduce_success j)
    (reduce_time j) (j_args j) (j_output_dir j) (j_app j) (n_map j) (done j) (failed j).
Definition set_reduce_time (j : job) (p : ptr (list Z)) : job :=
  mk_job (job_id j) (map_time j) (n_reduce j) (j_files j) (map_finished j) (map_success j) (reduce_finished j) (reduce_success j)
    p (j_args j) (j_output_dir j) (j_app j) (n_map j) (done j) (failed j).
Definition set_done (j : job) (d f : bool) : job :=
  mk_job (job_id j) (map_time j) (n_reduce j) (j_files j) (map_finished j) (map_success j) (reduce_finished j) (reduce_success j)
    (reduce_time j) (j_args j) (j_output_dir j) (j_app j) (n_map j) d f.
Definition set_map_done (j : job) (n : Z) (p : ptr (list bool)) : job :=
  mk_job (job_id j) (map_time j) (n_reduce j) (j_files j) n p (reduce_finished j) (reduce_success j)
    (reduce_time j) (j_args j) (j_output_dir j) (j_app j) (n_map j) (done j) (failed j).
Definition set_reduce_done (j : job) (n : Z) (p : ptr (list bool)) : job :=
  mk_job (job_id j) (map_time j) (n_reduce j) (j_files j) (map_finished j) (map_success j) n p
    (reduce_time j) (j_args j) (j_output_dir j) (j_app j) (n_map j) (done j) (failed j).

(** The task is written to the static reply and its time is taken. *)
Definition assign_map (id : Z) (j : job) (i : Z) : C unit :=
  let! old := gets task_result in
  let! reply := init_task_reply old j i false in
  let! _ := modify (fun s => set_task s reply) in
  let! t := time_NULL in
  let! times := lift (pwrite (map_time j) i t) in
  put_job id (set_map_time j times).
Definition assign_reduce (id : Z) (j : job) (i : Z) : C unit :=
  let! old := gets task_result in
  let! reply := init_task_reply old j i true in
  let! _ := modify (fun s => set_task s reply) in
  let! t := time_NULL in
  let! times := lift (pwrite (reduce_time j) i t) in
  put_job id (set_reduce_time j times).

Definition find_expired_task (id : Z) : C bool :=
  let! j := get_job id in
  let! found := expired_loop (Z.to_nat (n_map j)) 0 (map_time j) (map_success j) in
  match found with
  | Some i => let! _ := assign_map id j i in ret true
  | None =>
      if map_finished j =? n_map j then
        let! found := expired_loop (Z.to_nat (n_reduce j)) 0 (reduce_time j) (reduce_success j) in
        match found with
        | Some i => let! _ := assign_reduce id j i in ret true
        | None => ret false
        end
      else ret false
  end.

Fixpoint unassigned_loop (n : nat) (i : Z) (times : ptr (list Z)) : C (option Z) :=
  match n with
  | O => ret None
  | S n =>
      let! t := lift (pread times i) in
      if t =? 0 then ret (Some i) else unassigned_loop n (i + 1) times
  end.

Definition find_unassigned_task (id : Z) : C bool :=
  let! j := get_job id in
  let! found := unassigned_loop (Z.to_nat (n_map j)) 0 (map_time j) in
  match found with
  | Some i => let! _ := assign_map id j i in ret true
  | None =>
      if map_finished j =? n_map j then
        let! found := unassigned_loop (Z.to_nat (n_reduce j)) 0 (reduce_time j) in
        match found with
        | Some i => let! _ := assign_reduce id j i in ret true
        | None => ret false
        end
      else ret false
  end.

Fixpoint free_files (n : nat) (i : Z) (files : ptr (list cstr)) : outcome unit :=
  match n with
  | O => Ret tt
  | S n => let? _ := pread files i in free_files n (i + 1) files
  end.
Definition free_job_memory (j : job) : outcome job :=
  let? _ := free_files (Z.to_nat (n_map j)) 0 (j_files j) in
  let? files := c_free (j_files j) in
  let? ms := c_free (map_success j) in
  let? mt := c_free (map_time j) in
  let? rs := c_free (reduce_success j) in
  let? rt := c_free (reduce_time j) in
  Ret (mk_job (job_id j) mt (n_reduce j) files (map_finished j) ms (reduce_finished j) rs rt
         (j_args j) (j_output_dir j) (j_app j) (n_map j) (done j) (failed j)).

Definition update_job_info (j : job) (argp : finish_task_request) (success : bool) : outcome job :=
  if negb success then Ret (set_done j true true)
  else if ft_reduce argp then
    let? n := int_ (reduce_finished j + 1) in
    let? p := pwrite (reduce_success j) (ft_task argp) true in
    let j := set_reduce_done j n p in
    Ret (if n =? n_reduce j then set_done j true false else j)
  else
    let? n := int_ (map_finished j + 1) in
    let? p := pwrite (map_success j) (ft_task argp) true in
    Ret (set_map_done j n p).

(** ** The remote procedures *)

Definition example_1_svc (argp : Z) : outcome Z := int_ (argp + 1).

(** [strlen (args_val)] needs a terminator among the bytes received. *)
Definition args_string (args_val : option (list Z)) : outcome (option cstr) :=
  match args_val with
  | None => Ret None
  | Some l => if bool_decide (0 ∈ l) then Ret (match cstr_of l with [] => None | s => Some s end) else UB
  end.

Section Procedures.
Context (qsort : (key_value -> key_value -> Z) -> list key_value -> list key_value).

(** [None] is the null reply.  [stat_fails] is the answer of [stat] on the output directory. *)
Definition submit_job_1_svc (argp : submit_job_request) (stat_fails : bool) : C (option Z) :=
  let! id := gets next_id in
  let! result := lift (int_ (id + 1)) in
  let! _ := modify (fun s => set_next_id s result) in
  let! ok := c_malloc 104 in
  if negb ok then ret None
  else
    let! files := duplicate_files (s_files argp) in
    match files with
    | None => ret None
    | Some files =>
        let! output_dir := strdup (Some (s_output_dir argp)) in
        match get_app qsort (s_app argp) with
        | None => ret (Some (-1))
        | Some _ =>
            let! app := strdup (Some (s_app argp)) in
            let n_map := Z.of_nat (length (s_files argp)) in
            let! map_success := allocate_bool_array n_map false in
            let! map_time := allocate_time_t_array n_map in
            let! reduce_success := allocate_bool_array (s_n_reduce argp) false in
            let! reduce_time := allocate_time_t_array (s_n_reduce argp) in
            let! args := lift (args_string (s_args argp)) in
            let! args := match args with None => ret None | Some _ => strdup args end in
            let! _ := put_job result (mk_job result map_time (s_n_reduce argp) (Live files) 0 map_success 0 reduce_success
                                        reduce_time args output_dir app n_map false false) in
            let! _ := modify (fun s => set_queue s (waiting_queue s ++ [result])) in
            let! dirs := lift (if stat_fails then mkdirp (s_output_dir argp) else Ret []) in
            let! _ := modify (fun s => set_made s (made_dirs s ++ dirs)) in
            ret (Some result)
        end
    end.

(** Of an invalid job the other fields of the static reply stay what they were. *)
Definition poll_job_1_svc (argp : Z) : C poll_job_reply :=
  let! j := get_job_by_id argp in
  let! old := gets poll_result in
  let result := match j with
                | None => mk_poll (p_done old) (p_failed old) true
                | Some j => mk_poll (done j) (failed j) false
                end in
  let! _ := modify (fun s => set_poll s result) in
  ret result.

Fixpoint first_task (find : Z -> C bool) (queue : list Z) : C bool :=
  match queue with
  | [] => ret false
  | id :: queue =>
      let! found := find id in
      if found : bool then ret true else first_task find queue
  end.

Definition wait_reply (r : get_task_reply) : get_task_reply :=
  mk_reply (r_job_id r) (r_task r) (Some []) (Some []) (Some []) (r_n_reduce r) (r_n_map r) (r_reduce r) true 0 (r_args_val r).

Definition get_task_1_svc : C get_task_reply :=
  let! _ := modify (fun s => set_task s (wait_reply (task_result s))) in
  let! queue := gets waiting_queue in
  if (length queue =? 0)%nat then gets task_result
  else
    let! expired := first_task find_expired_task queue in
    if expired : bool then gets task_result
    else
      let! _ := first_task find_unassigned_task queue in
      gets task_result.

Fixpoint g_list_remove (l : list Z) (x : Z) : list Z :=
  match l with
  | [] => []
  | y :: l => if y =? x then l else y :: g_list_remove l x
  end.

Definition finish_task_1_svc (argp : finish_task_request) : C unit :=
  let! queue := gets waiting_queue in
  if (length queue =? 0)%nat then ret tt
  else if negb (existsb (Z.eqb (ft_job_id argp)) queue) then ret tt
  else
    let! j := get_job (ft_job_id argp) in
    let! j := lift (update_job_info j argp (ft_success argp)) in
    let! _ := put_job (ft_job_id argp) j in
    if done j then
      let! _ := modify (fun s => set_queue s (g_list_remove (waiting_queue s) (ft_job_id argp))) in
      let! j := lift (free_job_memory j) in
      put_job (ft_job_id argp) j
    else ret tt.

(** The static replies are zero at first. *)
Definition no_reply : get_task_reply := mk_reply 0 0 None None None 0 0 false false 0 None.
Definition coordinator_init (t : Z) (l : list Z) (mallocs : list bool) : coordinator :=
  mk_coord 0 [] ∅ (mk_poll false false false) no_reply t l mallocs [].
End Procedures.
