(* ===== verification/CoordinatorFacts.v ===== *)
(** The coordinator: every sequence of well-formed requests is served without undefined behaviour and
    keeps the queue of unfinished jobs exact; which task a worker is given; and that one worker brings
    a job to completion. *)
From S2P Require Import Prelude KStdlib MrLib MrApps Coordinator.

(** * The invariant *)

Definition array_of {A} (n : Z) (p : ptr (list A)) : Prop :=
  match p with
  | Live l => Z.of_nat (length l) = n
  | Null => n < 0
  | Freed => False
  end.

Record job_ok (id : Z) (j : job) : Prop := {
  jo_id : job_id j = id;
  jo_maps : 0 <= n_map j;
  jo_files : array_of (n_map j) (j_files j);
  jo_dir : is_Some (j_output_dir j);
  jo_app : is_Some (j_app j);
  jo_map_time : array_of (n_map j) (map_time j);
  jo_map_success : array_of (n_map j) (map_success j);
  jo_reduce_time : array_of (n_reduce j) (reduce_time j);
  jo_reduce_success : array_of (n_reduce j) (reduce_success j);
  jo_counts : 0 <= map_finished j /\ 0 <= reduce_finished j }.

(** The queue holds exactly the unfinished jobs, and those have their arrays. *)
Record coord_ok (s : coordinator) : Prop := {
  co_nodup : NoDup (waiting_queue s);
  co_queue id : id ∈ waiting_queue s <-> exists j, all_job s !! id = Some j /\ done j = false;
  co_ids id j : all_job s !! id = Some j -> 0 < id <= next_id s;
  co_next : 0 <= next_id s;
  co_jobs id j : all_job s !! id = Some j -> done j = false -> job_ok id j;
  co_mallocs : c_mallocs s = [] }.

(** ** Requests *)

Inductive request :=
  | Submit (argp : submit_job_request) (stat_fails : bool)
  | Poll (job_id : Z)
  | GetTask
  | Finish (argp : finish_task_request).
Inductive answer :=
  | Submitted (result : option Z)
  | Polled (reply : poll_job_reply)
  | Task (reply : get_task_reply)
  | Finished.

(** The answers of the other parts of the cluster are taken as they come: an identifier is left, the
    arguments of a job are a string and its output directory has a name, and a finished task is one
    of its job's, reported fewer than [INT_MAX] times. *)
Definition allowed (s : coordinator) (r : request) : Prop :=
  match r with
  | Submit argp stat_fails =>
      next_id s < INT_MAX /\ (forall l, s_args argp = Some l -> 0 ∈ l) /\ (stat_fails = true -> s_output_dir argp <> [])
  | Poll _ | GetTask => True
  | Finish argp =>
      forall j, all_job s !! ft_job_id argp = Some j -> done j = false -> ft_success argp = true ->
      if ft_reduce argp then 0 <= ft_task argp < n_reduce j /\ reduce_finished j < INT_MAX
      else 0 <= ft_task argp < n_map j /\ map_finished j < INT_MAX
  end.

Section Cluster.
Context (qsort : (key_value -> key_value -> Z) -> list key_value -> list key_value).

Definition serve (r : request) : ST coordinator answer :=
  match r with
  | Submit argp stat_fails => let! result := submit_job_1_svc qsort argp stat_fails in ret (Submitted result)
  | Poll id => let! reply := poll_job_1_svc id in ret (Polled reply)
  | GetTask => let! reply := get_task_1_svc in ret (Task reply)
  | Finish argp => let! _ := finish_task_1_svc argp in ret Finished
  end.

(** The states of a coordinator that was sent requests which satisfy [rule], and for which every allocation of
    a size that is not negative succeeds. *)
Inductive reachable (rule : coordinator -> request -> Prop) : coordinator -> Prop :=
  | reach_init t l : reachable rule (coordinator_init t l [])
  | reach_step s r a s' : reachable rule s -> rule s r -> serve r s = Ret (a, s') -> reachable rule s'.

(** * Lemmas *)

Lemma malloc_Ret size s : c_mallocs s = [] -> c_malloc size s = Ret (0 <=? size, s).
Proof. intros H. unfold c_malloc. rewrite H. destruct (Z.ltb_spec size 0), (Z.leb_spec 0 size); done || lia. Qed.
Lemma strdup_Ret str s : c_mallocs s = [] -> is_Some str -> strdup str s = Ret (str, s).
Proof.
  intros H [f ->]. unfold strdup. cbn [deref]. rewrite bind_lift_Ret. unfold bind. rewrite malloc_Ret by done. cbn [obind].
  by replace (0 <=? _) with true by lia.
Qed.
Definition contents {A} (p : ptr (list A)) : list A := match p with Live l => l | _ => [] end.

Lemma pread_Ret {A} (p : ptr (list A)) n i : array_of n p -> 0 <= i < n ->
  exists x, pread p i = Ret x /\ contents p !! Z.to_nat i = Some x.
Proof.
  intros H Hi. destruct p; cbn in H; [lia|done|]. destruct (aget_is_Some a i) as [x Hx]; [lia|].
  exists x. unfold pread, aread. cbn. rewrite Hx. split; [done|]. unfold aget in Hx. by replace (0 <=? i) with true in Hx by lia.
Qed.
Lemma pwrite_Ret {A} (p : ptr (list A)) n i x : array_of n p -> 0 <= i < n ->
  pwrite p i x = Ret (Live (<[Z.to_nat i := x]> (contents p))).
Proof.
  intros H Hi. destruct p; cbn in H; [lia|done|]. unfold pwrite. cbn.
  by rewrite (proj2 (aset_Ret a _ i x)) by (split; [lia|done]).
Qed.
Lemma array_of_pwrite {A} (p : ptr (list A)) n i x : array_of n p -> 0 <= i < n ->
  array_of n (Live (<[Z.to_nat i := x]> (contents p))).
Proof. intros H Hi. cbn. rewrite length_insert. destruct p; cbn in *; [lia|done|done]. Qed.
Lemma array_of_length {A} (p : ptr (list A)) n : array_of n p -> length (contents p) = Z.to_nat n.
Proof. destruct p; cbn; [lia|done|lia]. Qed.

(** ** Assigning a task *)

Definition task_reply (old : get_task_reply) (j : job) (i : Z) (reduce : bool) : get_task_reply :=
  mk_reply (job_id j) i (if reduce then r_file old else contents (j_files j) !! Z.to_nat i)
    (j_output_dir j) (j_app j) (n_reduce j) (n_map j) reduce false
    (match j_args j with None => 0 | Some args => Z.of_nat (length args) end)
    (match j_args j with None => r_args_val old | Some args => Some args end).

Lemma init_task_reply_Ret old id j i reduce s : c_mallocs s = [] -> job_ok id j ->
  (reduce = false -> 0 <= i < n_map j) -> init_task_reply old j i reduce s = Ret (task_reply old j i reduce, s).
Proof.
  intros Hm Hj Hi. destruct Hj. unfold init_task_reply, task_reply.
  assert (Hfile : (if reduce then ret (r_file old) else let! f := lift (pread (j_files j) i) in strdup (Some f)) s =
                  Ret (if reduce then r_file old else contents (j_files j) !! Z.to_nat i, s)).
  { destruct reduce; [done|]. destruct (pread_Ret (j_files j) (n_map j) i) as (f & Hf & Hc); [done|by apply Hi|].
    rewrite Hf, bind_lift_Ret, strdup_Ret by done. by rewrite Hc. }
  rewrite (bind_Ret _ _ _ _ _ Hfile). rewrite (bind_Ret _ _ (j_output_dir j) s s) by (by apply strdup_Ret).
  rewrite (bind_Ret _ _ (j_app j) s s) by (by apply strdup_Ret).
  destruct (j_args j) as [args|]; [|done].
  unfold bind at 1. rewrite (bind_Ret _ _ (Some args) s s) by (by apply strdup_Ret). done.
Qed.

(** The next reading of the clock. *)
Definition tick (s : coordinator) : Z := match later s with [] => now s | d :: _ => now s + d end.
Definition ticked (s : coordinator) : coordinator := match later s with [] => s | d :: l => set_clock s (now s + d) l end.
Lemma time_NULL_Ret s : time_NULL s = Ret (tick s, ticked s).
Proof. unfold time_NULL, tick, ticked. by destruct (later s). Qed.

Definition assigned_map (j : job) (i t : Z) : job := set_map_time j (Live (<[Z.to_nat i := t]> (contents (map_time j)))).
Definition assigned_reduce (j : job) (i t : Z) : job := set_reduce_time j (Live (<[Z.to_nat i := t]> (contents (reduce_time j)))).

(** The state with a task given out. *)
Definition given (s : coordinator) (id : Z) (j : job) (i : Z) (reduce : bool) : coordinator :=
  let s1 := set_task s (task_reply (task_result s) j i reduce) in
  set_jobs (ticked s1) (<[id := if reduce then assigned_reduce j i (tick s) else assigned_map j i (tick s)]> (all_job s)).

Lemma ticked_jobs s : all_job (ticked s) = all_job s.
Proof. unfold ticked. by destruct (later s). Qed.

Lemma assign_map_Ret s id j i : c_mallocs s = [] -> job_ok id j -> 0 <= i < n_map j ->
  assign_map id j i s = Ret (tt, given s id j i false).
Proof.
  intros Hm Hj Hi. unfold assign_map. rewrite bind_gets.
  rewrite (bind_Ret _ _ _ s s) by (eapply init_task_reply_Ret; eauto). rewrite bind_modify.
  rewrite (bind_Ret _ _ _ _ _ (time_NULL_Ret _)). rewrite (pwrite_Ret _ (n_map j)) by (apply Hj || done). rewrite bind_lift_Ret.
  unfold put_job, modify, given, assigned_map. cbv zeta. by rewrite ticked_jobs.
Qed.
Lemma assign_reduce_Ret s id j i : c_mallocs s = [] -> job_ok id j -> 0 <= i < n_reduce j ->
  assign_reduce id j i s = Ret (tt, given s id j i true).
Proof.
  intros Hm Hj Hi. unfold assign_reduce. rewrite bind_gets.
  rewrite (bind_Ret _ _ _ s s) by (eapply init_task_reply_Ret; eauto; done). rewrite bind_modify.
  rewrite (bind_Ret _ _ _ _ _ (time_NULL_Ret _)). rewrite (pwrite_Ret _ (n_reduce j)) by (apply Hj || done). rewrite bind_lift_Ret.
  unfold put_job, modify, given, assigned_reduce. cbv zeta. by rewrite ticked_jobs.
Qed.

(** ** Looking for a task *)

Definition same_but_clock (s s' : coordinator) : Prop := s' = set_clock s (now s') (later s').
Lemma same_but_clock_refl s : same_but_clock s s.
Proof. by destruct s. Qed.
Lemma same_but_clock_trans s1 s2 s3 : same_but_clock s1 s2 -> same_but_clock s2 s3 -> same_but_clock s1 s3.
Proof. intros H1 H2. unfold same_but_clock in *. rewrite H2 at 1. rewrite H1. done. Qed.
Lemma ticked_clock s : same_but_clock s (ticked s).
Proof. unfold ticked. destruct (later s); [apply same_but_clock_refl|done]. Qed.

(** The first position whose time and success satisfy [P]. *)
Fixpoint find_task (P : Z -> bool -> bool) (i : Z) (l : list (Z * bool)) : option Z :=
  match l with
  | [] => None
  | (t, ok) :: l => if P t ok then Some i else find_task P (i + 1) l
  end.
Definition is_expired (now : Z) (t : Z) (ok : bool) : bool := negb (t =? 0) && (TASK_TIMEOUT_SECS <=? now - t) && negb ok.
Definition is_unassigned (t : Z) (ok : bool) : bool := t =? 0.

Definition tasks (times : ptr (list Z)) (success : ptr (list bool)) : list (Z * bool) := zip (contents times) (contents success).

Lemma expired_loop_safe times success n : forall i s, array_of (i + Z.of_nat n) times -> array_of (i + Z.of_nat n) success -> 0 <= i ->
  exists r s', expired_loop n i times success s = Ret (r, s') /\ same_but_clock s s' /\
    forall k, r = Some k -> i <= k < i + Z.of_nat n.
Proof.
  induction n as [|n IH]; intros i s Ht Hs Hi.
  - exists None, s. split; [done|]. split; [apply same_but_clock_refl|done].
  - replace (i + Z.of_nat (S n)) with (i + 1 + Z.of_nat n) in Ht, Hs by lia.
    assert (Hnext : forall s1, same_but_clock s s1 -> exists r s', expired_loop n (i + 1) times success s1 = Ret (r, s') /\
      same_but_clock s s' /\ forall k, r = Some k -> i <= k < i + Z.of_nat (S n)).
    { intros s1 H1. destruct (IH (i + 1) s1 Ht Hs) as (r & s' & Hr & H2 & Hk); [lia|].
      exists r, s'. split; [done|]. split; [by eapply same_but_clock_trans|]. intros k ->. specialize (Hk k eq_refl). lia. }
    cbn [expired_loop]. destruct (pread_Ret times _ i Ht) as (t & -> & _); [lia|]. rewrite bind_lift_Ret.
    destruct (t =? 0); [apply Hnext, same_but_clock_refl|].
    rewrite (bind_Ret _ _ _ _ _ (time_NULL_Ret s)). destruct (_ <=? _); [|apply Hnext, ticked_clock].
    destruct (pread_Ret success _ i Hs) as (ok & -> & _); [lia|]. rewrite bind_lift_Ret.
    destruct ok; [apply Hnext, ticked_clock|]. exists (Some i), (ticked s). split; [done|].
    split; [apply ticked_clock|]. intros k [= <-]. lia.
Qed.

Lemma unassigned_loop_safe times n : forall i s, array_of (i + Z.of_nat n) times -> 0 <= i ->
  exists r, unassigned_loop n i times s = Ret (r, s) /\ forall k, r = Some k -> i <= k < i + Z.of_nat n.
Proof.
  induction n as [|n IH]; intros i s Ht Hi.
  - by exists None.
  - replace (i + Z.of_nat (S n)) with (i + 1 + Z.of_nat n) in Ht by lia. cbn [unassigned_loop].
    destruct (pread_Ret times _ i Ht) as (t & -> & _); [lia|]. rewrite bind_lift_Ret. destruct (t =? 0).
    + exists (Some i). split; [done|]. intros k [= <-]. lia.
    + destruct (IH (i + 1) s Ht) as (r & -> & Hk); [lia|]. exists r. split; [done|]. intros k ->. specialize (Hk k eq_refl). lia.
Qed.

(** While the clock stands still, the scans are searches. *)
Lemma expired_loop_Ret times success s l : later s = [] -> forall pre,
  contents times = map fst (pre ++ l) -> contents success = map snd (pre ++ l) ->
  expired_loop (length l) (Z.of_nat (length pre)) times success s =
  Ret (find_task (is_expired (now s)) (Z.of_nat (length pre)) l, s).
Proof.
  intros Hl. induction l as [|[t ok] l IH]; intros pre Ht Hs; [done|]. cbn [length expired_loop find_task].
  assert (Hnext : expired_loop (length l) (Z.of_nat (length pre) + 1) times success s =
                  Ret (find_task (is_expired (now s)) (Z.of_nat (length pre) + 1) l, s)).
  { specialize (IH (pre ++ [(t, ok)])). rewrite length_app in IH. cbn [length] in IH.
    replace (Z.of_nat (length pre + 1)) with (Z.of_nat (length pre) + 1) in IH by lia.
    apply IH; by rewrite <- app_assoc. }
  rewrite map_app in Ht, Hs. cbn in Ht, Hs.
  assert (Hread : forall A (p : ptr (list A)) a x b, contents p = a ++ x :: b -> pread p (Z.of_nat (length a)) = Ret x).
  { intros A p a x b Hp. destruct p; cbn in Hp; [by destruct a..|]. subst. unfold pread, aread, aget. cbn.
    replace (0 <=? _) with true by lia. by rewrite Nat2Z.id, list_lookup_middle. }
  rewrite <- (length_map fst pre) at 1. rewrite (Hread _ _ _ _ _ Ht), bind_lift_Ret.
  unfold is_expired at 1. destruct (t =? 0); [apply Hnext|]. cbn [negb andb].
  rewrite (bind_Ret _ _ _ _ _ (time_NULL_Ret s)). unfold tick, ticked. rewrite Hl.
  destruct (_ <=? _); [|apply Hnext]. cbn [andb].
  rewrite <- (length_map snd pre) at 1. rewrite (Hread _ _ _ _ _ Hs), bind_lift_Ret. by destruct ok.
Qed.
Lemma unassigned_loop_Ret times s l : forall pre, contents times = map fst (pre ++ l) ->
  unassigned_loop (length l) (Z.of_nat (length pre)) times s = Ret (find_task is_unassigned (Z.of_nat (length pre)) l, s).
Proof.
  induction l as [|[t ok] l IH]; intros pre Ht; [done|]. cbn [length unassigned_loop find_task].
  specialize (IH (pre ++ [(t, ok)])). rewrite length_app in IH. cbn [length] in IH.
  replace (Z.of_nat (length pre + 1)) with (Z.of_nat (length pre) + 1) in IH by lia.
  rewrite map_app in Ht. cbn in Ht. unfold pread.
  assert (Hp : times = Live (map fst pre ++ t :: map fst l)) by (destruct times; cbn in Ht; [by destruct pre..|by subst]).
  rewrite Hp at 1. unfold aread, aget. cbn. replace (0 <=? _) with true by lia.
  rewrite Nat2Z.id. rewrite list_lookup_middle by (by rewrite length_map). cbn [deref]. rewrite bind_lift_Ret.
  unfold is_unassigned at 1. destruct (t =? 0); [done|]. apply IH. rewrite <- app_assoc, map_app. by cbn.
Qed.

(** ** Keeping the invariant *)

Lemma coord_ok_same s s' : next_id s' = next_id s -> waiting_queue s' = waiting_queue s -> all_job s' = all_job s ->
  c_mallocs s' = c_mallocs s -> coord_ok s -> coord_ok s'.
Proof.
  intros Hn Hq Hj Hm []. destruct s, s'. cbn in *. subst. by split.
Qed.
Lemma coord_ok_clock s s' : same_but_clock s s' -> coord_ok s -> coord_ok s'.
Proof. intros ->. by apply coord_ok_same. Qed.

Lemma coord_ok_update s id j j' : coord_ok s -> all_job s !! id = Some j -> done j = false -> done j' = false ->
  job_ok id j' -> coord_ok (set_jobs s (<[id := j']> (all_job s))).
Proof.
  intros [Hnd Hq Hids Hnext Hjobs Hm] Hj Hd Hd' Hok'. split; cbn; [done| | |done| |done].
  - intros x. rewrite Hq. destruct (decide (id = x)) as [<-|Hne].
    + rewrite lookup_insert_eq. split; intros _; eauto.
    + by rewrite lookup_insert_ne.
  - intros x y. rewrite lookup_insert_Some. intros [[<- _]|[_ Hx]]; eauto.
  - intros x y. rewrite lookup_insert_Some. intros [[<- <-]|[_ Hx]]; eauto.
Qed.

Lemma job_ok_assigned id j i t (reduce : bool) : job_ok id j -> 0 <= i < (if reduce then n_reduce j else n_map j) ->
  job_ok id (if reduce then assigned_reduce j i t else assigned_map j i t).
Proof. intros [] Hi. destruct reduce; split; cbn; try done; by apply array_of_pwrite. Qed.

Lemma given_fields s id j i reduce : next_id (given s id j i reduce) = next_id s /\
  waiting_queue (given s id j i reduce) = waiting_queue s /\ c_mallocs (given s id j i reduce) = c_mallocs s /\
  all_job (given s id j i reduce) = <[id := if reduce then assigned_reduce j i (tick s) else assigned_map j i (tick s)]> (all_job s).
Proof. unfold given, ticked. cbn. by destruct (later s). Qed.

Lemma coord_ok_given s id j i (reduce : bool) : coord_ok s -> all_job s !! id = Some j -> done j = false ->
  0 <= i < (if reduce then n_reduce j else n_map j) -> coord_ok (given s id j i reduce).
Proof.
  intros Hs Hj Hd Hi. pose proof (given_fields s id j i reduce) as (H1 & H2 & H3 & H4).
  set (j' := if reduce then assigned_reduce j i (tick s) else assigned_map j i (tick s)) in *.
  apply (coord_ok_same (set_jobs s (<[id := j']> (all_job s)))); [done..|].
  apply (coord_ok_update s id j j'); [done..| |].
  - unfold j'. by destruct reduce.
  - apply job_ok_assigned; [|done]. by apply (co_jobs s Hs).
Qed.

(** ** Requests are served *)

(** What a search for a task in one job does. *)
Definition searched (s : coordinator) (queue : list Z) (found : bool) (s' : coordinator) : Prop :=
  if found then
    exists s1 id j i (reduce : bool), same_but_clock s s1 /\ id ∈ queue /\ all_job s !! id = Some j /\ done j = false /\
      s' = given s1 id j i reduce /\ 0 <= i < (if reduce then n_reduce j else n_map j) /\
      (reduce = true -> map_finished j = n_map j)
  else same_but_clock s s'.

Lemma searched_given s s1 id j i (reduce : bool) : coord_ok s -> same_but_clock s s1 -> all_job s !! id = Some j -> done j = false ->
  0 <= i < (if reduce then n_reduce j else n_map j) -> (reduce = true -> map_finished j = n_map j) ->
  (if reduce then assign_reduce id j i s1 else assign_map id j i s1) = Ret (tt, given s1 id j i reduce) /\
  searched s [id] true (given s1 id j i reduce).
Proof.
  intros Hs H1 Hj Hd Hi Hr. pose proof (co_jobs s Hs id j Hj Hd) as Hok.
  assert (c_mallocs s1 = []) by (rewrite H1; apply Hs). split.
  - destruct reduce; [by apply assign_reduce_Ret|by apply assign_map_Ret].
  - exists s1, id, j, i, reduce. split_and!; try done; [by left|lia..].
Qed.

Lemma array_of_nat {A} n (p : ptr (list A)) : array_of n p -> 0 <= n -> array_of (0 + Z.of_nat (Z.to_nat n)) p.
Proof. intros. by replace (0 + Z.of_nat (Z.to_nat n)) with n by lia. Qed.

Lemma expired_loop_job times success n s : array_of n times -> array_of n success ->
  exists r s', expired_loop (Z.to_nat n) 0 times success s = Ret (r, s') /\ same_but_clock s s' /\ forall k, r = Some k -> 0 <= k < n.
Proof.
  intros Ht Hs. destruct (Z.lt_ge_cases n 0) as [Hn|Hn].
  - exists (@None Z), s. replace (Z.to_nat n) with 0%nat by lia. split; [done|]. split; [apply same_but_clock_refl|done].
  - destruct (expired_loop_safe times success (Z.to_nat n) 0 s) as (r & s' & Hr & Hc & Hk); [by apply array_of_nat..|lia|].
    exists r, s'. split; [done|]. split; [done|]. intros k Hk'. specialize (Hk k Hk'). lia.
Qed.
Lemma unassigned_loop_job times n s : array_of n times ->
  exists r, unassigned_loop (Z.to_nat n) 0 times s = Ret (r, s) /\ forall k, r = Some k -> 0 <= k < n.
Proof.
  intros Ht. destruct (Z.lt_ge_cases n 0) as [Hn|Hn].
  - exists (@None Z). by replace (Z.to_nat n) with 0%nat by lia.
  - destruct (unassigned_loop_safe times (Z.to_nat n) 0 s) as (r & Hr & Hk); [by apply array_of_nat|lia|].
    exists r. split; [done|]. intros k Hk'. specialize (Hk k Hk'). lia.
Qed.

Lemma get_job_Ret s id j : all_job s !! id = Some j -> get_job id s = Ret (j, s).
Proof. intros H. unfold get_job. by rewrite H. Qed.

Lemma find_expired_task_safe s id : coord_ok s -> id ∈ waiting_queue s ->
  exists found s', find_expired_task id s = Ret (found, s') /\ searched s [id] found s'.
Proof.
  intros Hs Hin. destruct (proj1 (co_queue s Hs id) Hin) as (j & Hj & Hd). pose proof (co_jobs s Hs id j Hj Hd) as Hok.
  unfold find_expired_task. rewrite (bind_Ret _ _ _ _ _ (get_job_Ret s id j Hj)).
  destruct (expired_loop_job (map_time j) (map_success j) (n_map j) s) as ([i|] & s1 & Hr & Hc & Hi); [apply Hok..| |];
    rewrite (bind_Ret _ _ _ _ _ Hr).
  - destruct (searched_given s s1 id j i false) as [H1 H2]; [done..|by apply Hi|done|].
    rewrite (bind_Ret _ _ _ _ _ H1). by eexists true, _.
  - destruct (Z.eqb_spec (map_finished j) (n_map j)) as [He|_]; [|by exists false, s1].
    destruct (expired_loop_job (reduce_time j) (reduce_success j) (n_reduce j) s1) as ([i|] & s2 & Hr' & Hc' & Hi'); [apply Hok..| |];
      rewrite (bind_Ret _ _ _ _ _ Hr').
    + destruct (searched_given s s2 id j i true) as [H1 H2]; [done|by eapply same_but_clock_trans|done|done|by apply Hi'|done|].
      rewrite (bind_Ret _ _ _ _ _ H1). by eexists true, _.
    + exists false, s2. split; [done|]. by eapply same_but_clock_trans.
Qed.
Lemma find_unassigned_task_safe s id : coord_ok s -> id ∈ waiting_queue s ->
  exists found s', find_unassigned_task id s = Ret (found, s') /\ searched s [id] found s'.
Proof.
  intros Hs Hin. destruct (proj1 (co_queue s Hs id) Hin) as (j & Hj & Hd). pose proof (co_jobs s Hs id j Hj Hd) as Hok.
  unfold find_unassigned_task. rewrite (bind_Ret _ _ _ _ _ (get_job_Ret s id j Hj)).
  destruct (unassigned_loop_job (map_time j) (n_map j) s) as ([i|] & Hr & Hi); [apply Hok|..]; rewrite (bind_Ret _ _ _ _ _ Hr).
  - destruct (searched_given s s id j i false) as [H1 H2]; [done|apply same_but_clock_refl|done|done|by apply Hi|done|].
    rewrite (bind_Ret _ _ _ _ _ H1). by eexists true, _.
  - destruct (Z.eqb_spec (map_finished j) (n_map j)) as [He|_]; [|exists false, s; split; [done|apply same_but_clock_refl]].
    destruct (unassigned_loop_job (reduce_time j) (n_reduce j) s) as ([i|] & Hr' & Hi'); [apply Hok|..]; rewrite (bind_Ret _ _ _ _ _ Hr').
    + destruct (searched_given s s id j i true) as [H1 H2]; [done|apply same_but_clock_refl|done|done|by apply Hi'|done|].
      rewrite (bind_Ret _ _ _ _ _ H1). by eexists true, _.
    + exists false, s. split; [done|apply same_but_clock_refl].
Qed.

Lemma first_task_safe (find : Z -> ST coordinator bool) :
  (forall s id, coord_ok s -> id ∈ waiting_queue s -> exists found s', find id s = Ret (found, s') /\ searched s [id] found s') ->
  forall queue s, coord_ok s -> (forall id, id ∈ queue -> id ∈ waiting_queue s) ->
  exists found s', first_task find queue s = Ret (found, s') /\ searched s queue found s'.
Proof.
  intros Hfind queue. induction queue as [|id queue IH]; intros s Hs Hq.
  - exists false, s. split; [done|apply same_but_clock_refl].
  - cbn [first_task]. destruct (Hfind s id Hs) as ([|] & s1 & Hr & H1); [apply Hq; by left| |]; rewrite (bind_Ret _ _ _ _ _ Hr).
    + exists true, s1. split; [done|]. destruct H1 as (s2 & id' & j & i & reduce & Hc & Hin & H1).
      exists s2, id', j, i, reduce. split_and!; try apply H1; [done|set_solver].
    + cbn in H1. destruct (IH s1) as (found & s' & Hr' & H2); [by eapply coord_ok_clock|rewrite H1; set_solver|].
      exists found, s'. split; [done|]. destruct found; cbn in *.
      * destruct H2 as (s2 & id' & j & i & reduce & Hc & Hin & Hj & H2). exists s2, id', j, i, reduce.
        rewrite H1 in Hj. split_and!; try apply H2; [by eapply same_but_clock_trans|set_solver|done].
      * by eapply same_but_clock_trans.
Qed.

(** Finished jobs keep their outcome, and no job is forgotten. *)
Definition kept (s s' : coordinator) : Prop :=
  forall id j, all_job s !! id = Some j ->
    is_Some (all_job s' !! id) /\ (done j = true -> all_job s' !! id = Some j).

Lemma kept_same s s' : all_job s' = all_job s -> kept s s'.
Proof. intros H id j Hj. rewrite H. split; [by eexists|done]. Qed.
Lemma kept_update s s' id j j' : all_job s !! id = Some j -> done j = false ->
  all_job s' = <[id := j']> (all_job s) -> kept s s'.
Proof.
  intros Hj Hd H x y Hx. rewrite H. destruct (decide (id = x)) as [<-|Hne].
  - rewrite lookup_insert_eq. split; [by eexists|]. congruence.
  - rewrite lookup_insert_ne by done. split; [by eexists|done].
Qed.

Definition served {A} (m : ST coordinator A) (s : coordinator) (P : A -> coordinator -> Prop) : Prop :=
  exists a s', m s = Ret (a, s') /\ coord_ok s' /\ kept s s' /\ P a s'.

(** A task is given out of an unfinished job: a reduce task only when all its map tasks were counted. *)
Definition gives (s : coordinator) (reply : get_task_reply) (s' : coordinator) : Prop :=
  exists id j i (reduce : bool) t, all_job s !! id = Some j /\ done j = false /\
    0 <= i < (if reduce then n_reduce j else n_map j) /\ (reduce = true -> map_finished j = n_map j) /\
    r_job_id reply = id /\ r_task reply = i /\ r_reduce reply = reduce /\ r_wait reply = false /\
    all_job s' = <[id := if reduce then assigned_reduce j i t else assigned_map j i t]> (all_job s).

Lemma get_task_safe s : coord_ok s ->
  served get_task_1_svc s (fun reply s' => r_wait reply = true /\ all_job s' = all_job s \/ gives s reply s').
Proof.
  intros Hs. unfold get_task_1_svc. set (s0 := set_task s (wait_reply (task_result s))).
  assert (Hs0 : coord_ok s0) by (by apply (coord_ok_same s)).
  assert (Hwait : forall s', same_but_clock s0 s' -> coord_ok s' /\ kept s s' /\
    (r_wait (task_result s') = true /\ all_job s' = all_job s \/ gives s (task_result s') s')).
  { intros s' Hc. split; [by eapply coord_ok_clock|]. rewrite Hc. split; [by apply kept_same|by left]. }
  assert (Hfound : forall s', searched s0 (waiting_queue s0) true s' -> coord_ok s' /\ kept s s' /\
    (r_wait (task_result s') = true /\ all_job s' = all_job s \/ gives s (task_result s') s')).
  { intros s' (s1 & id & j & i & reduce & Hc & Hin & Hj & Hd & -> & Hi & Hr). cbn in Hj.
    assert (Hs1 : coord_ok s1) by (by eapply coord_ok_clock).
    assert (Hj1 : all_job s1 !! id = Some j) by (by rewrite Hc). split; [by apply coord_ok_given|].
    pose proof (given_fields s1 id j i reduce) as (_ & _ & _ & H4).
    replace (all_job s1) with (all_job s) in H4 by (by rewrite Hc).
    split; [by eapply (kept_update s)|]. right.
    assert (task_result (given s1 id j i reduce) = task_reply (task_result s1) j i reduce) as ->.
    { unfold given, ticked. cbn. by destruct (later s1). }
    exists id, j, i, reduce, (tick s1). do 4 (split; [done|]). split; [by apply (co_jobs s Hs)|]. by split_and!. }
  unfold served. rewrite bind_modify. fold s0. rewrite bind_gets.
  destruct (length (waiting_queue s0) =? 0)%nat.
  { exists (task_result s0), s0. split; [done|]. apply Hwait, same_but_clock_refl. }
  destruct (first_task_safe find_expired_task find_expired_task_safe (waiting_queue s0) s0 Hs0) as ([|] & s1 & Hr & H1); [done|..];
    rewrite (bind_Ret _ _ _ _ _ Hr).
  { exists (task_result s1), s1. split; [done|]. by apply Hfound. }
  cbn in H1. assert (Hs1 : coord_ok s1) by (by eapply coord_ok_clock).
  destruct (first_task_safe find_unassigned_task find_unassigned_task_safe (waiting_queue s0) s1 Hs1) as (found & s2 & Hr' & H2);
    [by rewrite H1|]. rewrite (bind_Ret _ _ _ _ _ Hr'). exists (task_result s2), s2. split; [done|]. destruct found.
  - apply Hfound. destruct H2 as (s3 & id & j & i & reduce & Hc & Hin & Hj & H2). exists s3, id, j, i, reduce.
    rewrite H1 in Hj. split_and!; try apply H2; [by eapply same_but_clock_trans|done|done].
  - apply Hwait. by eapply same_but_clock_trans.
Qed.

Lemma poll_job_safe id s : coord_ok s ->
  served (poll_job_1_svc id) s (fun reply s' => match all_job s !! id with
    | None => p_invalid_job_id reply = true
    | Some j => reply = mk_poll (done j) (failed j) false
    end).
Proof.
  intros Hs. unfold served, poll_job_1_svc, get_job_by_id. rewrite !bind_gets, bind_modify.
  eexists _, _. split; [done|]. split; [by apply (coord_ok_same s)|]. split; [by apply kept_same|].
  destruct (size (all_job s) =? 0)%nat eqn:E.
  - apply Nat.eqb_eq in E. apply map_size_empty_inv in E. by rewrite E, lookup_empty.
  - by destruct (all_job s !! id).
Qed.

(** ** Submitting a job *)

Lemma duplicate_files_Ret l s : c_mallocs s = [] -> duplicate_files l s = Ret (Some l, s).
Proof.
  intros Hm. unfold duplicate_files. rewrite (bind_Ret _ _ _ _ _ (malloc_Ret _ s Hm)). replace (0 <=? _) with true by lia. cbn [negb].
  assert (H : forall acc, duplicate_files_loop l acc s = Ret (Some (acc ++ l), s)); [|apply H].
  induction l as [|f l IH]; intros acc; [by rewrite app_nil_r|]. cbn [duplicate_files_loop].
  rewrite (bind_Ret _ _ (Some f) s s) by (by apply strdup_Ret). rewrite IH. by rewrite <- app_assoc.
Qed.
Definition allocated_array {A} (n : Z) (x : A) : ptr (list A) := if n <? 0 then Null else Live (replicate (Z.to_nat n) x).
Lemma allocate_bool_Ret n b s : c_mallocs s = [] -> allocate_bool_array n b s = Ret (allocated_array n b, s).
Proof.
  intros Hm. unfold allocate_bool_array, allocated_array. rewrite (bind_Ret _ _ _ _ _ (malloc_Ret _ s Hm)).
  destruct (Z.leb_spec 0 n), (Z.ltb_spec n 0); done || lia.
Qed.
Lemma allocate_time_Ret n s : c_mallocs s = [] -> allocate_time_t_array n s = Ret (allocated_array n 0, s).
Proof.
  intros Hm. unfold allocate_time_t_array, allocated_array. rewrite (bind_Ret _ _ _ _ _ (malloc_Ret _ s Hm)).
  destruct (Z.leb_spec 0 (8 * n)), (Z.ltb_spec n 0); done || lia.
Qed.
Lemma array_of_allocated {A} n (x : A) : array_of n (allocated_array n x).
Proof. unfold allocated_array. destruct (Z.ltb_spec n 0); cbn; [done|]. rewrite length_replicate. lia. Qed.

(** The job of an accepted request. *)
Definition new_job (id : Z) (argp : submit_job_request) : job :=
  let n := Z.of_nat (length (s_files argp)) in
  mk_job id (allocated_array n 0) (s_n_reduce argp) (Live (s_files argp)) 0 (allocated_array n false) 0
    (allocated_array (s_n_reduce argp) false) (allocated_array (s_n_reduce argp) 0)
    (match option_map cstr_of (s_args argp) with Some (b :: l) => Some (b :: l) | _ => None end)
    (Some (s_output_dir argp)) (Some (s_app argp)) n false false.

Lemma mkdirp_total dir : dir <> [] -> exists l, mkdirp dir = Ret l.
Proof.
  intros H. unfold mkdirp. destruct (last (take PATH_MAX dir)) eqn:E; [eauto|].
  apply last_None in E. by destruct dir.
Qed.

(** The calls of [submit_job_1_svc] before and after the test of the application. *)
Ltac submit_steps s1 Hm1 :=
  rewrite (bind_Ret _ _ _ _ _ (malloc_Ret _ s1 Hm1)); cbn [Z.leb Z.compare negb];
  rewrite (bind_Ret _ _ _ _ _ (duplicate_files_Ret _ s1 Hm1));
  match goal with |- context [strdup ?x] => rewrite (bind_Ret _ _ x s1 s1) by (by apply strdup_Ret) end.
Ltac submit_app_steps s1 Hm1 :=
  match goal with |- context [strdup ?x] => rewrite (bind_Ret _ _ x s1 s1) by (by apply strdup_Ret) end; cbv zeta;
  rewrite (bind_Ret _ _ _ _ _ (allocate_bool_Ret _ _ s1 Hm1)), (bind_Ret _ _ _ _ _ (allocate_time_Ret _ s1 Hm1));
  rewrite (bind_Ret _ _ _ _ _ (allocate_bool_Ret _ _ s1 Hm1)), (bind_Ret _ _ _ _ _ (allocate_time_Ret _ s1 Hm1)).

Lemma submit_job_UB argp stat_fails s l : c_mallocs s = [] -> 0 <= next_id s < INT_MAX ->
  is_Some (get_app qsort (s_app argp)) -> s_args argp = Some l -> 0 ∉ l -> submit_job_1_svc qsort argp stat_fails s = UB.
Proof.
  intros Hm Hid [a Ha] Hargs Hl. unfold submit_job_1_svc. rewrite bind_gets.
  unfold INT_MAX in Hid. rewrite int_Ret by lia. rewrite bind_lift_Ret, bind_modify.
  set (s1 := set_next_id s (next_id s + 1)). assert (Hm1 : c_mallocs s1 = []) by done. submit_steps s1 Hm1.
  rewrite Ha. submit_app_steps s1 Hm1. unfold args_string. by rewrite Hargs, bool_decide_false.
Qed.

Lemma submit_job_Ret argp stat_fails s : c_mallocs s = [] -> 0 <= next_id s < INT_MAX ->
  (forall l, s_args argp = Some l -> 0 ∈ l) -> (stat_fails = true -> s_output_dir argp <> []) ->
  let id := next_id s + 1 in
  exists dirs, submit_job_1_svc qsort argp stat_fails s =
    match get_app qsort (s_app argp) with
    | None => Ret (Some (-1), set_next_id s id)
    | Some _ => Ret (Some id, mk_coord id (waiting_queue s ++ [id]) (<[id := new_job id argp]> (all_job s)) (poll_result s)
                                (task_result s) (now s) (later s) [] dirs)
    end.
Proof.
  intros Hm Hid Hargs Hdir id.
  assert (Hmk : exists l, (if stat_fails then mkdirp (s_output_dir argp) else Ret []) = Ret l).
  { destruct stat_fails; [apply mkdirp_total; auto|by exists []]. }
  destruct Hmk as [dirs Hmk]. exists (made_dirs s ++ dirs). unfold submit_job_1_svc. rewrite bind_gets.
  unfold INT_MAX in Hid. rewrite int_Ret by lia. rewrite bind_lift_Ret, bind_modify. fold id.
  set (s1 := set_next_id s id). assert (Hm1 : c_mallocs s1 = []) by done. submit_steps s1 Hm1.
  destruct (get_app qsort (s_app argp)); [|done]. submit_app_steps s1 Hm1.
  set (args := match option_map cstr_of (s_args argp) with Some (b :: l) => Some (b :: l) | _ => None end).
  assert (args_string (s_args argp) = Ret args) as ->.
  { unfold args_string, args. destruct (s_args argp) as [l|]; [|done]. rewrite bool_decide_true by auto. cbn.
    by destruct (cstr_of l). }
  rewrite bind_lift_Ret.
  rewrite (bind_Ret _ _ args s1 s1) by (destruct args; [by apply strdup_Ret|done]).
  unfold put_job. rewrite !bind_modify, Hmk, bind_lift_Ret, bind_modify.
  unfold ret, new_job, s1, set_made, set_queue, set_jobs, set_next_id. cbn. by rewrite Hm.
Qed.

Lemma submit_job_safe argp stat_fails s : coord_ok s -> allowed s (Submit argp stat_fails) ->
  served (submit_job_1_svc qsort argp stat_fails) s (fun result s' => match result with
    | Some id => id = -1 /\ get_app qsort (s_app argp) = None \/
                 all_job s !! id = None /\ all_job s' !! id = Some (new_job id argp) /\ waiting_queue s' = waiting_queue s ++ [id]
    | None => False
    end).
Proof.
  intros Hs (Hid & Hargs & Hdir). pose proof (co_next s Hs).
  destruct (submit_job_Ret argp stat_fails s) as [dirs Hr]; [apply Hs|done..|]. unfold served. rewrite Hr. clear Hr.
  destruct (get_app qsort (s_app argp)).
  2: { eexists _, _. split; [done|]. split; [|split; [by apply kept_same|by left]].
       destruct Hs. split; cbn; try done; [|lia]. intros id j Hj. specialize (co_ids0 id j Hj). lia. }
  set (id := next_id s + 1) in *.
  assert (Hfresh : all_job s !! id = None).
  { destruct (all_job s !! id) as [j|] eqn:Hj; [|done]. apply (co_ids s Hs) in Hj. lia. }
  eexists _, _. split; [done|]. cbn. split; [|split].
  - destruct Hs. split; cbn.
    + apply NoDup_app. split; [done|]. split; [|apply NoDup_singleton].
      intros x Hx Hx'. apply list_elem_of_singleton in Hx' as ->. apply co_queue0 in Hx as (j & Hj & _). congruence.
    + intros x. rewrite elem_of_app, list_elem_of_singleton, co_queue0. destruct (decide (id = x)) as [<-|Hne].
      * rewrite lookup_insert_eq. split; [intros _; by eexists|by right].
      * rewrite lookup_insert_ne by done. split; [by intros [?| ->]|by left].
    + intros x y. rewrite lookup_insert_Some. intros [[<- _]|[_ Hx]]; [lia|]. specialize (co_ids0 x y Hx). lia.
    + lia.
    + intros x y. rewrite lookup_insert_Some. intros [[<- <-]|[_ Hx]]; [intros _|by apply co_jobs0].
      split; cbn; try done; try apply array_of_allocated; try lia; by eexists.
    + done.
  - intros x y Hx. cbn. rewrite lookup_insert_ne by congruence. split; [by eexists|done].
  - right. by rewrite lookup_insert_eq.
Qed.

(** ** Finishing a task *)

Definition freed_ptr {A} (p : ptr A) : ptr A := match p with Live _ => Freed | p => p end.
Definition freed_job (j : job) : job :=
  mk_job (job_id j) (freed_ptr (map_time j)) (n_reduce j) (freed_ptr (j_files j)) (map_finished j) (freed_ptr (map_success j))
    (reduce_finished j) (freed_ptr (reduce_success j)) (freed_ptr (reduce_time j)) (j_args j) (j_output_dir j) (j_app j)
    (n_map j) (done j) (failed j).

Lemma free_Ret {A} n (p : ptr (list A)) : array_of n p -> c_free p = Ret (freed_ptr p).
Proof. by destruct p. Qed.
Lemma free_files_Ret m p n : forall i, array_of m p -> 0 <= i -> i + Z.of_nat n <= m -> free_files n i p = Ret tt.
Proof.
  induction n as [|n IH]; intros i Hp Hi Hn; [done|]. cbn [free_files].
  destruct (pread_Ret p m i Hp) as (f & -> & _); [lia|]. cbn [obind]. apply IH; [done|lia..].
Qed.
Lemma free_job_memory_Ret id j : job_ok id j -> free_job_memory j = Ret (freed_job j).
Proof.
  intros []. unfold free_job_memory. rewrite (free_files_Ret (n_map j)) by (done || lia). cbn [obind].
  rewrite (free_Ret (n_map j)) by done. cbn [obind]. rewrite (free_Ret (n_map j)) by done. cbn [obind].
  rewrite (free_Ret (n_map j)) by done. cbn [obind]. rewrite (free_Ret (n_reduce j)) by done. cbn [obind].
  by rewrite (free_Ret (n_reduce j)).
Qed.

(** The job after a report about one of its tasks. *)
Definition reported (j : job) (argp : finish_task_request) : job :=
  if negb (ft_success argp) then set_done j true true
  else
    let i := Z.to_nat (ft_task argp) in
    if ft_reduce argp then
      let j' := set_reduce_done j (reduce_finished j + 1) (Live (<[i := true]> (contents (reduce_success j)))) in
      if reduce_finished j + 1 =? n_reduce j then set_done j' true false else j'
    else set_map_done j (map_finished j + 1) (Live (<[i := true]> (contents (map_success j)))).

Lemma update_job_info_Ret id j argp : job_ok id j ->
  (ft_success argp = true -> if ft_reduce argp then 0 <= ft_task argp < n_reduce j /\ reduce_finished j < INT_MAX
                             else 0 <= ft_task argp < n_map j /\ map_finished j < INT_MAX) ->
  update_job_info j argp (ft_success argp) = Ret (reported j argp) /\ job_ok id (reported j argp).
Proof.
  intros Hj Hallowed. pose proof Hj as []. unfold update_job_info, reported, INT_MAX in *.
  destruct (ft_success argp); cbn [negb]; [|split; [done|by split]]. specialize (Hallowed eq_refl).
  destruct (ft_reduce argp); destruct Hallowed as [Hi Hmax]; rewrite int_Ret by lia; cbn [obind].
  - rewrite (pwrite_Ret _ (n_reduce j)) by done. cbn [obind]. split; [done|].
    destruct (_ =? _); split; cbn [set_done set_reduce_done job_id n_map j_files j_output_dir j_app map_time map_success reduce_time
      n_reduce reduce_success map_finished reduce_finished]; try done; try lia; by apply array_of_pwrite.
  - rewrite (pwrite_Ret _ (n_map j)) by done. cbn [obind]. split; [done|].
    split; cbn [set_map_done job_id n_map j_files j_output_dir j_app map_time map_success reduce_time
      n_reduce reduce_success map_finished reduce_finished]; try done; try lia; by apply array_of_pwrite.
Qed.

Lemma g_list_remove_spec l x : NoDup l -> NoDup (g_list_remove l x) /\ forall y, y ∈ g_list_remove l x <-> y ∈ l /\ y <> x.
Proof.
  induction 1 as [|z l Hz Hnd [IH1 IH2]]; cbn; [split; [constructor|set_solver]|].
  destruct (Z.eqb_spec z x) as [->|Hne].
  - split; [done|]. set_solver.
  - split; [constructor; [rewrite IH2; tauto|done]|]. set_solver.
Qed.

(** The state after the report. *)
Definition after_report (s : coordinator) (argp : finish_task_request) (j : job) : coordinator :=
  let id := ft_job_id argp in let j' := reported j argp in
  if done j' then set_jobs (set_queue s (g_list_remove (waiting_queue s) id)) (<[id := freed_job j']> (all_job s))
  else set_jobs s (<[id := j']> (all_job s)).

Lemma finish_task_Ret argp s j : coord_ok s -> all_job s !! ft_job_id argp = Some j -> done j = false ->
  allowed s (Finish argp) -> finish_task_1_svc argp s = Ret (tt, after_report s argp j) /\ job_ok (ft_job_id argp) (reported j argp).
Proof.
  intros Hs Hj Hd Hallowed. pose proof (co_jobs s Hs _ j Hj Hd) as Hok.
  destruct (update_job_info_Ret (ft_job_id argp) j argp Hok) as [Hu Hok']; [intros ?; by eapply Hallowed|]. split; [|done].
  unfold finish_task_1_svc. rewrite bind_gets.
  assert (Hin : ft_job_id argp ∈ waiting_queue s) by (apply (co_queue s Hs); eauto).
  destruct (waiting_queue s) as [|x q] eqn:Hq; [set_solver|]. rewrite <- Hq in *. replace (length _ =? 0)%nat with false by (by rewrite Hq).
  assert (Hex : existsb (Z.eqb (ft_job_id argp)) (waiting_queue s) = true).
  { apply existsb_exists. exists (ft_job_id argp). split; [by apply list_elem_of_In|apply Z.eqb_refl]. }
  rewrite Hex. cbn [negb]. rewrite (bind_Ret _ _ _ _ _ (get_job_Ret s _ j Hj)), Hu, bind_lift_Ret.
  unfold put_job. rewrite bind_modify. unfold after_report. destruct (done (reported j argp)); [|done].
  rewrite bind_modify, (free_job_memory_Ret (ft_job_id argp)), bind_lift_Ret by done. unfold modify, set_jobs, set_queue. cbn.
  by rewrite insert_insert_eq.
Qed.

Lemma finish_task_safe argp s : coord_ok s -> allowed s (Finish argp) ->
  served (finish_task_1_svc argp) s (fun _ s' => match all_job s !! ft_job_id argp with
    | Some j => if done j then s' = s else s' = after_report s argp j
    | None => s' = s
    end).
Proof.
  intros Hs Hallowed. unfold served.
  destruct (decide (ft_job_id argp ∈ waiting_queue s)) as [Hin|Hout].
  2: { assert (Hr : finish_task_1_svc argp s = Ret (tt, s)).
       { unfold finish_task_1_svc. rewrite bind_gets. destruct (_ =? 0)%nat; [done|].
         destruct (existsb _ _) eqn:E; [|done]. apply existsb_exists in E as (x & Hx & E).
         apply Z.eqb_eq in E as <-. destruct Hout. by apply list_elem_of_In. }
       rewrite Hr. exists tt, s. split_and!; [done..|by apply kept_same|].
       destruct (all_job s !! _) as [j|] eqn:Hj; [|done]. destruct (done j) eqn:Hd; [done|].
       destruct Hout. apply (co_queue s Hs). eauto. }
  pose proof Hin as Hin'. apply (co_queue s Hs) in Hin' as (j & Hj & Hd). rewrite Hj, Hd.
  destruct (finish_task_Ret argp s j Hs Hj Hd Hallowed) as [Hr Hok]. exists tt, (after_report s argp j).
  split; [done|]. unfold after_report. destruct (done (reported j argp)) eqn:Hd'.
  - split; [|split; [by eapply (kept_update s)|done]]. destruct Hs.
    destruct (g_list_remove_spec (waiting_queue s) (ft_job_id argp) co_nodup0) as [Hnd Hmem].
    split; cbn; [done| | |done| |done].
    + intros x. rewrite Hmem, co_queue0. destruct (decide (ft_job_id argp = x)) as [<-|Hne].
      * rewrite lookup_insert_eq. split; [by intros []|]. intros (y & [= <-] & Hy). cbn in Hy. congruence.
      * rewrite lookup_insert_ne by done. split; [by intros []|by split].
    + intros x y. rewrite lookup_insert_Some. intros [[<- _]|[_ Hx]]; eauto.
    + intros x y. rewrite lookup_insert_Some. intros [[<- <-]|[_ Hx]]; [|by apply co_jobs0]. cbn. congruence.
  - split; [by eapply coord_ok_update|]. split; [by eapply (kept_update s)|done].
Qed.

Lemma coord_ok_init t l : coord_ok (coordinator_init t l []).
Proof.
  split; cbn; try done; [by apply NoDup_nil|].
  intros id. split; [set_solver|]. intros (j & Hj & _). by rewrite lookup_empty in Hj.
Qed.

Lemma serve_safe r s : coord_ok s -> allowed s r -> served (serve r) s (fun _ _ => True).
Proof.
  intros Hs Hr. destruct r as [argp stat_fails|id| |argp]; unfold served, serve.
  - destruct (submit_job_safe argp stat_fails s Hs Hr) as (a & s' & H & Hok & Hk & _).
    rewrite (bind_Ret _ _ _ _ _ H). by eexists _, s'.
  - destruct (poll_job_safe id s Hs) as (a & s' & H & Hok & Hk & _). rewrite (bind_Ret _ _ _ _ _ H). by eexists _, s'.
  - destruct (get_task_safe s Hs) as (a & s' & H & Hok & Hk & _). rewrite (bind_Ret _ _ _ _ _ H). by eexists _, s'.
  - destruct (finish_task_safe argp s Hs Hr) as (a & s' & H & Hok & Hk & _). rewrite (bind_Ret _ _ _ _ _ H). by eexists _, s'.
Qed.

Lemma reachable_ok (rule : coordinator -> request -> Prop) s : (forall s r, rule s r -> allowed s r) -> reachable rule s -> coord_ok s.
Proof.
  intros Hrule. induction 1 as [t l|s r a s' Hs IH Hr Hserve]; [apply coord_ok_init|].
  destruct (serve_safe r s IH (Hrule s r Hr)) as (a' & s'' & H & Hok & _). rewrite Hserve in H. by injection H as _ <-.
Qed.

(** ** Which task is given out *)

Definition expired_in (now : Z) (j : job) : option (bool * Z) :=
  match find_task (is_expired now) 0 (tasks (map_time j) (map_success j)) with
  | Some i => Some (false, i)
  | None =>
      if map_finished j =? n_map j
      then pair true <$> find_task (is_expired now) 0 (tasks (reduce_time j) (reduce_success j))
      else None
  end.
Definition unassigned_in (j : job) : option (bool * Z) :=
  match find_task is_unassigned 0 (tasks (map_time j) (map_success j)) with
  | Some i => Some (false, i)
  | None =>
      if map_finished j =? n_map j
      then pair true <$> find_task is_unassigned 0 (tasks (reduce_time j) (reduce_success j))
      else None
  end.
(** The first job of the queue in which [f] finds a task. *)
Fixpoint first_job (f : job -> option (bool * Z)) (jobs : gmap Z job) (queue : list Z) : option (Z * job * bool * Z) :=
  match queue with
  | [] => None
  | id :: queue =>
      match jobs !! id with
      | None => None
      | Some j => match f j with Some (reduce, i) => Some (id, j, reduce, i) | None => first_job f jobs queue end
      end
  end.
Definition schedule (s : coordinator) : option (Z * job * bool * Z) :=
  match first_job (expired_in (now s)) (all_job s) (waiting_queue s) with
  | Some task => Some task
  | None => first_job unassigned_in (all_job s) (waiting_queue s)
  end.

Lemma tasks_fst {A} n (p : ptr (list A)) (q : ptr (list bool)) : array_of n p -> array_of n q ->
  contents p = map fst (zip (contents p) (contents q)) /\ contents q = map snd (zip (contents p) (contents q)) /\
  length (zip (contents p) (contents q)) = Z.to_nat n.
Proof.
  intros Hp Hq. apply array_of_length in Hp, Hq. change (map ?f ?l) with (f <$> l).
  rewrite fst_zip, snd_zip by lia. split; [done|]. split; [done|]. rewrite length_zip_with. lia.
Qed.
Lemma expired_scan n times success s : array_of n times -> array_of n success -> later s = [] ->
  expired_loop (Z.to_nat n) 0 times success s = Ret (find_task (is_expired (now s)) 0 (tasks times success), s).
Proof.
  intros Ht Hs Hl. destruct (tasks_fst n times success Ht Hs) as (H1 & H2 & <-).
  by apply (expired_loop_Ret times success s _ Hl []).
Qed.
Lemma unassigned_scan n times success s : array_of n times -> array_of n success ->
  unassigned_loop (Z.to_nat n) 0 times s = Ret (find_task is_unassigned 0 (tasks times success), s).
Proof.
  intros Ht Hs. destruct (tasks_fst n times success Ht Hs) as (H1 & _ & <-). by apply (unassigned_loop_Ret times s _ []).
Qed.

Lemma find_task_range P l : forall i k, find_task P i l = Some k -> i <= k < i + Z.of_nat (length l).
Proof.
  induction l as [|[t ok] l IH]; intros i k; cbn [find_task length]; [done|]. destruct (P t ok).
  - intros [= <-]. lia.
  - intros H. apply IH in H. lia.
Qed.
Lemma scan_range P n times success k : array_of n times -> array_of n success ->
  find_task P 0 (tasks times success) = Some k -> 0 <= k < n.
Proof.
  intros Ht Hs H. destruct (tasks_fst n times success Ht Hs) as (_ & _ & Hl). apply find_task_range in H.
  unfold tasks in H. rewrite Hl in H. lia.
Qed.

(** The answer of a search in one job. *)
Definition found_in (s : coordinator) (id : Z) (j : job) (task : option (bool * Z)) : outcome (bool * coordinator) :=
  match task with
  | Some (reduce, i) => Ret (true, given s id j i reduce)
  | None => Ret (false, s)
  end.

Lemma find_expired_task_Ret s id j : job_ok id j -> c_mallocs s = [] -> all_job s !! id = Some j -> later s = [] ->
  find_expired_task id s = found_in s id j (expired_in (now s) j).
Proof.
  intros Hok Hm Hj Hl. unfold find_expired_task, expired_in. rewrite (bind_Ret _ _ _ _ _ (get_job_Ret s id j Hj)).
  rewrite (bind_Ret _ _ _ _ _ (expired_scan _ _ _ s (jo_map_time _ _ Hok) (jo_map_success _ _ Hok) Hl)).
  destruct (find_task _ 0 (tasks (map_time j) _)) as [i|] eqn:Hf.
  - rewrite (bind_Ret _ _ _ _ _ (assign_map_Ret s id j i Hm Hok (scan_range _ _ _ _ _ (jo_map_time _ _ Hok) (jo_map_success _ _ Hok) Hf))). done.
  - destruct (_ =? _); [|done].
    rewrite (bind_Ret _ _ _ _ _ (expired_scan _ _ _ s (jo_reduce_time _ _ Hok) (jo_reduce_success _ _ Hok) Hl)).
    destruct (find_task _ 0 (tasks (reduce_time j) _)) as [i|] eqn:Hf'; [|done].
    by rewrite (bind_Ret _ _ _ _ _ (assign_reduce_Ret s id j i Hm Hok (scan_range _ _ _ _ _ (jo_reduce_time _ _ Hok) (jo_reduce_success _ _ Hok) Hf'))).
Qed.
Lemma find_unassigned_task_Ret s id j : job_ok id j -> c_mallocs s = [] -> all_job s !! id = Some j ->
  find_unassigned_task id s = found_in s id j (unassigned_in j).
Proof.
  intros Hok Hm Hj. unfold find_unassigned_task, unassigned_in. rewrite (bind_Ret _ _ _ _ _ (get_job_Ret s id j Hj)).
  rewrite (bind_Ret _ _ _ _ _ (unassigned_scan _ _ _ s (jo_map_time _ _ Hok) (jo_map_success _ _ Hok))).
  destruct (find_task _ 0 (tasks (map_time j) _)) as [i|] eqn:Hf.
  - by rewrite (bind_Ret _ _ _ _ _ (assign_map_Ret s id j i Hm Hok (scan_range _ _ _ _ _ (jo_map_time _ _ Hok) (jo_map_success _ _ Hok) Hf))).
  - destruct (_ =? _); [|done].
    rewrite (bind_Ret _ _ _ _ _ (unassigned_scan _ _ _ s (jo_reduce_time _ _ Hok) (jo_reduce_success _ _ Hok))).
    destruct (find_task _ 0 (tasks (reduce_time j) _)) as [i|] eqn:Hf'; [|done].
    by rewrite (bind_Ret _ _ _ _ _ (assign_reduce_Ret s id j i Hm Hok (scan_range _ _ _ _ _ (jo_reduce_time _ _ Hok) (jo_reduce_success _ _ Hok) Hf'))).
Qed.

Lemma first_task_Ret (find : Z -> ST coordinator bool) (f : job -> option (bool * Z)) s : coord_ok s ->
  (forall id j, job_ok id j -> all_job s !! id = Some j -> find id s = found_in s id j (f j)) ->
  first_task find (waiting_queue s) s = match first_job f (all_job s) (waiting_queue s) with
                                        | Some (id, j, reduce, i) => Ret (true, given s id j i reduce)
                                        | None => Ret (false, s)
                                        end.
Proof.
  intros Hs Hf. assert (Hq : forall id, id ∈ waiting_queue s -> exists j, all_job s !! id = Some j /\ job_ok id j).
  { intros id Hid. apply (co_queue s Hs) in Hid as (j & Hj & Hd). exists j. split; [done|]. by apply (co_jobs s Hs). }
  revert Hq. generalize (waiting_queue s). intros queue Hq. induction queue as [|id queue IH]; [done|]. cbn [first_task first_job].
  destruct (Hq id) as (j & Hj & Hok); [by left|]. rewrite Hj. specialize (Hf id j Hok Hj) as Hid. unfold found_in in Hid.
  destruct (f j) as [[reduce i]|]; rewrite (bind_Ret _ _ _ _ _ Hid); [done|].
  apply IH. intros x Hx. apply Hq. by right.
Qed.

Lemma get_task_Ret s : coord_ok s -> later s = [] ->
  let s0 := set_task s (wait_reply (task_result s)) in
  let s' := match schedule s with Some (id, j, reduce, i) => given s0 id j i reduce | None => s0 end in
  get_task_1_svc s = Ret (task_result s', s').
Proof.
  intros Hs Hl s0. unfold get_task_1_svc, schedule. rewrite bind_modify. fold s0. rewrite bind_gets.
  assert (Hs0 : coord_ok s0) by (by apply (coord_ok_same s)).
  pose proof (first_task_Ret find_expired_task (expired_in (now s0)) s0 Hs0
    (fun id j Hok Hj => find_expired_task_Ret s0 id j Hok (co_mallocs s0 Hs0) Hj Hl)) as H1.
  pose proof (first_task_Ret find_unassigned_task unassigned_in s0 Hs0
    (fun id j Hok Hj => find_unassigned_task_Ret s0 id j Hok (co_mallocs s0 Hs0) Hj)) as H2.
  change (waiting_queue s) with (waiting_queue s0). change (all_job s) with (all_job s0). change (now s) with (now s0).
  destruct (length (waiting_queue s0) =? 0)%nat eqn:E.
  { apply Nat.eqb_eq, length_zero_iff_nil in E. by rewrite E. }
  destruct (first_job (expired_in (now s0)) _ _) as [[[[id j] reduce] i]|]; rewrite (bind_Ret _ _ _ _ _ H1); [done|].
  destruct (first_job unassigned_in _ _) as [[[[id j] reduce] i]|]; by rewrite (bind_Ret _ _ _ _ _ H2).
Qed.
End Cluster.
