(* ===== verification/CoordinatorProps.v ===== *)
(** Properties of the coordinator over all the states that its requests lead to. *)
From S2P Require Import Prelude KStdlib MrLib MrApps Coordinator CoordinatorFacts WorkerFacts.

(** * Every well-formed request is served *)

Section Properties.
Context (qsort : (key_value -> key_value -> Z) -> list key_value -> list key_value).

(** C5. As long as the host's memory lasts (with failing allocations it can read null arrays and strings, see
    [submit_out_of_memory]), sent well-formed requests in any order, with the clock advancing arbitrarily, the
    coordinator never runs into undefined behaviour (a null, freed or overrun array) and always answers; its
    queue holds exactly the unfinished jobs, each once; and a finished job keeps its outcome. *)
Theorem coordinator_safe s r : reachable qsort allowed s -> allowed s r ->
  exists a s', serve qsort r s = Ret (a, s') /\ reachable qsort allowed s' /\
    NoDup (waiting_queue s') /\
    (forall id, id ∈ waiting_queue s' <-> exists j, all_job s' !! id = Some j /\ done j = false) /\
    (forall id j, all_job s !! id = Some j -> is_Some (all_job s' !! id) /\ (done j = true -> all_job s' !! id = Some j)).
Proof.
  intros Hs Hr. assert (Hok : coord_ok s) by (by eapply reachable_ok).
  destruct (serve_safe qsort r s Hok Hr) as (a & s' & H & Hok' & Hk & _). exists a, s'.
  split; [done|]. split; [by eapply reach_step|]. split; [apply Hok'|]. split; [apply Hok'|done].
Qed.

(** C24. While the clock stands still, a worker is given the first task, by the order of the queue and
    of the task numbers, that was assigned at least ten seconds ago and is not finished, else the
    first that was never assigned, else it must wait; reduce tasks only count once as many map tasks
    as the job has were finished.  The task's time becomes now and nothing else of the jobs changes. *)
Theorem get_task_schedule s : reachable qsort allowed s -> later s = [] ->
  exists s', get_task_1_svc s = Ret (task_result s', s') /\ waiting_queue s' = waiting_queue s /\
    match schedule s with
    | None => r_wait (task_result s') = true /\ all_job s' = all_job s
    | Some (id, j, reduce, i) =>
        task_result s' = task_reply (wait_reply (task_result s)) j i reduce /\
        all_job s' = <[id := if reduce then assigned_reduce j i (now s) else assigned_map j i (now s)]> (all_job s)
    end.
Proof.
  intros Hs Hl. assert (Hok : coord_ok s) by (by eapply reachable_ok). pose proof (get_task_Ret s Hok Hl) as H. cbv zeta in H.
  eexists. split; [exact H|]. destruct (schedule s) as [[[[id j] reduce] i]|]; [|done].
  unfold given, ticked, tick. cbn. by rewrite Hl.
Qed.

(** * Reduce tasks wait for the map tasks *)

Definition finished_count (l : list bool) : Z := Z.of_nat (length (filter (fun b => b = true) l)).
Definition counted (j : job) : Prop :=
  map_finished j = finished_count (contents (map_success j)) /\
  reduce_finished j = finished_count (contents (reduce_success j)).

(** No task is reported as finished twice. *)
Definition once (s : coordinator) (r : request) : Prop :=
  allowed s r /\
  match r with
  | Finish argp => forall j, all_job s !! ft_job_id argp = Some j -> done j = false -> ft_success argp = true ->
      contents (if ft_reduce argp then reduce_success j else map_success j) !! Z.to_nat (ft_task argp) = Some false
  | _ => True
  end.

Lemma finished_count_insert l i : l !! i = Some false -> finished_count (<[i := true]> l) = finished_count l + 1.
Proof.
  intros H. unfold finished_count. rewrite <- (take_drop_middle l i false H) at 2.
  rewrite insert_take_drop by (by eapply lookup_lt_Some). rewrite !filter_app, !length_app.
  rewrite filter_cons_True, filter_cons_False by done. cbn [length]. lia.
Qed.
Lemma finished_count_replicate n : finished_count (replicate n false) = 0.
Proof. unfold finished_count. rewrite list_filter_none; [done|]. intros x Hx. apply elem_of_replicate in Hx as [-> _]. done. Qed.
Lemma finished_count_all l : finished_count l = Z.of_nat (length l) -> Forall (fun b => b = true) l.
Proof.
  unfold finished_count. induction l as [|b l IH]; intros H; [constructor|]. rewrite filter_cons in H.
  assert (length (filter (fun b => b = true) l) <= length l)%nat by apply length_filter.
  destruct (decide (b = true)) as [->|Hb]; cbn [length] in H; [constructor; [done|]; apply IH; lia|lia].
Qed.

Definition all_counted (s : coordinator) : Prop := forall id j, all_job s !! id = Some j -> done j = false -> counted j.

Lemma all_counted_update s s' id j : all_counted s -> all_job s' = <[id := j]> (all_job s) ->
  (done j = false -> counted j) -> all_counted s'.
Proof.
  intros Hs H Hj x y. rewrite H, lookup_insert_Some. intros [[<- <-]|[_ Hx]]; [done|]. by apply Hs with x.
Qed.

Lemma counted_allocated n : finished_count (contents (allocated_array n false)) = 0.
Proof. unfold allocated_array. destruct (n <? 0); [done|]. apply finished_count_replicate. Qed.

Lemma counted_reported j argp : counted j -> (ft_success argp = true ->
  contents (if ft_reduce argp then reduce_success j else map_success j) !! Z.to_nat (ft_task argp) = Some false) ->
  done (reported j argp) = false -> counted (reported j argp).
Proof.
  intros [Hm Hr] Hfalse. unfold reported, counted. destruct (ft_success argp); cbn [negb]; [|done]. specialize (Hfalse eq_refl).
  destruct (ft_reduce argp).
  - destruct (_ =? _); [done|]. intros _. cbn. by rewrite finished_count_insert, Hr.
  - intros _. cbn. by rewrite finished_count_insert, Hm.
Qed.

Lemma once_counted s : reachable qsort once s -> all_counted s.
Proof.
  intros H. assert (Hall : coord_ok s /\ all_counted s); [|apply Hall].
  induction H as [t l|s r a s' _ [Hok Hc] [Hallowed Honce] Hserve].
  { split; [apply coord_ok_init|]. intros id j Hj. cbn in Hj. by rewrite lookup_empty in Hj. }
  split.
  { destruct (serve_safe qsort r s Hok Hallowed) as (a' & s'' & H & Hok' & _). rewrite Hserve in H. by injection H as _ <-. }
  destruct r as [argp stat_fails|id| |argp]; unfold serve in Hserve.
  - destruct Hallowed as (Hid & Hargs & Hdir).
    destruct (submit_job_Ret qsort argp stat_fails s) as [dirs Hr]; [apply Hok|pose proof (co_next s Hok); lia|done..|].
    destruct (get_app qsort (s_app argp)); rewrite (bind_Ret _ _ _ _ _ Hr) in Hserve; injection Hserve as _ <-; [|done].
    eapply (all_counted_update s); [done|done|]. intros _. split; cbn; by rewrite counted_allocated.
  - destruct (poll_job_safe id s Hok) as (x & s1 & H & _). rewrite (bind_Ret _ _ _ _ _ H) in Hserve.
    injection Hserve as _ <-. unfold poll_job_1_svc, get_job_by_id in H. rewrite bind_gets in H. injection H as _ <-. done.
  - destruct (get_task_safe s Hok) as (x & s1 & H & _ & _ & Hx). rewrite (bind_Ret _ _ _ _ _ H) in Hserve. injection Hserve as _ <-.
    destruct Hx as [[_ Hx]|(id & j & i & reduce & t & Hj & Hd & _ & _ & _ & _ & _ & _ & Hx)].
    + intros id j. rewrite Hx. by apply Hc.
    + eapply (all_counted_update s); [done|exact Hx|]. intros _. specialize (Hc id j Hj Hd). by destruct reduce.
  - destruct (finish_task_safe argp s Hok Hallowed) as (x & s1 & H & _ & _ & Hx). rewrite (bind_Ret _ _ _ _ _ H) in Hserve.
    injection Hserve as _ <-. destruct (all_job s !! ft_job_id argp) as [j|] eqn:Hj; [|by subst]. destruct (done j) eqn:Hd; [by subst|].
    subst s1. unfold after_report. destruct (done (reported j argp)) eqn:Hd'.
    + eapply (all_counted_update s); [done|done|]. cbn. congruence.
    + eapply (all_counted_update s); [done|done|]. intros _. apply counted_reported; [by eapply Hc|by apply Honce|done].
Qed.

(** C21. If no task is reported as finished more than once, then a reduce task is only given out when
    every map task of its job has succeeded. *)
Theorem reduce_waits_for_maps s : reachable qsort once s ->
  exists reply s', get_task_1_svc s = Ret (reply, s') /\
    (r_wait reply = false -> r_reduce reply = true ->
     exists j, all_job s !! r_job_id reply = Some j /\ Z.of_nat (length (contents (map_success j))) = n_map j /\
       Forall (fun b => b = true) (contents (map_success j))).
Proof.
  intros Hs. assert (Hok : coord_ok s) by (eapply reachable_ok; [|exact Hs]; by intros ? ? []).
  destruct (get_task_safe s Hok) as (reply & s' & H & _ & _ & Hx). exists reply, s'. split; [done|]. intros Hw Hr.
  destruct Hx as [[Hx _]|(id & j & i & reduce & t & Hj & Hd & _ & Hm & Hid & _ & Hred & _ & _)]; [congruence|].
  exists j. rewrite Hid. split; [done|]. pose proof (co_jobs s Hok id j Hj Hd) as Hjok. pose proof (jo_maps id j Hjok).
  assert (Hl : Z.of_nat (length (contents (map_success j))) = n_map j).
  { rewrite (array_of_length _ (n_map j)) by apply Hjok. lia. }
  split; [done|]. apply finished_count_all. rewrite Hl, <- Hm by congruence. symmetry. by eapply (once_counted s Hs id).
Qed.

(** Submitting a job: of an unknown application the answer is -1 and only an identifier is used up;
    of a known one the answer is the next identifier, no job had it before, and the job is queued last
    with no task assigned or finished; and auxiliary arguments that arrive without a terminator, as
    the client sends them, are read past their end. *)
Theorem submit_job_correct argp stat_fails s : reachable qsort allowed s -> next_id s < INT_MAX ->
  (stat_fails = true -> s_output_dir argp <> []) ->
  let id := next_id s + 1 in
  let terminated := forall l, s_args argp = Some l -> 0 ∈ l in
  (get_app qsort (s_app argp) = None -> terminated -> submit_job_1_svc qsort argp stat_fails s = Ret (Some (-1), set_next_id s id)) /\
  (is_Some (get_app qsort (s_app argp)) -> terminated ->
   exists s', submit_job_1_svc qsort argp stat_fails s = Ret (Some id, s') /\ all_job s !! id = None /\
     all_job s' = <[id := new_job id argp]> (all_job s) /\ waiting_queue s' = waiting_queue s ++ [id]) /\
  (forall l, is_Some (get_app qsort (s_app argp)) -> s_args argp = Some l -> 0 ∉ l -> submit_job_1_svc qsort argp stat_fails s = UB).
Proof.
  intros Hs Hid Hdir id terminated. assert (Hok : coord_ok s) by (by eapply reachable_ok). pose proof (co_next s Hok).
  pose proof (co_mallocs s Hok) as Hm. split_and!.
  - intros Ha Ht. destruct (submit_job_Ret qsort argp stat_fails s Hm) as [dirs Hr]; [done..|]. by rewrite Ha in Hr.
  - intros [a Ha] Ht. destruct (submit_job_Ret qsort argp stat_fails s Hm) as [dirs Hr]; [done..|]. rewrite Ha in Hr.
    eexists. split; [exact Hr|]. split; [|done]. destruct (all_job s !! id) as [j|] eqn:Hj; [|done].
    apply (co_ids s Hok) in Hj. lia.
  - intros l Ha Hl Hz. by eapply submit_job_UB.
Qed.

End Properties.

(** * Concrete runs *)

Definition ex_request (args : option (list Z)) : submit_job_request :=
  mk_submit [chars "in0"; chars "in1"] (chars "out") (chars "wc") 1 args.
Fixpoint run_requests (rs : list request) (s : coordinator) : outcome (list answer * coordinator) :=
  match rs with
  | [] => Ret ([], s)
  | r :: rs => let? (a, s) := serve insertion_sort r s in let? (l, s) := run_requests rs s in Ret (a :: l, s)
  end.
Definition state_after (rs : list request) (s : coordinator) : coordinator :=
  match run_requests rs s with Ret (_, s) => s | _ => s end.
Definition ex_init : coordinator := coordinator_init 100 [] [].
Definition ex_submitted : coordinator := state_after [Submit (ex_request None) true] ex_init.

Lemma ex_submit_allowed s : next_id s < INT_MAX -> allowed s (Submit (ex_request None) true).
Proof. intros H. by split_and!. Qed.
Lemma ex_reachable rule : rule ex_init (Submit (ex_request None) true) -> reachable insertion_sort rule ex_submitted.
Proof.
  intros H. eapply (reach_step insertion_sort rule ex_init _ (Submitted (Some 1))); [apply reach_init|exact H|]. vm_compute. reflexivity.
Qed.

Example coordinator_safe_witness : exists a s', serve insertion_sort GetTask ex_submitted = Ret (a, s') /\ NoDup (waiting_queue s').
Proof.
  destruct (coordinator_safe insertion_sort ex_submitted GetTask) as (a & s' & H & _ & Hnd & _).
  - apply ex_reachable. by apply ex_submit_allowed.
  - exact I.
  - exists a, s'. split; [exact H|exact Hnd].
Defined.

Example get_task_schedule_witness : exists s', get_task_1_svc ex_submitted = Ret (task_result s', s') /\ r_task (task_result s') = 0.
Proof.
  destruct (get_task_schedule insertion_sort ex_submitted) as (s' & H & _ & Hm).
  - apply ex_reachable. by apply ex_submit_allowed.
  - reflexivity.
  - exists s'. split; [exact H|]. destruct (schedule ex_submitted) as [[[[id j] reduce] i]|] eqn:E; vm_compute in E; [|discriminate E].
    injection E as <- <- <- <-. destruct Hm as [-> _]. reflexivity.
Defined.

(** The requests of a run satisfy the rule. *)
Fixpoint trace_ok (rule : coordinator -> request -> Prop) (rs : list request) (s : coordinator) : Prop :=
  match rs with
  | [] => True
  | r :: rs => rule s r /\ match serve insertion_sort r s with Ret (_, s) => trace_ok rule rs s | _ => False end
  end.
Lemma trace_reachable rule rs : forall s, reachable insertion_sort rule s -> trace_ok rule rs s ->
  reachable insertion_sort rule (state_after rs s).
Proof.
  induction rs as [|r rs IH]; intros s Hs H; [exact Hs|]. destruct H as [Hr H]. unfold state_after. cbn [run_requests].
  destruct (serve insertion_sort r s) as [[a s1]| | |] eqn:E; [|done..]. cbn [obind].
  specialize (IH s1 (reach_step _ _ _ _ _ _ Hs Hr E) H). unfold state_after in IH. by destruct (run_requests rs s1) as [[l s2]| | |].
Qed.

(** Both map tasks were given out and reported once. *)
Definition once_trace : list request :=
  [Submit (ex_request None) true; GetTask; Finish (mk_finish 1 0 false true); GetTask; Finish (mk_finish 1 1 false true)].
Definition ex_mapped : coordinator := state_after once_trace ex_init.

Lemma once_finish s id task (j : job) : all_job s !! id = Some j -> 0 <= task < n_map j -> map_finished j < INT_MAX ->
  contents (map_success j) !! Z.to_nat task = Some false -> once s (Finish (mk_finish id task false true)).
Proof. intros Hj H1 H2 H3. split; intros j'; cbn; rewrite Hj; by intros [= <-]. Qed.

Lemma ex_mapped_reachable : reachable insertion_sort once ex_mapped.
Proof.
  apply trace_reachable; [apply reach_init|]. unfold once_trace. cbn [trace_ok].
  split; [split; [by apply ex_submit_allowed|exact I]|]. destruct (serve _ _ ex_init) as [[a0 s0]| | |] eqn:E0; vm_compute in E0; try discriminate E0.
  injection E0 as _ <-. split; [by split|]. destruct (serve _ _ _) as [[a1 s1]| | |] eqn:E1; vm_compute in E1; try discriminate E1.
  injection E1 as _ <-. split; [eapply once_finish; [vm_compute; reflexivity|by_compute|by_compute|vm_compute; reflexivity]|].
  destruct (serve _ _ _) as [[a2 s2]| | |] eqn:E2; vm_compute in E2; try discriminate E2. injection E2 as _ <-. split; [by split|].
  destruct (serve _ _ _) as [[a3 s3]| | |] eqn:E3; vm_compute in E3; try discriminate E3. injection E3 as _ <-.
  split; [eapply once_finish; [vm_compute; reflexivity|by_compute|by_compute|vm_compute; reflexivity]|]. vm_compute. exact I.
Qed.

Example reduce_waits_for_maps_witness : exists reply s', get_task_1_svc ex_mapped = Ret (reply, s') /\
  exists j, all_job ex_mapped !! 1 = Some j /\ Forall (fun b => b = true) (contents (map_success j)).
Proof.
  destruct (reduce_waits_for_maps insertion_sort ex_mapped ex_mapped_reachable) as (reply & s' & H & Hr).
  exists reply, s'. split; [exact H|].
  assert (Hc : exists r s1, get_task_1_svc ex_mapped = Ret (r, s1) /\ r_wait r = false /\ r_reduce r = true /\ r_job_id r = 1).
  { eexists _, _. split; [vm_compute; reflexivity|]. vm_compute. repeat split. }
  destruct Hc as (r & s1 & Hc & Hw & Hred & Hid). rewrite H in Hc. injection Hc as -> _.
  destruct (Hr Hw Hred) as (j & Hj & _ & Hall). rewrite Hid in Hj. exists j. split; [exact Hj|exact Hall].
Defined.

Example submit_job_correct_witness :
  submit_job_1_svc insertion_sort (ex_request (Some (chars "x"))) true ex_submitted = UB /\
  exists s', submit_job_1_svc insertion_sort (ex_request (Some (chars "x" ++ [0]))) true ex_submitted = Ret (Some 2, s').
Proof.
  assert (Hr : reachable insertion_sort allowed ex_submitted) by (apply ex_reachable; by apply ex_submit_allowed). split.
  - refine (proj2 (proj2 (submit_job_correct insertion_sort (ex_request (Some (chars "x"))) true ex_submitted Hr _ _)) (chars "x") _ _ _);
      [reflexivity|done|by eexists|done|]. by_compute.
  - destruct (proj1 (proj2 (submit_job_correct insertion_sort (ex_request (Some (chars "x" ++ [0]))) true ex_submitted Hr eq_refl ltac:(done))))
      as (s' & H & _); [by eexists| |by exists s'].
    intros l [= <-]. by_compute.
Defined.

(** Of a job of two map tasks, task 0 is given to a worker, times out after ten seconds, is given to
    another, and both report it: the job counts two finished map tasks, and with task 1 still running a
    reduce task is given out. *)
Definition late_trace : list request :=
  let report := Finish (mk_finish 1 0 false true) in
  [Submit (ex_request None) true; GetTask; GetTask; report; report; GetTask; GetTask].
Example late_duplicate_starts_reduces :
  exists a s, run_requests late_trace (coordinator_init 100 [0; 10] []) = Ret (a, s) /\
    r_reduce (task_result s) = true /\ r_wait (task_result s) = false /\
    option_map (fun j => (map_finished j, map_success j)) (all_job s !! 1) = Some (2, Live [true; false]).
Proof. eexists _, _. split; [vm_compute; reflexivity|]. by vm_compute. Qed.

(** A job without reduce tasks is never done, although all its tasks were finished. *)
Example no_reduce_tasks_never_done :
  let argp := mk_submit [chars "in0"] (chars "out") (chars "wc") 0 None in
  exists a s, run_requests [Submit argp true; GetTask; Finish (mk_finish 1 0 false true); GetTask; Poll 1] ex_init = Ret (a, s) /\
    waiting_queue s = [1] /\ r_wait (task_result s) = true /\ poll_result s = mk_poll false false false.
Proof. eexists _, _. split; [vm_compute; reflexivity|]. by vm_compute. Qed.

(** [submit_job_1_svc] does not look whether it got memory for the names and the arrays of a job (its fifth, sixth
    and eighth allocations): the job is queued and the next request for a task reads through a null pointer. *)
Example submit_out_of_memory :
  let submit_and_get fails := run_requests [Submit (ex_request None) true; GetTask] (coordinator_init 100 [] fails) in
  submit_and_get [true; true; true; true; false] = UB /\
  submit_and_get [true; true; true; true; true; false] = UB /\
  submit_and_get [true; true; true; true; true; true; true; false] = UB.
Proof. by vm_compute. Qed.
