(* ===== verification/Cluster.v ===== *)
(** The MapReduce cluster: the loop of hw-map-reduce/worker/worker.c against the coordinator, and what
    one worker makes of a job. *)
From S2P Require Import Prelude KStdlib MrLib MrApps Coordinator CoordinatorFacts Worker WorkerFacts.

(** * Definitions *)

Section Loop.
Context {F : Type} (handle : get_task_reply -> ST F bool).

(** The request that [finish_task] sends. *)
Definition finish_request (reply : get_task_reply) (success : bool) : finish_task_request :=
  mk_finish (r_job_id reply) (r_task reply) (r_reduce reply) success.

(** One iteration of [run_worker]: the state is the coordinator's and the worker's. *)
Definition worker_iteration (s : coordinator * F) : outcome (coordinator * F) :=
  let '(c, f) := s in
  let? (reply, c) := get_task_1_svc c in
  if r_wait reply then Ret (c, f)
  else
    let? (success, f) := handle reply f in
    let? (_, c) := finish_task_1_svc (finish_request reply success) c in
    Ret (c, f).

Fixpoint run_worker (n : nat) (s : coordinator * F) : outcome (coordinator * F) :=
  match n with
  | O => Ret s
  | S n => let? s := worker_iteration s in run_worker n s
  end.

Lemma run_worker_add m n s : run_worker (m + n) s = (let? s := run_worker m s in run_worker n s).
Proof. revert s. induction m as [|m IH]; intros s; [done|]. cbn [run_worker Nat.add]. destruct (worker_iteration s); cbn; [apply IH|done..]. Qed.

(** * One job and one worker

    All jobs but [id] are finished and the clock stands still at [t]. *)
Context (argp : submit_job_request) (id t : Z).
Hypothesis Ht : t <> 0.
Hypothesis Hreduce : 0 < s_n_reduce argp < INT_MAX.
Hypothesis Hfiles : Z.of_nat (length (s_files argp)) < INT_MAX.
#[local] Abbreviation n := (length (s_files argp)).
#[local] Abbreviation m := (Z.to_nat (s_n_reduce argp)).

(** The job after [a] map tasks and [b] reduce tasks. *)
Definition progress {A} (k total : nat) (x y : A) : ptr (list A) := Live (replicate k x ++ replicate (total - k) y).
Definition job_at (a b : nat) : job :=
  mk_job id (progress a n t 0) (s_n_reduce argp) (Live (s_files argp)) (Z.of_nat a) (progress a n true false) (Z.of_nat b)
    (progress b m true false) (progress b m t 0) (j_args (new_job id argp)) (Some (s_output_dir argp)) (Some (s_app argp))
    (Z.of_nat n) false false.

Record at_work (c : coordinator) (a b : nat) : Prop := {
  aw_ok : coord_ok c;
  aw_queue : waiting_queue c = [id];
  aw_job : all_job c !! id = Some (job_at a b);
  aw_now : now c = t;
  aw_later : later c = [] }.

Lemma new_job_at : new_job id argp = job_at 0 0.
Proof.
  unfold job_at, new_job, allocated_array, progress. replace (Z.of_nat n <? 0) with false by lia.
  replace (s_n_reduce argp <? 0) with false by lia. by rewrite !Nat.sub_0_r, !Nat2Z.id.
Qed.

Lemma find_task_none P l : forall i, Forall (fun x => P x.1 x.2 = false) l -> find_task P i l = None.
Proof. induction l as [|[x ok] l IH]; intros i H; [done|]. apply Forall_cons in H as [H1 H2]. cbn in *. rewrite H1. by apply IH. Qed.
Lemma find_task_some P l x l' : forall i, Forall (fun x => P x.1 x.2 = false) l -> P x.1 x.2 = true ->
  find_task P i (l ++ x :: l') = Some (i + Z.of_nat (length l)).
Proof.
  induction l as [|[y ok] l IH]; intros i Hl Hx; cbn [Datatypes.app find_task length].
  - destruct x as [y ok]. cbn in *. rewrite Hx. f_equal. lia.
  - apply Forall_cons in Hl as [H1 H2]. cbn in H1. rewrite H1, IH by done. f_equal. lia.
Qed.

Lemma tasks_progress k total : (k <= total)%nat ->
  tasks (progress k total t 0) (progress k total true false) = replicate k (t, true) ++ replicate (total - k) (0, false).
Proof.
  intros Hk. unfold tasks, progress. cbn. rewrite zip_with_app by (by rewrite !length_replicate). by rewrite !zip_with_replicate.
Qed.
Lemma none_expired k total : (k <= total)%nat ->
  find_task (is_expired t) 0 (tasks (progress k total t 0) (progress k total true false)) = None.
Proof.
  intros Hk. rewrite tasks_progress by done. apply find_task_none. apply Forall_app. split; apply Forall_replicate; cbn; [|done].
  unfold is_expired. by rewrite !andb_false_r.
Qed.
Lemma next_unassigned k total : (k < total)%nat ->
  find_task is_unassigned 0 (tasks (progress k total t 0) (progress k total true false)) = Some (Z.of_nat k).
Proof.
  intros Hk. rewrite tasks_progress by lia. replace (total - k)%nat with (S (total - S k)) by lia. cbn [replicate].
  rewrite find_task_some.
  - by rewrite length_replicate.
  - apply Forall_replicate. unfold is_unassigned. cbn. lia.
  - done.
Qed.
Lemma none_unassigned total :
  find_task is_unassigned 0 (tasks (progress total total t 0) (progress total total true false)) = None.
Proof.
  rewrite tasks_progress by lia. rewrite Nat.sub_diag, app_nil_r. apply find_task_none, Forall_replicate. unfold is_unassigned. cbn. lia.
Qed.

Lemma progress_step {A} k total (x y : A) : (k < total)%nat ->
  Live (<[k := x]> (contents (progress k total x y))) = progress (S k) total x y.
Proof.
  intros Hk. unfold progress. cbn [contents]. f_equal. rewrite replicate_S_end, <- app_assoc.
  rewrite insert_app_r_alt by (rewrite length_replicate; lia).
  rewrite length_replicate, Nat.sub_diag. replace (total - k)%nat with (S (total - S k)) by lia. done.
Qed.

Lemma schedule_map c a : at_work c a 0 -> (a < n)%nat -> schedule c = Some (id, job_at a 0, false, Z.of_nat a).
Proof.
  intros [Hok Hq Hj Hnow Hl] Ha. unfold schedule. rewrite Hq. cbn [first_job]. rewrite Hj, Hnow. unfold expired_in, unassigned_in.
  cbn [map_time map_success reduce_time reduce_success map_finished n_map job_at].
  rewrite none_expired by lia. replace (_ =? _) with false by lia. by rewrite next_unassigned by lia.
Qed.
Lemma schedule_reduce c b : at_work c n b -> (b < m)%nat -> schedule c = Some (id, job_at n b, true, Z.of_nat b).
Proof.
  intros [Hok Hq Hj Hnow Hl] Hb. unfold schedule. rewrite Hq. cbn [first_job]. rewrite Hj, Hnow. unfold expired_in, unassigned_in.
  cbn [map_time map_success reduce_time reduce_success map_finished n_map job_at].
  rewrite Z.eqb_refl, !none_expired by lia. rewrite none_unassigned. by rewrite next_unassigned by lia.
Qed.

(** The message that carries a task. *)
Record carries (reply : get_task_reply) (reduce : bool) (i : nat) : Prop := {
  ca_job : r_job_id reply = id;
  ca_task : r_task reply = Z.of_nat i;
  ca_reduce : r_reduce reply = reduce;
  ca_wait : r_wait reply = false;
  ca_file : reduce = false -> r_file reply = s_files argp !! i;
  ca_dir : r_output_dir reply = Some (s_output_dir argp);
  ca_app : r_app reply = Some (s_app argp);
  ca_n_reduce : r_n_reduce reply = s_n_reduce argp;
  ca_n_map : r_n_map reply = Z.of_nat n;
  ca_args : aux_of reply = default [] (j_args (new_job id argp)) }.

Lemma carries_task_reply old a b reduce i : carries (task_reply old (job_at a b) (Z.of_nat i) reduce) reduce i.
Proof.
  split; try done.
  - intros ->. cbn. by rewrite Nat2Z.id.
  - unfold aux_of, task_reply. cbn [job_at j_args r_args_len r_args_val]. destruct (j_args (new_job id argp)); cbn; [|done].
    by rewrite Nat2Z.id, take_ge.
Qed.

(** Computes the fields of a job. *)
Ltac job_fields :=
  unfold set_map_time, set_map_done, set_reduce_time, set_reduce_done, set_done, job_at;
  cbn [job_id n_reduce j_files map_time map_finished map_success reduce_finished reduce_success reduce_time j_args j_output_dir
       j_app n_map done failed].

Definition job_assigned (j : job) (i : nat) (reduce : bool) : job :=
  if reduce then assigned_reduce j (Z.of_nat i) t else assigned_map j (Z.of_nat i) t.

Lemma iteration_step c f a b reduce i f' : at_work c a b -> (a <= n)%nat -> (b <= m)%nat ->
  schedule c = Some (id, job_at a b, reduce, Z.of_nat i) -> (i < if reduce then m else n)%nat ->
  let reply := task_reply (wait_reply (task_result c)) (job_at a b) (Z.of_nat i) reduce in
  let j' := reported (job_assigned (job_at a b) i reduce) (finish_request reply true) in
  handle reply f = Ret (true, f') ->
  exists c', worker_iteration (c, f) = Ret (c', f') /\ coord_ok c' /\ now c' = t /\ later c' = [] /\
    all_job c' = <[id := if done j' then freed_job j' else j']> (all_job c) /\
    waiting_queue c' = if done j' then [] else [id].
Proof.
  intros [Hok Hq Hj Hnow Hl] Ha Hb Hs Hi reply j' Hh.
  pose proof (get_task_Ret c Hok Hl) as Hget. cbv zeta in Hget. rewrite Hs in Hget.
  set (c0 := given (set_task c (wait_reply (task_result c))) id (job_at a b) (Z.of_nat i) reduce) in *.
  assert (Hreply : task_result c0 = reply) by (unfold c0, given, ticked; cbn; by rewrite Hl).
  assert (Hok0 : coord_ok c0).
  { apply coord_ok_given; [by apply (coord_ok_same c)|done|done|]. destruct reduce; cbn; lia. }
  assert (Hjobs : all_job c0 = <[id := job_assigned (job_at a b) i reduce]> (all_job c)).
  { unfold c0, given, ticked, tick, job_assigned. cbn. rewrite Hl. cbn. rewrite Hnow. done. }
  assert (Hj0 : all_job c0 !! ft_job_id (finish_request reply true) = Some (job_assigned (job_at a b) i reduce)).
  { rewrite Hjobs. cbn. apply lookup_insert_eq. }
  assert (Hallowed : allowed c0 (Finish (finish_request reply true))).
  { intros j. rewrite Hj0. intros [= <-] _ _. cbn. unfold INT_MAX in *. destruct reduce; cbn; lia. }
  assert (Hd0 : done (job_assigned (job_at a b) i reduce) = false) by by destruct reduce.
  destruct (finish_task_Ret _ c0 _ Hok0 Hj0 Hd0 Hallowed) as [Hfin _].
  destruct (finish_task_safe _ c0 Hok0 Hallowed) as (u & c1 & Hfin' & Hok1 & _). rewrite Hfin in Hfin'. injection Hfin' as _ <-.
  exists (after_report c0 (finish_request reply true) (job_assigned (job_at a b) i reduce)).
  split; [|split; [done|]].
  - unfold worker_iteration. rewrite Hget. cbn [obind]. rewrite Hreply. change (r_wait reply) with false. cbn iota.
    rewrite Hh. cbn [obind]. by rewrite Hfin.
  - assert (Hc0 : now c0 = t /\ later c0 = [] /\ waiting_queue c0 = [id]).
    { unfold c0, given, ticked. cbn. by rewrite Hl. }
    destruct Hc0 as (H1 & H2 & H3). clearbody c0. unfold after_report. fold j'. cbv zeta. change (ft_job_id (finish_request reply true)) with id.
    destruct (done j'); cbn; rewrite ?H1, ?H2, ?H3, ?Hjobs, ?insert_insert_eq; split_and!; try done.
    cbn. by rewrite Z.eqb_refl.
Qed.

(** Tasks of the job succeed and lead from [P] to [Q]. *)
Definition succeeds (reduce : bool) (i : nat) (P Q : F -> Prop) : Prop :=
  forall reply f, carries reply reduce i -> P f -> exists f', handle reply f = Ret (true, f') /\ Q f'.

Lemma iteration_map c f a (P Q : F -> Prop) : at_work c a 0 -> (a < n)%nat -> succeeds false a P Q -> P f ->
  exists c' f', worker_iteration (c, f) = Ret (c', f') /\ at_work c' (S a) 0 /\ Q f'.
Proof.
  intros Hc Ha Hh Hf. set (reply := task_reply (wait_reply (task_result c)) (job_at a 0) (Z.of_nat a) false).
  destruct (Hh reply f) as (f' & Hf' & HQ); [apply carries_task_reply|done|].
  destruct (iteration_step c f a 0 false a f' Hc) as (c' & Hr & Hok & Hnow & Hl & Hj & Hq);
    [lia|lia|by apply schedule_map|done|done|]. exists c', f'. split; [done|]. split; [|done].
  assert (Hrep : reported (job_assigned (job_at a 0) a false) (finish_request reply true) = job_at (S a) 0).
  { unfold reported, job_assigned, assigned_map, finish_request, reply.
    cbn [negb ft_success ft_reduce ft_task r_task task_reply r_reduce]. job_fields.
    rewrite Nat2Z.id, !progress_step by done. f_equal. lia. }
  fold reply in Hj, Hq. rewrite Hrep in Hj, Hq. cbn in Hj, Hq. split; [done|done| |done|done]. rewrite Hj. apply lookup_insert_eq.
Qed.

(** The job is done. *)
Record at_rest (c : coordinator) : Prop := {
  ar_ok : coord_ok c;
  ar_queue : waiting_queue c = [];
  ar_job : exists j, all_job c !! id = Some j /\ done j = true /\ failed j = false;
  ar_now : now c = t;
  ar_later : later c = [] }.

Lemma iteration_reduce c f b (P Q : F -> Prop) : at_work c n b -> (b < m)%nat -> succeeds true b P Q -> P f ->
  exists c' f', worker_iteration (c, f) = Ret (c', f') /\
    (if decide (S b = m) then at_rest c' else at_work c' n (S b)) /\ Q f'.
Proof.
  intros Hc Hb Hh Hf. set (reply := task_reply (wait_reply (task_result c)) (job_at n b) (Z.of_nat b) true).
  destruct (Hh reply f) as (f' & Hf' & HQ); [apply carries_task_reply|done|].
  destruct (iteration_step c f n b true b f' Hc) as (c' & Hr & Hok & Hnow & Hl & Hj & Hq);
    [lia|lia|by apply schedule_reduce|done|done|]. exists c', f'. split; [done|]. split; [|done].
  assert (Hrep : reported (job_assigned (job_at n b) b true) (finish_request reply true) =
                 if decide (S b = m) then set_done (job_at n (S b)) true false else job_at n (S b)).
  { unfold reported, job_assigned, assigned_reduce, finish_request, reply.
    cbn [negb ft_success ft_reduce ft_task r_task task_reply r_reduce]. job_fields. rewrite Nat2Z.id, !progress_step by done.
    destruct (decide (S b = m)); [replace (_ =? _) with true by lia|replace (_ =? _) with false by lia]; job_fields; f_equal; lia. }
  fold reply in Hj, Hq. rewrite Hrep in Hj, Hq. case_decide; cbn in Hj, Hq.
  - split; [done|done| |done|done]. eexists. rewrite Hj. split; [apply lookup_insert_eq|done].
  - split; [done|done| |done|done]. rewrite Hj. apply lookup_insert_eq.
Qed.

Lemma run_maps (P : nat -> F -> Prop) k : (forall a, (a < n)%nat -> succeeds false a (P a) (P (S a))) ->
  forall a c f, at_work c a 0 -> (a + k <= n)%nat -> P a f ->
  exists c' f', run_worker k (c, f) = Ret (c', f') /\ at_work c' (a + k) 0 /\ P (a + k)%nat f'.
Proof.
  intros Hh. induction k as [|k IH]; intros a c f Hc Ha Hf.
  - exists c, f. rewrite Nat.add_0_r. by split_and!.
  - destruct (iteration_map c f a (P a) (P (S a)) Hc) as (c1 & f1 & Hr & Hc1 & Hf1); [lia|apply Hh; lia|done|].
    destruct (IH (S a) c1 f1 Hc1) as (c' & f' & Hr' & Hc' & Hf'); [lia|done|].
    exists c', f'. cbn [run_worker]. rewrite Hr. cbn [obind]. split; [done|].
    replace (a + S k)%nat with (S a + k)%nat by lia. by split.
Qed.

Lemma run_reduces (P : nat -> F -> Prop) k : (forall b, (b < m)%nat -> succeeds true b (P b) (P (S b))) ->
  forall b c f, at_work c n b -> (b + S k = m)%nat -> P b f ->
  exists c' f', run_worker (S k) (c, f) = Ret (c', f') /\ at_rest c' /\ P m f'.
Proof.
  intros Hh. induction k as [|k IH]; intros b c f Hc Hb Hf;
    (destruct (iteration_reduce c f b (P b) (P (S b)) Hc) as (c1 & f1 & Hr & Hc1 & Hf1); [lia|apply Hh; lia|done|]).
  - rewrite decide_True in Hc1 by lia. exists c1, f1. cbn [run_worker]. rewrite Hr. cbn [obind]. split; [done|].
    split; [done|]. by replace m with (S b) by lia.
  - rewrite decide_False in Hc1 by lia. destruct (IH (S b) c1 f1 Hc1) as (c' & f' & Hr' & Hc' & Hf'); [lia|done|].
    exists c', f'. change (run_worker (S (S k)) (c, f)) with (let? s := worker_iteration (c, f) in run_worker (S k) s).
    rewrite Hr. by cbn [obind].
Qed.

(** All map tasks and then all reduce tasks. *)
Lemma run_job (P R : nat -> F -> Prop) c f : at_work c 0 0 -> P 0%nat f ->
  (forall a, (a < n)%nat -> succeeds false a (P a) (P (S a))) ->
  (forall f, P n f -> R 0%nat f) ->
  (forall b, (b < m)%nat -> succeeds true b (R b) (R (S b))) ->
  exists c' f', run_worker (n + m) (c, f) = Ret (c', f') /\ at_rest c' /\ R m f'.
Proof.
  intros Hc Hf Hmap Hmid Hred. destruct (run_maps P n Hmap 0 c f Hc (le_n _) Hf) as (c1 & f1 & Hr & Hc1 & Hf1).
  destruct (run_reduces R (m - 1) Hred 0 c1 f1) as (c' & f' & Hr' & Hc' & Hf'); [done|lia|by apply Hmid|].
  exists c', f'. replace m with (S (m - 1)) at 1 by lia. rewrite run_worker_add, Hr. by cbn [obind].
Qed.

Lemma rest_poll c : at_rest c -> exists c', poll_job_1_svc id c = Ret (mk_poll true false false, c').
Proof.
  intros [Hok Hq (j & Hj & Hd & Hf) _ _]. destruct (poll_job_safe id c Hok) as (r & c' & Hr & _ & _ & Hp).
  rewrite Hj, Hd, Hf in Hp. exists c'. by rewrite Hr, Hp.
Qed.
End Loop.

(** A job submitted to an idle coordinator. *)
Lemma submit_at_work qsort argp stat_fails c : coord_ok c -> waiting_queue c = [] -> later c = [] ->
  0 < s_n_reduce argp < INT_MAX -> allowed c (Submit argp stat_fails) -> is_Some (get_app qsort (s_app argp)) ->
  exists c', submit_job_1_svc qsort argp stat_fails c = Ret (Some (next_id c + 1), c') /\
    at_work argp (next_id c + 1) (now c) c' 0 0.
Proof.
  intros Hok Hq Hl HR Hallowed [a Ha]. pose proof Hallowed as (Hid & Hargs & Hdir). pose proof (co_next c Hok).
  destruct (submit_job_safe qsort argp stat_fails c Hok Hallowed) as (r & c' & Hr & Hok' & _ & _).
  destruct (submit_job_Ret qsort argp stat_fails c) as [dirs Hs]; [apply Hok|done..|]. rewrite Ha in Hs.
  rewrite Hs in Hr. injection Hr as _ <-. eexists. split; [exact Hs|].
  split; cbn; [done|by rewrite Hq| |done|done]. rewrite lookup_insert_eq. f_equal. by apply new_job_at.
Qed.

(** C30. A job of a known application submitted to an idle coordinator is brought to completion by one
    worker whose tasks succeed, while the clock stands still: after one round per map task and per
    reduce task, of which there is at least one, the client's poll answers that the job is done and
    has not failed. *)
Theorem worker_completes_job {F} (handle : get_task_reply -> ST F bool) qsort argp stat_fails c f :
  reachable qsort allowed c -> waiting_queue c = [] -> later c = [] -> now c <> 0 ->
  0 < s_n_reduce argp < INT_MAX -> Z.of_nat (length (s_files argp)) < INT_MAX ->
  allowed c (Submit argp stat_fails) -> is_Some (get_app qsort (s_app argp)) ->
  (forall reply f, r_wait reply = false -> exists f', handle reply f = Ret (true, f')) ->
  exists id c1 c2 f2 c3,
    submit_job_1_svc qsort argp stat_fails c = Ret (Some id, c1) /\
    run_worker handle (length (s_files argp) + Z.to_nat (s_n_reduce argp)) (c1, f) = Ret (c2, f2) /\
    poll_job_1_svc id c2 = Ret (mk_poll true false false, c3).
Proof.
  intros Hc Hq Hl Hnow HR Hn Hallowed Happ Hh. assert (Hok : coord_ok c) by (by eapply reachable_ok).
  destruct (submit_at_work qsort argp stat_fails c Hok Hq Hl HR Hallowed Happ) as (c1 & Hs & Hw).
  assert (Hsucc : forall reduce i, succeeds handle argp (next_id c + 1) reduce i (fun _ => True) (fun _ => True)).
  { intros reduce i reply g Hr _. destruct (Hh reply g) as [g' Hg]; [apply Hr|]. by exists g'. }
  destruct (run_job handle argp (next_id c + 1) (now c) Hnow HR Hn (fun _ _ => True) (fun _ _ => True) c1 f Hw I)
    as (c2 & f2 & Hr & Hrest & _); [by intros..|].
  destruct (rest_poll _ _ c2 Hrest) as [c3 Hp]. by exists (next_id c + 1), c1, c2, f2, c3.
Qed.

(** A job of three map and two reduce tasks, with tasks that do nothing. *)
Example worker_completes_job_witness :
  let argp := mk_submit [chars "a"; chars "b"; chars "c"] (chars "out") (chars "grep") 2 (Some (chars "x" ++ [0])) in
  exists id c1 c2 f2 c3,
    submit_job_1_svc insertion_sort argp true (coordinator_init 100 [] []) = Ret (Some id, c1) /\
    run_worker (fun _ f => Ret (true, S f)) 5 (c1, 0%nat) = Ret (c2, f2) /\
    poll_job_1_svc id c2 = Ret (mk_poll true false false, c3).
Proof.
  intros argp. apply (worker_completes_job (fun _ f => Ret (true, S f)) insertion_sort argp true (coordinator_init 100 [] []) 0%nat).
  - apply reach_init.
  - reflexivity.
  - reflexivity.
  - discriminate.
  - by_compute.
  - by_compute.
  - split; [by_compute|]. split; [intros l [= <-]; by_compute|discriminate].
  - eexists. reflexivity.
  - intros reply f _. exists (S f). reflexivity.
Defined.
