(* ===== verification/MapReduce.v ===== *)
(** Word count through the whole MapReduce cluster: what the client submits, what the worker computes
    and what the output files hold; the other applications; and what modelling the cluster showed. *)
From S2P Require Import Prelude KString KStdlib Endian MrLib MrApps Worker Coordinator MrFacts WorkerFacts CoordinatorFacts Cluster.

(** * Words *)

Definition ends_word (cur : list Z) : list (list Z) := if (1 <? length cur)%nat then [map lower cur] else [].
(** The maximal runs of two letters or more, in lower case; [cur] is the run being read. *)
Fixpoint runs_of_letters (l cur : list Z) : list (list Z) :=
  match l with
  | [] => ends_word cur
  | b :: l => if isalpha (schar b) then runs_of_letters l (cur ++ [b]) else ends_word cur ++ runs_of_letters l []
  end.
Definition words (l : list Z) : list (list Z) := runs_of_letters l [].
Definition occurrences (w : list Z) (ws : list (list Z)) : Z := Z.of_nat (length (filter (fun x => x = w) ws)).

Definition word_pair (w : list Z) : key_value := mk_kv w (int_bytes 1).

Lemma num_words_loop_Ret l : forall num cur,
  num_words_loop l num (Z.of_nat (length cur)) = num + Z.of_nat (length (runs_of_letters l cur)).
Proof.
  assert (Hend : forall num cur, (if Z.of_nat (length cur) >? 1 then num + 1 else num) = num + Z.of_nat (length (ends_word cur))).
  { intros num cur. unfold ends_word. destruct (Nat.ltb_spec 1 (length cur)).
    - replace (_ >? _) with true by lia. cbn. lia.
    - replace (_ >? _) with false by lia. cbn. lia. }
  induction l as [|b l IH]; intros num cur; cbn [num_words_loop runs_of_letters]; [apply Hend|]. destruct (isalpha (schar b)).
  - replace (Z.of_nat (length cur) + 1) with (Z.of_nat (length (cur ++ [b]))) by (rewrite length_app; cbn; lia). apply IH.
  - rewrite (IH _ []), Hend, length_app. lia.
Qed.

(** At the end of a run the word is stored, for which there is room. *)
Lemma wc_map_loop_end fuel pre cur rest n kva :
  match rest with [] => cur <> [] | b :: _ => isalpha (schar b) = false end ->
  Z.of_nat (length kva + length (ends_word cur)) <= n ->
  wc_map_loop (S fuel) (pre ++ cur ++ rest) n (Z.of_nat (length pre)) (Z.of_nat (length pre + length cur)) kva =
  wc_map_loop fuel (pre ++ cur ++ rest) n (Z.of_nat (length pre + length cur) + 1) (Z.of_nat (length pre + length cur) + 1)
    (kva ++ map word_pair (ends_word cur)).
Proof.
  intros Hend Hn. cbn [wc_map_loop]. rewrite !length_app.
  assert (cur <> [] \/ rest <> []) by (destruct rest; [by left|by right]).
  replace (_ <? _) with true.
  2: { symmetry. apply Z.ltb_lt. destruct H; [destruct cur|destruct rest]; cbn [length]; done || lia. }
  assert (Hread : (if Z.of_nat (length pre + (length cur + length rest)) <=? Z.of_nat (length pre + length cur) then Ret true
     else let? b := aread (pre ++ cur ++ rest) (Z.of_nat (length pre + length cur)) in Ret (negb (isalpha (schar b)))) = Ret true).
  { destruct rest as [|b rest]; cbn [length]; [by replace (_ <=? _) with true by lia|].
    replace (_ <=? _) with false by lia. rewrite app_assoc. rewrite <- length_app, <- (Nat.add_0_r (length (pre ++ cur))).
    rewrite (aread_app (pre ++ cur) (b :: rest) b 0 eq_refl). cbn [obind]. by rewrite Hend. }
  rewrite Hread. cbn [obind]. unfold ends_word in *. destruct (Nat.ltb_spec 1 (length cur)); cbn [length map] in *.
  - replace (_ <? _) with true by lia. replace (Z.of_nat (length kva) <? n) with true by lia.
    replace (Z.to_nat (_ - _)) with (length cur) by lia. by rewrite Nat2Z.id, drop_app_length, take_app_length.
  - replace (_ <? _) with false by lia. by rewrite app_nil_r.
Qed.

Lemma wc_map_loop_Ret rest : forall fuel pre cur n kva, (length rest + 2 <= fuel)%nat ->
  Z.of_nat (length kva + length (runs_of_letters rest cur)) <= n ->
  wc_map_loop fuel (pre ++ cur ++ rest) n (Z.of_nat (length pre)) (Z.of_nat (length pre + length cur)) kva =
  Ret (kva ++ map word_pair (runs_of_letters rest cur)).
Proof.
  induction rest as [|b rest IH]; intros fuel pre cur n kva Hf Hn; destruct fuel as [|fuel]; cbn [length] in Hf; try lia.
  - cbn [runs_of_letters] in *. destruct cur as [|x cur].
    + cbn [wc_map_loop]. rewrite !app_nil_r. by rewrite Z.ltb_irrefl.
    + rewrite wc_map_loop_end by done. destruct fuel as [|fuel]; [lia|]. cbn [wc_map_loop]. rewrite !length_app.
      by replace (_ <? _) with false by (cbn [length]; lia).
  - cbn [runs_of_letters] in *. destruct (isalpha (schar b)) eqn:Hb.
    + cbn [wc_map_loop]. rewrite !length_app. cbn [length]. replace (_ <? _) with true by lia. replace (_ <=? _) with false by lia.
      replace (aread _ _) with (Ret b).
      2: { rewrite app_assoc. rewrite <- length_app, <- (Nat.add_0_r (length (pre ++ cur))).
           by rewrite (aread_app (pre ++ cur) (b :: rest) b 0 eq_refl). }
      cbn [obind]. rewrite Hb. cbn [negb].
      replace (Z.of_nat (length pre + length cur) + 1) with (Z.of_nat (length pre + length (cur ++ [b]))) by (rewrite length_app; cbn; lia).
      replace (pre ++ cur ++ b :: rest) with (pre ++ (cur ++ [b]) ++ rest) by (by rewrite <- !app_assoc). apply IH; [lia|done].
    + rewrite length_app in Hn. rewrite wc_map_loop_end by (done || lia).
      replace (pre ++ cur ++ b :: rest) with ((pre ++ cur ++ [b]) ++ [] ++ rest) by (by rewrite <- !app_assoc).
      replace (Z.of_nat (length pre + length cur) + 1) with (Z.of_nat (length (pre ++ cur ++ [b]))) at 1
        by (rewrite !length_app; cbn [length]; lia).
      replace (Z.of_nat (length pre + length cur) + 1) with (Z.of_nat (length (pre ++ cur ++ [b]) + length (@nil Z)))
        by (rewrite !length_app; cbn [length]; lia).
      rewrite IH; [|lia|rewrite length_app, length_map; lia]. by rewrite map_app, <- app_assoc.
Qed.

Lemma wc_map_Ret key buf aux : wc_map (mk_kv key buf) aux = Ret (map word_pair (words buf)).
Proof.
  unfold wc_map. cbn [kv_value]. assert (Hn : num_words buf = Z.of_nat (length (words buf))) by apply (num_words_loop_Ret buf 0 []).
  rewrite Hn. pose proof (wc_map_loop_Ret buf (length buf + 2) [] [] (Z.of_nat (length (words buf))) []) as H. cbn [length Z.of_nat] in H.
  change (Z.of_nat (0 + 0)) with 0 in H. rewrite !app_nil_l in H. change (Z.of_nat 0) with 0 in H. rewrite H.
  - cbn [obind]. rewrite length_map. by rewrite Z.eqb_refl.
  - lia.
  - done.
Qed.

(** The words are keys that the cluster can sort. *)
Lemma lower_letter b : 0 <= b < 256 -> isalpha (schar b) = true -> 0 < lower b < 256.
Proof.
  unfold isalpha, islower, isupper, lower, tolower, isupper, schar. intros Hb H.
  destruct (b <? 128) eqn:E; [|lia]. destruct ((65 <=? b) && (b <=? 90)) eqn:E'; rewrite u8_small; lia.
Qed.
Lemma runs_ordinary l : forall cur, is_bytes l -> Forall (fun b => 0 < lower b < 256) cur ->
  Z.of_nat (length cur + length l) < 2 ^ 31 -> Forall ordinary (runs_of_letters l cur).
Proof.
  assert (Hend : forall cur, Forall (fun b => 0 < lower b < 256) cur -> Z.of_nat (length cur) < 2 ^ 31 -> Forall ordinary (ends_word cur)).
  { intros cur H Hl. unfold ends_word. destruct (_ <? _)%nat; [|constructor]. constructor; [|constructor].
    split; [by apply Forall_fmap|]. by rewrite length_map. }
  induction l as [|b l IH]; intros cur Hl Hc Hn; cbn [runs_of_letters length] in *; [apply Hend; [done|lia]|].
  apply Forall_cons in Hl as [Hb Hl]. destruct (isalpha (schar b)) eqn:E.
  - apply IH; [done| |rewrite length_app; cbn; lia]. apply Forall_app. split; [done|]. constructor; [by apply lower_letter|constructor].
  - apply Forall_app. split; [apply Hend; [done|lia]|]. apply IH; [done|constructor|cbn [length]; lia].
Qed.
Lemma words_ordinary doc : is_bytes doc -> Z.of_nat (length doc) < 2 ^ 31 -> Forall ordinary (words doc).
Proof. intros. by apply runs_ordinary. Qed.

(** ** The reduction *)

Lemma sum_values_ones vs : Forall (fun kv => kv_value kv = int_bytes 1) vs -> forall count, 0 <= count ->
  count + Z.of_nat (length vs) < 2 ^ 31 -> sum_values vs count = Ret (count + Z.of_nat (length vs)).
Proof.
  induction 1 as [|kv vs Hkv _ IH]; intros count Hc Hn; cbn [sum_values length] in *; [by rewrite Z.add_0_r|].
  rewrite Hkv. change (int_at (int_bytes 1)) with (Ret 1). cbn [obind]. rewrite int_Ret by lia. cbn [obind].
  rewrite IH by lia. f_equal. lia.
Qed.

Definition pairs_of (ws : list (list Z)) : list key_value := map word_pair ws.

Lemma filter_pairs k ws : filter (has_key k) (pairs_of ws) = pairs_of (filter (fun x => x = k) ws).
Proof.
  induction ws as [|w ws IH]; [done|]. change (pairs_of (w :: ws)) with (word_pair w :: pairs_of ws).
  rewrite !filter_cons. cbn [kv_key word_pair]. destruct (decide (w = k)); [|done]. by rewrite IH.
Qed.
Lemma pairs_of_app l1 l2 : pairs_of (l1 ++ l2) = pairs_of l1 ++ pairs_of l2.
Proof. apply map_app. Qed.
Lemma partition_app R r l1 l2 : partition R r (l1 ++ l2) = partition R r l1 ++ partition R r l2.
Proof. apply filter_app. Qed.
Lemma concat_partitions R r docs :
  concat (map (fun doc => partition R r (pairs_of (words doc))) docs) = partition R r (pairs_of (concat (map words docs))).
Proof.
  induction docs as [|doc docs IH]; [done|]. cbn [map concat]. by rewrite pairs_of_app, partition_app, IH.
Qed.

Lemma partition_pairs R r ws : partition R r (pairs_of ws) = pairs_of (filter (fun w => reduce_task_of w R = r) ws).
Proof.
  induction ws as [|w ws IH]; [done|]. unfold partition in *. change (pairs_of (w :: ws)) with (word_pair w :: pairs_of ws).
  rewrite !filter_cons. cbn [kv_key word_pair]. destruct (decide (reduce_task_of w R = r)); [|done]. by rewrite IH.
Qed.

Lemma filter_partition R r w ws : filter (has_key w) (partition R r (pairs_of ws)) =
  if decide (reduce_task_of w R = r) then pairs_of (filter (fun x => x = w) ws) else [].
Proof.
  rewrite partition_pairs, filter_pairs, list_filter_filter. case_decide as H.
  - f_equal. apply list_filter_iff. intros x. split; [by intros []|]. intros ->. by split.
  - rewrite list_filter_none; [done|]. intros x _ [-> Hx]. done.
Qed.

Lemma wc_reduce_Ret R r w ws vs aux : Z.of_nat (length ws) < 2 ^ 31 -> vs ≡ₚ filter (has_key w) (partition R r (pairs_of ws)) -> vs <> [] ->
  wc_reduce w vs aux = Ret (mk_kv w (int_bytes (occurrences w ws))).
Proof.
  intros Hn Hvs Hne. rewrite filter_partition in Hvs. case_decide; [|by apply Permutation_nil_r in Hvs].
  pose proof (Permutation_length Hvs) as Hl. unfold pairs_of in Hl. rewrite length_map in Hl.
  pose proof (length_filter (fun x => x = w) ws).
  unfold wc_reduce. rewrite sum_values_ones.
  - cbn [obind]. unfold occurrences. by rewrite Hl, Z.add_0_l.
  - rewrite Hvs. unfold pairs_of. apply Forall_fmap. by apply Forall_true.
  - lia.
  - lia.
Qed.

(** * A word-count job *)

Section WordCount.
Context (can_write : list Z -> bool) (malloc_ok : Z -> bool).
Context (qsort : (key_value -> key_value -> Z) -> list key_value -> list key_value) `{!qsort_laws qsort}.
Hypothesis Hwrite : forall p, can_write p = true.
Hypothesis Hmalloc : forall n, malloc_ok n = true.

(** What [run_worker] does with a task: 0 is success. *)
Definition run_task (reply : get_task_reply) : ST (gmap (list Z) (list Z)) bool :=
  let! r := (if r_reduce reply then handle_reduce_task can_write malloc_ok qsort reply
             else handle_map_task can_write malloc_ok qsort reply) in
  ret (r =? 0).

Context (argp : submit_job_request) (docs : list (list Z)).
#[local] Abbreviation R := (s_n_reduce argp).
#[local] Abbreviation dir := (s_output_dir argp).
#[local] Abbreviation tmp := (TMP_FILE_FORMAT_STR dir).
#[local] Abbreviation output := (OUTPUT_FILE_FORMAT_STR dir).
#[local] Abbreviation ws := (concat (map words docs)).
Hypothesis Happ : s_app argp = chars "wc".
Hypothesis HR : 0 < R < INT_MAX.
Hypothesis Hne : s_files argp <> [].
Hypothesis Hlen : length docs = length (s_files argp).
Hypothesis Hdocs : Forall (fun doc => is_bytes doc /\ Z.of_nat (length doc) < 2 ^ 31) docs.
Hypothesis Hwords : Z.of_nat (length ws) < 2 ^ 31.
Hypothesis Hpaths : forall file, file ∈ s_files argp -> (forall i j, file <> tmp i j) /\ (forall r, file <> output r).

Definition inputs (fs : gmap (list Z) (list Z)) : Prop :=
  forall i file, s_files argp !! i = Some file -> exists doc, docs !! i = Some doc /\ fs !! file = Some doc.
Definition mapped (a : nat) (fs : gmap (list Z) (list Z)) : Prop :=
  inputs fs /\ forall i doc r, (i < a)%nat -> docs !! i = Some doc -> 0 <= r < R ->
    fs !! tmp (Z.of_nat i) r = Some (kv_stream (partition R r (pairs_of (words doc)))).
(** The pairs of output file [r]: each word of its partition once, with its number of occurrences. *)
Definition result_file (r : Z) (fs : gmap (list Z) (list Z)) : Prop :=
  exists outs, fs !! output r = Some (kv_stream outs) /\ NoDup (map kv_key outs) /\
    forall w v, mk_kv w v ∈ outs <-> w ∈ ws /\ reduce_task_of w R = r /\ v = int_bytes (occurrences w ws).
Definition reduced_to (b : nat) (fs : gmap (list Z) (list Z)) : Prop :=
  mapped (length (s_files argp)) fs /\ forall r, 0 <= r < Z.of_nat b -> result_file r fs.

Lemma get_wc : get_app qsort (s_app argp) = Some (mk_app (chars "wc") wc_map wc_reduce (wc_process_output qsort)).
Proof. rewrite Happ. reflexivity. Qed.

Lemma doc_ok i doc : docs !! i = Some doc -> is_bytes doc /\ Z.of_nat (length doc) < 2 ^ 31.
Proof. intros H. exact (Forall_lookup_1 _ _ _ _ Hdocs H). Qed.

Lemma wc_map_task id a : (a < length (s_files argp))%nat -> succeeds run_task argp id false a (mapped a) (mapped (S a)).
Proof.
  intros Ha reply fs [] [Hin Hm].
  destruct (lookup_lt_is_Some_2 (s_files argp) a Ha) as [file Hfile]. destruct (Hin a file Hfile) as (doc & Hdoc & Hfs).
  destruct (Hpaths file) as [Hp1 Hp2]; [by eapply list_elem_of_lookup_2|].
  destruct (handle_map_task_Ret can_write malloc_ok qsort reply (s_app argp) dir file
    (mk_app (chars "wc") wc_map wc_reduce (wc_process_output qsort)) ca_app get_wc ca_dir) with
    (contents := doc) (kvs := pairs_of (words doc)) (fs := fs) as (fs' & Hr & Hw & Ho).
  - rewrite ca_task. lia.
  - rewrite ca_n_reduce. unfold INT_MAX in HR. lia.
  - by rewrite ca_file.
  - intros. apply Hwrite.
  - intros. apply Hp1.
  - done.
  - apply Hmalloc.
  - apply wc_map_Ret.
  - rewrite ca_task, ca_n_reduce in *. exists fs'. split.
    { unfold run_task. rewrite ca_reduce. unfold bind. by rewrite Hr. }
    split.
    + intros i f Hf. destruct (Hin i f Hf) as (d & Hd & Hfd). exists d. split; [done|]. rewrite Ho; [done|].
      intros r _ ->. destruct (Hpaths (tmp (Z.of_nat a) r)) as [H _]; [by eapply list_elem_of_lookup_2|]. by eapply H.
    + intros i d r Hi Hd Hr'. destruct (decide (i = a)) as [->|Hia].
      * rewrite Hw by done. by rewrite Hdoc in Hd; injection Hd as ->.
      * rewrite Ho; [apply Hm; [lia|done|done]|]. intros r' _ H. apply tmp_path_inj in H as [H _]; lia.
Qed.

Lemma words_in doc w : doc ∈ docs -> w ∈ words doc -> ordinary w.
Proof.
  intros Hd Hw. apply list_elem_of_lookup_1 in Hd as [i Hi]. destruct (doc_ok i doc Hi).
  pose proof (words_ordinary doc) as Ho. rewrite Forall_forall in Ho. by apply Ho.
Qed.
Lemma pair_readable w : ordinary w -> kv_readable malloc_ok (word_pair w).
Proof. intros [_ Hl]. split; split; cbn; try apply Hmalloc; lia. Qed.
Lemma partition_elem r l kv : kv ∈ partition R r (pairs_of l) -> exists w, kv = word_pair w /\ w ∈ l /\ reduce_task_of w R = r.
Proof. rewrite partition_pairs. intros H. apply list_elem_of_fmap in H as (w & -> & H). apply list_elem_of_filter in H as [H1 H2]. eauto. Qed.

Lemma wc_results r ks outs aux : NoDup ks -> (forall k, k ∈ ks <-> k ∈ map kv_key (partition R r (pairs_of ws))) ->
  Forall2 (result_of wc_reduce aux (partition R r (pairs_of ws))) ks outs ->
  NoDup (map kv_key outs) /\
  forall w v, mk_kv w v ∈ outs <-> w ∈ ws /\ reduce_task_of w R = r /\ v = int_bytes (occurrences w ws).
Proof.
  intros Hnd Hks H2. assert (Hin : forall k, k ∈ ks <-> k ∈ ws /\ reduce_task_of k R = r).
  { intros k. rewrite Hks, partition_pairs. unfold pairs_of. change (map ?f ?l) with (f <$> l).
    rewrite <- list_fmap_compose, list_elem_of_fmap. setoid_rewrite list_elem_of_filter.
    split; [by intros (w & -> & H & Hw)|]. intros [H1 H2']. by exists k. }
  assert (Houts : outs = map (fun w => mk_kv w (int_bytes (occurrences w ws))) ks).
  { assert (Hall : forall k, k ∈ ks -> k ∈ map kv_key (partition R r (pairs_of ws))) by (intros k; by rewrite Hks).
    clear Hnd Hks Hin. induction H2 as [|k out ks outs (vs & Hvs & Hred) _ IH]; [done|]. cbn [map]. f_equal; [|apply IH; intros; apply Hall; by right].
    assert (Hk : k ∈ map kv_key (partition R r (pairs_of ws))) by (apply Hall; by left).
    apply list_elem_of_fmap in Hk as (kv & Hk & Hkv). rewrite (wc_reduce_Ret R r k ws vs) in Hred; [by injection Hred as <-|done|done|].
    intros ->. symmetry in Hvs. apply Permutation_nil_r in Hvs.
    assert (kv ∈ filter (has_key k) (partition R r (pairs_of ws))) by (apply list_elem_of_filter; by split). rewrite Hvs in *. set_solver. }
  subst outs. split.
  - rewrite map_map. cbn. by rewrite map_id.
  - intros w v. change (map ?f ?l) with (f <$> l) at 1. rewrite list_elem_of_fmap. setoid_rewrite Hin. split.
    + intros (k & [= -> ->] & H1 & H3). done.
    + intros (H1 & H3 & ->). by exists w.
Qed.

Lemma wc_reduce_task id b : (b < Z.to_nat R)%nat -> succeeds run_task argp id true b (reduced_to b) (reduced_to (S b)).
Proof.
  intros Hb reply fs [] [[Hin Hm] Hres]. set (r := Z.of_nat b) in *.
  set (kvss := map (fun doc => partition R r (pairs_of (words doc))) docs).
  assert (Hall : concat kvss = partition R r (pairs_of ws)) by apply concat_partitions.
  assert (Hord : Forall (fun kv => ordinary (kv_key kv)) (concat kvss)).
  { rewrite Hall. apply Forall_forall. intros kv Hkv. apply partition_elem in Hkv as (w & -> & Hw & _). cbn.
    apply list_elem_of_In, in_concat in Hw as (l & Hl & Hw). apply in_map_iff in Hl as (doc & <- & Hd).
    eapply words_in; by apply list_elem_of_In. }
  destruct (handle_reduce_task_Ret can_write malloc_ok qsort reply (s_app argp) dir
    (mk_app (chars "wc") wc_map wc_reduce (wc_process_output qsort)) ca_app get_wc ca_dir kvss fs) as (ks & outs & Hr & Hnd & Hks & H2).
  - unfold kvss. by rewrite ca_n_map, length_map, Hlen.
  - intros H. apply (f_equal length) in H. unfold kvss in H. rewrite length_map, Hlen in H. destruct (s_files argp); done.
  - intros i kvs Hi. unfold kvss in Hi. change (map ?f ?l) with (f <$> l) in Hi. rewrite list_lookup_fmap in Hi.
    destruct (docs !! i) as [doc|] eqn:Hd; [|done]. injection Hi as <-. rewrite ca_task. split.
    + apply Hm; [|done|lia]. apply lookup_lt_Some in Hd. lia.
    + apply Forall_forall. intros kv Hkv. apply partition_elem in Hkv as (w & -> & Hw & _).
      apply pair_readable. eapply words_in; [by eapply list_elem_of_lookup_2|done].
  - apply Hwrite.
  - apply Hmalloc.
  - done.
  - intros k vs Hvs Hp. rewrite Hall in Hp. eexists. cbn [app_reduce]. eapply wc_reduce_Ret; [exact Hwords|exact Hp|done].
  - rewrite Hall in Hks, H2. cbn [app_reduce] in H2. destruct (wc_results r ks outs _ Hnd Hks H2) as [H3 H4].
    rewrite ca_task in Hr. fold r in Hr. eexists. split.
    { unfold run_task. rewrite ca_reduce. unfold bind. by rewrite Hr. }
    split; [split|].
    + intros i f Hf. destruct (Hin i f Hf) as (d & Hd & Hfd). exists d. split; [done|]. rewrite lookup_insert_ne; [done|].
      destruct (Hpaths f) as [_ H]; [by eapply list_elem_of_lookup_2|]. intros H'. by eapply H.
    + intros i d r' Hi Hd Hr'. rewrite lookup_insert_ne; [by apply Hm|]. intros H. symmetry in H. by apply tmp_output_ne in H; [|lia].
    + intros r' Hr'. destruct (decide (r' = r)) as [->|Hne'].
      * exists outs. rewrite lookup_insert_eq. by split_and!.
      * destruct (Hres r') as (outs' & Ho & H5); [lia|]. exists outs'. split; [|done].
        rewrite lookup_insert_ne; [done|]. intros H. by apply output_path_inj in H.
Qed.

(** C4. A word-count job submitted to an idle coordinator and worked on by one worker, while the clock
    stands still, is done after one round per map and reduce task; and then output file [r] holds each
    word of the input files whose hash is [r] exactly once, with its number of occurrences in all the
    input files together. *)
Theorem word_count_job stat_fails c fs : reachable qsort allowed c -> waiting_queue c = [] -> later c = [] -> now c <> 0 ->
  Z.of_nat (length (s_files argp)) < INT_MAX -> allowed c (Submit argp stat_fails) -> inputs fs ->
  exists id c1 c2 fs2 c3,
    submit_job_1_svc qsort argp stat_fails c = Ret (Some id, c1) /\
    run_worker run_task (length (s_files argp) + Z.to_nat R) (c1, fs) = Ret (c2, fs2) /\
    poll_job_1_svc id c2 = Ret (mk_poll true false false, c3) /\
    forall r, 0 <= r < R -> result_file r fs2.
Proof.
  intros Hc Hq Hl Hnow Hn Hallowed Hfs. assert (Hok : coord_ok c) by (by eapply reachable_ok).
  destruct (submit_at_work qsort argp stat_fails c Hok Hq Hl HR Hallowed) as (c1 & Hs & Hw); [by rewrite get_wc|].
  set (id := next_id c + 1) in *.
  destruct (run_job run_task argp id (now c) Hnow HR Hn mapped reduced_to c1 fs Hw) as (c2 & fs2 & Hr & Hrest & [_ Hres]).
  - split; [done|]. lia.
  - apply wc_map_task.
  - intros f Hf. split; [done|]. lia.
  - apply wc_reduce_task.
  - destruct (rest_poll id (now c) c2 Hrest) as [c3 Hp]. exists id, c1, c2, fs2, c3. split_and!; try done.
    intros r Hr'. apply Hres. lia.
Qed.
End WordCount.

(** * Concrete runs *)

Definition always {A} (_ : A) : bool := true.
Definition ex_job : submit_job_request := mk_submit [chars "in0"; chars "in1"] (chars "out") (chars "wc") 2 None.
Definition ex_docs : list (list Z) := [chars "to be or not to be"; chars "To err is human, to be is to do"].
Definition ex_files : gmap (list Z) (list Z) := list_to_map (zip (s_files ex_job) ex_docs).

Lemma ex_paths file : file ∈ s_files ex_job ->
  (forall i j, file <> TMP_FILE_FORMAT_STR (chars "out") i j) /\ (forall r, file <> OUTPUT_FILE_FORMAT_STR (chars "out") r).
Proof.
  intros H. repeat (apply elem_of_cons in H as [->|H]; [split; intros; discriminate|]). set_solver.
Qed.
Lemma ex_inputs : inputs ex_job ex_docs ex_files.
Proof. intros [|[|i]] file; cbn; intros [= <-]; eexists; (split; [reflexivity|vm_compute; reflexivity]). Qed.

Example word_count_job_witness : exists id c1 c2 fs2 c3,
  submit_job_1_svc insertion_sort ex_job true (coordinator_init 100 [] []) = Ret (Some id, c1) /\
  run_worker (run_task always always insertion_sort) 4 (c1, ex_files) = Ret (c2, fs2) /\
  poll_job_1_svc id c2 = Ret (mk_poll true false false, c3) /\
  forall r, 0 <= r < 2 -> result_file ex_job ex_docs r fs2.
Proof.
  apply (word_count_job always always insertion_sort (fun _ => eq_refl) (fun _ => eq_refl) ex_job ex_docs).
  - reflexivity.
  - by_compute.
  - discriminate.
  - reflexivity.
  - repeat constructor; by_compute.
  - by_compute.
  - apply ex_paths.
  - apply reach_init.
  - reflexivity.
  - reflexivity.
  - discriminate.
  - by_compute.
  - split; [by_compute|]. split; discriminate.
  - apply ex_inputs.
Defined.

(** The keys of vertex degree are the bytes of an [int], which [by_key] compares up to a NUL byte: the
    edges 256-512 and 256-768 make one group of the three vertices, reported as vertex 256 with
    degree 4. *)
Example vertex_degree_merges_vertices :
  let reply reduce := mk_reply 1 0 (Some (chars "in")) (Some (chars "out")) (Some (chars "vertex-degree")) 1 1 reduce false 0 None in
  let fs0 := <[chars "in" := chars "256 512 256 768"]> ∅ in
  (let? (mapped, fs1) := run_task always always insertion_sort (reply false) fs0 in
   let? (reduced, fs2) := run_task always always insertion_sort (reply true) fs1 in
   Ret (mapped, reduced, fs2 !! OUTPUT_FILE_FORMAT_STR (chars "out") 0)) =
  Ret (true, true, Some (kv_stream [mk_kv (int_bytes 256) (int_bytes 4)])).
Proof. vm_compute. reflexivity. Qed.

(** The last line of a file that does not end in a newline is not searched. *)
Example grep_skips_unterminated_line :
  find_occurrences (chars "error one" ++ [newline] ++ chars "error two") (chars "error") = [(1, chars "error one")].
Proof. reflexivity. Qed.
